(* ===== verification/_CoqProject ===== *)
-Q . S2P
Prelude.v
Pmm.v
Vmm.v
VmmProofs.v
AddressSpace.v
Heap.v
HeapProofs.v
NewDelete.v
Libc.v
Keyboard.v
Scheduler.v
SchedulerProofs.v
Vfs.v
VfsProofs.v
Bytes.v
Ext2Layout.v
Ext2.v
Ext2Files.v
Ext2Proofs.v
Ext2Alloc.v
Ext2Mount.v
Ext2Dir.v
Ext2DirOps.v
Ext2Read.v
Ext2Grow.v
Ext2Write.v
Ext2Tree.v
Ext2Create.v
Ext2Unlink.v
Ext2Image.v
Ext2Driver.v
Io.v
Format.v
Terminal.v
Printf.v
Screen.v
Serial.v
Pic.v
Timer.v
Multiboot.v
Boot.v
Gdt.v
Idt.v
Interrupts.v
Pci.v
Rtc.v
StatusBar.v
UserSpace.v
Elf.v
ElfProofs.v
Syscall.v
SyscallProofs.v
Tar.v
ShellLine.v
ShellCommands.v
Ahci.v
AhciProofs.v
AhciSim.v
Panic.v
ShellInfo.v
ShellInfoProofs.v
KernelMain.v
