(* ===== verification/Prelude.v ===== *)
(** * WengShiOS: a verification library

    WengShiOS is a small x86_64 kernel in C++ ([src/src/]).  The boot loader
    hands a memory map to [kernel_main]; the kernel builds a frame allocator,
    page tables and a heap, programs the interrupt controller, timer, keyboard,
    serial port and terminal, starts a round-robin scheduler, and runs a shell.
    The shell and user programs (ELF files, entered through ten system calls)
    use a virtual file system with an ext2 driver behind it.

    This library models the kernel as executable functions and proves what its
    components promise and that they keep these promises when put together.
    Every definition keeps the name of the function or variable it models.

    ** Conventions

    - A w-bit integer is a [Z]; results that the code stores in w bits are
      wrapped by [u8], [u16], [u32], [u64] (or [s32], [s64]).
    - Code that can go wrong is in the monad [outcome]: [Ok] is a result,
      [Fault] an access outside an object, an access to something that is not
      there, or another undefined operation, and [Halt] code that does not
      return (a loop that spins, a processor that stops).  A theorem that an
      operation is correct says that it is [Ok].
    - Mutable globals of a source file are the fields of one record, passed and
      returned; pointer structures (page tables, heap headers, the ring of
      tasks) are finite maps from addresses, with their aliasing.
    - Loops without a bound of their own carry fuel.  Where the bound is known
      to the model the definition supplies it: the number of live headers for
      the heap's list ([list_fuel]), of tasks for the ring ([ring_fuel]), of
      bytes for a string ([fuel_of]) or a directory block ([walk_fuel]), of
      bytes for the tags of the boot information.  The theorems show that these
      suffice, so running out of fuel is never a hidden hypothesis.  Loops that
      wait for a device, for a tick or for a user string take the fuel as an
      argument, and the theorems say how much is enough.
    - What is not in the repository is a parameter: port devices ([PortIO] with
      the laws [Uart], [Pics], [PciBus], [Cmos] of the chips), disks
      ([BlockDev] with [BlockDevLaws]), the contents of fresh memory
      ([Uninit]), the linker's symbols and the assembly stubs' addresses.

    ** Files

    Memory.
    - [Pmm]: [mm/pmm.cpp], the frame bitmap, refined to a set of free frames;
      it is an instance of [FrameAllocator].
    - [Vmm], [VmmProofs], [AddressSpace]: [mm/vmm.cpp], four-level tables
      reached through the recursive slot, over any [FrameAllocator]; mapping,
      unmapping and address spaces as changes of one translation function.
    - [Heap], [HeapProofs]: [mm/heap.cpp], the linked list of headers, refined
      to first fit on a list of blocks, over any [PageMapper], of which the
      virtual memory manager is an instance; [NewDelete]: [mm/new_delete.cpp].
    - [Multiboot], [Boot]: [kernel/multiboot.cpp] and the memory set-up of
      [kernel/main.cpp], composed with [Pmm].

    Processor and devices.
    - [Io]: [arch/x86_64/io.h]; [Gdt], [Idt]: the descriptor tables;
      [Pic], [Timer]: [pic.cpp], [timer.cpp]; [Interrupts]: [irq_handler] of
      [idt.cpp] with the handlers the kernel registers.
    - [Keyboard], [Serial], [Pci], [Rtc], [Terminal], [StatusBar]: the drivers
      of the same names under [drivers/] ([Rtc] holds [cmos.cpp], [rtc.cpp] and
      [power.cpp]); [Format]: the digits they print.
    - [Libc], [Printf]: [libc/]; [Screen]: what a well-formed terminal is, and
      the types of formats.
    - [Ahci], [AhciProofs], [AhciSim]: [drivers/ahci/ahci.cpp] over the memory,
      the registers and the ticks of the machine ([AhciHost]); [AhciDevice] is
      what the AHCI and ATA specifications say of the controller, and [AhciSim]
      a controller that does it.
    - [Panic]: [kernel/panic.cpp] and [isr_handler] of [idt.cpp].

    Tasks and programs.
    - [Scheduler], [SchedulerProofs]: [shed/scheduler.cpp], over the stacks and
      the keyboard focus ([TaskServices]).
    - [UserSpace], [Elf], [ElfProofs]: [file_formats/elf/elf.cpp]; [UserSpace]
      is the interface to the memory of the current task.
    - [Syscall], [SyscallProofs]: [kernel/syscall.cpp] and
      [arch/x86_64/usermode.cpp], over all of the above.  A call that blocks
      ends with its task blocked; [resume] is the rest of it.

    - [KernelMain]: [kernel_main] of [kernel/main.cpp], the order in which all
      of this comes up.

    Files.
    - [Vfs], [VfsProofs]: [fs/vfs.cpp], over any table of driver functions.
    - [Bytes]: packed little-endian structures; [Ext2Layout], [Ext2],
      [Ext2Files]: [fs/ext2/ext2.cpp]; [Ext2Proofs] (blocks and inodes),
      [Ext2Alloc] (bitmaps and counts), [Ext2Mount], [Ext2Dir] and [Ext2DirOps]
      (directories), [Ext2Read], [Ext2Grow] and [Ext2Write] (file contents and
      the blocks added to a file, the block of pointers included), [Ext2Tree]
      (inodes in use, directory trees and paths), [Ext2Create] and [Ext2Unlink]
      (making and removing files and directories), [Ext2Image] (a disk on which
      they are evaluated), [Ext2Driver] (the driver's table behind [Vfs]).
    - [Tar]: [file_formats/tar/tar.cpp].

    Shell.
    - [ShellLine]: the line editor, history, prompt and tokenizer of
      [shell/shell.cpp], over any interpretation of the commands.
    - [ShellCommands]: the commands on files and the table of commands;
      [ShellInfo]: the other commands, on a machine with all components;
      [ShellInfoProofs].

    ** Theorems

    - Memory: after the set-up exactly the frames of the usable regions that
      neither the kernel nor the bitmap occupies are free; allocation is
      next-fit; mapping and unmapping change one translation; a new address
      space agrees with the old one on the kernel half; [kmalloc] and [kfree]
      implement the operations on lists of blocks and keep them laid out.
    - Time and tasks: the start of the kernel establishes the scheduler's
      invariant ([sched_inv]); a tick is round robin and a ready task runs within one
      round; [killTask] ends one task; a timer interrupt does all of this and
      acknowledges the interrupt; a sleep returns.
    - Devices: the tables the processor reads decode to the segments and gates
      intended; enumeration finds the functions present; the keyboard delivers
      what was typed in order; the terminal shows the last rows of the text
      written; [printf]'s output reads back as its arguments, and [printf]
      returns exactly when they have the types its format asks for; every
      exception is reported on the screen and the serial line.
    - Disks: a port with a drive comes up, and any sequence of sector reads and
      writes through the driver is the same sequence on the drive's bytes.
    - File systems: path normalisation and resolution against reference
      definitions; descriptors and offsets; ext2 inodes, bitmaps, directories
      and file contents: [read] returns a slice of the file and [write] replaces
      one, growing the file; [create], [unlinkFile] and [rmdirPath] as changes of
      one name of a tree of directories, with what they take or free and
      everything else as before; mounting as the inverse of writing back;
      making, writing and reading an ext2 file through the virtual file system.
    - Programs: loading, rejecting bad files, [exec], file access, the break,
      and the read of a key that blocks, is woken and returns.
    - Shell: a session of keys runs the lines entered, as edited, in order;
      [cd] and [cat] print the file they name, [ls] the entries of a directory,
      [kill] and [ps] end and list tasks, [readtest] shows a sector.

    Where the code does not do what it means to, the library proves what it
    does (for instance [Pmm.markRegionFree_rounds_start_down],
    [AddressSpace.unmapPage_ignores_large_pages],
    [VfsProofs.root_mount_unreachable],
    [SchedulerProofs.tick_revives_stopped_task]).

    ** Not modelled

    - The theorems on [create] are about directories with room for the name in
      a block they have; the code that adds a block to a directory is modelled.
    - Interrupts that arrive while [kernel_main] runs, the bodies of the global
      constructors, and the declarations of the headers.
    - The link between a block device of the virtual file system and the disk
      driver: [Ext2] takes any [BlockDev], whose requests leave no trace but
      their effect, while the driver also uses up a frame for each.
    - The assembly files: what they do to the C++ state is stated where a
      definition relies on it.
    - Interrupts arrive between the steps of a theorem, not inside a function;
      [SyscallProofs] states the interleavings it considers explicitly.
    - Serial and terminal messages that only report progress, and those of the
      disk driver. *)

From stdpp Require Export base list list_numbers numbers gmap sets option.
#[global] Open Scope Z_scope.

(** ** Machine integers

    A w-bit unsigned integer of the C++ code is a [Z] in [0, 2^w); every
    arithmetic result that the code stores in such a type is wrapped. *)

Definition u8 (x : Z) : Z := x mod 2 ^ 8.
Definition u16 (x : Z) : Z := x mod 2 ^ 16.
Definition u32 (x : Z) : Z := x mod 2 ^ 32.
Definition u64 (x : Z) : Z := x mod 2 ^ 64.

(** Two's complement reading of a w-bit value, [static_cast] to a signed type. *)
Definition sgn (w x : Z) : Z :=
  let y := x mod 2 ^ w in if y <? 2 ^ (w - 1) then y else y - 2 ^ w.
Definition s8 (x : Z) : Z := sgn 8 x.
Definition s32 (x : Z) : Z := sgn 32 x.
Definition s64 (x : Z) : Z := sgn 64 x.

Definition UINT64_MAX : Z := 2 ^ 64 - 1.

Declare Scope kernel_scope.
Delimit Scope kernel_scope with kernel.
Notation "a .& b" := (Z.land a b) (at level 40, left associativity) : kernel_scope.
Notation "a .| b" := (Z.lor a b) (at level 45, left associativity) : kernel_scope.
Notation "a .<< n" := (Z.shiftl a n) (at level 38, left associativity) : kernel_scope.
Notation "a .>> n" := (Z.shiftr a n) (at level 38, left associativity) : kernel_scope.
Notation ".~ a" := (Z.lnot a) (at level 30, right associativity) : kernel_scope.
#[global] Open Scope kernel_scope.

(** [x & mask] tested as a C++ condition. *)
Definition has (x mask : Z) : bool := negb (x .& mask =? 0).

(** ** Outcomes

    The result of running a piece of kernel code: it returns ([Ok]), it makes
    an access outside the memory it owns, which is a page fault or undefined
    behaviour ([Fault]), or it never returns ([Halt]): it parks the processor
    in [for (;;) hlt], or a loop or recursion uses up the fuel it was given. *)

Inductive outcome (A : Type) : Type :=
| Ok (a : A)
| Fault
| Halt.
Arguments Ok {A} a.
Arguments Fault {A}.
Arguments Halt {A}.

#[export] Instance outcome_ret : MRet outcome := fun A a => Ok a.
#[export] Instance outcome_bind : MBind outcome := fun A B k m =>
  match m with Ok a => k a | Fault => Fault | Halt => Halt end.

#[export] Instance outcome_eq_dec `{EqDecision A} : EqDecision (outcome A).
Proof. solve_decision. Defined.

(** An array access the code performs without a bounds check. *)
Definition load {A} (l : list A) (i : Z) : outcome A :=
  if i <? 0 then Fault else
  match l !! Z.to_nat i with Some x => Ok x | None => Fault end.

Definition store {A} (l : list A) (i : Z) (x : A) : outcome (list A) :=
  if (0 <=? i) && (i <? Z.of_nat (length l)) then Ok (<[Z.to_nat i := x]> l) else Fault.

(** [for (i : is) s = body(i, s);] *)
Fixpoint foldM {A S} (body : A -> S -> outcome S) (l : list A) (s : S) : outcome S :=
  match l with
  | [] => Ok s
  | a :: l' => s' ← body a s; foldM body l' s'
  end.

(** [for (i = lo; i < hi; ++i) s = body(i, s);] *)
Definition for_range {S} (lo hi : Z) (body : Z -> S -> outcome S) (s : S) : outcome S :=
  foldM body (seqZ lo (hi - lo)) s.

(** ** Tactics *)

Create HintDb kernel.

Ltac bool_to_prop :=
  repeat match goal with
  | H : _ && _ = true |- _ => apply andb_true_iff in H as [? ?]
  | H : _ && _ = false |- _ => apply andb_false_iff in H
  | H : _ || _ = false |- _ => apply orb_false_iff in H as [? ?]
  | H : _ || _ = true |- _ => apply orb_true_iff in H
  | H : negb _ = true |- _ => apply negb_true_iff in H
  | H : negb _ = false |- _ => apply negb_false_iff in H
  | H : (_ <? _) = true |- _ => apply Z.ltb_lt in H
  | H : (_ <? _) = false |- _ => apply Z.ltb_ge in H
  | H : (_ <=? _) = true |- _ => apply Z.leb_le in H
  | H : (_ <=? _) = false |- _ => apply Z.leb_gt in H
  | H : (_ =? _) = true |- _ => apply Z.eqb_eq in H
  | H : (_ =? _) = false |- _ => apply Z.eqb_neq in H
  end.

(** Case split on the innermost boolean test of the goal. *)
Ltac case_if :=
  match goal with
  | |- context [if ?b then _ else _] =>
      lazymatch b with
      | context [if _ then _ else _] => fail
      | _ => destruct b eqn:?; bool_to_prop
      end
  end.

Ltac invert_ok :=
  repeat match goal with
  | H : Ok _ = Ok _ |- _ => injection H as H
  | H : mret _ = Ok _ |- _ => injection H as H
  | H : (Fault = Ok _) |- _ => discriminate H
  | H : (Halt = Ok _) |- _ => discriminate H
  end.

(** Run the next call of a sequence, whose result [E] states. *)
Ltac run_call E := rewrite E; cbn [mbind outcome_bind mret outcome_ret].

(** ** Generic lemmas *)

Lemma bind_ok {A B} (m : outcome A) (k : A -> outcome B) (b : B) :
  m ≫= k = Ok b -> exists a, m = Ok a /\ k a = Ok b.
Proof. destruct m; simpl; intros; [eauto | discriminate | discriminate]. Qed.

Lemma load_ok {A} (l : list A) i x :
  load l i = Ok x <-> 0 <= i /\ l !! Z.to_nat i = Some x.
Proof.
  unfold load. case_if.
  - split; [discriminate | lia].
  - destruct (l !! Z.to_nat i) as [y|]; split.
    + intros [= ->]. done.
    + intros [_ [= ->]]. done.
    + discriminate.
    + intros [_ ?]. discriminate.
Qed.

Lemma load_in_range {A} (l : list A) i :
  0 <= i < Z.of_nat (length l) -> exists x, load l i = Ok x /\ l !! Z.to_nat i = Some x.
Proof.
  intros Hi. destruct (lookup_lt_is_Some_2 l (Z.to_nat i)) as [x Hx]; [lia |].
  exists x. split; [apply load_ok |]; auto with lia.
Qed.

Lemma store_in_range {A} (l : list A) i x :
  0 <= i < Z.of_nat (length l) -> store l i x = Ok (<[Z.to_nat i := x]> l).
Proof. intros. unfold store. case_if; [done | destruct Heqb; bool_to_prop; lia]. Qed.

Lemma foldM_app {A S} (body : A -> S -> outcome S) l1 l2 s :
  foldM body (l1 ++ l2) s = (s' ← foldM body l1 s; foldM body l2 s').
Proof.
  revert s. induction l1 as [|a l1 IH]; intros s; simpl; [done |].
  destruct (body a s); simpl; auto.
Qed.

(** Loop rule: a predicate of the remaining indices that every iteration
    preserves holds at the end, and the loop returns. *)
Lemma for_range_rule {S} (I : Z -> S -> Prop) lo hi body (s : S) :
  lo <= hi -> I lo s ->
  (forall i t, lo <= i < hi -> I i t -> exists t', body i t = Ok t' /\ I (i + 1) t') ->
  exists s', for_range lo hi body s = Ok s' /\ I hi s'.
Proof.
  intros Hle H0 Hstep. unfold for_range.
  remember (Z.to_nat (hi - lo)) as n eqn:Hn. revert lo s Hle H0 Hstep Hn.
  induction n as [|n IH]; intros lo s Hle H0 Hstep Hn.
  - replace hi with lo by lia. rewrite Z.sub_diag. simpl. eauto.
  - replace (hi - lo) with (Z.succ (hi - (lo + 1))) by lia.
    rewrite seqZ_cons by lia. simpl.
    destruct (Hstep lo s) as (t & Hb & Ht); [lia | done |]. rewrite Hb. simpl.
    replace (Z.succ lo) with (lo + 1) by lia.
    replace (Z.pred (Z.succ (hi - (lo + 1)))) with (hi - (lo + 1)) by lia.
    apply IH; [lia | done | | lia]. intros. apply Hstep; [lia | done].
Qed.

Lemma u64_small x : 0 <= x < 2 ^ 64 -> u64 x = x.
Proof. intros. unfold u64. by apply Z.mod_small. Qed.
Lemma u32_small x : 0 <= x < 2 ^ 32 -> u32 x = x.
Proof. intros. unfold u32. by apply Z.mod_small. Qed.
Lemma u16_small x : 0 <= x < 2 ^ 16 -> u16 x = x.
Proof. intros. unfold u16. by apply Z.mod_small. Qed.
Lemma u8_small x : 0 <= x < 2 ^ 8 -> u8 x = x.
Proof. intros. unfold u8. by apply Z.mod_small. Qed.
Lemma u64_range x : 0 <= u64 x < 2 ^ 64.
Proof. apply Z.mod_pos_bound. lia. Qed.
Lemma u32_range x : 0 <= u32 x < 2 ^ 32.
Proof. apply Z.mod_pos_bound. lia. Qed.
Lemma u16_range x : 0 <= u16 x < 2 ^ 16.
Proof. apply Z.mod_pos_bound. lia. Qed.
Lemma u8_range x : 0 <= u8 x < 2 ^ 8.
Proof. apply Z.mod_pos_bound. lia. Qed.

#[export] Hint Resolve u64_range u32_range u16_range u8_range : kernel.

(** Bits of a wrapped value. *)
Lemma u8_testbit x n : 0 <= n -> Z.testbit (u8 x) n = (n <? 8) && Z.testbit x n.
Proof.
  intros. unfold u8. rewrite Z.testbit_mod_pow2 by lia. done.
Qed.

Lemma testbit_one_shl k n : 0 <= k -> 0 <= n -> Z.testbit (1 .<< k) n = (k =? n).
Proof.
  intros. rewrite Z.shiftl_1_l. by apply Z.pow2_bits_eqb.
Qed.

(** [x & (1 << k)] as a condition is the k-th bit. *)
Lemma has_one_shl x k : 0 <= k -> has x (1 .<< k) = Z.testbit x k.
Proof.
  intros Hk. unfold has.
  assert (Heq : x .& (1 .<< k) = if Z.testbit x k then 1 .<< k else 0).
  { apply Z.bits_inj_iff'. intros n Hn. rewrite Z.land_spec, testbit_one_shl by lia.
    destruct (Z.eqb_spec k n) as [->|Hne].
    - rewrite andb_true_r. destruct (Z.testbit x n); [|by rewrite Z.bits_0].
      rewrite testbit_one_shl, Z.eqb_refl by lia. done.
    - rewrite andb_false_r. destruct (Z.testbit x k); [|by rewrite Z.bits_0].
      rewrite testbit_one_shl by lia. symmetry. by apply Z.eqb_neq. }
  rewrite Heq, Z.shiftl_1_l. destruct (Z.testbit x k); [|done].
  apply negb_true_iff, Z.eqb_neq. pose proof (Z.pow_pos_nonneg 2 k). lia.
Qed.

(** [x & ~(2^k - 1)] on a [uint64_t] rounds down to a multiple of [2^k]. *)
Lemma land_floor x k : 0 <= x < 2 ^ 64 -> 0 <= k <= 64 ->
  x .& u64 (.~ (2 ^ k - 1)) = x / 2 ^ k * 2 ^ k.
Proof.
  intros Hx Hk. assert (E : u64 (.~ (2 ^ k - 1)) = Z.ldiff (Z.ones 64) (Z.ones k)).
  { replace (2 ^ k - 1) with (Z.ones k) by (rewrite Z.ones_equiv; lia).
    unfold u64. rewrite <- Z.land_ones by lia. apply Z.bits_inj_iff'. intros n Hn.
    rewrite Z.land_spec, Z.ldiff_spec, Z.lnot_spec by lia. apply andb_comm. }
  rewrite E, <- Z.shiftr_div_pow2, <- Z.shiftl_mul_pow2, <- Z.ldiff_ones_r by lia.
  rewrite <- (Z.mod_small x (2 ^ 64)) at 2 by lia. rewrite <- Z.land_ones by lia.
  apply Z.bits_inj_iff'. intros n Hn. rewrite !Z.land_spec, !Z.ldiff_spec, !Z.land_spec.
  by rewrite andb_assoc.
Qed.

(** Or-ing a field into zero bits adds it. *)
Lemma lor_add_disjoint x a n : 0 <= n -> 0 <= a < 2 ^ n ->
  Z.lor (x * 2 ^ n) a = x * 2 ^ n + a.
Proof.
  intros Hn Ha. pose proof (Z.add_lor_land (x * 2 ^ n) a) as Hsum.
  enough (Z.land (x * 2 ^ n) a = 0) by lia.
  apply Z.bits_inj_iff'. intros k Hk. rewrite Z.land_spec, Z.bits_0.
  destruct (decide (k < n)).
  - rewrite Z.mul_pow2_bits_low by lia. done.
  - rewrite <- (Z.mod_small a (2 ^ n)) by lia. rewrite Z.mod_pow2_bits_high by lia.
    apply andb_false_r.
Qed.
