(* ===== verification/Pmm.v ===== *)
(** Physical memory manager, [src/src/mm/pmm.cpp] and [pmm.h]: a bitmap of
    4 KiB frames with a next-fit search.  The bitmap is the memory the class
    receives as [bitmap_storage]; an access outside it is a [Fault].  The
    abstract state of the allocator is the finite set of its free frame
    numbers, [free_frames]; every operation is shown to implement an operation
    on that set, and the class [FrameAllocator] is what the virtual memory
    manager and the disk driver rely on. *)

From S2P Require Import Prelude.

Definition FRAME_SIZE : Z := 4096.

Record PhysicalMemoryManager := mkPmm {
  bitmap_ : list Z;
  total_frames_ : Z;
  used_frames_ : Z;
  search_hint_ : Z;
}.

Definition bitmapSizeFor (highest_address : Z) : Z :=
  let frame_count := highest_address / FRAME_SIZE in
  u64 (frame_count + 7) / 8.

(** [bitmap_storage] is the memory found at the pointer, of unspecified
    contents; the loop overwrites the bytes it needs. *)
Definition init (highest_address : Z) (bitmap_storage : list Z) :
    outcome PhysicalMemoryManager :=
  let total := highest_address / FRAME_SIZE in
  let bitmap_bytes := bitmapSizeFor highest_address in
  bm ← for_range 0 bitmap_bytes (fun i bm => store bm i 255) bitmap_storage;
  mret (mkPmm bm total total 0).

Definition setBit (frame_index : Z) (p : PhysicalMemoryManager) :
    outcome PhysicalMemoryManager :=
  b ← load (bitmap_ p) (frame_index / 8);
  bm ← store (bitmap_ p) (frame_index / 8) (u8 (b .| (1 .<< (frame_index mod 8))));
  mret (mkPmm bm (total_frames_ p) (used_frames_ p) (search_hint_ p)).

Definition clearBit (frame_index : Z) (p : PhysicalMemoryManager) :
    outcome PhysicalMemoryManager :=
  b ← load (bitmap_ p) (frame_index / 8);
  bm ← store (bitmap_ p) (frame_index / 8) (u8 (b .& .~ (1 .<< (frame_index mod 8))));
  mret (mkPmm bm (total_frames_ p) (used_frames_ p) (search_hint_ p)).

Definition testBit (frame_index : Z) (p : PhysicalMemoryManager) : outcome bool :=
  b ← load (bitmap_ p) (frame_index / 8);
  mret (has b (1 .<< (frame_index mod 8))).

Definition with_used (p : PhysicalMemoryManager) (n : Z) : PhysicalMemoryManager :=
  mkPmm (bitmap_ p) (total_frames_ p) (u64 n) (search_hint_ p).

Definition with_hint (p : PhysicalMemoryManager) (n : Z) : PhysicalMemoryManager :=
  mkPmm (bitmap_ p) (total_frames_ p) (used_frames_ p) (u64 n).

(** Body of the loop of [markRegionFree]. *)
Definition release_frame (frame : Z) (p : PhysicalMemoryManager) :
    outcome PhysicalMemoryManager :=
  t ← testBit frame p;
  if (t : bool) then
    p' ← clearBit frame p;
    mret (with_used p' (used_frames_ p' - 1))
  else mret p.

(** Body of the loop of [markRegionUsed]. *)
Definition reserve_frame (frame : Z) (p : PhysicalMemoryManager) :
    outcome PhysicalMemoryManager :=
  t ← testBit frame p;
  if negb t then
    p' ← setBit frame p;
    mret (with_used p' (used_frames_ p' + 1))
  else mret p.

Definition markRegionFree (base length : Z) (p : PhysicalMemoryManager) :
    outcome PhysicalMemoryManager :=
  let start_frame := base / FRAME_SIZE in
  let end_frame := u64 (base + length) / FRAME_SIZE in
  for_range start_frame (Z.min end_frame (total_frames_ p)) release_frame p.

Definition markRegionUsed (base length : Z) (p : PhysicalMemoryManager) :
    outcome PhysicalMemoryManager :=
  let start_frame := base / FRAME_SIZE in
  let end_frame := u64 (base + length + FRAME_SIZE - 1) / FRAME_SIZE in
  for_range start_frame (Z.min end_frame (total_frames_ p)) reserve_frame p.

(** The search loop of [allocFrame], over the values of its counter. *)
Fixpoint alloc_search (counters : list Z) (p : PhysicalMemoryManager) :
    outcome (Z * PhysicalMemoryManager) :=
  match counters with
  | [] => mret (UINT64_MAX, p)
  | i :: rest =>
      let frame := u64 (search_hint_ p + i) mod total_frames_ p in
      t ← testBit frame p;
      if negb t then
        p1 ← setBit frame p;
        let p2 := with_used p1 (used_frames_ p1 + 1) in
        let p3 := with_hint p2 (frame + 1) in
        mret (u64 (frame * FRAME_SIZE), p3)
      else alloc_search rest p
  end.

Definition allocFrame (p : PhysicalMemoryManager) : outcome (Z * PhysicalMemoryManager) :=
  alloc_search (seqZ 0 (total_frames_ p)) p.

Definition freeFrame (phys_address : Z) (p : PhysicalMemoryManager) :
    outcome PhysicalMemoryManager :=
  let frame := phys_address / FRAME_SIZE in
  if frame <? total_frames_ p then release_frame frame p else mret p.

Definition totalFrames (p : PhysicalMemoryManager) : Z := total_frames_ p.
Definition usedFrames (p : PhysicalMemoryManager) : Z := used_frames_ p.
Definition freeFrames (p : PhysicalMemoryManager) : Z :=
  u64 (total_frames_ p - used_frames_ p).

(** ** Abstract state and invariant *)

Definition frame_used (p : PhysicalMemoryManager) (f : Z) : bool :=
  match bitmap_ p !! Z.to_nat (f / 8) with
  | Some b => Z.testbit b (f mod 8)
  | None => false
  end.

Definition free_frames (p : PhysicalMemoryManager) : gset Z :=
  list_to_set (filter (fun f => frame_used p f = false) (seqZ 0 (total_frames_ p))).

(** The frame numbers [lo, hi) that exist. *)
Definition frame_range (lo hi : Z) : gset Z := list_to_set (seqZ lo (hi - lo)).

Record pmm_wf (p : PhysicalMemoryManager) : Prop := {
  wf_total : 0 <= total_frames_ p < 2 ^ 52;
  wf_bitmap : total_frames_ p <= 8 * Z.of_nat (length (bitmap_ p));
  wf_used : used_frames_ p = total_frames_ p - Z.of_nat (size (free_frames p));
  wf_hint : 0 <= search_hint_ p <= total_frames_ p;
}.

(** What the allocator promises of one allocation: a free frame leaves the
    free set and its address is returned, or nothing was free. *)
Inductive alloc_spec (free : gset Z) : Z -> gset Z -> Prop :=
| alloc_found f :
    f ∈ free -> 0 <= f < 2 ^ 52 -> alloc_spec free (f * FRAME_SIZE) (free ∖ {[f]})
| alloc_exhausted : free = ∅ -> alloc_spec free UINT64_MAX free.

(** The interface clients are verified against. *)
Class FrameAllocator (St : Type) := {
  fa_alloc : St -> outcome (Z * St);
  fa_free : St -> gset Z;
  fa_ok : St -> Prop;
  fa_alloc_spec s : fa_ok s ->
    exists r s', fa_alloc s = Ok (r, s') /\ fa_ok s' /\ alloc_spec (fa_free s) r (fa_free s');
}.

(** ** Lemmas *)

Lemma elem_of_free_frames p f :
  f ∈ free_frames p <-> 0 <= f < total_frames_ p /\ frame_used p f = false.
Proof.
  unfold free_frames. rewrite elem_of_list_to_set, list_elem_of_filter, elem_of_seqZ. naive_solver lia.
Qed.

Lemma elem_of_frame_range lo hi f : f ∈ frame_range lo hi <-> lo <= f < hi.
Proof. unfold frame_range. rewrite elem_of_list_to_set, elem_of_seqZ. lia. Qed.

(** Two states that differ at most in the bitmap, of the same length. *)
Definition same_shape (p p' : PhysicalMemoryManager) : Prop :=
  total_frames_ p' = total_frames_ p /\ used_frames_ p' = used_frames_ p /\
  search_hint_ p' = search_hint_ p /\ length (bitmap_ p') = length (bitmap_ p).

Lemma byte_index_in_range p f :
  total_frames_ p <= 8 * Z.of_nat (length (bitmap_ p)) -> 0 <= f < total_frames_ p ->
  0 <= f / 8 < Z.of_nat (length (bitmap_ p)).
Proof. intros. split; [apply Z.div_pos | apply Z.div_lt_upper_bound]; lia. Qed.

Lemma frame_used_update p f b b' g :
  total_frames_ p <= 8 * Z.of_nat (length (bitmap_ p)) -> 0 <= f < total_frames_ p -> 0 <= g ->
  bitmap_ p !! Z.to_nat (f / 8) = Some b ->
  frame_used (mkPmm (<[Z.to_nat (f / 8) := u8 b']> (bitmap_ p)) (total_frames_ p)
                (used_frames_ p) (search_hint_ p)) g =
  if g / 8 =? f / 8 then Z.testbit b' (g mod 8) else frame_used p g.
Proof.
  intros Hlen Hf Hg Hb. unfold frame_used. simpl.
  pose proof (byte_index_in_range p f Hlen Hf).
  pose proof (Z.mod_pos_bound g 8 ltac:(lia)).
  destruct (Z.eqb_spec (g / 8) (f / 8)) as [->|Hne].
  - rewrite list_lookup_insert_eq by lia. rewrite u8_testbit by lia.
    rewrite (proj2 (Z.ltb_lt _ _)) by lia. done.
  - rewrite list_lookup_insert_ne; [done|].
    pose proof (Z.div_pos g 8). lia.
Qed.

Lemma frame_eqb_split f g : (g =? f) = (g / 8 =? f / 8) && (f mod 8 =? g mod 8).
Proof.
  pose proof (Z.div_mod f 8 ltac:(lia)). pose proof (Z.div_mod g 8 ltac:(lia)).
  destruct (Z.eqb_spec g f) as [->|]; [by rewrite !Z.eqb_refl|].
  symmetry. apply andb_false_iff. rewrite !Z.eqb_neq. lia.
Qed.

Section bitmap_ops.
Context (p : PhysicalMemoryManager) (f : Z).
Hypothesis Hlen : total_frames_ p <= 8 * Z.of_nat (length (bitmap_ p)).
Hypothesis Hf : 0 <= f < total_frames_ p.

Lemma testBit_ok : testBit f p = Ok (frame_used p f).
Proof.
  destruct (load_in_range (bitmap_ p) (f / 8)) as (b & Hl & Hb);
    [by apply byte_index_in_range|].
  unfold testBit, frame_used. rewrite Hl, Hb. simpl.
  rewrite has_one_shl; [done | apply Z.mod_pos_bound; lia].
Qed.

Lemma setBit_ok :
  exists p', setBit f p = Ok p' /\ same_shape p p' /\
    forall g, 0 <= g -> frame_used p' g = (g =? f) || frame_used p g.
Proof.
  pose proof (byte_index_in_range p f Hlen Hf) as Hi.
  destruct (load_in_range (bitmap_ p) (f / 8) Hi) as (b & Hl & Hb).
  eexists. unfold setBit. rewrite Hl. simpl. rewrite store_in_range by done. simpl.
  split; [done|]. split; [unfold same_shape; simpl; by rewrite length_insert|].
  intros g Hg. rewrite (frame_used_update p f b) by done.
  pose proof (Z.mod_pos_bound f 8 ltac:(lia)). pose proof (Z.mod_pos_bound g 8 ltac:(lia)).
  rewrite (frame_eqb_split f g). unfold frame_used.
  destruct (Z.eqb_spec (g / 8) (f / 8)) as [->|]; simpl; [|done].
  rewrite Hb, Z.lor_spec, testbit_one_shl by lia. apply orb_comm.
Qed.

Lemma clearBit_ok :
  exists p', clearBit f p = Ok p' /\ same_shape p p' /\
    forall g, 0 <= g -> frame_used p' g = negb (g =? f) && frame_used p g.
Proof.
  pose proof (byte_index_in_range p f Hlen Hf) as Hi.
  destruct (load_in_range (bitmap_ p) (f / 8) Hi) as (b & Hl & Hb).
  eexists. unfold clearBit. rewrite Hl. simpl. rewrite store_in_range by done. simpl.
  split; [done|]. split; [unfold same_shape; simpl; by rewrite length_insert|].
  intros g Hg. rewrite (frame_used_update p f b) by done.
  pose proof (Z.mod_pos_bound f 8 ltac:(lia)). pose proof (Z.mod_pos_bound g 8 ltac:(lia)).
  rewrite (frame_eqb_split f g). unfold frame_used.
  destruct (Z.eqb_spec (g / 8) (f / 8)) as [->|]; simpl; [|done].
  rewrite Hb, Z.land_spec, Z.lnot_spec, testbit_one_shl by lia. apply andb_comm.
Qed.
End bitmap_ops.

(** A frame that leaves or enters the free set changes its size by one. *)
Lemma size_remove (X : gset Z) f :
  f ∈ X -> Z.of_nat (size (X ∖ {[f]})) = Z.of_nat (size X) - 1.
Proof.
  intros Hf. rewrite size_difference by set_solver. rewrite size_singleton.
  assert (size X <> 0%nat) by (intros ?%size_empty_inv; set_solver). lia.
Qed.

Lemma size_add (X : gset Z) f :
  f ∉ X -> Z.of_nat (size ({[f]} ∪ X)) = Z.of_nat (size X) + 1.
Proof. intros Hf. rewrite size_union by set_solver. rewrite size_singleton. lia. Qed.

Lemma free_frames_bound p :
  0 <= total_frames_ p -> Z.of_nat (size (free_frames p)) <= total_frames_ p.
Proof.
  intros Ht. transitivity (Z.of_nat (size (frame_range 0 (total_frames_ p)))).
  - apply Nat2Z.inj_le, subseteq_size. intros f.
    rewrite elem_of_free_frames, elem_of_frame_range. lia.
  - unfold frame_range. rewrite size_list_to_set by apply NoDup_seqZ.
    rewrite length_seqZ. lia.
Qed.

(** Marking a free frame used. *)
Lemma take_frame p f :
  pmm_wf p -> f ∈ free_frames p ->
  exists p1, setBit f p = Ok p1 /\ same_shape p p1 /\
    pmm_wf (with_used p1 (used_frames_ p1 + 1)) /\
    free_frames (with_used p1 (used_frames_ p1 + 1)) = free_frames p ∖ {[f]}.
Proof.
  intros Hwf Hf. destruct Hwf as [Ht Hb Hu Hh].
  pose proof (proj1 (elem_of_free_frames p f) Hf) as [Hr Hfree].
  destruct (setBit_ok p f Hb Hr) as (p1 & E & (S1 & S2 & S3 & S4) & Hbits).
  exists p1. split; [done|]. split; [done|].
  assert (HF : free_frames (with_used p1 (used_frames_ p1 + 1)) = free_frames p ∖ {[f]}).
  { apply set_eq. intros g. rewrite elem_of_free_frames, elem_of_difference,
      elem_of_free_frames, elem_of_singleton. unfold with_used, frame_used in *. simpl in *.
    rewrite S1. destruct (decide (0 <= g)) as [Hg|]; [|lia]. rewrite (Hbits g Hg).
    destruct (Z.eqb_spec g f); simpl; naive_solver. }
  split; [|done]. split; simpl; rewrite ?S1, ?S3, ?S4; try done.
  rewrite HF, size_remove by done. rewrite S2, Hu.
  pose proof (free_frames_bound p ltac:(lia)).
  rewrite u64_small; lia.
Qed.

(** The loop bodies on the abstract state. *)
Lemma release_frame_ok p f :
  pmm_wf p -> 0 <= f < total_frames_ p ->
  exists p', release_frame f p = Ok p' /\ pmm_wf p' /\
    total_frames_ p' = total_frames_ p /\ free_frames p' = {[f]} ∪ free_frames p.
Proof.
  intros [Ht Hb Hu Hh] Hr. unfold release_frame. rewrite testBit_ok by done. simpl.
  destruct (frame_used p f) eqn:Hused; simpl.
  2: { exists p. split; [done|]. split; [by split|]. split; [done|].
       assert (f ∈ free_frames p) by (by apply elem_of_free_frames). set_solver. }
  destruct (clearBit_ok p f Hb Hr) as (p1 & -> & (S1 & S2 & S3 & S4) & Hbits). simpl.
  assert (Hnf : f ∉ free_frames p) by (rewrite elem_of_free_frames; intros [_ ?]; congruence).
  assert (HF : free_frames (with_used p1 (used_frames_ p1 - 1)) = {[f]} ∪ free_frames p).
  { apply set_eq. intros g. rewrite elem_of_free_frames, elem_of_union,
      elem_of_free_frames, elem_of_singleton. unfold with_used, frame_used in *. simpl in *.
    rewrite S1. destruct (decide (0 <= g)) as [Hg|]; [|lia]. rewrite (Hbits g Hg).
    destruct (Z.eqb_spec g f); simpl; intuition lia. }
  assert (Hin : f ∈ free_frames (with_used p1 (used_frames_ p1 - 1))) by (rewrite HF; set_solver).
  eexists. split; [done|]. split; [|done].
  pose proof (free_frames_bound (with_used p1 (used_frames_ p1 - 1)) ltac:(simpl; lia)) as Hbd.
  split; simpl in *; rewrite ?S1, ?S3, ?S4; try done.
  rewrite HF, size_add in * by done. rewrite S2, Hu in *.
  rewrite u64_small; lia.
Qed.

Lemma reserve_frame_ok p f :
  pmm_wf p -> 0 <= f < total_frames_ p ->
  exists p', reserve_frame f p = Ok p' /\ pmm_wf p' /\
    total_frames_ p' = total_frames_ p /\ free_frames p' = free_frames p ∖ {[f]}.
Proof.
  intros Hwf Hr. unfold reserve_frame. rewrite testBit_ok by (done || apply Hwf). simpl.
  destruct (frame_used p f) eqn:Hused; simpl.
  - exists p. split; [done|]. split; [done|]. split; [done|].
    assert (f ∉ free_frames p) by (rewrite elem_of_free_frames; intros [_ ?]; congruence).
    set_solver.
  - destruct (take_frame p f Hwf) as (p1 & -> & S1 & W & F); [by apply elem_of_free_frames|].
    simpl. eexists. split; [done|]. split; [done|]. split; [apply S1 | done].
Qed.

(** The two region loops, by the loop rule. *)
Lemma region_loop_ok (body : Z -> PhysicalMemoryManager -> outcome PhysicalMemoryManager)
    (step : gset Z -> gset Z -> gset Z) p lo hi :
  (forall X, step ∅ X = X) ->
  (forall f q, pmm_wf q -> 0 <= f < total_frames_ q -> exists q', body f q = Ok q' /\ pmm_wf q' /\
     total_frames_ q' = total_frames_ q /\ free_frames q' = step {[f]} (free_frames q)) ->
  (forall A B X, step A (step B X) = step (B ∪ A) X) ->
  pmm_wf p -> 0 <= lo -> hi <= total_frames_ p ->
  exists p', for_range lo hi body p = Ok p' /\ pmm_wf p' /\
    total_frames_ p' = total_frames_ p /\ free_frames p' = step (frame_range lo hi) (free_frames p).
Proof.
  intros Hnil Hbody Hstep Hwf Hlo Hhi.
  destruct (decide (lo <= hi)) as [Hle|Hgt].
  2: { exists p. unfold for_range, frame_range.
       assert (seqZ lo (hi - lo) = []) as -> by (apply length_zero_iff_nil; rewrite length_seqZ; lia).
       simpl. by rewrite Hnil. }
  apply (for_range_rule (fun i q => pmm_wf q /\ total_frames_ q = total_frames_ p /\
            free_frames q = step (frame_range lo i) (free_frames p))); [done| |].
  - split; [done|]. split; [done|]. unfold frame_range. rewrite Z.sub_diag. simpl. by rewrite Hnil.
  - intros i q Hi (Wq & Tq & Fq). destruct (Hbody i q Wq) as (q' & E & W' & T' & F'); [lia|].
    exists q'. split; [done|]. split; [done|]. split; [lia|].
    rewrite F', Fq, Hstep. f_equal. apply set_eq. intros f.
    rewrite elem_of_union, !elem_of_frame_range, elem_of_singleton. lia.
Qed.

Lemma alloc_search_ok counters p :
  pmm_wf p -> (forall i, i ∈ counters -> 0 <= i < total_frames_ p) ->
  exists r p', alloc_search counters p = Ok (r, p') /\ pmm_wf p' /\
    total_frames_ p' = total_frames_ p /\
    let pos i := (search_hint_ p + i) mod total_frames_ p in
    ((exists pre i post, counters = pre ++ i :: post /\
        Forall (fun j => pos j ∉ free_frames p) pre /\ pos i ∈ free_frames p /\
        r = pos i * FRAME_SIZE /\ free_frames p' = free_frames p ∖ {[pos i]} /\
        search_hint_ p' = pos i + 1)
     \/ (Forall (fun j => pos j ∉ free_frames p) counters /\ r = UINT64_MAX /\ p' = p)).
Proof.
  intros Hwf. induction counters as [|i rest IH]; intros Hin; simpl.
  { exists UINT64_MAX, p. split_and!; try done. right. by split_and!. }
  pose proof (wf_total p Hwf). pose proof (wf_hint p Hwf).
  pose proof (Hin i ltac:(set_solver)) as Hi.
  rewrite (u64_small (search_hint_ p + i)) by lia.
  set (f := (search_hint_ p + i) mod total_frames_ p).
  assert (Hf : 0 <= f < total_frames_ p) by (apply Z.mod_pos_bound; lia).
  rewrite testBit_ok by (done || apply Hwf). simpl.
  destruct (frame_used p f) eqn:Hused; simpl.
  - destruct IH as (r & p' & E & W & T & Hcase); [set_solver|].
    exists r, p'. split_and!; try done.
    assert (f ∉ free_frames p) by (rewrite elem_of_free_frames; intros [_ ?]; congruence).
    destruct Hcase as [(pre & j & post & -> & Hpre & Hrest) | (Hall & Hrest)].
    + left. exists (i :: pre), j, post. split; [done|]. split; [by constructor|done].
    + right. split; [by constructor|done].
  - assert (Hfree : f ∈ free_frames p) by (by apply elem_of_free_frames).
    destruct (take_frame p f Hwf Hfree) as (p1 & -> & (S1 & S2 & S3 & S4) & W & F). simpl.
    rewrite (u64_small (f * FRAME_SIZE)) by (unfold FRAME_SIZE; lia).
    eexists _, _. split; [done|]. destruct W as [W1 W2 W3 W4].
    split. { split; try done. simpl in *. rewrite u64_small; lia. }
    split; [done|]. left. exists [], i, rest. split_and!; try done.
    simpl. rewrite u64_small; lia.
Qed.

#[export] Hint Resolve release_frame_ok reserve_frame_ok : kernel.

Lemma cyclic_surjective h n f : 0 < n -> 0 <= f < n ->
  exists i, 0 <= i < n /\ (h + i) mod n = f.
Proof.
  intros. exists ((f - h) mod n). split; [apply Z.mod_pos_bound; lia|].
  rewrite Zplus_mod_idemp_r. replace (h + (f - h)) with f by lia. by apply Z.mod_small.
Qed.

(** The whole search: the result is the first free frame in cyclic order from
    the hint, or every frame is used. *)
Lemma allocFrame_cases p : pmm_wf p ->
  exists r p', allocFrame p = Ok (r, p') /\ pmm_wf p' /\ total_frames_ p' = total_frames_ p /\
    ((free_frames p = ∅ /\ r = UINT64_MAX /\ p' = p) \/
     exists k, let f := (search_hint_ p + k) mod total_frames_ p in
       0 <= k < total_frames_ p /\ f ∈ free_frames p /\ r = f * FRAME_SIZE /\
       free_frames p' = free_frames p ∖ {[f]} /\ search_hint_ p' = f + 1 /\
       forall j, 0 <= j < k -> (search_hint_ p + j) mod total_frames_ p ∉ free_frames p).
Proof.
  intros Hwf. unfold allocFrame.
  destruct (alloc_search_ok (seqZ 0 (total_frames_ p)) p Hwf) as (r & p' & E & W & T & Hcase).
  { intros i. rewrite elem_of_seqZ. lia. }
  exists r, p'. split_and!; try done.
  destruct Hcase as [(pre & i & post & Hsplit & Hpre & Hi & Hr & HF & Hh) | (Hall & -> & ->)].
  - right. assert (Hlk : seqZ 0 (total_frames_ p) !! length pre = Some i)
      by (rewrite Hsplit; by apply list_lookup_middle).
    apply lookup_seqZ in Hlk as [-> Hlen]. exists (0 + Z.of_nat (length pre)).
    split_and!; try done; try lia.
    intros j Hj. rewrite Forall_forall in Hpre. apply Hpre, list_elem_of_In, list_elem_of_lookup.
    exists (Z.to_nat j). rewrite <- (lookup_app_l pre (0 + Z.of_nat (length pre) :: post)) by lia.
    rewrite <- Hsplit. rewrite lookup_seqZ. lia.
  - left. split; [|done]. apply set_eq. intros f. split; [|set_solver]. intros Hf.
    pose proof (proj1 (elem_of_free_frames p f) Hf) as [Hr _].
    destruct (cyclic_surjective (search_hint_ p) (total_frames_ p) f) as (i & Hi & <-); [lia..|].
    rewrite Forall_forall in Hall. exfalso. apply (Hall i); [apply list_elem_of_In, elem_of_seqZ; lia | done].
Qed.

Lemma allocFrame_spec p : pmm_wf p ->
  exists r p', allocFrame p = Ok (r, p') /\ pmm_wf p' /\
    alloc_spec (free_frames p) r (free_frames p').
Proof.
  intros Hwf. destruct (allocFrame_cases p Hwf) as (r & p' & E & W & T & Hcase).
  exists r, p'. split_and!; try done. pose proof (wf_total p Hwf).
  destruct Hcase as [(HF & -> & ->) | (k & Hk & Hf & -> & -> & _)]; [by constructor|].
  constructor; [done|]. pose proof (proj1 (elem_of_free_frames _ _) Hf). lia.
Qed.

Lemma freeFrame_spec a p : pmm_wf p -> 0 <= a ->
  exists p', freeFrame a p = Ok p' /\ pmm_wf p' /\ total_frames_ p' = total_frames_ p /\
    free_frames p' = if a / FRAME_SIZE <? total_frames_ p
                     then {[a / FRAME_SIZE]} ∪ free_frames p else free_frames p.
Proof.
  intros Hwf Ha. unfold freeFrame. case_if; [|by exists p].
  apply release_frame_ok; [done|]. split; [|done]. apply Z.div_pos; unfold FRAME_SIZE; lia.
Qed.

#[export] Instance pmm_frame_allocator : FrameAllocator PhysicalMemoryManager := {|
  fa_alloc := allocFrame;
  fa_free := free_frames;
  fa_ok := pmm_wf;
  fa_alloc_spec := allocFrame_spec;
|}.

Lemma markRegionFree_spec base len p : pmm_wf p -> 0 <= base ->
  exists p', markRegionFree base len p = Ok p' /\ pmm_wf p' /\
    total_frames_ p' = total_frames_ p /\
    free_frames p' =
      frame_range (base / FRAME_SIZE)
        (Z.min (u64 (base + len) / FRAME_SIZE) (total_frames_ p)) ∪ free_frames p.
Proof.
  intros Hwf Hb. apply (region_loop_ok release_frame (∪));
    [set_solver | intros; by apply release_frame_ok | set_solver | done | | lia].
  apply Z.div_pos; unfold FRAME_SIZE; lia.
Qed.

Lemma markRegionUsed_spec base len p : pmm_wf p -> 0 <= base ->
  exists p', markRegionUsed base len p = Ok p' /\ pmm_wf p' /\
    total_frames_ p' = total_frames_ p /\
    free_frames p' =
      free_frames p ∖ frame_range (base / FRAME_SIZE)
        (Z.min (u64 (base + len + FRAME_SIZE - 1) / FRAME_SIZE) (total_frames_ p)).
Proof.
  intros Hwf Hb. apply (region_loop_ok reserve_frame (fun A X => X ∖ A));
    [set_solver | intros; by apply reserve_frame_ok | set_solver | done | | lia].
  apply Z.div_pos; unfold FRAME_SIZE; lia.
Qed.

Lemma bitmapSizeFor_covers h : 0 <= h < 2 ^ 64 ->
  0 <= bitmapSizeFor h /\ h / FRAME_SIZE <= 8 * bitmapSizeFor h < h / FRAME_SIZE + 8.
Proof.
  intros Hh. unfold bitmapSizeFor. set (c := h / FRAME_SIZE).
  assert (0 <= c < 2 ^ 52).
  { subst c. unfold FRAME_SIZE. split; [apply Z.div_pos | apply Z.div_lt_upper_bound]; lia. }
  rewrite u64_small by lia. pose proof (Z.div_mod (c + 7) 8 ltac:(lia)).
  pose proof (Z.mod_pos_bound (c + 7) 8 ltac:(lia)). lia.
Qed.

Lemma init_spec h storage :
  0 <= h < 2 ^ 64 -> bitmapSizeFor h <= Z.of_nat (length storage) ->
  exists p, init h storage = Ok p /\ pmm_wf p /\ free_frames p = ∅ /\
    total_frames_ p = h / FRAME_SIZE /\ length (bitmap_ p) = length storage.
Proof.
  intros Hh Hlen. destruct (bitmapSizeFor_covers h Hh) as [Hn Hcov].
  destruct (for_range_rule (fun i (bm : list Z) => length bm = length storage /\
      forall j, 0 <= j < i -> bm !! Z.to_nat j = Some 255) 0 (bitmapSizeFor h)
      (fun i bm => store bm i 255) storage) as (bm & E & Hbl & Hbits); [lia | split; [done|lia] | |].
  { intros i bm Hi [Hl Hb]. rewrite store_in_range by lia. eexists. split; [done|].
    split; [by rewrite length_insert|]. intros j Hj. destruct (decide (j = i)) as [->|].
    - apply list_lookup_insert_eq. lia.
    - rewrite list_lookup_insert_ne by lia. apply Hb. lia. }
  unfold init. rewrite E. simpl. eexists. split; [done|].
  set (p := mkPmm _ _ _ _).
  assert (Hfree : free_frames p = ∅).
  { apply set_eq. intros f. rewrite elem_of_free_frames. split; [|set_solver].
    intros [Hf Hu]. unfold frame_used in Hu. subst p. simpl in *.
    rewrite Hbits in Hu; [|split; [apply Z.div_pos | apply Z.div_lt_upper_bound]; lia].
    pose proof (Z.mod_pos_bound f 8 ltac:(lia)).
    assert (f mod 8 = 0 \/ f mod 8 = 1 \/ f mod 8 = 2 \/ f mod 8 = 3 \/ f mod 8 = 4 \/
            f mod 8 = 5 \/ f mod 8 = 6 \/ f mod 8 = 7) as Hc by lia.
    repeat destruct Hc as [Hc|Hc]; rewrite Hc in Hu; discriminate. }
  assert (0 <= h / FRAME_SIZE < 2 ^ 52).
  { unfold FRAME_SIZE. split; [apply Z.div_pos | apply Z.div_lt_upper_bound]; lia. }
  split_and!; try done. split; simpl; try lia. rewrite Hfree, size_empty. lia.
Qed.

(** ** Theorems *)

(** C30. [allocFrame] terminates with a result on every well-formed manager,
    keeps it well formed (the counter [used_frames_] included), and returns
    either [UINT64_MAX], exactly when no frame is free, leaving the manager
    as it was, or the address of the free frame that comes first in cyclic
    order from [search_hint_], which it removes from the free set; no other
    frame changes. *)
Theorem allocFrame_next_fit p : pmm_wf p ->
  exists r p', allocFrame p = Ok (r, p') /\ pmm_wf p' /\
    ((free_frames p = ∅ /\ r = UINT64_MAX /\ p' = p) \/
     exists k, let f := (search_hint_ p + k) mod total_frames_ p in
       0 <= k < total_frames_ p /\ f ∈ free_frames p /\ r = f * FRAME_SIZE /\
       free_frames p' = free_frames p ∖ {[f]} /\ search_hint_ p' = f + 1 /\
       forall j, 0 <= j < k -> (search_hint_ p + j) mod total_frames_ p ∉ free_frames p).
Proof.
  intros Hwf. destruct (allocFrame_cases p Hwf) as (r & p' & E & W & T & Hcase).
  by exists r, p'.
Qed.

(** A manager of eight frames whose frames 0 to 3 are free. *)
Definition sample_pmm : PhysicalMemoryManager := mkPmm [240] 8 4 6.

Lemma sample_pmm_wf : pmm_wf sample_pmm.
Proof. split; vm_compute; intuition congruence. Qed.

Lemma allocFrame_next_fit_witness :
  pmm_wf sample_pmm /\ allocFrame sample_pmm = Ok (0, mkPmm [241] 8 5 1) /\
  exists r p', allocFrame sample_pmm = Ok (r, p') /\ pmm_wf p'.
Proof.
  split; [exact sample_pmm_wf|]. split; [vm_compute; reflexivity|].
  destruct (allocFrame_next_fit sample_pmm sample_pmm_wf) as (r & p' & E & W & _).
  exists r, p'. split; assumption.
Defined.

(** [freeFrame] keeps the manager well formed and adds the frame of the
    address to the free set when that frame exists; freeing a frame that is
    already free, or an address past the end of memory, changes nothing. *)
Theorem freeFrame_correct a p : pmm_wf p -> 0 <= a ->
  exists p', freeFrame a p = Ok p' /\ pmm_wf p' /\
    (a / FRAME_SIZE < total_frames_ p -> free_frames p' = {[a / FRAME_SIZE]} ∪ free_frames p) /\
    (total_frames_ p <= a / FRAME_SIZE \/ a / FRAME_SIZE ∈ free_frames p -> p' = p).
Proof.
  intros Hwf Ha. destruct (freeFrame_spec a p Hwf Ha) as (p' & E & W & T & F).
  exists p'. split; [done|]. split; [done|]. split.
  - intros Hlt%Z.ltb_lt. by rewrite Hlt in F.
  - unfold freeFrame, release_frame in E. intros Hcase.
    destruct (Z.ltb_spec (a / FRAME_SIZE) (total_frames_ p)); [|by injection E].
    destruct Hcase as [|Hin]; [lia|]. apply elem_of_free_frames in Hin as [Hr Hu].
    rewrite testBit_ok in E by (done || apply Hwf). simpl in E. rewrite Hu in E. by injection E.
Qed.

Lemma freeFrame_correct_witness :
  freeFrame 20480 sample_pmm = Ok (mkPmm [208] 8 3 6) /\
  exists p', freeFrame 20480 sample_pmm = Ok p' /\ pmm_wf p'.
Proof.
  split; [vm_compute; reflexivity|].
  destruct (freeFrame_correct 20480 sample_pmm sample_pmm_wf ltac:(lia)) as (p' & E & W & _).
  exists p'. split; assumption.
Defined.

(** Allocating and then freeing the frame that was returned gives back
    the free set and the usage counter. *)
Theorem alloc_free_roundtrip p r p' : pmm_wf p -> allocFrame p = Ok (r, p') -> r <> UINT64_MAX ->
  exists p'', freeFrame r p' = Ok p'' /\ free_frames p'' = free_frames p /\
    used_frames_ p'' = used_frames_ p /\ freeFrames p'' = Z.of_nat (size (free_frames p)).
Proof.
  intros Hwf E Hr. destruct (allocFrame_cases p Hwf) as (r0 & p0 & E0 & W & T & Hcase).
  rewrite E in E0. injection E0 as <- <-.
  destruct Hcase as [(_ & ? & _) | (k & Hk & Hf & -> & HF & _)]; [done|].
  set (f := (search_hint_ p + k) mod total_frames_ p) in *.
  pose proof (proj1 (elem_of_free_frames _ _) Hf) as [Hfr _].
  destruct (freeFrame_spec (f * FRAME_SIZE) p' W) as (p'' & E'' & W'' & T'' & F'');
    [unfold FRAME_SIZE; lia|].
  assert (Hdiv : f * FRAME_SIZE / FRAME_SIZE = f) by (apply Z.div_mul; done).
  rewrite Hdiv in F''. rewrite T, (proj2 (Z.ltb_lt _ _)), HF in F'' by lia.
  assert (HFF : free_frames p'' = free_frames p).
  { rewrite F''. apply set_eq. intros g. destruct (decide (g = f)) as [->|]; set_solver. }
  exists p''. split; [done|]. split; [done|].
  pose proof (wf_used p Hwf). pose proof (wf_used p'' W''). pose proof (wf_total p Hwf).
  pose proof (free_frames_bound p ltac:(lia)).
  unfold freeFrames. rewrite HFF in *. split; [lia|]. rewrite u64_small; lia.
Qed.

Lemma alloc_free_roundtrip_witness :
  exists p'', freeFrame 0 (mkPmm [241] 8 5 1) = Ok p'' /\ free_frames p'' = free_frames sample_pmm.
Proof.
  destruct (alloc_free_roundtrip sample_pmm 0 (mkPmm [241] 8 5 1) sample_pmm_wf
    ltac:(vm_compute; reflexivity) ltac:(vm_compute; discriminate)) as (p'' & E & F & _).
  exists p''. split; assumption.
Defined.

(** The boot-time region operations compute exactly the intended set
    operations, rounded to frames as the code rounds them and clipped to the
    memory that exists, and keep the manager well formed. *)
Theorem markRegion_correct base len p : pmm_wf p -> 0 <= base ->
  (exists p', markRegionFree base len p = Ok p' /\ pmm_wf p' /\ forall f,
     f ∈ free_frames p' <-> f ∈ free_frames p \/
       (base / FRAME_SIZE <= f < u64 (base + len) / FRAME_SIZE /\ f < total_frames_ p)) /\
  (exists p', markRegionUsed base len p = Ok p' /\ pmm_wf p' /\ forall f,
     f ∈ free_frames p' <-> f ∈ free_frames p /\
       ~ (base / FRAME_SIZE <= f < u64 (base + len + FRAME_SIZE - 1) / FRAME_SIZE)).
Proof.
  intros Hwf Hb. split.
  - destruct (markRegionFree_spec base len p Hwf Hb) as (p' & E & W & T & F).
    exists p'. split; [done|]. split; [done|]. intros f. rewrite F, elem_of_union, elem_of_frame_range.
    intuition lia.
  - destruct (markRegionUsed_spec base len p Hwf Hb) as (p' & E & W & T & F).
    exists p'. split; [done|]. split; [done|]. intros f.
    rewrite F, elem_of_difference, elem_of_frame_range, elem_of_free_frames. intuition lia.
Qed.

Lemma markRegion_correct_witness :
  markRegionUsed 4096 100 sample_pmm = Ok (mkPmm [242] 8 5 6) /\
  exists p', markRegionUsed 4096 100 sample_pmm = Ok p' /\ pmm_wf p'.
Proof.
  split; [vm_compute; reflexivity|].
  destruct (markRegion_correct 4096 100 sample_pmm sample_pmm_wf ltac:(lia)) as [_ (p' & E & W & _)].
  exists p'. split; assumption.
Defined.

(** A region whose start is not frame aligned has its first frame
    released as a whole, although the bytes of that frame below [base] are
    not part of the region: [markRegionFree] rounds the start down. *)
Theorem markRegionFree_rounds_start_down base len p :
  pmm_wf p -> 0 <= base -> base mod FRAME_SIZE <> 0 ->
  base / FRAME_SIZE < Z.min (u64 (base + len) / FRAME_SIZE) (total_frames_ p) ->
  exists p', markRegionFree base len p = Ok p' /\
    base / FRAME_SIZE ∈ free_frames p' /\ base / FRAME_SIZE * FRAME_SIZE < base.
Proof.
  intros Hwf Hb Hmod Hlt.
  destruct (markRegionFree_spec base len p Hwf Hb) as (p' & E & W & T & F).
  exists p'. split; [done|]. split.
  - rewrite F, elem_of_union, elem_of_frame_range. lia.
  - pose proof (Z.div_mod base FRAME_SIZE ltac:(done)).
    pose proof (Z.mod_pos_bound base FRAME_SIZE ltac:(done)). lia.
Qed.

Lemma markRegionFree_rounds_start_down_witness :
  exists p', markRegionFree 18432 8192 sample_pmm = Ok p' /\ 4 ∈ free_frames p' /\ 4 * FRAME_SIZE < 18432.
Proof.
  destruct (markRegionFree_rounds_start_down 18432 8192 sample_pmm sample_pmm_wf
    ltac:(lia) ltac:(vm_compute; discriminate) ltac:(vm_compute; reflexivity)) as (p' & E & F & L).
  exists p'. split; [exact E|]. split; [exact F | exact L].
Defined.
