(* ===== verification/Vmm.v ===== *)
(** Virtual memory manager, [src/src/mm/vmm.cpp] and [vmm.h].

    The code edits the page tables of the running address space through the
    recursive slot 510 of the PML4, that is through ordinary virtual memory
    accesses whose translation depends on the very tables being edited.  The
    model keeps that: [mem] is physical memory (one 64-bit word per 8-aligned
    physical address), [translate] is the x86-64 four-level page walk, and
    every table access of the code is a [vread] or [vwrite] at the virtual
    address the code computes.  An access that does not translate is a
    [Fault].

    Hardware conventions: [boot.S] leaves CR0.WP clear, so supervisor writes
    ignore the writable bit; the TLB is taken to be coherent, which is what
    the [invlpg] after each table write is for. *)

From S2P Require Import Prelude Pmm.

Definition PAGE_PRESENT : Z := 1.
Definition PAGE_WRITABLE : Z := 2.
Definition PAGE_USER : Z := 4.
Definition PAGE_CACHE_DISABLE : Z := 16.
Definition PAGE_SIZE : Z := 4096.
Definition RECURSIVE_INDEX : Z := 510.
Definition ADDR_MASK : Z := 0x000FFFFFFFFFF000.
Definition PAGE_SIZE_BIT : Z := 128.
Definition PAGE_PWT : Z := 8.
Definition HUGE_2MB : Z := 512 * PAGE_SIZE.
Definition HUGE_1GB : Z := 512 * HUGE_2MB.
Definition KERNEL_PLM4_INDEX : Z := 511.

(** ** The memory management unit *)

(** Index into the table of level [S l] (l = 3 for the PML4, 0 for a page table). *)
Definition idx (l : nat) (va : Z) : Z := (va .>> (12 + 9 * Z.of_nat l)) .& 511.

Definition canonical (va : Z) : bool :=
  (0 <=? va) && (va <? 2 ^ 64) && ((va <? 2 ^ 47) || (2 ^ 64 - 2 ^ 47 <=? va)).

(** Page walk from the table [tbl] of level [l]: the physical address and the
    accumulated writable and user bits. *)
Fixpoint mmu_walk (m : Z -> Z) (l : nat) (tbl perm va : Z) : option (Z * Z) :=
  match l with
  | O => None
  | S l' =>
      let e := m (tbl + 8 * idx l' va) in
      if negb (has e PAGE_PRESENT) then None else
      let perm' := perm .& e in
      match l' with
      | O => Some (Z.land e ADDR_MASK + va mod PAGE_SIZE, perm')
      | S _ =>
          if has e PAGE_SIZE_BIT then
            if (l' <=? 2)%nat then
              let k := 2 ^ (12 + 9 * Z.of_nat l') in
              Some (Z.land e ADDR_MASK / k * k + va mod k, perm')
            else None
          else mmu_walk m l' (Z.land e ADDR_MASK) perm' va
      end
  end.

Record Machine (St : Type) := mkMachine { mem : Z -> Z; cr3 : Z; frames : St }.
Arguments mkMachine {St}.
Arguments mem {St}.
Arguments cr3 {St}.
Arguments frames {St}.

Definition set_word (m : Z -> Z) (pa v : Z) : Z -> Z := fun a => if a =? pa then v else m a.

Section vmm.
Context {St : Type} `{FrameAllocator St}.

Definition root (s : Machine St) : Z := cr3 s .& ADDR_MASK.

Definition translate (s : Machine St) (va : Z) : option (Z * Z) :=
  if canonical va then mmu_walk (mem s) 4 (root s) (PAGE_WRITABLE .| PAGE_USER) va else None.

Definition vread (va : Z) (s : Machine St) : outcome Z :=
  match translate s va with Some (pa, _) => Ok (mem s pa) | None => Fault end.

Definition vwrite (va v : Z) (s : Machine St) : outcome (Machine St) :=
  match translate s va with
  | Some (pa, _) => Ok (mkMachine (set_word (mem s) pa v) (cr3 s) (frames s))
  | None => Fault
  end.

(** [table[index]] for a [uint64_t *table]. *)
Definition slot (table index : Z) : Z := u64 (table + 8 * index).

(** ** The code *)

Definition canonicalize (addr : Z) : Z :=
  if has addr (1 .<< 47) then addr .| 0xFFFF000000000000 else addr.

Definition pml4Virt : Z :=
  canonicalize ((RECURSIVE_INDEX .<< 39) .| (RECURSIVE_INDEX .<< 30) .|
                (RECURSIVE_INDEX .<< 21) .| (RECURSIVE_INDEX .<< 12)).

Definition pdptVirt (pml4_idx : Z) : Z :=
  canonicalize ((RECURSIVE_INDEX .<< 39) .| (RECURSIVE_INDEX .<< 30) .|
                (RECURSIVE_INDEX .<< 21) .| (pml4_idx .<< 12)).

Definition pdVirt (pml4_idx pdpt_idx : Z) : Z :=
  canonicalize ((RECURSIVE_INDEX .<< 39) .| (RECURSIVE_INDEX .<< 30) .|
                (pml4_idx .<< 21) .| (pdpt_idx .<< 12)).

Definition ptVirt (pml4_idx pdpt_idx pd_idx : Z) : Z :=
  canonicalize ((RECURSIVE_INDEX .<< 39) .| (pml4_idx .<< 30) .|
                (pdpt_idx .<< 21) .| (pd_idx .<< 12)).

Definition zeroPage (virt : Z) (s : Machine St) : outcome (Machine St) :=
  for_range 0 512 (fun i s => vwrite (slot virt i) 0 s) s.

(** [g_pmm.allocFrame()] *)
Definition alloc (s : Machine St) : outcome (Z * Machine St) :=
  '(f, fr) ← fa_alloc (frames s);
  mret (f, mkMachine (mem s) (cr3 s) fr).

Definition splitHugePage (parent_virt index child_virt_addr_for_zeroing huge_page_size : Z)
    (s : Machine St) : outcome (Machine St) :=
  huge_entry ← vread (slot parent_virt index) s;
  let huge_base := huge_entry .& ADDR_MASK in
  let flags := huge_entry .&
    (PAGE_PRESENT .| PAGE_WRITABLE .| PAGE_USER .| PAGE_PWT .| PAGE_CACHE_DISABLE) in
  '(new_frame, s1) ← alloc s;
  s2 ← vwrite (slot parent_virt index)
         (new_frame .| PAGE_PRESENT .| PAGE_WRITABLE .| PAGE_USER) s1;
  s3 ← zeroPage child_virt_addr_for_zeroing s2;
  for_range 0 (huge_page_size / PAGE_SIZE)
    (fun i s => vwrite (slot child_virt_addr_for_zeroing i)
                  (u64 (huge_base + i * PAGE_SIZE) .| flags) s) s3.

Definition ensureTable (parent_virt index child_virt_addr_for_zeroing huge_page_size : Z)
    (s : Machine St) : outcome (Z * Machine St) :=
  e ← vread (slot parent_virt index) s;
  s' ← (if has e PAGE_PRESENT then
          if has e PAGE_SIZE_BIT then
            if huge_page_size =? 0 then Halt
            else splitHugePage parent_virt index child_virt_addr_for_zeroing huge_page_size s
          else mret s
        else
          '(new_frame, s1) ← alloc s;
          s2 ← vwrite (slot parent_virt index)
                 (new_frame .| PAGE_PRESENT .| PAGE_WRITABLE .| PAGE_USER) s1;
          zeroPage child_virt_addr_for_zeroing s2);
  e' ← vread (slot parent_virt index) s';
  mret (e' .& ADDR_MASK, s').

(** [x & ~(PAGE_SIZE - 1)] on a [uint64_t]. *)
Definition page_floor (x : Z) : Z := x .& (u64 (.~ (PAGE_SIZE - 1))).

Definition mapPage (virtual_addr physical_addr flags : Z) (s : Machine St) :
    outcome (Machine St) :=
  let virtual_addr := page_floor virtual_addr in
  let physical_addr := page_floor physical_addr in
  let idx4 := (virtual_addr .>> 39) .& 0x1FF in
  let idx3 := (virtual_addr .>> 30) .& 0x1FF in
  let idx2 := (virtual_addr .>> 21) .& 0x1FF in
  let idx1 := (virtual_addr .>> 12) .& 0x1FF in
  '(_, s1) ← ensureTable pml4Virt idx4 (pdptVirt idx4) 0 s;
  '(_, s2) ← ensureTable (pdptVirt idx4) idx3 (pdVirt idx4 idx3) HUGE_1GB s1;
  '(_, s3) ← ensureTable (pdVirt idx4 idx3) idx2 (ptVirt idx4 idx3 idx2) HUGE_2MB s2;
  vwrite (slot (ptVirt idx4 idx3 idx2) idx1) (physical_addr .| flags .| PAGE_PRESENT) s3.

Definition unmapPage (virtual_addr : Z) (s : Machine St) : outcome (Machine St) :=
  let virtual_addr := page_floor virtual_addr in
  let idx4 := (virtual_addr .>> 39) .& 0x1FF in
  let idx3 := (virtual_addr .>> 30) .& 0x1FF in
  let idx2 := (virtual_addr .>> 21) .& 0x1FF in
  let idx1 := (virtual_addr .>> 12) .& 0x1FF in
  e4 ← vread (slot pml4Virt idx4) s;
  if negb (has e4 PAGE_PRESENT) then mret s else
  e3 ← vread (slot (pdptVirt idx4) idx3) s;
  if negb (has e3 PAGE_PRESENT) then mret s else
  e2 ← vread (slot (pdVirt idx4 idx3) idx2) s;
  if negb (has e2 PAGE_PRESENT) then mret s else
  vwrite (slot (ptVirt idx4 idx3 idx2) idx1) 0 s.

Definition allocAndMapPage (virtual_addr flags : Z) (s : Machine St) :
    outcome (bool * Machine St) :=
  '(frame, s1) ← alloc s;
  if frame =? UINT64_MAX then mret (false, s1) else
  s2 ← mapPage virtual_addr frame flags s1;
  mret (true, s2).

Definition currentAddressSpace (s : Machine St) : Z := cr3 s .& ADDR_MASK.

Definition switchAddressSpace (plm4_phys : Z) (s : Machine St) : Machine St :=
  mkMachine (mem s) plm4_phys (frames s).

Definition SCRATCH_VIRT : Z := 0xFFFFFFFFC6000000.

Definition createAddressSpace (s : Machine St) : outcome (Z * Machine St) :=
  '(new_plm4_phys, s1) ← alloc s;
  if new_plm4_phys =? UINT64_MAX then mret (0, s1) else
  s2 ← mapPage SCRATCH_VIRT new_plm4_phys PAGE_WRITABLE s1;
  s3 ← for_range 0 512 (fun i s => vwrite (slot SCRATCH_VIRT i) 0 s) s2;
  c0 ← vread (slot pml4Virt 0) s3;
  s4 ← vwrite (slot SCRATCH_VIRT 0) c0 s3;
  s5 ← vwrite (slot SCRATCH_VIRT RECURSIVE_INDEX)
         (new_plm4_phys .| PAGE_PRESENT .| PAGE_WRITABLE) s4;
  ck ← vread (slot pml4Virt KERNEL_PLM4_INDEX) s5;
  s6 ← vwrite (slot SCRATCH_VIRT KERNEL_PLM4_INDEX) ck s5;
  s7 ← unmapPage SCRATCH_VIRT s6;
  mret (new_plm4_phys, s7).

End vmm.
