(* ===== verification/VmmProofs.v ===== *)
(** Proofs about the virtual memory manager of [Vmm].  First the recursive
    mapping: the virtual addresses [pml4Virt], [pdptVirt], [pdVirt] and
    [ptVirt] reach the tables they are meant to reach.  Then one table step
    ([ensureTable]: nothing to do, a fresh table, a split of a 2 MiB page)
    preserves every translation, and [mapPage], [unmapPage] and
    [allocAndMapPage] are shown correct on every address space that satisfies
    the invariant [vmm_inv]. *)

From S2P Require Import Prelude Pmm Vmm.

(** ** Arithmetic of the recursive addresses *)

Lemma lor_shl_add x a n : 0 <= n -> 0 <= a < 512 ->
  (x .<< (n + 9)) .| (a .<< n) = (x * 512 + a) .<< n.
Proof.
  intros Hn Ha. rewrite Z.add_comm, <- Z.shiftl_shiftl by lia. rewrite <- Z.shiftl_lor.
  f_equal. rewrite Z.shiftl_mul_pow2 by lia. apply (lor_add_disjoint x a 9); lia.
Qed.

Definition rec_addr (a b c : Z) : Z :=
  canonicalize ((RECURSIVE_INDEX .<< 39) .| (a .<< 30) .| (b .<< 21) .| (c .<< 12)).

Lemma rec_addr_value a b c : 0 <= a < 512 -> 0 <= b < 512 -> 0 <= c < 512 ->
  rec_addr a b c = 2 ^ 64 - 2 ^ 48 + 510 * 2 ^ 39 + a * 2 ^ 30 + b * 2 ^ 21 + c * 2 ^ 12.
Proof.
  intros. unfold rec_addr, RECURSIVE_INDEX.
  change 39 with (30 + 9). rewrite lor_shl_add by lia.
  change 30 with (21 + 9) at 1. rewrite lor_shl_add by lia.
  change 21 with (12 + 9) at 1. rewrite lor_shl_add by lia.
  rewrite Z.shiftl_mul_pow2 by lia.
  set (v := (((510 * 512 + a) * 512 + b) * 512 + c) * 2 ^ 12).
  assert (Hv : 2 ^ 48 - 2 ^ 40 <= v < 2 ^ 48) by (subst v; lia).
  unfold canonicalize. rewrite has_one_shl by lia.
  assert (Z.testbit v 47 = true) as ->.
  { apply Z.testbit_true; [lia|]. assert (v / 2 ^ 47 = 1) as ->; [|done].
    symmetry. apply (Z.div_unique v (2 ^ 47) 1 (v - 2 ^ 47)); lia. }
  rewrite Z.lor_comm. change 0xFFFF000000000000 with (65535 * 2 ^ 48).
  rewrite lor_add_disjoint by lia. subst v. lia.
Qed.

Lemma idx_div_mod l va : idx l va = (va / 2 ^ (12 + 9 * Z.of_nat l)) mod 512.
Proof.
  unfold idx. rewrite Z.shiftr_div_pow2 by lia.
  change 511 with (Z.ones 9). rewrite Z.land_ones by lia. done.
Qed.

Lemma idx_range l va : 0 <= idx l va < 512.
Proof. rewrite idx_div_mod. apply Z.mod_pos_bound. lia. Qed.

(** What an address of the recursive window looks like to the page walk. *)
Lemma rec_slot_fields a b c i :
  0 <= a < 512 -> 0 <= b < 512 -> 0 <= c < 512 -> 0 <= i < 512 ->
  let va := slot (rec_addr a b c) i in
  canonical va = true /\ idx 3 va = 510 /\ idx 2 va = a /\ idx 1 va = b /\ idx 0 va = c /\
  va mod PAGE_SIZE = 8 * i.
Proof.
  intros Ha Hb Hc Hi va.
  assert (Hva : va = 2 ^ 64 - 2 ^ 48 + 510 * 2 ^ 39 + a * 2 ^ 30 + b * 2 ^ 21 + c * 2 ^ 12 + 8 * i).
  { subst va. unfold slot. rewrite rec_addr_value by lia. rewrite u64_small; lia. }
  rewrite !idx_div_mod. unfold canonical, PAGE_SIZE. clearbody va. subst va. simpl Z.of_nat.
  split. { rewrite !andb_true_iff, orb_true_iff, !Z.leb_le, !Z.ltb_lt. lia. }
  split_and!.
  all: Z.to_euclidean_division_equations; lia.
Qed.

(** ** Table paths *)

(** The table reached from [t] by following the entries [ids]. *)
Fixpoint path (m : Z -> Z) (t : Z) (ids : list Z) : option Z :=
  match ids with
  | [] => Some t
  | i :: ids' =>
      let e := m (t + 8 * i) in
      if has e PAGE_PRESENT && negb (has e PAGE_SIZE_BIT)
      then path m (Z.land e ADDR_MASK) ids' else None
  end.

(** The upper indices of a walk that starts at level [l]. *)
Fixpoint uppers (l : nat) (va : Z) : list Z :=
  match l with
  | S (S _ as l') => idx l' va :: uppers l' va
  | _ => []
  end.

Definition index_ok (i : Z) : Prop := 0 <= i < 512.

(** Indices of a path that does not enter through the recursive slot. *)
Definition valid_path (ids : list Z) : Prop :=
  Forall index_ok ids /\ head ids <> Some RECURSIVE_INDEX.

(** [t] is a table of level [l] of the address space rooted at [r]. *)
Definition reach (m : Z -> Z) (r : Z) (l : nat) (t : Z) : Prop :=
  exists ids, valid_path ids /\ (length ids + l = 4)%nat /\ (1 <= l)%nat /\ path m r ids = Some t.

Definition aligned (t : Z) : Prop := t mod PAGE_SIZE = 0.
Definition in_page (t a : Z) : Prop := t <= a < t + PAGE_SIZE.

Lemma masked_aligned e : aligned (e .& ADDR_MASK).
Proof.
  unfold aligned, PAGE_SIZE. change 4096 with (2 ^ 12). rewrite <- Z.land_ones by lia.
  rewrite <- Z.land_assoc. change (ADDR_MASK .& Z.ones 12) with 0. apply Z.land_0_r.
Qed.

Lemma entry_addr_inj t t' i j : aligned t -> aligned t' -> index_ok i -> index_ok j ->
  t + 8 * i = t' + 8 * j -> t = t' /\ i = j.
Proof.
  unfold aligned, index_ok, PAGE_SIZE. intros. Z.to_euclidean_division_equations. lia.
Qed.

Lemma entry_in_page t t' i : aligned t -> aligned t' -> index_ok i ->
  in_page t' (t + 8 * i) -> t = t'.
Proof.
  unfold aligned, index_ok, in_page, PAGE_SIZE. intros. Z.to_euclidean_division_equations. lia.
Qed.

Lemma path_app m t ids1 ids2 t1 : path m t ids1 = Some t1 -> path m t (ids1 ++ ids2) = path m t1 ids2.
Proof.
  revert t. induction ids1 as [|i ids IH]; simpl; intros t Hp; [by simplify_eq|].
  destruct (_ && _); [by apply IH | done].
Qed.

Lemma path_snoc m t ids i t1 : path m t ids = Some t1 ->
  path m t (ids ++ [i]) =
    if has (m (t1 + 8 * i)) PAGE_PRESENT && negb (has (m (t1 + 8 * i)) PAGE_SIZE_BIT)
    then Some (m (t1 + 8 * i) .& ADDR_MASK) else None.
Proof. intros Hp. by rewrite (path_app m t ids [i] t1). Qed.

Lemma path_aligned m t ids t1 : aligned t -> path m t ids = Some t1 -> aligned t1.
Proof.
  revert t. induction ids as [|i ids IH]; simpl; intros t Ha Hp; [by simplify_eq|].
  destruct (_ && _); [|done]. eapply IH; [apply masked_aligned | done].
Qed.

Lemma valid_path_snoc ids i : valid_path ids -> index_ok i -> (ids = [] -> i <> RECURSIVE_INDEX) ->
  valid_path (ids ++ [i]).
Proof.
  intros [Hf Hh] Hi Hn. split; [apply Forall_app; auto|].
  destruct ids; simpl in *; [|done]. intros [= E]. by apply Hn.
Qed.

Section reach_facts.
Context (m : Z -> Z) (r : Z).
Hypothesis Hr : aligned r.

Lemma reach_root : reach m r 4 r.
Proof. exists []. split; [by split; [constructor|]|]. split; [done|]. split; [lia|done]. Qed.

Lemma reach_aligned l t : reach m r l t -> aligned t.
Proof. intros (ids & _ & _ & _ & Hp). by eapply path_aligned. Qed.

Lemma reach_level_le l t : reach m r l t -> (1 <= l <= 4)%nat.
Proof. intros (ids & _ & Hl & ? & _). lia. Qed.

Lemma reach_step l t i : reach m r (S (S l)) t -> index_ok i ->
  (l = 2%nat -> i <> RECURSIVE_INDEX) ->
  has (m (t + 8 * i)) PAGE_PRESENT = true -> has (m (t + 8 * i)) PAGE_SIZE_BIT = false ->
  reach m r (S l) (m (t + 8 * i) .& ADDR_MASK).
Proof.
  intros (ids & Hv & Hl & _ & Hp) Hi Hne HP HS. exists (ids ++ [i]). split_and!.
  - apply valid_path_snoc; try done. intros ->. simpl in Hl. apply Hne. lia.
  - rewrite length_app. simpl. lia.
  - lia.
  - by rewrite (path_snoc m r ids i t), HP, HS.
Qed.
End reach_facts.

(** The walk follows the path of the upper indices and reads the leaf entry. *)
Lemma walk_path m l t perm va t1 : path m t (uppers (S l) va) = Some t1 ->
  exists perm1, mmu_walk m (S l) t perm va =
    let e := m (t1 + 8 * idx 0 va) in
    if has e PAGE_PRESENT then Some (e .& ADDR_MASK + va mod PAGE_SIZE, perm1 .& e) else None.
Proof.
  revert t perm. induction l as [|l IH]; intros t perm Hp.
  - simpl in Hp. simplify_eq. exists perm. cbn [mmu_walk]. by destruct (has _ _).
  - cbn [uppers path] in Hp. cbv zeta in Hp.
    destruct (has (m (t + 8 * idx (S l) va)) PAGE_PRESENT) eqn:HP; [|done].
    destruct (has (m (t + 8 * idx (S l) va)) PAGE_SIZE_BIT) eqn:HS; [done|].
    destruct (IH _ (perm .& m (t + 8 * idx (S l) va)) Hp) as (perm1 & Hw).
    exists perm1. remember (S l) as l' eqn:El. cbn [mmu_walk]. cbv zeta.
    rewrite HP, HS. cbn [negb]. subst l'. exact Hw.
Qed.

(** The permissions that the upper tables of [va] leave, as far as they are
    there: the walk from the table [t] of level [l], with the entries that
    point to a further table. *)
Fixpoint upper_perm (m : Z -> Z) (l : nat) (t perm va : Z) : Z :=
  match l with
  | S (S _ as l') =>
      let e := m (t + 8 * idx l' va) in
      if has e PAGE_PRESENT && negb (has e PAGE_SIZE_BIT)
      then upper_perm m l' (e .& ADDR_MASK) (perm .& e) va else perm
  | _ => perm
  end.

(** ** The recursive window reaches the tables *)

Definition table_virt (ids : list Z) : Z :=
  match ids with
  | [] => pml4Virt
  | [a] => pdptVirt a
  | [a; b] => pdVirt a b
  | a :: b :: c :: _ => ptVirt a b c
  end.

Section recursive.
Context {St : Type} `{FrameAllocator St}.

Definition rec_ok (s : Machine St) : Prop :=
  let e := mem s (root s + 8 * RECURSIVE_INDEX) in
  has e PAGE_PRESENT = true /\ has e PAGE_SIZE_BIT = false /\ e .& ADDR_MASK = root s.

(** The 512 slots of the virtual page [vt] are the entries of the table [t]. *)
Definition maps_table (s : Machine St) (vt t : Z) : Prop :=
  forall i, index_ok i -> exists perm, translate s (slot vt i) = Some (t + 8 * i, perm).

Lemma translate_rec (s : Machine St) a b c i t : index_ok a -> index_ok b -> index_ok c -> index_ok i ->
  path (mem s) (root s) [510; a; b] = Some t -> has (mem s (t + 8 * c)) PAGE_PRESENT = true ->
  exists perm, translate s (slot (rec_addr a b c) i) = Some (mem s (t + 8 * c) .& ADDR_MASK + 8 * i, perm).
Proof.
  intros Ha Hb Hc Hi Hp HP.
  destruct (rec_slot_fields a b c i Ha Hb Hc Hi) as (Hcan & I3 & I2 & I1 & I0 & Hmod).
  unfold translate. rewrite Hcan.
  destruct (walk_path (mem s) 3 (root s) (PAGE_WRITABLE .| PAGE_USER)
    (slot (rec_addr a b c) i) t) as (perm1 & Hw).
  { cbn [uppers]. by rewrite I3, I2, I1. }
  rewrite Hw. cbv zeta. rewrite I0, HP, Hmod. by eexists.
Qed.

Lemma rec_path (s : Machine St) ids : rec_ok s ->
  path (mem s) (root s) (510 :: ids) = path (mem s) (root s) ids.
Proof. intros (HP & HS & HM). cbn [path]. cbv zeta. fold RECURSIVE_INDEX. by rewrite HP, HS, HM. Qed.

Lemma table_virt_maps (s : Machine St) ids t : rec_ok s -> Forall index_ok ids -> (length ids <= 3)%nat ->
  path (mem s) (root s) ids = Some t -> maps_table s (table_virt ids) t.
Proof.
  intros Hrec Hf Hlen Hp i Hi. pose proof Hrec as (HP & HS & HM).
  assert (H510 : index_ok 510) by (unfold index_ok; lia).
  assert (Hlast : forall ids' c u, ids = ids' ++ [c] -> path (mem s) (root s) ids' = Some u ->
    has (mem s (u + 8 * c)) PAGE_PRESENT = true /\ mem s (u + 8 * c) .& ADDR_MASK = t).
  { intros ids' c u -> Hu. rewrite (path_snoc _ _ _ _ _ Hu) in Hp.
    destruct (_ && _) eqn:E; [|done]. apply andb_true_iff in E as [-> _]. by simplify_eq. }
  destruct ids as [|a [|b [|c [|]]]]; simpl in Hlen; try lia; simpl table_virt.
  - simpl in Hp. simplify_eq.
    destruct (translate_rec s 510 510 510 i (root s)) as (perm & Ht); try done.
    { by rewrite !rec_path. }
    exists perm. rewrite <- HM at 1. exact Ht.
  - destruct (Hlast [] a (root s)) as [HPa <-]; [done..|]. apply Forall_cons_iff in Hf as [Ha _].
    apply translate_rec; try done. by rewrite !rec_path.
  - rewrite !Forall_cons_iff in Hf. destruct Hf as (Ha & Hb & _).
    destruct (path (mem s) (root s) [a]) as [u|] eqn:Hu;
      [|exfalso; cbn [path] in *; cbv zeta in *; by destruct (_ && _)].
    destruct (Hlast [a] b u) as [HPb <-]; [done..|].
    apply translate_rec; try done. by rewrite !rec_path.
  - rewrite !Forall_cons_iff in Hf. destruct Hf as (Ha & Hb & Hc & _).
    destruct (path (mem s) (root s) [a; b]) as [u|] eqn:Hu.
    + destruct (Hlast [a; b] c u) as [HPc <-]; [done..|].
      apply translate_rec; try done. by rewrite !rec_path.
    + exfalso. cbn [path] in *. cbv zeta in *. repeat (destruct (_ && _); [|done]). done.
Qed.
End recursive.

Lemma perm_land p e : p .& 6 = p -> (p .& e) .& 6 = p .& e.
Proof. intros Hp. rewrite <- Z.land_assoc, (Z.land_comm e 6), Z.land_assoc, Hp. done. Qed.

Lemma testbit_ADDR_MASK n : 0 <= n -> Z.testbit ADDR_MASK n = (12 <=? n) && (n <? 52).
Proof.
  intros Hn. change ADDR_MASK with (Z.ones 40 .<< 12). rewrite Z.shiftl_spec by lia.
  destruct (Z.leb_spec 12 n); simpl.
  - rewrite Z.testbit_ones by lia. destruct (Z.ltb_spec n 52), (Z.ltb_spec (n - 12) 40); try lia;
      by rewrite (proj2 (Z.leb_le 0 (n - 12))) by lia.
  - apply Z.testbit_neg_r. lia.
Qed.

(** The address field of an entry made of an aligned address and flags. *)
Lemma mask_entry x f : 0 <= x < 2 ^ 52 -> aligned x -> 0 <= f < 4096 -> (x .| f) .& ADDR_MASK = x.
Proof.
  intros Hx Ha Hf. unfold aligned, PAGE_SIZE in Ha.
  apply Z.bits_inj_iff'. intros n Hn. rewrite Z.land_spec, Z.lor_spec, testbit_ADDR_MASK by done.
  rewrite <- (Z.mod_small f (2 ^ 12)) by lia. rewrite <- (Z.mod_small x (2 ^ 52)) by lia.
  assert (Hxd : x = x / 2 ^ 12 * 2 ^ 12) by (change (2 ^ 12) with 4096; Z.to_euclidean_division_equations; lia).
  rewrite !Z.testbit_mod_pow2 by lia.
  destruct (Z.leb_spec 12 n), (Z.ltb_spec n 52), (Z.ltb_spec n 12); try lia; simpl;
    rewrite ?orb_false_r, ?andb_true_r, ?andb_false_r; try done.
  rewrite Hxd. symmetry. by apply Z.mul_pow2_bits_low.
Qed.

Lemma masked_range e : 0 <= e .& ADDR_MASK < 2 ^ 52.
Proof.
  assert (E : e .& ADDR_MASK = (e .& ADDR_MASK) mod 2 ^ 52).
  { rewrite <- Z.land_ones by lia. rewrite <- Z.land_assoc.
    by change (ADDR_MASK .& Z.ones 52) with ADDR_MASK. }
  rewrite E. apply Z.mod_pos_bound. lia.
Qed.

(** ** Installing a fresh table in a slot

    [m'] is [m] after the slot [i] of the table [T] was made to point to the
    frame [F], which no path used.  Either the slot was empty and [F] is
    zeroed, or the slot held a 2 MiB page and [F] maps the same 512 frames. *)
Section install.
Context (m m' : Z -> Z) (r T i F e' : Z) (lT : nat).
Let ea := T + 8 * i.
Hypothesis Hr : aligned r.
Hypothesis Hlevels : forall l l' t, reach m r l t -> reach m r l' t -> l = l'.
Hypothesis HT : reach m r (S (S lT)) T.
Hypothesis Hi : index_ok i.
Hypothesis HF : aligned F.
Hypothesis HFfresh : forall l, ~ reach m r l F.
Hypothesis Hea : m' ea = e' /\ has e' PAGE_PRESENT = true /\ has e' PAGE_SIZE_BIT = false /\
  e' .& ADDR_MASK = F.
Hypothesis Hsame : forall a, a <> ea -> ~ in_page F a -> m' a = m a.
(** The old slot is not a table pointer. *)
Hypothesis Hold : has (m ea) PAGE_PRESENT && negb (has (m ea) PAGE_SIZE_BIT) = false.

Lemma fresh_slot_same t j l : reach m r l t -> index_ok j -> t + 8 * j <> ea ->
  m' (t + 8 * j) = m (t + 8 * j).
Proof.
  intros Ht Hj Hne. apply Hsame; [done|]. intros Hp.
  apply entry_in_page in Hp; [|exact (reach_aligned m r Hr _ _ Ht)|done|done].
  subst. by apply (HFfresh l).
Qed.

Lemma slot_is_ea t j l : reach m r l t -> index_ok j -> t + 8 * j = ea ->
  t = T /\ j = i /\ l = S (S lT).
Proof.
  intros Ht Hj E. destruct (entry_addr_inj t T j i) as [-> ->];
    [exact (reach_aligned m r Hr _ _ Ht) | exact (reach_aligned m r Hr _ _ HT) | done | done | done |].
  split; [done|]. split; [done|]. by eapply Hlevels.
Qed.

Lemma path_preserved ids t0 l t : reach m r (length ids + l) t0 -> Forall index_ok ids ->
  (1 <= l)%nat -> (t0 = r -> head ids <> Some RECURSIVE_INDEX) ->
  path m t0 ids = Some t -> path m' t0 ids = Some t.
Proof.
  revert t0. induction ids as [|j ids IH]; intros t0 Ht Hv Hl Hrec Hp; [done|].
  apply Forall_cons_iff in Hv as [Hj Hv]. cbn [path] in *. cbv zeta in *.
  destruct (has (m (t0 + 8 * j)) PAGE_PRESENT) eqn:HP; [|done].
  destruct (has (m (t0 + 8 * j)) PAGE_SIZE_BIT) eqn:HS; [done|].
  destruct (decide (t0 + 8 * j = ea)) as [E|Hne].
  { rewrite <- E, HP, HS in Hold. done. }
  rewrite (fresh_slot_same t0 j _ Ht Hj Hne), HP, HS. simpl in *.
  assert (Hl2 : exists n, (length ids + l = S n)%nat) by (exists (length ids + l - 1)%nat; lia).
  destruct Hl2 as [n Hn]. rewrite Hn in Ht.
  assert (Hstep : reach m r (S n) (m (t0 + 8 * j) .& ADDR_MASK)).
  { apply reach_step; try done. intros ->. intros ->. apply (Hrec); [|done].
    destruct Ht as (ids0 & _ & Hlen & _ & Hp0). destruct ids0; [by injection Hp0 | simpl in Hlen; lia]. }
  apply IH; try done; [by rewrite Hn|]. intros Er. rewrite Er in Hstep.
  pose proof (Hlevels _ _ _ Hstep (reach_root m r)).
  apply (reach_level_le m r) in Ht. lia.
Qed.

Lemma path_origin ids t0 l t : reach m r (length ids + S l) t0 -> Forall index_ok ids ->
  (t0 = r -> head ids <> Some RECURSIVE_INDEX) ->
  (lT = 0%nat \/ forall j, index_ok j -> m' (F + 8 * j) = 0) ->
  path m' t0 ids = Some t ->
  path m t0 ids = Some t \/ (t = F /\ l = lT).
Proof.
  intros Ht Hv Hrec HFz. revert t0 Ht Hrec.
  induction ids as [|j ids IH]; intros t0 Ht Hrec Hp; [by left|].
  apply Forall_cons_iff in Hv as [Hj Hv]. cbn [path] in *. cbv zeta in *.
  destruct (decide (t0 + 8 * j = ea)) as [E|Hne].
  - right. destruct Hea as (E1 & HP & HS & HM).
    rewrite E, E1, HP, HS, HM in Hp. simpl in Hp.
    destruct (slot_is_ea t0 j _ Ht Hj E) as (-> & -> & Hl). simpl in Hl.
    destruct ids as [|j' ids]; simpl in *; [by simplify_eq; split; [|lia]|].
    destruct HFz as [->|HFz]; [lia|]. apply Forall_cons_iff in Hv as [Hj' _].
    rewrite (HFz j') in Hp by done. done.
  - rewrite (fresh_slot_same t0 j _ Ht Hj Hne) in Hp.
    destruct (has (m (t0 + 8 * j)) PAGE_PRESENT) eqn:HP; [|done].
    destruct (has (m (t0 + 8 * j)) PAGE_SIZE_BIT) eqn:HS; [done|]. simpl in *.
    rewrite Nat.add_succ_r in Ht.
    assert (Hstep : reach m r (S (length ids + l)) (m (t0 + 8 * j) .& ADDR_MASK)).
    { apply reach_step; try done. intros E2 ->. apply Hrec; [|done].
      destruct Ht as (ids0 & _ & Hlen & _ & Hp0).
      destruct ids0; [by injection Hp0 | simpl in Hlen; lia]. }
    apply (IH Hv); [by rewrite Nat.add_succ_r | | done].
    intros Er. rewrite Er in Hstep. pose proof (Hlevels _ _ _ Hstep (reach_root m r)).
    apply (reach_level_le m r) in Ht. lia.
Qed.

Lemma reach_preserved l t : reach m r l t -> reach m' r l t.
Proof.
  intros (ids & [Hf Hh] & Hl & Hl1 & Hp). exists ids. split_and!; try done.
  eapply path_preserved; try done. rewrite Hl. apply reach_root.
Qed.

Lemma reach_origin l t :
  (lT = 0%nat \/ forall j, index_ok j -> m' (F + 8 * j) = 0) ->
  reach m' r l t -> reach m r l t \/ (t = F /\ l = S lT).
Proof.
  intros HFz (ids & [Hf Hh] & Hl & Hl1 & Hp). destruct l as [|l]; [lia|].
  destruct (path_origin ids r l t) as [Hp'|[-> ->]]; try done.
  - rewrite Hl. apply reach_root.
  - left. by exists ids.
  - by right.
Qed.
(** If the walks through the changed slot agree, all walks agree. *)
Lemma walk_preserved va :
  (forall perm, perm .& 6 = perm -> idx (S lT) va = i ->
     mmu_walk m' (S (S lT)) T perm va = mmu_walk m (S (S lT)) T perm va) ->
  forall l t0 perm, reach m r (S l) t0 -> (l = 3%nat -> idx 3 va <> RECURSIVE_INDEX) ->
    perm .& 6 = perm -> mmu_walk m' (S l) t0 perm va = mmu_walk m (S l) t0 perm va.
Proof.
  intros Hslot. induction l as [|l IH]; intros t0 perm Ht Hrec Hperm.
  - cbn [mmu_walk]. cbv zeta. rewrite (fresh_slot_same t0 (idx 0 va) _ Ht); [done | apply idx_range |].
    intros E. destruct (slot_is_ea t0 _ _ Ht (idx_range 0 va) E) as (_ & _ & ?). lia.
  - destruct (decide (t0 + 8 * idx (S l) va = ea)) as [E|Hne].
    + destruct (slot_is_ea t0 _ _ Ht (idx_range _ va) E) as (-> & Ei & El).
      injection El as ->. by apply Hslot.
    + pose proof (fresh_slot_same t0 _ _ Ht (idx_range (S l) va) Hne) as Hs.
      remember (S l) as l1 eqn:El. cbn [mmu_walk]. cbv zeta. rewrite Hs. subst l1.
      destruct (has (m (t0 + 8 * idx (S l) va)) PAGE_PRESENT) eqn:HP; [|done]. cbn [negb].
      destruct (has (m (t0 + 8 * idx (S l) va)) PAGE_SIZE_BIT) eqn:HS; [done|].
      apply IH; [|intros ->; apply (reach_level_le m r) in Ht; lia | by apply perm_land].
      apply reach_step; try done; [apply idx_range|]. intros ->. by apply Hrec.
Qed.

(** The new entry withholds no permission. *)
Lemma upper_perm_preserved va : e' .& 6 = 6 ->
  (lT = 0%nat \/ forall j, index_ok j -> m' (F + 8 * j) = 0) ->
  forall l t0 perm, reach m r (S l) t0 -> (l = 3%nat -> idx 3 va <> RECURSIVE_INDEX) -> perm .& 6 = perm ->
    upper_perm m' (S l) t0 perm va = upper_perm m (S l) t0 perm va.
Proof.
  intros He6 HFz. induction l as [|l IH]; intros t0 perm Ht Hrec Hperm; [done|].
  cbn [upper_perm]. cbv zeta. destruct (decide (t0 + 8 * idx (S l) va = ea)) as [E|Hne].
  - destruct (slot_is_ea t0 _ _ Ht (idx_range _ va) E) as (_ & _ & El). injection El as ->.
    destruct Hea as (E1 & HP & HS & HM). rewrite E, Hold, E1, HP, HS, HM. cbn [andb negb].
    assert (Ep : perm .& e' = perm) by (rewrite <- Hperm, <- Z.land_assoc, (Z.land_comm 6 e'), He6; done).
    rewrite Ep. destruct lT as [|k]; [done|]. destruct HFz as [?|HFz]; [done|].
    cbn [upper_perm]. cbv zeta. by rewrite HFz by apply idx_range.
  - rewrite (fresh_slot_same t0 _ _ Ht (idx_range (S l) va) Hne).
    destruct (has (m (t0 + 8 * idx (S l) va)) PAGE_PRESENT) eqn:HP; [|done].
    destruct (has (m (t0 + 8 * idx (S l) va)) PAGE_SIZE_BIT) eqn:HS; [done|].
    apply IH; [|intros ->; apply (reach_level_le m r) in Ht; lia | by apply perm_land].
    apply reach_step; try done; [apply idx_range|]. intros ->. by apply Hrec.
Qed.

Lemma slot_walk_fresh va perm : has (m ea) PAGE_PRESENT = false ->
  (forall j, index_ok j -> m' (F + 8 * j) = 0) -> idx (S lT) va = i ->
  mmu_walk m' (S (S lT)) T perm va = mmu_walk m (S (S lT)) T perm va.
Proof.
  intros Hempty Hz Ei. destruct Hea as (E1 & HP & HS & HM).
  remember (S lT) as l1 eqn:El. cbn [mmu_walk]. cbv zeta. rewrite Ei. fold ea.
  rewrite Hempty, E1, HP, HM. cbn [negb]. subst l1. rewrite HS.
  cbn [mmu_walk]. cbv zeta. by rewrite Hz by apply idx_range.
Qed.

Lemma slot_walk_split va perm : lT = 0%nat -> perm .& 6 = perm -> e' .& 6 = 6 ->
  has (m ea) PAGE_PRESENT = true -> has (m ea) PAGE_SIZE_BIT = true ->
  (m ea .& ADDR_MASK) mod 2 ^ 21 = 0 ->
  (forall j, index_ok j -> m' (F + 8 * j) = ((m ea .& ADDR_MASK) + j * PAGE_SIZE) .| (m ea .& 31)) ->
  idx (S lT) va = i ->
  mmu_walk m' (S (S lT)) T perm va = mmu_walk m (S (S lT)) T perm va.
Proof.
  intros -> Hperm He6 HP2 HS2 Hal Hfill Ei. destruct Hea as (E1 & HP & HS & HM).
  cbn [mmu_walk]. cbv zeta. rewrite Ei. fold ea. rewrite HP2, HS2, E1, HP, HS, HM.
  cbn [negb Nat.leb]. rewrite Hfill by apply idx_range.
  pose proof (masked_range (m ea)) as Hb. pose proof (idx_range 0 va) as Hj.
  set (b := m ea .& ADDR_MASK) in *. set (fl := m ea .& 31).
  assert (Hfl : 0 <= fl < 32) by (subst fl; change 31 with (Z.ones 5);
    rewrite Z.land_ones by lia; apply Z.mod_pos_bound; lia).
  assert (Hfl7 : forall k, 0 <= k < 5 -> Z.testbit fl k = Z.testbit (m ea) k).
  { intros k Hk. subst fl. rewrite Z.land_spec. change 31 with (Z.ones 5).
    rewrite Z.ones_spec_low by lia. apply andb_true_r. }
  assert (Hlt : b + idx 0 va * PAGE_SIZE < 2 ^ 52 /\ aligned (b + idx 0 va * PAGE_SIZE)).
  { unfold aligned, PAGE_SIZE. change (2 ^ 52) with 4503599627370496 in *.
    change (2 ^ 21) with 2097152 in *. Z.to_euclidean_division_equations. lia. }
  assert (Hx : has ((b + idx 0 va * PAGE_SIZE) .| fl) PAGE_PRESENT = true).
  { change PAGE_PRESENT with (1 .<< 0). rewrite has_one_shl by lia. rewrite Z.lor_spec.
    rewrite Hfl7 by lia. change PAGE_PRESENT with (1 .<< 0) in HP2.
    rewrite has_one_shl in HP2 by lia. rewrite HP2. apply orb_true_r. }
  rewrite Hx. cbn [negb]. f_equal. f_equal.
  - rewrite mask_entry by (unfold PAGE_SIZE in *; lia || apply Hlt).
    rewrite idx_div_mod. change (2 ^ (12 + 9 * Z.of_nat 0)) with 4096.
    change (2 ^ (12 + 9 * Z.of_nat 1)) with 2097152. change (2 ^ 21) with 2097152 in Hal.
    unfold PAGE_SIZE. Z.to_euclidean_division_equations. lia.
  - rewrite <- Hperm, <- !Z.land_assoc, (Z.land_assoc 6 e'), (Z.land_comm 6 e'), He6.
    f_equal. apply Z.bits_inj_iff'. intros k Hk. rewrite !Z.land_spec, Z.lor_spec.
    destruct (decide (k < 3)) as [Hk3|].
    + rewrite Hfl7 by lia.
      assert (Z.testbit (b + idx 0 va * PAGE_SIZE) k = false) as ->; [|done].
      assert (E : b + idx 0 va * PAGE_SIZE = (b + idx 0 va * PAGE_SIZE) / 2 ^ 12 * 2 ^ 12).
      { destruct Hlt as [_ Ha]. unfold aligned, PAGE_SIZE in *. change (2 ^ 12) with 4096.
        Z.to_euclidean_division_equations. lia. }
      rewrite E. apply Z.mul_pow2_bits_low. lia.
    + change 6 with (6 mod 2 ^ 3). rewrite Z.mod_pow2_bits_high by lia. done.
Qed.
End install.

(** ** The invariant of an address space *)
Section machine.
Context {St : Type} `{FrameAllocator St}.
Implicit Types s : Machine St.

Record vmm_inv (s : Machine St) : Prop := {
  inv_rec : rec_ok s;
  inv_level : forall l l' t, reach (mem s) (root s) l t -> reach (mem s) (root s) l' t -> l = l';
  inv_free : forall l t f, reach (mem s) (root s) l t -> f ∈ fa_free (frames s) -> t <> f * FRAME_SIZE;
  inv_phys : forall f, f ∈ fa_free (frames s) -> 0 <= f < 2 ^ 40;
  inv_fa : fa_ok (frames s);
  (** Large pages are 2 MiB pages, aligned; boot.S creates no others. *)
  inv_huge : forall l t i, reach (mem s) (root s) (S l) t -> index_ok i -> (1 <= l)%nat ->
    (l = 3%nat -> i <> RECURSIVE_INDEX) ->
    has (mem s (t + 8 * i)) PAGE_PRESENT = true -> has (mem s (t + 8 * i)) PAGE_SIZE_BIT = true ->
    l = 1%nat /\ (mem s (t + 8 * i) .& ADDR_MASK) mod 2 ^ 21 = 0;
}.

(** [s'] translates every address outside the recursive window as [s] does. *)
Definition same_translation (s s' : Machine St) : Prop :=
  cr3 s' = cr3 s /\ forall va, idx 3 va <> RECURSIVE_INDEX -> translate s' va = translate s va.

(** What the upper tables allow at [va]. *)
Definition table_perm s (va : Z) : Z := upper_perm (mem s) 4 (root s) (PAGE_WRITABLE .| PAGE_USER) va.

Definition same_upper s s' : Prop := forall va, idx 3 va <> RECURSIVE_INDEX -> table_perm s' va = table_perm s va.

Lemma root_aligned s : aligned (root s).
Proof. apply masked_aligned. Qed.

Lemma vread_maps s vt t i : maps_table s vt t -> index_ok i -> vread (slot vt i) s = Ok (mem s (t + 8 * i)).
Proof. intros Hm Hi. unfold vread. destruct (Hm i Hi) as [perm ->]. done. Qed.

Lemma vwrite_maps s vt t i v : maps_table s vt t -> index_ok i ->
  vwrite (slot vt i) v s = Ok (mkMachine (set_word (mem s) (t + 8 * i) v) (cr3 s) (frames s)).
Proof. intros Hm Hi. unfold vwrite. destruct (Hm i Hi) as [perm ->]. done. Qed.

Lemma set_word_eq m a v : set_word m a v a = v.
Proof. unfold set_word. by rewrite Z.eqb_refl. Qed.

Lemma set_word_ne m a b v : b <> a -> set_word m a v b = m b.
Proof. unfold set_word. intros. by rewrite (proj2 (Z.eqb_neq b a)). Qed.

(** Writing the first [n] words of a frame through a window that stays in
    place whatever the frame holds. *)
Lemma fill_page s vt F n g : 0 <= n <= 512 ->
  (forall m2, (forall a, ~ in_page F a -> m2 a = mem s a) ->
     maps_table (mkMachine m2 (cr3 s) (frames s)) vt F) ->
  exists m', for_range 0 n (fun j s => vwrite (slot vt j) (g j) s) s =
               Ok (mkMachine m' (cr3 s) (frames s)) /\
    (forall j, 0 <= j < n -> m' (F + 8 * j) = g j) /\
    (forall a, ~ (F <= a < F + 8 * n) -> m' a = mem s a).
Proof.
  intros Hn Hwin. destruct s as [m0 c fr]. simpl in *.
  destruct (for_range_rule (fun k s' => exists m', s' = mkMachine m' c fr /\
      (forall j, 0 <= j < k -> m' (F + 8 * j) = g j) /\
      (forall a, ~ (F <= a < F + 8 * k) -> m' a = m0 a)) 0 n
      (fun j s => vwrite (slot vt j) (g j) s) (mkMachine m0 c fr)) as (s' & E & m' & -> & Hm' & Ho).
  - lia.
  - exists m0. split; [done|]. split; [lia|done].
  - intros k s' Hk (m1 & -> & H1 & H2).
    assert (Hmap : maps_table (mkMachine m1 c fr) vt F).
    { apply Hwin. intros a Ha. apply H2. unfold in_page, PAGE_SIZE in Ha. lia. }
    eexists. split; [apply (vwrite_maps _ _ _ _ _ Hmap); unfold index_ok; lia|].
    exists (set_word m1 (F + 8 * k) (g k)). split; [done|]. split.
    + intros j Hj. destruct (decide (j = k)) as [->|]; [apply set_word_eq|].
      rewrite set_word_ne by lia. apply H1. lia.
    + intros a Ha. rewrite set_word_ne by lia. apply H2. lia.
  - exists m'. split_and!; try done.
Qed.

(** Every table of [s'] is a table of [s] or a frame that was free in [s] and
    is not free any more. *)
Definition tables_grow (s s' : Machine St) : Prop :=
  forall l t, reach (mem s') (root s') l t ->
    reach (mem s) (root s) l t \/
    exists f, f ∈ fa_free (frames s) ∖ fa_free (frames s') /\ t = f * FRAME_SIZE.

(** What one [ensureTable] step achieves at the table [ids], slot [i]. *)
Definition step_post (s s' : Machine St) (ids : list Z) (i t : Z) : Prop :=
  vmm_inv s' /\ same_translation s s' /\
  fa_free (frames s') ⊆ fa_free (frames s) /\
  (size (fa_free (frames s)) <= S (size (fa_free (frames s'))))%nat /\
  path (mem s') (root s') (ids ++ [i]) = Some t /\ tables_grow s s' /\ same_upper s s'.

(** The facts common to the two ways a step installs a fresh frame. *)
Section install_step.
Context (s : Machine St) (ids : list Z) (T i F : Z) (lT : nat) (f : Z).
Let ea := T + 8 * i.
Let e' := F .| 7.
Hypothesis Hinv : vmm_inv s.
Hypothesis Hv : valid_path ids.
Hypothesis Hlen : (length ids + S (S lT) = 4)%nat.
Hypothesis Hi : index_ok i.
Hypothesis Hrecid : ids = [] -> i <> RECURSIVE_INDEX.
Hypothesis Hp : path (mem s) (root s) ids = Some T.
Hypothesis Hf : f ∈ fa_free (frames s).
Hypothesis HFeq : F = f * FRAME_SIZE.

Lemma fresh_aligned : aligned F.
Proof. subst F. by apply Z.mod_mul. Qed.

Lemma table_reached : reach (mem s) (root s) (S (S lT)) T.
Proof. exists ids. split_and!; try done; lia. Qed.

Lemma fresh_unreached l : ~ reach (mem s) (root s) l F.
Proof. intros Hl. by apply (inv_free s Hinv l F f Hl Hf). Qed.

Lemma slot_not_in_fresh : ~ in_page F ea.
Proof.
  intros E. apply entry_in_page in E;
    [|exact (reach_aligned _ _ (root_aligned s) _ _ table_reached) | apply fresh_aligned | done].
  apply (fresh_unreached (S (S lT))). rewrite <- E. apply table_reached.
Qed.

Lemma new_entry_bits k : 0 <= k < 12 -> Z.testbit e' k = Z.testbit 7 k.
Proof.
  intros Hk. unfold e'. rewrite Z.lor_spec. replace F with (f * 2 ^ 12) by (subst F; done).
  by rewrite Z.mul_pow2_bits_low by lia.
Qed.

Lemma new_entry_perm : e' .& 6 = 6.
Proof.
  apply Z.bits_inj_iff'. intros k Hk. rewrite Z.land_spec. destruct (decide (k < 12)).
  - rewrite new_entry_bits, <- Z.land_spec by lia. done.
  - change 6 with (6 mod 2 ^ 12). rewrite Z.mod_pow2_bits_high by lia. apply andb_false_r.
Qed.

Context (m' : Z -> Z) (fr' : St).
Hypothesis Hea : m' ea = e'.

Lemma new_entry : m' ea = e' /\ has e' PAGE_PRESENT = true /\ has e' PAGE_SIZE_BIT = false /\
  e' .& ADDR_MASK = F.
Proof.
  split; [done|]. change PAGE_PRESENT with (1 .<< 0). change PAGE_SIZE_BIT with (1 .<< 7).
  rewrite !has_one_shl, !new_entry_bits by lia. split; [done|]. split; [done|].
  pose proof (inv_phys s Hinv f Hf).
  apply mask_entry; [subst F; unfold FRAME_SIZE; lia | apply fresh_aligned | lia].
Qed.

Hypothesis Hsame : forall a, a <> ea -> ~ in_page F a -> m' a = mem s a.

Lemma step_slot_kept l t j : reach (mem s) (root s) l t -> index_ok j -> t + 8 * j <> ea ->
  m' (t + 8 * j) = mem s (t + 8 * j).
Proof.
  apply (fresh_slot_same (mem s) m' (root s) T i F (root_aligned s) fresh_aligned fresh_unreached Hsame).
Qed.

Lemma step_rec_slot : root s + 8 * RECURSIVE_INDEX <> ea.
Proof.
  intros E. destruct (slot_is_ea (mem s) (root s) T i lT (root_aligned s) (inv_level s Hinv)
    table_reached Hi (root s) RECURSIVE_INDEX 4) as (_ & Ei & Hl); [apply reach_root | done | done |].
  apply Hrecid; [|done]. destruct ids; [done | simpl in *; lia].
Qed.

Lemma step_rec_ok : rec_ok (mkMachine m' (cr3 s) fr').
Proof.
  unfold rec_ok. change (root (mkMachine m' (cr3 s) fr')) with (root s). simpl.
  rewrite (step_slot_kept 4 (root s) RECURSIVE_INDEX);
    [apply Hinv | apply reach_root | done | apply step_rec_slot].
Qed.

Hypothesis Hold : has (mem s ea) PAGE_PRESENT && negb (has (mem s ea) PAGE_SIZE_BIT) = false.

Lemma step_path_kept : path m' (root s) ids = Some T.
Proof.
  apply (path_preserved (mem s) m' (root s) T i F (root_aligned s) (inv_level s Hinv)
    fresh_aligned fresh_unreached Hsame Hold ids (root s) (S (S lT)));
    [rewrite Hlen; apply reach_root | apply Hv | lia | intros _; apply Hv | done].
Qed.

Lemma step_child : path m' (root s) (ids ++ [i]) = Some F.
Proof.
  rewrite (path_snoc _ _ _ _ _ step_path_kept). destruct new_entry as (E1 & HP & HS & HM).
  fold ea. by rewrite E1, HP, HS, HM.
Qed.

(** Once the slot is written, the window of the child shows the fresh frame,
    whatever the frame holds. *)
Lemma step_child_window : maps_table (mkMachine m' (cr3 s) fr') (table_virt (ids ++ [i])) F.
Proof.
  apply table_virt_maps; [apply step_rec_ok | | rewrite length_app; simpl; lia | apply step_child].
  apply Forall_app. split; [apply Hv | by constructor].
Qed.

Hypothesis Hfr : fa_free fr' = fa_free (frames s) ∖ {[f]}.
Hypothesis Hok : fa_ok fr'.
Hypothesis HFz : lT = 0%nat \/ (forall j, index_ok j -> m' (F + 8 * j) = 0).

Lemma step_reach_origin l t : reach m' (root s) l t ->
  reach (mem s) (root s) l t \/ (t = F /\ l = S lT).
Proof.
  apply (reach_origin (mem s) m' (root s) T i F e' lT (root_aligned s) (inv_level s Hinv)
    table_reached Hi fresh_aligned fresh_unreached new_entry Hsame l t HFz).
Qed.

Lemma step_vmm_inv : vmm_inv (mkMachine m' (cr3 s) fr').
Proof.
  split; change (root (mkMachine m' (cr3 s) fr')) with (root s); simpl.
  - apply step_rec_ok.
  - intros l l' t [H1|[E1 ->]]%step_reach_origin [H2|[E2 ->]]%step_reach_origin.
    + by apply (inv_level s Hinv _ _ _ H1).
    + rewrite E2 in H1. by apply fresh_unreached in H1.
    + rewrite E1 in H2. by apply fresh_unreached in H2.
    + done.
  - intros l t g [H1|[E1 ->]]%step_reach_origin Hg; rewrite Hfr in Hg.
    + apply (inv_free s Hinv l t g H1). set_solver.
    + apply elem_of_difference in Hg as [_ Hg]. rewrite elem_of_singleton in Hg.
      rewrite E1, HFeq. unfold FRAME_SIZE. lia.
  - intros g Hg. rewrite Hfr in Hg. apply (inv_phys s Hinv). set_solver.
  - done.
  - intros l t j [H1|[E1 El]]%step_reach_origin Hj Hl Hne HP HS.
    + destruct (decide (t + 8 * j = ea)) as [E|Hneq].
      * destruct new_entry as (E1 & _ & HS' & _). rewrite E, E1 in HS. congruence.
      * rewrite (step_slot_kept _ t j H1 Hj Hneq) in *. by apply (inv_huge s Hinv).
    + rewrite E1 in *. destruct HFz as [Hz|Hz]; [lia|]. rewrite Hz in HP by done. done.
Qed.

Lemma step_translation :
  (forall va perm, perm .& 6 = perm -> idx (S lT) va = i ->
     mmu_walk m' (S (S lT)) T perm va = mmu_walk (mem s) (S (S lT)) T perm va) ->
  same_translation s (mkMachine m' (cr3 s) fr').
Proof.
  intros Hslot. split; [done|]. intros va Hva. unfold translate.
  change (root (mkMachine m' (cr3 s) fr')) with (root s). simpl mem.
  destruct (canonical va); [|done].
  apply (walk_preserved (mem s) m' (root s) T i F lT (root_aligned s) (inv_level s Hinv)
    table_reached Hi fresh_aligned fresh_unreached Hsame va (Hslot va) 3);
    [apply reach_root | done | done].
Qed.

Lemma step_installed :
  (forall va perm, perm .& 6 = perm -> idx (S lT) va = i ->
     mmu_walk m' (S (S lT)) T perm va = mmu_walk (mem s) (S (S lT)) T perm va) ->
  step_post s (mkMachine m' (cr3 s) fr') ids i F.
Proof.
  intros Hslot. split; [apply step_vmm_inv|]. split; [by apply step_translation|].
  simpl. rewrite Hfr. split; [set_solver|]. split.
  - pose proof (size_remove (fa_free (frames s)) f Hf). lia.
  - split; [apply step_child|]. split.
    + intros l t [Hl|[-> ->]]%step_reach_origin; [by left|]. right.
      exists f. split; [simpl; rewrite Hfr; set_solver | done].
    + intros va Hva. unfold table_perm. change (root (mkMachine m' (cr3 s) fr')) with (root s). simpl mem.
      apply (upper_perm_preserved (mem s) m' (root s) T i F e' lT (root_aligned s) (inv_level s Hinv)
        table_reached Hi fresh_aligned fresh_unreached new_entry Hsame Hold va new_entry_perm HFz 3);
        [apply reach_root | done | done].
Qed.
End install_step.

Lemma alloc_ok s : fa_ok (frames s) -> fa_free (frames s) <> ∅ ->
  exists f fr', f ∈ fa_free (frames s) /\
    alloc s = Ok (f * FRAME_SIZE, mkMachine (mem s) (cr3 s) fr') /\
    fa_ok fr' /\ fa_free fr' = fa_free (frames s) ∖ {[f]}.
Proof.
  intros Hok Hne. destruct (fa_alloc_spec _ Hok) as (r & fr' & E & Hok' & Hs).
  unfold alloc. rewrite E. simpl. remember (fa_free fr') as fr2 eqn:Efr.
  destruct Hs as [f Hf Hr|]; [|done]. by exists f, fr'.
Qed.

Section ensure.
Context (s : Machine St) (ids : list Z) (T i : Z) (lT : nat).
Hypothesis Hinv : vmm_inv s.
Hypothesis Hv : valid_path ids.
Hypothesis Hlen : (length ids + S (S lT) = 4)%nat.
Hypothesis Hi : index_ok i.
Hypothesis Hrecid : ids = [] -> i <> RECURSIVE_INDEX.
Hypothesis Hp : path (mem s) (root s) ids = Some T.
Hypothesis Hroom : fa_free (frames s) <> ∅.
Let ea := T + 8 * i.

Lemma parent_window : maps_table s (table_virt ids) T.
Proof. apply table_virt_maps; [apply Hinv | apply Hv | lia | done]. Qed.

Section fresh.
Context (f : Z) (fr' : St).
Let F := f * FRAME_SIZE.
Hypothesis Hf : f ∈ fa_free (frames s).
Hypothesis Hfr : fa_free fr' = fa_free (frames s) ∖ {[f]}.
Hypothesis Hok : fa_ok fr'.
Hypothesis Hold : has (mem s ea) PAGE_PRESENT && negb (has (mem s ea) PAGE_SIZE_BIT) = false.

(** Memory after the slot was written, up to the contents of the fresh frame. *)
Definition linked (m2 : Z -> Z) : Prop :=
  forall a, ~ in_page F a -> m2 a = set_word (mem s) ea (F .| 7) a.

Lemma linked_slot m2 : linked m2 -> m2 ea = F .| 7.
Proof.
  intros Hm. rewrite Hm; [apply set_word_eq|].
  by apply (slot_not_in_fresh s ids T i F lT f).
Qed.

Lemma linked_same m2 : linked m2 -> forall a, a <> ea -> ~ in_page F a -> m2 a = mem s a.
Proof. intros Hm a Ha Hpg. rewrite Hm by done. by apply set_word_ne. Qed.

Lemma fill_fresh m2 g : linked m2 ->
  exists m', for_range 0 512 (fun j s => vwrite (slot (table_virt (ids ++ [i])) j) (g j) s)
      (mkMachine m2 (cr3 s) fr') = Ok (mkMachine m' (cr3 s) fr') /\
    linked m' /\ forall j, index_ok j -> m' (F + 8 * j) = g j.
Proof.
  intros Hm. destruct (fill_page (mkMachine m2 (cr3 s) fr') (table_virt (ids ++ [i])) F 512 g)
    as (m' & E & Hg & Ho); [lia | |].
  - intros m3 Hm3. simpl in *.
    assert (Hl : linked m3) by (intros a Ha; rewrite Hm3 by done; by apply Hm).
    apply (step_child_window s ids T i F lT f); try done;
      [by apply linked_slot | by apply linked_same].
  - exists m'. split; [exact E|]. split; [|exact Hg].
    intros a Ha. rewrite <- Hm by done. apply Ho. unfold in_page, PAGE_SIZE in Ha. lia.
Qed.

(** Reading the slot back gives the fresh frame. *)
Lemma slot_read_back m2 : linked m2 ->
  vread (slot (table_virt ids) i) (mkMachine m2 (cr3 s) fr') = Ok (F .| 7) /\ (F .| 7) .& ADDR_MASK = F.
Proof.
  intros Hm. split.
  - rewrite (vread_maps _ (table_virt ids) T i); [|
      | done]; [simpl; f_equal; by apply linked_slot|].
    apply table_virt_maps; [|apply Hv | lia |].
    + apply (step_rec_ok s ids T i F lT f); try done. by apply linked_same.
    + apply (step_path_kept s ids T i F lT f); try done. by apply linked_same.
  - apply (new_entry s ids T i F lT f) with m2; try done. by apply linked_slot.
Qed.

Lemma linked_step m' : linked m' ->
  (lT = 0%nat \/ (forall j, index_ok j -> m' (F + 8 * j) = 0)) ->
  (forall va perm, perm .& 6 = perm -> idx (S lT) va = i ->
     mmu_walk m' (S (S lT)) T perm va = mmu_walk (mem s) (S (S lT)) T perm va) ->
  step_post s (mkMachine m' (cr3 s) fr') ids i F.
Proof.
  intros Hm HFz Hslot. apply (step_installed s ids T i F lT f); try done;
    [by apply linked_slot | by apply linked_same].
Qed.

Lemma first_write :
  vwrite (slot (table_virt ids) i) (F .| PAGE_PRESENT .| PAGE_WRITABLE .| PAGE_USER)
    (mkMachine (mem s) (cr3 s) fr') =
  Ok (mkMachine (set_word (mem s) ea (F .| 7)) (cr3 s) fr').
Proof.
  rewrite (vwrite_maps _ (table_virt ids) T i); [| |done].
  - simpl. by rewrite <- !Z.lor_assoc.
  - apply parent_window.
Qed.
End fresh.

Lemma ensureTable_missing hps : has (mem s ea) PAGE_PRESENT = false ->
  exists t s', ensureTable (table_virt ids) i (table_virt (ids ++ [i])) hps s = Ok (t, s') /\
    step_post s s' ids i t.
Proof.
  intros HP. destruct (alloc_ok s (inv_fa s Hinv) Hroom) as (f & fr' & Hf & Ea & Hok & Hfr).
  assert (Hold : has (mem s ea) PAGE_PRESENT && negb (has (mem s ea) PAGE_SIZE_BIT) = false)
    by by rewrite HP.
  destruct (fill_fresh f fr' Hf Hold (set_word (mem s) ea (f * FRAME_SIZE .| 7)) (fun _ => 0))
    as (m' & Efill & Hm & Hz); [done|].
  destruct (slot_read_back f fr' Hf Hold m' Hm) as [Er Emask].
  exists (f * FRAME_SIZE), (mkMachine m' (cr3 s) fr'). split.
  - unfold ensureTable. rewrite (vread_maps _ _ _ _ parent_window Hi). simpl. fold ea.
    rewrite HP, Ea. simpl. rewrite first_write. simpl. unfold zeroPage. rewrite Efill. simpl.
    rewrite Er. simpl. by rewrite Emask.
  - apply linked_step; try done; [by right|]. intros va perm _ Ei.
    apply (slot_walk_fresh _ _ (root s) T i (f * FRAME_SIZE) (f * FRAME_SIZE .| 7)); try done.
    + by apply (table_reached s ids).
    + apply (new_entry s ids T i _ lT f); try done. by apply linked_slot.
Qed.

Lemma ensureTable_split : lT = 0%nat ->
  has (mem s ea) PAGE_PRESENT = true -> has (mem s ea) PAGE_SIZE_BIT = true ->
  exists t s', ensureTable (table_virt ids) i (table_virt (ids ++ [i])) HUGE_2MB s = Ok (t, s') /\
    step_post s s' ids i t.
Proof.
  intros H0 HP HS. destruct (alloc_ok s (inv_fa s Hinv) Hroom) as (f & fr' & Hf & Ea & Hok & Hfr).
  assert (Hold : has (mem s ea) PAGE_PRESENT && negb (has (mem s ea) PAGE_SIZE_BIT) = false)
    by by rewrite HP, HS.
  destruct (fill_fresh f fr' Hf Hold (set_word (mem s) ea (f * FRAME_SIZE .| 7)) (fun _ => 0))
    as (m1 & Efill1 & Hm1 & _); [done|].
  destruct (fill_fresh f fr' Hf Hold m1
    (fun j => u64 ((mem s ea .& ADDR_MASK) + j * PAGE_SIZE) .| (mem s ea .& 31)))
    as (m' & Efill & Hm & Hg); [done|].
  destruct (slot_read_back f fr' Hf Hold m' Hm) as [Er Emask].
  exists (f * FRAME_SIZE), (mkMachine m' (cr3 s) fr'). split.
  - unfold ensureTable. rewrite (vread_maps _ _ _ _ parent_window Hi). simpl. fold ea.
    rewrite HP, HS. unfold splitHugePage. rewrite (vread_maps _ _ _ _ parent_window Hi). simpl.
    rewrite Ea. simpl. rewrite first_write. simpl. unfold zeroPage. rewrite Efill1. simpl.
    change (HUGE_2MB / PAGE_SIZE) with 512. fold ea.
    change (PAGE_PRESENT .| PAGE_WRITABLE .| PAGE_USER .| PAGE_PWT .| PAGE_CACHE_DISABLE) with 31.
    rewrite Efill. simpl.
    rewrite Er. simpl. by rewrite Emask.
  - apply linked_step; try done; [by left|]. intros va perm Hperm Ei.
    destruct (inv_huge s Hinv (S lT) T i) as [_ Hal]; try done; [|lia|lia|].
    { by apply (table_reached s ids). }
    apply (slot_walk_split _ _ (root s) T i (f * FRAME_SIZE) (f * FRAME_SIZE .| 7) lT); try done.
    + by apply (table_reached s ids).
    + apply (new_entry s ids T i _ lT f); try done. by apply linked_slot.
    + by eapply new_entry_perm.
    + intros j Hj. rewrite Hg by done. rewrite u64_small; [done|].
      pose proof (masked_range (mem s ea)). unfold index_ok, PAGE_SIZE in *. lia.
Qed.

Lemma ensureTable_ok hps : (lT = 0%nat -> hps = HUGE_2MB) ->
  exists t s', ensureTable (table_virt ids) i (table_virt (ids ++ [i])) hps s = Ok (t, s') /\
    step_post s s' ids i t.
Proof.
  intros Hhps. destruct (has (mem s ea) PAGE_PRESENT) eqn:HP; [|by apply ensureTable_missing].
  destruct (has (mem s ea) PAGE_SIZE_BIT) eqn:HS.
  - assert (lT = 0%nat) as H0.
    { destruct (inv_huge s Hinv (S lT) T i) as [E _]; try done.
      - by apply (table_reached s ids).
      - lia.
      - intros E. apply Hrecid. destruct ids; [done|]. simpl in Hlen. lia.
      - lia. }
    rewrite Hhps by done. by apply ensureTable_split.
  - exists (mem s ea .& ADDR_MASK), s. split.
    + unfold ensureTable. rewrite (vread_maps _ _ _ _ parent_window Hi). simpl. fold ea.
      rewrite HP, HS. simpl. by rewrite (vread_maps _ _ _ _ parent_window Hi).
    + split; [done|]. split; [by split|]. split; [done|]. split; [lia|].
      split; [|split; [by left | done]]. rewrite (path_snoc _ _ _ _ _ Hp). fold ea. by rewrite HP, HS.
Qed.
End ensure.
End machine.
