(* ===== verification/AddressSpace.v ===== *)
(** The operations of the virtual memory manager as an address space sees
    them: [mapPage], [unmapPage], [allocAndMapPage] and [createAddressSpace]
    on every machine that satisfies [vmm_inv]. *)

From S2P Require Import Prelude Pmm Vmm VmmProofs.

Lemma page_floor_eq x : 0 <= x < 2 ^ 64 -> page_floor x = x / PAGE_SIZE * PAGE_SIZE.
Proof. intros Hx. by apply (land_floor x 12). Qed.

Lemma page_floor_div x : 0 <= x < 2 ^ 64 -> page_floor x / PAGE_SIZE = x / PAGE_SIZE.
Proof. intros. rewrite page_floor_eq by done. apply Z.div_mul. done. Qed.

Lemma idx_page l va va' : va / PAGE_SIZE = va' / PAGE_SIZE -> idx l va = idx l va'.
Proof.
  intros E. rewrite !idx_div_mod, !Z.pow_add_r by lia.
  change (2 ^ 12) with PAGE_SIZE. rewrite <- !Z.div_div by (unfold PAGE_SIZE; lia). by rewrite E.
Qed.

Lemma uppers_page l va va' : va / PAGE_SIZE = va' / PAGE_SIZE -> uppers l va = uppers l va'.
Proof.
  intros E. induction l as [|[|l] IH]; [done..|]. cbn [uppers] in *.
  by rewrite IH, (idx_page (S l) va va' E).
Qed.

Lemma uppers_4 va : uppers 4 va = [idx 3 va; idx 2 va; idx 1 va].
Proof. done. Qed.

Lemma uppers_valid va : idx 3 va <> RECURSIVE_INDEX -> valid_path (uppers 4 va).
Proof.
  intros Hne. split; [|simpl; congruence]. rewrite uppers_4.
  repeat (constructor; [apply idx_range|]). constructor.
Qed.

(** The permission bits of the walk, with the leaf entry. *)
Lemma walk_path_perm m l t perm va t1 : perm .& 6 = perm -> path m t (uppers (S l) va) = Some t1 ->
  let up := upper_perm m (S l) t perm va in up .& 6 = up /\ mmu_walk m (S l) t perm va =
    let e := m (t1 + 8 * idx 0 va) in
    if has e PAGE_PRESENT then Some (e .& ADDR_MASK + va mod PAGE_SIZE, up .& e) else None.
Proof.
  revert t perm. induction l as [|l IH]; intros t perm Hperm Hp.
  - simpl in Hp. simplify_eq. split; [done|]. cbn [mmu_walk]. by destruct (has _ _).
  - cbn [uppers path] in Hp. cbv zeta in Hp.
    destruct (has (m (t + 8 * idx (S l) va)) PAGE_PRESENT) eqn:HP; [|done].
    destruct (has (m (t + 8 * idx (S l) va)) PAGE_SIZE_BIT) eqn:HS; [done|].
    destruct (IH _ (perm .& m (t + 8 * idx (S l) va)) (perm_land _ _ Hperm) Hp) as (Hup & Hw).
    assert (Eu : upper_perm m (S (S l)) t perm va =
      upper_perm m (S l) (m (t + 8 * idx (S l) va) .& ADDR_MASK) (perm .& m (t + 8 * idx (S l) va)) va).
    { cbn [upper_perm]. cbv zeta. by rewrite HP, HS. }
    cbv zeta. rewrite Eu. split; [done|]. remember (S l) as l' eqn:El. cbn [mmu_walk]. cbv zeta.
    rewrite HP, HS. cbn [negb]. subst l'. exact Hw.
Qed.

Section address_space.
Context {St : Type} `{FrameAllocator St}.
Implicit Types s : Machine St.

(** The physical address of the page-table entry that [va] uses. *)
Definition leaf_slot s (va : Z) : option Z :=
  match path (mem s) (root s) (uppers 4 va) with
  | Some t => Some (t + 8 * idx 0 va)
  | None => None
  end.

Definition write_word s (a v : Z) : Machine St := mkMachine (set_word (mem s) a v) (cr3 s) (frames s).

(** ** Writing a word that no upper table holds *)
Section word_write.
Context (s : Machine St) (a v : Z).
Let s' := write_word s a v.
Hypothesis Hinv : vmm_inv s.
(** [a] is no entry of a table of level 2, 3 or 4. *)
Hypothesis Hupper : forall l t j, reach (mem s) (root s) (S (S l)) t -> index_ok j -> t + 8 * j <> a.

Lemma ww_path ids t0 l : reach (mem s) (root s) (length ids + S l) t0 -> Forall index_ok ids ->
  (t0 = root s -> head ids <> Some RECURSIVE_INDEX) ->
  path (mem s') t0 ids = path (mem s) t0 ids.
Proof.
  revert t0. induction ids as [|j ids IH]; intros t0 Ht Hf Hrec; [done|].
  apply Forall_cons_iff in Hf as [Hj Hf]. cbn [path length] in *. cbv zeta.
  rewrite Nat.add_succ_r in Ht. simpl in Ht.
  assert (E : mem s' (t0 + 8 * j) = mem s (t0 + 8 * j)) by (apply set_word_ne; eauto).
  rewrite E. destruct (has (mem s (t0 + 8 * j)) PAGE_PRESENT) eqn:HP; [|done].
  destruct (has (mem s (t0 + 8 * j)) PAGE_SIZE_BIT) eqn:HS; [done|]. cbn [negb andb].
  assert (Hstep : reach (mem s) (root s) (S (length ids + l)) (mem s (t0 + 8 * j) .& ADDR_MASK)).
  { apply reach_step; try done. intros E2 ->. apply Hrec; [|done].
    destruct Ht as (ids0 & _ & Hlen & _ & Hp0).
    destruct ids0; [by injection Hp0 | simpl in Hlen; lia]. }
  apply IH; [by rewrite Nat.add_succ_r | done |].
  intros Er. rewrite Er in Hstep. pose proof (inv_level s Hinv _ _ _ Hstep (reach_root _ _)).
  apply (reach_level_le (mem s) (root s)) in Ht. lia.
Qed.

Lemma ww_path_root ids : valid_path ids -> (length ids <= 3)%nat ->
  path (mem s') (root s) ids = path (mem s) (root s) ids.
Proof.
  intros [Hf Hh] Hl. apply (ww_path ids _ (3 - length ids)); [|done|done].
  replace (length ids + S (3 - length ids))%nat with 4%nat by lia. apply reach_root.
Qed.

Lemma ww_reach l t : reach (mem s') (root s) l t <-> reach (mem s) (root s) l t.
Proof.
  split; intros (ids & Hv & Hl & H1 & Hp); exists ids; split_and!; try done.
  - rewrite ww_path_root in Hp by (done || lia). done.
  - rewrite ww_path_root by (done || lia). done.
Qed.

Lemma ww_inv : vmm_inv s'.
Proof.
  assert (Eroot : root s' = root s) by done.
  split; rewrite ?Eroot.
  - unfold rec_ok. rewrite Eroot.
    assert (E : mem s' (root s + 8 * RECURSIVE_INDEX) = mem s (root s + 8 * RECURSIVE_INDEX)).
    { apply set_word_ne, (Hupper 2); [apply reach_root | done]. }
    rewrite E. apply Hinv.
  - intros l l' t H1%ww_reach H2%ww_reach. by apply (inv_level s Hinv l l' t).
  - intros l t f H1%ww_reach. by apply (inv_free s Hinv l t f).
  - apply Hinv.
  - apply Hinv.
  - intros l t i H1%ww_reach Hi Hl Hne. destruct l as [|l]; [lia|].
    assert (E : mem s' (t + 8 * i) = mem s (t + 8 * i)) by (apply set_word_ne; eauto).
    rewrite E. by apply (inv_huge s Hinv (S l) t i).
Qed.

Lemma ww_walk va l t0 perm : reach (mem s) (root s) (S l) t0 ->
  (l = 3%nat -> idx 3 va <> RECURSIVE_INDEX) ->
  (forall t1, path (mem s) t0 (uppers (S l) va) = Some t1 -> t1 + 8 * idx 0 va <> a) ->
  mmu_walk (mem s') (S l) t0 perm va = mmu_walk (mem s) (S l) t0 perm va.
Proof.
  revert t0 perm. induction l as [|l IH]; intros t0 perm Ht Hrec Hleaf.
  - assert (E : mem s' (t0 + 8 * idx 0 va) = mem s (t0 + 8 * idx 0 va))
      by (apply set_word_ne; by apply Hleaf).
    cbn [mmu_walk]. cbv zeta. by rewrite E.
  - assert (E : mem s' (t0 + 8 * idx (S l) va) = mem s (t0 + 8 * idx (S l) va)).
    { apply set_word_ne. apply (Hupper l); [done | apply idx_range]. }
    cbn [uppers path] in Hleaf. cbv zeta in Hleaf.
    remember (S l) as l1 eqn:El. cbn [mmu_walk]. cbv zeta. rewrite E. subst l1.
    destruct (has (mem s (t0 + 8 * idx (S l) va)) PAGE_PRESENT) eqn:HP; [|done]. cbn [negb].
    destruct (has (mem s (t0 + 8 * idx (S l) va)) PAGE_SIZE_BIT) eqn:HS; [done|].
    apply IH; [|intros ->; apply (reach_level_le (mem s) (root s)) in Ht; lia | done].
    apply reach_step; try done; [apply idx_range|]. intros ->. by apply Hrec.
Qed.

Lemma ww_translate va : idx 3 va <> RECURSIVE_INDEX -> leaf_slot s va <> Some a ->
  translate s' va = translate s va.
Proof.
  intros Hva Hl. unfold translate. change (root s') with (root s).
  destruct (canonical va); [|done]. apply ww_walk; [apply reach_root | done |].
  intros t1 Ht1 E. apply Hl. unfold leaf_slot. rewrite Ht1. by rewrite E.
Qed.

Lemma ww_upper va l t0 perm : reach (mem s) (root s) (S l) t0 -> (l = 3%nat -> idx 3 va <> RECURSIVE_INDEX) ->
  upper_perm (mem s') (S l) t0 perm va = upper_perm (mem s) (S l) t0 perm va.
Proof.
  revert t0 perm. induction l as [|l IH]; intros t0 perm Ht Hrec; [done|].
  assert (E : mem s' (t0 + 8 * idx (S l) va) = mem s (t0 + 8 * idx (S l) va)).
  { apply set_word_ne. apply (Hupper l); [done | apply idx_range]. }
  cbn [upper_perm]. cbv zeta. rewrite E.
  destruct (has (mem s (t0 + 8 * idx (S l) va)) PAGE_PRESENT) eqn:HP; [|done].
  destruct (has (mem s (t0 + 8 * idx (S l) va)) PAGE_SIZE_BIT) eqn:HS; [done|].
  apply IH; [|intros ->; apply (reach_level_le (mem s) (root s)) in Ht; lia].
  apply reach_step; try done; [apply idx_range|]. intros ->. by apply Hrec.
Qed.

Lemma ww_leaf va : idx 3 va <> RECURSIVE_INDEX -> leaf_slot s' va = leaf_slot s va.
Proof.
  intros Hva. unfold leaf_slot. change (root s') with (root s).
  rewrite ww_path_root; [done | by apply uppers_valid | simpl; lia].
Qed.
End word_write.

(** A slot of a page table is not in an upper table. *)
Lemma leaf_not_upper s va la : vmm_inv s -> idx 3 va <> RECURSIVE_INDEX ->
  leaf_slot s va = Some la ->
  forall l t j, reach (mem s) (root s) (S (S l)) t -> index_ok j -> t + 8 * j <> la.
Proof.
  intros Hinv Hva Hl l t j Ht Hj E. unfold leaf_slot in Hl.
  destruct (path _ _ _) as [t1|] eqn:Hp; [|done]. simplify_eq.
  assert (H1 : reach (mem s) (root s) 1 t1).
  { exists (uppers 4 va). split_and!; try done. by apply uppers_valid. }
  destruct (entry_addr_inj t t1 j (idx 0 va)) as [-> _]; try done;
    [by eapply reach_aligned, Ht; apply root_aligned | by eapply reach_aligned, H1; apply root_aligned
    | apply idx_range |].
  pose proof (inv_level s Hinv _ _ _ Ht H1). lia.
Qed.

(** [s'] differs from [s] only in the translation through the slot of [va]. *)
Definition others_kept (s s' : Machine St) (va : Z) : Prop :=
  cr3 s' = cr3 s /\
  forall va', idx 3 va' <> RECURSIVE_INDEX -> leaf_slot s' va' <> leaf_slot s' va ->
    translate s' va' = translate s va'.

Lemma leaf_write_ok s va la v : vmm_inv s -> idx 3 va <> RECURSIVE_INDEX ->
  leaf_slot s va = Some la ->
  let s' := write_word s la v in
  vmm_inv s' /\ others_kept s s' va /\ leaf_slot s' va = Some la /\ mem s' la = v /\
  tables_grow s s' /\ frames s' = frames s /\ same_upper s s'.
Proof.
  intros Hinv Hva Hl s'. pose proof (leaf_not_upper s va la Hinv Hva Hl) as Hup.
  assert (Hkeep : forall va', idx 3 va' <> RECURSIVE_INDEX -> leaf_slot s' va' = leaf_slot s va')
    by (intros; by apply ww_leaf).
  split_and!.
  - by apply ww_inv.
  - split; [done|]. intros va' Hva' Hne. apply ww_translate; try done.
    rewrite !Hkeep in Hne by done. congruence.
  - by rewrite Hkeep.
  - apply set_word_eq.
  - intros l t Ht. left. apply (ww_reach s la v Hinv Hup l t). exact Ht.
  - done.
  - intros va' Hva'. apply (ww_upper s la v Hup va' 3); [apply reach_root | done].
Qed.

(** What the leaf entry says is what the address translates to. *)
Lemma translate_leaf s va la : canonical va = true -> leaf_slot s va = Some la ->
  table_perm s va .& 6 = table_perm s va /\ translate s va =
    if has (mem s la) PAGE_PRESENT
    then Some (mem s la .& ADDR_MASK + va mod PAGE_SIZE, table_perm s va .& mem s la)
    else None.
Proof.
  intros Hc Hl. unfold leaf_slot in Hl. destruct (path _ _ _) as [t1|] eqn:Hp; [|done]. simplify_eq.
  destruct (walk_path_perm (mem s) 3 (root s) (PAGE_WRITABLE .| PAGE_USER) va t1) as (Hup & Hw);
    [done..|]. split; [done|]. unfold translate. by rewrite Hc.
Qed.

(** The window of the page table of [va]. *)
Lemma leaf_window s va la v : vmm_inv s -> idx 3 va <> RECURSIVE_INDEX -> leaf_slot s va = Some la ->
  vwrite (slot (ptVirt (idx 3 va) (idx 2 va) (idx 1 va)) (idx 0 va)) v s = Ok (write_word s la v).
Proof.
  intros Hinv Hva Hl. unfold leaf_slot in Hl. destruct (path _ _ _) as [t1|] eqn:Hp; [|done]. simplify_eq.
  apply (vwrite_maps s (table_virt (uppers 4 va))); [|apply idx_range].
  apply table_virt_maps; [apply Hinv | by apply uppers_valid | simpl; lia | done].
Qed.

(** The three [ensureTable] steps of [mapPage]. *)
Lemma same_translation_trans s1 s2 s3 :
  same_translation s1 s2 -> same_translation s2 s3 -> same_translation s1 s3.
Proof. intros [E1 H1] [E2 H2]. split; [congruence|]. intros va Hva. by rewrite H2, H1. Qed.

Lemma tables_grow_trans s1 s2 s3 : fa_free (frames s2) ⊆ fa_free (frames s1) ->
  fa_free (frames s3) ⊆ fa_free (frames s2) ->
  tables_grow s1 s2 -> tables_grow s2 s3 -> tables_grow s1 s3.
Proof.
  intros S1 S2 H1 H2 l t Ht. destruct (H2 l t Ht) as [Ht2|(f & Hf & ->)].
  - destruct (H1 l t Ht2) as [?|(f & Hf & ->)]; [by left|]. right. exists f. split; [set_solver|done].
  - right. exists f. split; [set_solver|done].
Qed.

Lemma ensure_tables s va : vmm_inv s -> idx 3 va <> RECURSIVE_INDEX ->
  (3 <= size (fa_free (frames s)))%nat ->
  exists r1 r2 r3 s1 s2 s3,
    ensureTable pml4Virt (idx 3 va) (pdptVirt (idx 3 va)) 0 s = Ok (r1, s1) /\
    ensureTable (pdptVirt (idx 3 va)) (idx 2 va) (pdVirt (idx 3 va) (idx 2 va)) HUGE_1GB s1 = Ok (r2, s2) /\
    ensureTable (pdVirt (idx 3 va) (idx 2 va)) (idx 1 va) (ptVirt (idx 3 va) (idx 2 va) (idx 1 va))
      HUGE_2MB s2 = Ok (r3, s3) /\
    vmm_inv s3 /\ same_translation s s3 /\ fa_free (frames s3) ⊆ fa_free (frames s) /\
    (size (fa_free (frames s)) <= 3 + size (fa_free (frames s3)))%nat /\
    (exists la, leaf_slot s3 va = Some la) /\ tables_grow s s3 /\ same_upper s s3.
Proof.
  intros Hinv Hva Hroom.
  assert (Hne : forall s, (1 <= size (fa_free (frames s)))%nat -> fa_free (frames s) <> ∅)
    by (intros s0 Hs0 E; rewrite E, size_empty in Hs0; lia).
  assert (V0 : valid_path []) by (split; [constructor | done]).
  assert (V1 : valid_path [idx 3 va]) by (split; [by repeat constructor; apply idx_range | simpl; congruence]).
  assert (V2 : valid_path [idx 3 va; idx 2 va])
    by (split; [by repeat constructor; apply idx_range | simpl; congruence]).
  destruct (ensureTable_ok s [] (root s) (idx 3 va) 2 Hinv) with (hps := 0)
    as (r1 & s1 & E1 & I1 & T1 & F1 & Z1 & P1 & G1 & U1);
    try first [done | apply idx_range | apply Hne; lia].
  destruct (ensureTable_ok s1 [idx 3 va] r1 (idx 2 va) 1 I1) with (hps := HUGE_1GB)
    as (r2 & s2 & E2 & I2 & T2 & F2 & Z2 & P2 & G2 & U2);
    try first [done | apply idx_range | apply Hne; lia].
  destruct (ensureTable_ok s2 [idx 3 va; idx 2 va] r2 (idx 1 va) 0 I2) with (hps := HUGE_2MB)
    as (r3 & s3 & E3 & I3 & T3 & F3 & Z3 & P3 & G3 & U3);
    try first [done | apply idx_range | apply Hne; lia].
  exists r1, r2, r3, s1, s2, s3. split_and!; try done.
  - by eapply same_translation_trans, T3; eapply same_translation_trans.
  - by etrans; [|etrans].
  - lia.
  - eexists. unfold leaf_slot. rewrite uppers_4. simpl app in P3. by rewrite P3.
  - eapply tables_grow_trans, G3; [by etrans | done |]. by eapply tables_grow_trans, G2.
  - intros va' Hva'. by rewrite U3, U2, U1.
Qed.

Lemma mapPage_ok s va pa flags : vmm_inv s -> 0 <= va < 2 ^ 64 -> idx 3 va <> RECURSIVE_INDEX ->
  (3 <= size (fa_free (frames s)))%nat ->
  exists s' la, mapPage va pa flags s = Ok s' /\ vmm_inv s' /\ others_kept s s' va /\
    leaf_slot s' va = Some la /\ mem s' la = page_floor pa .| flags .| PAGE_PRESENT /\
    fa_free (frames s') ⊆ fa_free (frames s) /\
    (size (fa_free (frames s)) <= 3 + size (fa_free (frames s')))%nat /\ tables_grow s s' /\ same_upper s s'.
Proof.
  intros Hinv Hva0 Hva Hroom.
  destruct (ensure_tables s va Hinv Hva Hroom) as
    (r1 & r2 & r3 & s1 & s2 & s3 & E1 & E2 & E3 & I3 & [C3 T3] & F3 & Z3 & (la & L3) & G3 & U3).
  destruct (leaf_write_ok s3 va la (page_floor pa .| flags .| PAGE_PRESENT) I3 Hva L3)
    as (I4 & [C4 O4] & L4 & M4 & G4 & Fr4 & U4).
  exists (write_word s3 la (page_floor pa .| flags .| PAGE_PRESENT)), la. split_and!; try done.
  - unfold mapPage. cbv zeta. pose proof (page_floor_div va Hva0) as Epage.
    change ((page_floor va .>> 39) .& 0x1FF) with (idx 3 (page_floor va)).
    change ((page_floor va .>> 30) .& 0x1FF) with (idx 2 (page_floor va)).
    change ((page_floor va .>> 21) .& 0x1FF) with (idx 1 (page_floor va)).
    change ((page_floor va .>> 12) .& 0x1FF) with (idx 0 (page_floor va)).
    rewrite !(idx_page _ _ _ Epage). run_call E1. run_call E2. run_call E3.
    by apply leaf_window.
  - split; [congruence|]. intros va' Hva' Hne. rewrite O4 by done. by apply T3.
  - eapply tables_grow_trans, G4; [done | by rewrite Fr4 | done].
  - intros va' Hva'. by rewrite U4, U3.
Qed.

(** The leaf entry [mapPage] writes. *)
Lemma leaf_entry_fields pa flags up : 0 <= pa < 2 ^ 52 -> 0 <= flags < 4096 -> up .& 6 = up ->
  let e := page_floor pa .| flags .| PAGE_PRESENT in
  has e PAGE_PRESENT = true /\ e .& ADDR_MASK = pa / PAGE_SIZE * PAGE_SIZE /\ up .& e = up .& flags.
Proof.
  intros Hpa Hfl Hup e. subst e. rewrite page_floor_eq by lia.
  set (x := pa / PAGE_SIZE * PAGE_SIZE).
  assert (Hx : 0 <= x < 2 ^ 52 /\ aligned x).
  { subst x. unfold aligned. rewrite Z.mod_mul by done. unfold PAGE_SIZE.
    Z.to_euclidean_division_equations. lia. }
  assert (Hf1 : 0 <= flags .| PAGE_PRESENT < 4096).
  { split; [apply Z.lor_nonneg; unfold PAGE_PRESENT; lia|]. change 4096 with (2 ^ 12).
    destruct (Z.eq_dec (flags .| PAGE_PRESENT) 0) as [->|Hne]; [lia|].
    assert (0 <= flags .| PAGE_PRESENT) by (apply Z.lor_nonneg; unfold PAGE_PRESENT; lia).
    apply Z.log2_lt_pow2; [lia|]. rewrite Z.log2_lor by (unfold PAGE_PRESENT; lia).
    apply Z.max_lub_lt; [|done]. destruct (Z.eq_dec flags 0) as [->|]; [done|].
    apply Z.log2_lt_pow2; lia. }
  rewrite <- Z.lor_assoc. split_and!.
  - change PAGE_PRESENT with (1 .<< 0) at 2. rewrite has_one_shl, !Z.lor_spec by lia.
    by rewrite !orb_true_r.
  - apply mask_entry; [apply Hx | apply Hx | done].
  - rewrite <- Hup, <- !Z.land_assoc. f_equal. apply Z.bits_inj_iff'. intros k Hk.
    rewrite !Z.land_spec, !Z.lor_spec. destruct (decide (k < 12)).
    + replace x with (pa / PAGE_SIZE * 2 ^ 12) by done. rewrite Z.mul_pow2_bits_low by lia. simpl.
      destruct (decide (k = 0)) as [->|Hk0]; [done|].
      change PAGE_PRESENT with (1 .<< 0). rewrite testbit_one_shl by lia.
      by rewrite (proj2 (Z.eqb_neq 0 k)), orb_false_r by lia.
    + change 6 with (6 mod 2 ^ 12). by rewrite Z.mod_pow2_bits_high by lia.
Qed.

(** Every address of the page of [va] translates to the page of [pa], with the
    permissions [perm]. *)
Definition maps_to s (va pa perm : Z) : Prop :=
  forall va', canonical va' = true -> va' / PAGE_SIZE = va / PAGE_SIZE ->
    translate s va' = Some (pa / PAGE_SIZE * PAGE_SIZE + va' mod PAGE_SIZE, perm).

Lemma table_perm_page s va va' : va / PAGE_SIZE = va' / PAGE_SIZE -> table_perm s va = table_perm s va'.
Proof. intros E. unfold table_perm. cbn [upper_perm]. cbv zeta. by rewrite !(idx_page _ va va' E). Qed.

Lemma leaf_maps_to s va la pa flags : 0 <= pa < 2 ^ 52 -> 0 <= flags < 4096 ->
  leaf_slot s va = Some la -> mem s la = page_floor pa .| flags .| PAGE_PRESENT ->
  maps_to s va pa (table_perm s va .& flags).
Proof.
  intros Hpa Hfl Hl Hm va' Hc Epage.
  assert (Hl' : leaf_slot s va' = Some la).
  { unfold leaf_slot. by rewrite (uppers_page 4 va' va Epage), (idx_page 0 va' va Epage). }
  destruct (translate_leaf s va' la Hc Hl') as (Hup & ->).
  destruct (leaf_entry_fields pa flags (table_perm s va') Hpa Hfl Hup) as (HP & HM & HU).
  by rewrite Hm, HP, HM, HU, (table_perm_page s va' va Epage).
Qed.

Lemma canonical_range va : canonical va = true -> 0 <= va < 2 ^ 64.
Proof. unfold canonical. intros E. bool_to_prop. lia. Qed.

(** ** Unmapping *)

Lemma read_upper s ids i t : vmm_inv s -> Forall index_ok ids -> (length ids <= 3)%nat -> index_ok i ->
  path (mem s) (root s) ids = Some t -> vread (slot (table_virt ids) i) s = Ok (mem s (t + 8 * i)).
Proof. intros Hinv Hf Hl Hi Hp. apply vread_maps; [|done]. apply table_virt_maps; try done. apply Hinv. Qed.

(** The entry of level [S l] that [va] uses, when the tables above exist. *)
Definition entry_of s (ids : list Z) (i : Z) : Z :=
  match path (mem s) (root s) ids with Some t => mem s (t + 8 * i) | None => 0 end.

(** The page directory entry of [va] maps a 2 MiB page. *)
Definition huge_at s (va : Z) : Prop :=
  let e := entry_of s [idx 3 va; idx 2 va] (idx 1 va) in
  has e PAGE_PRESENT = true /\ has e PAGE_SIZE_BIT = true.

(** How far a walk of an address without a large page gets. *)
Lemma walk_cases s va : vmm_inv s -> idx 3 va <> RECURSIVE_INDEX ->
  has (mem s (root s + 8 * idx 3 va)) PAGE_PRESENT = false \/
  exists t1, path (mem s) (root s) [idx 3 va] = Some t1 /\
    has (mem s (root s + 8 * idx 3 va)) PAGE_PRESENT = true /\
    (has (mem s (t1 + 8 * idx 2 va)) PAGE_PRESENT = false \/
     exists t2, path (mem s) (root s) [idx 3 va; idx 2 va] = Some t2 /\
       has (mem s (t1 + 8 * idx 2 va)) PAGE_PRESENT = true).
Proof.
  intros Hinv Hva. destruct (has (mem s (root s + 8 * idx 3 va)) PAGE_PRESENT) eqn:HP; [right|by left].
  assert (HS : has (mem s (root s + 8 * idx 3 va)) PAGE_SIZE_BIT = false).
  { destruct (has _ PAGE_SIZE_BIT) eqn:HS; [|done].
    destruct (inv_huge s Hinv 3 (root s) (idx 3 va)); try done; [apply reach_root | apply idx_range | lia]. }
  assert (P1 : path (mem s) (root s) [idx 3 va] = Some (mem s (root s + 8 * idx 3 va) .& ADDR_MASK)).
  { cbn [path]. cbv zeta. by rewrite HP, HS. }
  exists (mem s (root s + 8 * idx 3 va) .& ADDR_MASK). split; [done|]. split; [done|].
  set (t1 := mem s (root s + 8 * idx 3 va) .& ADDR_MASK) in *.
  destruct (has (mem s (t1 + 8 * idx 2 va)) PAGE_PRESENT) eqn:HP2; [right|by left].
  assert (R1 : reach (mem s) (root s) 3 t1).
  { exists [idx 3 va]. split_and!; try done; [|lia].
    split; [by repeat constructor; apply idx_range | simpl; congruence]. }
  assert (HS2 : has (mem s (t1 + 8 * idx 2 va)) PAGE_SIZE_BIT = false).
  { destruct (has (mem s (t1 + 8 * idx 2 va)) PAGE_SIZE_BIT) eqn:HS2; [|done].
    destruct (inv_huge s Hinv 2 t1 (idx 2 va)); try done; [apply idx_range | lia]. }
  eexists. split; [|done].
  change [idx 3 va; idx 2 va] with ([idx 3 va] ++ [idx 2 va]).
  by rewrite (path_snoc _ _ _ _ _ P1), HP2, HS2.
Qed.

Lemma walk_step m l t perm va t1 : path m t [idx (S l) va] = Some t1 ->
  mmu_walk m (S (S l)) t perm va = mmu_walk m (S l) t1 (perm .& m (t + 8 * idx (S l) va)) va.
Proof.
  intros Hp. cbn [path] in Hp. cbv zeta in Hp. destruct (_ && _) eqn:E; [|done].
  bool_to_prop. simplify_eq. remember (S l) as l1. cbn [mmu_walk]. cbv zeta.
  rewrite H0, H1. by subst l1.
Qed.

Lemma walk_absent m l t perm va : has (m (t + 8 * idx l va)) PAGE_PRESENT = false ->
  mmu_walk m (S l) t perm va = None.
Proof. intros HP. cbn [mmu_walk]. cbv zeta. by rewrite HP. Qed.

Lemma pd_entry_absent s va t2 : path (mem s) (root s) [idx 3 va; idx 2 va] = Some t2 ->
  ~ huge_at s va -> leaf_slot s va = None -> has (mem s (t2 + 8 * idx 1 va)) PAGE_PRESENT = false.
Proof.
  intros P2 Hh Hl. unfold leaf_slot in Hl. rewrite uppers_4 in Hl.
  change [idx 3 va; idx 2 va; idx 1 va] with ([idx 3 va; idx 2 va] ++ [idx 1 va]) in Hl.
  rewrite (path_snoc _ _ _ _ _ P2) in Hl. unfold huge_at, entry_of in Hh. rewrite P2 in Hh.
  destruct (has (mem s (t2 + 8 * idx 1 va)) PAGE_PRESENT); [|done].
  destruct (has (mem s (t2 + 8 * idx 1 va)) PAGE_SIZE_BIT); [|done]. exfalso. by apply Hh.
Qed.

(** Nothing is mapped at an address whose walk stops above the page tables. *)
Lemma no_leaf_untranslated s va : vmm_inv s -> idx 3 va <> RECURSIVE_INDEX -> ~ huge_at s va ->
  leaf_slot s va = None -> translate s va = None.
Proof.
  intros Hinv Hva Hh Hl. unfold translate. destruct (canonical va); [|done].
  destruct (walk_cases s va Hinv Hva) as [HP|(t1 & P1 & HP & [HP1|(t2 & P2 & HP1)])].
  - by apply walk_absent.
  - rewrite (walk_step _ 2 _ _ va t1 P1). by apply walk_absent.
  - rewrite (walk_step _ 2 _ _ va t1 P1).
    pose proof P2 as P12. change [idx 3 va; idx 2 va] with ([idx 3 va] ++ [idx 2 va]) in P2.
    rewrite (path_app _ _ _ _ _ P1) in P2. rewrite (walk_step _ 1 _ _ va t2 P2).
    by apply walk_absent, pd_entry_absent.
Qed.

(** The prefixes of a path that exists. *)
Lemma leaf_prefixes s va la : leaf_slot s va = Some la -> exists t1 t2,
  path (mem s) (root s) [idx 3 va] = Some t1 /\ path (mem s) (root s) [idx 3 va; idx 2 va] = Some t2 /\
  has (mem s (root s + 8 * idx 3 va)) PAGE_PRESENT = true /\
  has (mem s (t1 + 8 * idx 2 va)) PAGE_PRESENT = true /\
  has (mem s (t2 + 8 * idx 1 va)) PAGE_PRESENT = true.
Proof.
  unfold leaf_slot. rewrite uppers_4. cbn [path]. cbv zeta. intros Hl.
  destruct (has (mem s (root s + 8 * idx 3 va)) PAGE_PRESENT) eqn:HP; [|done].
  destruct (has (mem s (root s + 8 * idx 3 va)) PAGE_SIZE_BIT) eqn:HS; [done|]. cbn [negb andb] in *.
  set (t1 := mem s (root s + 8 * idx 3 va) .& ADDR_MASK) in *. exists t1.
  destruct (has (mem s (t1 + 8 * idx 2 va)) PAGE_PRESENT) eqn:HP1; [|done].
  destruct (has (mem s (t1 + 8 * idx 2 va)) PAGE_SIZE_BIT) eqn:HS1; [done|]. cbn [negb andb] in *.
  set (t2 := mem s (t1 + 8 * idx 2 va) .& ADDR_MASK) in *. exists t2.
  destruct (has (mem s (t2 + 8 * idx 1 va)) PAGE_PRESENT) eqn:HP2; [|done]. by split_and!.
Qed.

(** The indices the code computes from the rounded address are those of [va]. *)
Lemma unmapPage_eq s va : 0 <= va < 2 ^ 64 -> unmapPage va s =
  (e4 ← vread (slot pml4Virt (idx 3 va)) s;
   if negb (has e4 PAGE_PRESENT) then mret s else
   e3 ← vread (slot (pdptVirt (idx 3 va)) (idx 2 va)) s;
   if negb (has e3 PAGE_PRESENT) then mret s else
   e2 ← vread (slot (pdVirt (idx 3 va) (idx 2 va)) (idx 1 va)) s;
   if negb (has e2 PAGE_PRESENT) then mret s else
   vwrite (slot (ptVirt (idx 3 va) (idx 2 va) (idx 1 va)) (idx 0 va)) 0 s).
Proof.
  intros Hr. unfold unmapPage. cbv zeta. pose proof (page_floor_div va Hr) as Epage.
  change ((page_floor va .>> 39) .& 0x1FF) with (idx 3 (page_floor va)).
  change ((page_floor va .>> 30) .& 0x1FF) with (idx 2 (page_floor va)).
  change ((page_floor va .>> 21) .& 0x1FF) with (idx 1 (page_floor va)).
  change ((page_floor va .>> 12) .& 0x1FF) with (idx 0 (page_floor va)).
  by rewrite !(idx_page _ _ _ Epage).
Qed.

Lemma read_pml4 s va : vmm_inv s -> vread (slot pml4Virt (idx 3 va)) s = Ok (mem s (root s + 8 * idx 3 va)).
Proof.
  intros. apply (read_upper s []); try first [done | apply idx_range | simpl; lia].
Qed.

Lemma read_pdpt s va t1 : vmm_inv s -> path (mem s) (root s) [idx 3 va] = Some t1 ->
  vread (slot (pdptVirt (idx 3 va)) (idx 2 va)) s = Ok (mem s (t1 + 8 * idx 2 va)).
Proof.
  intros. apply (read_upper s [idx 3 va]);
    try first [done | apply idx_range | simpl; lia | by repeat constructor; apply idx_range].
Qed.

Lemma read_pd s va t2 : vmm_inv s -> path (mem s) (root s) [idx 3 va; idx 2 va] = Some t2 ->
  vread (slot (pdVirt (idx 3 va) (idx 2 va)) (idx 1 va)) s = Ok (mem s (t2 + 8 * idx 1 va)).
Proof.
  intros. apply (read_upper s [idx 3 va; idx 2 va]);
    try first [done | apply idx_range | simpl; lia | by repeat constructor; apply idx_range].
Qed.

(** [unmapPage] runs to the write once the three upper entries are present. *)
Lemma unmapPage_reads s va t1 t2 : vmm_inv s -> 0 <= va < 2 ^ 64 ->
  path (mem s) (root s) [idx 3 va] = Some t1 -> path (mem s) (root s) [idx 3 va; idx 2 va] = Some t2 ->
  has (mem s (root s + 8 * idx 3 va)) PAGE_PRESENT = true ->
  has (mem s (t1 + 8 * idx 2 va)) PAGE_PRESENT = true ->
  unmapPage va s = if negb (has (mem s (t2 + 8 * idx 1 va)) PAGE_PRESENT) then Ok s else
    vwrite (slot (ptVirt (idx 3 va) (idx 2 va) (idx 1 va)) (idx 0 va)) 0 s.
Proof.
  intros Hinv Hr P1 P2 HP HP1. rewrite unmapPage_eq by done.
  run_call (read_pml4 s va Hinv). rewrite HP. cbn [negb].
  run_call (read_pdpt s va t1 Hinv P1). rewrite HP1. cbn [negb].
  by run_call (read_pd s va t2 Hinv P2).
Qed.

Lemma unmapPage_leaf s va la : vmm_inv s -> 0 <= va < 2 ^ 64 -> idx 3 va <> RECURSIVE_INDEX ->
  leaf_slot s va = Some la -> unmapPage va s = Ok (write_word s la 0).
Proof.
  intros Hinv Hr Hva Hl. destruct (leaf_prefixes s va la Hl) as (t1 & t2 & P1 & P2 & HP & HP1 & HP2).
  rewrite (unmapPage_reads s va t1 t2), HP2 by done. by apply leaf_window.
Qed.

Lemma unmapPage_no_leaf s va : vmm_inv s -> 0 <= va < 2 ^ 64 -> idx 3 va <> RECURSIVE_INDEX ->
  ~ huge_at s va -> leaf_slot s va = None -> unmapPage va s = Ok s.
Proof.
  intros Hinv Hr Hva Hh Hl.
  destruct (walk_cases s va Hinv Hva) as [HP|(t1 & P1 & HP & [HP1|(t2 & P2 & HP1)])].
  - rewrite unmapPage_eq by done. run_call (read_pml4 s va Hinv). by rewrite HP.
  - rewrite unmapPage_eq by done. run_call (read_pml4 s va Hinv). rewrite HP. cbn [negb].
    run_call (read_pdpt s va t1 Hinv P1). by rewrite HP1.
  - rewrite (unmapPage_reads s va t1 t2) by done.
    by rewrite (pd_entry_absent s va t2 P2 Hh Hl).
Qed.

Lemma unmapPage_huge_writes s va t1 t2 : vmm_inv s -> 0 <= va < 2 ^ 64 ->
  path (mem s) (root s) [idx 3 va] = Some t1 -> path (mem s) (root s) [idx 3 va; idx 2 va] = Some t2 ->
  has (mem s (root s + 8 * idx 3 va)) PAGE_PRESENT = true ->
  has (mem s (t1 + 8 * idx 2 va)) PAGE_PRESENT = true ->
  has (mem s (t2 + 8 * idx 1 va)) PAGE_PRESENT = true ->
  unmapPage va s = Ok (write_word s ((mem s (t2 + 8 * idx 1 va) .& ADDR_MASK) + 8 * idx 0 va) 0).
Proof.
  intros Hinv Hr P1 P2 HP HP1 HP2. rewrite (unmapPage_reads s va t1 t2), HP2 by done. cbn [negb].
  unfold vwrite.
  destruct (translate_rec s (idx 3 va) (idx 2 va) (idx 1 va) (idx 0 va) t2) as (perm & E);
    try apply idx_range; [by rewrite rec_path by apply Hinv | done |].
  change (ptVirt (idx 3 va) (idx 2 va) (idx 1 va)) with (rec_addr (idx 3 va) (idx 2 va) (idx 1 va)).
  by rewrite E.
Qed.

(** ** Creating an address space *)

(** Dropping a frame from the allocator keeps the invariant. *)
Lemma inv_frames s fr' : vmm_inv s -> fa_ok fr' -> fa_free fr' ⊆ fa_free (frames s) ->
  vmm_inv (mkMachine (mem s) (cr3 s) fr').
Proof.
  intros [I1 I2 I3 I4 I5 I6] Hok Hsub.
  split; try done; simpl; intros; [eapply I3 | eapply I4]; try done; by apply Hsub.
Qed.

Section scratch.
Context (s2 : Machine St) (F la : Z).

(** While the new PML4 in frame [F] is filled through [SCRATCH_VIRT]. *)
Record filling (s : Machine St) : Prop := {
  fill_inv : vmm_inv s;
  fill_leaf : leaf_slot s SCRATCH_VIRT = Some la;
  fill_entry : mem s la = page_floor F .| PAGE_WRITABLE .| PAGE_PRESENT;
  fill_unreached : forall l, ~ reach (mem s) (root s) l F;
  fill_frames : frames s = frames s2;
  fill_cr3 : cr3 s = cr3 s2;
  fill_same : forall va, idx 3 va <> RECURSIVE_INDEX ->
    translate s va = translate s2 va /\ leaf_slot s va = leaf_slot s2 va;
  fill_root : forall i, index_ok i -> mem s (root s2 + 8 * i) = mem s2 (root s2 + 8 * i);
}.

Hypothesis HF : aligned F.
Hypothesis HFr : 0 <= F < 2 ^ 52.

Lemma scratch_slot i : index_ok i -> canonical (slot SCRATCH_VIRT i) = true /\
  slot SCRATCH_VIRT i / PAGE_SIZE = SCRATCH_VIRT / PAGE_SIZE /\ slot SCRATCH_VIRT i mod PAGE_SIZE = 8 * i.
Proof.
  unfold index_ok. intros Hi. unfold slot, SCRATCH_VIRT, PAGE_SIZE. rewrite u64_small by lia.
  split; [|Z.to_euclidean_division_equations; lia].
  unfold canonical. rewrite !andb_true_iff, orb_true_iff, !Z.leb_le, !Z.ltb_lt. lia.
Qed.

Lemma frame_slot_upper s l t i j : (forall l, ~ reach (mem s) (root s) l F) -> index_ok i ->
  reach (mem s) (root s) l t -> index_ok j -> t + 8 * j <> F + 8 * i.
Proof.
  intros HU Hi Ht Hj E. apply entry_addr_inj in E as [-> _]; try done; [by apply (HU l)|].
  by eapply reach_aligned, Ht; apply root_aligned.
Qed.

Lemma leaf_in_table s va l : vmm_inv s -> idx 3 va <> RECURSIVE_INDEX -> leaf_slot s va = Some l ->
  exists t, reach (mem s) (root s) 1 t /\ l = t + 8 * idx 0 va.
Proof.
  unfold leaf_slot. intros Hinv Hva Hl. destruct (path _ _ _) as [t|] eqn:Hp; [|done].
  simplify_eq. exists t. split; [|done]. exists (uppers 4 va). split_and!; try done. by apply uppers_valid.
Qed.

Lemma scratch_write s i v : filling s -> index_ok i ->
  vwrite (slot SCRATCH_VIRT i) v s = Ok (write_word s (F + 8 * i) v) /\
  filling (write_word s (F + 8 * i) v).
Proof.
  intros [I L En HU Fr C Sm R] Hi. destruct (scratch_slot i Hi) as (Hc & Hpg & Hm).
  assert (Hrec : idx 3 SCRATCH_VIRT <> RECURSIVE_INDEX) by done.
  assert (Hup : forall l t j, reach (mem s) (root s) (S (S l)) t -> index_ok j -> t + 8 * j <> F + 8 * i)
    by (intros; by eapply frame_slot_upper).
  assert (Hnl : forall va, idx 3 va <> RECURSIVE_INDEX -> leaf_slot s va <> Some (F + 8 * i)).
  { intros va Hva (t & Ht & E)%(leaf_in_table s va _ I Hva). symmetry in E.
    by eapply frame_slot_upper, E; [..|apply idx_range]. }
  split.
  - assert (Et : translate s (slot SCRATCH_VIRT i) = Some (F / PAGE_SIZE * PAGE_SIZE + slot SCRATCH_VIRT i mod PAGE_SIZE,
      table_perm s SCRATCH_VIRT .& PAGE_WRITABLE)) by (by apply (leaf_maps_to s SCRATCH_VIRT la F PAGE_WRITABLE HFr)).
    unfold vwrite. rewrite Et, Hm.
    replace (F / PAGE_SIZE * PAGE_SIZE) with F; [done|].
    unfold aligned, PAGE_SIZE in *. Z.to_euclidean_division_equations. lia.
  - split; try done.
    + by apply ww_inv.
    + by rewrite ww_leaf.
    + simpl. rewrite set_word_ne; [done|]. intros E. apply (Hnl SCRATCH_VIRT Hrec). by rewrite L, E.
    + intros l Hl. apply (HU l). by eapply ww_reach.
    + intros va Hva. rewrite ww_translate, ww_leaf; auto.
    + intros j Hj. simpl. rewrite set_word_ne; [by apply R|]. intros E.
      apply (frame_slot_upper s 4 (root s) i j); try done; [apply reach_root|].
      rewrite <- E. unfold root. by rewrite C.
Qed.

Lemma scratch_clear s : filling s ->
  exists s', for_range 0 512 (fun i s => vwrite (slot SCRATCH_VIRT i) 0 s) s = Ok s' /\
    filling s' /\ forall j, index_ok j -> mem s' (F + 8 * j) = 0.
Proof.
  intros Hs. destruct (for_range_rule
    (fun k s' => filling s' /\ forall j, 0 <= j < k -> mem s' (F + 8 * j) = 0) 0 512
    (fun i s => vwrite (slot SCRATCH_VIRT i) 0 s) s) as (s' & E & Hf & Hz).
  - lia.
  - split; [done | lia].
  - intros k t Hk [Ht Hz]. destruct (scratch_write t k 0 Ht) as [E Hf]; [done|].
    exists (write_word t (F + 8 * k) 0). split; [done|]. split; [done|]. intros j Hj. simpl.
    destruct (decide (j = k)) as [->|]; [apply set_word_eq|]. rewrite set_word_ne by lia. apply Hz. lia.
  - by exists s'.
Qed.

(** The root table is read as it was when the filling began. *)
Lemma scratch_read_root s i : filling s -> index_ok i ->
  vread (slot pml4Virt i) s = Ok (mem s2 (root s2 + 8 * i)).
Proof.
  intros Hs Hi. transitivity (Ok (mem s (root s + 8 * i))).
  { apply (read_upper s []); try done; [by apply Hs | simpl; lia]. }
  f_equal. rewrite <- (fill_root s Hs i Hi). unfold root. by rewrite (fill_cr3 s Hs).
Qed.

(** The table that the fill leaves in frame [F]. *)
Definition new_pml4_entry (j : Z) : Z :=
  if j =? KERNEL_PLM4_INDEX then mem s2 (root s2 + 8 * KERNEL_PLM4_INDEX)
  else if j =? RECURSIVE_INDEX then F .| PAGE_PRESENT .| PAGE_WRITABLE
  else if j =? 0 then mem s2 (root s2 + 8 * 0) else 0.

Lemma scratch_fill : filling s2 -> exists s6,
  (s3 ← for_range 0 512 (fun i s => vwrite (slot SCRATCH_VIRT i) 0 s) s2;
   c0 ← vread (slot pml4Virt 0) s3;
   s4 ← vwrite (slot SCRATCH_VIRT 0) c0 s3;
   s5 ← vwrite (slot SCRATCH_VIRT RECURSIVE_INDEX) (F .| PAGE_PRESENT .| PAGE_WRITABLE) s4;
   ck ← vread (slot pml4Virt KERNEL_PLM4_INDEX) s5;
   s6 ← vwrite (slot SCRATCH_VIRT KERNEL_PLM4_INDEX) ck s5;
   s7 ← unmapPage SCRATCH_VIRT s6; mret (F, s7)) = Ok (F, write_word s6 la 0) /\
  filling s6 /\ forall j, index_ok j -> mem s6 (F + 8 * j) = new_pml4_entry j.
Proof.
  intros Hs2. destruct (scratch_clear s2 Hs2) as (s3 & E3 & H3 & Z3). run_call E3.
  run_call (scratch_read_root s3 0 H3 ltac:(done)).
  destruct (scratch_write s3 0 (mem s2 (root s2 + 8 * 0)) H3 ltac:(done)) as [E4 H4]. run_call E4.
  destruct (scratch_write _ RECURSIVE_INDEX (F .| PAGE_PRESENT .| PAGE_WRITABLE) H4 ltac:(done))
    as [E5 H5]. run_call E5.
  run_call (scratch_read_root _ KERNEL_PLM4_INDEX H5 ltac:(done)).
  destruct (scratch_write _ KERNEL_PLM4_INDEX (mem s2 (root s2 + 8 * KERNEL_PLM4_INDEX)) H5 ltac:(done))
    as [E6 H6]. run_call E6.
  rewrite (unmapPage_leaf _ SCRATCH_VIRT la); [|apply H6|done|done|apply H6]. cbn [mbind outcome_bind mret outcome_ret].
  eexists. split; [reflexivity|]. split; [done|].
  intros j Hj. unfold new_pml4_entry, index_ok, KERNEL_PLM4_INDEX, RECURSIVE_INDEX in *. simpl.
  unfold set_word. repeat case_if; try lia; try done. by apply Z3.
Qed.
End scratch.

Lemma leaf_not_frame s va l F j : vmm_inv s -> aligned F -> idx 3 va <> RECURSIVE_INDEX ->
  (forall l, ~ reach (mem s) (root s) l F) -> index_ok j -> leaf_slot s va = Some l -> F + 8 * j <> l.
Proof.
  intros Hinv HF Hva HU Hj Hl E. destruct (leaf_in_table s va l Hinv Hva Hl) as (t & Ht & El).
  eapply (frame_slot_upper F HF s 1 t j (idx 0 va)); try done; [apply idx_range | congruence].
Qed.

Lemma scratch_ready s f fr' s2 la : vmm_inv s -> f ∈ fa_free (frames s) ->
  fa_free fr' = fa_free (frames s) ∖ {[f]} -> vmm_inv s2 ->
  leaf_slot s2 SCRATCH_VIRT = Some la ->
  mem s2 la = page_floor (f * FRAME_SIZE) .| PAGE_WRITABLE .| PAGE_PRESENT ->
  tables_grow (mkMachine (mem s) (cr3 s) fr') s2 -> filling s2 (f * FRAME_SIZE) la s2.
Proof.
  intros Hinv Hf Hfr I2 L2 M2 G2. split; try done.
  intros l Hl. destruct (G2 l _ Hl) as [Hr|(f' & Hf' & E)].
  - by apply (inv_free s Hinv l (f * FRAME_SIZE) f).
  - simpl in Hf'. assert (f' = f) as -> by (unfold FRAME_SIZE in E; lia). rewrite Hfr in Hf'. set_solver.
Qed.

Lemma createAddressSpace_ok s : vmm_inv s -> (4 <= size (fa_free (frames s)))%nat ->
  exists f s' s2, createAddressSpace s = Ok (f * FRAME_SIZE, s') /\ f ∈ fa_free (frames s) /\
    ~ (f ∈ fa_free (frames s')) /\ vmm_inv s' /\ others_kept s s' SCRATCH_VIRT /\ 0 <= f < 2 ^ 40 /\
    (forall j, index_ok j -> mem s' (f * FRAME_SIZE + 8 * j) = new_pml4_entry s2 (f * FRAME_SIZE) j) /\
    (forall j, index_ok j -> mem s' (root s' + 8 * j) = mem s2 (root s2 + 8 * j)).
Proof.
  intros Hinv Hroom.
  destruct (alloc_ok s (inv_fa s Hinv)) as (f & fr' & Hf & Ea & Hok & Hfr).
  { intros E. rewrite E, size_empty in Hroom. lia. }
  pose proof (inv_phys s Hinv f Hf) as Hf40.
  pose proof (inv_frames s fr' Hinv Hok ltac:(rewrite Hfr; set_solver)) as I1.
  assert (Hsz : (3 <= size (fa_free fr'))%nat).
  { rewrite Hfr. pose proof (size_remove (fa_free (frames s)) f Hf). lia. }
  destruct (mapPage_ok _ SCRATCH_VIRT (f * FRAME_SIZE) PAGE_WRITABLE I1 ltac:(done) ltac:(done) Hsz)
    as (s2 & la & E2 & I2 & [C2 O2] & L2 & M2 & F2 & _ & G2 & _). simpl in F2, C2.
  pose proof (scratch_ready s f fr' s2 la Hinv Hf Hfr I2 L2 M2 G2) as H2.
  assert (HF : aligned (f * FRAME_SIZE)) by (by apply Z.mod_mul).
  destruct (scratch_fill s2 (f * FRAME_SIZE) la HF ltac:(unfold FRAME_SIZE; lia) H2) as (s6 & E6 & H6 & M6).
  destruct (leaf_write_ok s6 SCRATCH_VIRT la 0 (fill_inv _ _ _ _ H6) ltac:(done) (fill_leaf _ _ _ _ H6))
    as (I7 & [C7 O7] & L7 & M7 & G7 & F7 & _).
  exists f, (write_word s6 la 0), s2. split.
  { unfold createAddressSpace. run_call Ea.
    rewrite (proj2 (Z.eqb_neq _ _)) by (unfold UINT64_MAX, FRAME_SIZE; lia). run_call E2. exact E6. }
  clear E6 E2 Ea. pose proof (fill_inv _ _ _ _ H6) as I6. pose proof (fill_leaf _ _ _ _ H6) as L6.
  pose proof (leaf_not_upper s6 SCRATCH_VIRT la I6 ltac:(done) L6) as Hup.
  split_and!; [done | | done | | lia | lia | |].
  - rewrite F7, (fill_frames _ _ _ _ H6). intros Hin%F2. rewrite Hfr in Hin. apply elem_of_difference in Hin as [_ Hin].
    by apply Hin, elem_of_singleton.
  - split; [by rewrite C7, (fill_cr3 _ _ _ _ H6)|]. intros va Hva Hne. rewrite O7 by done. rewrite (proj1 (fill_same _ _ _ _ H6 va Hva)).
    rewrite O2; [done | done |]. rewrite <- (proj2 (fill_same _ _ _ _ H6 va Hva)).
    rewrite <- (proj2 (fill_same _ _ _ _ H6 SCRATCH_VIRT ltac:(done))).
    by rewrite !(ww_leaf s6 la 0 I6 Hup) in Hne by done.
  - intros j Hj. simpl. rewrite set_word_ne; [by apply M6|].
    apply (leaf_not_frame s6 SCRATCH_VIRT la (f * FRAME_SIZE) j I6 HF ltac:(done) (fill_unreached _ _ _ _ H6) Hj L6).
  - intros j Hj. simpl. rewrite set_word_ne.
    + change (root (write_word s6 la 0)) with (root s6). unfold root. rewrite (fill_cr3 _ _ _ _ H6).
      by apply (fill_root _ _ _ _ H6).
    + apply (Hup 2%nat); [apply reach_root | done].
Qed.

Definition mapped s (va : Z) : Prop := translate s va <> None.

Lemma present_entry x : has (x .| PAGE_PRESENT) PAGE_PRESENT = true.
Proof.
  change PAGE_PRESENT with (1 .<< 0). rewrite has_one_shl, Z.lor_spec by lia. apply orb_true_r.
Qed.

(** Mapping a page never unmaps another, even one that shares its slot. *)
Lemma mapped_kept s s' va la : others_kept s s' va -> leaf_slot s' va = Some la ->
  has (mem s' la) PAGE_PRESENT = true ->
  forall va', idx 3 va' <> RECURSIVE_INDEX -> mapped s va' -> mapped s' va'.
Proof.
  intros [_ O] L HP va' Hva' Hm. unfold mapped in *.
  destruct (decide (leaf_slot s' va' = leaf_slot s' va)) as [E|Hne]; [|by rewrite O].
  destruct (canonical va') eqn:Hc; [|unfold translate in Hm; by rewrite Hc in Hm].
  rewrite L in E. destruct (translate_leaf s' va' la Hc E) as (_ & ->). by rewrite HP.
Qed.

Lemma allocAndMapPage_ok s va flags :
  vmm_inv s -> canonical va = true -> idx 3 va <> RECURSIVE_INDEX -> 0 <= flags < 4096 ->
  (fa_free (frames s) = ∅ ->
    exists fr', allocAndMapPage va flags s = Ok (false, mkMachine (mem s) (cr3 s) fr') /\
      fa_ok fr' /\ fa_free fr' = ∅) /\
  ((4 <= size (fa_free (frames s)))%nat ->
    exists f s', allocAndMapPage va flags s = Ok (true, s') /\ vmm_inv s' /\
      f ∈ fa_free (frames s) /\ ~ (f ∈ fa_free (frames s')) /\
      maps_to s' va (f * FRAME_SIZE) (table_perm s va .& flags) /\ others_kept s s' va /\
      (size (fa_free (frames s)) <= 4 + size (fa_free (frames s')))%nat /\
      forall va', idx 3 va' <> RECURSIVE_INDEX -> mapped s va' -> mapped s' va').
Proof.
  intros Hinv Hc Hva Hfl. split.
  - intros Hempty. destruct (fa_alloc_spec _ (inv_fa s Hinv)) as (r & fr' & E & Hok & Hs).
    exists fr'. unfold allocAndMapPage, alloc. run_call E. remember (fa_free fr') as g.
    destruct Hs as [f Hf _|_]; [|by rewrite Z.eqb_refl, Hempty].
    rewrite Hempty in Hf. exfalso. by apply not_elem_of_empty in Hf.
  - intros Hroom. destruct (alloc_ok s (inv_fa s Hinv)) as (f & fr' & Hf & Ea & Hok & Hfr).
    { intros E. rewrite E, size_empty in Hroom. lia. }
    pose proof (inv_phys s Hinv f Hf) as Hf40.
    pose proof (inv_frames s fr' Hinv Hok ltac:(rewrite Hfr; set_solver)) as I1.
    destruct (mapPage_ok _ va (f * FRAME_SIZE) flags I1 (canonical_range va Hc) Hva)
      as (s' & la & E & I & O & L & M & Fr & Sz & _ & U).
    { simpl. rewrite Hfr. pose proof (size_remove (fa_free (frames s)) f Hf). lia. }
    exists f, s'. split_and!; try done.
    + unfold allocAndMapPage. run_call Ea.
      rewrite (proj2 (Z.eqb_neq _ _)) by (unfold UINT64_MAX, FRAME_SIZE; lia). by run_call E.
    + intros Hin%Fr. simpl in Hin. rewrite Hfr in Hin. set_solver.
    + change (table_perm s va) with (table_perm (mkMachine (mem s) (cr3 s) fr') va). rewrite <- (U va Hva).
      eapply leaf_maps_to; try done. unfold FRAME_SIZE; lia.
    + simpl in Sz. rewrite Hfr in Sz. pose proof (size_remove (fa_free (frames s)) f Hf). lia.
    + apply (mapped_kept s s' va la); try done. rewrite M. by apply present_entry.
Qed.

(** C1. On any address space that satisfies the invariant and with three
    frames to spare, [mapPage] returns, keeps the invariant, and makes every
    address of the page translate to the requested frame with exactly the
    writable and user bits of [flags] that the upper tables already there
    allow: a table that is created, or a split, withholds none.  The
    page-table entry of the page holds the frame with all the flags and the
    present bit.  No translation changes that does not go through that entry:
    new tables are invisible and splitting a 2 MiB page preserves what it
    mapped. *)
Theorem mapPage_correct s va pa flags :
  vmm_inv s -> canonical va = true -> idx 3 va <> RECURSIVE_INDEX ->
  0 <= pa < 2 ^ 52 -> 0 <= flags < 4096 -> (3 <= size (fa_free (frames s)))%nat ->
  exists s' la, mapPage va pa flags s = Ok s' /\ vmm_inv s' /\
    (forall va', canonical va' = true -> va' / PAGE_SIZE = va / PAGE_SIZE ->
       translate s' va' = Some (pa / PAGE_SIZE * PAGE_SIZE + va' mod PAGE_SIZE, table_perm s va .& flags)) /\
    leaf_slot s' va = Some la /\ mem s' la = (pa / PAGE_SIZE * PAGE_SIZE) .| flags .| PAGE_PRESENT /\
    (forall va', idx 3 va' <> RECURSIVE_INDEX -> table_perm s' va' = table_perm s va') /\ others_kept s s' va.
Proof.
  intros Hinv Hc Hva Hpa Hfl Hroom.
  destruct (mapPage_ok s va pa flags Hinv (canonical_range va Hc) Hva Hroom)
    as (s' & la & E & I & O & L & M & _ & _ & _ & U).
  exists s', la. split_and!; try done.
  - rewrite <- (U va Hva). by eapply leaf_maps_to.
  - rewrite <- (page_floor_eq pa) by lia. exact M.
Qed.

(** C29. [unmapPage] of an address that no large page maps returns, keeps the
    invariant, leaves nothing mapped at the page, and changes no translation
    that does not use the same page-table slot. *)
Theorem unmapPage_correct s va :
  vmm_inv s -> canonical va = true -> idx 3 va <> RECURSIVE_INDEX -> ~ huge_at s va ->
  exists s', unmapPage va s = Ok s' /\ vmm_inv s' /\ frames s' = frames s /\
    translate s' va = None /\ others_kept s s' va.
Proof.
  intros Hinv Hc Hva Hh. pose proof (canonical_range va Hc) as Hr.
  destruct (leaf_slot s va) as [la|] eqn:Hl.
  - exists (write_word s la 0). split; [by apply unmapPage_leaf|].
    destruct (leaf_write_ok s va la 0 Hinv Hva Hl) as (I & O & L & M & _ & F & _). split_and!; try done.
    destruct (translate_leaf _ va la Hc L) as (_ & ->). by rewrite M.
  - exists s. split; [by apply unmapPage_no_leaf|]. split_and!; try done.
    by apply no_leaf_untranslated.
Qed.

(** [unmapPage] does not look at the page-size bit: where a 2 MiB page
    maps the address it zeroes a word of the mapped memory, and the address
    stays mapped. *)
Theorem unmapPage_ignores_large_pages s va t1 t2 :
  vmm_inv s -> canonical va = true -> idx 3 va <> RECURSIVE_INDEX ->
  path (mem s) (root s) [idx 3 va] = Some t1 -> path (mem s) (root s) [idx 3 va; idx 2 va] = Some t2 ->
  huge_at s va ->
  let a := (mem s (t2 + 8 * idx 1 va) .& ADDR_MASK) + 8 * idx 0 va in
  (forall l t j, reach (mem s) (root s) l t -> index_ok j -> t + 8 * j <> a) ->
  exists s', unmapPage va s = Ok s' /\ mem s' a = 0 /\ translate s' va = translate s va.
Proof.
  intros Hinv Hc Hva P1 P2 Hh a Hdata. pose proof (canonical_range va Hc) as Hr.
  unfold huge_at, entry_of in Hh. rewrite P2 in Hh. destruct Hh as [HP2 HS2].
  exists (write_word s a 0). split; [|split; [apply set_word_eq|]].
  - pose proof P1 as P1'. pose proof P2 as P2'.
    change [idx 3 va; idx 2 va] with ([idx 3 va] ++ [idx 2 va]) in P2'.
    rewrite (path_app _ _ _ _ _ P1) in P2'. cbn [path] in P1', P2'. cbv zeta in P1', P2'.
    destruct (has (mem s (root s + 8 * idx 3 va)) PAGE_PRESENT) eqn:HP; [|done].
    destruct (has (mem s (t1 + 8 * idx 2 va)) PAGE_PRESENT) eqn:HP1; [|done].
    by apply (unmapPage_huge_writes s va t1 t2).
  - apply ww_translate; try done; [intros; by eapply Hdata|].
    intros (t & Ht & E)%leaf_in_table; try done. symmetry in E. by eapply Hdata, E; [|apply idx_range].
Qed.

(** [allocAndMapPage] maps a frame that was free and no longer is, or
    reports failure without changing the address space when no frame is left. *)
Theorem allocAndMapPage_correct s va flags :
  vmm_inv s -> canonical va = true -> idx 3 va <> RECURSIVE_INDEX -> 0 <= flags < 4096 ->
  (fa_free (frames s) = ∅ ->
    exists fr', allocAndMapPage va flags s = Ok (false, mkMachine (mem s) (cr3 s) fr')) /\
  ((4 <= size (fa_free (frames s)))%nat ->
    exists f s', allocAndMapPage va flags s = Ok (true, s') /\ vmm_inv s' /\
      f ∈ fa_free (frames s) /\ ~ (f ∈ fa_free (frames s')) /\
      maps_to s' va (f * FRAME_SIZE) (table_perm s va .& flags) /\ others_kept s s' va).
Proof.
  intros Hinv Hc Hva Hfl. destruct (allocAndMapPage_ok s va flags Hinv Hc Hva Hfl) as [Hfull Hok].
  split.
  - intros Hempty. destruct (Hfull Hempty) as (fr' & E & _). by exists fr'.
  - intros Hroom. destruct (Hok Hroom) as (f & s' & E & I & Hin & Hout & M & O & _). by exists f, s'.
Qed.

(** C28. [createAddressSpace] builds, in a frame that was free, a PML4 whose
    recursive slot points to itself, which translates the lowest and the
    kernel slot exactly as the current address space does and maps nothing
    else; the current address space keeps its translations, the scratch page
    apart. *)
Theorem createAddressSpace_correct s : vmm_inv s -> (4 <= size (fa_free (frames s)))%nat ->
  exists f s', createAddressSpace s = Ok (f * FRAME_SIZE, s') /\ f ∈ fa_free (frames s) /\
    vmm_inv s' /\ others_kept s s' SCRATCH_VIRT /\
    let n := switchAddressSpace (f * FRAME_SIZE) s' in
    rec_ok n /\
    (forall va, idx 3 va = 0 \/ idx 3 va = KERNEL_PLM4_INDEX -> translate n va = translate s' va) /\
    (forall va, idx 3 va <> 0 -> idx 3 va <> KERNEL_PLM4_INDEX -> idx 3 va <> RECURSIVE_INDEX ->
       translate n va = None).
Proof.
  intros Hinv Hroom.
  destruct (createAddressSpace_ok s Hinv Hroom) as (f & s' & s2 & E & Hf & _ & I & O & Hf40 & Mn & Mr).
  exists f, s'. split_and!; try done. cbv zeta.
  assert (Hroot : root (switchAddressSpace (f * FRAME_SIZE) s') = f * FRAME_SIZE).
  { unfold root, switchAddressSpace. simpl. rewrite <- (Z.lor_0_r (f * FRAME_SIZE)) at 1.
    apply mask_entry; unfold aligned, FRAME_SIZE, PAGE_SIZE in *; try lia. by apply Z.mod_mul. }
  split_and!.
  - unfold rec_ok. rewrite Hroot. change (mem (switchAddressSpace _ s')) with (mem s').
    rewrite Mn by done. unfold new_pml4_entry. simpl (RECURSIVE_INDEX =? _). cbv iota.
    rewrite <- Z.lor_assoc. change (PAGE_PRESENT .| PAGE_WRITABLE) with 3.
    assert (Hb : forall k, 0 <= k < 12 -> Z.testbit (f * FRAME_SIZE .| 3) k = Z.testbit 3 k).
    { intros k Hk. rewrite Z.lor_spec. change FRAME_SIZE with (2 ^ 12).
      by rewrite Z.mul_pow2_bits_low by lia. }
    change PAGE_PRESENT with (1 .<< 0). change PAGE_SIZE_BIT with (1 .<< 7).
    rewrite !has_one_shl, !Hb by lia. split_and!; try done.
    apply mask_entry; unfold aligned, FRAME_SIZE, PAGE_SIZE in *; try lia. by apply Z.mod_mul.
  - intros va Hva. unfold translate. rewrite Hroot. change (mem (switchAddressSpace _ s')) with (mem s').
    destruct (canonical va); [|done].
    assert (Ee : mem s' (f * FRAME_SIZE + 8 * idx 3 va) = mem s' (root s' + 8 * idx 3 va)).
    { rewrite Mn, Mr by apply idx_range. unfold new_pml4_entry. by destruct Hva as [-> | ->]. }
    remember 3%nat as l3. cbn [mmu_walk]. cbv zeta. by rewrite Ee.
  - intros va H0 H1 H2. unfold translate. rewrite Hroot. change (mem (switchAddressSpace _ s')) with (mem s').
    destruct (canonical va); [|done]. apply walk_absent. rewrite Mn by apply idx_range.
    unfold new_pml4_entry. by rewrite !(proj2 (Z.eqb_neq _ _)).
Qed.
End address_space.

(** ** A concrete address space

    PML4 in frame 6 with its recursive slot, a PDPT in frame 4 and a page
    directory in frame 5 that maps the 2 MiB page at 0x200000 to address 0. *)
Definition sample_mem : Z -> Z := fun a =>
  if a =? 24576 + 8 * 510 then 24576 .| 3 else
  if a =? 24576 then 16384 .| 3 else
  if a =? 16384 then 20480 .| 3 else
  if a =? 20480 then 0x200000 .| 0x83 else 0.

Definition sample_machine : Machine PhysicalMemoryManager := mkMachine sample_mem 24576 sample_pmm.

Lemma sample_mem_entry t i : aligned t -> index_ok i -> has (sample_mem (t + 8 * i)) PAGE_PRESENT = true ->
  (t = 24576 /\ i = 510) \/ (t = 24576 /\ i = 0) \/ (t = 16384 /\ i = 0) \/ (t = 20480 /\ i = 0).
Proof.
  unfold sample_mem. intros Ht Hi.
  destruct (Z.eqb_spec (t + 8 * i) (24576 + 8 * 510)) as [E|_].
  { intros _. apply (entry_addr_inj t 24576 i 510) in E; try done. lia. }
  destruct (Z.eqb_spec (t + 8 * i) 24576) as [E|_].
  { intros _. apply (entry_addr_inj t 24576 i 0) in E; try done. lia. }
  destruct (Z.eqb_spec (t + 8 * i) 16384) as [E|_].
  { intros _. apply (entry_addr_inj t 16384 i 0) in E; try done. lia. }
  destruct (Z.eqb_spec (t + 8 * i) 20480) as [E|_]; [|done].
  intros _. apply (entry_addr_inj t 20480 i 0) in E; try done. lia.
Qed.

Lemma sample_path_from t ids t1 : path sample_mem t ids = Some t1 -> Forall index_ok ids -> aligned t ->
  t = 24576 -> head ids <> Some RECURSIVE_INDEX ->
  (ids = [] /\ t1 = 24576) \/ (ids = [0] /\ t1 = 16384) \/ (ids = [0; 0] /\ t1 = 20480).
Proof.
  intros Hp Hf Ha -> Hh.
  destruct ids as [|i ids]; [simpl in Hp; simplify_eq; by left|]. right.
  apply Forall_cons_iff in Hf as [Hi Hf]. cbn [path] in Hp. cbv zeta in Hp.
  destruct (has (sample_mem (24576 + 8 * i)) PAGE_PRESENT) eqn:HP; [|done].
  destruct (sample_mem_entry 24576 i Ha Hi HP) as [[_ ->]|[[_ ->]|[[? _]|[? _]]]]; try done.
  change (path sample_mem 16384 ids = Some t1) in Hp.
  destruct ids as [|i ids]; [simpl in Hp; simplify_eq; by left|]. right.
  apply Forall_cons_iff in Hf as [Hi2 Hf]. cbn [path] in Hp. cbv zeta in Hp.
  destruct (has (sample_mem (16384 + 8 * i)) PAGE_PRESENT) eqn:HP2; [|done].
  destruct (sample_mem_entry 16384 i eq_refl Hi2 HP2) as [[? _]|[[? _]|[[_ ->]|[? _]]]]; try done.
  change (path sample_mem 20480 ids = Some t1) in Hp.
  destruct ids as [|i ids]; [simpl in Hp; simplify_eq; done|].
  apply Forall_cons_iff in Hf as [Hi3 Hf]. cbn [path] in Hp. cbv zeta in Hp.
  destruct (has (sample_mem (20480 + 8 * i)) PAGE_PRESENT) eqn:HP3; [|done].
  destruct (sample_mem_entry 20480 i eq_refl Hi3 HP3) as [[? _]|[[? _]|[[? _]|[_ ->]]]]; try done.
Qed.

Lemma sample_reach l t : reach sample_mem 24576 l t ->
  (l = 4%nat /\ t = 24576) \/ (l = 3%nat /\ t = 16384) \/ (l = 2%nat /\ t = 20480).
Proof.
  intros (ids & [Hf Hh] & Hl & _ & Hp).
  destruct (sample_path_from 24576 ids t) as [[-> ->]|[[-> ->]|[-> ->]]]; try done;
    simpl in Hl; [left | right; left | right; right]; split; lia || done.
Qed.

Lemma sample_free f : f ∈ fa_free (frames sample_machine) -> 0 <= f < 4.
Proof.
  change (f ∈ free_frames sample_pmm -> 0 <= f < 4).
  intros [Hr Hu]%elem_of_free_frames. simpl in Hr.
  destruct (decide (f < 4)); [lia|].
  assert (f = 4 \/ f = 5 \/ f = 6 \/ f = 7) as [->|[->|[->| ->]]] by lia; done.
Qed.

Lemma sample_inv : vmm_inv sample_machine.
Proof.
  split; change (root sample_machine) with 24576; change (mem sample_machine) with sample_mem.
  - by split_and!.
  - intros l l' t H1%sample_reach H2%sample_reach. lia.
  - intros l t f H1%sample_reach Hf%sample_free. unfold FRAME_SIZE. lia.
  - intros f Hf%sample_free. lia.
  - exact sample_pmm_wf.
  - intros l t i Hr Hi Hl Hne HP HS. apply sample_reach in Hr.
    assert (Ha : aligned t) by (destruct Hr as [[_ ->]|[[_ ->]|[_ ->]]]; done).
    destruct (sample_mem_entry t i Ha Hi HP) as [[-> ->]|[[-> ->]|[[-> ->]|[-> ->]]]]; try done.
    split; [lia | done].
Qed.

Lemma sample_room : (4 <= size (fa_free (frames sample_machine)))%nat.
Proof. vm_compute. lia. Qed.

Lemma mapPage_correct_witness :
  exists s', mapPage 0x400123 0x5000 (PAGE_WRITABLE .| PAGE_CACHE_DISABLE) sample_machine = Ok s' /\
    translate s' 0x400123 = Some (0x5123, PAGE_WRITABLE) /\ table_perm s' 0x400123 = PAGE_WRITABLE.
Proof.
  destruct (mapPage_correct sample_machine 0x400123 0x5000 (PAGE_WRITABLE .| PAGE_CACHE_DISABLE) sample_inv)
    as (s' & la & E & _ & M & _ & _ & U & _).
  - reflexivity.
  - vm_compute. discriminate.
  - lia.
  - split; [discriminate | reflexivity].
  - pose proof sample_room. lia.
  - exists s'. split; [exact E|]. split; [rewrite (M 0x400123 eq_refl eq_refl); reflexivity|].
    rewrite U; [reflexivity | vm_compute; discriminate].
Defined.

Lemma unmapPage_correct_witness :
  exists s', unmapPage 0x400000 sample_machine = Ok s' /\ translate s' 0x400000 = None.
Proof.
  destruct (unmapPage_correct sample_machine 0x400000 sample_inv) as (s' & E & _ & _ & T & _).
  - reflexivity.
  - vm_compute. discriminate.
  - vm_compute. intros [? _]. discriminate.
  - exists s'. split; [exact E | exact T].
Defined.

Lemma unmapPage_ignores_large_pages_witness :
  exists s', unmapPage 0x1000 sample_machine = Ok s' /\ mem s' 0x200008 = 0 /\
    translate s' 0x1000 = Some (0x201000, 2).
Proof.
  destruct (unmapPage_ignores_large_pages sample_machine 0x1000 16384 20480 sample_inv) as (s' & E & M & T).
  - reflexivity.
  - vm_compute. discriminate.
  - reflexivity.
  - reflexivity.
  - split; reflexivity.
  - intros l t j Hr Hj. apply sample_reach in Hr. unfold index_ok in Hj.
    match goal with |- _ <> ?a => change a with 0x200008 end. lia.
  - exists s'. split; [exact E|]. split; [exact M|]. rewrite T. reflexivity.
Defined.

Lemma allocAndMapPage_correct_witness :
  exists f s', allocAndMapPage 0x400000 PAGE_WRITABLE sample_machine = Ok (true, s') /\
    maps_to s' 0x400000 (f * FRAME_SIZE) PAGE_WRITABLE.
Proof.
  destruct (allocAndMapPage_correct sample_machine 0x400000 PAGE_WRITABLE sample_inv) as [_ Hm].
  - reflexivity.
  - vm_compute. discriminate.
  - unfold PAGE_WRITABLE. lia.
  - destruct (Hm sample_room) as (f & s' & E & _ & _ & _ & M & _). exists f, s'. split; [exact E | exact M].
Defined.

Lemma createAddressSpace_correct_witness :
  exists f s', createAddressSpace sample_machine = Ok (f * FRAME_SIZE, s') /\
    translate (switchAddressSpace (f * FRAME_SIZE) s') 0x1234 = translate s' 0x1234.
Proof.
  destruct (createAddressSpace_correct sample_machine sample_inv sample_room)
    as (f & s' & E & _ & _ & _ & _ & T & _).
  exists f, s'. split; [exact E|]. apply T. left. reflexivity.
Defined.
