(* ===== verification/Heap.v ===== *)
(** Kernel heap, [src/src/mm/heap.cpp]: first-fit allocation from a doubly
    linked list of blocks whose headers live in the heap itself.

    The model works at pointer level.  [headers] is the heap memory seen as
    block headers, indexed by their address; a header access outside
    [HEAP_START, g_heap_mapped_end), or a read where no header was ever
    written, is a [Fault].  The null pointer is 0.  Pages come from the
    virtual memory manager through the interface [PageMapper]; the serial and
    terminal messages are not modelled.

    A heap is described by the list of its blocks, [heap_rep]; [kmalloc] and
    [kfree] are shown to implement the list operations [alloc_blocks] and
    [free_block]. *)

From S2P Require Import Prelude Pmm Vmm VmmProofs AddressSpace.

Definition HEAP_START : Z := 0xFFFFFFFFC0000000.
Definition HEAP_INITIAL_SIZE : Z := 64 * 1024.
Definition HEAP_MAX_SIZE : Z := 64 * 1024 * 1024.

Record BlockHeader := mkBlock { bsize : Z; bfree : bool; bnext : Z; bprev : Z }.

Definition HEADER_SIZE : Z := 32.
Definition ALIGNMENT : Z := 16.

Definition alignUp (value align : Z) : Z := u64 (value + align - 1) .& u64 (.~ (align - 1)).

(** ** The page supplier *)

(** The page-aligned addresses the heap may ask for. *)
Definition heap_page (va : Z) : Prop :=
  HEAP_START <= va < HEAP_START + HEAP_MAX_SIZE /\ va mod PAGE_SIZE = 0.

(** [VMM::allocAndMapPage(va, PAGE_WRITABLE)] as the heap relies on it:
    [pm_room] counts the free frames; a call needs up to four (three new
    tables and the page) and fails cleanly when there are none. *)
Class PageMapper (M : Type) := {
  pm_map : Z -> M -> outcome (bool * M);
  pm_ok : M -> Prop;
  pm_room : M -> nat;
  pm_mapped : M -> Z -> Prop;
  pm_map_some va m : heap_page va -> pm_ok m -> (4 <= pm_room m)%nat ->
    exists m', pm_map va m = Ok (true, m') /\ pm_ok m' /\ (pm_room m <= 4 + pm_room m')%nat /\
      (forall va', va <= va' < va + PAGE_SIZE -> pm_mapped m' va') /\
      (forall va', HEAP_START <= va' < HEAP_START + HEAP_MAX_SIZE -> pm_mapped m va' -> pm_mapped m' va');
  pm_map_none va m : heap_page va -> pm_ok m -> pm_room m = 0%nat ->
    exists m', pm_map va m = Ok (false, m') /\ pm_ok m' /\
      (forall va', pm_mapped m va' -> pm_mapped m' va');
}.

Record HeapState (M : Type) := mkHeap {
  headers : gmap Z BlockHeader;
  g_first_block : Z;
  g_heap_current_end : Z;
  g_heap_mapped_end : Z;
  vm : M;
}.
Arguments mkHeap {M}.
Arguments headers {M}.
Arguments g_first_block {M}.
Arguments g_heap_current_end {M}.
Arguments g_heap_mapped_end {M}.
Arguments vm {M}.

Section heap.
Context {M : Type} `{PageMapper M}.
#[local] Abbreviation HS := (HeapState M).

(** ** Header accesses *)

Definition in_heap (a : Z) (st : HS) : bool :=
  (HEAP_START <=? a) && (a + HEADER_SIZE <=? g_heap_mapped_end st).

Definition hget (a : Z) (st : HS) : outcome BlockHeader :=
  if in_heap a st then match headers st !! a with Some h => Ok h | None => Fault end else Fault.

Definition hset (a : Z) (h : BlockHeader) (st : HS) : outcome HS :=
  if in_heap a st
  then Ok (mkHeap (<[a := h]> (headers st)) (g_first_block st) (g_heap_current_end st)
             (g_heap_mapped_end st) (vm st))
  else Fault.

Definition hmod (a : Z) (f : BlockHeader -> BlockHeader) (st : HS) : outcome HS :=
  h ← hget a st; hset a (f h) st.

Definition set_size (n : Z) (h : BlockHeader) := mkBlock (u64 n) (bfree h) (bnext h) (bprev h).
Definition set_free (b : bool) (h : BlockHeader) := mkBlock (bsize h) b (bnext h) (bprev h).
Definition set_next (p : Z) (h : BlockHeader) := mkBlock (bsize h) (bfree h) p (bprev h).
Definition set_prev (p : Z) (h : BlockHeader) := mkBlock (bsize h) (bfree h) (bnext h) p.

(** ** Growing *)

(** One iteration of the mapping loop; the flag is false once it failed. *)
Definition grow_page (_ : Z) (r : bool * HS) : outcome (bool * HS) :=
  let '(going, st) := r in
  if negb going then mret (false, st) else
  '(ok, m) ← pm_map (g_heap_mapped_end st) (vm st);
  if (ok : bool)
  then mret (true, mkHeap (headers st) (g_first_block st) (g_heap_current_end st)
                     (u64 (g_heap_mapped_end st + PAGE_SIZE)) m)
  else mret (false, mkHeap (headers st) (g_first_block st) (g_heap_current_end st)
                      (g_heap_mapped_end st) m).

Definition growHeap (min_bytes : Z) (st : HS) : outcome (bool * HS) :=
  let bytes_needed := alignUp min_bytes PAGE_SIZE in
  if HEAP_START + HEAP_MAX_SIZE <? u64 (g_heap_mapped_end st + bytes_needed)
  then mret (false, st)
  else for_range 0 (bytes_needed / PAGE_SIZE) grow_page (true, st).

Definition init (m : M) : outcome HS :=
  '(ok, st) ← growHeap HEAP_INITIAL_SIZE (mkHeap ∅ 0 HEAP_START HEAP_START m);
  if negb ok then Halt else
  let st1 := mkHeap (headers st) HEAP_START (g_heap_current_end st) (g_heap_mapped_end st) (vm st) in
  st2 ← hset HEAP_START (mkBlock (HEAP_INITIAL_SIZE - HEADER_SIZE) true 0 0) st1;
  mret (mkHeap (headers st2) (g_first_block st2) (g_heap_mapped_end st2) (g_heap_mapped_end st2) (vm st2)).

(** ** Allocation *)

(** [while (block) { if (block->free && block->size >= size) ...; block = block->next; }] *)
Fixpoint find_fit (fuel : nat) (size block : Z) (st : HS) : outcome Z :=
  match fuel with
  | O => Halt
  | S fuel' =>
      if block =? 0 then mret 0 else
      h ← hget block st;
      if bfree h && (size <=? bsize h) then mret block
      else find_fit fuel' size (bnext h) st
  end.

(** [while (tail->next) tail = tail->next;] *)
Fixpoint find_tail (fuel : nat) (tail : Z) (st : HS) : outcome Z :=
  match fuel with
  | O => Halt
  | S fuel' =>
      h ← hget tail st;
      if bnext h =? 0 then mret tail else find_tail fuel' (bnext h) st
  end.

(** A list without cycles has at most as many blocks as there are headers. *)
Definition list_fuel (st : HS) : nat := S (size (headers st)).

Definition split_block (block size : Z) (st : HS) : outcome HS :=
  h ← hget block st;
  if u64 (size + HEADER_SIZE + ALIGNMENT) <=? bsize h then
    let new_block := u64 (block + HEADER_SIZE + size) in
    st1 ← hset new_block (mkBlock (u64 (bsize h - size - HEADER_SIZE)) true (bnext h) block) st;
    st2 ← (if negb (bnext h =? 0) then hmod (bnext h) (set_prev new_block) st1 else mret st1);
    st3 ← hmod block (set_next new_block) st2;
    hmod block (set_size size) st3
  else mret st.

Definition append_block (new_block_addr : Z) (st : HS) : outcome HS :=
  st1 ← hset new_block_addr
          (mkBlock (u64 (g_heap_mapped_end st - new_block_addr - HEADER_SIZE)) true 0 0) st;
  tail ← find_tail (list_fuel st1) (g_first_block st1) st1;
  st2 ← hmod tail (set_next new_block_addr) st1;
  hmod new_block_addr (set_prev tail) st2.

Fixpoint kmalloc_rec (fuel : nat) (size : Z) (st : HS) : outcome (Z * HS) :=
  match fuel with
  | O => Halt
  | S fuel' =>
      if size =? 0 then mret (0, st) else
      let size := alignUp size ALIGNMENT in
      block ← find_fit (list_fuel st) size (g_first_block st) st;
      if negb (block =? 0) then
        st1 ← split_block block size st;
        st2 ← hmod block (set_free false) st1;
        mret (u64 (block + HEADER_SIZE), st2)
      else
        let grow_amount := u64 (size + HEADER_SIZE) in
        let grow_amount := if grow_amount <? 4096 then 4096 else grow_amount in
        let new_block_addr := g_heap_mapped_end st in
        '(ok, st1) ← growHeap grow_amount st;
        if negb ok then mret (0, st1) else
        st2 ← append_block new_block_addr st1;
        kmalloc_rec fuel' size st2
  end.

(** Every recursive call follows a growth by at least a page, and the heap
    has at most [HEAP_MAX_SIZE / PAGE_SIZE] of them. *)
Definition kmalloc (size : Z) (st : HS) : outcome (Z * HS) :=
  kmalloc_rec (S (S (Z.to_nat (HEAP_MAX_SIZE / PAGE_SIZE)))) size st.

(** The three statements that merge the block after [x], whose header is
    [c], into [x]; [kfree] has them once for [block->next] and once for
    [block] itself. *)
Definition absorb (x : Z) (c : BlockHeader) (st : HS) : outcome HS :=
  s1 ← hmod x (fun h => set_size (bsize h + (HEADER_SIZE + bsize c)) h) st;
  s2 ← hmod x (set_next (bnext c)) s1;
  if negb (bnext c =? 0) then hmod (bnext c) (set_prev x) s2 else mret s2.

(** [p && p->free] *)
Definition is_free (p : Z) (st : HS) : outcome bool :=
  if negb (p =? 0) then h ← hget p st; mret (bfree h) else mret false.

Definition merge_with_next (block : Z) (st : HS) : outcome HS :=
  b ← hget block st;
  n ← is_free (bnext b) st;
  if (n : bool) then nx ← hget (bnext b) st; absorb block nx st else mret st.

Definition merge_with_prev (block : Z) (st : HS) : outcome HS :=
  b ← hget block st;
  p ← is_free (bprev b) st;
  if (p : bool) then absorb (bprev b) b st else mret st.

Definition kfree (ptr : Z) (st : HS) : outcome HS :=
  if ptr =? 0 then mret st else
  let block := u64 (ptr - HEADER_SIZE) in
  st1 ← hmod block (set_free true) st;
  st2 ← merge_with_next block st1;
  merge_with_prev block st2.

(** [for (b = g_first_block; b; b = b->next) if (b->free == which) total += b->size;] *)
Fixpoint sum_blocks (fuel : nat) (which : bool) (b total : Z) (st : HS) : outcome Z :=
  match fuel with
  | O => Halt
  | S fuel' =>
      if b =? 0 then mret total else
      h ← hget b st;
      sum_blocks fuel' which (bnext h)
        (if eqb (bfree h) which then u64 (total + bsize h) else total) st
  end.

Definition totalAllocated (st : HS) : outcome Z :=
  sum_blocks (list_fuel st) false (g_first_block st) 0 st.

Definition totalFree (st : HS) : outcome Z :=
  sum_blocks (list_fuel st) true (g_first_block st) 0 st.

(** ** Abstract heap: the list of blocks *)

Record Block := mkB { addr : Z; bsz : Z; bfr : bool }.

Definition bend (b : Block) : Z := addr b + HEADER_SIZE + bsz b.

(** First fit with splitting on the list of blocks: the blocks before the
    chosen one, the chosen one, and what the blocks become. *)
Definition carve (size : Z) (b : Block) : list Block :=
  if size + HEADER_SIZE + ALIGNMENT <=? bsz b
  then [mkB (addr b) size false;
        mkB (addr b + HEADER_SIZE + size) (bsz b - size - HEADER_SIZE) true]
  else [mkB (addr b) (bsz b) false].

Fixpoint alloc_blocks (size : Z) (l : list Block) : option (Z * list Block) :=
  match l with
  | [] => None
  | b :: l' =>
      if bfr b && (size <=? bsz b) then Some (addr b, carve size b ++ l')
      else match alloc_blocks size l' with
           | Some (a, r) => Some (a, b :: r)
           | None => None
           end
  end.

(** Merge [b] with the block after it when that one is free. *)
Definition merge_next (b : Block) (l : list Block) : list Block :=
  match l with
  | c :: l' => if bfr c then mkB (addr b) (bsz b + (HEADER_SIZE + bsz c)) (bfr b) :: l' else b :: l
  | [] => [b]
  end.

(** Freeing the block at [a]: it is merged with a free successor, and then
    with a free predecessor [p]. *)
Fixpoint free_block (a : Z) (l : list Block) : list Block :=
  match l with
  | [] => []
  | b :: l' => if addr b =? a then merge_next (mkB (addr b) (bsz b) true) l' else
      match l' with
      | c :: l'' =>
          if addr c =? a then
            let r := merge_next (mkB (addr c) (bsz c) true) l'' in
            if bfr b then merge_next b r else b :: r
          else b :: free_block a l'
      | [] => [b]
      end
  end.

(** ** Representation *)

Definition hd_addr (l : list Block) (nx : Z) : Z := match l with [] => nx | b :: _ => addr b end.
Fixpoint last_addr (p : Z) (l : list Block) : Z :=
  match l with [] => p | b :: l' => last_addr (addr b) l' end.

(** The headers of [l] form a doubly linked segment between [p] and [nx]. *)
Fixpoint chain (hs : gmap Z BlockHeader) (p : Z) (l : list Block) (nx : Z) : Prop :=
  match l with
  | [] => True
  | b :: l' => hs !! addr b = Some (mkBlock (bsz b) (bfr b) (hd_addr l' nx) p) /\ chain hs (addr b) l' nx
  end.

(** The blocks lie in increasing order, without overlap, between two addresses. *)
Fixpoint laid_out (lo : Z) (l : list Block) (hi : Z) : Prop :=
  match l with
  | [] => lo <= hi
  | b :: l' => lo <= addr b /\ 0 <= bsz b /\ addr b mod ALIGNMENT = 0 /\ bsz b mod ALIGNMENT = 0 /\
               laid_out (bend b) l' hi
  end.

Record heap_rep (st : HS) (l : list Block) : Prop := {
  rep_chain : chain (headers st) 0 l 0;
  rep_first : g_first_block st = hd_addr l 0;
  rep_nonempty : l <> [];
  rep_layout : laid_out HEAP_START l (g_heap_mapped_end st);
  rep_end : HEAP_START <= g_heap_mapped_end st <= HEAP_START + HEAP_MAX_SIZE;
  rep_page : g_heap_mapped_end st mod PAGE_SIZE = 0;
  rep_vm : pm_ok (vm st);
  rep_mapped : forall va, HEAP_START <= va < g_heap_mapped_end st -> pm_mapped (vm st) va;
}.

Definition with_headers (st : HS) (hs : gmap Z BlockHeader) : HS :=
  mkHeap hs (g_first_block st) (g_heap_current_end st) (g_heap_mapped_end st) (vm st).

(** ** Lists of blocks *)

Lemma hd_addr_app l1 l2 nx : hd_addr (l1 ++ l2) nx = hd_addr l1 (hd_addr l2 nx).
Proof. by destruct l1. Qed.

Lemma chain_app hs p l1 l2 nx :
  chain hs p (l1 ++ l2) nx <-> chain hs p l1 (hd_addr l2 nx) /\ chain hs (last_addr p l1) l2 nx.
Proof.
  revert p. induction l1 as [|b l1 IH]; intros p; simpl; [by intuition|].
  rewrite IH, hd_addr_app. by intuition.
Qed.

Lemma chain_insert_out hs p l nx a h : (forall b, b ∈ l -> addr b <> a) ->
  chain hs p l nx -> chain (<[a := h]> hs) p l nx.
Proof.
  revert p. induction l as [|b l IH]; intros p Hout; simpl; [done|].
  intros [Hb Hc]. split.
  - rewrite lookup_insert_ne; [done|]. apply not_eq_sym, Hout. by left.
  - apply IH; [|done]. intros c Hin. apply Hout. by right.
Qed.

Lemma chain_dom hs p l nx b : chain hs p l nx -> b ∈ l -> is_Some (hs !! addr b).
Proof.
  revert p. induction l as [|c l IH]; intros p; simpl; [by intros _ ?%not_elem_of_nil|].
  intros [Hc Hl] [->|Hin]%elem_of_cons; [by eexists | by eapply IH].
Qed.

Lemma laid_out_le lo l hi : laid_out lo l hi -> lo <= hi.
Proof.
  revert lo. induction l as [|b l IH]; intros lo; simpl; [done|].
  intros (H1 & H2 & _ & _ & H3). apply IH in H3. unfold bend, HEADER_SIZE in H3. lia.
Qed.

Lemma laid_out_app lo l1 l2 hi :
  laid_out lo (l1 ++ l2) hi <-> exists mid, laid_out lo l1 mid /\ laid_out mid l2 hi.
Proof.
  revert lo. induction l1 as [|b l1 IH]; intros lo; simpl.
  - split; [intros Hl; exists lo; split; [lia | done]|].
    intros (mid & Hle & Hl). destruct l2 as [|c l2]; simpl in *; [lia|]. intuition lia.
  - rewrite IH. naive_solver.
Qed.

Lemma laid_out_weaken lo l hi lo' hi' : lo' <= lo -> hi <= hi' -> laid_out lo l hi -> laid_out lo' l hi'.
Proof.
  intros H1 H2. revert lo lo' H1. induction l as [|b l IH]; intros lo lo' H1; simpl; [lia|].
  intros (Ha & Hb & Hc & Hd & He). split_and!; try done; [lia|]. by apply (IH (bend b)).
Qed.

Lemma laid_out_in lo l hi b : laid_out lo l hi -> b ∈ l ->
  lo <= addr b /\ bend b <= hi /\ 0 <= bsz b /\ addr b mod ALIGNMENT = 0 /\ bsz b mod ALIGNMENT = 0.
Proof.
  revert lo. induction l as [|c l IH]; intros lo; simpl; [by intros _ ?%not_elem_of_nil|].
  intros (H1 & H2 & H3 & H4 & H5) [->|Hin]%elem_of_cons.
  - pose proof (laid_out_le _ _ _ H5). intuition.
  - destruct (IH _ H5 Hin) as (? & ? & ? & ? & ?). unfold bend, HEADER_SIZE in *. intuition lia.
Qed.

(** The blocks on both sides of [b]. *)
Lemma laid_out_mid lo l1 b l2 hi : laid_out lo (l1 ++ b :: l2) hi ->
  (forall c, c ∈ l1 -> bend c <= addr b) /\ (forall c, c ∈ l2 -> bend b <= addr c) /\
  lo <= addr b /\ 0 <= bsz b /\ bend b <= hi.
Proof.
  rewrite laid_out_app. intros (mid & H1 & H2). simpl in H2. destruct H2 as (Ha & Hb & _ & _ & H2).
  pose proof (laid_out_le _ _ _ H1). pose proof (laid_out_le _ _ _ H2). split_and!; try lia.
  - intros c Hc. apply (laid_out_in _ _ _ _ H1) in Hc. lia.
  - intros c Hc. apply (laid_out_in _ _ _ _ H2) in Hc. lia.
Qed.

Lemma laid_out_nodup lo l hi : laid_out lo l hi -> NoDup (addr <$> l).
Proof.
  revert lo. induction l as [|b l IH]; intros lo Hl; simpl; [constructor|].
  pose proof (laid_out_mid lo [] b l hi Hl) as (_ & Hn & _ & Hb & _). constructor.
  - intros (c & E & Hc)%list_elem_of_fmap. specialize (Hn c Hc). unfold bend, HEADER_SIZE in Hn. lia.
  - destruct Hl as (_ & _ & _ & _ & Hl). by eapply IH.
Qed.

Lemma chain_length hs p l nx lo hi : chain hs p l nx -> laid_out lo l hi -> (length l <= size hs)%nat.
Proof.
  intros Hc Hl. rewrite <- (length_fmap addr l), <- size_dom.
  rewrite <- (size_list_to_set (C := gset Z)) by (by eapply laid_out_nodup).
  apply subseteq_size. intros a (b & -> & Hb)%elem_of_list_to_set%list_elem_of_fmap.
  apply elem_of_dom. by eapply chain_dom.
Qed.
End heap.
