(* ===== verification/HeapProofs.v ===== *)
(** Proofs about the kernel heap of [Heap]: the pointer operations implement
    the operations on the list of blocks, and these keep the heap laid out. *)

From S2P Require Import Prelude Pmm Vmm VmmProofs AddressSpace Heap.

(** ** Rounding *)

Lemma alignUp_pow2 v k : 0 <= k <= 64 -> 0 <= v -> v + 2 ^ k - 1 < 2 ^ 64 ->
  alignUp v (2 ^ k) = (v + 2 ^ k - 1) / 2 ^ k * 2 ^ k.
Proof.
  intros Hk Hv Hlt. unfold alignUp. pose proof (Z.pow_pos_nonneg 2 k ltac:(lia) ltac:(lia)).
  rewrite u64_small by lia. apply land_floor; lia.
Qed.

Lemma alignUp_spec v a : a = ALIGNMENT \/ a = PAGE_SIZE -> 0 <= v < 2 ^ 63 ->
  v <= alignUp v a < v + a /\ alignUp v a mod a = 0.
Proof.
  intros Ha Hv. assert (exists k, 0 <= k <= 12 /\ a = 2 ^ k) as (k & Hk & ->).
  { destruct Ha as [-> | ->]; [exists 4 | exists 12]; done. }
  pose proof (Z.pow_pos_nonneg 2 k ltac:(lia) ltac:(lia)).
  assert (2 ^ k <= 2 ^ 12) by (apply Z.pow_le_mono_r; lia).
  rewrite alignUp_pow2 by lia. rewrite Z.mod_mul by lia.
  pose proof (Z.div_mod (v + 2 ^ k - 1) (2 ^ k) ltac:(lia)).
  pose proof (Z.mod_pos_bound (v + 2 ^ k - 1) (2 ^ k) ltac:(lia)). lia.
Qed.

Lemma alignUp_id v : 0 <= v < 2 ^ 63 -> v mod ALIGNMENT = 0 -> alignUp v ALIGNMENT = v.
Proof.
  intros Hv Hm. destruct (alignUp_spec v ALIGNMENT ltac:(by left) Hv) as [H1 H2].
  unfold ALIGNMENT in *. Z.to_euclidean_division_equations. lia.
Qed.

Section heap_proofs.
Context {M : Type} `{PageMapper M}.
Implicit Types st : HeapState M.

(** ** Header accesses *)

Lemma hset_ok a h st : in_heap a st = true -> hset a h st = Ok (with_headers st (<[a := h]> (headers st))).
Proof. intros E. unfold hset. by rewrite E. Qed.

Lemma hget_ok a h st : in_heap a st = true -> headers st !! a = Some h -> hget a st = Ok h.
Proof. intros E Hh. unfold hget. by rewrite E, Hh. Qed.

Lemma hmod_ok a f h st : in_heap a st = true -> headers st !! a = Some h ->
  hmod a f st = Ok (with_headers st (<[a := f h]> (headers st))).
Proof. intros E Hh. unfold hmod. rewrite (hget_ok a h st E Hh). simpl. by apply hset_ok. Qed.

(** Every block of [l] has its header inside the mapped heap. *)
Definition inside st (l : list Block) : Prop := forall b, b ∈ l -> in_heap (addr b) st = true /\ addr b <> 0.

Lemma laid_out_inside st l lo hi : HEAP_START <= lo -> hi <= g_heap_mapped_end st ->
  laid_out lo l hi -> inside st l.
Proof.
  intros Hlo Hhi Hl b Hb. destruct (laid_out_in _ _ _ _ Hl Hb) as (H1 & H2 & H3 & _).
  unfold in_heap. rewrite andb_true_iff, !Z.leb_le. unfold bend, HEADER_SIZE, HEAP_START in *. lia.
Qed.

Lemma inside_app st l1 l2 : inside st (l1 ++ l2) <-> inside st l1 /\ inside st l2.
Proof. unfold inside. setoid_rewrite elem_of_app. naive_solver. Qed.

Lemma chain_ext hs hs' p l nx : (forall b, b ∈ l -> hs' !! addr b = hs !! addr b) ->
  chain hs p l nx -> chain hs' p l nx.
Proof.
  revert p. induction l as [|b l IH]; intros p Hag; simpl; [done|]. intros [Hb Hc]. split.
  - rewrite Hag; [done | by left].
  - apply IH; [|done]. intros c Hin. apply Hag. by right.
Qed.

(** [if (next) next->prev = q;] on the chain that starts at [next]. *)
Lemma relink_prev st p q l :
  chain (headers st) p l 0 -> inside st l -> NoDup (addr <$> l) ->
  exists hs', (if negb (hd_addr l 0 =? 0) then hmod (hd_addr l 0) (set_prev q) st else mret st) =
      Ok (with_headers st hs') /\
    chain hs' q l 0 /\ (forall a, (forall b, b ∈ l -> addr b <> a) -> hs' !! a = headers st !! a).
Proof.
  intros Hc Hin Hnd. destruct l as [|b l]; simpl hd_addr.
  { exists (headers st). destruct st. by split_and!. }
  destruct (Hin b) as [Hb Hne]; [by left|]. simpl in Hc. destruct Hc as [Hh Hc].
  rewrite (proj2 (Z.eqb_neq _ _) Hne). simpl negb. cbv iota.
  exists (<[addr b := mkBlock (bsz b) (bfr b) (hd_addr l 0) q]> (headers st)). split_and!.
  - by rewrite (hmod_ok _ _ _ _ Hb Hh).
  - split; [by rewrite lookup_insert_eq|]. apply chain_insert_out; [|done].
    intros c Hc' E. simpl in Hnd. apply list.NoDup_cons in Hnd as [Hni _]. apply Hni.
    rewrite <- E. by apply list_elem_of_fmap_2.
  - intros a Ha. rewrite lookup_insert_ne; [done|]. apply Ha. by left.
Qed.

(** ** Searching *)

Definition fits (size : Z) (b : Block) : bool := bfr b && (size <=? bsz b).

Lemma alloc_blocks_inv size l a r : alloc_blocks size l = Some (a, r) ->
  exists l1 b l2, l = l1 ++ b :: l2 /\ fits size b = true /\ a = addr b /\ r = l1 ++ carve size b ++ l2 /\
    Forall (fun c => fits size c = false) l1.
Proof.
  revert a r. induction l as [|b l IH]; intros a r; simpl; [done|]. fold (fits size b).
  destruct (fits size b) eqn:Hf.
  - intros [= <- <-]. by exists [], b, l.
  - destruct (alloc_blocks size l) as [[a' r']|] eqn:E; [|done]. intros [= <- <-].
    destruct (IH a' r' eq_refl) as (l1 & c & l2 & -> & Hc & -> & -> & Hl1).
    exists (b :: l1), c, l2. split_and!; try done. by constructor.
Qed.

Lemma alloc_blocks_none size l : alloc_blocks size l = None <-> Forall (fun c => fits size c = false) l.
Proof.
  induction l as [|b l IH]; simpl; [by split|]. fold (fits size b). rewrite Forall_cons_iff.
  destruct (fits size b); [split; [done | by intros [? _]]|].
  destruct (alloc_blocks size l) as [[]|]; naive_solver.
Qed.

Lemma find_fit_ok st size l p fuel : chain (headers st) p l 0 -> inside st l -> (length l < fuel)%nat ->
  find_fit fuel size (hd_addr l 0) st =
    Ok (match alloc_blocks size l with Some (a, _) => a | None => 0 end).
Proof.
  revert p fuel. induction l as [|b l IH]; intros p fuel Hc Hin Hf; (destruct fuel as [|fuel]; [lia|]);
    simpl; [done|].
  destruct (Hin b) as [Hb Hne]; [by left|]. destruct Hc as [Hh Hc].
  rewrite (proj2 (Z.eqb_neq _ _) Hne). rewrite (hget_ok _ _ _ Hb Hh). simpl.
  destruct (bfr b && (size <=? bsz b)); [done|].
  rewrite (IH (addr b)); [|done| |simpl in Hf; lia].
  - by destruct (alloc_blocks size l) as [[]|].
  - intros c Hc'. apply Hin. by right.
Qed.

Lemma find_tail_ok st l p fuel : chain (headers st) p l 0 -> inside st l -> l <> [] ->
  (length l <= fuel)%nat -> find_tail fuel (hd_addr l 0) st = Ok (last_addr p l).
Proof.
  revert p fuel. induction l as [|b l IH]; intros p fuel Hc Hin Hne Hf; [done|].
  simpl in Hf. destruct fuel as [|fuel]; [lia|]. simpl.
  destruct (Hin b) as [Hb _]; [by left|]. destruct Hc as [Hh Hc].
  rewrite (hget_ok _ _ _ Hb Hh). simpl. destruct l as [|c l]; [done|]. simpl hd_addr.
  destruct (Hin c) as [_ Hc0]; [by right; left|]. rewrite (proj2 (Z.eqb_neq _ _) Hc0).
  apply (IH (addr b)); [done | | done | simpl in *; lia]. intros d Hd. apply Hin. by right.
Qed.

(** ** Taking a block *)

Lemma in_heap_addr a st : HEAP_START <= a -> a + HEADER_SIZE <= g_heap_mapped_end st -> in_heap a st = true.
Proof. intros. unfold in_heap. by rewrite andb_true_iff, !Z.leb_le. Qed.

Lemma carve_layout size b lo hi l : 0 <= size -> size mod ALIGNMENT = 0 -> size <= bsz b ->
  laid_out lo (b :: l) hi -> laid_out lo (carve size b ++ l) hi.
Proof.
  intros Hs Hm Hle. cbn [laid_out]. intros (H1 & H2 & H3 & H4 & H5). unfold carve. case_if.
  - simpl. unfold bend in *. simpl in *. unfold HEADER_SIZE, ALIGNMENT in *.
    replace (addr b + 32 + size + 32 + (bsz b - size - 32)) with (addr b + 32 + bsz b) by lia.
    split_and!; try done; try lia; Z.to_euclidean_division_equations; lia.
  - simpl. unfold bend in *. simpl. by split_and!.
Qed.

Lemma rep_update st l l' hs' : heap_rep st l -> chain hs' 0 l' 0 -> hd_addr l' 0 = hd_addr l 0 ->
  l' <> [] -> laid_out HEAP_START l' (g_heap_mapped_end st) -> heap_rep (with_headers st hs') l'.
Proof. intros [] Hc Hh Hn Hl. split; try done. simpl. congruence. Qed.

(** The facts about the block in the middle that every operation starts from. *)
Record middle st (l1 : list Block) (b : Block) (l2 : list Block) : Prop := {
  mid_before : chain (headers st) 0 l1 (addr b);
  mid_header : headers st !! addr b = Some (mkBlock (bsz b) (bfr b) (hd_addr l2 0) (last_addr 0 l1));
  mid_after : chain (headers st) (addr b) l2 0;
  mid_inside1 : inside st l1;
  mid_inside : in_heap (addr b) st = true;
  mid_nonnull : addr b <> 0;
  mid_inside2 : inside st l2;
  mid_nodup : NoDup (addr <$> l2);
  mid_lt : forall c, c ∈ l1 -> addr c + HEADER_SIZE <= addr b;
  mid_gt : forall c, c ∈ l2 -> bend b <= addr c;
  mid_lo : HEAP_START <= addr b;
  mid_size : 0 <= bsz b;
  mid_hi : bend b <= g_heap_mapped_end st;
}.

Lemma rep_middle st l1 b l2 : heap_rep st (l1 ++ b :: l2) -> middle st l1 b l2.
Proof.
  intros [Hc _ _ Hl Hend _ _ _]. pose proof (laid_out_mid _ _ _ _ _ Hl) as (H1 & H2 & H3 & H4 & H5).
  pose proof (laid_out_inside st _ HEAP_START _ (Z.le_refl _) (Z.le_refl _) Hl) as Hin.
  apply inside_app in Hin as [Hi1 Hi2]. apply chain_app in Hc as [Hc1 [Hb Hc2]].
  split; try done.
  - by apply Hi2; left.
  - by apply Hi2; left.
  - intros c Hc. apply Hi2. by right.
  - pose proof (laid_out_nodup _ _ _ Hl) as Hnd. rewrite fmap_app in Hnd.
    apply list.NoDup_app in Hnd as (_ & _ & Hnd). by apply list.NoDup_cons in Hnd as [_ ?].
  - intros c Hin. destruct (laid_out_in _ _ _ c Hl) as (_ & _ & ? & _); [set_solver|].
    specialize (H1 c Hin). unfold bend in H1. lia.
Qed.

(** An address strictly inside the payload of [b], or [addr b], is no other
    block's. *)
Lemma middle_distinct st l1 b l2 a : middle st l1 b l2 -> addr b <= a < bend b ->
  (forall c, c ∈ l1 -> addr c <> a) /\ (forall c, c ∈ l2 -> addr c <> a).
Proof.
  intros Hm Ha. split; intros c Hc E.
  - pose proof (mid_lt _ _ _ _ Hm c Hc). unfold HEADER_SIZE in *. lia.
  - pose proof (mid_gt _ _ _ _ Hm c Hc). lia.
Qed.

(** [split_block] when there is room for a second block. *)
Lemma split_ok st l1 b l2 size : heap_rep st (l1 ++ b :: l2) -> bfr b = true -> 0 <= size ->
  size + HEADER_SIZE + ALIGNMENT <= bsz b ->
  let new := addr b + HEADER_SIZE + size in
  exists hs', split_block (addr b) size st = Ok (with_headers st hs') /\
    chain hs' 0 l1 (addr b) /\
    hs' !! addr b = Some (mkBlock size true new (last_addr 0 l1)) /\
    hs' !! new = Some (mkBlock (bsz b - size - HEADER_SIZE) true (hd_addr l2 0) (addr b)) /\
    chain hs' new l2 0.
Proof.
  intros Hrep Hfree Hs Hroom new. pose proof (rep_middle st l1 b l2 Hrep) as Hmid.
  pose proof Hmid as [Hc1 Hb Hc2 Hi1 Hib Hb0 Hi2 Hnd Hlt1 Hlt2 Hlo Hsz Hhi].
  pose proof (rep_end st _ Hrep) as Hend. rewrite Hfree in Hb.
  unfold bend, HEADER_SIZE, ALIGNMENT, HEAP_START, HEAP_MAX_SIZE in *.
  destruct (middle_distinct _ _ _ _ (addr b) Hmid) as [Hnb1 Hnb2]; [unfold bend, HEADER_SIZE; lia|].
  destruct (middle_distinct _ _ _ _ new Hmid) as [Hnn1 Hnn2]; [unfold bend, HEADER_SIZE; lia|].
  unfold split_block. run_call (hget_ok _ _ _ Hib Hb). cbn [bsize bnext].
  unfold HEADER_SIZE, ALIGNMENT. rewrite (u64_small (size + 32 + 16)) by lia. case_if; [|lia].
  rewrite (u64_small (addr b + 32 + size)) by lia. rewrite (u64_small (bsz b - size - 32)) by lia.
  fold new. assert (Hnew : in_heap new st = true) by (apply in_heap_addr; unfold HEAP_START, HEADER_SIZE; lia).
  run_call (hset_ok new (mkBlock (bsz b - size - 32) true (hd_addr l2 0) (addr b)) st Hnew).
  set (st1 := with_headers st _).
  destruct (relink_prev st1 (addr b) new l2) as (hs2 & E2 & Hch2 & Hag2); [|done|done|].
  { by apply chain_insert_out. }
  run_call E2.
  assert (Hb2 : hs2 !! addr b = Some (mkBlock (bsz b) true (hd_addr l2 0) (last_addr 0 l1))).
  { rewrite Hag2 by done. simpl. by rewrite lookup_insert_ne by lia. }
  erewrite hmod_ok; [|exact Hib|exact Hb2]. cbn [mbind outcome_bind].
  erewrite hmod_ok; [|exact Hib|simpl; apply lookup_insert_eq].
  unfold with_headers, set_size, set_next; cbn [headers bsize bfree bnext bprev].
  rewrite insert_insert_eq, (u64_small size) by lia.
  eexists. split; [reflexivity|]. split_and!.
  - apply chain_insert_out; [done|]. apply (chain_ext (headers st)); [|done]. intros c Hc.
    rewrite Hag2; [simpl; apply lookup_insert_ne, not_eq_sym; auto|].
    intros d Hd E. specialize (Hlt1 c Hc). specialize (Hlt2 d Hd). lia.
  - by rewrite lookup_insert_eq.
  - rewrite lookup_insert_ne by lia. rewrite Hag2 by done. simpl. by rewrite lookup_insert_eq.
  - by apply chain_insert_out.
Qed.

Lemma take_ok st l1 b l2 size : heap_rep st (l1 ++ b :: l2) -> fits size b = true ->
  0 <= size -> size mod ALIGNMENT = 0 ->
  exists hs', (st1 ← split_block (addr b) size st; hmod (addr b) (set_free false) st1) =
      Ok (with_headers st hs') /\ heap_rep (with_headers st hs') (l1 ++ carve size b ++ l2).
Proof.
  intros Hrep Hfit Hs Hm. apply andb_true_iff in Hfit as [Hfree Hle%Z.leb_le].
  pose proof (rep_middle st l1 b l2 Hrep) as Hmid. pose proof (mid_header _ _ _ _ Hmid) as Hb.
  pose proof (mid_inside _ _ _ _ Hmid) as Hib. pose proof (mid_size _ _ _ _ Hmid) as Hsz.
  destruct (middle_distinct _ _ _ _ (addr b) Hmid) as [Hnb1 Hnb2]; [unfold bend, HEADER_SIZE; lia|].
  assert (Hlay : laid_out HEAP_START (l1 ++ carve size b ++ l2) (g_heap_mapped_end st)).
  { pose proof (rep_layout st _ Hrep) as Hl. apply laid_out_app in Hl as (mid & Hl1 & Hl2).
    apply laid_out_app. exists mid. split; [done|]. by apply carve_layout. }
  assert (Hhd : hd_addr (l1 ++ carve size b ++ l2) 0 = hd_addr (l1 ++ b :: l2) 0).
  { rewrite !hd_addr_app. unfold carve. by case_if. }
  assert (Hne : l1 ++ carve size b ++ l2 <> []) by (unfold carve; destruct l1; [by case_if | done]).
  unfold carve in *. destruct (Z.leb_spec (size + HEADER_SIZE + ALIGNMENT) (bsz b)).
  - destruct (split_ok st l1 b l2 size Hrep Hfree Hs) as (hs1 & E1 & Hc1 & Hb1 & Hn1 & Hc2); [done|].
    run_call E1. erewrite hmod_ok; [|exact Hib|exact Hb1]. eexists. split; [reflexivity|].
    pose proof (mid_gt _ _ _ _ Hmid). unfold bend, HEADER_SIZE in *.
    apply (rep_update st (l1 ++ b :: l2)); try done. apply chain_app. split; [|simpl; split_and!].
    + by apply chain_insert_out.
    + by rewrite lookup_insert_eq.
    + by rewrite lookup_insert_ne by lia.
    + by apply chain_insert_out.
  - unfold split_block. run_call (hget_ok _ _ _ Hib Hb). cbn [bsize].
    pose proof (mid_hi _ _ _ _ Hmid). pose proof (mid_lo _ _ _ _ Hmid). pose proof (rep_end st _ Hrep).
    unfold bend, HEADER_SIZE, ALIGNMENT, HEAP_START, HEAP_MAX_SIZE in *.
    rewrite u64_small by lia. case_if; [lia|]. cbn [mbind outcome_bind mret outcome_ret].
    erewrite hmod_ok; [|exact Hib|exact Hb]. eexists. split; [reflexivity|].
    apply (rep_update st (l1 ++ b :: l2)); try done. apply chain_app. split; [|simpl; split_and!].
    + apply chain_insert_out; [done|]. apply Hmid.
    + by rewrite lookup_insert_eq.
    + apply chain_insert_out; [done|]. apply Hmid.
Qed.

(** ** Growing *)

(** [st'] is [st] with [n] more pages mapped at its end. *)
Record grown st st' (n : Z) : Prop := {
  grown_headers : headers st' = headers st;
  grown_first : g_first_block st' = g_first_block st;
  grown_end : g_heap_mapped_end st' = g_heap_mapped_end st + n * PAGE_SIZE;
  grown_vm : pm_ok (vm st');
  grown_room : (pm_room (vm st) <= Z.to_nat (4 * n) + pm_room (vm st'))%nat;
  grown_mapped : forall va, HEAP_START <= va < g_heap_mapped_end st' -> pm_mapped (vm st') va;
}.

(** What growing needs of the heap, initialised or not. *)
Record growable st : Prop := {
  gr_end : HEAP_START <= g_heap_mapped_end st <= HEAP_START + HEAP_MAX_SIZE;
  gr_page : g_heap_mapped_end st mod PAGE_SIZE = 0;
  gr_vm : pm_ok (vm st);
  gr_mapped : forall va, HEAP_START <= va < g_heap_mapped_end st -> pm_mapped (vm st) va;
}.

Lemma rep_growable st l : heap_rep st l -> growable st.
Proof. intros []. by split. Qed.

Lemma grow_step st t n k : growable st -> 0 <= k < n ->
  g_heap_mapped_end st + n * PAGE_SIZE <= HEAP_START + HEAP_MAX_SIZE ->
  (Z.to_nat (4 * n) <= pm_room (vm st))%nat -> grown st t k ->
  exists t', grow_page k (true, t) = Ok (true, t') /\ grown st t' (k + 1).
Proof.
  intros [Ge Gp Gv Gm] Hk Hmax Hroom [Hh Hf He Hv Hr Hm].
  unfold HEAP_START, HEAP_MAX_SIZE, PAGE_SIZE in *.
  destruct (pm_map_some (g_heap_mapped_end t) (vm t)) as (m' & E & Hok & Hr' & Hnew & Hkeep).
  { split; unfold HEAP_START, HEAP_MAX_SIZE, PAGE_SIZE; [lia|]. rewrite He, Z.mod_add by lia. done. }
  { done. }
  { lia. }
  eexists. split.
  - unfold grow_page. cbn [negb]. run_call E. reflexivity.
  - unfold PAGE_SIZE in *. rewrite u64_small by lia. split; simpl; try done; unfold PAGE_SIZE; try lia.
    intros va Hva. destruct (decide (va < g_heap_mapped_end t)).
    + apply Hkeep; [unfold HEAP_START, HEAP_MAX_SIZE in *; lia|]. apply Hm. unfold HEAP_START in *. lia.
    + apply Hnew. unfold HEAP_START in *. lia.
Qed.

Lemma grow_pages_ok st n : growable st -> 0 <= n ->
  g_heap_mapped_end st + n * PAGE_SIZE <= HEAP_START + HEAP_MAX_SIZE ->
  (Z.to_nat (4 * n) <= pm_room (vm st))%nat ->
  exists st', for_range 0 n grow_page (true, st) = Ok (true, st') /\ grown st st' n.
Proof.
  intros Hg Hn Hmax Hroom.
  destruct (for_range_rule (fun k r => fst r = true /\ grown st (snd r) k) 0 n grow_page (true, st))
    as ([g st'] & E & Hg1 & Hg2).
  - lia.
  - split; [done|]. split; try done; simpl; try lia; apply Hg.
  - intros k [g t] Hk [Hg1 Hg2]. simpl in *. subst g.
    destruct (grow_step st t n k Hg Hk Hmax Hroom Hg2) as (t' & E & Ht'). by exists (true, t').
  - simpl in *. subst g. by exists st'.
Qed.

Lemma growHeap_ok st mb : growable st -> 0 < mb <= 2 * HEAP_MAX_SIZE ->
  let n := alignUp mb PAGE_SIZE / PAGE_SIZE in
  g_heap_mapped_end st + n * PAGE_SIZE <= HEAP_START + HEAP_MAX_SIZE ->
  (Z.to_nat (4 * n) <= pm_room (vm st))%nat ->
  exists st', growHeap mb st = Ok (true, st') /\ grown st st' n.
Proof.
  intros Hg Hmb n Hmax Hroom. pose proof (gr_end st Hg) as Hend. unfold HEAP_MAX_SIZE, HEAP_START in *.
  destruct (alignUp_spec mb PAGE_SIZE ltac:(by right) ltac:(lia)) as [Hr Hm].
  assert (Ea : alignUp mb PAGE_SIZE = n * PAGE_SIZE).
  { subst n. unfold PAGE_SIZE in *. Z.to_euclidean_division_equations. lia. }
  unfold growHeap. rewrite Ea. unfold HEAP_MAX_SIZE, HEAP_START, PAGE_SIZE in *.
  rewrite u64_small by lia. case_if; [lia|]. rewrite Z.div_mul by lia.
  apply grow_pages_ok; try done; try lia.
Qed.

Lemma growHeap_limit st mb : growable st -> 0 < mb <= 2 * HEAP_MAX_SIZE ->
  HEAP_START + HEAP_MAX_SIZE < g_heap_mapped_end st + alignUp mb PAGE_SIZE ->
  growHeap mb st = Ok (false, st).
Proof.
  intros Hg Hmb Hmax. pose proof (gr_end st Hg) as Hend. unfold HEAP_MAX_SIZE, HEAP_START in *.
  destruct (alignUp_spec mb PAGE_SIZE ltac:(by right) ltac:(lia)) as [Hr Hm].
  unfold growHeap, HEAP_MAX_SIZE, HEAP_START, PAGE_SIZE in *. rewrite u64_small by lia. by case_if; [|lia].
Qed.

(** A loop that has failed does nothing more. *)
Lemma grow_stopped l st : foldM grow_page l (false, st) = Ok (false, st).
Proof. induction l as [|k l IH]; [done|]. simpl. exact IH. Qed.

Lemma growHeap_no_frames st mb : growable st -> 0 < mb <= 2 * HEAP_MAX_SIZE ->
  g_heap_mapped_end st + alignUp mb PAGE_SIZE <= HEAP_START + HEAP_MAX_SIZE ->
  pm_room (vm st) = 0%nat ->
  exists m', growHeap mb st = Ok (false, mkHeap (headers st) (g_first_block st) (g_heap_current_end st)
      (g_heap_mapped_end st) m') /\ pm_ok m' /\ forall va, pm_mapped (vm st) va -> pm_mapped m' va.
Proof.
  intros Hg Hmb Hmax Hroom. pose proof (gr_end st Hg) as Hend. pose proof (gr_page st Hg) as Hpage.
  unfold HEAP_MAX_SIZE, HEAP_START in *.
  destruct (alignUp_spec mb PAGE_SIZE ltac:(by right) ltac:(lia)) as [Hr Hm].
  destruct (pm_map_none (g_heap_mapped_end st) (vm st)) as (m' & E & Hok & Hkeep);
    [|apply Hg|done|].
  { split; [unfold HEAP_MAX_SIZE, HEAP_START; lia | done]. }
  exists m'. split; [|done].
  unfold growHeap, for_range, HEAP_MAX_SIZE, HEAP_START, PAGE_SIZE in *.
  rewrite u64_small by lia. case_if; [lia|]. rewrite Z.sub_0_r.
  rewrite seqZ_cons by (Z.to_euclidean_division_equations; lia). cbn [foldM].
  assert (E1 : grow_page 0 (true, st) = Ok (false, mkHeap (headers st) (g_first_block st)
      (g_heap_current_end st) (g_heap_mapped_end st) m')) by (unfold grow_page; cbn [negb]; by run_call E).
  run_call E1. apply grow_stopped.
Qed.

(** ** Appending the new region *)

Lemma chain_set_last hs p l1 t nx nx' : (forall c, c ∈ l1 -> addr c <> addr t) ->
  chain hs p (l1 ++ [t]) nx ->
  chain (<[addr t := mkBlock (bsz t) (bfr t) nx' (last_addr p l1)]> hs) p (l1 ++ [t]) nx'.
Proof.
  intros Hne [Hc [Hb _]]%chain_app. apply chain_app. split; [by apply chain_insert_out|].
  split; [by rewrite lookup_insert_eq | done].
Qed.

Lemma last_addr_app p l1 t : last_addr p (l1 ++ [t]) = addr t.
Proof. revert p. induction l1 as [|b l1 IH]; intros p; [done|]. apply IH. Qed.

Lemma append_ok st st1 l n : heap_rep st l -> grown st st1 n -> 1 <= n ->
  g_heap_mapped_end st1 <= HEAP_START + HEAP_MAX_SIZE ->
  let new := g_heap_mapped_end st in
  exists hs', append_block new st1 = Ok (with_headers st1 hs') /\
    heap_rep (with_headers st1 hs') (l ++ [mkB new (n * PAGE_SIZE - HEADER_SIZE) true]).
Proof.
  intros Hrep Hgr Hn Hmax new. pose proof Hrep as [Hc Hf Hne Hlay Hend Hpg _ _].
  destruct Hgr as [Gh Gf Ge Gv _ Gm]. pose proof (laid_out_inside st1 l HEAP_START new) as Hin.
  destruct (exists_last Hne) as (l1 & t & ->).
  assert (Hin' : inside st1 (l1 ++ [t])).
  { apply Hin; [done | unfold new, PAGE_SIZE in *; lia | done]. } clear Hin.
  assert (Hlt : forall c, c ∈ l1 ++ [t] -> addr c <> new).
  { intros c Hc'. destruct (laid_out_in _ _ _ _ Hlay Hc') as (? & Hb & ? & _).
    unfold bend, HEADER_SIZE in Hb. subst new. lia. }
  unfold append_block.
  assert (Hnew : in_heap new st1 = true) by (apply in_heap_addr; unfold PAGE_SIZE, HEADER_SIZE in *; lia).
  assert (Esz : u64 (g_heap_mapped_end st1 - new - HEADER_SIZE) = n * PAGE_SIZE - HEADER_SIZE).
  { subst new. unfold PAGE_SIZE, HEADER_SIZE, HEAP_START, HEAP_MAX_SIZE in *. rewrite u64_small; lia. }
  rewrite Esz.
  run_call (hset_ok new (mkBlock (n * PAGE_SIZE - HEADER_SIZE) true 0 0) st1 Hnew).
  set (st2 := with_headers st1 _).
  assert (Hc2 : chain (headers st2) 0 (l1 ++ [t]) 0).
  { simpl. rewrite Gh. by apply chain_insert_out. }
  assert (Etail : find_tail (list_fuel st2) (g_first_block st2) st2 = Ok (addr t)).
  { change (g_first_block st2) with (g_first_block st1). rewrite Gf, Hf, <- (last_addr_app 0 l1 t).
    apply find_tail_ok; try done. unfold list_fuel.
    pose proof (chain_length _ _ _ _ _ _ Hc2 Hlay). lia. }
  run_call Etail. pose proof Hc2 as [Hc21 [Hbt _]]%chain_app. simpl hd_addr in *.
  destruct (Hin' t) as [Hit _]; [set_solver|].
  erewrite hmod_ok; [|exact Hit|exact Hbt]. cbn [mbind outcome_bind].
  assert (Htn : addr t <> new) by (apply Hlt; set_solver).
  erewrite hmod_ok; [|exact Hnew|]. 2:{ simpl. rewrite lookup_insert_ne by done. apply lookup_insert_eq. }
  eexists. split; [reflexivity|].
  unfold set_next, set_prev. cbn [bsize bfree bnext bprev with_headers headers].
  split; simpl; try done.
  - apply chain_app. split.
    + apply chain_insert_out; [done|]. apply (chain_set_last _ 0 l1 t 0); [|done].
      intros c Hc'. pose proof (laid_out_mid _ l1 t [] _ Hlay) as (H1 & _).
      specialize (H1 c Hc'). destruct (laid_out_in _ _ _ c Hlay) as (_ & _ & ? & _); [set_solver|].
      unfold bend, HEADER_SIZE in *. lia.
    + split; [|done]. rewrite last_addr_app, lookup_insert_eq. done.
  - rewrite Gf, Hf. by destruct l1.
  - by destruct l1.
  - apply laid_out_app. exists new. split; [done|]. simpl. unfold bend. simpl.
    unfold HEADER_SIZE, ALIGNMENT, PAGE_SIZE in *. rewrite Ge.
    split_and!; try lia; Z.to_euclidean_division_equations; lia.
  - unfold PAGE_SIZE in *. lia.
  - rewrite Ge, Z.mod_add by done. done.
Qed.

(** ** Releasing a block *)

(** Rewriting the header of [b] in place. *)
Lemma rep_set_block st l1 b b' l2 : heap_rep st (l1 ++ b :: l2) -> addr b' = addr b ->
  0 <= bsz b' -> bsz b' mod ALIGNMENT = 0 -> bend b' <= bend b ->
  heap_rep (with_headers st (<[addr b := mkBlock (bsz b') (bfr b') (hd_addr l2 0) (last_addr 0 l1)]>
    (headers st))) (l1 ++ b' :: l2).
Proof.
  intros Hrep Ha Hs Hm He. pose proof (rep_middle st l1 b l2 Hrep) as Hmid.
  destruct (middle_distinct _ _ _ _ (addr b) Hmid) as [Hn1 Hn2].
  { pose proof (mid_size _ _ _ _ Hmid). unfold bend, HEADER_SIZE. lia. }
  apply (rep_update st (l1 ++ b :: l2)); try done.
  - apply chain_app. simpl. rewrite Ha. split_and!.
    + apply chain_insert_out; [done|]. apply Hmid.
    + by rewrite lookup_insert_eq.
    + apply chain_insert_out; [done|]. apply Hmid.
  - rewrite !hd_addr_app. simpl. by rewrite Ha.
  - by destruct l1.
  - pose proof (rep_layout st _ Hrep) as (mid & Hl1 & Hl2)%laid_out_app. apply laid_out_app.
    exists mid. split; [done|]. simpl in *. rewrite Ha. destruct Hl2 as (? & ? & ? & ? & Hl2).
    split_and!; try done. by apply (laid_out_weaken (bend b) _ (g_heap_mapped_end st)); [|lia|].
Qed.

Lemma absorb_ok st l1 b c l2 : heap_rep st (l1 ++ b :: c :: l2) ->
  exists hs', absorb (addr b) (mkBlock (bsz c) (bfr c) (hd_addr l2 0) (addr b)) st =
      Ok (with_headers st hs') /\
    heap_rep (with_headers st hs') (l1 ++ mkB (addr b) (bsz b + (HEADER_SIZE + bsz c)) (bfr b) :: l2).
Proof.
  intros Hrep. pose proof (rep_middle st l1 b (c :: l2) Hrep) as Hmid.
  pose proof Hmid as [Hc1 Hb Hc2 Hi1 Hib Hb0 Hi2 Hnd Hlt Hgt Hlo Hsz Hhi].
  simpl in Hc2. destruct Hc2 as [Hc Hc2]. simpl fmap in Hnd. apply list.NoDup_cons in Hnd as [_ Hnd].
  destruct (middle_distinct _ _ _ _ (addr b) Hmid) as [Hn1 Hn2]; [unfold bend, HEADER_SIZE; lia|].
  pose proof (rep_layout st _ Hrep) as (mid & Hl1 & Hl2)%laid_out_app. simpl in Hl2.
  destruct Hl2 as (A1 & A2 & A3 & A4 & B1 & B2 & B3 & B4 & Hl2). pose proof (laid_out_le _ _ _ Hl2) as Hcend.
  pose proof (rep_end st _ Hrep) as Hend.
  assert (Esz : u64 (bsz b + (HEADER_SIZE + bsz c)) = bsz b + (HEADER_SIZE + bsz c)).
  { unfold bend, HEADER_SIZE, HEAP_START, HEAP_MAX_SIZE in *. apply u64_small. lia. }
  unfold absorb. cbn [bnext bsize].
  erewrite hmod_ok; [|exact Hib|exact Hb]. cbn [mbind outcome_bind].
  erewrite hmod_ok; [|exact Hib|simpl; apply lookup_insert_eq]. cbn [mbind outcome_bind].
  set (s2 := with_headers _ _).
  destruct (relink_prev s2 (addr c) (addr b) l2) as (hs' & E & Hch & Hag).
  - simpl. rewrite insert_insert_eq. apply chain_insert_out; [|done]. intros d Hd. apply Hn2. by right.
  - intros d Hd. apply (Hi2 d). by right.
  - done.
  - rewrite E. exists hs'. split; [done|].
    apply (rep_update st (l1 ++ b :: c :: l2)); try done; [|by destruct l1|by destruct l1|].
    + assert (Hl2ne : forall d, d ∈ l2 -> addr d <> addr b) by (intros d Hd; apply Hn2; by right).
      apply chain_app. split; [|split; [|done]].
      * apply (chain_ext (headers st)); [|done]. intros d Hd. rewrite Hag.
        -- simpl. rewrite insert_insert_eq. apply lookup_insert_ne, not_eq_sym. by apply Hn1.
        -- intros e He Ee. specialize (Hlt d Hd). specialize (Hgt e ltac:(by right)).
           unfold bend, HEADER_SIZE in *. lia.
      * simpl. rewrite Hag by done. simpl. rewrite insert_insert_eq, lookup_insert_eq.
        unfold set_next, set_size. simpl bfree. simpl bprev. cbn [bsize]. by rewrite Esz.
    + apply laid_out_app. exists mid. split; [done|]. simpl. split_and!; try done.
      * unfold HEADER_SIZE. lia.
      * unfold HEADER_SIZE, ALIGNMENT in *. Z.to_euclidean_division_equations. lia.
      * apply (laid_out_weaken (bend c) _ (g_heap_mapped_end st)); [|lia|done].
        unfold bend. simpl. unfold bend in B1. lia.
Qed.

(** [p && p->free] for the first block of the chain that starts at [p]. *)
Lemma is_free_ok st p l : chain (headers st) p l 0 -> inside st l ->
  is_free (hd_addr l 0) st = Ok (match l with [] => false | b :: _ => bfr b end).
Proof.
  intros Hc Hin. destruct l as [|b l]; [done|]. simpl hd_addr. unfold is_free.
  destruct (Hin b) as [Hb H0]; [by left|]. rewrite (proj2 (Z.eqb_neq _ _) H0). simpl negb. cbv iota.
  by run_call (hget_ok _ _ _ Hb (proj1 Hc)).
Qed.

Lemma merge_with_next_ok st l1 b l2 : heap_rep st (l1 ++ b :: l2) ->
  exists hs', merge_with_next (addr b) st = Ok (with_headers st hs') /\
    heap_rep (with_headers st hs') (l1 ++ merge_next b l2).
Proof.
  intros Hrep. pose proof (rep_middle st l1 b l2 Hrep) as Hmid.
  unfold merge_with_next. run_call (hget_ok _ _ _ (mid_inside _ _ _ _ Hmid) (mid_header _ _ _ _ Hmid)).
  cbn [bnext]. run_call (is_free_ok _ _ _ (mid_after _ _ _ _ Hmid) (mid_inside2 _ _ _ _ Hmid)).
  assert (Hsame : exists hs', mret st = Ok (with_headers st hs') /\ heap_rep (with_headers st hs') (l1 ++ b :: l2))
    by (exists (headers st); by destruct st).
  destruct l2 as [|c l2]; [done|]. simpl merge_next. destruct (bfr c) eqn:Hc; [|done].
  destruct (mid_after _ _ _ _ Hmid) as [Hhc _]. destruct (mid_inside2 _ _ _ _ Hmid c) as [Hic _]; [by left|].
  simpl hd_addr. run_call (hget_ok _ _ _ Hic Hhc). by apply absorb_ok.
Qed.

(** What [merge_with_prev] does at the block [b] after the blocks [l1]. *)
Definition merge_prev (l1 : list Block) (b : Block) (l2 : list Block) : list Block :=
  match rev l1 with
  | p :: r => if bfr p then rev r ++ mkB (addr p) (bsz p + (HEADER_SIZE + bsz b)) (bfr p) :: l2
              else l1 ++ b :: l2
  | [] => b :: l2
  end.

Lemma merge_with_prev_ok st l1 b l2 : heap_rep st (l1 ++ b :: l2) ->
  exists hs', merge_with_prev (addr b) st = Ok (with_headers st hs') /\
    heap_rep (with_headers st hs') (merge_prev l1 b l2).
Proof.
  intros Hrep. pose proof (rep_middle st l1 b l2 Hrep) as Hmid.
  unfold merge_with_prev. pose proof (mid_header _ _ _ _ Hmid) as Hb.
  run_call (hget_ok _ _ _ (mid_inside _ _ _ _ Hmid) Hb). cbn [bprev].
  assert (Hsame : exists hs', mret st = Ok (with_headers st hs') /\ heap_rep (with_headers st hs') (l1 ++ b :: l2))
    by (exists (headers st); by destruct st).
  destruct (rev l1) as [|p r] eqn:Er; apply (f_equal (@rev _)) in Er; rewrite rev_involutive in Er;
    unfold merge_prev; subst l1.
  - done.
  - simpl rev in *. rewrite rev_app_distr. simpl rev. rewrite last_addr_app in *. cbn [app].
    rewrite <- app_assoc in Hrep. simpl in Hrep. rewrite rev_involutive.
    pose proof (rep_middle st _ p _ Hrep) as Hmp.
    unfold is_free. rewrite (proj2 (Z.eqb_neq _ _) (mid_nonnull _ _ _ _ Hmp)). cbn [negb].
    run_call (hget_ok _ _ _ (mid_inside _ _ _ _ Hmp) (mid_header _ _ _ _ Hmp)). cbn [bfree].
    destruct (bfr p) eqn:Hp; [|done]. rewrite <- Hp. by apply absorb_ok.
Qed.

Lemma merge_prev_nil b l2 : merge_prev [] b l2 = b :: l2.
Proof. done. Qed.

Lemma merge_prev_snoc l0 p b l2 : merge_prev (l0 ++ [p]) b l2 =
  if bfr p then l0 ++ mkB (addr p) (bsz p + (HEADER_SIZE + bsz b)) (bfr p) :: l2 else (l0 ++ [p]) ++ b :: l2.
Proof. unfold merge_prev. rewrite rev_app_distr. simpl. by rewrite rev_involutive. Qed.

Lemma merge_prev_cons p q l b l2 : merge_prev (p :: q :: l) b l2 = p :: merge_prev (q :: l) b l2.
Proof.
  destruct (@exists_last _ (q :: l)) as (l0 & z & ->); [done|].
  change (p :: l0 ++ [z]) with ((p :: l0) ++ [z]). rewrite !merge_prev_snoc. by destruct (bfr z).
Qed.

Lemma merge_next_head b l2 : exists n r, merge_next b l2 = mkB (addr b) n (bfr b) :: r.
Proof. destruct l2 as [|c l2]; simpl; [|destruct (bfr c)]; destruct b; eauto. Qed.

Lemma free_block_mid l1 b l2 : (forall c, c ∈ l1 -> addr c <> addr b) ->
  free_block (addr b) (l1 ++ b :: l2) =
    match merge_next (mkB (addr b) (bsz b) true) l2 with b' :: r => merge_prev l1 b' r | [] => [] end.
Proof.
  destruct (merge_next_head (mkB (addr b) (bsz b) true) l2) as (n & r & E). rewrite E. simpl in E.
  induction l1 as [|p l1 IH]; intros Hne.
  - simpl. rewrite Z.eqb_refl. exact E.
  - destruct l1 as [|q l1].
    + simpl. rewrite (proj2 (Z.eqb_neq _ _)) by (apply Hne; by left). rewrite Z.eqb_refl.
      rewrite E. change [p] with ([] ++ [p]). rewrite merge_prev_snoc. simpl. by destruct (bfr p).
    + rewrite merge_prev_cons, <- IH by (intros c Hc; apply Hne; by right). simpl.
      rewrite (proj2 (Z.eqb_neq (addr p) _)) by (apply Hne; by left).
      by rewrite (proj2 (Z.eqb_neq (addr q) _)) by (apply Hne; by right; left).
Qed.

Lemma kfree_ok st l1 b l2 : heap_rep st (l1 ++ b :: l2) ->
  exists hs', kfree (addr b + HEADER_SIZE) st = Ok (with_headers st hs') /\
    heap_rep (with_headers st hs') (free_block (addr b) (l1 ++ b :: l2)).
Proof.
  intros Hrep. pose proof (rep_middle st l1 b l2 Hrep) as Hmid.
  pose proof (mid_lo _ _ _ _ Hmid) as Hlo. pose proof (mid_hi _ _ _ _ Hmid) as Hhi.
  pose proof (mid_size _ _ _ _ Hmid) as Hsz. pose proof (rep_end st _ Hrep) as Hend.
  unfold kfree. rewrite (proj2 (Z.eqb_neq _ _)) by (unfold HEAP_START, HEADER_SIZE in *; lia).
  replace (addr b + HEADER_SIZE - HEADER_SIZE) with (addr b) by lia.
  rewrite u64_small by (unfold bend, HEAP_START, HEADER_SIZE, HEAP_MAX_SIZE in *; lia).
  rewrite (hmod_ok _ _ _ _ (mid_inside _ _ _ _ Hmid) (mid_header _ _ _ _ Hmid)). cbn [mbind outcome_bind].
  pose proof (rep_set_block st l1 b (mkB (addr b) (bsz b) true) l2 Hrep) as Hrep1.
  pose proof (rep_layout st _ Hrep) as Hlay.
  destruct (laid_out_in _ _ _ b Hlay) as (_ & _ & _ & _ & Hmod); [set_solver|].
  specialize (Hrep1 eq_refl Hsz Hmod ltac:(unfold bend; simpl; lia)).
  unfold set_free. cbn [bsize bnext bprev]. set (st1 := with_headers st _) in *.
  destruct (merge_with_next_ok st1 l1 (mkB (addr b) (bsz b) true) l2 Hrep1) as (hs2 & E2 & Hrep2).
  cbn [addr] in E2. run_call E2.
  destruct (merge_next_head (mkB (addr b) (bsz b) true) l2) as (n & r & En). rewrite En in Hrep2.
  destruct (merge_with_prev_ok _ _ _ _ Hrep2) as (hs3 & E3 & Hrep3). exists hs3. split; [exact E3|].
  rewrite free_block_mid, En; [exact Hrep3|].
  intros c Hc. pose proof (mid_lt _ _ _ _ Hmid c Hc). unfold HEADER_SIZE in *. lia.
Qed.

(** ** Allocation *)

Lemma kmalloc_found st l size a l' fuel : heap_rep st l -> size <> 0 ->
  0 <= alignUp size ALIGNMENT -> alignUp size ALIGNMENT mod ALIGNMENT = 0 ->
  alloc_blocks (alignUp size ALIGNMENT) l = Some (a, l') ->
  exists hs', kmalloc_rec (S fuel) size st = Ok (a + HEADER_SIZE, with_headers st hs') /\
    heap_rep (with_headers st hs') l'.
Proof.
  intros Hrep Hs0 Hn Hm Ha. cbn [kmalloc_rec]. rewrite (proj2 (Z.eqb_neq _ _) Hs0). cbv zeta.
  pose proof (laid_out_inside st _ HEAP_START _ (Z.le_refl _) (Z.le_refl _) (rep_layout st l Hrep)) as Hin.
  rewrite (rep_first st l Hrep).
  assert (Ef : find_fit (list_fuel st) (alignUp size ALIGNMENT) (hd_addr l 0) st = Ok a).
  { rewrite (find_fit_ok st _ l 0), Ha; [done | apply Hrep | done |]. unfold list_fuel.
    pose proof (chain_length _ _ _ _ _ _ (rep_chain st l Hrep) (rep_layout st l Hrep)). lia. }
  run_call Ef. apply alloc_blocks_inv in Ha as (l1 & b & l2 & -> & Hfit & -> & -> & _).
  pose proof (rep_middle st l1 b l2 Hrep) as Hmid.
  rewrite (proj2 (Z.eqb_neq _ _) (mid_nonnull _ _ _ _ Hmid)). cbn [negb].
  destruct (take_ok st l1 b l2 _ Hrep Hfit Hn Hm) as (hs' & E & Hrep').
  exists hs'. split; [|done]. destruct (split_block (addr b) _ st) as [st1| |]; [|done..].
  cbn [mbind outcome_bind] in *. rewrite E. cbn [mbind outcome_bind mret outcome_ret].
  pose proof (mid_lo _ _ _ _ Hmid) as Hlo. pose proof (mid_hi _ _ _ _ Hmid) as Hhi.
  pose proof (mid_size _ _ _ _ Hmid) as Hsz. pose proof (rep_end st _ Hrep) as Hend.
  by rewrite u64_small by (unfold bend, HEAP_START, HEADER_SIZE, HEAP_MAX_SIZE in *; lia).
Qed.

Definition grow_bytes (n : Z) : Z := if n + HEADER_SIZE <? 4096 then 4096 else n + HEADER_SIZE.

(** The pages a request that no block fits asks for. *)
Definition grow_pages (size : Z) : Z :=
  alignUp (grow_bytes (alignUp size ALIGNMENT)) PAGE_SIZE / PAGE_SIZE.

Lemma kmalloc_grow_step st l size fuel : heap_rep st l -> 0 < size <= HEAP_MAX_SIZE ->
  alloc_blocks (alignUp size ALIGNMENT) l = None ->
  kmalloc_rec (S fuel) size st =
    ('(ok, st1) ← growHeap (grow_bytes (alignUp size ALIGNMENT)) st;
     if negb ok then mret (0, st1) else
     st2 ← append_block (g_heap_mapped_end st) st1;
     kmalloc_rec fuel (alignUp size ALIGNMENT) st2).
Proof.
  intros Hrep Hs Ha. cbn [kmalloc_rec]. rewrite (proj2 (Z.eqb_neq size 0)) by lia. cbv zeta.
  pose proof (laid_out_inside st _ HEAP_START _ (Z.le_refl _) (Z.le_refl _) (rep_layout st l Hrep)) as Hin.
  rewrite (rep_first st l Hrep).
  assert (Ef : find_fit (list_fuel st) (alignUp size ALIGNMENT) (hd_addr l 0) st = Ok 0).
  { rewrite (find_fit_ok st _ l 0), Ha; [done | apply Hrep | done |]. unfold list_fuel.
    pose proof (chain_length _ _ _ _ _ _ (rep_chain st l Hrep) (rep_layout st l Hrep)). lia. }
  run_call Ef. cbn [negb Z.eqb]. unfold HEAP_MAX_SIZE in Hs.
  destruct (alignUp_spec size ALIGNMENT ltac:(by left) ltac:(lia)) as [Hr _].
  rewrite u64_small by (set (n := alignUp size ALIGNMENT) in *; unfold ALIGNMENT, HEADER_SIZE in *; lia).
  done.
Qed.

Lemma grow_pages_bounds size : 0 < size <= HEAP_MAX_SIZE ->
  let n := alignUp size ALIGNMENT in
  0 < grow_bytes n <= 2 * HEAP_MAX_SIZE /\ 1 <= grow_pages size /\
  alignUp (grow_bytes n) PAGE_SIZE = grow_pages size * PAGE_SIZE /\
  n <= grow_pages size * PAGE_SIZE - HEADER_SIZE /\ 0 <= n /\ n mod ALIGNMENT = 0 /\ size <= n.
Proof.
  intros Hs n. unfold HEAP_MAX_SIZE in *.
  destruct (alignUp_spec size ALIGNMENT ltac:(by left) ltac:(lia)) as [Hr Hm]. fold n in Hr, Hm.
  assert (Hr' : n < size + 16) by (unfold ALIGNMENT in Hr; lia).
  assert (Hb : 4096 <= grow_bytes n /\ n + HEADER_SIZE <= grow_bytes n /\ grow_bytes n <= n + 32 + 4096).
  { unfold grow_bytes, HEADER_SIZE. case_if; lia. }
  destruct (alignUp_spec (grow_bytes n) PAGE_SIZE ltac:(by right)) as [Hr2 Hm2].
  { unfold HEADER_SIZE in Hb. lia. }
  unfold grow_pages. fold n. unfold HEADER_SIZE, PAGE_SIZE in *.
  assert (alignUp (grow_bytes n) 4096 / 4096 * 4096 = alignUp (grow_bytes n) 4096)
    by (Z.to_euclidean_division_equations; lia).
  split_and!; try lia; try done.
Qed.

Lemma kmalloc_grown st l size fuel : heap_rep st l -> 0 < size <= HEAP_MAX_SIZE ->
  alloc_blocks (alignUp size ALIGNMENT) l = None ->
  g_heap_mapped_end st + grow_pages size * PAGE_SIZE <= HEAP_START + HEAP_MAX_SIZE ->
  (Z.to_nat (4 * grow_pages size) <= pm_room (vm st))%nat ->
  let new := mkB (g_heap_mapped_end st) (grow_pages size * PAGE_SIZE - HEADER_SIZE) true in
  exists st', kmalloc_rec (S (S fuel)) size st = Ok (addr new + HEADER_SIZE, st') /\
    heap_rep st' (l ++ carve (alignUp size ALIGNMENT) new) /\
    g_heap_mapped_end st' = g_heap_mapped_end st + grow_pages size * PAGE_SIZE.
Proof.
  intros Hrep Hs Ha Hmax Hroom new.
  destruct (grow_pages_bounds size Hs) as (Hgb & Hg1 & Eg & Hfit & Hn0 & Hnm & Hle).
  rewrite (kmalloc_grow_step st l size) by done.
  destruct (growHeap_ok st _ (rep_growable st l Hrep) Hgb Hmax Hroom) as (st1 & E1 & Hgr).
  fold (grow_pages size) in Hgr. run_call E1. cbn [negb].
  destruct (append_ok st st1 l (grow_pages size) Hrep Hgr Hg1) as (hs2 & E2 & Hrep2).
  { rewrite (grown_end _ _ _ Hgr). done. }
  run_call E2. fold new in Hrep2.
  assert (Ea : alignUp (alignUp size ALIGNMENT) ALIGNMENT = alignUp size ALIGNMENT).
  { apply alignUp_id; [|done]. unfold PAGE_SIZE, HEADER_SIZE, HEAP_START, HEAP_MAX_SIZE in *.
    pose proof (rep_end st l Hrep). unfold HEAP_START in *. lia. }
  destruct (kmalloc_found (with_headers st1 hs2) (l ++ [new]) (alignUp size ALIGNMENT)
    (addr new) (l ++ carve (alignUp size ALIGNMENT) new) fuel Hrep2) as (hs3 & E3 & Hrep3);
    rewrite ?Ea; try done; [lia| |].
  - clear -Ha Hfit new. induction l as [|b l IH]; cbn [alloc_blocks app].
    + subst new. cbn [bfr bsz]. rewrite (proj2 (Z.leb_le _ _) Hfit). simpl. by rewrite app_nil_r.
    + cbn [alloc_blocks] in Ha. destruct (bfr b && _); [done|].
      destruct (alloc_blocks (alignUp size ALIGNMENT) l) as [[]|]; [done|]. by rewrite IH.
  - eexists. split; [exact E3|]. split; [exact Hrep3|]. exact (grown_end _ _ _ Hgr).
Qed.

Lemma kmalloc_refused st l size fuel : heap_rep st l -> 0 < size <= HEAP_MAX_SIZE ->
  alloc_blocks (alignUp size ALIGNMENT) l = None ->
  HEAP_START + HEAP_MAX_SIZE < g_heap_mapped_end st + grow_pages size * PAGE_SIZE \/
    pm_room (vm st) = 0%nat ->
  exists st', kmalloc_rec (S fuel) size st = Ok (0, st') /\ heap_rep st' l /\
    g_heap_mapped_end st' = g_heap_mapped_end st.
Proof.
  intros Hrep Hs Ha Hcase.
  destruct (grow_pages_bounds size Hs) as (Hgb & Hg1 & Eg & _).
  rewrite (kmalloc_grow_step st l size) by done. rewrite <- Eg in Hcase.
  destruct (decide (HEAP_START + HEAP_MAX_SIZE <
    g_heap_mapped_end st + alignUp (grow_bytes (alignUp size ALIGNMENT)) PAGE_SIZE)) as [Hlim|Hlim].
  - run_call (growHeap_limit st _ (rep_growable st l Hrep) Hgb Hlim). by exists st.
  - destruct Hcase as [?|Hroom]; [done|].
    destruct (growHeap_no_frames st _ (rep_growable st l Hrep) Hgb ltac:(lia) Hroom) as (m' & E & Hok & Hkeep).
    run_call E. eexists. split; [reflexivity|]. split; [|done]. destruct Hrep. split; simpl; auto.
Qed.

(** ** Live blocks and totals *)

Definition live (l : list Block) : list Block := filter (fun b => bfr b = false) l.
Definition bytes (l : list Block) : Z := foldr (fun b t => HEADER_SIZE + bsz b + t) 0 l.
Definition sum_size (which : bool) (l : list Block) : Z :=
  foldr (fun b t => (if eqb (bfr b) which then bsz b else 0) + t) 0 l.

Lemma live_app l1 l2 : live (l1 ++ l2) = live l1 ++ live l2.
Proof. apply list.filter_app. Qed.

Lemma live_cons_free b l : bfr b = true -> live (b :: l) = live l.
Proof. intros E. unfold live. rewrite list.filter_cons, E. done. Qed.

Lemma bytes_app l1 l2 : bytes (l1 ++ l2) = bytes l1 + bytes l2.
Proof. induction l1 as [|b l1 IH]; simpl; [done|]. rewrite IH. lia. Qed.

Lemma live_carve n b : live (carve n b) = [mkB (addr b) (if n + HEADER_SIZE + ALIGNMENT <=? bsz b then n else bsz b) false].
Proof. unfold carve, live. by case_if. Qed.

Lemma bytes_carve n b : bytes (carve n b) = HEADER_SIZE + bsz b.
Proof. unfold carve. case_if; simpl; lia. Qed.

Lemma merge_next_live b l : bfr b = true -> live (merge_next b l) = live l /\ bytes (merge_next b l) = bytes (b :: l).
Proof.
  intros Hb. destruct l as [|c l]; simpl.
  - rewrite live_cons_free by done. done.
  - destruct (bfr c) eqn:Hc; simpl.
    + rewrite !live_cons_free by done. split; [done | lia].
    + rewrite live_cons_free by done. done.
Qed.

Lemma merge_prev_live l1 b l2 : bfr b = true ->
  live (merge_prev l1 b l2) = live l1 ++ live l2 /\ bytes (merge_prev l1 b l2) = bytes (l1 ++ b :: l2).
Proof.
  intros Hb. destruct l1 as [|p l1] using rev_ind.
  - rewrite merge_prev_nil, live_cons_free by done. done.
  - rewrite merge_prev_snoc. destruct (bfr p) eqn:Hp.
    + rewrite !live_app, !live_cons_free, !bytes_app by done. simpl. rewrite app_nil_r. split; [done|lia].
    + rewrite live_app, live_cons_free by done. done.
Qed.

Lemma free_block_live l1 b l2 : (forall c, c ∈ l1 -> addr c <> addr b) ->
  live (free_block (addr b) (l1 ++ b :: l2)) = live l1 ++ live l2 /\
  bytes (free_block (addr b) (l1 ++ b :: l2)) = bytes (l1 ++ b :: l2).
Proof.
  intros Hne. rewrite free_block_mid by done.
  destruct (merge_next_live (mkB (addr b) (bsz b) true) l2) as [Hl Hb]; [done|].
  destruct (merge_next_head (mkB (addr b) (bsz b) true) l2) as (n & r & E). rewrite E in *.
  destruct (merge_prev_live l1 (mkB (addr b) n true) r) as [Hl' Hb']; [done|].
  simpl in *. rewrite Hl', Hb', !bytes_app. simpl. rewrite live_cons_free in Hl by done. rewrite Hl.
  split; [done | lia].
Qed.

Lemma sum_blocks_ok st l which p fuel total : chain (headers st) p l 0 -> inside st l ->
  (length l < fuel)%nat -> Forall (fun b => 0 <= bsz b) l -> 0 <= total -> total + bytes l < 2 ^ 64 ->
  sum_blocks fuel which (hd_addr l 0) total st = Ok (total + sum_size which l).
Proof.
  revert p fuel total. induction l as [|b l IH]; intros p fuel total Hc Hin Hf Hpos Ht Hb;
    (destruct fuel as [|fuel]; [lia|]); cbn [sum_blocks hd_addr sum_size foldr].
  { simpl. by rewrite Z.add_0_r. }
  destruct (Hin b) as [Hib H0]; [by left|]. destruct Hc as [Hh Hc].
  rewrite (proj2 (Z.eqb_neq _ _) H0). run_call (hget_ok _ _ _ Hib Hh). cbn [bnext bfree bsize].
  apply Forall_cons_iff in Hpos as [Hpb Hpos]. simpl in Hb, Hf. fold (bytes l) in Hb.
  assert (Hbl : 0 <= bytes l).
  { clear -Hpos. induction Hpos; simpl; unfold HEADER_SIZE; lia. }
  fold (sum_size which l). unfold HEADER_SIZE in Hb.
  destruct (eqb (bfr b) which).
  - rewrite u64_small by lia. rewrite (IH (addr b)); try done; try lia; [f_equal; lia|].
    intros c Hc'. apply Hin. by right.
  - rewrite (IH (addr b)); try done; try lia. intros c Hc'. apply Hin. by right.
Qed.

Lemma bytes_bound lo l hi : laid_out lo l hi -> bytes l <= hi - lo.
Proof.
  revert lo. induction l as [|b l IH]; intros lo; simpl; [lia|].
  intros (H1 & H2 & _ & _ & H3). apply IH in H3. unfold bend in H3. lia.
Qed.

Lemma init_ok m : pm_ok m -> (64 <= pm_room m)%nat ->
  exists st, init m = Ok st /\ heap_rep st [mkB HEAP_START (HEAP_INITIAL_SIZE - HEADER_SIZE) true] /\
    g_heap_mapped_end st = HEAP_START + HEAP_INITIAL_SIZE.
Proof.
  intros Hok Hroom. set (st0 := mkHeap ∅ 0 HEAP_START HEAP_START m).
  assert (Hg : growable st0) by (split; simpl; try done; lia).
  destruct (growHeap_ok st0 HEAP_INITIAL_SIZE Hg) as (st1 & E1 & Hgr); [done|vm_compute; congruence| |].
  { vm_compute alignUp. exact Hroom. }
  change (alignUp HEAP_INITIAL_SIZE PAGE_SIZE / PAGE_SIZE) with 16 in Hgr.
  destruct Hgr as [Gh Gf Ge Gv _ Gm]. simpl in Ge, Gh.
  assert (Ge' : g_heap_mapped_end st1 = HEAP_START + HEAP_INITIAL_SIZE) by (rewrite Ge; done).
  unfold init. fold st0. run_call E1. cbn [negb].
  assert (Hin : in_heap HEAP_START (mkHeap (headers st1) HEAP_START (g_heap_current_end st1)
    (g_heap_mapped_end st1) (vm st1)) = true) by (unfold in_heap; simpl; by rewrite Ge').
  run_call (hset_ok HEAP_START (mkBlock (HEAP_INITIAL_SIZE - HEADER_SIZE) true 0 0) _ Hin).
  eexists. split; [reflexivity|]. split; [|done].
  split; simpl; rewrite ?Ge'; try done; [by rewrite lookup_insert_eq|].
  intros va Hva. apply Gm. by rewrite Ge'.
Qed.

(** ** Properties *)

(** [init] with enough memory sets up a heap of one free block that
    covers the initial region. *)
Theorem heap_init_correct m : pm_ok m -> (64 <= pm_room m)%nat ->
  exists st, init m = Ok st /\ heap_rep st [mkB HEAP_START (HEAP_INITIAL_SIZE - HEADER_SIZE) true].
Proof.
  intros Hok Hroom. destruct (init_ok m Hok Hroom) as (st & E & Hrep & _). by exists st.
Qed.

(** The block after the growth for a request of [size] bytes. *)
Definition grown_block (size mapped_end : Z) : Block :=
  mkB mapped_end (grow_pages size * PAGE_SIZE - HEADER_SIZE) true.

(** What a request of [size] bytes, rounded to [n], does to the blocks [l] of
    a heap mapped up to [e] with [room] free frames; [l'] and [e'] are the
    blocks and the end afterwards, [p] the pointer. *)
Inductive allocates (size n : Z) (room : nat) (l : list Block) (e p : Z) : list Block -> Z -> Prop :=
  | first_fit l1 b l2 : l = l1 ++ b :: l2 -> Forall (fun c => fits n c = false) l1 -> fits n b = true ->
      p = addr b + HEADER_SIZE -> allocates size n room l e p (l1 ++ carve n b ++ l2) e
  | growth : Forall (fun c => fits n c = false) l ->
      e + grow_pages size * PAGE_SIZE <= HEAP_START + HEAP_MAX_SIZE -> room <> 0%nat ->
      p = e + HEADER_SIZE ->
      allocates size n room l e p (l ++ carve n (grown_block size e)) (e + grow_pages size * PAGE_SIZE)
  | refusal : Forall (fun c => fits n c = false) l ->
      HEAP_START + HEAP_MAX_SIZE < e + grow_pages size * PAGE_SIZE \/ room = 0%nat ->
      p = 0 -> allocates size n room l e p l e.

Lemma kmalloc_allocates st l size : heap_rep st l -> 0 < size <= HEAP_MAX_SIZE ->
  (pm_room (vm st) = 0 \/ Z.to_nat (4 * grow_pages size) <= pm_room (vm st))%nat ->
  exists p st' l', kmalloc size st = Ok (p, st') /\ heap_rep st' l' /\
    allocates size (alignUp size ALIGNMENT) (pm_room (vm st)) l (g_heap_mapped_end st) p l' (g_heap_mapped_end st').
Proof.
  intros Hrep Hs Hroom. destruct (grow_pages_bounds size Hs) as (_ & Hg1 & _ & Hfit & Hn0 & Hnm & Hle).
  unfold kmalloc. destruct (alloc_blocks (alignUp size ALIGNMENT) l) as [[a l']|] eqn:Ha.
  - destruct (kmalloc_found st l size a l' (S (Z.to_nat (HEAP_MAX_SIZE / PAGE_SIZE))) Hrep) as (hs & E & Hrep');
      try done; [lia|]. exists (a + HEADER_SIZE), (with_headers st hs), l'. split_and!; try done.
    apply alloc_blocks_inv in Ha as (l1 & b & l2 & -> & Hb & -> & -> & Hl1). by apply first_fit.
  - pose proof (proj1 (alloc_blocks_none _ _) Ha) as Hno.
    destruct (decide (HEAP_START + HEAP_MAX_SIZE < g_heap_mapped_end st + grow_pages size * PAGE_SIZE \/
      pm_room (vm st) = 0%nat)) as [Hfull|Hyes].
    + destruct (kmalloc_refused st l size (S (Z.to_nat (HEAP_MAX_SIZE / PAGE_SIZE))) Hrep Hs Ha Hfull) as (st' & E & Hrep' & Ee).
      exists 0, st', l. split_and!; try done. rewrite Ee. by apply refusal.
    + destruct (kmalloc_grown st l size (Z.to_nat (HEAP_MAX_SIZE / PAGE_SIZE)) Hrep Hs Ha) as (st' & E & Hrep' & Ee);
        [lia | lia |].
      eexists _, st', _. split; [exact E|]. split; [exact Hrep'|]. rewrite Ee. apply growth; [done | lia | lia | done].
Qed.

Lemma carve_live n b l1 l2 : n <= bsz b -> bfr b = true -> exists m, n <= m /\
  live (l1 ++ carve n b ++ l2) ≡ₚ mkB (addr b) m false :: live (l1 ++ b :: l2).
Proof.
  intros Hle Hf. exists (if n + HEADER_SIZE + ALIGNMENT <=? bsz b then n else bsz b).
  split; [case_if; lia|]. rewrite !live_app, live_carve, live_cons_free by done. simpl. by rewrite Permutation_middle.
Qed.

(** The pointer is aligned and its block is the one new live block. *)
Lemma allocates_live st l size p l' e' : heap_rep st l -> 0 < size <= HEAP_MAX_SIZE ->
  allocates size (alignUp size ALIGNMENT) (pm_room (vm st)) l (g_heap_mapped_end st) p l' e' ->
  (p = 0 /\ l' = l /\ Forall (fun b => fits (alignUp size ALIGNMENT) b = false) l) \/
  (exists n, size <= n /\ p mod ALIGNMENT = 0 /\ live l' ≡ₚ mkB (p - HEADER_SIZE) n false :: live l).
Proof.
  intros Hrep Hs Hall. destruct (grow_pages_bounds size Hs) as (_ & Hg1 & _ & Hfit & Hn0 & Hnm & Hle).
  destruct Hall as [l1 b l2 -> Hl1 [Hf Hfb%Z.leb_le]%andb_true_iff -> | Hno Hlim Hroom -> | Hno Hfull ->]; [| |by left]; right.
  - destruct (carve_live (alignUp size ALIGNMENT) b l1 l2 Hfb Hf) as (m & Hm & Hlive). exists m.
    replace (addr b + HEADER_SIZE - HEADER_SIZE) with (addr b) by lia. split_and!; [lia| |done].
    destruct (laid_out_in _ _ _ b (rep_layout st _ Hrep)) as (_ & _ & _ & Hal & _); [set_solver|].
    unfold HEADER_SIZE, ALIGNMENT in *. Z.to_euclidean_division_equations. lia.
  - destruct (carve_live (alignUp size ALIGNMENT) (grown_block size (g_heap_mapped_end st)) l []) as (m & Hm & Hlive);
      [done | done |]. exists m. rewrite app_nil_r in Hlive.
    replace (g_heap_mapped_end st + HEADER_SIZE - HEADER_SIZE) with (g_heap_mapped_end st) by lia. split_and!; [lia| |].
    + pose proof (rep_page st l Hrep). unfold HEADER_SIZE, ALIGNMENT, PAGE_SIZE in *.
      Z.to_euclidean_division_equations. lia.
    + rewrite Hlive. f_equiv. rewrite live_app. simpl. by rewrite app_nil_r.
Qed.

Lemma kmalloc_spec st l size : heap_rep st l -> 0 < size <= HEAP_MAX_SIZE ->
  (pm_room (vm st) = 0 \/ Z.to_nat (4 * grow_pages size) <= pm_room (vm st))%nat ->
  exists p st' l', kmalloc size st = Ok (p, st') /\ heap_rep st' l' /\
    ((p = 0 /\ l' = l /\ Forall (fun b => fits (alignUp size ALIGNMENT) b = false) l) \/
     (exists n, size <= n /\ p mod ALIGNMENT = 0 /\ live l' ≡ₚ mkB (p - HEADER_SIZE) n false :: live l)).
Proof.
  intros Hrep Hs Hroom. destruct (kmalloc_allocates st l size Hrep Hs Hroom) as (p & st' & l' & E & Hrep' & Hall).
  exists p, st', l'. split; [done|]. split; [done|]. by apply (allocates_live st l size p l' _ Hrep Hs Hall).
Qed.

(** A growth adds the least number of pages that holds the rounded request
    with its header, and at least one. *)
Lemma grow_pages_least size : 0 < size <= HEAP_MAX_SIZE ->
  let n := alignUp size ALIGNMENT in
  size <= n < size + 16 /\ n mod 16 = 0 /\
  4096 * (grow_pages size - 1) < Z.max (n + HEADER_SIZE) 4096 <= 4096 * grow_pages size.
Proof.
  intros Hs n. destruct (grow_pages_bounds size Hs) as (Hgb & _ & Eg & _). unfold HEAP_MAX_SIZE in *.
  destruct (alignUp_spec size ALIGNMENT ltac:(by left) ltac:(lia)) as [Hr Hm]. fold n in Hr, Hm, Hgb, Eg.
  destruct (alignUp_spec (grow_bytes n) PAGE_SIZE ltac:(by right) ltac:(lia)) as [Hr2 Hm2].
  rewrite Eg in Hr2. unfold ALIGNMENT, PAGE_SIZE in *.
  assert (Eb : grow_bytes n = Z.max (n + HEADER_SIZE) 4096) by (unfold grow_bytes; case_if; lia).
  rewrite <- Eb. split_and!; try done; lia.
Qed.

(** C2. [kmalloc] always returns on a well-formed heap when the frame
    allocator is empty or can serve the growth.  It rounds the size up to [n],
    a multiple of 16, and implements first fit with splitting and growth: the
    first free block of at least [n] bytes is taken, and split when the rest
    has room for a header and 16 bytes; when no block fits, the heap grows by
    the least number of pages [k] that holds the request with its header,
    and the request is carved from the new block at the old end of the heap;
    the null pointer is returned only when no block fits and the limit of the
    heap or the lack of frames forbids the growth, and then no block changes.
    A pointer that is not null is 16-aligned, and its block is the only change
    to the set of live blocks. *)
Theorem kmalloc_correct st l size : heap_rep st l -> 0 < size <= HEAP_MAX_SIZE ->
  (pm_room (vm st) = 0 \/ Z.to_nat (4 * grow_pages size) <= pm_room (vm st))%nat ->
  exists n k p st' l', kmalloc size st = Ok (p, st') /\ heap_rep st' l' /\
    size <= n < size + 16 /\ n mod 16 = 0 /\ 4096 * (k - 1) < Z.max (n + 32) 4096 <= 4096 * k /\
    ((exists l1 b l2, l = l1 ++ b :: l2 /\ Forall (fun c => bfr c && (n <=? bsz c) = false) l1 /\
        bfr b = true /\ n <= bsz b /\ p = addr b + 32 /\ g_heap_mapped_end st' = g_heap_mapped_end st /\
        l' = l1 ++ (if n + 32 + 16 <=? bsz b
                    then [mkB (addr b) n false; mkB (addr b + 32 + n) (bsz b - n - 32) true]
                    else [mkB (addr b) (bsz b) false]) ++ l2) \/
     (Forall (fun c => bfr c && (n <=? bsz c) = false) l /\ p = g_heap_mapped_end st + 32 /\
        g_heap_mapped_end st' = g_heap_mapped_end st + 4096 * k /\
        l' = l ++ carve n (mkB (g_heap_mapped_end st) (4096 * k - 32) true)) \/
     (Forall (fun c => bfr c && (n <=? bsz c) = false) l /\
        (HEAP_START + HEAP_MAX_SIZE < g_heap_mapped_end st + 4096 * k \/ pm_room (vm st) = 0%nat) /\
        p = 0 /\ l' = l /\ g_heap_mapped_end st' = g_heap_mapped_end st)) /\
    ((p = 0 /\ l' = l) \/
     (exists m, size <= m /\ p mod 16 = 0 /\ live l' ≡ₚ mkB (p - 32) m false :: live l)).
Proof.
  intros Hrep Hs Hroom. destruct (grow_pages_least size Hs) as (Hn & Hnm & Hk). unfold HEADER_SIZE in Hk.
  destruct (kmalloc_allocates st l size Hrep Hs Hroom) as (p & st' & l' & E & Hrep' & Hall).
  exists (alignUp size ALIGNMENT), (grow_pages size), p, st', l'. split_and!; try done; try lia.
  - rewrite (Z.mul_comm 4096). inversion Hall as [l1 b l2 El Hl1 [Hf Hle%Z.leb_le]%andb_true_iff Ep El' Ee | Hno Hlim Hr Ep El' Ee | Hno Hfull Ep El' Ee].
    + left. by exists l1, b, l2.
    + right. left. by split_and!.
    + right. right. by split_and!.
  - destruct (allocates_live st l size p l' _ Hrep Hs Hall) as [(? & ? & _)|?]; [by left | by right].
Qed.

Lemma kfree_spec st l1 b l2 : heap_rep st (l1 ++ b :: l2) ->
  exists st', kfree (addr b + HEADER_SIZE) st = Ok st' /\
    let l' := free_block (addr b) (l1 ++ b :: l2) in
    heap_rep st' l' /\ live l' = live l1 ++ live l2 /\ bytes l' = bytes (l1 ++ b :: l2).
Proof.
  intros Hrep. destruct (kfree_ok st l1 b l2 Hrep) as (hs' & E & Hrep').
  exists (with_headers st hs'). split; [done|]. split; [done|]. apply free_block_live.
  intros c Hc. pose proof (mid_lt _ _ _ _ (rep_middle st l1 b l2 Hrep) c Hc). unfold HEADER_SIZE in *. lia.
Qed.

(** C3. [kfree] of a live block returns, removes exactly that block from the
    live blocks, keeps every byte of the heap accounted for, and produces the
    block list in which the freed block is merged with its free neighbours. *)
Theorem kfree_correct st l1 b l2 : heap_rep st (l1 ++ b :: l2) ->
  exists st', kfree (addr b + HEADER_SIZE) st = Ok st' /\
    let l' := free_block (addr b) (l1 ++ b :: l2) in
    heap_rep st' l' /\ live l' = live l1 ++ live l2 /\ bytes l' = bytes (l1 ++ b :: l2).
Proof. apply kfree_spec. Qed.

(** On a well-formed heap the payloads of two different blocks, and
    their headers, never overlap, and all of them lie in mapped memory. *)
Theorem heap_blocks_disjoint st l1 b l2 c l3 : heap_rep st (l1 ++ b :: l2 ++ c :: l3) ->
  addr b + HEADER_SIZE + bsz b <= addr c /\
  (forall a, addr b <= a < bend b -> pm_mapped (vm st) a) /\
  (forall a, addr c <= a < bend c -> pm_mapped (vm st) a).
Proof.
  intros Hrep. pose proof (rep_middle st l1 b (l2 ++ c :: l3) Hrep) as Hb.
  assert (Hrep2 : heap_rep st ((l1 ++ b :: l2) ++ c :: l3)) by (by rewrite <- app_assoc).
  pose proof (rep_middle st _ c l3 Hrep2) as Hc. split; [|split].
  - apply (mid_gt _ _ _ _ Hb). set_solver.
  - intros a Ha. apply (rep_mapped st _ Hrep). pose proof (mid_lo _ _ _ _ Hb). pose proof (mid_hi _ _ _ _ Hb). lia.
  - intros a Ha. apply (rep_mapped st _ Hrep). pose proof (mid_lo _ _ _ _ Hc). pose proof (mid_hi _ _ _ _ Hc). lia.
Qed.

(** [totalAllocated] and [totalFree] return the sizes of the live and of
    the free blocks, without overflow. *)
Theorem heap_totals_correct st l : heap_rep st l ->
  totalAllocated st = Ok (sum_size false l) /\ totalFree st = Ok (sum_size true l).
Proof.
  intros Hrep. pose proof (rep_layout st l Hrep) as Hlay. pose proof (bytes_bound _ _ _ Hlay) as Hb.
  pose proof (rep_end st l Hrep) as Hend. pose proof (rep_chain st l Hrep) as Hc.
  pose proof (laid_out_inside st _ HEAP_START _ (Z.le_refl _) (Z.le_refl _) Hlay) as Hin.
  pose proof (chain_length _ _ _ _ _ _ Hc Hlay) as Hlen.
  assert (Hpos : Forall (fun b => 0 <= bsz b) l).
  { apply Forall_forall. intros b Hin'. apply (laid_out_in _ _ _ _ Hlay). by apply list_elem_of_In. }
  unfold HEAP_START, HEAP_MAX_SIZE in *.
  unfold totalAllocated, totalFree, list_fuel. rewrite (rep_first st l Hrep).
  split; rewrite (sum_blocks_ok st l _ 0); try done; lia.
Qed.

(** The rounding in [kmalloc] wraps: a request of more than
    [2^64 - 16] bytes is treated as a request for no bytes and receives a
    non-null pointer. *)
Theorem kmalloc_size_wraps st l size a l' : heap_rep st l -> 2 ^ 64 - 16 < size < 2 ^ 64 ->
  alloc_blocks 0 l = Some (a, l') ->
  exists st', kmalloc size st = Ok (a + HEADER_SIZE, st') /\ heap_rep st' l'.
Proof.
  intros Hrep Hs Ha. assert (E0 : alignUp size ALIGNMENT = 0).
  { unfold alignUp, ALIGNMENT. assert (Eu : u64 (size + 16 - 1) = size - (2 ^ 64 - 15)).
    { unfold u64. symmetry. apply (Z.mod_unique_pos _ _ 1); lia. }
    rewrite Eu. change (16 - 1) with (2 ^ 4 - 1). rewrite land_floor by lia.
    rewrite Z.div_small by lia. done. }
  unfold kmalloc. destruct (kmalloc_found st l size a l' (S (Z.to_nat (HEAP_MAX_SIZE / PAGE_SIZE))) Hrep) as (hs & E & Hrep');
    rewrite ?E0; try done; [lia|]. by eexists.
Qed.
End heap_proofs.

(** ** The virtual memory manager supplies the pages *)

Lemma heap_page_kernel va : HEAP_START <= va < HEAP_START + HEAP_MAX_SIZE ->
  canonical va = true /\ idx 3 va <> RECURSIVE_INDEX.
Proof.
  unfold HEAP_START, HEAP_MAX_SIZE. intros Hva. split.
  - unfold canonical. rewrite !andb_true_iff, orb_true_iff, !Z.leb_le, !Z.ltb_lt. lia.
  - rewrite idx_div_mod. change (12 + 9 * Z.of_nat 3) with 39. unfold RECURSIVE_INDEX.
    change (2 ^ 39) with 549755813888. Z.to_euclidean_division_equations. lia.
Qed.

#[export] Program Instance vmm_page_mapper {St} `{FrameAllocator St} : PageMapper (Machine St) := {|
  pm_map va s := allocAndMapPage va PAGE_WRITABLE s;
  pm_ok := vmm_inv;
  pm_room s := size (fa_free (frames s));
  pm_mapped := mapped;
|}.
Next Obligation.
  intros St ? va s [Hva Hal] Hinv Hroom. destruct (heap_page_kernel va Hva) as [Hc Hk].
  destruct (allocAndMapPage_ok s va PAGE_WRITABLE Hinv Hc Hk ltac:(done)) as [_ Hok].
  destruct (Hok Hroom) as (f & s' & E & I & _ & _ & Hm & _ & Hr & Hkeep).
  exists s'. split_and!; try done.
  - intros va' Hva'. unfold HEAP_START, HEAP_MAX_SIZE, PAGE_SIZE in *.
    destruct (heap_page_kernel va') as [Hc' _].
    { unfold HEAP_START, HEAP_MAX_SIZE. Z.to_euclidean_division_equations. lia. }
    pose proof (Hm va' Hc' ltac:(unfold PAGE_SIZE; Z.to_euclidean_division_equations; lia)) as Et.
    unfold mapped. by rewrite Et.
  - intros va' Hva'. apply Hkeep. by apply heap_page_kernel.
Qed.
Next Obligation.
  intros St ? va s [Hva Hal] Hinv Hroom. destruct (heap_page_kernel va Hva) as [Hc Hk].
  destruct (allocAndMapPage_ok s va PAGE_WRITABLE Hinv Hc Hk ltac:(done)) as [Hnone _].
  destruct Hnone as (fr' & E & Hok & He).
  { apply leibniz_equiv, size_empty_inv. done. }
  exists (mkMachine (mem s) (cr3 s) fr'). split_and!; try done.
  apply inv_frames; [done | done |]. rewrite He. apply empty_subseteq.
Qed.

(** ** A concrete heap, with a page supplier that only counts frames *)

Definition counter_map (va : Z) (n : nat) : outcome (bool * nat) :=
  match n with O => Ok (false, O) | S n' => Ok (true, n') end.

#[export] Program Instance counter_mapper : PageMapper nat := {|
  pm_map := counter_map; pm_ok _ := True; pm_room n := n; pm_mapped _ _ := True |}.
Next Obligation. intros va [|n] _ _ Hn; [lia|]. exists n. split_and!; try done. lia. Qed.
Next Obligation. intros va n _ _ ->. by exists 0%nat. Qed.

Definition sample_heap : HeapState nat :=
  match init 100%nat with Ok st => st | _ => mkHeap ∅ 0 0 0 0%nat end.

Definition sample_heap2 : HeapState nat :=
  match kmalloc 100 sample_heap with Ok (_, st) => st | _ => sample_heap end.

Lemma sample_heap_rep : heap_rep sample_heap [mkB HEAP_START (HEAP_INITIAL_SIZE - HEADER_SIZE) true].
Proof.
  unfold sample_heap. destruct (init_ok 100%nat) as (st & E & R & _);
    [exact I | simpl; lia |]. rewrite E. exact R.
Qed.

Lemma sample_heap2_rep : heap_rep sample_heap2
  [mkB HEAP_START 112 false; mkB (HEAP_START + 144) (HEAP_INITIAL_SIZE - 176) true].
Proof.
  unfold sample_heap2, kmalloc.
  destruct (kmalloc_found sample_heap _ 100 HEAP_START
    [mkB HEAP_START 112 false; mkB (HEAP_START + 144) (HEAP_INITIAL_SIZE - 176) true]
    (S (Z.to_nat (HEAP_MAX_SIZE / PAGE_SIZE))) sample_heap_rep) as (hs & E & R);
    [lia | vm_compute; congruence | reflexivity | reflexivity |].
  rewrite E. exact R.
Qed.

Lemma heap_init_correct_witness : exists st : HeapState nat,
  init 64%nat = Ok st /\ heap_rep st [mkB HEAP_START (HEAP_INITIAL_SIZE - HEADER_SIZE) true].
Proof. apply (heap_init_correct 64%nat); [exact I | simpl; lia]. Defined.

Lemma kmalloc_correct_witness : exists p st' l',
  kmalloc 100 sample_heap = Ok (p, st') /\ heap_rep st' l'.
Proof.
  destruct (kmalloc_correct sample_heap _ 100 sample_heap_rep) as (n & k & p & st' & l' & E & R & _).
  - unfold HEAP_MAX_SIZE. lia.
  - right. vm_compute. lia.
  - exists p, st', l'. split; [exact E | exact R].
Defined.

Lemma kfree_correct_witness : exists st', kfree (HEAP_START + HEADER_SIZE) sample_heap2 = Ok st' /\
  heap_rep st' [mkB HEAP_START (HEAP_INITIAL_SIZE - HEADER_SIZE) true].
Proof.
  destruct (kfree_correct sample_heap2 [] (mkB HEAP_START 112 false)
    [mkB (HEAP_START + 144) (HEAP_INITIAL_SIZE - 176) true] sample_heap2_rep) as (st' & E & R & _).
  exists st'. split; [exact E | exact R].
Defined.

Lemma heap_blocks_disjoint_witness :
  addr (mkB HEAP_START 112 false) + HEADER_SIZE + 112 <= HEAP_START + 144.
Proof.
  exact (proj1 (heap_blocks_disjoint sample_heap2 [] (mkB HEAP_START 112 false) []
    (mkB (HEAP_START + 144) (HEAP_INITIAL_SIZE - 176) true) [] sample_heap2_rep)).
Defined.

Lemma heap_totals_correct_witness : totalAllocated sample_heap2 = Ok 112 /\ totalFree sample_heap2 = Ok 65360.
Proof. exact (heap_totals_correct sample_heap2 _ sample_heap2_rep). Defined.

Lemma kmalloc_size_wraps_witness : exists st', kmalloc (2 ^ 64 - 1) sample_heap = Ok (HEAP_START + HEADER_SIZE, st').
Proof.
  destruct (kmalloc_size_wraps sample_heap _ (2 ^ 64 - 1) HEAP_START
    [mkB HEAP_START 0 false; mkB (HEAP_START + 32) (HEAP_INITIAL_SIZE - 64) true] sample_heap_rep)
    as (st' & E & _).
  - lia.
  - reflexivity.
  - exists st'. exact E.
Defined.
