(* ===== verification/NewDelete.v ===== *)
(** The C++ allocation operators, [src/src/mm/new_delete.cpp], on the kernel
    heap. *)

From S2P Require Import Prelude Heap HeapProofs.

Section NewDelete.
Context {M : Type} `{PageMapper M}.
Implicit Types st : HeapState M.

Definition operator_new (size : Z) st : outcome (Z * HeapState M) := kmalloc size st.
Definition operator_new_array (size : Z) st : outcome (Z * HeapState M) := kmalloc size st.
Definition operator_delete (ptr : Z) st : outcome (HeapState M) := kfree ptr st.
Definition operator_delete_array (ptr : Z) st : outcome (HeapState M) := kfree ptr st.
Definition operator_delete_sized (ptr size : Z) st : outcome (HeapState M) := kfree ptr st.
Definition operator_delete_array_sized (ptr size : Z) st : outcome (HeapState M) := kfree ptr st.

(** Placement new gives its pointer back and leaves the heap alone. *)
Definition operator_new_at (size ptr : Z) st : Z * HeapState M := (ptr, st).
Definition operator_new_array_at (size ptr : Z) st : Z * HeapState M := (ptr, st).

Lemma live_in b l : b ∈ live l -> b ∈ l.
Proof. unfold live. intros Hb. apply list_elem_of_filter in Hb. tauto. Qed.

(** [delete] undoes [new]: what was allocated before is allocated after, and
    nothing else; a null pointer is deleted without effect. *)
Theorem delete_undoes_new st l size : heap_rep st l -> 0 < size <= HEAP_MAX_SIZE ->
  (pm_room (vm st) = 0 \/ Z.to_nat (4 * grow_pages size) <= pm_room (vm st))%nat ->
  exists p st1 st2 l2, operator_new size st = Ok (p, st1) /\ operator_delete p st1 = Ok st2 /\ heap_rep st2 l2 /\ live l2 ≡ₚ live l.
Proof.
  intros Hrep Hs Hroom. destruct (kmalloc_spec st l size Hrep Hs Hroom) as (p & st1 & l1 & E1 & Hrep1 & [(-> & -> & _)|(n & _ & _ & Hlive)]).
  - by exists 0, st1, st1, l.
  - assert (Hin : mkB (p - HEADER_SIZE) n false ∈ l1) by (apply live_in; rewrite Hlive; by left).
    apply list_elem_of_split in Hin as (a & b & ->). destruct (kfree_spec st1 a _ b Hrep1) as (st2 & E2 & Hrep2 & Hl2 & _).
    exists p, st1, st2, (free_block (p - HEADER_SIZE) (a ++ mkB (p - HEADER_SIZE) n false :: b)). split; [done|].
    cbn [addr] in *. replace (p - HEADER_SIZE + HEADER_SIZE) with p in E2 by lia. split; [done|]. split; [done|]. rewrite Hl2.
    rewrite live_app in Hlive. change (live (mkB (p - HEADER_SIZE) n false :: b)) with (mkB (p - HEADER_SIZE) n false :: live b) in Hlive.
    rewrite <- Permutation_middle in Hlive. by apply Permutation_cons_inv in Hlive.
Qed.

End NewDelete.

Lemma delete_undoes_new_witness : exists p st1 st2, operator_new 100 sample_heap = Ok (p, st1) /\ operator_delete p st1 = Ok st2.
Proof.
  destruct (delete_undoes_new sample_heap _ 100 sample_heap_rep) as (p & st1 & st2 & l2 & E1 & E2 & _).
  - unfold HEAP_MAX_SIZE. lia.
  - right. apply Nat.leb_le. reflexivity.
  - exists p, st1, st2. split; [exact E1 | exact E2].
Defined.
