(* ===== verification/Libc.v ===== *)
(** The freestanding C library, [src/src/libc/string.cpp] and [stdlib.cpp].

    The functions of [string.cpp] work on a memory, a list of bytes addressed
    by [Z]; reading or writing outside it is a [Fault].  [strlen], [strcmp],
    [strcpy], [strcat] and [strchr] have no bound of their own, so their loops
    carry the length of the memory as fuel: every iteration reads one byte
    further, and a loop that reads past the memory faults first.

    The number parsers of [stdlib.cpp] read a string once from left to right;
    the string is the list of its characters before the terminating zero. *)

From Stdlib Require Import ZifyBool.
From S2P Require Import Prelude.

(** ** string.cpp *)

Definition memcpy (dest src count : Z) (m : list Z) : outcome (list Z) :=
  for_range 0 count (fun i m => b ← load m (src + i); store m (dest + i) b) m.

Definition memmove (dest src count : Z) (m : list Z) : outcome (list Z) :=
  if (dest =? src) || (count =? 0) then mret m else
  if dest <? src then
    for_range 0 count (fun i m => b ← load m (src + i); store m (dest + i) b) m
  else
    foldM (fun i m => b ← load m (src + (i - 1)); store m (dest + (i - 1)) b)
      (rev (seqZ 1 count)) m.

Definition memset (dest value count : Z) (m : list Z) : outcome (list Z) :=
  for_range 0 count (fun i m => store m (dest + i) (u8 value)) m.

(** The loop from index [i] on, [n] iterations left. *)
Fixpoint memcmp_loop (n : nat) (a b i : Z) (m : list Z) : outcome Z :=
  match n with
  | O => mret 0
  | S n' =>
      x ← load m (a + i); y ← load m (b + i);
      if negb (x =? y) then mret (x - y) else memcmp_loop n' a b (i + 1) m
  end.

Definition memcmp (a b count : Z) (m : list Z) : outcome Z := memcmp_loop (Z.to_nat count) a b 0 m.

(** [while (cond( *p)) ++p;] *)
Fixpoint skip_while (fuel : nat) (cond : Z -> bool) (p : Z) (m : list Z) : outcome Z :=
  match fuel with
  | O => Halt
  | S fuel' => c ← load m p; if cond c then skip_while fuel' cond (p + 1) m else mret p
  end.

Definition fuel_of (m : list Z) : nat := S (length m).

Definition strlen (str : Z) (m : list Z) : outcome Z :=
  p ← skip_while (fuel_of m) (fun c => negb (c =? 0)) str m; mret (p - str).

Fixpoint strcmp_loop (fuel : nat) (a b : Z) (m : list Z) : outcome Z :=
  match fuel with
  | O => Halt
  | S fuel' =>
      x ← load m a;
      if negb (x =? 0) then
        y ← load m b;
        if x =? y then strcmp_loop fuel' (a + 1) (b + 1) m else mret (x - y)
      else y ← load m b; mret (x - y)
  end.

Definition strcmp (a b : Z) (m : list Z) : outcome Z := strcmp_loop (fuel_of m) a b m.

Fixpoint strncmp_loop (n : nat) (a b i : Z) (m : list Z) : outcome Z :=
  match n with
  | O => mret 0
  | S n' =>
      x ← load m (a + i); y ← load m (b + i);
      if negb (x =? y) || (x =? 0) then mret (x - y) else strncmp_loop n' a b (i + 1) m
  end.

Definition strncmp (a b count : Z) (m : list Z) : outcome Z := strncmp_loop (Z.to_nat count) a b 0 m.

(** [while (( *dest++ = *src++) != 0) {}] *)
Fixpoint copy_loop (fuel : nat) (dest src : Z) (m : list Z) : outcome (list Z) :=
  match fuel with
  | O => Halt
  | S fuel' =>
      c ← load m src;
      m' ← store m dest c;
      if c =? 0 then mret m' else copy_loop fuel' (dest + 1) (src + 1) m'
  end.

Definition strcpy (dest src : Z) (m : list Z) : outcome (list Z) := copy_loop (fuel_of m) dest src m.

(** First loop of [strncpy]; returns the index it stopped at. *)
Fixpoint strncpy_loop (n : nat) (dest src i : Z) (m : list Z) : outcome (Z * list Z) :=
  match n with
  | O => mret (i, m)
  | S n' =>
      c ← load m (src + i);
      if c =? 0 then mret (i, m) else
      m' ← store m (dest + i) c; strncpy_loop n' dest src (i + 1) m'
  end.

Definition strncpy (dest src count : Z) (m : list Z) : outcome (list Z) :=
  '(i, m') ← strncpy_loop (Z.to_nat count) dest src 0 m;
  for_range i count (fun i m => store m (dest + i) 0) m'.

Definition strcat (dest src : Z) (m : list Z) : outcome (list Z) :=
  e ← skip_while (fuel_of m) (fun c => negb (c =? 0)) dest m;
  copy_loop (fuel_of m) e src m.

(** Null is [None]. *)
Definition strchr (str ch : Z) (m : list Z) : outcome (option Z) :=
  p ← skip_while (fuel_of m) (fun c => negb (c =? 0) && negb (c =? u8 ch)) str m;
  c ← load m p;
  if negb (c =? 0) then mret (Some p)
  else mret (if ch =? 0 then Some p else None).

(** ** stdlib.cpp *)

Definition deref (s : list Z) : Z := match s with [] => 0 | c :: _ => c end.

Definition is_space (c : Z) : bool :=
  (c =? 32) || (c =? 9) || (c =? 10) || (c =? 13) || (c =? 11) || (c =? 12).

Fixpoint skip_spaces (s : list Z) : list Z :=
  match s with
  | c :: s' => if is_space c then skip_spaces s' else s
  | [] => []
  end.

Definition is_digit (c : Z) : bool := (48 <=? c) && (c <=? 57).

(** The digit loop at a signed type of [w] bits. *)
Fixpoint digits_loop (w : Z) (s : list Z) (result : Z) : Z :=
  match s with
  | c :: s' => if is_digit c then digits_loop w s' (sgn w (result * 10 + (c - 48))) else result
  | [] => result
  end.

Definition parse_signed (w : Z) (s : list Z) : Z :=
  let s := skip_spaces s in
  let '(sign, s) :=
    if (deref s =? 43) || (deref s =? 45)
    then ((if deref s =? 45 then -1 else 1), tail s) else (1, s) in
  sgn w (sign * digits_loop w s 0).

Definition atoi (s : list Z) : Z := parse_signed 32 s.
Definition atol (s : list Z) : Z := parse_signed 64 s.
Definition atoll (s : list Z) : Z := parse_signed 64 s.

Definition hex_digit (c : Z) : Z :=
  if (48 <=? c) && (c <=? 57) then c - 48 else
  if (97 <=? c) && (c <=? 102) then 10 + (c - 97) else
  if (65 <=? c) && (c <=? 70) then 10 + (c - 65) else -1.

Fixpoint hex_loop (s : list Z) (acc : Z) : option Z :=
  match s with
  | [] => Some acc
  | c :: s' =>
      if hex_digit c <? 0 then Some acc else
      if (UINT64_MAX .>> 4) <? acc then None
      else hex_loop s' (u64 (acc .<< 4) .| hex_digit c)
  end.

(** [None] is the result -1, [Some v] is 0 with [*out = v]. *)
Definition hex_to_u64 (s : list Z) : option Z :=
  let s := skip_spaces s in
  let s := if (deref s =? 48) && ((deref (tail s) =? 120) || (deref (tail s) =? 88))
           then tail (tail s) else s in
  if hex_digit (deref s) <? 0 then None else hex_loop s 0.

(** ** Memory lemmas *)

Lemma store_load (m : list Z) i b : 0 <= i < Z.of_nat (length m) ->
  exists m', store m i b = Ok m' /\ length m' = length m /\
    forall k, load m' k = if k =? i then Ok b else load m k.
Proof.
  intros Hi. exists (<[Z.to_nat i := b]> m). split; [by apply store_in_range|].
  split; [apply length_insert|]. intros k. unfold load.
  destruct (Z.ltb_spec k 0).
  - destruct (Z.eqb_spec k i); [lia | done].
  - destruct (Z.eqb_spec k i) as [->|].
    + by rewrite list_lookup_insert_eq by lia.
    + by rewrite list_lookup_insert_ne by lia.
Qed.

(** Inside the memory there is a byte. *)
Lemma load_some (m : list Z) i : 0 <= i < Z.of_nat (length m) -> exists b, load m i = Ok b.
Proof. intros Hi. destruct (load_in_range m i Hi) as (b & E & _). by exists b. Qed.

Lemma load_bound (m : list Z) i b : load m i = Ok b -> 0 <= i < Z.of_nat (length m).
Proof. intros [Hi Hl%lookup_lt_Some]%load_ok. lia. Qed.

(** [m'] is [m] with the bytes of [m] at [s..] moved to [d..], the first [n] of them. *)
Definition moved (m m' : list Z) (d s n : Z) : Prop :=
  length m' = length m /\
  forall k, load m' k = if (d <=? k) && (k <? d + n) then load m (s + (k - d)) else load m k.

Lemma copy_forward m d s n : 0 <= n -> 0 <= d -> 0 <= s ->
  d + n <= Z.of_nat (length m) -> s + n <= Z.of_nat (length m) -> d <= s \/ s + n <= d ->
  exists m', for_range 0 n (fun i m => b ← load m (s + i); store m (d + i) b) m = Ok m' /\ moved m m' d s n.
Proof.
  intros Hn Hd Hs Hdn Hsn Hov. apply (for_range_rule (fun i m' => moved m m' d s i)); [lia| |].
  - split; [done|]. intros k. case_if; [lia | done].
  - intros i t Hi [Hlen Hld].
    assert (E : load t (s + i) = load m (s + i)) by (rewrite Hld; case_if; [lia | done]).
    destruct (load_some m (s + i)) as [b Eb]; [lia|]. rewrite E, Eb. simpl.
    destruct (store_load t (d + i) b) as (t' & Es & Hlen' & Hld'); [lia|].
    exists t'. split; [done|]. split; [congruence|]. intros k. rewrite Hld', Hld.
    destruct (Z.eqb_spec k (d + i)) as [->|].
    + rewrite (proj2 (Z.leb_le _ _)), (proj2 (Z.ltb_lt _ _)) by lia. simpl. rewrite <- Eb. f_equal. lia.
    + repeat case_if; try done; lia.
Qed.

Lemma copy_backward m d s n : 0 <= n -> 0 <= d -> 0 <= s -> s <= d ->
  d + n <= Z.of_nat (length m) -> s + n <= Z.of_nat (length m) ->
  exists m', foldM (fun i m => b ← load m (s + (i - 1)); store m (d + (i - 1)) b) (rev (seqZ 1 n)) m = Ok m' /\
    moved m m' d s n.
Proof.
  intros Hn Hd Hs Hsd Hdn Hsn.
  assert (Hloop : forall k t, 0 <= k <= n -> length t = length m ->
    (forall a, load t a = if (d + k <=? a) && (a <? d + n) then load m (s + (a - d)) else load m a) ->
    exists m', foldM (fun i m => b ← load m (s + (i - 1)); store m (d + (i - 1)) b) (rev (seqZ 1 k)) t = Ok m' /\
      moved m m' d s n).
  { intros k t Hk. remember (Z.to_nat k) as c eqn:Hc. revert k t Hk Hc.
    induction c as [|c IH]; intros k t Hk Hc Hlen Hld.
    - replace k with 0 by lia. simpl. exists t. split; [done|]. split; [done|]. intros a. rewrite Hld.
      replace (d + k) with d by lia. done.
    - assert (Eseq : seqZ 1 k = seqZ 1 (k - 1) ++ [k]).
      { replace k with ((k - 1) + 1) at 1 by lia. rewrite seqZ_app by lia. f_equal.
        unfold seqZ. simpl. f_equal. lia. }
      rewrite Eseq, rev_app_distr. cbn [rev app foldM].
      assert (E : load t (s + (k - 1)) = load m (s + (k - 1))) by (rewrite Hld; case_if; [lia | done]).
      destruct (load_some m (s + (k - 1))) as [b Eb]; [lia|]. rewrite E, Eb. cbn [mbind outcome_bind].
      destruct (store_load t (d + (k - 1)) b) as (t' & Es & Hlen' & Hld'); [lia|].
      rewrite Es. cbn [mbind outcome_bind]. apply IH; [lia | lia | congruence |].
      intros a. rewrite Hld', Hld. destruct (Z.eqb_spec a (d + (k - 1))) as [->|].
      + rewrite (proj2 (Z.leb_le _ _)), (proj2 (Z.ltb_lt _ _)) by lia. simpl. rewrite <- Eb. f_equal. lia.
      + repeat case_if; try done; lia. }
  apply Hloop; [lia | done |]. intros a. case_if; [lia | done].
Qed.

(** ** C strings *)

(** The bytes at [p] are the string [l] followed by a zero. *)
Fixpoint cstr (m : list Z) (p : Z) (l : list Z) : Prop :=
  match l with
  | [] => load m p = Ok 0
  | c :: l' => c <> 0 /\ load m p = Ok c /\ cstr m (p + 1) l'
  end.

Definition len (l : list Z) : Z := Z.of_nat (length l).

Lemma len_cons c l : len (c :: l) = 1 + len l.
Proof. unfold len. simpl length. lia. Qed.

Lemma len_nonneg l : 0 <= len l.
Proof. unfold len. lia. Qed.

Lemma cstr_bound m p l : cstr m p l -> 0 <= p /\ p + len l < Z.of_nat (length m).
Proof.
  revert p. induction l as [|c l IH]; intros p; cbn [cstr].
  - intros E%load_bound. unfold len. simpl. lia.
  - intros (_ & E%load_bound & [? ?]%IH). rewrite len_cons. lia.
Qed.

Lemma cstr_shift m m' s d l : (forall k, 0 <= k <= len l -> load m' (d + k) = load m (s + k)) ->
  cstr m s l -> cstr m' d l.
Proof.
  revert s d. induction l as [|c l IH]; intros s d Hk; cbn [cstr].
  - intros E. specialize (Hk 0 ltac:(unfold len; simpl; lia)). rewrite !Z.add_0_r in Hk. congruence.
  - pose proof (len_nonneg l). rewrite len_cons in Hk. intros (Hc & E & Hl). split; [done|]. split.
    + specialize (Hk 0 ltac:(lia)). rewrite !Z.add_0_r in Hk. congruence.
    + apply (IH (s + 1)); [|done]. intros k Hk'. specialize (Hk (1 + k) ltac:(lia)).
      by rewrite !Z.add_assoc in Hk.
Qed.

(** Memory that agrees on a string holds it too. *)
Lemma cstr_keep m m' p l : (forall k, p <= k <= p + len l -> load m' k = load m k) ->
  cstr m p l -> cstr m' p l.
Proof. intros Hk. apply cstr_shift. intros k Hk'. apply Hk. lia. Qed.

Lemma cstr_app m p l1 l2 : Forall (fun c => c <> 0) l1 ->
  (forall k c, l1 !! k = Some c -> load m (p + Z.of_nat k) = Ok c) -> cstr m (p + len l1) l2 -> cstr m p (l1 ++ l2).
Proof.
  revert p. induction l1 as [|c l1 IH]; intros p Hf Hl Hc; cbn [app cstr].
  - unfold len in Hc. simpl in Hc. by rewrite Z.add_0_r in Hc.
  - apply Forall_cons_iff in Hf as [Hc0 Hf]. split; [done|]. split.
    + specialize (Hl 0%nat c eq_refl). by rewrite Z.add_0_r in Hl.
    + apply IH; [done | |].
      * intros k c' Hk. specialize (Hl (S k) c' Hk). rewrite <- Hl. f_equal. lia.
      * rewrite len_cons, Z.add_assoc in Hc. done.
Qed.

Lemma cstr_chars m p l : cstr m p l ->
  Forall (fun c => c <> 0) l /\ forall k c, l !! k = Some c -> load m (p + Z.of_nat k) = Ok c.
Proof.
  revert p. induction l as [|c l IH]; intros p; cbn [cstr]; [done|].
  intros (Hc & E & [Hf Hl]%IH). split; [by constructor|]. intros [|k] c'; simpl.
  - intros [= <-]. by rewrite Z.add_0_r.
  - intros Hk. rewrite <- (Hl k c' Hk). f_equal. lia.
Qed.

Lemma skip_string m p l fuel : cstr m p l -> (length l < fuel)%nat ->
  skip_while fuel (fun c => negb (c =? 0)) p m = Ok (p + len l).
Proof.
  revert p fuel. induction l as [|c l IH]; intros p fuel Hc Hf; (destruct fuel as [|fuel]; [lia|]);
    cbn [skip_while cstr] in *.
  - run_call Hc. simpl. unfold len. simpl. by rewrite Z.add_0_r.
  - destruct Hc as (Hc & E & Hl). run_call E. rewrite (proj2 (Z.eqb_neq c 0) Hc). cbn [negb].
    simpl in Hf. rewrite (IH (p + 1)) by (done || lia). rewrite len_cons. f_equal. lia.
Qed.

Lemma cstr_fuel m p l : cstr m p l -> (length l < fuel_of m)%nat.
Proof. intros [? Hb]%cstr_bound. unfold len, fuel_of in *. lia. Qed.

Lemma strlen_ok m p l : cstr m p l -> strlen p m = Ok (len l).
Proof.
  intros Hc. unfold strlen. run_call (skip_string m p l _ Hc (cstr_fuel m p l Hc)). f_equal. lia.
Qed.

(** Lexicographic order on strings of bytes. *)
Fixpoint lex_lt (a b : list Z) : bool :=
  match a, b with
  | _, [] => false
  | [], _ :: _ => true
  | x :: a', y :: b' => (x <? y) || ((x =? y) && lex_lt a' b')
  end.

Definition is_byte (c : Z) : Prop := 0 <= c < 256.

Lemma strcmp_loop_ok m a b la lb fuel : cstr m a la -> cstr m b lb -> Forall is_byte la -> Forall is_byte lb ->
  (length la < fuel)%nat ->
  exists r, strcmp_loop fuel a b m = Ok r /\ (r = 0 <-> la = lb) /\ (r < 0 <-> lex_lt la lb = true).
Proof.
  revert a b lb fuel. induction la as [|x la IH]; intros a b lb fuel Ha Hb Hba Hbb Hf;
    (destruct fuel as [|fuel]; [lia|]); cbn [strcmp_loop cstr] in *.
  - run_call Ha. simpl negb. cbv iota. destruct lb as [|y lb]; cbn [cstr] in Hb.
    + run_call Hb. exists (0 - 0). split; [done|]. simpl. by intuition.
    + destruct Hb as (Hy & E & _). run_call E. exists (0 - y). split; [done|]. simpl.
      apply Forall_cons_iff in Hbb as [[? ?] _]. split; [split; [lia | done] | split; [done | lia]].
  - destruct Ha as (Hx & Ex & Ha). run_call Ex. rewrite (proj2 (Z.eqb_neq x 0) Hx). cbn [negb].
    apply Forall_cons_iff in Hba as [[Hx0 _] Hba]. simpl in Hf. destruct lb as [|y lb]; cbn [cstr] in Hb.
    + run_call Hb. rewrite (proj2 (Z.eqb_neq x 0) Hx). exists (x - 0). split; [done|].
      split; split; try done; lia.
    + destruct Hb as (Hy & Ey & Hb). run_call Ey. apply Forall_cons_iff in Hbb as [[Hy0 _] Hbb].
      cbn [lex_lt]. destruct (Z.eqb_spec x y) as [->|Hne].
      * destruct (IH (a + 1) (b + 1) lb fuel) as (r & E & H0 & Hl); try done; [lia|].
        exists r. split; [done|]. rewrite Z.ltb_irrefl. simpl. split; [|done].
        rewrite H0. split; [by intros -> | by intros [=]].
      * exists (x - y). split; [done|]. cbn [andb]. rewrite orb_false_r.
        split; [|split; [intros; apply Z.ltb_lt; lia | intros ?%Z.ltb_lt; lia]].
        split; [lia | by intros [=]].
Qed.

Lemma copy_loop_ok m d s l fuel : cstr m s l -> 0 <= d -> d + len l < Z.of_nat (length m) ->
  s + len l < d \/ d + len l < s -> (length l < fuel)%nat ->
  exists m', copy_loop fuel d s m = Ok m' /\ moved m m' d s (len l + 1).
Proof.
  revert m d s fuel. induction l as [|c l IH]; intros m d s fuel Hc Hd Hdl Hov Hf;
    (destruct fuel as [|fuel]; [lia|]); cbn [copy_loop cstr] in *.
  - run_call Hc. destruct (store_load m d 0) as (m' & E & Hlen & Hld); [unfold len in Hdl; simpl in Hdl; lia|].
    run_call E. exists m'. split; [done|]. split; [done|]. intros k. rewrite Hld.
    change (len []) with 0. destruct (Z.eqb_spec k d) as [->|].
    + rewrite (proj2 (Z.leb_le _ _)), (proj2 (Z.ltb_lt _ _)) by lia. simpl. rewrite <- Hc. f_equal. lia.
    + case_if; [lia | done].
  - destruct Hc as (Hc & E & Hl). run_call E. rewrite len_cons in *. pose proof (len_nonneg l).
    destruct (store_load m d c) as (m1 & E1 & Hlen1 & Hld1); [lia|]. run_call E1.
    rewrite (proj2 (Z.eqb_neq c 0) Hc). simpl in Hf.
    destruct (IH m1 (d + 1) (s + 1) fuel) as (m' & E' & Hlen' & Hld'); try lia.
    { apply (cstr_keep m); [|done]. intros k Hk. rewrite Hld1. case_if; [lia | done]. }
    exists m'. split; [done|]. split; [congruence|]. intros k. rewrite Hld', !Hld1.
    destruct (decide (k = d)) as [->|].
    + rewrite Z.eqb_refl. repeat case_if; try lia. rewrite <- E. f_equal. lia.
    + rewrite (proj2 (Z.eqb_neq k d)) by done.
      repeat case_if; try lia; try done. f_equal. lia.
Qed.

Lemma strcat_ok m d s ld ls : cstr m d ld -> cstr m s ls ->
  d + len ld + len ls < Z.of_nat (length m) ->
  s + len ls < d \/ d + len ld + len ls < s ->
  exists m', strcat d s m = Ok m' /\ moved m m' (d + len ld) s (len ls + 1).
Proof.
  intros Hd Hs Hb Hov. unfold strcat. pose proof (len_nonneg ld). pose proof (len_nonneg ls).
  run_call (skip_string m d ld _ Hd (cstr_fuel m d ld Hd)).
  pose proof (cstr_bound m d ld Hd) as [? _].
  apply copy_loop_ok; try lia; [done|]. by apply (cstr_fuel m s).
Qed.

Lemma strncpy_loop_ok m d s l n i : cstr m (s + i) l -> 0 <= d + i ->
  d + i + Z.of_nat n <= Z.of_nat (length m) ->
  s + i + len l < d + i \/ d + i + Z.of_nat n <= s + i ->
  let k := Z.min (Z.of_nat n) (len l) in
  exists m', strncpy_loop n d s i m = Ok (i + k, m') /\ moved m m' (d + i) (s + i) k.
Proof.
  revert m l i. induction n as [|n IH]; intros m l i Hc Hd Hb Hov k; cbn [strncpy_loop].
  - pose proof (len_nonneg l). replace k with 0 by (subst k; lia). exists m. rewrite Z.add_0_r.
    split; [done|]. split; [done|]. intros a. case_if; [lia | done].
  - destruct l as [|c l]; cbn [cstr] in Hc.
    + run_call Hc. exists m. replace k with 0 by (subst k; unfold len; simpl; lia). rewrite Z.add_0_r.
      split; [done|]. split; [done|]. intros a. case_if; [lia | done].
    + destruct Hc as (Hc0 & E & Hl). run_call E. rewrite (proj2 (Z.eqb_neq c 0) Hc0).
      pose proof (len_nonneg l). rewrite len_cons in *.
      destruct (store_load m (d + i) c) as (m1 & E1 & Hlen1 & Hld1); [lia|]. run_call E1.
      destruct (IH m1 l (i + 1)) as (m' & E' & Hlen' & Hld'); try lia.
      { rewrite Z.add_assoc. apply (cstr_keep m); [|done].
        intros a Ha. rewrite Hld1. case_if; [lia | done]. }
      assert (Ek : i + 1 + Z.min (Z.of_nat n) (len l) = i + k) by (subst k; rewrite len_cons; lia).
      exists m'. split; [rewrite E', Ek; done|]. subst k. rewrite len_cons. split; [congruence|].
      intros a. rewrite Hld', !Hld1. destruct (decide (a = d + i)) as [->|].
      * rewrite Z.eqb_refl. repeat case_if; try lia. rewrite <- E. f_equal. lia.
      * rewrite (proj2 (Z.eqb_neq a (d + i))) by done. repeat case_if; try lia; try done. f_equal. lia.
Qed.

Lemma fill_ok (m : list Z) d lo hi v : 0 <= d + lo -> lo <= hi -> d + hi <= Z.of_nat (length m) ->
  exists m', for_range lo hi (fun i m => store m (d + i) v) m = Ok m' /\ length m' = length m /\
    forall k, load m' k = if (d + lo <=? k) && (k <? d + hi) then Ok v else load m k.
Proof.
  intros Hd Hlo Hhi. apply (for_range_rule (fun j m' => length m' = length m /\
    forall k, load m' k = if (d + lo <=? k) && (k <? d + j) then Ok v else load m k)); [lia| |].
  - split; [done|]. intros k. case_if; [lia | done].
  - intros i t Hi [Hlen Hld]. destruct (store_load t (d + i) v) as (t' & E & Hlen' & Hld'); [lia|].
    exists t'. split; [done|]. split; [congruence|]. intros k. rewrite Hld', Hld.
    repeat case_if; try done; lia.
Qed.

(** ** Hexadecimal numbers *)

Definition is_hex (c : Z) : Prop := 0 <= hex_digit c.

Lemma hex_digit_range c : -1 <= hex_digit c < 16.
Proof. unfold hex_digit. repeat case_if; lia. Qed.

Definition hex_value_from (acc : Z) (ds : list Z) : Z := fold_left (fun a c => a * 16 + hex_digit c) ds acc.

Lemma hex_value_mono ds acc : Forall is_hex ds -> 0 <= acc -> acc <= hex_value_from acc ds.
Proof.
  revert acc. induction ds as [|c ds IH]; intros acc Hf Ha; simpl; [lia|].
  apply Forall_cons_iff in Hf as [Hc Hf]. unfold is_hex in Hc.
  etrans; [|apply IH; [done|lia]]. lia.
Qed.

Lemma hex_loop_ok ds r acc : Forall is_hex ds -> ~ is_hex (deref r) -> 0 <= acc < 2 ^ 64 ->
  hex_loop (ds ++ r) acc =
    if hex_value_from acc ds <? 2 ^ 64 then Some (hex_value_from acc ds) else None.
Proof.
  revert acc. induction ds as [|c ds IH]; intros acc Hf Hr Ha; cbn [app].
  - simpl. rewrite (proj2 (Z.ltb_lt _ _)) by lia. destruct r as [|c r]; simpl; [done|].
    unfold is_hex in Hr. simpl in Hr. by rewrite (proj2 (Z.ltb_lt _ _)) by lia.
  - apply Forall_cons_iff in Hf as [Hc Hf]. unfold is_hex in Hc. cbn [hex_loop].
    rewrite (proj2 (Z.ltb_ge (hex_digit c) 0)) by lia. change (UINT64_MAX .>> 4) with (2 ^ 60 - 1).
    pose proof (hex_digit_range c). destruct (Z.ltb_spec (2 ^ 60 - 1) acc).
    + pose proof (hex_value_mono ds (acc * 16 + hex_digit c) Hf ltac:(lia)).
      change (hex_value_from acc (c :: ds)) with (hex_value_from (acc * 16 + hex_digit c) ds).
      by rewrite (proj2 (Z.ltb_ge _ _)) by lia.
    + assert (E : u64 (acc .<< 4) .| hex_digit c = acc * 16 + hex_digit c).
      { rewrite Z.shiftl_mul_pow2 by lia. rewrite u64_small by lia. apply (lor_add_disjoint acc _ 4); lia. }
      rewrite E. apply IH; [done | done | lia].
Qed.

Lemma skip_spaces_app sp r : Forall (fun c => is_space c = true) sp -> is_space (deref r) = false ->
  skip_spaces (sp ++ r) = r.
Proof.
  intros Hf Hr. induction Hf as [|c sp Hc Hf IH]; simpl.
  - destruct r as [|c r]; simpl in *; [done|]. by rewrite Hr.
  - by rewrite Hc.
Qed.

Lemma hex_not_space c : is_hex c -> is_space c = false.
Proof.
  intros Hc. destruct (is_space c) eqn:E; [|done]. unfold is_space in E.
  assert (c = 32 \/ c = 9 \/ c = 10 \/ c = 13 \/ c = 11 \/ c = 12) as Hcase by lia.
  exfalso. by destruct Hcase as [-> |[-> |[-> |[-> |[-> | ->]]]]].
Qed.

Lemma hex_to_u64_ok sp pre ds r :
  Forall (fun c => is_space c = true) sp -> pre = [] \/ pre = [48; 120] \/ pre = [48; 88] ->
  ds <> [] -> Forall is_hex ds -> ~ is_hex (deref r) ->
  (pre = [] -> deref r <> 120 /\ deref r <> 88) ->
  hex_to_u64 (sp ++ pre ++ ds ++ r) =
    if hex_value_from 0 ds <? 2 ^ 64 then Some (hex_value_from 0 ds) else None.
Proof.
  intros Hsp Hpre Hne Hds Hr Hamb. destruct ds as [|c ds]; [done|].
  pose proof Hds as [Hc Hds']%Forall_cons_iff. unfold hex_to_u64.
  rewrite skip_spaces_app; [|done|].
  2:{ destruct Hpre as [-> |[-> | ->]]; [|done|done]. simpl. by apply hex_not_space. }
  assert (Hpfx : (if (deref (pre ++ (c :: ds) ++ r) =? 48) &&
      ((deref (tail (pre ++ (c :: ds) ++ r)) =? 120) || (deref (tail (pre ++ (c :: ds) ++ r)) =? 88))
    then tail (tail (pre ++ (c :: ds) ++ r)) else pre ++ (c :: ds) ++ r) = (c :: ds) ++ r).
  { destruct Hpre as [-> |[-> | ->]]; [|done|done]. cbn [app deref tail].
    case_if; [|done]. exfalso. specialize (Hamb eq_refl). destruct ds as [|c' ds]; simpl in *; [lia|].
    apply Forall_cons_iff in Hds' as [Hc' _].
    assert (c' = 120 \/ c' = 88) as [-> | ->] by lia; by apply Hc'. }
  cbv zeta. rewrite Hpfx. cbn [app deref]. unfold is_hex in Hc.
  rewrite (proj2 (Z.ltb_ge (hex_digit c) 0)) by lia. apply (hex_loop_ok (c :: ds) r 0); [done|done|lia].
Qed.

(** ** Properties *)

(** [memmove] copies [count] bytes correctly whatever the overlap of the
    two regions, and changes nothing else. *)
Theorem memmove_correct m dest src count :
  0 <= count -> 0 <= dest -> 0 <= src ->
  dest + count <= Z.of_nat (length m) -> src + count <= Z.of_nat (length m) ->
  exists m', memmove dest src count m = Ok m' /\ length m' = length m /\
    forall k, load m' k = if (dest <=? k) && (k <? dest + count) then load m (src + (k - dest)) else load m k.
Proof.
  intros Hn Hd Hs Hdn Hsn. unfold memmove. destruct ((dest =? src) || (count =? 0)) eqn:E0.
  - exists m. split; [done|]. split; [done|]. intros k. case_if; [|done].
    assert (dest = src) as -> by lia. f_equal. lia.
  - destruct (Z.ltb_spec dest src).
    + destruct (copy_forward m dest src count) as (m' & E & Hm); try lia. exists m'. by split.
    + destruct (copy_backward m dest src count) as (m' & E & Hm); try lia. exists m'. by split.
Qed.

Lemma memmove_correct_witness : exists m', memmove 1 0 3 [10; 20; 30; 40] = Ok m' /\ load m' 3 = Ok 30.
Proof.
  destruct (memmove_correct [10; 20; 30; 40] 1 0 3) as (m' & E & _ & Hk); try (simpl; lia).
  exists m'. split; [exact E|]. rewrite (Hk 3). reflexivity.
Defined.

(** [strcmp] on two strings returns 0 exactly when they are equal and a
    negative number exactly when the first precedes the second
    lexicographically by bytes. *)
Theorem strcmp_correct m a b la lb :
  cstr m a la -> cstr m b lb -> Forall is_byte la -> Forall is_byte lb ->
  exists r, strcmp a b m = Ok r /\ (r = 0 <-> la = lb) /\ (r < 0 <-> lex_lt la lb = true).
Proof.
  intros Ha Hb Hba Hbb. apply strcmp_loop_ok; try done. by apply (cstr_fuel m a).
Qed.

Lemma strcmp_correct_witness : exists r, strcmp 0 3 [97; 98; 0; 97; 99; 0] = Ok r /\ r < 0.
Proof.
  destruct (strcmp_correct [97; 98; 0; 97; 99; 0] 0 3 [97; 98] [97; 99]) as (r & E & _ & H).
  - repeat split; discriminate.
  - repeat split; discriminate.
  - repeat constructor; discriminate.
  - repeat constructor; discriminate.
  - exists r. split; [exact E|]. apply H. reflexivity.
Defined.

(** [strcat] leaves the concatenation at [dest], keeps the source string,
    and writes only the bytes after the old end of [dest]. *)
Theorem strcat_correct m dest src ld ls :
  cstr m dest ld -> cstr m src ls -> dest + len ld + len ls < Z.of_nat (length m) ->
  src + len ls < dest \/ dest + len ld + len ls < src ->
  exists m', strcat dest src m = Ok m' /\ cstr m' dest (ld ++ ls) /\ cstr m' src ls /\
    forall k, ~ (dest + len ld <= k <= dest + len ld + len ls) -> load m' k = load m k.
Proof.
  intros Hd Hs Hb Hov. pose proof (len_nonneg ld). pose proof (len_nonneg ls).
  destruct (strcat_ok m dest src ld ls Hd Hs Hb Hov) as (m' & E & Hlen & Hld).
  assert (Hout : forall k, ~ (dest + len ld <= k <= dest + len ld + len ls) -> load m' k = load m k).
  { intros k Hk. rewrite Hld. case_if; [lia | done]. }
  exists m'. split; [done|]. split; [|split; [|done]].
  - destruct (cstr_chars m dest ld Hd) as [Hf Hch]. apply cstr_app; [done| |].
    + intros k c Hk. rewrite Hout; [by apply Hch|]. apply lookup_lt_Some in Hk. unfold len in *. lia.
    + apply (cstr_shift m _ src); [|done]. intros k Hk. rewrite Hld. case_if; [|lia]. f_equal. lia.
  - apply (cstr_keep m); [|done]. intros k Hk. apply Hout. lia.
Qed.

Lemma strcat_correct_witness : exists m', strcat 0 4 [97; 0; 7; 7; 98; 0] = Ok m' /\ cstr m' 0 [97; 98].
Proof.
  destruct (strcat_correct [97; 0; 7; 7; 98; 0] 0 4 [97] [98]) as (m' & E & C & _).
  - repeat split; discriminate.
  - repeat split; discriminate.
  - reflexivity.
  - right. reflexivity.
  - exists m'. split; [exact E | exact C].
Defined.

(** [strncpy] writes exactly [count] bytes: the string, cut off at
    [count] and then without a terminator, and zeros after it. *)
Theorem strncpy_correct m dest src l count :
  cstr m src l -> 0 <= dest -> 0 <= count -> dest + count <= Z.of_nat (length m) ->
  src + len l < dest \/ dest + count <= src ->
  exists m', strncpy dest src count m = Ok m' /\ forall k, load m' k =
    if (dest <=? k) && (k <? dest + count)
    then (if k - dest <? len l then load m (src + (k - dest)) else Ok 0) else load m k.
Proof.
  intros Hc Hd Hn Hb Hov. pose proof (len_nonneg l). unfold strncpy.
  destruct (strncpy_loop_ok m dest src l (Z.to_nat count) 0) as (m1 & E & Hlen & Hld);
    rewrite ?Z.add_0_r in *; try done; try lia.
  rewrite Z2Nat.id in E, Hld by lia. run_call E.
  destruct (fill_ok m1 dest (0 + Z.min count (len l)) count 0) as (m' & E' & _ & Hld'); try lia.
  exists m'. split; [done|]. intros k. rewrite Hld', Hld. repeat case_if; try lia; done.
Qed.

Lemma strncpy_correct_witness : exists m', strncpy 0 4 3 [1; 2; 3; 4; 98; 0] = Ok m' /\ load m' 2 = Ok 0.
Proof.
  destruct (strncpy_correct [1; 2; 3; 4; 98; 0] 0 4 [98] 3) as (m' & E & Hk); try lia.
  - repeat split; discriminate.
  - simpl. lia.
  - exists m'. split; [exact E|]. rewrite (Hk 2). reflexivity.
Defined.

(** [hex_to_u64] skips white space and a 0x prefix and returns the value
    of the hexadecimal digits that follow when it fits in 64 bits; it fails
    exactly when the value does not fit, so no digit string wraps. *)
Theorem hex_to_u64_correct sp pre ds r :
  Forall (fun c => is_space c = true) sp -> pre = [] \/ pre = [48; 120] \/ pre = [48; 88] ->
  ds <> [] -> Forall is_hex ds -> ~ is_hex (deref r) ->
  (pre = [] -> deref r <> 120 /\ deref r <> 88) ->
  hex_to_u64 (sp ++ pre ++ ds ++ r) =
    if hex_value_from 0 ds <? 2 ^ 64 then Some (hex_value_from 0 ds) else None.
Proof. apply hex_to_u64_ok. Qed.

Lemma hex_to_u64_correct_witness : hex_to_u64 [32; 48; 120; 49; 70; 10] = Some 31.
Proof.
  apply (hex_to_u64_correct [32] [48; 120] [49; 70] [10]).
  - repeat constructor.
  - right. left. reflexivity.
  - discriminate.
  - repeat constructor; discriminate.
  - intros H. apply H. reflexivity.
  - discriminate.
Defined.
