(* ===== verification/Keyboard.v ===== *)
(** PS/2 keyboard driver, [src/src/drivers/keyboard/keyboard.cpp]: a scancode
    state machine in front of a ring buffer of 256 characters, of which 255
    can be in use.  The port read of [onIRQ] is the argument [scancode]; the
    task that calls [hasChar] and [getChar] is the argument [current], the id
    of [Scheduler::currentTask()].  A callback is an address; [onIRQ] returns
    the callback it invoked.

    The ring is shown to implement a bounded queue, and a run of interrupts
    followed by reads to deliver the decoded characters in order. *)

From Stdlib Require Import ZifyBool.
From S2P Require Import Prelude.

Definition BUFFER_SIZE : Z := 256.

Definition KEY_UP : Z := 0x80.
Definition KEY_DOWN : Z := 0x81.
Definition KEY_LEFT : Z := 0x82.
Definition KEY_RIGHT : Z := 0x83.

Record Keyboard := mkKbd {
  g_buffer : list Z;
  g_head : Z;
  g_tail : Z;
  g_shift_pressed : bool;
  g_extended : bool;
  g_focused_task_id : Z;
  g_on_char_callback : option Z;
}.

(** The initialisers give the first 59 entries, the others are zero. *)
Definition scancode_ascii : list Z :=
  [0; 27; 49; 50; 51; 52; 53; 54; 55; 56; 57; 48; 45; 61; 8; 9; 113; 119; 101; 114; 116;
   121; 117; 105; 111; 112; 91; 93; 10; 0; 97; 115; 100; 102; 103; 104; 106; 107; 108;
   59; 39; 96; 0; 92; 122; 120; 99; 118; 98; 110; 109; 44; 46; 47; 0; 42; 0; 32; 0]
  ++ replicate 69 0.

Definition scancode_ascii_shift : list Z :=
  [0; 27; 33; 64; 35; 36; 37; 94; 38; 42; 40; 41; 95; 43; 8; 9; 81; 87; 69; 82; 84; 89;
   85; 73; 79; 80; 123; 125; 10; 0; 65; 83; 68; 70; 71; 72; 74; 75; 76; 58; 34; 126; 0;
   124; 90; 88; 67; 86; 66; 78; 77; 60; 62; 63; 0; 42; 0; 32; 0]
  ++ replicate 69 0.

Definition SCANCODE_LSHIFT_DOWN : Z := 0x2A.
Definition SCANCODE_RSHIFT_DOWN : Z := 0x36.
Definition SCANCODE_LSHIFT_UP : Z := 0xAA.
Definition SCANCODE_RSHIFT_UP : Z := 0xB6.
Definition SCANCODE_RELEASE_BIT : Z := 0x80.
Definition SCANCODE_EXT_UP : Z := 0x48.
Definition SCANCODE_EXT_DOWN : Z := 0x50.
Definition SCANCODE_EXT_LEFT : Z := 0x4B.
Definition SCANCODE_EXT_RIGHT : Z := 0x4D.

Definition with_ring (k : Keyboard) (b : list Z) (h t : Z) : Keyboard :=
  mkKbd b h t (g_shift_pressed k) (g_extended k) (g_focused_task_id k) (g_on_char_callback k).

Definition with_keys (k : Keyboard) (shift ext : bool) : Keyboard :=
  mkKbd (g_buffer k) (g_head k) (g_tail k) shift ext (g_focused_task_id k) (g_on_char_callback k).

Definition with_callback (k : Keyboard) (cb : option Z) : Keyboard :=
  mkKbd (g_buffer k) (g_head k) (g_tail k) (g_shift_pressed k) (g_extended k) (g_focused_task_id k) cb.

Definition pushChar (c : Z) (k : Keyboard) : outcome Keyboard :=
  let next := (g_head k + 1) mod BUFFER_SIZE in
  if next =? g_tail k then mret k else
  b ← store (g_buffer k) (g_head k) c;
  mret (with_ring k b next (g_tail k)).

Definition setFocus (task_id : Z) (k : Keyboard) : Keyboard :=
  mkKbd (g_buffer k) (g_head k) (g_tail k) (g_shift_pressed k) (g_extended k) task_id (g_on_char_callback k).

Definition getFocus (k : Keyboard) : Z := g_focused_task_id k.

Definition callerIsFocused (current : option Z) (k : Keyboard) : bool :=
  if g_focused_task_id k =? 0 then true else
  match current with Some id => id =? g_focused_task_id k | None => false end.

Definition setOnCharCallback (cb : option Z) (k : Keyboard) : Keyboard := with_callback k cb.

Definition init (k : Keyboard) : Keyboard := with_keys (with_ring k (g_buffer k) 0 0) false false.

Definition onIRQ (scancode : Z) (k : Keyboard) : outcome (Keyboard * option Z) :=
  if scancode =? 0xE0 then mret (with_keys k (g_shift_pressed k) true, None) else
  if g_extended k then
    let k := with_keys k (g_shift_pressed k) false in
    if has scancode SCANCODE_RELEASE_BIT then mret (k, None) else
    k' ← (if scancode =? SCANCODE_EXT_UP then pushChar KEY_UP k else
          if scancode =? SCANCODE_EXT_DOWN then pushChar KEY_DOWN k else
          if scancode =? SCANCODE_EXT_LEFT then pushChar KEY_LEFT k else
          if scancode =? SCANCODE_EXT_RIGHT then pushChar KEY_RIGHT k else mret k);
    mret (k', None)
  else
  if (scancode =? SCANCODE_LSHIFT_DOWN) || (scancode =? SCANCODE_RSHIFT_DOWN)
  then mret (with_keys k true (g_extended k), None) else
  if (scancode =? SCANCODE_LSHIFT_UP) || (scancode =? SCANCODE_RSHIFT_UP)
  then mret (with_keys k false (g_extended k), None) else
  if has scancode SCANCODE_RELEASE_BIT then mret (k, None) else
  if 128 <=? scancode then mret (k, None) else
  c ← load (if g_shift_pressed k then scancode_ascii_shift else scancode_ascii) scancode;
  if negb (c =? 0) then
    k' ← pushChar c k;
    match g_on_char_callback k' with
    | Some cb => mret (with_callback k' None, Some cb)
    | None => mret (k', None)
    end
  else mret (k, None).

Definition hasChar (current : option Z) (k : Keyboard) : bool :=
  negb (g_head k =? g_tail k) && callerIsFocused current k.

Definition getChar (current : option Z) (k : Keyboard) : outcome (Z * Keyboard) :=
  if (g_head k =? g_tail k) || negb (callerIsFocused current k) then mret (0, k) else
  c ← load (g_buffer k) (g_tail k);
  mret (c, with_ring k (g_buffer k) (g_head k) ((g_tail k + 1) mod BUFFER_SIZE)).

(** ** The bounded queue *)

Definition kbd_wf (k : Keyboard) : Prop :=
  length (g_buffer k) = 256%nat /\ 0 <= g_head k < BUFFER_SIZE /\ 0 <= g_tail k < BUFFER_SIZE.

Definition used (k : Keyboard) : Z := (g_head k - g_tail k) mod BUFFER_SIZE.

(** The characters waiting, oldest first. *)
Definition contents (k : Keyboard) : list Z :=
  (fun i => g_buffer k !!! Z.to_nat ((g_tail k + i) mod BUFFER_SIZE)) <$> seqZ 0 (used k).

Lemma used_range k : 0 <= used k < BUFFER_SIZE.
Proof. apply Z.mod_pos_bound. done. Qed.

Lemma length_contents k : Z.of_nat (length (contents k)) = used k.
Proof. pose proof (used_range k). unfold contents. rewrite length_fmap, length_seqZ. lia. Qed.

Lemma contents_ext k k' : used k' = used k ->
  (forall i, 0 <= i < used k -> g_buffer k' !!! Z.to_nat ((g_tail k' + i) mod BUFFER_SIZE) =
                               g_buffer k !!! Z.to_nat ((g_tail k + i) mod BUFFER_SIZE)) ->
  contents k' = contents k.
Proof.
  intros Hu Hi. unfold contents. rewrite Hu. apply list_fmap_ext. intros j i Hj.
  apply lookup_seqZ in Hj as [-> Hlt]. apply Hi. lia.
Qed.

Lemma contents_snoc k k' c : used k' = used k + 1 -> g_tail k' = g_tail k ->
  (forall i, 0 <= i < used k -> g_buffer k' !!! Z.to_nat ((g_tail k + i) mod BUFFER_SIZE) =
                               g_buffer k !!! Z.to_nat ((g_tail k + i) mod BUFFER_SIZE)) ->
  g_buffer k' !!! Z.to_nat ((g_tail k + used k) mod BUFFER_SIZE) = c ->
  contents k' = contents k ++ [c].
Proof.
  intros Hu Ht Hi Hc. pose proof (used_range k). unfold contents. rewrite Hu, Ht, seqZ_app by lia.
  rewrite fmap_app. f_equal.
  - apply list_fmap_ext. intros j i Hj. apply lookup_seqZ in Hj as [-> Hlt]. apply Hi. lia.
  - unfold seqZ. simpl. replace (Z.of_nat 0 + (0 + used k)) with (used k) by lia. by rewrite Hc.
Qed.

Lemma contents_cons k : 0 < used k ->
  contents k = g_buffer k !!! Z.to_nat (g_tail k mod BUFFER_SIZE) ::
    ((fun i => g_buffer k !!! Z.to_nat ((g_tail k + i) mod BUFFER_SIZE)) <$> seqZ 1 (used k - 1)).
Proof.
  intros Hu. unfold contents. rewrite seqZ_cons by lia. simpl. rewrite Z.add_0_r. by f_equal.
Qed.

Lemma pushChar_ok c k : kbd_wf k ->
  exists k', pushChar c k = Ok k' /\ kbd_wf k' /\
    contents k' = (if used k =? 255 then contents k else contents k ++ [c]) /\
    g_shift_pressed k' = g_shift_pressed k /\ g_extended k' = g_extended k /\
    g_focused_task_id k' = g_focused_task_id k /\ g_on_char_callback k' = g_on_char_callback k.
Proof.
  intros (Hlen & Hh & Ht). unfold pushChar. unfold used, BUFFER_SIZE in *.
  destruct (Z.eqb_spec ((g_head k + 1) mod 256) (g_tail k)) as [E|E].
  - exists k. split; [done|]. split; [split; [done | unfold BUFFER_SIZE; lia]|]. split; [|by split_and!].
    case_if; [done|]. Z.to_euclidean_division_equations. lia.
  - rewrite store_in_range by lia. cbn [mbind outcome_bind].
    eexists. split; [reflexivity|]. split_and!; try done.
    + split; [simpl; by rewrite length_insert|]. unfold BUFFER_SIZE. simpl.
      split; [apply Z.mod_pos_bound; lia | done].
    + case_if; [exfalso; Z.to_euclidean_division_equations; lia|].
      apply contents_snoc; simpl; unfold used, BUFFER_SIZE; simpl.
      * Z.to_euclidean_division_equations. lia.
      * done.
      * intros i Hi. rewrite list_lookup_total_insert_ne; [done|].
        Z.to_euclidean_division_equations. lia.
      * replace ((g_tail k + (g_head k - g_tail k) mod 256) mod 256) with (g_head k)
          by (Z.to_euclidean_division_equations; lia).
        apply list_lookup_total_insert_eq. lia.
Qed.

Lemma getChar_ok current k : kbd_wf k -> callerIsFocused current k = true ->
  exists c k', getChar current k = Ok (c, k') /\ kbd_wf k' /\
    match contents k with [] => c = 0 /\ k' = k | x :: l => c = x /\ contents k' = l end.
Proof.
  intros (Hlen & Hh & Ht) Hf. unfold getChar. rewrite Hf. rewrite orb_false_r.
  unfold BUFFER_SIZE in *. destruct (Z.eqb_spec (g_head k) (g_tail k)) as [E|E].
  - exists 0, k. split; [done|]. split; [split; [done | unfold BUFFER_SIZE; lia]|].
    assert (used k = 0) as Hu by (unfold used; rewrite E, Z.sub_diag; done).
    unfold contents. by rewrite Hu.
  - assert (Hu : 0 < used k) by (unfold used, BUFFER_SIZE; Z.to_euclidean_division_equations; lia).
    destruct (load_in_range (g_buffer k) (g_tail k)) as (c & El & Ec); [lia|]. rewrite El.
    cbn [mbind outcome_bind]. eexists c, _. split; [reflexivity|]. split.
    + split; [done|]. unfold BUFFER_SIZE. simpl. split; [done | apply Z.mod_pos_bound; lia].
    + rewrite contents_cons by done. unfold BUFFER_SIZE. rewrite Z.mod_small by lia. split.
      * symmetry. by apply list_lookup_total_correct.
      * unfold contents. simpl.
        assert (used (with_ring k (g_buffer k) (g_head k) ((g_tail k + 1) mod 256)) = used k - 1) as ->.
        { unfold used, BUFFER_SIZE in *. simpl. Z.to_euclidean_division_equations. lia. }
        replace (seqZ 1 (used k - 1)) with ((fun i => i + 1) <$> seqZ 0 (used k - 1)).
        2:{ apply list_eq. intros n. rewrite list_lookup_fmap.
            unfold seqZ. rewrite !list_lookup_fmap. destruct (seq 0 (Z.to_nat (used k - 1)) !! n) eqn:En; simpl; f_equal. lia. }
        rewrite <- list_fmap_compose. apply list_fmap_ext. intros j i _. simpl. do 2 f_equal. unfold BUFFER_SIZE.
        rewrite Zplus_mod_idemp_l. f_equal. lia.
Qed.

(** ** Decoding *)

Definition arrow (sc : Z) : option Z :=
  if sc =? SCANCODE_EXT_UP then Some KEY_UP else
  if sc =? SCANCODE_EXT_DOWN then Some KEY_DOWN else
  if sc =? SCANCODE_EXT_LEFT then Some KEY_LEFT else
  if sc =? SCANCODE_EXT_RIGHT then Some KEY_RIGHT else None.

Definition ascii (shift : bool) (sc : Z) : option Z :=
  match (if shift then scancode_ascii_shift else scancode_ascii) !! Z.to_nat sc with
  | Some c => if c =? 0 then None else Some c
  | None => None
  end.

(** The key state after a scancode and the character it produces. *)
Definition decode (shift ext : bool) (sc : Z) : bool * bool * option Z :=
  if sc =? 0xE0 then (shift, true, None)
  else if ext then (shift, false, if sc <? 128 then arrow sc else None)
  else if (sc =? 0x2A) || (sc =? 0x36) then (true, false, None)
  else if (sc =? 0xAA) || (sc =? 0xB6) then (false, false, None)
  else (shift, false, if sc <? 128 then ascii shift sc else None).

Fixpoint decode_all (shift ext : bool) (codes : list Z) : list Z :=
  match codes with
  | [] => []
  | sc :: codes' =>
      let '(shift', ext', c) := decode shift ext sc in
      option_list c ++ decode_all shift' ext' codes'
  end.

Definition enqueue (q : list Z) (c : option Z) : list Z :=
  match c with Some c => if Z.of_nat (length q) =? 255 then q else q ++ [c] | None => q end.

Lemma has_release sc : 0 <= sc < 256 -> has sc SCANCODE_RELEASE_BIT = (128 <=? sc).
Proof.
  intros Hsc. change SCANCODE_RELEASE_BIT with (1 .<< 7). rewrite has_one_shl by lia.
  rewrite Z.testbit_odd, Z.shiftr_div_pow2 by lia. change (2 ^ 7) with 128.
  destruct (Z.leb_spec 128 sc).
  - assert (sc / 128 = 1) as -> by (Z.to_euclidean_division_equations; lia). done.
  - by rewrite Z.div_small by lia.
Qed.

Lemma table_entry shift sc : 0 <= sc < 128 ->
  exists c, load (if (shift : bool) then scancode_ascii_shift else scancode_ascii) sc = Ok c /\
    ascii shift sc = if c =? 0 then None else Some c.
Proof.
  intros Hsc. destruct (load_in_range (if shift then scancode_ascii_shift else scancode_ascii) sc)
    as (c & E & El); [destruct shift; simpl; lia|].
  exists c. split; [done|]. unfold ascii. by rewrite El.
Qed.

(** What a push of an optional character does to the queue. *)
Lemma push_option_ok k (o : option Z) (r : outcome Keyboard) :
  kbd_wf k -> r = match o with Some c => pushChar c k | None => Ok k end ->
  exists k', r = Ok k' /\ kbd_wf k' /\ contents k' = enqueue (contents k) o /\
    g_shift_pressed k' = g_shift_pressed k /\ g_extended k' = g_extended k /\
    g_focused_task_id k' = g_focused_task_id k /\ g_on_char_callback k' = g_on_char_callback k.
Proof.
  intros Hwf ->. destruct o as [c|]; [|by exists k; split_and!].
  destruct (pushChar_ok c k Hwf) as (k' & E & W & C & R). exists k'. split_and!; try done; try apply R.
  simpl. by rewrite length_contents.
Qed.

Lemma onIRQ_ok sc k : kbd_wf k -> 0 <= sc < 256 ->
  exists k' cb, onIRQ sc k = Ok (k', cb) /\ kbd_wf k' /\
    let '(shift, ext, c) := decode (g_shift_pressed k) (g_extended k) sc in
    g_shift_pressed k' = shift /\ g_extended k' = ext /\ contents k' = enqueue (contents k) c /\
    g_focused_task_id k' = g_focused_task_id k.
Proof.
  intros Hwf Hsc. unfold onIRQ, decode. rewrite has_release by done.
  destruct (sc =? 0xE0); [by eexists _, None|].
  destruct (g_extended k) eqn:Hext.
  - cbv zeta. set (k0 := with_keys k (g_shift_pressed k) false).
    assert (Hwf0 : kbd_wf k0) by done.
    destruct (Z.leb_spec 128 sc) as [Hrel|Hrel].
    { rewrite (proj2 (Z.ltb_ge _ _)) by lia. by eexists _, None. }
    rewrite (proj2 (Z.ltb_lt _ _)) by lia.
    destruct (push_option_ok k0 (arrow sc) (if sc =? SCANCODE_EXT_UP then pushChar KEY_UP k0 else
          if sc =? SCANCODE_EXT_DOWN then pushChar KEY_DOWN k0 else
          if sc =? SCANCODE_EXT_LEFT then pushChar KEY_LEFT k0 else
          if sc =? SCANCODE_EXT_RIGHT then pushChar KEY_RIGHT k0 else mret k0)) as (k' & E & W & C & S1 & S2 & S3 & _);
      [done | unfold arrow; by repeat case_if |].
    rewrite E. by exists k', None.
  - unfold SCANCODE_LSHIFT_DOWN, SCANCODE_RSHIFT_DOWN, SCANCODE_LSHIFT_UP, SCANCODE_RSHIFT_UP.
    destruct ((sc =? 0x2A) || (sc =? 0x36)); [by eexists _, None|].
    destruct ((sc =? 0xAA) || (sc =? 0xB6)); [by eexists _, None|].
    destruct (Z.leb_spec 128 sc) as [Hrel|Hrel].
    { rewrite (proj2 (Z.ltb_ge _ _)) by lia. by eexists _, None. }
    rewrite (proj2 (Z.ltb_lt _ _)) by lia.
    destruct (table_entry (g_shift_pressed k) sc) as (c & El & Ea); [lia|].
    run_call El. rewrite Ea. destruct (c =? 0); simpl negb; cbv iota; [by eexists _, None|].
    destruct (push_option_ok k (Some c) _ Hwf eq_refl) as (k' & E & W & C & S1 & S2 & S3 & S4).
    run_call E. rewrite S4. destruct (g_on_char_callback k) as [cb|].
    + exists (with_callback k' None), (Some cb). split_and!; try done. simpl. congruence.
    + exists k', None. split_and!; try done. congruence.
Qed.

(** Interrupts with the given scancodes, then reads by one task. *)
Fixpoint run_irqs (codes : list Z) (k : Keyboard) : outcome Keyboard :=
  match codes with
  | [] => mret k
  | sc :: codes' => '(k', _) ← onIRQ sc k; run_irqs codes' k'
  end.

Fixpoint read_chars (n : nat) (current : option Z) (k : Keyboard) : outcome (list Z * Keyboard) :=
  match n with
  | O => mret ([], k)
  | S n' => '(c, k') ← getChar current k; '(l, k'') ← read_chars n' current k'; mret (c :: l, k'')
  end.

Lemma run_irqs_ok codes k : kbd_wf k -> Forall (fun sc => 0 <= sc < 256) codes ->
  (length (contents k) + length (decode_all (g_shift_pressed k) (g_extended k) codes) <= 255)%nat ->
  exists k', run_irqs codes k = Ok k' /\ kbd_wf k' /\
    contents k' = contents k ++ decode_all (g_shift_pressed k) (g_extended k) codes /\
    g_focused_task_id k' = g_focused_task_id k.
Proof.
  revert k. induction codes as [|sc codes IH]; intros k Hwf Hf Hlen; cbn [run_irqs decode_all] in *.
  - exists k. split_and!; try done. by rewrite app_nil_r.
  - apply Forall_cons_iff in Hf as [Hsc Hf].
    destruct (onIRQ_ok sc k Hwf Hsc) as (k1 & cb & E & W & Hd). run_call E.
    destruct (decode (g_shift_pressed k) (g_extended k) sc) as [[shift ext] c] eqn:Ed.
    destruct Hd as (<- & <- & C & F). rewrite length_app in Hlen.
    assert (C' : contents k1 = contents k ++ option_list c).
    { rewrite C. destruct c as [c|]; simpl; [|by rewrite app_nil_r]. simpl in Hlen.
      by rewrite (proj2 (Z.eqb_neq _ _)) by lia. }
    destruct (IH k1 W Hf) as (k' & E' & W' & C2 & F2); [rewrite C', length_app; lia|].
    exists k'. split_and!; try done; [|congruence]. by rewrite C2, C', app_assoc.
Qed.

Lemma read_chars_ok current k : kbd_wf k -> callerIsFocused current k = true ->
  exists k', read_chars (length (contents k)) current k = Ok (contents k, k') /\ kbd_wf k' /\ contents k' = [].
Proof.
  remember (contents k) as l eqn:El. revert k El.
  induction l as [|c l IH]; intros k El Hwf Hf; cbn [length read_chars].
  - exists k. by split_and!.
  - destruct (getChar_ok current k Hwf Hf) as (c' & k1 & E & W & Hm). rewrite <- El in Hm.
    destruct Hm as [-> C]. run_call E.
    assert (Hf1 : callerIsFocused current k1 = true).
    { unfold getChar in E. rewrite Hf in E. destruct ((g_head k =? g_tail k) || negb true).
      - by injection E as _ <-.
      - apply bind_ok in E as (x & _ & Ex). by injection Ex as _ <-. }
    destruct (IH k1 (eq_sym C) W Hf1) as (k' & E' & W' & C'). run_call E'. by exists k'.
Qed.

(** The ring buffer is a queue of at most 255 characters: a push appends
    the character, or drops it when 255 are waiting, and a read by the
    focused task returns and removes the oldest character, or returns 0 and
    changes nothing when there is none. *)
Theorem keyboard_ring_refines_queue k c current : kbd_wf k -> callerIsFocused current k = true ->
  (exists k', pushChar c k = Ok k' /\ kbd_wf k' /\ contents k' = enqueue (contents k) (Some c)) /\
  (exists r k', getChar current k = Ok (r, k') /\ kbd_wf k' /\
    match contents k with [] => r = 0 /\ k' = k | x :: l => r = x /\ contents k' = l end) /\
  (length (contents k) <= 255)%nat /\ hasChar current k = negb (bool_decide (contents k = [])).
Proof.
  intros Hwf Hf. split; [|split; [|split]].
  - destruct (push_option_ok k (Some c) _ Hwf eq_refl) as (k' & E & W & C & _). by exists k'.
  - by apply getChar_ok.
  - pose proof (length_contents k). pose proof (used_range k). unfold BUFFER_SIZE in *. lia.
  - unfold hasChar. rewrite Hf, andb_true_r. f_equal. pose proof (length_contents k) as Hl.
    destruct Hwf as (_ & Hh & Ht). unfold used, BUFFER_SIZE in *.
    destruct (Z.eqb_spec (g_head k) (g_tail k)) as [E|E].
    + rewrite E, Z.sub_diag in Hl. rewrite bool_decide_eq_true_2; [done|].
      destruct (contents k); [done | simpl in Hl; done].
    + rewrite bool_decide_eq_false_2; [done|]. intros Hnil. rewrite Hnil in Hl. simpl in Hl.
      Z.to_euclidean_division_equations. lia.
Qed.

(** C36. Any burst of scancodes that decodes to at most 255 characters is
    delivered to the focused reader completely and in order, with shift and
    extended prefixes applied. *)
Theorem keyboard_delivers_in_order codes k current : kbd_wf k -> contents k = [] ->
  callerIsFocused current k = true -> Forall (fun sc => 0 <= sc < 256) codes ->
  let typed := decode_all (g_shift_pressed k) (g_extended k) codes in
  (length typed <= 255)%nat ->
  exists k' k'', run_irqs codes k = Ok k' /\ read_chars (length typed) current k' = Ok (typed, k'') /\
    contents k'' = [].
Proof.
  intros Hwf Hc Hf Hcodes typed Hlen.
  destruct (run_irqs_ok codes k Hwf Hcodes) as (k' & E & W & C & F); [rewrite Hc; done|].
  rewrite Hc in C. cbn [app] in C. fold typed in C.
  assert (Hf' : callerIsFocused current k' = true) by (unfold callerIsFocused in *; by rewrite F).
  destruct (read_chars_ok current k' W Hf') as (k'' & E' & _ & C''). rewrite C in E'. by exists k', k''.
Qed.

Definition sample_kbd : Keyboard := mkKbd (replicate 256 0) 250 250 false false 0 None.

Lemma keyboard_ring_refines_queue_witness :
  exists k', pushChar 65 sample_kbd = Ok k' /\ contents k' = [65].
Proof.
  destruct (keyboard_ring_refines_queue sample_kbd 65 None) as [(k' & E & _ & C) _].
  - split; [reflexivity | unfold BUFFER_SIZE; simpl; lia].
  - reflexivity.
  - exists k'. split; [exact E | exact C].
Defined.

(** Shift down, [h], shift up, [i], then the up arrow: "Hi" and [KEY_UP]. *)
Lemma keyboard_delivers_in_order_witness :
  exists k' k'', run_irqs [0x2A; 0x23; 0xA3; 0xAA; 0x17; 0xE0; 0x48] sample_kbd = Ok k' /\
    read_chars 3 None k' = Ok ([72; 105; 0x80], k'').
Proof.
  destruct (keyboard_delivers_in_order [0x2A; 0x23; 0xA3; 0xAA; 0x17; 0xE0; 0x48] sample_kbd None)
    as (k' & k'' & E1 & E2 & _).
  - split; [reflexivity | unfold BUFFER_SIZE; simpl; lia].
  - reflexivity.
  - reflexivity.
  - repeat constructor; discriminate.
  - vm_compute. lia.
  - exists k', k''. split; [exact E1 | exact E2].
Defined.
