(* ===== verification/Scheduler.v ===== *)
(** Round-robin scheduler, [src/src/shed/scheduler.cpp] and [scheduler.h].

    The tasks form a circular list through their [next] pointers; [tasks] is
    the memory that holds them, indexed by address, and following a pointer
    to no task is a [Fault].  The null pointer is 0.  The heap and the address
    space constructor are reached through the interface [TaskServices].  What
    the switch changes in the processor is part of the state: the stack
    pointer the interrupt return will load ([g_next_task_rsp]), the kernel
    stack of the task state segment and CR3.

    [yield] is [int 32], whose handler calls [tick]: a call that blocks is
    modelled up to the interrupt, and continues from the state in which its
    task runs again. *)

From S2P Require Import Prelude.

Inductive TaskState := Ready | Running | Blocked | Terminated.

#[export] Instance TaskState_eq_dec : EqDecision TaskState.
Proof. solve_decision. Defined.

Record Task := mkTask {
  rsp : Z;
  id : Z;
  state : TaskState;
  stack_base : Z;
  kernel_stack_top : Z;
  brk_start : Z;
  brk_current : Z;
  exit_code : Z;
  waiting_parent : Z;
  plm4_phys : Z;
  next : Z;
}.

(** The fields of [Registers] that [createTask] sets; the others are zero. *)
Record Frame := mkFrame { f_rip : Z; f_cs : Z; f_rflags : Z; f_rsp : Z; f_ss : Z }.

Definition GDT_KERNEL_CODE : Z := 0x08.
Definition GDT_KERNEL_DATA : Z := 0x10.
Definition SIZEOF_Task : Z := 80.
Definition SIZEOF_Registers : Z := 22 * 8.
Definition MAX_PENDING_CLEANUP : nat := 8.

(** [Heap::kmalloc], [Heap::kfree] and [VMM::createAddressSpace] as the
    scheduler uses them.  [ts_live] is the set of pointers handed out. *)
Class TaskServices (E : Type) := {
  ts_kmalloc : Z -> E -> outcome (Z * E);
  ts_kfree : Z -> E -> outcome E;
  ts_create_space : E -> outcome (Z * E);
  ts_live : E -> gset Z;
  ts_ok : E -> Prop;
  ts_kmalloc_spec n e : ts_ok e -> exists p e', ts_kmalloc n e = Ok (p, e') /\ ts_ok e' /\
    ((p = 0 /\ ts_live e' = ts_live e) \/ (p <> 0 /\ ~ (p ∈ ts_live e) /\ ts_live e' = {[p]} ∪ ts_live e));
  ts_kfree_spec p e : ts_ok e -> exists e', ts_kfree p e = Ok e' /\ ts_ok e' /\
    ts_live e' = ts_live e ∖ {[p]};
  ts_create_space_spec e : ts_ok e -> exists a e', ts_create_space e = Ok (a, e') /\ ts_ok e' /\
    ts_live e' = ts_live e;
}.

Record Sched (E : Type) := mkSched {
  tasks : gmap Z Task;
  frames : gmap Z Frame;
  g_current : Z;
  g_tail : Z;
  g_next_id : Z;
  g_started : bool;
  g_pending_cleanup : list Z;
  g_next_task_rsp : Z;
  tss_rsp0 : Z;
  cpu_cr3 : Z;
  kbd_focus : Z;
  env : E;
}.
Arguments mkSched {E}.
Arguments tasks {E}.
Arguments frames {E}.
Arguments g_current {E}.
Arguments g_tail {E}.
Arguments g_next_id {E}.
Arguments g_started {E}.
Arguments g_pending_cleanup {E}.
Arguments g_next_task_rsp {E}.
Arguments tss_rsp0 {E}.
Arguments cpu_cr3 {E}.
Arguments kbd_focus {E}.
Arguments env {E}.

Section scheduler.
Context {E : Type} `{TaskServices E}.
Implicit Types s : Sched E.

Definition get_task (a : Z) (s : Sched E) : outcome Task :=
  match tasks s !! a with Some t => Ok t | None => Fault end.

Definition with_tasks (s : Sched E) (ts : gmap Z Task) : Sched E :=
  mkSched ts (frames s) (g_current s) (g_tail s) (g_next_id s) (g_started s) (g_pending_cleanup s)
    (g_next_task_rsp s) (tss_rsp0 s) (cpu_cr3 s) (kbd_focus s) (env s).

Definition mod_task (a : Z) (f : Task -> Task) (s : Sched E) : outcome (Sched E) :=
  t ← get_task a s; mret (with_tasks s (<[a := f t]> (tasks s))).

Definition set_state (st : TaskState) (t : Task) : Task :=
  mkTask (rsp t) (id t) st (stack_base t) (kernel_stack_top t) (brk_start t) (brk_current t)
    (exit_code t) (waiting_parent t) (plm4_phys t) (next t).
Definition set_rsp (r : Z) (t : Task) : Task :=
  mkTask r (id t) (state t) (stack_base t) (kernel_stack_top t) (brk_start t) (brk_current t)
    (exit_code t) (waiting_parent t) (plm4_phys t) (next t).
Definition set_stack_base (b : Z) (t : Task) : Task :=
  mkTask (rsp t) (id t) (state t) b (kernel_stack_top t) (brk_start t) (brk_current t)
    (exit_code t) (waiting_parent t) (plm4_phys t) (next t).
Definition set_exit_code (c : Z) (t : Task) : Task :=
  mkTask (rsp t) (id t) (state t) (stack_base t) (kernel_stack_top t) (brk_start t) (brk_current t)
    c (waiting_parent t) (plm4_phys t) (next t).
Definition set_parent (p : Z) (t : Task) : Task :=
  mkTask (rsp t) (id t) (state t) (stack_base t) (kernel_stack_top t) (brk_start t) (brk_current t)
    (exit_code t) p (plm4_phys t) (next t).
Definition set_next (n : Z) (t : Task) : Task :=
  mkTask (rsp t) (id t) (state t) (stack_base t) (kernel_stack_top t) (brk_start t) (brk_current t)
    (exit_code t) (waiting_parent t) (plm4_phys t) n.

(** Body of the loop of [reapTerminated]. *)
Definition reap_one (a : Z) (s : Sched E) : outcome (Sched E) :=
  t ← get_task a s;
  e ← (if stack_base t =? 0 then mret (env s) else ts_kfree (stack_base t) (env s));
  mod_task a (set_stack_base 0)
    (mkSched (tasks s) (frames s) (g_current s) (g_tail s) (g_next_id s) (g_started s)
       (g_pending_cleanup s) (g_next_task_rsp s) (tss_rsp0 s) (cpu_cr3 s) (kbd_focus s) e).

Definition with_pending (s : Sched E) (l : list Z) : Sched E :=
  mkSched (tasks s) (frames s) (g_current s) (g_tail s) (g_next_id s) (g_started s) l
    (g_next_task_rsp s) (tss_rsp0 s) (cpu_cr3 s) (kbd_focus s) (env s).

Definition reapTerminated (s : Sched E) : outcome (Sched E) :=
  s' ← foldM reap_one (g_pending_cleanup s) s;
  mret (with_pending s' []).

(** [do { if (test(candidate)) return candidate; candidate = candidate->next; }
     while (candidate != start); return nullptr;] *)
Fixpoint ring_search (fuel : nat) (test : Task -> bool) (candidate start : Z) (s : Sched E) : outcome Z :=
  match fuel with
  | O => Halt
  | S fuel' =>
      t ← get_task candidate s;
      if test t then mret candidate else
      if next t =? start then mret 0 else ring_search fuel' test (next t) start s
  end.

Definition is_ready (t : Task) : bool := bool_decide (state t = Ready).

(** A ring has no more tasks than there are. *)
Definition ring_fuel (s : Sched E) : nat := S (size (tasks s)).

Definition findNextReady (from : Z) (s : Sched E) : outcome Z :=
  t ← get_task from s;
  ring_search (ring_fuel s) is_ready (next t) (next t) s.

Definition findTaskById (i : Z) (s : Sched E) : outcome Z :=
  if g_tail s =? 0 then mret 0 else
  t ← get_task (g_tail s) s;
  ring_search (ring_fuel s) (fun t => id t =? i) (next t) (next t) s.

Definition init (s : Sched E) : Sched E :=
  mkSched (tasks s) (frames s) 0 0 1 false [] (g_next_task_rsp s) (tss_rsp0 s) (cpu_cr3 s) (kbd_focus s) (env s).

(** [x & ~0xF] on a [uint64_t]. *)
Definition align16 (x : Z) : Z := u64 x .& u64 (.~ 15).

(** Linking the new task into the ring, the end of [createTask]. *)
Definition link_task (task : Z) (t : Task) (s : Sched E) : outcome (Sched E) :=
  let put (ts : gmap Z Task) (tl : Z) :=
    mkSched ts (frames s) (g_current s) tl (g_next_id s) (g_started s) (g_pending_cleanup s)
      (g_next_task_rsp s) (tss_rsp0 s) (cpu_cr3 s) (kbd_focus s) (env s) in
  if g_tail s =? 0 then mret (put (<[task := set_next task t]> (tasks s)) task)
  else
    tl ← get_task (g_tail s) s;
    mret (put (<[g_tail s := set_next task tl]> (<[task := set_next (next tl) t]> (tasks s))) task).

(** The result is the address of the task, 0 when memory ran out. *)
Definition createTask (entry stack_size : Z) (s : Sched E) : outcome (Z * Sched E) :=
  let with_env e := mkSched (tasks s) (frames s) (g_current s) (g_tail s) (g_next_id s) (g_started s)
    (g_pending_cleanup s) (g_next_task_rsp s) (tss_rsp0 s) (cpu_cr3 s) (kbd_focus s) e in
  '(task, e1) ← ts_kmalloc SIZEOF_Task (env s);
  '(stack, e2) ← ts_kmalloc stack_size e1;
  '(kstack, e3) ← ts_kmalloc stack_size e2;
  if (task =? 0) || (stack =? 0) || (kstack =? 0) then mret (0, with_env e3) else
  '(new_plm4, e4) ← ts_create_space e3;
  if new_plm4 =? 0 then mret (0, with_env e4) else
  let frame_addr := align16 (u64 (stack + stack_size) - SIZEOF_Registers) in
  let kstack_top := align16 (kstack + stack_size) in
  let frame := mkFrame entry GDT_KERNEL_CODE 0x202 frame_addr GDT_KERNEL_DATA in
  let t := mkTask frame_addr (g_next_id s) Ready stack kstack_top 0 0 0 0 new_plm4 0 in
  let s1 := mkSched (tasks s) (<[frame_addr := frame]> (frames s)) (g_current s) (g_tail s)
    (u32 (g_next_id s + 1)) (g_started s) (g_pending_cleanup s) (g_next_task_rsp s) (tss_rsp0 s)
    (cpu_cr3 s) (kbd_focus s) e4 in
  s2 ← link_task task t s1;
  mret (task, s2).

(** The processor state a switch to the task at [a] installs. *)
Definition dispatch (a : Z) (s : Sched E) : outcome (Sched E) :=
  s1 ← mod_task a (set_state Running) s;
  t ← get_task a s1;
  mret (mkSched (tasks s1) (frames s1) a (g_tail s1) (g_next_id s1) (g_started s1) (g_pending_cleanup s1)
    (rsp t) (kernel_stack_top t) (plm4_phys t) (kbd_focus s1) (env s1)).

(** [start] up to [scheduler_enter], with the stack pointer passed to it. *)
Definition start (s : Sched E) : outcome (Z * Sched E) :=
  tl ← get_task (g_tail s) s;
  s1 ← mod_task (next tl) (set_state Running) s;
  t ← get_task (next tl) s1;
  mret (rsp t, mkSched (tasks s1) (frames s1) (next tl) (g_tail s1) (g_next_id s1) true (g_pending_cleanup s1)
    (g_next_task_rsp s1) (kernel_stack_top t) (plm4_phys t) (kbd_focus s1) (env s1)).

Definition currentTask (s : Sched E) : Z := g_current s.

Definition demote (t : Task) : Task := if bool_decide (state t = Running) then set_state Ready t else t.

Definition tick (regs : Z) (s : Sched E) : outcome (Sched E) :=
  if negb (g_started s) || (g_current s =? 0) then mret s else
  s1 ← reapTerminated s;
  s2 ← mod_task (g_current s1) (fun t => demote (set_rsp regs t)) s1;
  n ← findNextReady (g_current s2) s2;
  if n =? 0 then
    c ← get_task (g_current s2) s2;
    mod_task (g_current s2) (set_state Running)
      (mkSched (tasks s2) (frames s2) (g_current s2) (g_tail s2) (g_next_id s2) (g_started s2)
         (g_pending_cleanup s2) (rsp c) (tss_rsp0 s2) (cpu_cr3 s2) (kbd_focus s2) (env s2))
  else dispatch n s2.

Definition yield (regs : Z) (s : Sched E) : outcome (Sched E) := tick regs s.

Definition blockCurrent (regs : Z) (s : Sched E) : outcome (Sched E) :=
  s1 ← mod_task (g_current s) (set_state Blocked) s;
  yield regs s1.

Definition wake (a : Z) (s : Sched E) : outcome (Sched E) :=
  t ← get_task a s;
  if bool_decide (state t = Blocked) then mod_task a (set_state Ready) s else mret s.

(** [if (count < MAX) pending[count++] = target;] *)
Definition queue_cleanup (target : Z) (s : Sched E) : Sched E :=
  if (length (g_pending_cleanup s) <? MAX_PENDING_CLEANUP)%nat
  then with_pending s (g_pending_cleanup s ++ [target]) else s.

(** [killTask] returns a value, or, when a task kills itself, waits with
    interrupts enabled for the tick that switches away from it. *)
Inductive kill_result := Returned (b : bool) | WaitsForTick.

Definition killTask (i code : Z) (s : Sched E) : outcome (kill_result * Sched E) :=
  target ← findTaskById i s;
  if target =? 0 then mret (Returned false, s) else
  t ← get_task target s;
  if bool_decide (state t = Terminated) then mret (Returned false, s) else
  s1 ← mod_task target (fun t => set_state Terminated (set_exit_code code t)) s;
  s2 ← (if negb (waiting_parent t =? 0) then
          w ← wake (waiting_parent t) s1; mod_task target (set_parent 0) w
        else mret (queue_cleanup target s1));
  let s3 := queue_cleanup target s2 in
  let s4 := if kbd_focus s3 =? i then
    mkSched (tasks s3) (frames s3) (g_current s3) (g_tail s3) (g_next_id s3) (g_started s3)
      (g_pending_cleanup s3) (g_next_task_rsp s3) (tss_rsp0 s3) (cpu_cr3 s3) 0 (env s3) else s3 in
  mret (if target =? g_current s then WaitsForTick else Returned true, s4).

Definition exitTask (code : Z) (s : Sched E) : outcome (kill_result * Sched E) :=
  t ← get_task (g_current s) s;
  killTask (id t) code s.

(** [waitForTask] up to the point where it returns or blocks. *)
Inductive wait_result := WaitReturns (code : Z) | WaitBlocks.

Definition waitForTask (i regs : Z) (s : Sched E) : outcome (wait_result * Sched E) :=
  target ← findTaskById i s;
  if target =? 0 then mret (WaitReturns (-1), s) else
  t ← get_task target s;
  if bool_decide (state t = Terminated) then mret (WaitReturns (exit_code t), s) else
  s1 ← mod_task target (set_parent (g_current s)) s;
  s2 ← blockCurrent regs s1;
  mret (WaitBlocks, s2).

(** The rest of [waitForTask], run when its task is scheduled again. *)
Definition waitForTask_resume (target : Z) (s : Sched E) : outcome Z :=
  t ← get_task target s; mret (exit_code t).
End scheduler.
