(* ===== verification/SchedulerProofs.v ===== *)
(** Proofs about the scheduler of [Scheduler]: the task ring, round-robin
    dispatch, fairness, creation and termination of tasks. *)

From S2P Require Import Prelude Scheduler.

(** ** Rings *)

(** Starting at [c], the [next] pointers visit the tasks of [ord]. *)
Fixpoint follows (ts : gmap Z Task) (c : Z) (ord : list Z) : Prop :=
  match ord with
  | [] => True
  | a :: ord' => (exists t, ts !! c = Some t /\ next t = a) /\ follows ts a ord'
  end.

(** [ord] lists the ring in the order in which a search from [c] meets it:
    the successor of [c] first, [c] itself last. *)
Record ring (ts : gmap Z Task) (c : Z) (ord : list Z) : Prop := {
  ring_follows : follows ts c ord;
  ring_last : list.last ord = Some c;
  ring_nodup : NoDup ord;
  ring_nonnull : ~ (0 ∈ ord);
}.

Lemma follows_app ts c o1 x o2 : follows ts c (o1 ++ x :: o2) <-> follows ts c (o1 ++ [x]) /\ follows ts x o2.
Proof.
  revert c. induction o1 as [|a o1 IH]; intros c; simpl; [by intuition|]. rewrite IH. by intuition.
Qed.

(** Only the [next] fields matter. *)
Definition same_next (ts ts' : gmap Z Task) : Prop := forall a, next <$> ts !! a = next <$> ts' !! a.

Lemma follows_ext ts ts' c ord : same_next ts ts' -> follows ts c ord -> follows ts' c ord.
Proof.
  intros Hs. revert c. induction ord as [|a ord IH]; intros c; simpl; [done|].
  intros [(t & Et & En) Hf]. split; [|by apply IH]. specialize (Hs c). rewrite Et in Hs. simpl in Hs.
  destruct (ts' !! c) as [t'|]; simplify_eq/=. by eexists.
Qed.

Lemma ring_ext ts ts' c ord : same_next ts ts' -> ring ts c ord -> ring ts' c ord.
Proof. intros Hs []. split; try done. by apply (follows_ext ts). Qed.

Lemma ring_in ts c ord a : ring ts c ord -> a ∈ ord -> exists t, ts !! a = Some t.
Proof.
  intros [Hf Hl _ _] Ha. destruct (list_elem_of_split _ _ Ha) as (o1 & o2 & ->).
  apply follows_app in Hf as [H1 H2]. destruct o2 as [|b o2].
  - rewrite list.last_snoc in Hl. injection Hl as ->.
    destruct o1; simpl in H1; destruct H1 as [(t & Et & _) _]; by exists t.
  - simpl in H2. destruct H2 as [(t & Et & _) _]. by exists t.
Qed.

Lemma ring_current ts c ord : ring ts c ord -> c ∈ ord.
Proof. intros [_ Hl _ _]. by apply list.last_Some_elem_of in Hl. Qed.

(** A ring can be entered at any of its tasks. *)
Lemma ring_rotate ts c o1 x o2 : ring ts c (o1 ++ x :: o2) -> ring ts x (o2 ++ o1 ++ [x]).
Proof.
  intros [Hf Hl Hn Hz]. apply follows_app in Hf as [H1 H2]. split.
  - destruct (decide (o2 = [])) as [->|Hne].
    + rewrite list.last_snoc in Hl. injection Hl as ->. exact H1.
    + destruct (exists_last Hne) as (o & b & ->).
      rewrite app_comm_cons, app_assoc, list.last_snoc in Hl. injection Hl as ->.
      rewrite <- app_assoc. simpl. apply follows_app. split; [exact H2|exact H1].
  - rewrite app_assoc. apply list.last_snoc.
  - assert (Hp : o2 ++ o1 ++ [x] ≡ₚ o1 ++ x :: o2) by solve_Permutation. by rewrite Hp.
  - intros H0. apply Hz. set_solver.
Qed.

Lemma ring_size ts c ord : ring ts c ord -> (length ord <= size ts)%nat.
Proof.
  intros Hr. rewrite <- size_dom, <- (size_list_to_set (C := gset Z)) by apply Hr.
  apply subseteq_size. intros a Ha%elem_of_list_to_set. destruct (ring_in ts c ord a Hr Ha) as [t Et].
  by apply elem_of_dom.
Qed.

Section search.
Context {E : Type} `{TaskServices E}.
Implicit Types s : Sched E.

(** The task at [a] passes the test. *)
Definition passes (ts : gmap Z Task) (test : Task -> bool) (a : Z) : bool :=
  match ts !! a with Some t => test t | None => false end.

Lemma ring_search_ok s test c o1 o2 fuel : ring (tasks s) c (o1 ++ o2) -> (length o2 <= fuel)%nat ->
  Forall (fun a => passes (tasks s) test a = false) o1 -> o2 <> [] ->
  exists a, ring_search fuel test (default 0 (head o2)) (default 0 (head (o1 ++ o2))) s = Ok a /\
    ((a = 0 /\ Forall (fun a => passes (tasks s) test a = false) (o1 ++ o2)) \/
     exists p q, o1 ++ o2 = p ++ a :: q /\ passes (tasks s) test a = true /\
       Forall (fun a => passes (tasks s) test a = false) p).
Proof.
  intros Hr. revert o1 Hr fuel. induction o2 as [|x o2 IH]; intros o1 Hr fuel Hf Hp Hne; [done|].
  simpl in Hf. destruct fuel as [|fuel]; [lia|]. change (default 0 (head (x :: o2))) with x. cbn [ring_search].
  destruct (ring_in _ _ _ x Hr) as [t Et]; [set_solver|]. unfold get_task. rewrite Et.
  cbn [mbind outcome_bind]. destruct (test t) eqn:Ht.
  { exists x. split; [done|]. right. exists o1, o2. split_and!; try done. unfold passes. by rewrite Et. }
  assert (Hpx : Forall (fun a => passes (tasks s) test a = false) (o1 ++ [x])).
  { apply Forall_app. split; [done|]. constructor; [|constructor]. unfold passes. by rewrite Et. }
  destruct o2 as [|y o2].
  - assert (En : next t = default 0 (head (o1 ++ [x]))).
    { pose proof (ring_last _ _ _ Hr) as Hl. rewrite list.last_snoc in Hl. injection Hl as ->.
      pose proof (ring_follows _ _ _ Hr) as Hf'. destruct o1 as [|b o1]; simpl in *;
        destruct Hf' as [(t' & Et' & <-) _]; by rewrite Et in Et'; simplify_eq. }
    exists 0. rewrite En, Z.eqb_refl. split; [done|]. by left.
  - assert (En : next t = y).
    { pose proof (ring_follows _ _ _ Hr) as Hf'. apply follows_app in Hf' as [_ [(t' & Et' & <-) _]].
      by rewrite Et in Et'; simplify_eq. }
    assert (Hny : next t <> default 0 (head (o1 ++ x :: y :: o2))).
    { rewrite En. pose proof (ring_nodup _ _ _ Hr) as Hn. destruct o1 as [|b o1]; simpl in *.
      - apply list.NoDup_cons in Hn as [Hn _]. set_solver.
      - apply list.NoDup_cons in Hn as [Hn _]. set_solver. }
    rewrite (proj2 (Z.eqb_neq _ _) Hny), En.
    specialize (IH (o1 ++ [x])). rewrite <- app_assoc in IH. simpl in IH.
    apply (IH Hr fuel); [simpl in *; lia | done | done].
Qed.

(** A search that starts at the successor of [from]. *)
Lemma search_from s test c ord : ring (tasks s) c ord ->
  exists t a, tasks s !! c = Some t /\ ring_search (ring_fuel s) test (next t) (next t) s = Ok a /\
    ((a = 0 /\ Forall (fun a => passes (tasks s) test a = false) ord) \/
     (a <> 0 /\ exists p q, ord = p ++ a :: q /\ passes (tasks s) test a = true /\
       Forall (fun a => passes (tasks s) test a = false) p)).
Proof.
  intros Hr. destruct ord as [|x ord].
  { pose proof (ring_last _ _ _ Hr) as Hl. done. }
  pose proof (ring_follows _ _ _ Hr) as [(t & Et & En) _].
  destruct (ring_search_ok s test c [] (x :: ord) (ring_fuel s) Hr) as (a & E1 & Hcase); try done.
  { pose proof (ring_size _ _ _ Hr). unfold ring_fuel. lia. }
  exists t, a. rewrite En. split_and!; try done.
  destruct Hcase as [Hno|(p & q & Eq & Hp & Hf)]; [by left|]. right.
  simpl in Eq. split; [|by exists p, q]. intros ->.
  apply (ring_nonnull _ _ _ Hr). rewrite Eq. set_solver.
Qed.

(** ** Reaping *)

(** Equality of tasks up to [stack_base]. *)
Definition core_eq (ts ts' : gmap Z Task) : Prop :=
  forall a, set_stack_base 0 <$> ts !! a = set_stack_base 0 <$> ts' !! a.

Lemma core_eq_lookup ts ts' a t : core_eq ts ts' -> ts !! a = Some t ->
  exists t', ts' !! a = Some t' /\ state t' = state t /\ next t' = next t /\ id t' = id t /\ rsp t' = rsp t /\
    kernel_stack_top t' = kernel_stack_top t /\ plm4_phys t' = plm4_phys t.
Proof.
  intros Hc Ht. specialize (Hc a). rewrite Ht in Hc. simpl in Hc.
  destruct (ts' !! a) as [t'|] eqn:E'; [|done]. simpl in Hc. exists t'. split; [done|].
  unfold set_stack_base in Hc. injection Hc; intros. split_and!; congruence.
Qed.

Lemma core_eq_sym ts ts' : core_eq ts ts' -> core_eq ts' ts.
Proof. intros Hc a. by rewrite (Hc a). Qed.

Lemma core_eq_next ts ts' : core_eq ts ts' -> same_next ts ts'.
Proof.
  intros Hc a. specialize (Hc a).
  destruct (ts !! a), (ts' !! a); simpl in *; unfold set_stack_base in Hc; simplify_eq; congruence.
Qed.

Definition same_globals s s' : Prop :=
  g_current s' = g_current s /\ g_tail s' = g_tail s /\ g_next_id s' = g_next_id s /\
  g_started s' = g_started s /\ kbd_focus s' = kbd_focus s /\ g_next_task_rsp s' = g_next_task_rsp s /\
  tss_rsp0 s' = tss_rsp0 s /\ cpu_cr3 s' = cpu_cr3 s.

Lemma get_task_ok a t s : tasks s !! a = Some t -> get_task a s = Ok t.
Proof. unfold get_task. by intros ->. Qed.

Lemma mod_task_ok a f t s : tasks s !! a = Some t ->
  mod_task a f s = Ok (with_tasks s (<[a := f t]> (tasks s))).
Proof. intros Ht. unfold mod_task. by run_call (get_task_ok a t s Ht). Qed.

(** The heap got back the stacks of the tasks of [l], and nothing else. *)
Definition stacks_freed (l : list Z) s s' : Prop :=
  forall x, x ∈ ts_live (env s') <-> x ∈ ts_live (env s) /\
    ~ exists b t, b ∈ l /\ tasks s !! b = Some t /\ stack_base t = x /\ x <> 0.

(** The stacks of the tasks of [l] are given back and forgotten. *)
Definition reaped (l : list Z) s s' : Prop :=
  (forall b t, tasks s !! b = Some t -> exists t', tasks s' !! b = Some t' /\
     stack_base t' = if bool_decide (b ∈ l) then 0 else stack_base t) /\
  stacks_freed l s s'.

Lemma reap_one_ok a t s : ts_ok (env s) -> tasks s !! a = Some t ->
  exists s', reap_one a s = Ok s' /\ core_eq (tasks s) (tasks s') /\ same_globals s s' /\ ts_ok (env s') /\ reaped [a] s s'.
Proof.
  intros Hok Ht.
  assert (exists e', (if stack_base t =? 0 then mret (env s) else ts_kfree (stack_base t) (env s)) = Ok e' /\ ts_ok e' /\
    forall x, x ∈ ts_live e' <-> x ∈ ts_live (env s) /\ ~ (stack_base t = x /\ x <> 0))
    as (e' & Ee & Hok' & Hl).
  { destruct (Z.eqb_spec (stack_base t) 0) as [E0|E0].
    - exists (env s). split_and!; [done | done|]. intros x. split; [|by intros []]. intros Hx. split; [done|]. lia.
    - destruct (ts_kfree_spec (stack_base t) (env s) Hok) as (e' & Ee & Hok' & Hl). exists e'. split_and!; [done | done|].
      intros x. rewrite Hl, elem_of_difference, elem_of_singleton. split; intros [Hx Hn]; (split; [done|]).
      + intros [<- _]. by apply Hn.
      + intros ->. by apply Hn. }
  unfold reap_one. run_call (get_task_ok a t s Ht). run_call Ee.
  erewrite mod_task_ok by (simpl; exact Ht). eexists. split; [reflexivity|]. split; [|split_and!; try done; split].
  - intros b. simpl. destruct (decide (b = a)) as [->|Hne]; [by rewrite lookup_insert_eq, Ht | by rewrite lookup_insert_ne by done].
  - intros b tb Hb. simpl. destruct (decide (b = a)) as [->|Hne].
    + rewrite lookup_insert_eq. eexists. split; [done|]. by rewrite bool_decide_eq_true_2 by by apply list_elem_of_singleton.
    + rewrite lookup_insert_ne by done. exists tb. split; [done|]. by rewrite bool_decide_eq_false_2 by by rewrite list_elem_of_singleton.
  - intros x. simpl. rewrite Hl. split; intros [Hx Hn]; (split; [done|]).
    + intros (b & tb & Hb & Htb & Hsx). apply list_elem_of_singleton in Hb as ->. simplify_eq. by apply Hn.
    + intros Hsx. apply Hn. exists a, t. by rewrite list_elem_of_singleton.
Qed.

Lemma reaped_trans a l s s1 s' : core_eq (tasks s) (tasks s1) -> reaped [a] s s1 -> reaped l s1 s' -> reaped (a :: l) s s'.
Proof.
  intros Hc [T1 L1] [T2 L2]. split.
  - intros b t Hb. destruct (T1 b t Hb) as (t1 & Hb1 & E1). destruct (T2 b t1 Hb1) as (t2 & Hb2 & E2).
    exists t2. split; [done|]. rewrite E2, E1. by repeat case_bool_decide; set_solver.
  - intros x. rewrite (L2 x), (L1 x). split.
    + intros [[Hx N1] N2]. split; [done|]. intros (b & t & Hb & Ht & Hs & Hx0).
      destruct (decide (b = a)) as [->|Hne]; [apply N1; exists a, t; set_solver|]. apply N2.
      destruct (T1 b t Ht) as (t1 & Hb1 & E1). exists b, t1.
      rewrite bool_decide_eq_false_2 in E1 by set_solver. split_and!; [set_solver | done | congruence | done].
    + intros [Hx N]. split; [split; [done|]|].
      * intros (b & t & Hb & R). apply N. exists b, t. split; [set_solver | done].
      * intros (b & t1 & Hb & Ht1 & Hs & Hx0). destruct (core_eq_lookup _ _ _ _ (core_eq_sym _ _ Hc) Ht1) as (t & Ht & _).
        destruct (T1 b t Ht) as (t1' & Ht1' & E1). rewrite Ht1 in Ht1'. injection Ht1' as <-. case_bool_decide; [congruence|].
        apply N. exists b, t. split_and!; [set_solver | done | congruence | done].
Qed.

Lemma reap_list_ok l s : ts_ok (env s) -> Forall (fun a => is_Some (tasks s !! a)) l ->
  exists s', foldM reap_one l s = Ok s' /\ core_eq (tasks s) (tasks s') /\ same_globals s s' /\ ts_ok (env s') /\ reaped l s s'.
Proof.
  revert s. induction l as [|a l IH]; intros s Hok Hf; cbn [foldM].
  - exists s. split_and!; try done. split.
    + intros b t Hb. exists t. by rewrite bool_decide_eq_false_2 by apply not_elem_of_nil.
    + intros x. split; [|by intros []]. intros Hx. split; [done|]. intros (b & t & Hb%elem_of_nil & _). done.
  - apply Forall_cons_iff in Hf as [[t Ht] Hf].
    destruct (reap_one_ok a t s Hok Ht) as (s1 & E1 & Hc1 & Hg1 & Hok1 & Hr1). run_call E1.
    destruct (IH s1) as (s' & Es & Hc & Hg & Hoks & Hr); [done| |].
    { eapply Forall_impl; [|exact Hf]. intros b [tb Hb].
      destruct (core_eq_lookup _ _ b tb Hc1 Hb) as (t' & Hb' & _). by exists t'. }
    exists s'. split_and!; try done.
    + intros b. by rewrite (Hc1 b), (Hc b).
    + unfold same_globals in *. intuition congruence.
    + by apply (reaped_trans a l s s1).
Qed.

(** ** The invariant *)

Record sched_inv s (ord : list Z) : Prop := {
  si_ring : ring (tasks s) (g_current s) ord;
  si_tail : g_tail s ∈ ord;
  si_started : g_started s = true;
  si_running : forall a t, tasks s !! a = Some t -> state t = Running -> a = g_current s;
  si_pending : Forall (fun a => a ∈ ord) (g_pending_cleanup s);
  si_env : ts_ok (env s);
}.

Lemma reap_ok s ord : sched_inv s ord -> exists s', reapTerminated s = Ok s' /\
  core_eq (tasks s) (tasks s') /\ same_globals s s' /\ ts_ok (env s') /\ g_pending_cleanup s' = [] /\
  reaped (g_pending_cleanup s) s s'.
Proof.
  intros Hinv. destruct (reap_list_ok (g_pending_cleanup s) s) as (s' & E1 & Hc & Hg & Hok & Hrp).
  - apply Hinv.
  - eapply Forall_impl; [|apply (si_pending s ord Hinv)]. intros a Ha.
    destruct (ring_in _ _ _ a (si_ring s ord Hinv) Ha) as [t Ht]. by exists t.
  - exists (with_pending s' []). unfold reapTerminated. by run_call E1.
Qed.

(** A task that [tick] may run: ready, or the running one, which becomes ready. *)
Definition runnable (t : Task) : bool := bool_decide (state t = Ready \/ state t = Running).

Lemma demote_state regs t : state (demote (set_rsp regs t)) = if bool_decide (state t = Running) then Ready else state t.
Proof. unfold demote. simpl. by destruct (bool_decide (state t = Running)). Qed.

Lemma demote_fields regs t : let t' := demote (set_rsp regs t) in
  next t' = next t /\ id t' = id t /\ kernel_stack_top t' = kernel_stack_top t /\ plm4_phys t' = plm4_phys t /\
  rsp t' = regs /\ stack_base t' = stack_base t.
Proof. unfold demote. simpl. by destruct (bool_decide (state t = Running)). Qed.

(** The state of the other tasks after a tick. *)
Definition tick_state (st : TaskState) : TaskState := if bool_decide (st = Running) then Ready else st.

(** The processor is set up to run the task at [a]. *)
Definition dispatched s (a : Z) : Prop := exists t, tasks s !! a = Some t /\ state t = Running /\
  g_next_task_rsp s = rsp t /\ tss_rsp0 s = kernel_stack_top t /\ cpu_cr3 s = plm4_phys t.

Lemma dispatch_ok s a t : tasks s !! a = Some t ->
  exists s', dispatch a s = Ok s' /\ tasks s' = <[a := set_state Running t]> (tasks s) /\ g_current s' = a /\
    dispatched s' a /\ g_tail s' = g_tail s /\ g_started s' = g_started s /\
    g_pending_cleanup s' = g_pending_cleanup s /\ env s' = env s.
Proof.
  intros Ht. unfold dispatch. run_call (mod_task_ok a (set_state Running) t s Ht).
  rewrite (get_task_ok a (set_state Running t)) by (simpl; apply lookup_insert_eq).
  cbn [mbind outcome_bind mret outcome_ret]. eexists. split; [reflexivity|]. split_and!; try done.
  exists (set_state Running t). split; [simpl; apply lookup_insert_eq | done].
Qed.

(** The prefix of [tick] that precedes the search. *)
Lemma tick_demote s ord regs : sched_inv s ord -> exists s1 ct,
  tasks s !! g_current s = Some ct /\
  (s1' ← reapTerminated s; mod_task (g_current s1') (fun t => demote (set_rsp regs t)) s1') = Ok s1 /\
  ring (tasks s1) (g_current s) ord /\ same_globals s s1 /\ ts_ok (env s1) /\ g_pending_cleanup s1 = [] /\
  stacks_freed (g_pending_cleanup s) s s1 /\
  (forall a t, tasks s1 !! a = Some t -> state t <> Running) /\
  forall a t, tasks s !! a = Some t -> exists t', tasks s1 !! a = Some t' /\ state t' = tick_state (state t) /\
    kernel_stack_top t' = kernel_stack_top t /\ plm4_phys t' = plm4_phys t /\ id t' = id t /\
    rsp t' = (if a =? g_current s then regs else rsp t) /\
    stack_base t' = (if bool_decide (a ∈ g_pending_cleanup s) then 0 else stack_base t).
Proof.
  intros Hinv. destruct (reap_ok s ord Hinv) as (s0 & E0 & Hc & Hg & Hok & Hpend & Hst0 & Hfr).
  pose proof (si_ring s ord Hinv) as Hr.
  destruct (ring_in _ _ _ _ Hr (ring_current _ _ _ Hr)) as [ct Hct].
  destruct (core_eq_lookup _ _ _ _ Hc Hct) as (ct0 & Hct0 & Hst & Hnx & Hid & Hrsp & Hk & Hp).
  pose proof Hg as (Hcur & _). exists (with_tasks s0 (<[g_current s := demote (set_rsp regs ct0)]> (tasks s0))), ct.
  destruct (demote_fields regs ct0) as (Fn & Fi & Fk & Fp & Fr & Fb).
  split; [done|]. split; [run_call E0; rewrite Hcur;
    exact (mod_task_ok (g_current s) (fun t => demote (set_rsp regs t)) ct0 s0 Hct0)|].
  assert (Hsn : same_next (tasks s) (<[g_current s := demote (set_rsp regs ct0)]> (tasks s0))).
  { intros a. destruct (decide (a = g_current s)) as [->|Hne].
    - rewrite lookup_insert_eq, Hct. simpl. f_equal. congruence.
    - rewrite lookup_insert_ne by done. apply (core_eq_next _ _ Hc). }
  split; [by apply (ring_ext (tasks s))|]. split; [done|]. split; [done|]. split; [done|]. split; [done|]. split.
  { intros a t. simpl. destruct (decide (a = g_current s)) as [->|Hne].
    - rewrite lookup_insert_eq. intros [= <-]. rewrite demote_state. by destruct (state ct0).
    - rewrite lookup_insert_ne by done. intros Ht HR.
      destruct (core_eq_lookup _ _ _ _ (core_eq_sym _ _ Hc) Ht) as (t' & Ht' & Hs' & _).
      apply Hne, (si_running s ord Hinv a t' Ht'). congruence. }
  intros a t Ht. destruct (core_eq_lookup _ _ _ _ Hc Ht) as (t0 & Ht0 & Gs & Gn & Gi & Gr & Gk & Gp).
  destruct (Hst0 a t Ht) as (t0' & Ht0' & Hsb). simplify_eq. simpl. destruct (Z.eqb_spec a (g_current s)) as [->|Hne].
  - rewrite lookup_insert_eq. eexists. split; [done|]. simplify_eq. rewrite demote_state.
    unfold tick_state. rewrite <- Gs. split_and!; try done; congruence.
  - rewrite lookup_insert_ne by done. exists t0. split; [done|]. unfold tick_state.
    rewrite bool_decide_eq_false_2; [by split_and!|]. intros HR.
    by apply Hne, (si_running s ord Hinv a t).
Qed.

Lemma same_next_insert (ts : gmap Z Task) a st t : ts !! a = Some t -> same_next ts (<[a := set_state st t]> ts).
Proof.
  intros Ht b. destruct (decide (b = a)) as [->|]; [by rewrite lookup_insert_eq, Ht | by rewrite lookup_insert_ne].
Qed.

Lemma ready_after_demote s s1 a :
  (forall t, tasks s !! a = Some t -> exists t', tasks s1 !! a = Some t' /\ state t' = tick_state (state t)) ->
  is_Some (tasks s !! a) -> passes (tasks s1) is_ready a = passes (tasks s) runnable a.
Proof.
  intros Hs [t Ht]. destruct (Hs t Ht) as (t' & Ht' & Hst). unfold passes, is_ready, runnable.
  rewrite Ht, Ht', Hst. unfold tick_state. destruct (state t); done.
Qed.

(** The tasks and the heap after a tick that found the frame [regs] and runs
    [a]: the interrupted task keeps [regs] as its stack pointer, [a] is the one
    running, and the stacks of the tasks queued for cleanup are given back. *)
Definition after_tick (regs : Z) s s' (a : Z) : Prop :=
  (forall b t, tasks s !! b = Some t -> exists t', tasks s' !! b = Some t' /\
     state t' = (if b =? a then Running else tick_state (state t)) /\
     rsp t' = (if b =? g_current s then regs else rsp t) /\
     stack_base t' = (if bool_decide (b ∈ g_pending_cleanup s) then 0 else stack_base t) /\
     id t' = id t /\ kernel_stack_top t' = kernel_stack_top t /\ plm4_phys t' = plm4_phys t) /\
  stacks_freed (g_pending_cleanup s) s s' /\ g_pending_cleanup s' = [].

Lemma after_tick_others regs s s' a b t : after_tick regs s s' a -> tasks s !! b = Some t -> b <> a ->
  exists t', tasks s' !! b = Some t' /\ state t' = tick_state (state t) /\ id t' = id t.
Proof.
  intros [Ha _] Hb Hne. destruct (Ha b t Hb) as (t' & Hb' & Hs & _ & _ & Hi & _). exists t'.
  by rewrite Hs, (proj2 (Z.eqb_neq b a) Hne).
Qed.

(** Running a task changes its state and no other field of a task. *)
Lemma after_tick_run regs s s1 s' n tn : tasks s1 !! n = Some tn ->
  (forall a t, tasks s !! a = Some t -> exists t', tasks s1 !! a = Some t' /\ state t' = tick_state (state t) /\
    kernel_stack_top t' = kernel_stack_top t /\ plm4_phys t' = plm4_phys t /\ id t' = id t /\
    rsp t' = (if a =? g_current s then regs else rsp t) /\
    stack_base t' = (if bool_decide (a ∈ g_pending_cleanup s) then 0 else stack_base t)) ->
  stacks_freed (g_pending_cleanup s) s s1 -> tasks s' = <[n := set_state Running tn]> (tasks s1) -> env s' = env s1 ->
  g_pending_cleanup s' = [] -> after_tick regs s s' n.
Proof.
  intros Hn Hall Hf T N P. split; [|split; [unfold stacks_freed in *; by rewrite N | done]].
  intros b t Hb. destruct (Hall b t Hb) as (t' & Hb' & Hs & Hk & Hp & Hi & Hr & Hsb). rewrite T.
  destruct (Z.eqb_spec b n) as [->|Hne].
  - rewrite lookup_insert_eq. eexists. split; [done|]. rewrite Hn in Hb'. simplify_eq. by split_and!.
  - rewrite lookup_insert_ne by done. exists t'. by split_and!.
Qed.

Lemma tick_ok s ord regs : sched_inv s ord -> exists s', tick regs s = Ok s' /\
  ((exists p a q, ord = p ++ a :: q /\ passes (tasks s) runnable a = true /\
      Forall (fun b => passes (tasks s) runnable b = false) p /\
      g_current s' = a /\ dispatched s' a /\ sched_inv s' (q ++ p ++ [a]) /\ after_tick regs s s' a) \/
   (Forall (fun b => passes (tasks s) runnable b = false) ord /\
      g_current s' = g_current s /\ sched_inv s' ord /\ after_tick regs s s' (g_current s) /\
      g_next_task_rsp s' = regs)).
Proof.
  intros Hinv. destruct (tick_demote s ord regs Hinv) as
    (s1 & ct & Hct & E1 & Hr & Hg & Hok & Hpend & Hfr & Hnorun & Hall).
  pose proof (si_ring s ord Hinv) as Hr0. pose proof Hg as (Gc & Gt & _ & Gs & _).
  assert (Hcur0 : g_current s <> 0).
  { intros E0. apply (ring_nonnull _ _ _ Hr0). rewrite <- E0. by apply (ring_current (tasks s)). }
  assert (Hsame : forall a, a ∈ ord -> passes (tasks s1) is_ready a = passes (tasks s) runnable a).
  { intros a Ha. apply ready_after_demote; [|by destruct (ring_in _ _ _ a Hr0 Ha) as [t Ht]; exists t].
    intros t Ht. destruct (Hall a t Ht) as (t' & Ht' & Hst & _). by exists t'. }
  assert (Htick : tick regs s = (n ← findNextReady (g_current s1) s1;
    if n =? 0 then c ← get_task (g_current s1) s1; mod_task (g_current s1) (set_state Running)
      (mkSched (tasks s1) (frames s1) (g_current s1) (g_tail s1) (g_next_id s1) (g_started s1)
         (g_pending_cleanup s1) (rsp c) (tss_rsp0 s1) (cpu_cr3 s1) (kbd_focus s1) (env s1))
    else dispatch n s1)).
  { unfold tick. rewrite (si_started s ord Hinv), (proj2 (Z.eqb_neq _ _) Hcur0). simpl negb. cbv iota.
    cbn [orb]. destruct (reapTerminated s) as [s0| |]; [|done..]. cbn [mbind outcome_bind] in E1 |- *.
    by run_call E1. }
  rewrite Htick, Gc. unfold findNextReady. rewrite <- Gc in Hr.
  destruct (search_from s1 is_ready (g_current s1) ord Hr) as (t1 & n & Et1 & En & Hcase).
  rewrite Gc in Et1, Hr. run_call (get_task_ok _ _ _ Et1). run_call En.
  destruct Hcase as [[-> Hno]|(Hn0 & p & q & -> & Hpass & Hno)].
  - rewrite Z.eqb_refl. erewrite mod_task_ok by (simpl; exact Et1). eexists. split; [reflexivity|]. right. split.
    { rewrite Forall_forall in Hno |- *. intros a Ha. rewrite <- Hsame by (by apply list_elem_of_In). by apply Hno. }
    split; [done|]. split; [|split; [by apply (after_tick_run regs s s1 _ _ t1)|]].
    2: { destruct (Hall _ ct Hct) as (t' & Ht' & _ & _ & _ & _ & Hrsp & _). rewrite Z.eqb_refl in Hrsp. simpl. congruence. }
    split; simpl; rewrite ?Gs, ?Gt, ?Hpend, ?Gc; try done; try apply Hinv.
    + apply (ring_ext (tasks s1)); [|done]. by apply same_next_insert.
    + intros b t Hb HR. destruct (decide (b = g_current s)) as [->|Hne]; [done|].
      rewrite lookup_insert_ne in Hb by done. by apply Hnorun in Hb.
  - rewrite (proj2 (Z.eqb_neq _ _) Hn0). destruct (ring_in _ _ _ n Hr) as [tn Htn]; [set_solver|].
    destruct (dispatch_ok s1 n tn Htn) as (s' & E' & Ts & Cs & Ds & Tl & St & Pd & En').
    exists s'. split; [done|]. left. exists p, n, q. split; [done|].
    split; [rewrite <- Hsame by set_solver; done|]. split.
    { rewrite Forall_forall in Hno |- *. intros a Ha.
      rewrite <- Hsame by (apply list_elem_of_In in Ha; set_solver). by apply Hno. }
    split; [done|]. split; [done|]. split.
    + split; rewrite ?Ts, ?Cs, ?St, ?Tl, ?Pd, ?En', ?Gs, ?Gt, ?Hpend; try done; try apply Hinv.
      * apply ring_rotate with (g_current s). apply (ring_ext (tasks s1)); [|done]. by apply same_next_insert.
      * pose proof (si_tail s _ Hinv). set_solver.
      * intros b t Hb HR. destruct (decide (b = n)) as [->|Hne]; [done|].
        rewrite lookup_insert_ne in Hb by done. by apply Hnorun in Hb.
    + apply (after_tick_run regs s s1 s' n tn); try done. by rewrite Pd.
Qed.

(** ** Fairness *)

(** Timer interrupts in a row, with the frames they find. *)
Fixpoint ticks (rs : list Z) s : outcome (Sched E) :=
  match rs with [] => mret s | r :: rs' => s' ← tick r s; ticks rs' s' end.

Lemma ready_runnable ts a : passes ts is_ready a = true -> passes ts runnable a = true.
Proof.
  unfold passes, is_ready, runnable. destruct (ts !! a) as [t|]; [|done].
  intros E1%bool_decide_eq_true. apply bool_decide_eq_true. by left.
Qed.

Lemma ready_kept regs s s' a x : after_tick regs s s' x -> a <> x ->
  passes (tasks s) is_ready a = true -> passes (tasks s') is_ready a = true.
Proof.
  intros Ho Hne. unfold passes, is_ready. destruct (tasks s !! a) as [t|] eqn:Ht; [|done].
  intros Hr%bool_decide_eq_true. destruct (after_tick_others _ _ _ _ a t Ho Ht Hne) as (t' & -> & Hs & _).
  apply bool_decide_eq_true. by rewrite Hs, Hr.
Qed.

Lemma ready_within n s p a q rs : (length p < n)%nat -> sched_inv s (p ++ a :: q) ->
  passes (tasks s) is_ready a = true -> (length p < length rs)%nat ->
  exists rs1 rs2 s', rs = rs1 ++ rs2 /\ (length rs1 <= S (length p))%nat /\
    ticks rs1 s = Ok s' /\ g_current s' = a /\ dispatched s' a.
Proof.
  revert s p q rs. induction n as [|n IH]; intros s p q rs Hn Hinv Ha Hrs; [lia|].
  destruct rs as [|r rs]; [simpl in Hrs; lia|]. simpl in Hrs.
  destruct (tick_ok s _ r Hinv) as (s1 & E1 & [(p' & x & q' & Eo & Hx & Hp' & Hc & Hd & Hinv' & Ho)|(Hno & _)]).
  - destruct (decide (x = a)) as [->|Hne].
    { exists [r], rs, s1. split_and!; try done; [simpl; lia|]. simpl. by run_call E1. }
    apply app_eq_app in Eo as (l & [[-> El]|[-> El]]).
    + destruct l as [|y l]; simpl in El; [by simplify_eq|]. injection El as <- ->.
      rewrite <- app_assoc in Hinv'. rewrite length_app in *. simpl in *.
      destruct (IH s1 l (q ++ p' ++ [x]) rs) as (rs1 & rs2 & s' & -> & Hl & Et & Hcur & Hdis);
        [lia | done | by apply (ready_kept r s s1 a x) | lia |].
      exists (r :: rs1), rs2, s'. split_and!; try done; [simpl; lia|]. simpl. by run_call E1.
    + exfalso. destruct l as [|y l]; simpl in El; [by simplify_eq|]. injection El as <- ->.
      rewrite Forall_app, Forall_cons_iff in Hp'. destruct Hp' as (_ & Hpa & _).
      apply ready_runnable in Ha. congruence.
  - exfalso. rewrite Forall_app, Forall_cons_iff in Hno. destruct Hno as (_ & Hpa & _).
    apply ready_runnable in Ha. congruence.
Qed.

(** ** Creating tasks *)

Lemma follows_keep ts ts' c o z : (forall a, a = c \/ a ∈ o -> next <$> ts !! a = next <$> ts' !! a) ->
  follows ts c (o ++ [z]) -> follows ts' c (o ++ [z]).
Proof.
  revert c. induction o as [|x o IH]; intros c Hs; simpl.
  - intros [(t & Et & En) _]. split; [|done]. specialize (Hs c (or_introl eq_refl)). rewrite Et in Hs.
    destruct (ts' !! c) as [t'|]; simplify_eq/=. by exists t'.
  - intros [(t & Et & En) Hf]. split.
    + specialize (Hs c (or_introl eq_refl)). rewrite Et in Hs.
      destruct (ts' !! c) as [t'|]; simplify_eq/=. by exists t'.
    + apply IH; [|done]. intros a Ha. apply Hs. right. set_solver.
Qed.

(** The tasks created so far, oldest first; [g_tail] is the newest. *)
Definition task_ring s (ord : list Z) : Prop :=
  (g_tail s = 0 /\ ord = []) \/ ring (tasks s) (g_tail s) ord.

Lemma ring_insert ts tail ord p t tl : ring ts tail ord -> ts !! tail = Some tl -> p <> 0 -> ~ (p ∈ ord) ->
  ring (<[tail := set_next p tl]> (<[p := set_next (next tl) t]> ts)) p (ord ++ [p]).
Proof.
  intros Hr Htl Hp Hnin. set (ts' := <[tail := _]> _).
  pose proof (ring_last _ _ _ Hr) as Hl. pose proof (ring_nodup _ _ _ Hr) as Hnd.
  pose proof (ring_follows _ _ _ Hr) as Hf. pose proof (ring_nonnull _ _ _ Hr) as Hz.
  assert (Hne : ord <> []) by (by intros ->).
  destruct (exists_last Hne) as (o & z & ->). rewrite list.last_snoc in Hl. injection Hl as ->.
  assert (Htp : tail <> p) by set_solver.
  assert (Htail : ts' !! tail = Some (set_next p tl)) by apply lookup_insert_eq.
  assert (Hnp : ts' !! p = Some (set_next (next tl) t)).
  { subst ts'. rewrite lookup_insert_ne by done. apply lookup_insert_eq. }
  apply list.NoDup_app in Hnd as (Hnd1 & Hnd2 & _).
  split.
  - rewrite <- app_assoc. simpl. destruct o as [|x o]; simpl in *.
    + destruct Hf as [(t0 & Et0 & En0) _]. simplify_eq. split; [by eexists|]. split; [|done]. by eexists.
    + destruct Hf as [(t0 & Et0 & En0) Hf]. simplify_eq. split; [by eexists|].
      apply follows_app. split; [|split; [by eexists | done]].
      apply (follows_keep ts); [|done]. intros a Ha. subst ts'.
      assert (a <> tail) by (intros ->; apply (Hnd2 tail); set_solver).
      assert (a <> p) by (intros ->; apply Hnin; set_solver).
      by rewrite !lookup_insert_ne.
  - apply list.last_snoc.
  - apply list.NoDup_app. split; [apply Hr|]. split; [set_solver | apply NoDup_singleton].
  - set_solver.
Qed.

Lemma createTask_ok entry sz s ord : ts_ok (env s) -> task_ring s ord -> 0 < g_next_id s < 2 ^ 32 - 1 ->
  (forall a, is_Some (tasks s !! a) -> a ∈ ts_live (env s)) ->
  exists p s', createTask entry sz s = Ok (p, s') /\ ts_ok (env s') /\
    ((p = 0 /\ tasks s' = tasks s /\ g_tail s' = g_tail s) \/
     (p <> 0 /\ tasks s !! p = None /\ task_ring s' (ord ++ [p]) /\ g_next_id s' = g_next_id s + 1 /\
      exists t, tasks s' !! p = Some t /\ state t = Ready /\ id t = g_next_id s /\
        frames s' !! rsp t = Some (mkFrame entry GDT_KERNEL_CODE 0x202 (rsp t) GDT_KERNEL_DATA))).
Proof.
  intros Hok Hring Hid Hlive. unfold createTask.
  destruct (ts_kmalloc_spec SIZEOF_Task (env s) Hok) as (p & e1 & E1 & Hok1 & H1). run_call E1.
  destruct (ts_kmalloc_spec sz e1 Hok1) as (st & e2 & E2 & Hok2 & H2). run_call E2.
  destruct (ts_kmalloc_spec sz e2 Hok2) as (ks & e3 & E3 & Hok3 & H3). run_call E3.
  destruct ((p =? 0) || (st =? 0) || (ks =? 0)) eqn:Enull.
  { eexists 0, _. split; [reflexivity|]. split; [done|]. by left. }
  destruct (ts_create_space_spec e3 Hok3) as (pm & e4 & E4 & Hok4 & _). run_call E4.
  destruct (pm =? 0) eqn:Epm.
  { eexists 0, _. split; [reflexivity|]. split; [done|]. by left. }
  assert (Hp0 : p <> 0) by (intros ->; done).
  assert (Hpnone : tasks s !! p = None).
  { destruct (tasks s !! p) eqn:Ep; [|done]. exfalso.
    destruct H1 as [[? _]|(_ & Hfresh & _)]; [done|]. apply Hfresh, Hlive. by rewrite Ep. }
  assert (Enid : u32 (g_next_id s + 1) = g_next_id s + 1) by (apply u32_small; lia).
  set (fa := align16 _). set (t := mkTask fa _ _ _ _ _ _ _ _ _ _). unfold link_task. cbn [g_tail].
  destruct Hring as [[Ht ->]|Hr].
  - rewrite Ht. cbn [Z.eqb]. cbn [mbind outcome_bind mret outcome_ret].
    eexists p, _. split; [reflexivity|]. split; [done|]. right. split; [done|]. split; [done|]. split.
    { right. simpl. split; try done; [|apply NoDup_singleton|set_solver].
      split; [|done]. eexists. by rewrite lookup_insert_eq. }
    split; [done|]. eexists. split; [simpl; apply lookup_insert_eq|]. split; [done|]. split; [done|].
    simpl. by rewrite lookup_insert_eq.
  - destruct (ring_in _ _ _ _ Hr (ring_current _ _ _ Hr)) as [tl Htl].
    assert (Ht0 : g_tail s <> 0).
    { intros E0. apply (ring_nonnull _ _ _ Hr). rewrite <- E0. by apply (ring_current (tasks s)). }
    rewrite (proj2 (Z.eqb_neq _ _) Ht0). unfold get_task. simpl tasks. rewrite Htl.
    cbn [mbind outcome_bind mret outcome_ret]. eexists p, _. split; [reflexivity|]. split; [done|].
    right. split; [done|]. split; [done|]. split.
    { right. simpl. apply ring_insert; try done. intros Hin.
      destruct (ring_in _ _ _ p Hr Hin) as [t' Ht']. congruence. }
    split; [done|]. assert (g_tail s <> p) by congruence. eexists. split.
    { simpl. rewrite lookup_insert_ne by done. apply lookup_insert_eq. }
    split; [done|]. split; [done|]. simpl. by rewrite lookup_insert_eq.
Qed.

(** ** Killing tasks *)

Lemma findTaskById_ok i s ord : sched_inv s ord ->
  exists a, findTaskById i s = Ok a /\
    ((a = 0 /\ forall b t, b ∈ ord -> tasks s !! b = Some t -> id t <> i) \/
     (a <> 0 /\ a ∈ ord /\ exists t, tasks s !! a = Some t /\ id t = i)).
Proof.
  intros Hinv. pose proof (si_ring s ord Hinv) as Hr. pose proof (si_tail s ord Hinv) as Ht.
  destruct (list_elem_of_split _ _ Ht) as (o1 & o2 & Eo). pose proof Hr as Hr'. rewrite Eo in Hr'.
  apply ring_rotate in Hr'.
  destruct (search_from s (fun t => id t =? i) _ _ Hr') as (t & a & Et & Ea & Hcase).
  assert (Ht0 : g_tail s <> 0) by (intros E0; apply (ring_nonnull _ _ _ Hr); by rewrite <- E0).
  exists a. split.
  { unfold findTaskById. rewrite (proj2 (Z.eqb_neq _ _) Ht0). by run_call (get_task_ok _ _ _ Et). }
  destruct Hcase as [[-> Hno]|(Ha0 & p & q & Ep & Hpass & _)]; [left|right]; (split; [done|]).
  - intros b tb Hb Htb. rewrite Forall_forall in Hno.
    assert (Hin : b ∈ o2 ++ o1 ++ [g_tail s]) by (rewrite Eo in Hb; set_solver).
    apply list_elem_of_In, Hno in Hin. unfold passes in Hin. rewrite Htb in Hin. by apply Z.eqb_neq.
  - split; [assert (a ∈ o2 ++ o1 ++ [g_tail s]) by (rewrite Ep; set_solver); rewrite Eo; set_solver|].
    unfold passes in Hpass. destruct (tasks s !! a) as [ta|]; [|done]. exists ta. split; [done|]. by apply Z.eqb_eq.
Qed.

Definition ids_unique s (ord : list Z) : Prop := forall a b ta tb, a ∈ ord -> b ∈ ord ->
  tasks s !! a = Some ta -> tasks s !! b = Some tb -> id ta = id tb -> a = b.

Lemma find_unique i s ord a t : sched_inv s ord -> ids_unique s ord -> a ∈ ord -> tasks s !! a = Some t ->
  id t = i -> findTaskById i s = Ok a.
Proof.
  intros Hinv Hu Ha Ht Hi. destruct (findTaskById_ok i s ord Hinv) as (b & Eb & [[-> Hno]|(_ & Hb & tb & Htb & Hib)]).
  - exfalso. by apply (Hno a t).
  - rewrite Eb. f_equal. apply (Hu b a tb t); try done. congruence.
Qed.

Definition woken (st : TaskState) : TaskState := if bool_decide (st = Blocked) then Ready else st.

(** [wake] on the map of tasks. *)
Lemma wake_ok w tw s : tasks s !! w = Some tw ->
  wake w s = Ok (with_tasks s (<[w := set_state (woken (state tw)) tw]> (tasks s))).
Proof.
  intros Hw. unfold wake. run_call (get_task_ok w tw s Hw). unfold woken.
  destruct (bool_decide (state tw = Blocked)); [by apply mod_task_ok|].
  assert (Eid : set_state (state tw) tw = tw) by by destruct tw.
  rewrite Eid, insert_id by done. by destruct s.
Qed.

(** What the queue keeps of the entries [l] offered to it one after another. *)
Definition enqueued (q l : list Z) : list Z := q ++ take (MAX_PENDING_CLEANUP - length q) l.

Lemma queue_cleanup_queue a s : g_pending_cleanup (queue_cleanup a s) = enqueued (g_pending_cleanup s) [a].
Proof.
  unfold queue_cleanup, enqueued. destruct (Nat.ltb_spec (length (g_pending_cleanup s)) MAX_PENDING_CLEANUP) as [Hl|Hl].
  - destruct (MAX_PENDING_CLEANUP - length (g_pending_cleanup s))%nat eqn:E1; [lia|]; simpl; by rewrite take_nil.
  - replace (MAX_PENDING_CLEANUP - length (g_pending_cleanup s))%nat with 0%nat by lia. by rewrite app_nil_r.
Qed.

Lemma enqueued_app q l1 l2 : enqueued (enqueued q l1) l2 = enqueued q (l1 ++ l2).
Proof.
  unfold enqueued. rewrite <- app_assoc, length_app, length_take, firstn_app. do 2 f_equal.
  f_equal. lia.
Qed.

(** The entries that the death of [a] offers to the queue. *)
Definition cleanup_entries (a : Z) (t : Task) : list Z := if waiting_parent t =? 0 then [a; a] else [a].

Lemma queue_cleanup_tasks a s : tasks (queue_cleanup a s) = tasks s /\ g_current (queue_cleanup a s) = g_current s /\
  g_tail (queue_cleanup a s) = g_tail s /\ g_started (queue_cleanup a s) = g_started s /\
  env (queue_cleanup a s) = env s /\ kbd_focus (queue_cleanup a s) = kbd_focus s /\
  forall ord : list Z, a ∈ ord -> Forall (fun b => b ∈ ord) (g_pending_cleanup s) ->
    Forall (fun b => b ∈ ord) (g_pending_cleanup (queue_cleanup a s)).
Proof.
  unfold queue_cleanup. destruct (_ <? _)%nat; split_and!; try done. intros ord Ha Hf. simpl.
  apply Forall_app. split; [done|]. by constructor.
Qed.

(** The tasks after [a] was killed with [code] while its parent was waiting, or not. *)
Definition killed (ts : gmap Z Task) (a code : Z) (t : Task) : gmap Z Task :=
  let t1 := set_state Terminated (set_exit_code code t) in
  if waiting_parent t =? 0 then <[a := t1]> ts else
  match <[a := t1]> ts !! waiting_parent t with
  | Some tw => <[a := set_parent 0 t1]>
                 (<[waiting_parent t := set_state (woken (state tw)) tw]> (<[a := t1]> ts))
  | None => ts
  end.

Lemma killTask_ok i code s ord a t : sched_inv s ord -> ids_unique s ord -> a ∈ ord ->
  tasks s !! a = Some t -> id t = i -> state t <> Terminated ->
  waiting_parent t = 0 \/ waiting_parent t ∈ ord ->
  exists s', killTask i code s = Ok (if a =? g_current s then WaitsForTick else Returned true, s') /\
    tasks s' = killed (tasks s) a code t /\ g_current s' = g_current s /\ g_tail s' = g_tail s /\
    g_started s' = g_started s /\ env s' = env s /\
    Forall (fun b => b ∈ ord) (g_pending_cleanup s') /\
    kbd_focus s' = (if kbd_focus s =? i then 0 else kbd_focus s) /\
    g_pending_cleanup s' = enqueued (g_pending_cleanup s) (cleanup_entries a t).
Proof.
  intros Hinv Hu Ha Ht Hi Hst Hw. unfold killTask. run_call (find_unique i s ord a t Hinv Hu Ha Ht Hi).
  pose proof (si_ring s ord Hinv) as Hr.
  assert (Ha0 : a <> 0) by (intros ->; by apply (ring_nonnull _ _ _ Hr)).
  rewrite (proj2 (Z.eqb_neq _ _) Ha0). run_call (get_task_ok a t s Ht).
  rewrite bool_decide_eq_false_2 by done.
  set (t1 := set_state Terminated (set_exit_code code t)).
  assert (E1 : mod_task a (fun t => set_state Terminated (set_exit_code code t)) s =
    Ok (with_tasks s (<[a := t1]> (tasks s)))) by (by apply (mod_task_ok a (fun t => set_state Terminated (set_exit_code code t)))).
  run_call E1. set (s1 := with_tasks s _).
  assert (exists s2, (if negb (waiting_parent t =? 0) then
      w ← wake (waiting_parent t) s1; mod_task a (set_parent 0) w else mret (queue_cleanup a s1)) = Ok s2 /\
    tasks s2 = killed (tasks s) a code t /\ g_current s2 = g_current s /\ g_tail s2 = g_tail s /\
    g_started s2 = g_started s /\ env s2 = env s /\ kbd_focus s2 = kbd_focus s /\
    Forall (fun b => b ∈ ord) (g_pending_cleanup s2) /\
    enqueued (g_pending_cleanup s2) [a] = enqueued (g_pending_cleanup s) (cleanup_entries a t))
    as (s2 & E2 & T2 & C2 & L2 & S2 & N2 & K2 & P2 & G2).
  { unfold killed, cleanup_entries. fold t1. destruct (Z.eqb_spec (waiting_parent t) 0) as [Ew|Ew]; cbn [negb].
    - destruct (queue_cleanup_tasks a s1) as (Q1 & Q2 & Q3 & Q4 & Q5 & Q6 & Q7).
      exists (queue_cleanup a s1). rewrite Q1, Q2, Q3, Q4, Q5, Q6. split_and!; try done.
      + apply Q7; [done | apply Hinv].
      + by rewrite queue_cleanup_queue, enqueued_app.
    - destruct Hw as [?|Hw]; [done|].
      assert (exists tw, <[a := t1]> (tasks s) !! waiting_parent t = Some tw) as [tw Htw].
      { destruct (decide (a = waiting_parent t)) as [<-|Hne]; [rewrite lookup_insert_eq; by eexists|].
        rewrite lookup_insert_ne by done. by apply (ring_in _ _ _ _ Hr). }
      rewrite Htw. run_call (wake_ok (waiting_parent t) tw s1 Htw).
      assert (exists ta, <[waiting_parent t := set_state (woken (state tw)) tw]> (<[a := t1]> (tasks s)) !! a = Some ta
        /\ set_parent 0 ta = set_parent 0 t1) as (ta & Hta & Eta).
      { destruct (decide (a = waiting_parent t)) as [Ew2|Hne].
        - rewrite <- Ew2 in *. rewrite lookup_insert_eq in Htw |- *. simplify_eq.
          eexists. split; [done|]. done.
        - rewrite lookup_insert_ne by congruence. rewrite lookup_insert_eq. by eexists. }
      rewrite (mod_task_ok a (set_parent 0) ta) by exact Hta. rewrite Eta.
      eexists. split; [reflexivity|]. split_and!; try done. apply Hinv. }
  run_call E2. pose proof (queue_cleanup_queue a s2) as Q8. rewrite G2 in Q8. destruct (queue_cleanup_tasks a s2) as (Q1 & Q2 & Q3 & Q4 & Q5 & Q6 & Q7).
  eexists. split; [reflexivity|]. rewrite Q6, K2.
  destruct (kbd_focus s =? i); simpl; rewrite ?Q1, ?Q2, ?Q3, ?Q4, ?Q5, ?Q6; split_and!; try done; auto.
Qed.

(** One entry of the map after the kill. *)
Lemma killed_entry ts a code t b tb : ts !! a = Some t -> ts !! b = Some tb -> b <> a -> b <> 0 ->
  waiting_parent t = 0 \/ is_Some (ts !! waiting_parent t) ->
  killed ts a code t !! b = Some (if b =? waiting_parent t then set_state (woken (state tb)) tb else tb).
Proof.
  intros Ht Hb Hne Hb0 Hw. unfold killed. destruct (Z.eqb_spec (waiting_parent t) 0) as [Ew|Ew].
  - rewrite Ew, (proj2 (Z.eqb_neq _ _) Hb0). by rewrite lookup_insert_ne.
  - destruct Hw as [?|[tw Htw]]; [done|]. destruct (Z.eqb_spec b (waiting_parent t)) as [->|Hnw].
    + rewrite lookup_insert_ne, Hb by done. rewrite lookup_insert_ne by done. by rewrite lookup_insert_eq.
    + destruct (decide (waiting_parent t = a)) as [E1|E1].
      * rewrite E1, lookup_insert_eq. by rewrite !lookup_insert_ne.
      * rewrite lookup_insert_ne, Htw by done. by rewrite !lookup_insert_ne.
Qed.

Lemma killed_self ts a code t : ts !! a = Some t ->
  waiting_parent t = 0 \/ is_Some (ts !! waiting_parent t) ->
  exists t', killed ts a code t !! a = Some t' /\ state t' = Terminated /\ exit_code t' = code /\ next t' = next t.
Proof.
  intros Ht Hw. unfold killed. destruct (Z.eqb_spec (waiting_parent t) 0) as [Ew|Ew].
  - rewrite lookup_insert_eq. by eexists.
  - destruct Hw as [?|[tw Htw]]; [done|]. destruct (decide (waiting_parent t = a)) as [E1|E1].
    + rewrite E1, lookup_insert_eq, lookup_insert_eq. by eexists.
    + rewrite lookup_insert_ne, Htw by done. rewrite lookup_insert_eq. by eexists.
Qed.

Lemma killed_absent ts a code t b : ts !! b = None -> b <> a ->
  waiting_parent t = 0 \/ is_Some (ts !! waiting_parent t) -> killed ts a code t !! b = None.
Proof.
  intros Hb Hne Hw. unfold killed. destruct (Z.eqb_spec (waiting_parent t) 0) as [Ew|Ew].
  - by rewrite lookup_insert_ne.
  - destruct Hw as [?|[tw Htw]]; [done|]. destruct (decide (waiting_parent t = a)) as [E1|E1].
    + rewrite E1, lookup_insert_eq. by rewrite !lookup_insert_ne.
    + rewrite lookup_insert_ne, Htw by done. rewrite !lookup_insert_ne; try done. congruence.
Qed.

Lemma killed_inv s s' ord a t code : sched_inv s ord -> a ∈ ord -> tasks s !! a = Some t ->
  waiting_parent t = 0 \/ waiting_parent t ∈ ord -> tasks s !! 0 = None ->
  tasks s' = killed (tasks s) a code t -> g_current s' = g_current s -> g_tail s' = g_tail s ->
  g_started s' = g_started s -> env s' = env s -> Forall (fun b => b ∈ ord) (g_pending_cleanup s') ->
  sched_inv s' ord.
Proof.
  intros Hinv Ha Ht Hw H0 T C L S N P. pose proof (si_ring s ord Hinv) as Hr.
  assert (Hw' : waiting_parent t = 0 \/ is_Some (tasks s !! waiting_parent t)).
  { destruct Hw as [?|Hw]; [by left|]. right. destruct (ring_in _ _ _ _ Hr Hw) as [tw Htw]. by exists tw. }
  destruct (killed_self _ a code t Ht Hw') as (t' & Ht' & Hst & _ & Hn).
  split; rewrite ?T, ?C, ?L, ?S, ?N; try apply Hinv; try done.
  - apply (ring_ext (tasks s)); [|done]. intros b. destruct (decide (b = a)) as [->|Hne].
    { rewrite Ht, Ht'. simpl. by rewrite Hn. }
    destruct (tasks s !! b) as [tb|] eqn:Hb.
    + assert (b <> 0) by congruence. rewrite (killed_entry _ a code t b tb) by done. by destruct (b =? _).
    + by rewrite killed_absent.
  - intros b tb Hb HR. destruct (decide (b = a)) as [->|Hne]; [congruence|].
    destruct (tasks s !! b) as [tb0|] eqn:Hb0; [|by rewrite killed_absent in Hb].
    assert (b <> 0) by congruence. rewrite (killed_entry _ a code t b tb0) in Hb by done. simplify_eq.
    apply (si_running s ord Hinv b tb0 Hb0). destruct (b =? waiting_parent t); simpl in HR; [|done].
    unfold woken in HR. by destruct (state tb0).
Qed.

(** ** Properties *)

(** C4. [tick] on a started scheduler returns and runs the first runnable
    task after the current one in ring order: it becomes the only running
    task and the processor gets its saved stack, its kernel stack and its
    address space.  The frame of the interrupt is saved as the stack pointer
    of the interrupted task, which is ready again if it was running; no other
    task changes its state or its stack pointer, the ring is kept, and the
    stacks of the tasks queued for cleanup, and no other memory, are given
    back. *)
Theorem tick_round_robin s ord regs : sched_inv s ord ->
  (exists a, a ∈ ord /\ passes (tasks s) runnable a = true) ->
  exists s' p a q, tick regs s = Ok s' /\ ord = p ++ a :: q /\
    passes (tasks s) runnable a = true /\ Forall (fun b => passes (tasks s) runnable b = false) p /\
    g_current s' = a /\ dispatched s' a /\ sched_inv s' (q ++ p ++ [a]) /\ after_tick regs s s' a.
Proof.
  intros Hinv (a & Ha & Hr). destruct (tick_ok s ord regs Hinv) as (s' & E1 & [(p & x & q & R)|(Hno & _)]).
  - by exists s', p, x, q.
  - rewrite Forall_forall in Hno. apply list_elem_of_In, Hno in Ha. congruence.
Qed.

(** C31. Fairness: a ready task runs after at most as many ticks as its
    distance from the current task in the ring. *)
Theorem ready_task_is_scheduled s p a q rs : sched_inv s (p ++ a :: q) ->
  passes (tasks s) is_ready a = true -> length rs = S (length p) ->
  exists rs1 rs2 s', rs = rs1 ++ rs2 /\ ticks rs1 s = Ok s' /\ g_current s' = a /\ dispatched s' a.
Proof.
  intros Hinv Ha Hrs. destruct (ready_within (S (length p)) s p a q rs) as (rs1 & rs2 & s' & R & _ & R');
    try done; [lia | lia |]. by exists rs1, rs2, s'.
Qed.

(** [createTask] either fails and leaves the tasks alone, or adds a ready
    task with a fresh id at the end of the ring whose saved frame enters
    [entry] in kernel mode with interrupts enabled. *)
Theorem createTask_correct entry sz s ord : ts_ok (env s) -> task_ring s ord -> 0 < g_next_id s < 2 ^ 32 - 1 ->
  (forall a, is_Some (tasks s !! a) -> a ∈ ts_live (env s)) ->
  exists p s', createTask entry sz s = Ok (p, s') /\ ts_ok (env s') /\
    ((p = 0 /\ tasks s' = tasks s /\ g_tail s' = g_tail s) \/
     (p <> 0 /\ tasks s !! p = None /\ task_ring s' (ord ++ [p]) /\ g_next_id s' = g_next_id s + 1 /\
      exists t, tasks s' !! p = Some t /\ state t = Ready /\ id t = g_next_id s /\
        frames s' !! rsp t = Some (mkFrame entry GDT_KERNEL_CODE 0x202 (rsp t) GDT_KERNEL_DATA))).
Proof. apply createTask_ok. Qed.

(** C32. [killTask] of a live task marks it terminated with the exit code,
    wakes the task that waits for it and no other, takes the keyboard focus
    from it, and keeps the ring; a task that kills itself does not return.
    The task is queued for cleanup behind those waiting: once when a task
    waits for it and twice otherwise, as far as the eight entries of the queue
    have room. *)
Theorem killTask_correct i code s ord a t : sched_inv s ord -> ids_unique s ord -> tasks s !! 0 = None ->
  a ∈ ord -> tasks s !! a = Some t -> id t = i -> state t <> Terminated ->
  waiting_parent t = 0 \/ waiting_parent t ∈ ord ->
  exists s', killTask i code s = Ok (if a =? g_current s then WaitsForTick else Returned true, s') /\
    sched_inv s' ord /\ kbd_focus s' = (if kbd_focus s =? i then 0 else kbd_focus s) /\
    g_pending_cleanup s' =
      g_pending_cleanup s ++ take (8 - length (g_pending_cleanup s)) (if waiting_parent t =? 0 then [a; a] else [a]) /\
    (exists t', tasks s' !! a = Some t' /\ state t' = Terminated /\ exit_code t' = code) /\
    (forall b tb, b <> a -> tasks s !! b = Some tb -> exists tb', tasks s' !! b = Some tb' /\
       state tb' = (if b =? waiting_parent t then woken (state tb) else state tb)).
Proof.
  intros Hinv Hu H0 Ha Ht Hi Hst Hw.
  destruct (killTask_ok i code s ord a t) as (s' & Ek & T & C & L & S & N & P & K & G); try done.
  assert (Hw' : waiting_parent t = 0 \/ is_Some (tasks s !! waiting_parent t)).
  { destruct Hw as [?|Hw]; [by left|]. right.
    destruct (ring_in _ _ _ _ (si_ring s ord Hinv) Hw) as [tw Htw]. by exists tw. }
  exists s'. split; [done|]. split; [by apply (killed_inv s s' ord a t code)|]. split; [done|]. split; [exact G|]. split.
  - rewrite T. destruct (killed_self _ a code t Ht Hw') as (t' & Ht' & Hs' & He' & _). by exists t'.
  - intros b tb Hne Hb. assert (b <> 0) by congruence. eexists.
    rewrite T, (killed_entry _ a code t b tb) by done. split; [done|]. by destruct (b =? waiting_parent t).
Qed.

(** When no task is runnable, [tick] keeps the current task and marks it
    running, although it is blocked or terminated. *)
Theorem tick_revives_stopped_task s ord regs : sched_inv s ord ->
  Forall (fun b => passes (tasks s) runnable b = false) ord ->
  exists s' t t', tick regs s = Ok s' /\ g_current s' = g_current s /\
    tasks s !! g_current s = Some t /\ (state t = Blocked \/ state t = Terminated) /\
    tasks s' !! g_current s = Some t' /\ state t' = Running.
Proof.
  intros Hinv Hno. pose proof (si_ring s ord Hinv) as Hr. pose proof (ring_current _ _ _ Hr) as Hc.
  destruct (ring_in _ _ _ _ Hr Hc) as [t Ht].
  destruct (tick_ok s ord regs Hinv) as (s' & E1 & [(p & x & q & -> & Hx & _)|(_ & C & _ & [Hall _] & _)]).
  - rewrite Forall_app, Forall_cons_iff in Hno. destruct Hno as (_ & Hx' & _). congruence.
  - destruct (Hall _ t Ht) as (t' & Ht' & Hs' & _). rewrite Z.eqb_refl in Hs'.
    exists s', t, t'. split_and!; try done. rewrite Forall_forall in Hno.
    apply list_elem_of_In, Hno in Hc. unfold passes, runnable in Hc. rewrite Ht in Hc.
    apply bool_decide_eq_false in Hc. destruct (state t); tauto.
Qed.
End search.

(** ** A concrete scheduler *)

(** A heap that only keeps the set of pointers it gave out. *)
Definition set_kmalloc (n : Z) (e : gset Z) : outcome (Z * gset Z) :=
  let p := fresh ({[0]} ∪ e) in Ok (p, {[p]} ∪ e).

#[export] Program Instance set_services : TaskServices (gset Z) := {|
  ts_kmalloc := set_kmalloc;
  ts_kfree p e := Ok (e ∖ {[p]});
  ts_create_space e := Ok (4096, e);
  ts_live e := e;
  ts_ok _ := True;
|}.
Next Obligation.
  intros n e _. exists (fresh ({[0]} ∪ e)), ({[fresh ({[0]} ∪ e)]} ∪ e). split; [done|]. split; [done|]. right.
  pose proof (is_fresh (A := Z) (C := gset Z) ({[0]} ∪ e)) as Hf. split_and!; [set_solver | set_solver | done].
Qed.
Next Obligation. intros p e _. by eexists. Qed.
Next Obligation. intros e _. by exists 4096, e. Qed.

Definition sample_task (i : Z) (st : TaskState) (parent nx : Z) : Task :=
  mkTask (1000 * i) i st 0 (2000 * i) 0 0 0 parent (4096 * i) nx.

(** Task 1 runs, task 2 is ready, task 3 waits for task 2. *)
Definition sample_sched : Sched (gset Z) :=
  mkSched {[100 := sample_task 1 Running 0 200; 200 := sample_task 2 Ready 300 300;
            300 := sample_task 3 Blocked 0 100]} ∅ 100 300 4 true [] 0 0 0 2 {[100; 200; 300]}.

(** The same with task 1 blocked and task 2 terminated. *)
Definition sample_stopped : Sched (gset Z) :=
  mkSched {[100 := sample_task 1 Blocked 0 200; 200 := sample_task 2 Terminated 0 300;
            300 := sample_task 3 Blocked 0 100]} ∅ 100 300 4 true [] 0 0 0 0 {[100; 200; 300]}.

Lemma sample_lookup s a (t : Task) : tasks s = tasks sample_sched \/ tasks s = tasks sample_stopped ->
  tasks (E := gset Z) s !! a = Some t -> a = 100 \/ a = 200 \/ a = 300.
Proof.
  intros Hs Ht. destruct (decide (a = 100)); [auto|]. destruct (decide (a = 200)); [auto|].
  destruct (decide (a = 300)); [auto|]. exfalso.
  destruct Hs as [Hs|Hs]; rewrite Hs in Ht; simpl in Ht;
    by rewrite !lookup_insert_ne, lookup_singleton_ne in Ht by done.
Qed.

Lemma sample_inv_of s : s = sample_sched \/ s = sample_stopped -> sched_inv s [200; 300; 100].
Proof.
  intros Hs. split.
  - split.
    + destruct Hs as [-> | ->]; simpl; split_and!; try done; by eexists.
    + by destruct Hs as [-> | ->].
    + apply (bool_decide_unpack _). by vm_compute.
    + by rewrite !elem_of_cons, elem_of_nil; intros [?|[?|[?|?]]].
  - by destruct Hs as [-> | ->]; simpl; set_solver.
  - by destruct Hs as [-> | ->].
  - intros a t Ht HR. assert (a = 100 \/ a = 200 \/ a = 300) as Ha.
    { apply (sample_lookup s a t); [|done]. by destruct Hs as [-> | ->]; [left|right]. }
    destruct Hs as [-> | ->]; destruct Ha as [-> |[-> | ->]]; try done;
      vm_compute in Ht; injection Ht as <-; done.
  - by destruct Hs as [-> | ->]; constructor.
  - done.
Qed.

Lemma tick_round_robin_witness : exists s' p a q, tick 7 sample_sched = Ok s' /\
  [200; 300; 100] = p ++ a :: q /\ g_current s' = a /\ exists t', tasks s' !! 100 = Some t' /\ rsp t' = 7.
Proof.
  destruct (tick_round_robin sample_sched [200; 300; 100] 7 (sample_inv_of _ (or_introl eq_refl)))
    as (s' & p & a & q & E1 & Eo & _ & _ & C & _ & _ & [T _]).
  - exists 200. split; [set_solver | reflexivity].
  - exists s', p, a, q. split; [exact E1|]. split; [exact Eo|]. split; [exact C|].
    destruct (T 100 (sample_task 1 Running 0 200) eq_refl) as (t' & Ht' & _ & R & _). exists t'. split; [exact Ht' | exact R].
Defined.

Lemma ready_task_is_scheduled_witness : exists rs1 rs2 s', [7] = rs1 ++ rs2 /\
  ticks rs1 sample_sched = Ok s' /\ g_current s' = 200.
Proof.
  destruct (ready_task_is_scheduled sample_sched [] 200 [300; 100] [7] (sample_inv_of _ (or_introl eq_refl)))
    as (rs1 & rs2 & s' & Er & Et & C & _).
  - reflexivity.
  - reflexivity.
  - exists rs1, rs2, s'. split; [exact Er|]. split; [exact Et | exact C].
Defined.

Lemma createTask_correct_witness : exists p s', createTask 0xABC 16384 sample_sched = Ok (p, s').
Proof.
  destruct (createTask_correct 0xABC 16384 sample_sched [100; 200; 300]) as (p & s' & E1 & _).
  - exact I.
  - right. apply (ring_rotate _ 100 [200] 300 [100]). apply (si_ring _ _ (sample_inv_of _ (or_introl eq_refl))).
  - simpl. lia.
  - intros a [t Ht]. assert (a = 100 \/ a = 200 \/ a = 300) by (by apply (sample_lookup sample_sched a t); [left|]).
    simpl. set_solver.
  - exists p, s'. exact E1.
Defined.

Lemma killTask_correct_witness : exists s', killTask 2 5 sample_sched = Ok (Returned true, s') /\
  kbd_focus s' = 0 /\ g_pending_cleanup s' = [200] /\ exists t3, tasks s' !! 300 = Some t3 /\ state t3 = Ready.
Proof.
  destruct (killTask_correct 2 5 sample_sched [200; 300; 100] 200 (sample_task 2 Ready 300 300)
    (sample_inv_of _ (or_introl eq_refl))) as (s' & E1 & _ & K & G & _ & O).
  - intros a b ta tb Ha Hb Hta Htb Hid.
    rewrite !elem_of_cons, elem_of_nil in Ha, Hb.
    destruct Ha as [-> |[-> |[-> | []]]], Hb as [-> |[-> |[-> | []]]]; try reflexivity;
      vm_compute in Hta, Htb; injection Hta as <-; injection Htb as <-; discriminate Hid.
  - reflexivity.
  - set_solver.
  - reflexivity.
  - reflexivity.
  - discriminate.
  - right. set_solver.
  - exists s'. split; [exact E1|]. split; [exact K|]. split; [exact G|].
    destruct (O 300 (sample_task 3 Blocked 0 100)) as (t3 & H3 & S3); [lia | reflexivity |].
    exists t3. split; [exact H3 | exact S3].
Defined.

Lemma tick_revives_stopped_task_witness : exists s' t t', tick 7 sample_stopped = Ok s' /\
  tasks sample_stopped !! 100 = Some t /\ (state t = Blocked \/ state t = Terminated) /\
  tasks s' !! 100 = Some t' /\ state t' = Running.
Proof.
  destruct (tick_revives_stopped_task sample_stopped [200; 300; 100] 7 (sample_inv_of _ (or_intror eq_refl)))
    as (s' & t & t' & E1 & _ & Ht & Hs & Ht' & Hs').
  - repeat constructor.
  - exists s', t, t'. split; [exact E1|]. split; [exact Ht|]. split; [exact Hs|]. split; [exact Ht' | exact Hs'].
Defined.
