(* ===== verification/Vfs.v ===== *)
(** Virtual file system, [src/src/fs/vfs.cpp] and [vfs.h].

    A C string is the list of its characters before the terminating zero; a
    copy into an array of [n] bytes keeps the first [n - 1] of them.  The
    mount table and the table of open files are lists of fixed length, and an
    open file refers to its mount by the index of the slot, as the pointer
    does.  A file system driver is the record of functions of
    [struct FilesystemDriver], over the world [W] its instances live in: the
    ext2 driver or any other. *)

From Stdlib Require Import ZifyBool.
From S2P Require Import Prelude.

Definition MAX_BLOCK_DEVICES : nat := 16.
Definition MAX_MOUNTS : nat := 8.
Definition MAX_OPEN_FILES : nat := 32.
Definition INVALID_FD : Z := -1.

Definition SLASH : Z := 47.
Definition DOT : Z := 46.

Record BlockDevice := mkDev {
  dev_name : list Z;
  device_handle : Z;
  sector_count : Z;
  sector_size : Z;
}.

Record FileHandle := mkHandle { fs_private : Z; fsize : Z; is_directory : bool }.
Record DirEntry := mkEntry { de_name : list Z; de_is_directory : bool }.

(** The driver's functions; a null instance is 0, a result [false] is [None]. *)
Record FilesystemDriver (W : Type) := mkDriver {
  drv_name : list Z;
  drv_mount : BlockDevice -> W -> outcome (Z * W);
  drv_unmount : Z -> W -> outcome W;
  drv_open : Z -> list Z -> W -> outcome (option FileHandle * W);
  drv_close : Z -> FileHandle -> W -> outcome W;
  drv_read : Z -> FileHandle -> Z -> Z -> W -> outcome (Z * list Z * FileHandle * W);
  drv_write : Z -> FileHandle -> Z -> list Z -> W -> outcome (Z * FileHandle * W);
  drv_isDirectory : Z -> list Z -> W -> outcome (bool * W);
  drv_readdir : Z -> list Z -> Z -> W -> outcome (option DirEntry * W);
  drv_create : Z -> list Z -> bool -> W -> outcome (bool * W);
  drv_unlinkFile : Z -> list Z -> W -> outcome (bool * W);
  drv_rmdir : Z -> list Z -> W -> outcome (bool * W);
}.
Arguments mkDriver {W}.
Arguments drv_name {W}.
Arguments drv_mount {W}.
Arguments drv_unmount {W}.
Arguments drv_open {W}.
Arguments drv_close {W}.
Arguments drv_read {W}.
Arguments drv_write {W}.
Arguments drv_isDirectory {W}.
Arguments drv_readdir {W}.
Arguments drv_create {W}.
Arguments drv_unlinkFile {W}.
Arguments drv_rmdir {W}.

Record Mount (W : Type) := mkMount {
  m_in_use : bool;
  mount_point : list Z;
  device_name : list Z;
  device : Z;
  driver : FilesystemDriver W;
  fs_instance : Z;
}.
Arguments mkMount {W}.
Arguments m_in_use {W}.
Arguments mount_point {W}.
Arguments device_name {W}.
Arguments device {W}.
Arguments driver {W}.
Arguments fs_instance {W}.

Record OpenFile := mkOpen { f_in_use : bool; f_mount : nat; f_handle : FileHandle; f_offset : Z }.

Record Vfs (W : Type) := mkVfs {
  g_block_devices : list BlockDevice;
  g_mounts : list (Mount W);
  g_open_files : list OpenFile;
  world : W;
}.
Arguments mkVfs {W}.
Arguments g_block_devices {W}.
Arguments g_mounts {W}.
Arguments g_open_files {W}.
Arguments world {W}.

(** [strncpy(dst, s, n - 1); dst[n - 1] = 0;] for a string that is read back. *)
Definition fixed (n : nat) (s : list Z) : list Z := take (n - 1) s.

(** [s[i]], which is the terminating zero at the end of the string. *)
Definition char_at (s : list Z) (i : nat) : Z := default 0 (s !! i).

Definition str_eqb (a b : list Z) : bool := bool_decide (a = b).

(** [strncmp(str, prefix, strlen(prefix)) == 0] *)
Definition startsWith (str prefix : list Z) : bool := str_eqb (take (length prefix) str) prefix.

Definition pathEquals (a b : list Z) : bool := str_eqb a b.

Section vfs.
Context {W : Type}.
Implicit Types v : Vfs W.

Definition with_mounts v (ms : list (Mount W)) : Vfs W := mkVfs (g_block_devices v) ms (g_open_files v) (world v).
Definition with_files v (fs : list OpenFile) : Vfs W := mkVfs (g_block_devices v) (g_mounts v) fs (world v).
Definition with_world v (w : W) : Vfs W := mkVfs (g_block_devices v) (g_mounts v) (g_open_files v) w.

(** ** Path resolution *)

(** The loop of [resolvePath] over the mounts from index [i] on. *)
Fixpoint best_mount (path : list Z) (ms : list (Mount W)) (i : nat) (best : option nat) (best_len : nat) :
    option nat * nat :=
  match ms with
  | [] => (best, best_len)
  | m :: ms' =>
      let mp_len := length (mount_point m) in
      if m_in_use m && startsWith path (mount_point m) &&
         ((char_at path mp_len =? 0) || (char_at path mp_len =? SLASH)) && (best_len <? mp_len)%nat
      then best_mount path ms' (S i) (Some i) mp_len
      else best_mount path ms' (S i) best best_len
  end.

Definition skip_slash (s : list Z) : list Z :=
  match s with c :: s' => if c =? SLASH then s' else s | [] => [] end.

(** The slot of the mount and the path inside it. *)
Definition resolvePath (path : list Z) (out_subpath_size : nat) v : option (nat * list Z) :=
  match best_mount path (g_mounts v) 0 None 0 with
  | (Some i, best_len) => Some (i, take (out_subpath_size - 1) (skip_slash (drop best_len path)))
  | (None, _) => None
  end.

(** [g_mounts[i]] for an index the code computed. *)
Definition get_mount (i : nat) v : outcome (Mount W) :=
  match g_mounts v !! i with Some m => Ok m | None => Fault end.

(** ** Block devices *)

Definition init v : Vfs W :=
  mkVfs [] ((fun m => mkMount false (mount_point m) (device_name m) (device m) (driver m) (fs_instance m)) <$> g_mounts v)
    ((fun f => mkOpen false (f_mount f) (f_handle f) (f_offset f)) <$> g_open_files v) (world v).

Definition registerBlockDevice (name : list Z) (handle sectors secsize : Z) v : bool * Vfs W :=
  if (MAX_BLOCK_DEVICES <=? length (g_block_devices v))%nat then (false, v) else
  (true, mkVfs (g_block_devices v ++ [mkDev (fixed 32 name) handle sectors secsize]) (g_mounts v)
           (g_open_files v) (world v)).

Definition blockDeviceCount v : Z := Z.of_nat (length (g_block_devices v)).

Definition getBlockDevice (index : Z) v : option BlockDevice :=
  if (index <? 0) || (blockDeviceCount v <=? index) then None else g_block_devices v !! Z.to_nat index.

(** The index of the first device with that name. *)
Fixpoint find_device (devs : list BlockDevice) (name : list Z) (i : Z) : option (Z * BlockDevice) :=
  match devs with
  | [] => None
  | d :: devs' => if str_eqb (dev_name d) name then Some (i, d) else find_device devs' name (i + 1)
  end.

Definition findBlockDevice (name : list Z) v : option (Z * BlockDevice) :=
  find_device (g_block_devices v) name 0.

(** ** Mounting *)

(** The first slot that satisfies the test. *)
Fixpoint first_slot {A} (test : A -> bool) (l : list A) (i : nat) : option nat :=
  match l with
  | [] => None
  | x :: l' => if test x then Some i else first_slot test l' (S i)
  end.

Definition mounted_at (mp : list Z) (m : Mount W) : bool := m_in_use m && str_eqb (mount_point m) mp.

Definition mount (mp devname : list Z) (drv : FilesystemDriver W) v : outcome (bool * Vfs W) :=
  match findBlockDevice devname v with
  | None => mret (false, v)
  | Some (di, dev) =>
      if existsb (mounted_at mp) (g_mounts v) then mret (false, v) else
      match first_slot (fun m => negb (m_in_use m)) (g_mounts v) 0 with
      | None => mret (false, v)
      | Some i =>
          '(instance, w) ← drv_mount drv dev (world v);
          let v1 := with_world v w in
          if instance =? 0 then mret (false, v1) else
          mret (true, with_mounts v1
            (<[i := mkMount true (fixed 64 mp) (fixed 32 devname) di drv instance]> (g_mounts v1)))
      end
  end.

Definition unmount (mp : list Z) v : outcome (bool * Vfs W) :=
  match first_slot (mounted_at mp) (g_mounts v) 0 with
  | None => mret (false, v)
  | Some i =>
      m ← get_mount i v;
      w ← drv_unmount (driver m) (fs_instance m) (world v);
      mret (true, with_mounts (with_world v w)
        (<[i := mkMount false (mount_point m) (device_name m) (device m) (driver m) (fs_instance m)]> (g_mounts v)))
  end.

Definition mountCount v : Z := Z.of_nat (length (filter (fun m => m_in_use m = true) (g_mounts v))).

(** Mount point, device and driver name of the [index]-th mount in use. *)
Definition getMount (index : Z) v : option (list Z * list Z * list Z) :=
  if index <? 0 then None else
  match filter (fun m => m_in_use m = true) (g_mounts v) !! Z.to_nat index with
  | Some m => Some (fixed 64 (mount_point m), fixed 32 (device_name m), drv_name (driver m))
  | None => None
  end.

(** ** Files *)

Definition open (path : list Z) v : outcome (Z * Vfs W) :=
  match resolvePath path 128 v with
  | None => mret (INVALID_FD, v)
  | Some (mi, subpath) =>
      match first_slot (fun f => negb (f_in_use f)) (g_open_files v) 0 with
      | None => mret (INVALID_FD, v)
      | Some fd =>
          m ← get_mount mi v;
          '(h, w) ← drv_open (driver m) (fs_instance m) subpath (world v);
          let v1 := with_world v w in
          match h with
          | None => mret (INVALID_FD, v1)
          | Some handle =>
              mret (Z.of_nat fd, with_files v1 (<[fd := mkOpen true mi handle 0]> (g_open_files v1)))
          end
      end
  end.

(** The open file behind a descriptor, when there is one. *)
Definition get_file (fd : Z) v : option OpenFile :=
  if (fd <? 0) || (Z.of_nat MAX_OPEN_FILES <=? fd) then None else
  match g_open_files v !! Z.to_nat fd with
  | Some f => if f_in_use f then Some f else None
  | None => None
  end.

Definition put_file (fd : Z) (f : OpenFile) v : Vfs W := with_files v (<[Z.to_nat fd := f]> (g_open_files v)).

Definition read (fd count : Z) v : outcome (Z * list Z * Vfs W) :=
  match get_file fd v with
  | None => mret (-1, [], v)
  | Some f =>
      m ← get_mount (f_mount f) v;
      '(n, data, h, w) ← drv_read (driver m) (fs_instance m) (f_handle f) (f_offset f) count (world v);
      let off := if 0 <? n then u64 (f_offset f + n) else f_offset f in
      mret (n, data, put_file fd (mkOpen true (f_mount f) h off) (with_world v w))
  end.

Definition write (fd : Z) (buf : list Z) v : outcome (Z * Vfs W) :=
  match get_file fd v with
  | None => mret (-1, v)
  | Some f =>
      m ← get_mount (f_mount f) v;
      '(n, h, w) ← drv_write (driver m) (fs_instance m) (f_handle f) (f_offset f) buf (world v);
      let off := if 0 <? n then u64 (f_offset f + n) else f_offset f in
      mret (n, put_file fd (mkOpen true (f_mount f) h off) (with_world v w))
  end.

Definition close (fd : Z) v : outcome (Vfs W) :=
  match get_file fd v with
  | None => mret v
  | Some f =>
      m ← get_mount (f_mount f) v;
      w ← drv_close (driver m) (fs_instance m) (f_handle f) (world v);
      mret (put_file fd (mkOpen false (f_mount f) (f_handle f) (f_offset f)) (with_world v w))
  end.

(** The operations that only pass the path on. *)
Definition on_path {A} (path : list Z) (dflt : A)
    (op : FilesystemDriver W -> Z -> list Z -> W -> outcome (A * W)) v : outcome (A * Vfs W) :=
  match resolvePath path 128 v with
  | None => mret (dflt, v)
  | Some (mi, subpath) =>
      m ← get_mount mi v;
      '(r, w) ← op (driver m) (fs_instance m) subpath (world v);
      mret (r, with_world v w)
  end.

Definition create (path : list Z) (isdir : bool) v : outcome (bool * Vfs W) :=
  on_path path false (fun d i p => drv_create d i p isdir) v.
Definition unlink (path : list Z) v : outcome (bool * Vfs W) :=
  on_path path false (fun d i p => drv_unlinkFile d i p) v.
Definition rmdir (path : list Z) v : outcome (bool * Vfs W) :=
  on_path path false (fun d i p => drv_rmdir d i p) v.

Definition root_path : list Z := [SLASH].
Definition dev_path : list Z := [SLASH; 100; 101; 118].
Definition disks_path : list Z := [SLASH; 100; 101; 118; SLASH; 100; 105; 115; 107; 115].

Definition isDirectory (path : list Z) v : outcome (bool * Vfs W) :=
  if pathEquals path root_path then mret (true, v) else
  if pathEquals path dev_path then mret (true, v) else
  if pathEquals path disks_path then mret (true, v) else
  if existsb (mounted_at path) (g_mounts v) then mret (true, v) else
  on_path path false (fun d i p => drv_isDirectory d i p) v.

(** The part of a string before the first slash. *)
Fixpoint until_slash (s : list Z) : list Z :=
  match s with c :: s' => if c =? SLASH then [] else c :: until_slash s' | [] => [] end.

(** The loop of [listDirectory] over the mounts, for the root directory. *)
Fixpoint list_root (ms : list (Mount W)) (shown : list (list Z)) (seen target : Z) : option DirEntry :=
  match ms with
  | [] => None
  | m :: ms' =>
      let mp := mount_point m in
      if negb (m_in_use m) || negb (char_at mp 0 =? SLASH) || (char_at mp 1 =? 0)
      then list_root ms' shown seen target
      else
        let comp := until_slash (drop 1 mp) in
        if existsb (fun s => str_eqb s comp) shown then list_root ms' shown seen target else
        if seen =? target then Some (mkEntry (fixed 64 (fixed 32 comp)) true)
        else list_root ms' (shown ++ [fixed 32 comp]) (seen + 1) target
  end.

Definition listDirectory (path : list Z) (index : Z) v : outcome (option DirEntry * Vfs W) :=
  if pathEquals path root_path then
    if index <? 1 then
      (if index <? 0 then Fault else mret (Some (mkEntry [100; 101; 118] true), v))
    else mret (list_root (g_mounts v) [] 0 (index - 1), v)
  else if pathEquals path dev_path then
    mret (if index =? 0 then Some (mkEntry [100; 105; 115; 107; 115] true) else None, v)
  else if pathEquals path disks_path then
    mret (match getBlockDevice index v with Some d => Some (mkEntry (fixed 64 (dev_name d)) false) | None => None end, v)
  else on_path path None (fun d i p => drv_readdir d i p index) v.

Inductive SeekMode := SeekSet | SeekCur | SeekEnd.

Definition seek (fd offset : Z) (mode : SeekMode) v : Z * Vfs W :=
  match get_file fd v with
  | None => (-1, v)
  | Some f =>
      let new_offset := match mode with
        | SeekSet => offset
        | SeekCur => s64 (s64 (f_offset f) + offset)
        | SeekEnd => s64 (s64 (fsize (f_handle f)) + offset)
        end in
      if new_offset <? 0 then (-1, v)
      else (new_offset, put_file fd (mkOpen true (f_mount f) (f_handle f) (u64 new_offset)) v)
  end.

Definition tell (fd : Z) v : Z :=
  match get_file fd v with None => -1 | Some f => s64 (f_offset f) end.
End vfs.

(** ** Path normalisation *)

(** The 256-byte buffer [combined]. *)
Definition combine (cwd input : list Z) : list Z :=
  if char_at input 0 =? SLASH then SLASH :: take 254 (drop 1 input) else
  let c1 := take 254 cwd in
  let c2 := if (length c1 =? 0)%nat || negb (char_at c1 (length c1 - 1) =? SLASH) then c1 ++ [SLASH] else c1 in
  c2 ++ take (255 - length c2) input.

Fixpoint skip_slashes (s : list Z) : list Z :=
  match s with c :: s' => if c =? SLASH then skip_slashes s' else s | [] => [] end.

(** One segment of the loop of [normalizePath]. *)
Definition push_segment (seg : list Z) (segs : list (list Z)) : list (list Z) :=
  if (length seg =? 0)%nat then segs else
  if str_eqb seg [DOT] then segs else
  if str_eqb seg [DOT; DOT] then take (length segs - 1) segs else
  if (length segs <? 32)%nat then segs ++ [take 63 seg] else segs.

Fixpoint scan_segments (fuel : nat) (p : list Z) (segs : list (list Z)) : list (list Z) :=
  match fuel with
  | O => segs
  | S fuel' =>
      match p with
      | [] => segs
      | _ => let start := until_slash p in
             scan_segments fuel' (skip_slashes (drop (length start) p)) (push_segment start segs)
      end
  end.

(** [out[oi++] = c] *)
Definition emit (out_size : nat) (c : Z) (out : list Z) : outcome (list Z) :=
  if (length out <? out_size)%nat then Ok (out ++ [c]) else Fault.

Fixpoint emit_segment (out_size : nat) (seg out : list Z) : outcome (list Z) :=
  match seg with
  | [] => mret out
  | c :: seg' =>
      if (length out <? out_size - 2)%nat
      then out' ← emit out_size c out; emit_segment out_size seg' out'
      else mret out
  end.

Fixpoint emit_segments (out_size : nat) (segs : list (list Z)) (out : list Z) : outcome (list Z) :=
  match segs with
  | [] => mret out
  | [seg] => emit_segment out_size seg out
  | seg :: segs' =>
      out1 ← emit_segment out_size seg out;
      out2 ← emit out_size SLASH out1;
      emit_segments out_size segs' out2
  end.

(** The segments of the combined path; every round consumes a character. *)
Definition path_segments (combined : list Z) : list (list Z) :=
  let p := skip_slashes combined in scan_segments (S (length p)) p [].

(** The result is the string left in [out]; a write outside [out] is a [Fault]. *)
Definition normalizePath (cwd input : list Z) (out_size : nat) : outcome (list Z) :=
  let segs := path_segments (combine cwd input) in
  out0 ← emit out_size SLASH [];
  out1 ← emit_segments out_size segs out0;
  _ ← emit out_size 0 out1;
  mret out1.
