(* ===== verification/VfsProofs.v ===== *)
(** Proofs about the virtual file system of [Vfs]: path resolution,
    descriptors, offsets and path normalisation. *)

From Stdlib Require Import ZifyBool.
From S2P Require Import Prelude Vfs.

(** ** Strings *)

Lemma str_eqb_true a b : str_eqb a b = true <-> a = b.
Proof. apply bool_decide_eq_true. Qed.

Lemma startsWith_spec s p : startsWith s p = true <-> exists r, s = p ++ r.
Proof.
  unfold startsWith. rewrite str_eqb_true. split.
  - intros E. exists (drop (length p) s). by rewrite <- E at 1; rewrite take_drop.
  - intros [r ->]. apply take_app_length.
Qed.

Definition c_string (s : list Z) : Prop := Forall (fun c => c <> 0) s.

(** [path] is [mp] or lies below it. *)
Definition path_under (mp path : list Z) : Prop := path = mp \/ exists rest, path = mp ++ SLASH :: rest.

(** The part of [path] below [mp]. *)
Definition below (mp path : list Z) : list Z := skip_slash (drop (length mp) path).

Lemma char_at_app p r : char_at (p ++ r) (length p) = char_at r 0.
Proof. unfold char_at. rewrite lookup_app_r by lia. by rewrite Nat.sub_diag. Qed.

Lemma path_under_spec mp path : c_string path ->
  startsWith path mp && ((char_at path (length mp) =? 0) || (char_at path (length mp) =? SLASH)) = true <->
  path_under mp path.
Proof.
  intros Hc. rewrite andb_true_iff, startsWith_spec. split.
  - intros [[r ->] Hch]. rewrite char_at_app in Hch. destruct r as [|c r].
    + left. by rewrite app_nil_r.
    + right. exists r. apply Forall_app in Hc as [_ [Hc _]%Forall_cons_iff].
      unfold char_at, SLASH in *. simpl in Hch. assert (c = 47) as -> by lia. done.
  - intros [-> |[rest ->]].
    + split; [exists []; by rewrite app_nil_r|]. rewrite <- (app_nil_r mp) at 1 3. by rewrite !char_at_app.
    + split; [by eexists|]. rewrite !char_at_app. done.
Qed.

Lemma below_rest mp rest : below mp (mp ++ SLASH :: rest) = rest.
Proof. unfold below. by rewrite drop_app_length. Qed.

Lemma below_self mp : below mp mp = [].
Proof. unfold below. by rewrite drop_all. Qed.

Section resolve.
Context {W : Type}.
Implicit Types v : Vfs W.

Definition candidate (path : list Z) (m : Mount W) : Prop :=
  m_in_use m = true /\ mount_point m <> [] /\ path_under (mount_point m) path.

Lemma best_mount_spec path ms i best bl r n : c_string path ->
  best_mount path ms i best bl = (r, n) ->
  (bl <= n)%nat /\ (forall m, m ∈ ms -> candidate path m -> (length (mount_point m) <= n)%nat) /\
  ((r = best /\ n = bl) \/
   exists k m, r = Some (i + k)%nat /\ ms !! k = Some m /\ candidate path m /\ n = length (mount_point m)).
Proof.
  intros Hc. revert i best bl. induction ms as [|m ms IH]; intros i best bl E; cbn [best_mount] in E.
  - injection E as <- <-. split; [done|]. split; [by intros ? ?%not_elem_of_nil|]. by left.
  - destruct (_ && _ && _ && _) eqn:Hb.
    + apply andb_true_iff in Hb as [Hb Hlt]. rewrite <- andb_assoc in Hb. apply andb_true_iff in Hb as [Hu Hp].
      apply path_under_spec in Hp; [|done]. apply Nat.ltb_lt in Hlt.
      assert (Hcand : candidate path m).
      { split; [done|]. split; [|done]. intros E0. rewrite E0 in Hlt. simpl in Hlt. lia. }
      destruct (IH _ _ _ E) as (Hle & Hall & Hcase). split; [lia|]. split.
      * intros m' [-> |Hin]%elem_of_cons Hm'; [done | by apply Hall].
      * right. destruct Hcase as [[-> ->]|(k & m' & -> & Hk & Hm' & ->)].
        -- exists 0%nat, m. split_and!; try done. f_equal. lia.
        -- exists (S k), m'. split_and!; try done. f_equal. lia.
    + destruct (IH _ _ _ E) as (Hle & Hall & Hcase). split; [done|]. split.
      * intros m' [-> |Hin]%elem_of_cons Hm'; [|by apply Hall].
        destruct Hm' as (Hu & _ & Hp). apply path_under_spec in Hp; [|done].
        rewrite Hu, <- andb_assoc in Hb. cbn [andb] in Hb. rewrite andb_assoc, Hp in Hb. cbn [andb] in Hb.
        apply Nat.ltb_ge in Hb. lia.
      * destruct Hcase as [?|(k & m' & -> & Hk & Hm' & ->)]; [by left|]. right.
        exists (S k), m'. split_and!; try done. f_equal. lia.
Qed.

Lemma resolvePath_some path size v i sub : c_string path -> resolvePath path size v = Some (i, sub) ->
  exists m, g_mounts v !! i = Some m /\ candidate path m /\
    sub = take (size - 1) (below (mount_point m) path) /\
    forall m', m' ∈ g_mounts v -> candidate path m' -> (length (mount_point m') <= length (mount_point m))%nat.
Proof.
  intros Hc E. unfold resolvePath in E. destruct (best_mount path (g_mounts v) 0 None 0) as [[j|] n] eqn:Eb; [|done].
  injection E as <- <-. apply best_mount_spec in Eb as (_ & Hall & Hcase); [|done].
  destruct Hcase as [[? _]|(k & m & Ej & Hk & Hm & ->)]; [done|]. simpl in Ej. injection Ej as ->.
  by exists m.
Qed.

Lemma resolvePath_none path size v : c_string path ->
  resolvePath path size v = None <-> forall m, m ∈ g_mounts v -> ~ candidate path m.
Proof.
  intros Hc. unfold resolvePath.
  destruct (best_mount path (g_mounts v) 0 None 0) as [[j|] n] eqn:Eb.
  - apply best_mount_spec in Eb as (_ & _ & Hcase); [|done].
    destruct Hcase as [[? _]|(k & m & _ & Hk & Hm & _)]; [done|].
    split; [done|]. intros Hno. exfalso. apply (Hno m); [|done]. by eapply list_elem_of_lookup_2.
  - apply best_mount_spec in Eb as (_ & Hall & Hcase); [|done].
    destruct Hcase as [[_ ->]|(k & m & ? & _)]; [|done]. split; [|done].
    intros _ m Hin Hm. specialize (Hall m Hin Hm). destruct Hm as (_ & Hne & _).
    destruct (mount_point m); [done | simpl in Hall; lia].
Qed.
End resolve.

(** ** Slots *)

Lemma first_slot_some {A} (test : A -> bool) l i k : first_slot test l i = Some k ->
  exists x, (i <= k)%nat /\ l !! (k - i)%nat = Some x /\ test x = true /\
    forall j y, (j < k - i)%nat -> l !! j = Some y -> test y = false.
Proof.
  revert i. induction l as [|x l IH]; intros i; simpl; [done|]. destruct (test x) eqn:Ht.
  - intros [= <-]. exists x. rewrite Nat.sub_diag. split_and!; try done; lia.
  - intros E. destruct (IH _ E) as (y & Hle & Hy & Hty & Hall). exists y.
    replace (k - i)%nat with (S (k - S i)) by lia. split_and!; try done; [lia|].
    intros [|j] z Hj Hz; simpl in Hz; [by simplify_eq|]. apply (Hall j z); [lia | done].
Qed.

Lemma first_slot_none {A} (test : A -> bool) l i : first_slot test l i = None <-> forall x, x ∈ l -> test x = false.
Proof.
  revert i. induction l as [|x l IH]; intros i; simpl.
  - split; [by intros _ ? ?%not_elem_of_nil | done].
  - destruct (test x) eqn:Ht.
    + split; [done|]. intros Hall. specialize (Hall x ltac:(by left)). congruence.
    + rewrite IH. split; [intros Hall y [-> |Hy]%elem_of_cons; [done | by apply Hall]|].
      intros Hall y Hy. apply Hall. by right.
Qed.

(** ** Descriptors *)
Section files.
Context {W : Type}.
Implicit Types v : Vfs W.

Definition vfs_wf v : Prop := length (g_open_files v) = MAX_OPEN_FILES /\ length (g_mounts v) = MAX_MOUNTS.

Lemma get_file_put fd fd' f v : vfs_wf v -> 0 <= fd < 32 -> f_in_use f = true ->
  get_file fd' (put_file fd f v) = if fd' =? fd then Some f else get_file fd' v.
Proof.
  intros [Hl _] Hfd Hu. unfold get_file, put_file, MAX_OPEN_FILES in *.
  change (Z.of_nat 32) with 32. simpl.
  destruct (Z.eqb_spec fd' fd) as [->|Hne].
  - rewrite (proj2 (Z.ltb_ge fd 0)), (proj2 (Z.leb_gt 32 fd)) by lia. simpl.
    rewrite list_lookup_insert_eq by lia. by rewrite Hu.
  - destruct ((fd' <? 0) || (32 <=? fd')) eqn:Eb; [done|]. rewrite list_lookup_insert_ne by lia. done.
Qed.

Lemma get_file_put_closed fd fd' f v : vfs_wf v -> 0 <= fd < 32 -> f_in_use f = false ->
  get_file fd' (put_file fd f v) = if fd' =? fd then None else get_file fd' v.
Proof.
  intros [Hl _] Hfd Hu. unfold get_file, put_file, MAX_OPEN_FILES in *.
  change (Z.of_nat 32) with 32. simpl.
  destruct (Z.eqb_spec fd' fd) as [->|Hne].
  - rewrite (proj2 (Z.ltb_ge fd 0)), (proj2 (Z.leb_gt 32 fd)) by lia. simpl.
    rewrite list_lookup_insert_eq by lia. by rewrite Hu.
  - destruct ((fd' <? 0) || (32 <=? fd')) eqn:Eb; [done|]. rewrite list_lookup_insert_ne by lia. done.
Qed.

Lemma get_file_range fd v f : get_file fd v = Some f -> 0 <= fd < 32 /\ f_in_use f = true.
Proof.
  unfold get_file, MAX_OPEN_FILES. change (Z.of_nat 32) with 32. destruct (_ || _) eqn:Eb; [done|].
  destruct (g_open_files v !! Z.to_nat fd) as [g|]; [|done]. destruct (f_in_use g) eqn:Hu; [|done].
  intros [= <-]. split; [lia | done].
Qed.

Lemma get_file_world fd v w : get_file fd (with_world v w) = get_file fd v.
Proof. done. Qed.

Lemma open_ok path v mi sub m h w fd : vfs_wf v -> resolvePath path 128 v = Some (mi, sub) ->
  g_mounts v !! mi = Some m -> drv_open (driver m) (fs_instance m) sub (world v) = Ok (Some h, w) ->
  first_slot (fun f => negb (f_in_use f)) (g_open_files v) 0 = Some fd ->
  exists v', open path v = Ok (Z.of_nat fd, v') /\ vfs_wf v' /\ world v' = w /\ g_mounts v' = g_mounts v /\
    (forall j, (j < fd)%nat -> is_Some (get_file (Z.of_nat j) v)) /\ get_file (Z.of_nat fd) v = None /\
    forall fd', get_file fd' v' = if fd' =? Z.of_nat fd then Some (mkOpen true mi h 0) else get_file fd' v.
Proof.
  intros Hwf Hr Hm Hd Hs. pose proof (first_slot_some _ _ _ _ Hs) as (f & _ & Hf & Hfu & Hlow).
  rewrite Nat.sub_0_r in *. apply negb_true_iff in Hfu. pose proof Hwf as [Hl Hlm].
  pose proof (lookup_lt_Some _ _ _ Hf) as Hlt. unfold MAX_OPEN_FILES in Hl.
  exists (put_file (Z.of_nat fd) (mkOpen true mi h 0) (with_world v w)). split.
  { unfold open. rewrite Hr, Hs. unfold get_mount. rewrite Hm. cbn [mbind outcome_bind].
    rewrite Hd. cbn [mbind outcome_bind]. unfold put_file. by rewrite Nat2Z.id. }
  split; [split; [unfold put_file; simpl; by rewrite length_insert | done]|].
  split; [done|]. split; [done|]. split; [|split].
  - intros j Hj. unfold get_file, MAX_OPEN_FILES. change (Z.of_nat 32) with 32. rewrite Nat2Z.id.
    rewrite (proj2 (Z.ltb_ge (Z.of_nat j) 0)), (proj2 (Z.leb_gt 32 (Z.of_nat j))) by lia. simpl.
    destruct (lookup_lt_is_Some_2 (g_open_files v) j) as [g Hg]; [lia|]. rewrite Hg.
    specialize (Hlow j g Hj Hg). apply negb_false_iff in Hlow. rewrite Hlow. by eexists.
  - unfold get_file. rewrite Nat2Z.id, Hf, Hfu. by destruct (_ || _).
  - intros fd'. apply (get_file_put (Z.of_nat fd) fd' _ (with_world v w)); [done | lia | done].
Qed.

(** What a driver must do for sequential reads to make sense: reading returns
    a slice of the file and changes neither the file nor the handle. *)
Definition reads_slices (d : FilesystemDriver W) (inst : Z) (h : FileHandle) (w : W) (content : list Z) : Prop :=
  forall off count, 0 <= off < 2 ^ 63 -> 0 <= count < 2 ^ 63 ->
    let data := take (Z.to_nat count) (drop (Z.to_nat off) content) in
    drv_read d inst h off count w = Ok (Z.of_nat (length data), data, h, w).

Lemma read_ok fd count v f m content : vfs_wf v -> get_file fd v = Some f -> g_mounts v !! f_mount f = Some m ->
  reads_slices (driver m) (fs_instance m) (f_handle f) (world v) content ->
  0 <= f_offset f < 2 ^ 63 -> 0 <= count < 2 ^ 63 -> f_offset f + Z.of_nat (length content) < 2 ^ 64 ->
  let data := take (Z.to_nat count) (drop (Z.to_nat (f_offset f)) content) in
  exists v', read fd count v = Ok (Z.of_nat (length data), data, v') /\ vfs_wf v' /\ world v' = world v /\
    g_mounts v' = g_mounts v /\
    forall fd', get_file fd' v' =
      if fd' =? fd then Some (mkOpen true (f_mount f) (f_handle f) (f_offset f + Z.of_nat (length data)))
      else get_file fd' v.
Proof.
  intros Hwf Hf Hm Hd Ho Hc Hb data. destruct (get_file_range fd v f Hf) as [Hfd _].
  assert (Hdl : (length data <= length content)%nat).
  { subst data. rewrite length_take, length_drop. lia. }
  unfold read. rewrite Hf. unfold get_mount. rewrite Hm. cbn [mbind outcome_bind].
  rewrite (Hd (f_offset f) count Ho Hc). fold data. cbn [mbind outcome_bind].
  assert (Eoff : (if 0 <? Z.of_nat (length data) then u64 (f_offset f + Z.of_nat (length data)) else f_offset f) =
    f_offset f + Z.of_nat (length data)).
  { destruct (Z.ltb_spec 0 (Z.of_nat (length data))); [apply u64_small; lia | lia]. }
  rewrite Eoff. eexists. split; [reflexivity|]. split; [|split; [done|split; [done|]]].
  - destruct Hwf. split; [unfold put_file; simpl; by rewrite length_insert | done].
  - intros fd'. apply (get_file_put fd fd' _ (with_world v (world v))); [by destruct Hwf; split | done | done].
Qed.

Lemma write_ok fd buf v f m n h w : vfs_wf v -> get_file fd v = Some f -> g_mounts v !! f_mount f = Some m ->
  drv_write (driver m) (fs_instance m) (f_handle f) (f_offset f) buf (world v) = Ok (n, h, w) ->
  0 <= n -> 0 <= f_offset f -> f_offset f + n < 2 ^ 64 ->
  exists v', write fd buf v = Ok (n, v') /\ vfs_wf v' /\ world v' = w /\ g_mounts v' = g_mounts v /\
    forall fd', get_file fd' v' = if fd' =? fd then Some (mkOpen true (f_mount f) h (f_offset f + n)) else get_file fd' v.
Proof.
  intros Hwf Hf Hm Hd Hn Ho Hb. destruct (get_file_range fd v f Hf) as [Hfd _].
  unfold write. rewrite Hf. unfold get_mount. rewrite Hm. cbn [mbind outcome_bind]. rewrite Hd. cbn [mbind outcome_bind].
  assert (Eoff : (if 0 <? n then u64 (f_offset f + n) else f_offset f) = f_offset f + n).
  { destruct (Z.ltb_spec 0 n); [apply u64_small; lia | lia]. }
  rewrite Eoff. eexists. split; [reflexivity|]. split; [|split; [done|split; [done|]]].
  - destruct Hwf. split; [unfold put_file; simpl; by rewrite length_insert | done].
  - intros fd'. apply (get_file_put fd fd' _ (with_world v w)); [by destruct Hwf; split | done | done].
Qed.

Lemma seek_set_ok fd off v f : vfs_wf v -> get_file fd v = Some f -> 0 <= off < 2 ^ 63 ->
  exists v', seek fd off SeekSet v = (off, v') /\ vfs_wf v' /\ world v' = world v /\ g_mounts v' = g_mounts v /\
    forall fd', get_file fd' v' =
      if fd' =? fd then Some (mkOpen true (f_mount f) (f_handle f) off) else get_file fd' v.
Proof.
  intros Hwf Hf Ho. destruct (get_file_range fd v f Hf) as [Hfd _]. unfold seek. rewrite Hf.
  rewrite (proj2 (Z.ltb_ge off 0)), u64_small by lia. eexists. split; [reflexivity|].
  split; [destruct Hwf; split; [unfold put_file; simpl; by rewrite length_insert | done]|].
  split; [done|]. split; [done|]. intros fd'. by apply get_file_put.
Qed.

(** Two consecutive slices make one. *)
Lemma slices_app {A} (l : list A) o a b :
  let d := take a (drop o l) in d ++ take b (drop (o + length d) l) = take (a + b) (drop o l).
Proof.
  intros d. rewrite <- drop_drop. subst d. generalize (drop o l) as r. clear l. intros r.
  rewrite length_take. destruct (Nat.le_gt_cases a (length r)) as [Hle|Hgt].
  - rewrite Nat.min_l by done. by rewrite take_take_drop.
  - rewrite Nat.min_r by lia. rewrite drop_all, !take_ge by (simpl; lia). by rewrite app_nil_r.
Qed.

Lemma on_path_ok {A} path (dflt : A) op v mi sub m r w : resolvePath path 128 v = Some (mi, sub) -> g_mounts v !! mi = Some m ->
  op (driver m) (fs_instance m) sub (world v) = Ok (r, w) -> on_path path dflt op v = Ok (r, with_world v w).
Proof. intros Hr Hm E. unfold on_path, get_mount. rewrite Hr, Hm. cbn [mbind outcome_bind]. by rewrite E. Qed.

Lemma tell_ok fd v f : get_file fd v = Some f -> 0 <= f_offset f < 2 ^ 63 -> tell fd v = f_offset f.
Proof.
  intros Hf Ho. unfold tell, s64, sgn. rewrite Hf, Z.mod_small by lia. cbn beta.
  rewrite (proj2 (Z.ltb_lt _ _)) by lia. done.
Qed.
End files.

(** ** Normalisation *)

(** Components joined by slashes, and the absolute path they make. *)
Fixpoint join (segs : list (list Z)) : list Z :=
  match segs with
  | [] => []
  | [s] => s
  | s :: segs' => s ++ SLASH :: join segs'
  end.

Definition render (segs : list (list Z)) : list Z := SLASH :: join segs.

(** A path component: not empty, no slash, short enough to be stored. *)
Definition component (s : list Z) : Prop := s <> [] /\ Forall (fun c => c <> SLASH) s /\ (length s <= 63)%nat.

(** The meaning of [.] and [..]. *)
Definition resolve_step (acc : list (list Z)) (s : list Z) : list (list Z) :=
  if str_eqb s [DOT] then acc else
  if str_eqb s [DOT; DOT] then take (length acc - 1) acc else acc ++ [s].

Definition resolve_dots (segs : list (list Z)) : list (list Z) := fold_left resolve_step segs [].

Lemma until_slash_app s r : Forall (fun c => c <> SLASH) s -> until_slash (s ++ SLASH :: r) = s.
Proof.
  intros Hf. induction Hf as [|c s Hc Hf IH]; simpl; [done|].
  by rewrite (proj2 (Z.eqb_neq c SLASH)), IH.
Qed.

Lemma until_slash_id s : Forall (fun c => c <> SLASH) s -> until_slash s = s.
Proof.
  intros Hf. induction Hf as [|c s Hc Hf IH]; simpl; [done|].
  by rewrite (proj2 (Z.eqb_neq c SLASH)), IH.
Qed.

Lemma skip_slashes_component s r : component s -> skip_slashes (s ++ r) = s ++ r.
Proof.
  intros (Hne & Hf & _). destruct s as [|c s]; [done|]. apply Forall_cons_iff in Hf as [Hc _].
  simpl. by rewrite (proj2 (Z.eqb_neq c SLASH)).
Qed.

Lemma skip_slashes_join segs : Forall component segs -> skip_slashes (join segs) = join segs.
Proof.
  intros Hf. destruct segs as [|s [|s' segs]]; [done| |]; apply Forall_cons_iff in Hf as [Hs _]; simpl.
  - rewrite <- (app_nil_r s) at 1. rewrite skip_slashes_component by done. apply app_nil_r.
  - by rewrite skip_slashes_component.
Qed.

Lemma push_component s segs : component s -> (length segs < 32)%nat -> push_segment s segs = resolve_step segs s.
Proof.
  intros (Hne & _ & Hl) Hlen. unfold push_segment, resolve_step.
  destruct s as [|c s]; [done|]. cbn [length Nat.eqb].
  destruct (str_eqb (c :: s) [DOT]); [done|]. destruct (str_eqb (c :: s) [DOT; DOT]); [done|].
  rewrite (proj2 (Nat.ltb_lt _ _) Hlen). by rewrite take_ge.
Qed.

Lemma resolve_step_length acc s : (length (resolve_step acc s) <= S (length acc))%nat.
Proof.
  unfold resolve_step. destruct (str_eqb s [DOT]); [lia|]. destruct (str_eqb s _).
  - rewrite length_take. lia.
  - rewrite length_app. simpl. lia.
Qed.

Lemma join_cons s segs : segs <> [] -> join (s :: segs) = s ++ SLASH :: join segs.
Proof. by destruct segs. Qed.

Lemma scan_join segs acc fuel : Forall component segs -> (length segs + length acc <= 32)%nat ->
  (length segs < fuel)%nat -> scan_segments fuel (join segs) acc = fold_left resolve_step segs acc.
Proof.
  revert acc fuel. induction segs as [|s segs IH]; intros acc fuel Hf Hlen Hfuel;
    (destruct fuel as [|fuel]; [lia|]); [done|].
  apply Forall_cons_iff in Hf as [Hs Hf]. pose proof Hs as (Hne & Hns & _). simpl in Hlen, Hfuel.
  pose proof (resolve_step_length acc s) as Hrl.
  assert (Hstep : forall p rest, p = s ++ rest -> until_slash p = s ->
    skip_slashes rest = join segs ->
    scan_segments (S fuel) p acc = fold_left resolve_step segs (resolve_step acc s)).
  { intros p rest -> Hu Hr. cbn [scan_segments]. rewrite Hu, drop_app_length, Hr.
    destruct s as [|c s]; [done|]. cbn [app]. rewrite push_component by (done || lia).
    apply IH; [done | lia | lia]. }
  cbn [fold_left]. destruct segs as [|s' segs].
  - cbn [join]. apply (Hstep s []); [by rewrite app_nil_r | by apply until_slash_id | done].
  - rewrite join_cons by done. apply (Hstep _ (SLASH :: join (s' :: segs))); [done | by apply until_slash_app |].
    cbn [skip_slashes]. rewrite Z.eqb_refl. by apply skip_slashes_join.
Qed.

Lemma length_join segs : Forall component segs -> (length segs <= length (join segs))%nat.
Proof.
  intros Hf. induction Hf as [|s segs (Hne & _) Hf IH]; [done|].
  destruct s as [|c s]; [done|]. destruct segs as [|s' segs]; simpl in *; [lia|]. rewrite length_app. simpl in *. lia.
Qed.

Lemma path_segments_render segs : Forall component segs -> (length segs <= 32)%nat ->
  path_segments (render segs) = resolve_dots segs.
Proof.
  intros Hf Hl. unfold path_segments, render. cbn [skip_slashes]. rewrite Z.eqb_refl.
  rewrite skip_slashes_join by done. apply scan_join; [done | simpl; lia |].
  pose proof (length_join segs Hf). lia.
Qed.

(** Components that normalisation leaves alone. *)
Definition clean (s : list Z) : Prop := component s /\ s <> [DOT] /\ s <> [DOT; DOT].

Lemma resolve_dots_clean segs : Forall component segs -> Forall clean (resolve_dots segs).
Proof.
  unfold resolve_dots. assert (Hacc : Forall clean []) by constructor. revert Hacc.
  generalize (@nil (list Z)). induction segs as [|s segs IH]; intros acc Hacc Hf; simpl; [done|].
  apply Forall_cons_iff in Hf as [Hs Hf]. apply IH; [|done]. unfold resolve_step, str_eqb.
  case_bool_decide; [done|]. case_bool_decide; [by apply list.Forall_take|].
  apply Forall_app. split; [done|]. by constructor.
Qed.

Lemma resolve_dots_id segs : Forall clean segs -> resolve_dots segs = segs.
Proof.
  intros Hf. unfold resolve_dots. assert (Hgen : forall acc, fold_left resolve_step segs acc = acc ++ segs).
  { induction Hf as [|s segs (_ & H1 & H2) Hf IH]; intros acc; simpl; [by rewrite app_nil_r|].
    rewrite IH. unfold resolve_step, str_eqb. rewrite !bool_decide_eq_false_2 by done. by rewrite <- app_assoc. }
  apply Hgen.
Qed.

(** The characters of a list of components with a slash before each. *)
Fixpoint weight (segs : list (list Z)) : nat :=
  match segs with [] => 0 | s :: segs' => S (length s + weight segs') end.

Lemma weight_app a b : weight (a ++ b) = (weight a + weight b)%nat.
Proof. induction a as [|s a IH]; simpl; [done|]. rewrite IH. lia. Qed.

Lemma length_render segs : length (render segs) = Nat.max 1 (weight segs).
Proof.
  unfold render. enough (segs <> [] -> S (length (join segs)) = weight segs).
  { destruct segs as [|s segs]; [done|]. cbn [length]. rewrite H by done. simpl. lia. }
  induction segs as [|s segs IH]; [done|]. intros _. destruct segs as [|s' segs]; [simpl; lia|].
  rewrite join_cons, length_app by done. cbn [length]. rewrite IH by done. simpl. lia.
Qed.

Lemma weight_take k segs : (weight (take k segs) <= weight segs)%nat.
Proof. revert k. induction segs as [|s segs IH]; intros [|k]; simpl; try lia. specialize (IH k). lia. Qed.

Lemma weight_resolve acc segs : (weight (fold_left resolve_step segs acc) <= weight acc + weight segs)%nat.
Proof.
  revert acc. induction segs as [|s segs IH]; intros acc; simpl; [lia|]. etrans; [apply IH|].
  enough (weight (resolve_step acc s) <= weight acc + S (length s))%nat by lia.
  unfold resolve_step. destruct (str_eqb s [DOT]); [lia|]. destruct (str_eqb s _).
  - pose proof (weight_take (length acc - 1) acc). lia.
  - rewrite weight_app. simpl. lia.
Qed.

Lemma length_resolve acc segs : (length (fold_left resolve_step segs acc) <= length acc + length segs)%nat.
Proof.
  revert acc. induction segs as [|s segs IH]; intros acc; simpl; [lia|]. etrans; [apply IH|].
  pose proof (resolve_step_length acc s). lia.
Qed.

(** ** Output *)

Lemma emit_ok n c out : (length out < n)%nat -> emit n c out = Ok (out ++ [c]).
Proof. intros Hl. unfold emit. by rewrite (proj2 (Nat.ltb_lt _ _) Hl). Qed.

Lemma emit_segment_ok n seg out : (length out + length seg < n - 1)%nat -> emit_segment n seg out = Ok (out ++ seg).
Proof.
  revert out. induction seg as [|c seg IH]; intros out Hl; simpl in *; [by rewrite app_nil_r|].
  rewrite (proj2 (Nat.ltb_lt _ _)) by lia. rewrite emit_ok by lia. cbn [mbind outcome_bind].
  rewrite IH by (rewrite length_app; simpl; lia). by rewrite <- app_assoc.
Qed.

Lemma emit_segments_cons n s s' segs out :
  emit_segments n (s :: s' :: segs) out =
  (out1 ← emit_segment n s out; out2 ← emit n SLASH out1; emit_segments n (s' :: segs) out2).
Proof. done. Qed.

Lemma emit_segments_ok n segs out : (length out + length (join segs) < n - 1)%nat ->
  emit_segments n segs out = Ok (out ++ join segs).
Proof.
  revert out. induction segs as [|s segs IH]; intros out Hl; [simpl; by rewrite app_nil_r|].
  destruct segs as [|s' segs]; [by apply emit_segment_ok|].
  rewrite join_cons, length_app in Hl by done. simpl length in Hl. rewrite emit_segments_cons.
  rewrite emit_segment_ok by lia. cbn [mbind outcome_bind].
  rewrite emit_ok by (rewrite length_app; lia). cbn [mbind outcome_bind].
  rewrite IH by (rewrite !length_app; simpl; simpl in Hl; lia). rewrite (join_cons s) by done.
  by rewrite <- !app_assoc.
Qed.

Lemma normalize_of_segments cwd input n segs : path_segments (combine cwd input) = segs ->
  (length (render segs) < n - 1)%nat -> normalizePath cwd input n = Ok (render segs).
Proof.
  intros Es Hl. unfold normalizePath. rewrite Es. unfold render in *. simpl in Hl.
  rewrite emit_ok by (simpl; lia). cbn [mbind outcome_bind app].
  rewrite emit_segments_ok by (cbn [length]; lia). cbn [mbind outcome_bind].
  rewrite emit_ok by (rewrite length_app; cbn [length]; lia). done.
Qed.

Lemma combine_absolute cwd segs : (length (render segs) <= 255)%nat -> combine cwd (render segs) = render segs.
Proof.
  intros Hl. unfold combine, render in *. cbn [length] in Hl.
  change (drop 1 (SLASH :: join segs)) with (join segs). rewrite take_ge by lia. done.
Qed.

Lemma last_render segs : Forall component segs -> segs <> [] ->
  exists c, list.last (render segs) = Some c /\ c <> SLASH.
Proof.
  intros Hf Hne. unfold render.
  enough (exists c, list.last (join segs) = Some c /\ c <> SLASH) as (c & Hc & Hs).
  { exists c. split; [|done]. destruct (join segs) as [|x l]; [done|]. done. }
  induction Hf as [|s segs (Hsne & Hs & _) Hf IH]; [done|]. destruct segs as [|s' segs].
  - cbn [join]. destruct s as [|x s _] using rev_ind; [done|]. exists x. rewrite list.last_snoc. split; [done|].
    apply Forall_app in Hs as [_ [Hx _]%Forall_cons_iff]. done.
  - destruct IH as (c & Hc & Hn); [done|]. exists c. split; [|done]. rewrite join_cons by done.
    rewrite list.last_app, list.last_cons, Hc. done.
Qed.

Lemma char_at_last s c : list.last s = Some c -> (length s =? 0)%nat = false /\ char_at s (length s - 1) = c.
Proof.
  destruct s as [|x s _] using rev_ind; [done|]. rewrite list.last_snoc. intros [= ->].
  rewrite length_app. simpl. split; [apply Nat.eqb_neq; lia|]. unfold char_at.
  replace (length s + 1 - 1)%nat with (length s) by lia. by rewrite list_lookup_middle.
Qed.

Lemma render_app a b : a <> [] -> b <> [] -> render (a ++ b) = render a ++ SLASH :: join b.
Proof.
  intros Ha Hb. unfold render. cbn [app]. f_equal. induction a as [|s a IH]; [done|].
  destruct a as [|s' a]; [cbn [app]; by rewrite join_cons|].
  cbn [app] in *. rewrite (join_cons s (s' :: a ++ b)), (join_cons s (s' :: a)) by done.
  rewrite IH by done. by rewrite <- app_assoc.
Qed.

Lemma combine_relative cwd items : Forall component cwd -> Forall component items -> items <> [] ->
  (length (render (cwd ++ items)) <= 255)%nat -> combine (render cwd) (join items) = render (cwd ++ items).
Proof.
  intros Hc Hi Hne Hl. unfold combine.
  assert (Hch : (char_at (join items) 0 =? SLASH) = false).
  { apply Z.eqb_neq. destruct Hi as [|s items (Hsne & Hs & _) _]; [done|]. destruct s as [|x s]; [done|].
    apply Forall_cons_iff in Hs as [Hx _]. unfold char_at. by destruct items. }
  rewrite Hch. destruct (decide (cwd = [])) as [->|Hcne].
  - unfold render in *. cbn [app length] in *.
    change (take 254 (SLASH :: join [])) with [SLASH]. cbn [length Nat.eqb orb].
    change (char_at [SLASH] (1 - 1) =? SLASH) with true. cbn [negb app length].
    rewrite take_ge by lia. done.
  - rewrite render_app in Hl by done. rewrite length_app in Hl. cbn [length] in Hl.
    destruct (last_render cwd Hc Hcne) as (c & Hlast & Hcs). apply char_at_last in Hlast as [El Ec].
    assert (1 <= length (join items))%nat.
    { destruct items as [|[|x s] items]; [done| |destruct items; simpl; lia].
      apply Forall_cons_iff in Hi as [(? & _) _]. done. }
    rewrite (take_ge (render cwd)) by lia. rewrite El, Ec, (proj2 (Z.eqb_neq _ _) Hcs). cbn [orb negb].
    rewrite take_ge by (rewrite length_app; cbn [length]; lia).
    rewrite render_app, <- app_assoc by done. done.
Qed.

Lemma normalize_absolute cwd segs n : Forall component segs -> (length segs <= 32)%nat ->
  (length (render segs) <= n - 2)%nat -> (2 <= n <= 257)%nat ->
  normalizePath cwd (render segs) n = Ok (render (resolve_dots segs)).
Proof.
  intros Hf Hl Hr Hn. apply normalize_of_segments.
  - rewrite combine_absolute by lia. by apply path_segments_render.
  - rewrite length_render in *. pose proof (weight_resolve [] segs). unfold resolve_dots. simpl in *. lia.
Qed.

Lemma normalize_relative cwd items n : Forall component cwd -> Forall component items -> items <> [] ->
  (length (cwd ++ items) <= 32)%nat -> (length (render (cwd ++ items)) <= n - 2)%nat -> (2 <= n <= 257)%nat ->
  normalizePath (render cwd) (join items) n = Ok (render (resolve_dots (cwd ++ items))).
Proof.
  intros Hc Hi Hne Hl Hr Hn. apply normalize_of_segments.
  - rewrite combine_relative by (done || lia). apply path_segments_render; [|done]. by apply Forall_app.
  - rewrite length_render in *. pose proof (weight_resolve [] (cwd ++ items)).
    unfold resolve_dots. simpl in *. lia.
Qed.

(** ** Claims *)

(** C34. [resolvePath] finds the mount in use with the longest mount point the
    path lies under, component by component, and hands on the rest of the
    path; it finds none exactly when the path lies under no mount in use. *)
Theorem resolvePath_longest_prefix {W} path size (v : Vfs W) : c_string path ->
  match resolvePath path size v with
  | Some (i, sub) => exists m, g_mounts v !! i = Some m /\ candidate path m /\
      sub = take (size - 1) (below (mount_point m) path) /\
      forall m', m' ∈ g_mounts v -> candidate path m' ->
        (length (mount_point m') <= length (mount_point m))%nat
  | None => forall m, m ∈ g_mounts v -> ~ candidate path m
  end.
Proof.
  intros Hc. destruct (resolvePath path size v) as [[i sub]|] eqn:E.
  - by apply resolvePath_some.
  - by apply (resolvePath_none path size v Hc).
Qed.

(** C13. Opening a file, seeking and reading twice: the descriptor is the lowest
    free one, other descriptors are untouched, the two reads together return
    the slice of the file that starts at the offset sought, and [tell] is the
    offset after it. *)
Theorem open_seek_read_correct {W} path (v : Vfs W) mi sub m h w fd off c1 c2 content :
  vfs_wf v -> resolvePath path 128 v = Some (mi, sub) -> g_mounts v !! mi = Some m ->
  drv_open (driver m) (fs_instance m) sub (world v) = Ok (Some h, w) ->
  first_slot (fun f => negb (f_in_use f)) (g_open_files v) 0 = Some fd ->
  reads_slices (driver m) (fs_instance m) h w content ->
  0 <= off -> 0 <= c1 < 2 ^ 63 -> 0 <= c2 < 2 ^ 63 -> off + Z.of_nat (length content) < 2 ^ 63 ->
  exists v1 v2 v3 v4 d1 d2,
    open path v = Ok (Z.of_nat fd, v1) /\ get_file (Z.of_nat fd) v = None /\
    (forall j, (j < fd)%nat -> is_Some (get_file (Z.of_nat j) v)) /\
    seek (Z.of_nat fd) off SeekSet v1 = (off, v2) /\
    read (Z.of_nat fd) c1 v2 = Ok (Z.of_nat (length d1), d1, v3) /\
    read (Z.of_nat fd) c2 v3 = Ok (Z.of_nat (length d2), d2, v4) /\
    d1 ++ d2 = take (Z.to_nat (c1 + c2)) (drop (Z.to_nat off) content) /\
    tell (Z.of_nat fd) v4 = off + Z.of_nat (length (d1 ++ d2)) /\ world v4 = w /\
    forall fd', fd' <> Z.of_nat fd -> get_file fd' v4 = get_file fd' v.
Proof.
  intros Hwf Hr Hm Hd Hs Hsl Ho H1 H2 Hb.
  destruct (open_ok path v mi sub m h w fd Hwf Hr Hm Hd Hs) as (v1 & E1 & Hwf1 & <- & Em1 & Hlow & Hfree & Hg1).
  pose proof (Hg1 (Z.of_nat fd)) as Hf1. rewrite Z.eqb_refl in Hf1.
  destruct (seek_set_ok (Z.of_nat fd) off v1 _ Hwf1 Hf1) as (v2 & E2 & Hwf2 & Ew2 & Em2 & Hg2); [lia|].
  pose proof (Hg2 (Z.of_nat fd)) as Hf2. rewrite Z.eqb_refl in Hf2. rewrite <- Em1, <- Em2 in Hm. rewrite <- Ew2 in *.
  destruct (read_ok (Z.of_nat fd) c1 v2 _ m content Hwf2 Hf2) as (v3 & E3 & Hwf3 & Ew3 & Em3 & Hg3); try done; [simpl; lia | simpl; lia |].
  cbn [f_offset f_mount f_handle] in *. set (d1 := take (Z.to_nat c1) (drop (Z.to_nat off) content)) in *.
  assert (Hd1 : (length d1 <= length content - Z.to_nat off)%nat) by (subst d1; rewrite length_take, length_drop; lia).
  pose proof (Hg3 (Z.of_nat fd)) as Hf3. rewrite Z.eqb_refl in Hf3. rewrite <- Em3 in Hm. rewrite <- Ew3 in *.
  destruct (read_ok (Z.of_nat fd) c2 v3 _ m content Hwf3 Hf3) as (v4 & E4 & Hwf4 & Ew4 & Em4 & Hg4); try done; [simpl; lia | simpl; lia |].
  cbn [f_offset f_mount f_handle] in *.
  replace (Z.to_nat (off + Z.of_nat (length d1))) with (Z.to_nat off + length d1)%nat in * by lia.
  set (d2 := take (Z.to_nat c2) _) in *.
  exists v1, v2, v3, v4, d1, d2. split_and!; try done.
  - rewrite Z2Nat.inj_add by lia. apply slices_app.
  - pose proof (Hg4 (Z.of_nat fd)) as Hf4. rewrite Z.eqb_refl in Hf4. rewrite (tell_ok _ _ _ Hf4); simpl.
    + rewrite length_app. lia.
    + assert (length d2 <= length content - (Z.to_nat off + length d1))%nat by (subst d2; rewrite length_take, length_drop; lia).
      lia.
  - intros fd' Hne. by rewrite Hg4, Hg3, Hg2, Hg1, !(proj2 (Z.eqb_neq _ _) Hne).
Qed.

(** C35. [normalizePath] turns an absolute path, or a path relative to an
    absolute working directory, into the absolute path with every [.] and
    [..] resolved and single slashes; normalising the result again, from any
    working directory, gives it back. *)
Theorem normalizePath_correct cwd items n : Forall component cwd -> Forall component items -> items <> [] ->
  (length (cwd ++ items) <= 32)%nat -> (length (render (cwd ++ items)) <= n - 2)%nat -> (2 <= n <= 257)%nat ->
  let result := resolve_dots (cwd ++ items) in
  normalizePath (render cwd) (join items) n = Ok (render result) /\
  normalizePath (render cwd) (render (cwd ++ items)) n = Ok (render result) /\
  Forall clean result /\ forall cwd', normalizePath cwd' (render result) n = Ok (render result).
Proof.
  intros Hc Hi Hne Hl Hr Hn result. assert (Hci : Forall component (cwd ++ items)) by by apply Forall_app.
  pose proof (resolve_dots_clean _ Hci) as Hclean. fold result in Hclean.
  pose proof (weight_resolve [] (cwd ++ items)) as Hw. pose proof (length_resolve [] (cwd ++ items)) as Hlen.
  fold (resolve_dots (cwd ++ items)) in Hw, Hlen. fold result in Hw, Hlen. simpl in Hw, Hlen.
  split_and!; [by apply normalize_relative | by apply normalize_absolute | done |].
  intros cwd'. rewrite normalize_absolute; [by rewrite resolve_dots_id | | lia | | done].
  - by eapply Forall_impl; [|exact Hclean]; intros ? [? _].
  - rewrite length_render in *. lia.
Qed.

(** ** Witnesses *)

(** A driver for one file, which holds five bytes. *)
Definition toy_content : list Z := [10; 20; 30; 40; 50].
Definition toy_handle : FileHandle := mkHandle 1 5 false.
Definition toy_driver : FilesystemDriver unit :=
  mkDriver [116] (fun _ w => Ok (1, w)) (fun _ w => Ok w) (fun _ _ w => Ok (Some toy_handle, w))
    (fun _ _ w => Ok w)
    (fun _ h off count w =>
       let data := take (Z.to_nat count) (drop (Z.to_nat off) toy_content) in
       Ok (Z.of_nat (length data), data, h, w))
    (fun _ h _ _ w => Ok (-1, h, w)) (fun _ _ w => Ok (false, w)) (fun _ _ _ w => Ok (None, w))
    (fun _ _ _ w => Ok (false, w)) (fun _ _ w => Ok (false, w)) (fun _ _ w => Ok (false, w)).

(** ["/mnt"], and the same with the disk mounted there. *)
Definition toy_mount (in_use : bool) (mp : list Z) : Mount unit := mkMount in_use mp [97] 0 toy_driver 1.
Definition mnt : list Z := [SLASH; 109; 110; 116].
Definition toy_vfs : Vfs unit :=
  mkVfs [] (toy_mount true [SLASH; 109] :: toy_mount true mnt :: replicate 6 (toy_mount false []))
    (mkOpen true 1 toy_handle 3 :: replicate 31 (mkOpen false 0 toy_handle 0)) tt.
Definition toy_path : list Z := mnt ++ SLASH :: [102].

Lemma resolvePath_longest_prefix_witness :
  c_string toy_path /\
  exists m, g_mounts toy_vfs !! 1%nat = Some m /\ candidate toy_path m /\ [102] = take 127 (below (mount_point m) toy_path).
Proof.
  assert (Hc : c_string toy_path) by (repeat constructor; done).
  split; [exact Hc|].
  pose proof (resolvePath_longest_prefix toy_path 128 toy_vfs Hc) as (m & Hm & Hcand & Hsub & _).
  exists m. split_and!; [exact Hm | exact Hcand | exact Hsub].
Defined.

Lemma open_seek_read_correct_witness :
  exists v1 v2 v3 v4, open toy_path toy_vfs = Ok (1, v1) /\ seek 1 1 SeekSet v1 = (1, v2) /\
    read 1 2 v2 = Ok (2, [20; 30], v3) /\ read 1 10 v3 = Ok (2, [40; 50], v4).
Proof.
  destruct (open_seek_read_correct toy_path toy_vfs 1 [102] (toy_mount true mnt) toy_handle tt 1 1 2 10 toy_content)
    as (v1 & v2 & v3 & v4 & d1 & d2 & E1 & _ & _ & E2 & E3 & E4 & _);
    try reflexivity; try lia.
  - by split.
  - intros off count _ _. reflexivity.
  - vm_compute in E1. injection E1 as <-. vm_compute in E2. injection E2 as <-.
    vm_compute in E3. injection E3 as Hl1 Hd1 Hv3. subst d1 v3. vm_compute in E4. injection E4 as Hl2 Hd2 Hv4. subst d2 v4.
    eexists _, _, _, _. split_and!; reflexivity.
Defined.

Lemma normalizePath_correct_witness :
  normalizePath mnt (join [[DOT; DOT]; [97]; [DOT]; [98]]) 128 = Ok (render [[97]; [98]]).
Proof.
  pose proof (normalizePath_correct [[109; 110; 116]] [[DOT; DOT]; [97]; [DOT]; [98]] 128) as H.
  apply H; [| |done|simpl; lia|simpl; lia|lia]; repeat constructor; done.
Defined.

(** ** Limits *)

(** A mount point ["/"] serves no path below the root directory other than
    those that repeat the slash. *)
Theorem root_mount_unreachable {W} (m : Mount W) path : mount_point m = [SLASH] -> candidate path m ->
  path = [SLASH] \/ exists rest, path = SLASH :: SLASH :: rest.
Proof. intros E (_ & _ & Hu). unfold path_under in Hu. rewrite E in Hu. destruct Hu as [-> |[rest ->]]; eauto. Qed.

(** Two components that fill the buffer of 128 bytes and three more: the
    separators are written without the bounds check, one of them past the end. *)
Theorem normalizePath_overflow :
  normalizePath [SLASH] (join [repeat 97 63; repeat 98 63; [99]; [100]; [101]]) 128 = Fault.
Proof. vm_compute. reflexivity. Qed.

