(* ===== verification/Bytes.v ===== *)
(** Byte buffers and the packed, little-endian structures the kernel reads
    from disks and files.

    A buffer is the list of its bytes; an access outside it is a [Fault].  A
    packed structure is described by the widths of its fields. *)

From Stdlib Require Import ZifyBool.
From S2P Require Import Prelude.

Definition byte_ok (b : Z) : Prop := 0 <= b < 2 ^ 8.
Definition bytes_ok (l : list Z) : Prop := Forall byte_ok l.

(** [n] bytes of [buf] from [off] on. *)
Definition slice (buf : list Z) (off n : Z) : outcome (list Z) :=
  if (0 <=? off) && (0 <=? n) && (off + n <=? Z.of_nat (length buf))
  then Ok (take (Z.to_nat n) (drop (Z.to_nat off) buf)) else Fault.

(** [memcpy(buf + off, data, size of data)] *)
Definition splice (buf : list Z) (off : Z) (data : list Z) : outcome (list Z) :=
  if (0 <=? off) && (off + Z.of_nat (length data) <=? Z.of_nat (length buf))
  then Ok (take (Z.to_nat off) buf ++ data ++ drop (Z.to_nat off + length data) buf) else Fault.

(** A [w]-byte little-endian integer. *)
Definition le (w : Z) (v : Z) : list Z := Z_to_little_endian w 8 v.
Definition le_value (bs : list Z) : Z := little_endian_to_Z 8 bs.

Definition get_le (w : Z) (buf : list Z) (off : Z) : outcome Z := bs ← slice buf off w; mret (le_value bs).
Definition put_le (w : Z) (buf : list Z) (off v : Z) : outcome (list Z) := splice buf off (le w v).

(** The fields of a packed structure, [ws] the widths in bytes. *)
Fixpoint unpack (ws : list nat) (bs : list Z) : list Z :=
  match ws with
  | [] => []
  | w :: ws' => le_value (take w bs) :: unpack ws' (drop w bs)
  end.

Fixpoint pack (ws : list nat) (vs : list Z) : list Z :=
  match ws, vs with
  | w :: ws', v :: vs' => le (Z.of_nat w) v ++ pack ws' vs'
  | _, _ => []
  end.

(** Every field fits its width. *)
Definition fields_ok (ws : list nat) (vs : list Z) : Prop :=
  Forall2 (fun w v => 0 <= v < 2 ^ (8 * Z.of_nat w)) ws vs.

(** ** Lemmas *)

Lemma length_le w v : 0 <= w -> length (le w v) = Z.to_nat w.
Proof. intros Hw. pose proof (length_Z_to_little_endian w 8 v Hw). unfold le. lia. Qed.

Lemma le_value_le w v : 0 <= w -> 0 <= v < 2 ^ (8 * w) -> le_value (le w v) = v.
Proof.
  intros Hw Hv. unfold le_value, le. rewrite little_endian_to_Z_to_little_endian by lia.
  apply Z.mod_small. by rewrite (Z.mul_comm w 8).
Qed.

Lemma le_le_value w bs : bytes_ok bs -> w = Z.of_nat (length bs) -> le w (le_value bs) = bs.
Proof. intros Hb ->. apply Z_to_little_endian_to_Z; [done | lia | done]. Qed.

Lemma le_value_bound bs : bytes_ok bs -> 0 <= le_value bs < 2 ^ (8 * Z.of_nat (length bs)).
Proof. intros Hb. rewrite Z.mul_comm. apply little_endian_to_Z_bound; [lia | done]. Qed.

Lemma le_bytes_ok w v : 0 <= w -> bytes_ok (le w v).
Proof. intros. by apply Z_to_little_endian_bound. Qed.

Lemma unpack_pack ws vs rest : fields_ok ws vs -> unpack ws (pack ws vs ++ rest) = vs.
Proof.
  intros Hf. revert rest. induction Hf as [|w v ws vs Hv Hf IH]; intros rest; [done|]. cbn [unpack pack].
  assert (El : length (le (Z.of_nat w) v) = w) by (rewrite length_le; lia).
  rewrite <- app_assoc. rewrite <- El at 1 3. rewrite take_app_length, drop_app_length, IH.
  rewrite le_value_le by lia. done.
Qed.

Lemma length_pack ws vs : length ws = length vs -> length (pack ws vs) = sum_list ws.
Proof.
  revert vs. induction ws as [|w ws IH]; intros [|v vs] Hl; try done. simpl in *.
  rewrite length_app, length_le, IH by lia. lia.
Qed.

Lemma pack_unpack ws bs : bytes_ok bs -> length bs = sum_list ws -> pack ws (unpack ws bs) = bs.
Proof.
  revert bs. induction ws as [|w ws IH]; intros bs Hb Hl; simpl in *.
  - by destruct bs.
  - rewrite le_le_value.
    + rewrite IH; [apply take_drop | by apply Forall_drop | rewrite length_drop; lia].
    + by apply list.Forall_take.
    + rewrite length_take. lia.
Qed.

Lemma unpack_fields_ok ws bs : bytes_ok bs -> (sum_list ws <= length bs)%nat -> fields_ok ws (unpack ws bs).
Proof.
  revert bs. induction ws as [|w ws IH]; intros bs Hb Hl; simpl in *; constructor.
  - assert (E : length (take w bs) = w) by (rewrite length_take; lia).
    pose proof (le_value_bound (take w bs) ltac:(by apply list.Forall_take)) as Hv. by rewrite E in Hv.
  - apply IH; [by apply Forall_drop | rewrite length_drop; lia].
Qed.

Lemma pack_bytes_ok ws vs : bytes_ok (pack ws vs).
Proof.
  revert vs. induction ws as [|w ws IH]; intros [|v vs]; simpl; try constructor.
  apply Forall_app. split; [apply le_bytes_ok; lia | apply IH].
Qed.

Lemma slice_ok buf off n : 0 <= off -> 0 <= n -> off + n <= Z.of_nat (length buf) ->
  slice buf off n = Ok (take (Z.to_nat n) (drop (Z.to_nat off) buf)).
Proof. intros. unfold slice. case_if; [done | lia]. Qed.

Lemma slice_app a b c : slice (a ++ b ++ c) (Z.of_nat (length a)) (Z.of_nat (length b)) = Ok b.
Proof.
  rewrite slice_ok; [|lia|lia|rewrite !length_app; lia].
  rewrite !Nat2Z.id, drop_app_length, take_app_length. done.
Qed.

Lemma splice_app a b b' c : length b = length b' ->
  splice (a ++ b ++ c) (Z.of_nat (length a)) b' = Ok (a ++ b' ++ c).
Proof.
  intros E. unfold splice. rewrite !length_app, Nat2Z.id. case_if; [|lia].
  rewrite take_app_length, drop_app_add', <- E by done. by rewrite drop_app_length.
Qed.

Lemma splice_ok buf off data : 0 <= off -> off + Z.of_nat (length data) <= Z.of_nat (length buf) ->
  splice buf off data = Ok (take (Z.to_nat off) buf ++ data ++ drop (Z.to_nat off + length data) buf).
Proof. intros. unfold splice. case_if; [done | lia]. Qed.

(** What a splice leaves alone, and what it puts in place. *)
Lemma splice_inv buf off data buf' : splice buf off data = Ok buf' ->
  0 <= off /\ off + Z.of_nat (length data) <= Z.of_nat (length buf) /\
  buf' = take (Z.to_nat off) buf ++ data ++ drop (Z.to_nat off + length data) buf.
Proof. unfold splice. case_if; [|done]. intros [= <-]. split_and!; [lia | lia | done]. Qed.

Lemma splice_length buf off data buf' : splice buf off data = Ok buf' -> length buf' = length buf.
Proof. intros (? & ? & ->)%splice_inv. rewrite !length_app, length_take, length_drop. lia. Qed.

Lemma splice_bytes_ok buf off data buf' : bytes_ok buf -> bytes_ok data -> splice buf off data = Ok buf' -> bytes_ok buf'.
Proof.
  intros Hb Hd (_ & _ & ->)%splice_inv. apply Forall_app. split; [by apply list.Forall_take|].
  apply Forall_app. split; [done | by apply Forall_drop].
Qed.

Lemma splice_self buf off data buf' : splice buf off data = Ok buf' ->
  take (length data) (drop (Z.to_nat off) buf') = data.
Proof.
  intros (? & ? & ->)%splice_inv. rewrite drop_app_length' by (rewrite length_take; lia).
  apply take_app_length.
Qed.

Lemma splice_other buf off data buf' o k : splice buf off data = Ok buf' -> 0 <= o -> 0 <= k ->
  o + k <= off \/ off + Z.of_nat (length data) <= o ->
  take (Z.to_nat k) (drop (Z.to_nat o) buf') = take (Z.to_nat k) (drop (Z.to_nat o) buf).
Proof.
  intros (? & ? & ->)%splice_inv Ho Hk [Hle|Hge].
  - rewrite !take_drop_commute. rewrite take_app_le by (rewrite length_take; lia).
    by rewrite take_take, Nat.min_l by lia.
  - rewrite drop_app_ge by (rewrite length_take; lia). rewrite length_take.
    rewrite drop_app_ge by lia. rewrite drop_drop. f_equal. f_equal. lia.
Qed.

(** [fields_ok] and [bytes_ok] by evaluation. *)
Fixpoint fields_okb (ws : list nat) (vs : list Z) : bool :=
  match ws, vs with
  | [], [] => true
  | w :: ws', v :: vs' => (0 <=? v) && (v <? 2 ^ (8 * Z.of_nat w)) && fields_okb ws' vs'
  | _, _ => false
  end.

Lemma fields_okb_ok ws vs : fields_okb ws vs = true -> fields_ok ws vs.
Proof.
  revert vs. induction ws as [|w ws IH]; intros [|v vs] E; cbn [fields_okb] in E; try done; [constructor|].
  bool_to_prop. constructor; [lia | by apply IH].
Qed.

Lemma bytes_okb_ok bs : forallb (fun b => (0 <=? b) && (b <? 256)) bs = true -> bytes_ok bs.
Proof.
  intros E. apply Forall_forall. intros b Hb. pose proof (proj1 (forallb_forall _ _) E b Hb) as Hr. cbn beta in Hr.
  unfold byte_ok. change (2 ^ 8) with 256. lia.
Qed.
