(* ===== verification/Ext2Layout.v ===== *)
(** The on-disk structures of ext2, [src/src/fs/ext2/ext2.cpp] lines 22-108:
    superblock, group descriptor, inode and directory entry header, each a
    record with the fields of the packed C++ structure, and their encoding. *)

From Stdlib Require Import ZifyBool.
From S2P Require Import Prelude Bytes.

Definition EXT2_MAGIC : Z := 0xEF53.
Definition ROOT_INODE : Z := 2.
Definition S_IFDIR : Z := 0x4000.
Definition S_IFREG : Z := 0x8000.
Definition S_IFMT : Z := 0xF000.
Definition FT_UNKNOWN : Z := 0.
Definition FT_REG_FILE : Z := 1.
Definition FT_DIR : Z := 2.

Record Superblock := mkSb {
  inodes_count : Z; blocks_count : Z; r_blocks_count : Z; sb_free_blocks : Z; sb_free_inodes : Z;
  first_data_block : Z; log_block_size : Z; log_frag_size : Z; block_per_group : Z; frags_per_group : Z;
  inodes_per_group : Z; sb_mtime : Z; sb_wtime : Z;
  mnt_count : Z; max_mnt_count : Z; magic : Z; state : Z; errors : Z; minor_rev_level : Z;
  lastcheck : Z; checkinterval : Z; creator_os : Z; rev_level : Z;
  def_resuid : Z; def_resgid : Z;
  first_ino : Z; sb_inode_size : Z; block_group_nr : Z;
  feature_compact : Z; feature_incompact : Z; feature_ro_compact : Z;
  sb_tail : list Z (* uuid, volume_name, last_mounted, algo_bitmap, reserved *)
}.

Definition sb_widths : list nat := replicate 13 4%nat ++ replicate 6 2%nat ++ replicate 4 4%nat ++
  [2; 2; 4; 2; 2; 4; 4; 4]%nat.

Definition decode_sb (bs : list Z) : outcome Superblock :=
  match unpack sb_widths bs with
  | [a1; a2; a3; a4; a5; a6; a7; a8; a9; a10; a11; a12; a13; b1; b2; b3; b4; b5; b6;
     c1; c2; c3; c4; d1; d2; e1; e2; e3; f1; f2; f3] =>
      Ok (mkSb a1 a2 a3 a4 a5 a6 a7 a8 a9 a10 a11 a12 a13 b1 b2 b3 b4 b5 b6
        c1 c2 c3 c4 d1 d2 e1 e2 e3 f1 f2 f3 (drop 104 bs))
  | _ => Fault
  end.

Definition sb_fields (s : Superblock) : list Z :=
  [inodes_count s; blocks_count s; r_blocks_count s; sb_free_blocks s; sb_free_inodes s;
   first_data_block s; log_block_size s; log_frag_size s; block_per_group s; frags_per_group s;
   inodes_per_group s; sb_mtime s; sb_wtime s;
   mnt_count s; max_mnt_count s; magic s; state s; errors s; minor_rev_level s;
   lastcheck s; checkinterval s; creator_os s; rev_level s; def_resuid s; def_resgid s;
   first_ino s; sb_inode_size s; block_group_nr s;
   feature_compact s; feature_incompact s; feature_ro_compact s].

Definition encode_sb (s : Superblock) : list Z := pack sb_widths (sb_fields s) ++ sb_tail s.

Record GroupDesc := mkGroup {
  block_bitmap : Z; inode_bitmap : Z; inode_table : Z;
  free_blocks_count : Z; free_inodes_count : Z; used_dirs_count : Z; g_pad : Z;
  g_reserved : list Z
}.

Definition group_widths : list nat := [4; 4; 4; 2; 2; 2; 2]%nat.

Definition decode_group (bs : list Z) : outcome GroupDesc :=
  match unpack group_widths bs with
  | [a; b; c; d; e; f; g] => Ok (mkGroup a b c d e f g (drop 20 bs))
  | _ => Fault
  end.

Definition group_fields (g : GroupDesc) : list Z :=
  [block_bitmap g; inode_bitmap g; inode_table g; free_blocks_count g; free_inodes_count g;
   used_dirs_count g; g_pad g].

Definition encode_group (g : GroupDesc) : list Z := pack group_widths (group_fields g) ++ g_reserved g.

Record Inode := mkInode {
  mode : Z; uid : Z; size : Z; atime : Z; ctime : Z; mtime : Z; dtime : Z; gid : Z; links_count : Z;
  blocks : Z; flags : Z; osd1 : Z;
  block : list Z; (* the 15 block pointers *)
  generation : Z; file_acl : Z; dir_acl : Z; faddr : Z;
  osd2 : list Z
}.

Definition inode_widths : list nat := [2; 2; 4; 4; 4; 4; 4; 2; 2; 4; 4; 4]%nat.
Definition inode_tail_widths : list nat := [4; 4; 4; 4]%nat.

Definition decode_inode (bs : list Z) : outcome Inode :=
  let blk := unpack (replicate 15 4%nat) (drop 40 bs) in
  match unpack inode_widths bs, unpack inode_tail_widths (drop 100 bs) with
  | [a1; a2; a3; a4; a5; a6; a7; a8; a9; a10; a11; a12], [g; f; d; a] =>
      Ok (mkInode a1 a2 a3 a4 a5 a6 a7 a8 a9 a10 a11 a12 blk g f d a (drop 116 bs))
  | _, _ => Fault
  end.

Definition inode_head (i : Inode) : list Z :=
  [mode i; uid i; size i; atime i; ctime i; mtime i; dtime i; gid i; links_count i; blocks i; flags i; osd1 i].
Definition inode_tail (i : Inode) : list Z := [generation i; file_acl i; dir_acl i; faddr i].

Definition encode_inode (i : Inode) : list Z :=
  pack inode_widths (inode_head i) ++ pack (replicate 15 4%nat) (block i) ++
  pack inode_tail_widths (inode_tail i) ++ osd2 i.

Record DirEntryOnDisk := mkDirEnt { inode : Z; rec_len : Z; name_len : Z; file_type : Z }.

Definition dirent_widths : list nat := [4; 2; 1; 1]%nat.

Definition decode_dirent (bs : list Z) : outcome DirEntryOnDisk :=
  match unpack dirent_widths bs with
  | [i; r; n; t] => Ok (mkDirEnt i r n t)
  | _ => Fault
  end.

Definition encode_dirent (e : DirEntryOnDisk) : list Z :=
  pack dirent_widths [inode e; rec_len e; name_len e; file_type e].

(** ** The structures at their width *)

Definition sb_ok (s : Superblock) : Prop :=
  fields_ok sb_widths (sb_fields s) /\ length (sb_tail s) = 920%nat /\ bytes_ok (sb_tail s).

Definition group_ok (g : GroupDesc) : Prop :=
  fields_ok group_widths (group_fields g) /\ length (g_reserved g) = 12%nat /\ bytes_ok (g_reserved g).

Definition inode_ok (i : Inode) : Prop :=
  fields_ok inode_widths (inode_head i) /\ fields_ok (replicate 15 4%nat) (block i) /\
  fields_ok inode_tail_widths (inode_tail i) /\ length (osd2 i) = 12%nat /\ bytes_ok (osd2 i).

Definition dirent_ok (e : DirEntryOnDisk) : Prop :=
  fields_ok dirent_widths [inode e; rec_len e; name_len e; file_type e].

(** ** Round trips *)

Lemma length_encode_sb s : length (sb_tail s) = 920%nat -> length (encode_sb s) = 1024%nat.
Proof. intros Hl. unfold encode_sb. rewrite length_app, length_pack, Hl by done. done. Qed.

Lemma length_encode_group g : length (g_reserved g) = 12%nat -> length (encode_group g) = 32%nat.
Proof. intros Hl. unfold encode_group. rewrite length_app, length_pack, Hl by done. done. Qed.

Lemma length_encode_inode i : length (block i) = 15%nat -> length (osd2 i) = 12%nat ->
  length (encode_inode i) = 128%nat.
Proof. intros Hb Hl. unfold encode_inode. rewrite !length_app, !length_pack, Hl by done. done. Qed.

Lemma length_encode_dirent e : length (encode_dirent e) = 8%nat.
Proof. unfold encode_dirent. by rewrite length_pack. Qed.

Lemma drop_pack ws vs rest n : length ws = length vs -> n = sum_list ws -> drop n (pack ws vs ++ rest) = rest.
Proof. intros Hl ->. apply drop_app_length'. by rewrite length_pack. Qed.

Lemma decode_encode_sb s : sb_ok s -> decode_sb (encode_sb s) = Ok s.
Proof.
  intros (Hf & _). unfold decode_sb, encode_sb. rewrite unpack_pack, drop_pack by done. by destruct s.
Qed.

Lemma decode_encode_group g : group_ok g -> decode_group (encode_group g) = Ok g.
Proof.
  intros (Hf & _). unfold decode_group, encode_group. rewrite unpack_pack, drop_pack by done. by destruct g.
Qed.

Lemma decode_encode_inode i : inode_ok i -> decode_inode (encode_inode i) = Ok i.
Proof.
  intros (Hh & Hb & Ht & _). assert (length (block i) = 15%nat) by by apply Forall2_length in Hb.
  assert (E1 : drop 40 (encode_inode i) = pack (replicate 15 4%nat) (block i) ++
    pack inode_tail_widths (inode_tail i) ++ osd2 i) by by apply drop_pack.
  assert (E2 : drop 100 (encode_inode i) = pack inode_tail_widths (inode_tail i) ++ osd2 i).
  { change 100%nat with (40 + 60)%nat. rewrite <- drop_drop, E1. by apply drop_pack. }
  assert (E3 : drop 116 (encode_inode i) = osd2 i).
  { change 116%nat with (100 + 16)%nat. rewrite <- drop_drop, E2. by apply drop_pack. }
  unfold decode_inode. rewrite E1, E2, E3. unfold encode_inode. rewrite !unpack_pack by done. by destruct i.
Qed.

Lemma decode_encode_dirent e rest : dirent_ok e -> decode_dirent (encode_dirent e ++ rest) = Ok e.
Proof. intros Hf. unfold decode_dirent, encode_dirent. rewrite unpack_pack by done. by destruct e. Qed.

(** Every 8 bytes are a directory entry header. *)
Lemma decode_dirent_bytes bs : bytes_ok bs -> length bs = 8%nat ->
  exists e, decode_dirent bs = Ok e /\ dirent_ok e /\ encode_dirent e = bs.
Proof.
  intros Hb Hl. pose proof (unpack_fields_ok dirent_widths bs Hb) as Hf.
  pose proof (pack_unpack dirent_widths bs Hb Hl) as Hp. unfold decode_dirent.
  set (u := unpack dirent_widths bs) in *. cbn [unpack dirent_widths] in u. subst u.
  eexists. split; [reflexivity|]. split; [apply Hf; by rewrite Hl | exact Hp].
Qed.
