(* ===== verification/Ext2.v ===== *)
(** The ext2 driver, [src/src/fs/ext2/ext2.cpp].

    A mounted file system is the record [FsInstance]: the superblock and the
    group descriptors the driver caches, the geometry, and the disk [D] the
    block device reads and writes.  The disk is reached only through the two
    function pointers of [VFS::BlockDevice], the class [BlockDev]; either may
    report failure.  [Heap::kmalloc] may fail too: [heap] lists the answers of
    the next calls (no answer left means success), and the bytes of a fresh
    buffer are whatever [Uninit] says.  A buffer is freed before the function
    that allocated it returns, so [Heap::kfree] leaves nothing to model.

    Operations are in the state monad [FS]; a C++ [bool] is a [bool], a
    pointer that may be null is an [option]. *)

From Stdlib Require Import ZifyBool.
From S2P Require Import Prelude Bytes Ext2Layout.

(** [VFS::BlockDevice::read] and [write]: sectors [lba] to [lba + count - 1];
    [None] and [false] are failures. *)
Class BlockDev (D : Type) := {
  dev_read : Z -> Z -> D -> option (list Z);
  dev_write : Z -> Z -> list Z -> D -> bool * D;
}.

(** The bytes of memory that was not written yet. *)
Class Uninit := junk : nat -> list Z.

Record FsInstance (D : Type) := mkFs {
  dev : D;
  sector_size : Z;
  sb : Superblock;
  groups : list GroupDesc;
  group_count : Z;
  block_size : Z;
  heap : list bool;
}.
Arguments mkFs {D}.
Arguments dev {D}.
Arguments sector_size {D}.
Arguments sb {D}.
Arguments groups {D}.
Arguments group_count {D}.
Arguments block_size {D}.
Arguments heap {D}.

(** The inode number and inode an open file keeps. *)
Record PrivateData := mkPriv { p_inode_num : Z; p_inode : Inode }.

(** ** The monad *)

Definition FS (D A : Type) : Type := FsInstance D -> outcome (A * FsInstance D).

#[export] Instance FS_ret {D} : MRet (FS D) := fun A a fs => Ok (a, fs).
#[export] Instance FS_bind {D} : MBind (FS D) := fun A B k m fs =>
  match m fs with Ok (a, fs') => k a fs' | Fault => Fault | Halt => Halt end.

Definition lift {D A} (o : outcome A) : FS D A := fun fs =>
  match o with Ok a => Ok (a, fs) | Fault => Fault | Halt => Halt end.
Definition get {D} : FS D (FsInstance D) := fun fs => Ok (fs, fs).
Definition put {D} (fs : FsInstance D) : FS D unit := fun _ => Ok (tt, fs).

(** Division traps on zero. *)
Definition udiv (a b : Z) : outcome Z := if b =? 0 then Fault else Ok (a / b).
Definition umod (a b : Z) : outcome Z := if b =? 0 then Fault else Ok (a mod b).

(** ** Structure updates *)

Definition with_dev {D} (fs : FsInstance D) (d : D) : FsInstance D :=
  mkFs d (sector_size fs) (sb fs) (groups fs) (group_count fs) (block_size fs) (heap fs).
Definition with_heap {D} (fs : FsInstance D) (h : list bool) : FsInstance D :=
  mkFs (dev fs) (sector_size fs) (sb fs) (groups fs) (group_count fs) (block_size fs) h.
Definition with_sb {D} (fs : FsInstance D) (s : Superblock) : FsInstance D :=
  mkFs (dev fs) (sector_size fs) s (groups fs) (group_count fs) (block_size fs) (heap fs).
Definition with_groups {D} (fs : FsInstance D) (gs : list GroupDesc) : FsInstance D :=
  mkFs (dev fs) (sector_size fs) (sb fs) gs (group_count fs) (block_size fs) (heap fs).

Definition sb_with_free (s : Superblock) (fb fi : Z) : Superblock :=
  mkSb (inodes_count s) (blocks_count s) (r_blocks_count s) fb fi
    (first_data_block s) (log_block_size s) (log_frag_size s) (block_per_group s) (frags_per_group s)
    (inodes_per_group s) (sb_mtime s) (sb_wtime s) (mnt_count s) (max_mnt_count s) (magic s) (state s) (errors s)
    (minor_rev_level s) (lastcheck s) (checkinterval s) (creator_os s) (rev_level s) (def_resuid s) (def_resgid s)
    (first_ino s) (sb_inode_size s) (block_group_nr s) (feature_compact s) (feature_incompact s)
    (feature_ro_compact s) (sb_tail s).

Definition sb_with_rev0 (s : Superblock) : Superblock :=
  mkSb (inodes_count s) (blocks_count s) (r_blocks_count s) (sb_free_blocks s) (sb_free_inodes s)
    (first_data_block s) (log_block_size s) (log_frag_size s) (block_per_group s) (frags_per_group s)
    (inodes_per_group s) (sb_mtime s) (sb_wtime s) (mnt_count s) (max_mnt_count s) (magic s) (state s) (errors s)
    (minor_rev_level s) (lastcheck s) (checkinterval s) (creator_os s) (rev_level s) (def_resuid s) (def_resgid s)
    11 128 (block_group_nr s) (feature_compact s) (feature_incompact s)
    (feature_ro_compact s) (sb_tail s).

Definition group_with_free (g : GroupDesc) (fb fi : Z) : GroupDesc :=
  mkGroup (block_bitmap g) (inode_bitmap g) (inode_table g) fb fi (used_dirs_count g) (g_pad g) (g_reserved g).

Definition inode_with (i : Inode) (sz lc nblk : Z) (blk : list Z) : Inode :=
  mkInode (mode i) (uid i) sz (atime i) (ctime i) (mtime i) (dtime i) (gid i) lc nblk (flags i) (osd1 i)
    blk (generation i) (file_acl i) (dir_acl i) (faddr i) (osd2 i).
Definition set_size (i : Inode) (sz : Z) : Inode := inode_with i sz (links_count i) (blocks i) (block i).
Definition set_links (i : Inode) (lc : Z) : Inode := inode_with i (size i) lc (blocks i) (block i).
Definition set_blocks (i : Inode) (nblk : Z) (blk : list Z) : Inode := inode_with i (size i) (links_count i) nblk blk.
Definition set_dtime (i : Inode) (t : Z) : Inode :=
  mkInode (mode i) (uid i) (size i) (atime i) (ctime i) (mtime i) t (gid i) (links_count i) (blocks i) (flags i)
    (osd1 i) (block i) (generation i) (file_acl i) (dir_acl i) (faddr i) (osd2 i).

Definition is_dir (i : Inode) : bool := (mode i .& S_IFMT) =? S_IFDIR.

Section ext2.
Context {D : Type} `{BlockDev D} `{Uninit}.

(** [Heap::kmalloc(n)]: a buffer with arbitrary contents, or null. *)
Definition kmalloc (n : Z) : FS D (option (list Z)) := fun fs =>
  match heap fs with
  | [] => Ok (Some (junk (Z.to_nat n)), fs)
  | ok :: h => Ok (if ok then Some (junk (Z.to_nat n)) else None, with_heap fs h)
  end.

(** ** Blocks *)

(** Into [buf + at], which must have room for what the device returns. *)
Definition readBlock_at (block_num : Z) (buf : list Z) (at_ : Z) : FS D (option (list Z)) :=
  fs ← get;
  sectors_per_block ← lift (udiv (block_size fs) (sector_size fs));
  match dev_read (u64 (block_num * sectors_per_block)) sectors_per_block (dev fs) with
  | Some data => buf' ← lift (splice buf at_ data); mret (Some buf')
  | None => mret None
  end.

Definition readBlock (block_num : Z) (buf : list Z) : FS D (option (list Z)) := readBlock_at block_num buf 0.

Definition writeBlock (block_num : Z) (buf : list Z) : FS D bool :=
  fs ← get;
  sectors_per_block ← lift (udiv (block_size fs) (sector_size fs));
  data ← lift (slice buf 0 (sectors_per_block * sector_size fs));
  let '(ok, d) := dev_write (u64 (block_num * sectors_per_block)) sectors_per_block data (dev fs) in
  _ ← put (with_dev fs d);
  mret ok.

Definition writeSuperblock : FS D bool :=
  fs ← get;
  count ← lift (udiv 1024 (sector_size fs));
  data ← lift (slice (encode_sb (sb fs)) 0 (count * sector_size fs));
  let '(ok, d) := dev_write 2 count data (dev fs) in
  _ ← put (with_dev fs d);
  mret ok.

(** [for (i = i0; i < i0 + n && ok; ++i)] of [writeGroupDescriptors]. *)
Fixpoint write_bgdt (n : nat) (bgdt_block i : Z) (buf : list Z) : FS D bool :=
  match n with
  | O => mret true
  | S n' =>
      fs ← get;
      data ← lift (slice buf (u32 (i * block_size fs)) (block_size fs));
      ok ← writeBlock (u32 (bgdt_block + i)) data;
      if ok : bool then write_bgdt n' bgdt_block (i + 1) buf else mret false
  end.

Definition writeGroupDescriptors : FS D bool :=
  fs ← get;
  let bgdt_block := u32 (first_data_block (sb fs) + 1) in
  let bgdt_bytes := u32 (32 * group_count fs) in
  bgdt_blocks_needed ← lift (udiv (u32 (bgdt_bytes + block_size fs - 1)) (block_size fs));
  let total := u32 (bgdt_blocks_needed * block_size fs) in
  buf ← kmalloc total;
  match buf with
  | None => mret false
  | Some _ =>
      buf ← lift (splice (replicate (Z.to_nat total) 0) 0 (take (Z.to_nat bgdt_bytes) (concat (encode_group <$> groups fs))));
      write_bgdt (Z.to_nat bgdt_blocks_needed) bgdt_block 0 buf
  end.

(** ** Inodes *)

Definition inode_size_of (s : Superblock) : Z := if sb_inode_size s =? 0 then 128 else sb_inode_size s.

(** Group and index of an inode, and where the inode table has it: [None]
    when the group does not exist. *)
Definition inode_group (inode_num : Z) : FS D (option (Z * Z)) :=
  fs ← get;
  group ← lift (udiv (u32 (inode_num - 1)) (inodes_per_group (sb fs)));
  index ← lift (umod (u32 (inode_num - 1)) (inodes_per_group (sb fs)));
  mret (if group_count fs <=? group then None else Some (group, index)).

Definition inode_location (group index : Z) : FS D (Z * Z) :=
  fs ← get;
  let byte_offset_in_table := u32 (index * inode_size_of (sb fs)) in
  block_offset ← lift (udiv byte_offset_in_table (block_size fs));
  offset_in_block ← lift (umod byte_offset_in_table (block_size fs));
  g ← lift (load (groups fs) group);
  mret (u32 (inode_table g + block_offset), offset_in_block).

(** [out_inode] is what the caller's variable held before. *)
Definition readInode (inode_num : Z) (out_inode : list Z) : FS D (option Inode) :=
  if inode_num =? 0 then mret None else
  gi ← inode_group inode_num;
  match gi with
  | None => mret None
  | Some (group, index) =>
      '(block_num, offset_in_block) ← inode_location group index;
      fs ← get;
      buf ← kmalloc (block_size fs);
      match buf with
      | None => mret None
      | Some buf =>
          r ← readBlock block_num buf;
          match r with
          | None => mret None
          | Some buf =>
              let n := Z.min 128 (inode_size_of (sb fs)) in
              bs ← lift (slice buf offset_in_block n);
              i ← lift (decode_inode (bs ++ drop (Z.to_nat n) out_inode));
              mret (Some i)
          end
      end
  end.

(** An uninitialised [Inode] variable. *)
Definition stack_inode : list Z := junk 128.

Definition writeInode (inode_num : Z) (i : Inode) : FS D bool :=
  if inode_num =? 0 then mret false else
  gi ← inode_group inode_num;
  match gi with
  | None => mret false
  | Some (group, index) =>
      '(block_num, offset_in_block) ← inode_location group index;
      fs ← get;
      buf ← kmalloc (block_size fs);
      match buf with
      | None => mret false
      | Some buf =>
          r ← readBlock block_num buf;
          match r with
          | None => mret false
          | Some buf =>
              buf ← lift (splice buf offset_in_block (encode_inode i));
              writeBlock block_num buf
          end
      end
  end.

(** ** Bitmaps *)

Definition clear_bit (bitmap : list Z) (i : Z) : outcome (list Z) :=
  b ← load bitmap (i / 8); store bitmap (i / 8) (u8 (b .& .~ (1 .<< (i mod 8)))).

Definition set_bit (bitmap : list Z) (i : Z) : outcome (list Z) :=
  b ← load bitmap (i / 8); store bitmap (i / 8) (u8 (b .| (1 .<< (i mod 8)))).

(** The first index from [i] on, of [n], whose bit is clear. *)
Fixpoint find_clear (n : nat) (bitmap : list Z) (i : Z) : outcome (option Z) :=
  match n with
  | O => mret None
  | S n' =>
      b ← load bitmap (i / 8);
      if has b (1 .<< (i mod 8)) then find_clear n' bitmap (i + 1) else mret (Some i)
  end.

(** Add to the free counts of a group and of the superblock and write both back. *)
Definition update_counts (group dblocks dinodes : Z) : FS D unit :=
  fs ← get;
  g ← lift (load (groups fs) group);
  let g' := group_with_free g (u16 (free_blocks_count g + dblocks)) (u16 (free_inodes_count g + dinodes)) in
  gs ← lift (store (groups fs) group g');
  let s := sb fs in
  _ ← put (with_sb (with_groups fs gs) (sb_with_free s (u32 (sb_free_blocks s + dblocks)) (u32 (sb_free_inodes s + dinodes))));
  _ ← writeGroupDescriptors;
  _ ← writeSuperblock;
  mret tt.

Definition freeInode (inode_num : Z) : FS D bool :=
  if inode_num =? 0 then mret false else
  gi ← inode_group inode_num;
  match gi with
  | None => mret false
  | Some (group, index_in_group) =>
      fs ← get;
      bitmap ← kmalloc (block_size fs);
      match bitmap with
      | None => mret false
      | Some bitmap =>
          g ← lift (load (groups fs) group);
          r ← readBlock (inode_bitmap g) bitmap;
          match r with
          | None => mret false
          | Some bitmap =>
              bitmap ← lift (clear_bit bitmap index_in_group);
              ok ← writeBlock (inode_bitmap g) bitmap;
              if negb ok then mret false else
              _ ← update_counts group 0 1;
              mret true
          end
      end
  end.

Definition freeBlock (block_num : Z) : FS D bool :=
  if block_num =? 0 then mret false else
  fs ← get;
  let relative := u32 (block_num - first_data_block (sb fs)) in
  group ← lift (udiv relative (block_per_group (sb fs)));
  index_in_group ← lift (umod relative (block_per_group (sb fs)));
  if group_count fs <=? group then mret false else
  bitmap ← kmalloc (block_size fs);
  match bitmap with
  | None => mret false
  | Some bitmap =>
      g ← lift (load (groups fs) group);
      r ← readBlock (block_bitmap g) bitmap;
      match r with
      | None => mret false
      | Some bitmap =>
          bitmap ← lift (clear_bit bitmap index_in_group);
          ok ← writeBlock (block_bitmap g) bitmap;
          if negb ok then mret false else
          _ ← update_counts group 1 0;
          mret true
      end
  end.

(** Take a clear bit of the bitmap in block [bitmap_block], of its first [n]. *)
Definition alloc_bit (bitmap_block n : Z) : FS D (option Z) :=
  fs ← get;
  bitmap ← kmalloc (block_size fs);
  match bitmap with
  | None => mret None
  | Some bitmap =>
      r ← readBlock bitmap_block bitmap;
      match r with
      | None => mret None
      | Some bitmap =>
          free_bit ← lift (find_clear (Z.to_nat n) bitmap 0);
          match free_bit with
          | None => mret None
          | Some i =>
              bitmap ← lift (set_bit bitmap i);
              if s32 i <? 0 then mret None else
              ok ← writeBlock bitmap_block bitmap;
              mret (if ok : bool then Some i else None)
          end
      end
  end.

Definition allocBlockInGroup (group : Z) : FS D Z :=
  fs ← get;
  if group_count fs <=? group then mret 0 else
  g ← lift (load (groups fs) group);
  if free_blocks_count g =? 0 then mret 0 else
  let s := sb fs in
  let total_blocks := u32 (blocks_count s - first_data_block s) in
  let remaining := u32 (total_blocks - group * block_per_group s) in
  let blocks_in_group := if remaining <? block_per_group s then remaining else block_per_group s in
  bit ← alloc_bit (block_bitmap g) blocks_in_group;
  match bit with
  | None => mret 0
  | Some free_bit =>
      _ ← update_counts group (-1) 0;
      mret (u32 (first_data_block s + group * block_per_group s + free_bit))
  end.

Definition allocInodeInGroup (group : Z) : FS D Z :=
  fs ← get;
  if group_count fs <=? group then mret 0 else
  g ← lift (load (groups fs) group);
  if free_inodes_count g =? 0 then mret 0 else
  bit ← alloc_bit (inode_bitmap g) (inodes_per_group (sb fs));
  match bit with
  | None => mret 0
  | Some free_bit =>
      _ ← update_counts group 0 (-1);
      mret (u32 (group * inodes_per_group (sb fs) + free_bit + 1))
  end.

(** [for (i = 0; i < group_count; ++i)] over the groups from the hint on. *)
Fixpoint first_group (n : nat) (alloc : Z -> FS D Z) (group_hint i : Z) : FS D Z :=
  match n with
  | O => mret 0
  | S n' =>
      fs ← get;
      r ← alloc (u32 (group_hint + i) mod group_count fs);
      if negb (r =? 0) then mret r else first_group n' alloc group_hint (i + 1)
  end.

Definition allocBlock (group_hint : Z) : FS D Z :=
  fs ← get; first_group (Z.to_nat (group_count fs)) allocBlockInGroup group_hint 0.
Definition allocInode (group_hint : Z) : FS D Z :=
  fs ← get; first_group (Z.to_nat (group_count fs)) allocInodeInGroup group_hint 0.
End ext2.
