(* ===== verification/Ext2Files.v ===== *)
(** Files, directories and paths of the ext2 driver,
    [src/src/fs/ext2/ext2.cpp]: block mapping, directory entries, path
    lookup and the operations of the driver table [g_driver].

    The loops over a directory share their shape: an outer loop over its
    blocks ([dir_blocks]) and an inner loop over the entries of a block
    ([walk]), which both stop early with a result. *)

From Stdlib Require Import ZifyBool.
From S2P Require Import Prelude Bytes Ext2Layout Ext2.

Section ext2_files.
Context {D : Type} `{BlockDev D} `{Uninit}.

(** ** Block mapping *)

Definition ptrs_per_block (fs : FsInstance D) : Z := block_size fs / 4.

Definition inodeBlockAt (i : Inode) (index : Z) : FS D Z :=
  if index <? 12 then lift (load (block i) index) else
  fs ← get;
  let index := index - 12 in
  b12 ← lift (load (block i) 12);
  if (ptrs_per_block fs <=? index) || (b12 =? 0) then mret 0 else
  indirect ← kmalloc (block_size fs);
  match indirect with
  | None => mret 0
  | Some indirect =>
      r ← readBlock b12 indirect;
      match r with
      | None => mret 0
      | Some indirect => lift (get_le 4 indirect (4 * index))
      end
  end.

(** [inode->block[k] = b; inode->blocks += block_size / 512;] *)
Definition add_block (fs : FsInstance D) (i : Inode) (k b : Z) : outcome Inode :=
  blk ← store (block i) k b;
  mret (set_blocks i (u32 (blocks i + block_size fs / 512)) blk).

(** The block [block[12]] of pointers, allocated and cleared if there is none;
    [None] is the early [return 0]. *)
Definition indirect_block (i : Inode) : FS D (option Z * Inode) :=
  b12 ← lift (load (block i) 12);
  if negb (b12 =? 0) then mret (Some b12, i) else
  new_indirect ← allocBlock 0;
  if new_indirect =? 0 then mret (None, i) else
  fs ← get;
  zero_buf ← kmalloc (block_size fs);
  match zero_buf with
  | None => mret (None, i)
  | Some _ =>
      _ ← writeBlock new_indirect (replicate (Z.to_nat (block_size fs)) 0);
      i' ← lift (add_block fs i 12 new_indirect);
      mret (Some new_indirect, i')
  end.

Definition inodeBlockAtOrAlloc (i : Inode) (index : Z) : FS D (Z * Inode) :=
  if index <? 12 then
    b ← lift (load (block i) index);
    if negb (b =? 0) then mret (b, i) else
    new_block ← allocBlock 0;
    if new_block =? 0 then mret (0, i) else
    fs ← get;
    i' ← lift (add_block fs i index new_block);
    mret (new_block, i')
  else
    fs ← get;
    let index := index - 12 in
    if ptrs_per_block fs <=? index then mret (0, i) else
    '(b12, i) ← indirect_block i;
    match b12 with
    | None => mret (0, i)
    | Some b12 =>
        indirect ← kmalloc (block_size fs);
        match indirect with
        | None => mret (0, i)
        | Some indirect =>
            r ← readBlock b12 indirect;
            match r with
            | None => mret (0, i)
            | Some indirect =>
                result ← lift (get_le 4 indirect (4 * index));
                if negb (result =? 0) then mret (result, i) else
                result ← allocBlock 0;
                if result =? 0 then mret (0, i) else
                indirect ← lift (put_le 4 indirect (4 * index) result);
                _ ← writeBlock b12 indirect;
                mret (result, set_blocks i (u32 (blocks i + block_size fs / 512)) (block i))
            end
        end
    end.

(** [for (...) if (ptr != 0) freeBlock(fs, ptr);] *)
Fixpoint free_blocks (ptrs : list Z) : FS D unit :=
  match ptrs with
  | [] => mret tt
  | p :: ptrs' => if p =? 0 then free_blocks ptrs' else (_ ← freeBlock p; free_blocks ptrs')
  end.

Definition freeAllInodeBlocks (i : Inode) : FS D Inode :=
  _ ← free_blocks (take 12 (block i));
  b12 ← lift (load (block i) 12);
  let cleared := inode_with i 0 (links_count i) 0 (replicate 13 0 ++ drop 13 (block i)) in
  if b12 =? 0 then mret cleared else
  fs ← get;
  indirect ← kmalloc (block_size fs);
  match indirect with
  | None => _ ← freeBlock b12; mret cleared
  | Some indirect =>
      r ← readBlock b12 indirect;
      _ ← match r with
          | None => mret tt
          | Some indirect => free_blocks (unpack (replicate (Z.to_nat (ptrs_per_block fs)) 4%nat) indirect)
          end;
      _ ← freeBlock b12;
      mret cleared
  end.

(** ** Directories *)

Definition dirEntryMinSize (name_len : Z) : Z := Z.land (u32 (8 + name_len + 3)) (u32 (Z.lnot 3)).

(** The entry header at [offset]. *)
Definition entry_at (buf : list Z) (offset : Z) : outcome DirEntryOnDisk :=
  bs ← slice buf offset 8; decode_dirent bs.

(** [strncmp(buf + pos, name, strlen(name)) == 0] *)
Fixpoint name_matches (buf : list Z) (pos : Z) (name : list Z) : outcome bool :=
  match name with
  | [] => mret true
  | c :: name' => b ← load buf pos; if b =? c then name_matches buf (pos + 1) name' else mret false
  end.

(** [while (offset < block_size) { if (rec_len == 0) break; body; offset += rec_len; }],
    where [body] goes on with a new accumulator or stops with a result. *)
Fixpoint walk {A R} (fuel : nat) (bs : Z) (buf : list Z) (body : Z -> DirEntryOnDisk -> A -> outcome (A + R))
    (offset : Z) (acc : A) : outcome (A + R) :=
  match fuel with
  | O => Halt
  | S fuel' =>
      if bs <=? offset then mret (inl acc) else
      e ← entry_at buf offset;
      if rec_len e =? 0 then mret (inl acc) else
      r ← body offset e acc;
      match r with
      | inr res => mret (inr res)
      | inl acc' => walk fuel' bs buf body (u32 (offset + rec_len e)) acc'
      end
  end.

(** Every iteration advances by at least a byte. *)
Definition walk_fuel (bs : Z) : nat := S (Z.to_nat bs).

(** The loop over blocks [b] to [b + n - 1] of a directory; [body] gets the
    block's number and contents. *)
Fixpoint dir_blocks {A R} (n : nat) (b : Z) (dir : Inode) (block_buf : list Z)
    (body : Z -> list Z -> A -> FS D (A + R)) (acc : A) : FS D (A + R) :=
  match n with
  | O => mret (inl acc)
  | S n' =>
      phys_block ← inodeBlockAt dir b;
      if phys_block =? 0 then dir_blocks n' (b + 1) dir block_buf body acc else
      r ← readBlock phys_block block_buf;
      match r with
      | None => dir_blocks n' (b + 1) dir block_buf body acc
      | Some block_buf =>
          r ← body phys_block block_buf acc;
          match r with
          | inr res => mret (inr res)
          | inl acc' => dir_blocks n' (b + 1) dir block_buf body acc'
          end
      end
  end.

Definition num_blocks (dir : Inode) : FS D Z :=
  fs ← get; lift (udiv (u32 (size dir + block_size fs - 1)) (block_size fs)).

Definition lookup_body (buf name : list Z) (offset : Z) (e : DirEntryOnDisk) (_ : unit) : outcome (unit + Z) :=
  if negb (inode e =? 0) && (name_len e =? Z.of_nat (length name)) then
    same ← name_matches buf (offset + 8) name;
    mret (if same : bool then inr (inode e) else inl tt)
  else mret (inl tt).

Definition lookupInDir (dir_inode : Inode) (name : list Z) : FS D Z :=
  if negb (is_dir dir_inode) then mret 0 else
  fs ← get;
  block_buf ← kmalloc (block_size fs);
  match block_buf with
  | None => mret 0
  | Some block_buf =>
      n ← num_blocks dir_inode;
      r ← dir_blocks (Z.to_nat n) 0 dir_inode block_buf
            (fun _ buf acc => lift (walk (walk_fuel (block_size fs)) (block_size fs) buf (lookup_body buf name) 0 acc)) tt;
      mret (match r with inr ino => ino | inl _ => 0 end)
  end.

(** The entry [entry] of [insertDirEntry] and what follows it, written into the block. *)
Definition insert_body (buf name : list Z) (child_inode ftype : Z) (offset : Z) (e : DirEntryOnDisk) (_ : unit) :
    outcome (unit + list Z) :=
  let nl := u8 (Z.of_nat (length name)) in
  let needed := dirEntryMinSize nl in
  let actual_used := if inode e =? 0 then 0 else dirEntryMinSize (name_len e) in
  let slack := u32 (rec_len e - actual_used) in
  if slack <? needed then mret (inl tt) else
  if inode e =? 0 then
    buf ← splice buf offset (encode_dirent (mkDirEnt child_inode (rec_len e) nl ftype));
    buf ← splice buf (offset + 8) (take (Z.to_nat nl) name);
    mret (inr buf)
  else
    buf ← splice buf offset (encode_dirent (mkDirEnt (inode e) (u16 actual_used) (name_len e) (file_type e)));
    buf ← splice buf (offset + actual_used) (encode_dirent (mkDirEnt child_inode (u16 (rec_len e - actual_used)) nl ftype));
    buf ← splice buf (offset + actual_used + 8) (take (Z.to_nat nl) name);
    mret (inr buf).

Definition insertDirEntry (dir_inode : Inode) (name : list Z) (child_inode ftype : Z) : FS D (bool * Inode) :=
  fs ← get;
  block_buf ← kmalloc (block_size fs);
  match block_buf with
  | None => mret (false, dir_inode)
  | Some block_buf =>
      n ← num_blocks dir_inode;
      r ← dir_blocks (Z.to_nat n) 0 dir_inode block_buf
            (fun phys_block buf acc =>
               r ← lift (walk (walk_fuel (block_size fs)) (block_size fs) buf (insert_body buf name child_inode ftype) 0 acc);
               match r with
               | inl acc => mret (inl acc)
               | inr buf => ok ← writeBlock phys_block buf; mret (inr ok)
               end) tt;
      match r with
      | inr ok => mret (ok, dir_inode)
      | inl _ =>
          '(phys_block, dir_inode) ← inodeBlockAtOrAlloc dir_inode n;
          if phys_block =? 0 then mret (false, dir_inode) else
          let nl := u8 (Z.of_nat (length name)) in
          let zeros := replicate (Z.to_nat (block_size fs)) 0 in
          buf ← lift (splice zeros 0 (encode_dirent (mkDirEnt child_inode (u16 (block_size fs)) nl ftype)));
          buf ← lift (splice buf 8 (take (Z.to_nat nl) name));
          ok ← writeBlock phys_block buf;
          mret (ok, if ok : bool then set_size dir_inode (u32 (size dir_inode + block_size fs)) else dir_inode)
      end
  end.

(** The accumulator is [prev_offset], when [has_prev]. *)
Definition remove_body (buf name : list Z) (offset : Z) (e : DirEntryOnDisk) (prev : option Z) :
    outcome (option Z + list Z) :=
  same ← (if negb (inode e =? 0) && (name_len e =? Z.of_nat (length name))
          then name_matches buf (offset + 8) name else mret false);
  if negb same then mret (inl (Some offset)) else
  match prev with
  | Some prev_offset =>
      p ← entry_at buf prev_offset;
      buf ← splice buf prev_offset
              (encode_dirent (mkDirEnt (inode p) (u16 (rec_len p + rec_len e)) (name_len p) (file_type p)));
      mret (inr buf)
  | None =>
      buf ← splice buf offset (encode_dirent (mkDirEnt 0 (rec_len e) (name_len e) (file_type e)));
      mret (inr buf)
  end.

Definition removeDirEntry (dir_inode : Inode) (name : list Z) : FS D bool :=
  fs ← get;
  block_buf ← kmalloc (block_size fs);
  match block_buf with
  | None => mret false
  | Some block_buf =>
      n ← num_blocks dir_inode;
      r ← dir_blocks (Z.to_nat n) 0 dir_inode block_buf
            (fun phys_block buf _ =>
               r ← lift (walk (walk_fuel (block_size fs)) (block_size fs) buf (remove_body buf name) 0 None);
               match r with
               | inl _ => mret (inl tt)
               | inr buf => ok ← writeBlock phys_block buf; mret (inr ok)
               end) tt;
      mret (match r with inr ok => ok | inl _ => false end)
  end.

(** The name of an entry is [.] or [..]. *)
Definition is_dots (buf : list Z) (offset : Z) (e : DirEntryOnDisk) : outcome bool :=
  if name_len e =? 1 then c0 ← load buf (offset + 8); mret (c0 =? 46)
  else if name_len e =? 2 then
    c0 ← load buf (offset + 8);
    if c0 =? 46 then c1 ← load buf (offset + 9); mret (c1 =? 46) else mret false
  else mret false.

(** The accumulator is [seen]. *)
Definition readdir_body (buf : list Z) (index : Z) (offset : Z) (e : DirEntryOnDisk) (seen : Z) :
    outcome (Z + (list Z * bool)) :=
  if inode e =? 0 then mret (inl seen) else
  dots ← is_dots buf offset e;
  if dots : bool then mret (inl seen) else
  if seen =? index then
    nm ← slice buf (offset + 8) (Z.min (name_len e) 63);
    mret (inr (nm, file_type e =? FT_DIR))
  else mret (inl (seen + 1)).

Definition has_children_body (buf : list Z) (offset : Z) (e : DirEntryOnDisk) (_ : unit) : outcome (unit + unit) :=
  if inode e =? 0 then mret (inl tt) else
  dots ← is_dots buf offset e;
  mret (if dots : bool then inl tt else inr tt).

(** ** Paths *)

(** [component] collects the current component, at most 63 characters. *)
Fixpoint resolve_from (p : list Z) (current : Z) (component : list Z) : FS D Z :=
  let finish : FS D Z :=
    if (length component =? 0)%nat then mret current else
    dir_inode ← readInode current stack_inode;
    match dir_inode with
    | None => mret 0
    | Some dir_inode => lookupInDir dir_inode component
    end in
  match p with
  | [] => finish
  | c :: p' =>
      if c =? 47 then
        current' ← finish;
        if current' =? 0 then mret 0 else resolve_from p' current' []
      else resolve_from p' current (if (length component <? 63)%nat then component ++ [c] else component)
  end.

Definition resolvePathToInode (path : list Z) : FS D Z :=
  match path with
  | [] => mret ROOT_INODE
  | _ => resolve_from path ROOT_INODE []
  end.

(** Parent and name, split at the last slash; [None] when the parent does not
    fit [parent_path]. *)
Fixpoint last_slash (path : list Z) : option (list Z * list Z) :=
  match path with
  | [] => None
  | c :: path' =>
      match last_slash path' with
      | Some (a, b) => Some (c :: a, b)
      | None => if c =? 47 then Some ([], path') else None
      end
  end.

Definition split_path (path : list Z) : option (list Z * list Z) :=
  match last_slash path with
  | Some (parent, name) => if (128 <=? length parent)%nat then None else Some (parent, name)
  | None => Some ([], path)
  end.

(** ** Driver operations *)

Definition open (path : list Z) : FS D (option PrivateData) :=
  inode_num ← resolvePathToInode path;
  if inode_num =? 0 then mret None else
  buf ← kmalloc 128;
  match buf with
  | None => mret None
  | Some buf =>
      i ← readInode inode_num buf;
      match i with
      | None => mret None
      | Some i =>
          priv ← kmalloc 132;
          mret (match priv with None => None | Some _ => Some (mkPriv inode_num i) end)
      end
  end.

(** The bytes read so far are [dst]; the result says whether a block could not be read. *)
Fixpoint read_loop (fuel : nat) (i : Inode) (offset count : Z) (block_buf dst : list Z) :
    FS D (bool * list Z * Inode) :=
  match fuel with
  | O => fun _ => Halt
  | S fuel' =>
      let bytes_read := Z.of_nat (length dst) in
      if count <=? bytes_read then mret (true, dst, i) else
      fs ← get;
      let file_pos := u64 (offset + bytes_read) in
      logical_block ← lift (udiv file_pos (block_size fs));
      let offset_in_block := file_pos mod block_size fs in
      '(phys_block, i) ← inodeBlockAtOrAlloc i (u32 logical_block);
      let chunk := Z.min (block_size fs - offset_in_block) (count - bytes_read) in
      if phys_block =? 0 then read_loop fuel' i offset count block_buf (dst ++ replicate (Z.to_nat chunk) 0)
      else
        r ← readBlock phys_block block_buf;
        match r with
        | None => mret (false, dst, i)
        | Some block_buf =>
            data ← lift (slice block_buf offset_in_block chunk);
            read_loop fuel' i offset count block_buf (dst ++ data)
        end
  end.

(** Result, bytes stored in the caller's buffer, and the handle's inode. *)
Definition read (priv : PrivateData) (offset count : Z) : FS D (Z * list Z * PrivateData) :=
  let i := p_inode priv in
  if size i <=? offset then mret (0, [], priv) else
  let count := if size i <? u64 (offset + count) then size i - offset else count in
  fs ← get;
  block_buf ← kmalloc (block_size fs);
  match block_buf with
  | None => mret (-1, [], priv)
  | Some block_buf =>
      '(ok, dst, i) ← read_loop (Z.to_nat (count / block_size fs) + 3) i offset count block_buf [];
      let n := Z.of_nat (length dst) in
      mret (if ok : bool then n else if 0 <? n then n else -1, dst, mkPriv (p_inode_num priv) i)
  end.

(** [src] is what is left to write, [bytes_written] what was written. *)
Fixpoint write_loop (fuel : nat) (i : Inode) (offset bytes_written : Z) (block_buf src : list Z) :
    FS D (Z * Inode) :=
  match fuel with
  | O => fun _ => Halt
  | S fuel' =>
      match src with
      | [] => mret (bytes_written, i)
      | _ =>
      fs ← get;
      let file_pos := u64 (offset + bytes_written) in
      logical_block ← lift (udiv file_pos (block_size fs));
      let offset_in_block := file_pos mod block_size fs in
      '(phys_block, i) ← inodeBlockAtOrAlloc i (u32 logical_block);
      if phys_block =? 0 then mret (bytes_written, i) else
      let chunk := Z.min (block_size fs - offset_in_block) (Z.of_nat (length src)) in
      r ← (if negb (offset_in_block =? 0) || negb (chunk =? block_size fs)
           then readBlock phys_block block_buf else mret (Some block_buf));
      match r with
      | None => mret (bytes_written, i)
      | Some block_buf =>
          block_buf ← lift (splice block_buf offset_in_block (take (Z.to_nat chunk) src));
          ok ← writeBlock phys_block block_buf;
          if negb ok then mret (bytes_written, i) else
          write_loop fuel' i offset (bytes_written + chunk) block_buf (drop (Z.to_nat chunk) src)
      end
      end
  end.

(** Result, the handle's inode, and the new size of the handle if it changed. *)
Definition write (priv : PrivateData) (offset : Z) (src : list Z) : FS D (Z * PrivateData) :=
  fs ← get;
  block_buf ← kmalloc (block_size fs);
  match block_buf with
  | None => mret (-1, priv)
  | Some block_buf =>
      '(bytes_written, i) ← write_loop (Z.to_nat (Z.of_nat (length src) / block_size fs) + 3) (p_inode priv) offset 0 block_buf src;
      let new_size := u64 (offset + bytes_written) in
      let i := if size i <? new_size then set_size i (u32 new_size) else i in
      _ ← writeInode (p_inode_num priv) i;
      mret (bytes_written, mkPriv (p_inode_num priv) i)
  end.

Definition isDirectory (path : list Z) : FS D bool :=
  inode_num ← resolvePathToInode path;
  if inode_num =? 0 then mret false else
  i ← readInode inode_num stack_inode;
  mret (match i with None => false | Some i => is_dir i end).

Definition readdir (path : list Z) (index : Z) : FS D (option (list Z * bool)) :=
  dir_inode_num ← resolvePathToInode path;
  if dir_inode_num =? 0 then mret None else
  i ← readInode dir_inode_num stack_inode;
  match i with
  | None => mret None
  | Some dir_inode =>
      if negb (is_dir dir_inode) then mret None else
      fs ← get;
      block_buf ← kmalloc (block_size fs);
      match block_buf with
      | None => mret None
      | Some block_buf =>
          n ← num_blocks dir_inode;
          r ← dir_blocks (Z.to_nat n) 0 dir_inode block_buf
                (fun _ buf acc => lift (walk (walk_fuel (block_size fs)) (block_size fs) buf (readdir_body buf index) 0 acc)) 0;
          mret (match r with inr res => Some res | inl _ => None end)
      end
  end.

(** The checks [unlinkFile] and [rmdirPath] share: number and inode of the
    parent and of the target, and the name. *)
Definition find_target (path : list Z) : FS D (option (Z * Inode * Z * Inode * list Z)) :=
  match split_path path with
  | None => mret None
  | Some (parent_path, name) =>
      if (length name =? 0)%nat then mret None else
      parent_inode_num ← resolvePathToInode parent_path;
      if parent_inode_num =? 0 then mret None else
      p ← readInode parent_inode_num stack_inode;
      match p with
      | None => mret None
      | Some parent_inode =>
          target_inode_num ← lookupInDir parent_inode name;
          if target_inode_num =? 0 then mret None else
          t ← readInode target_inode_num stack_inode;
          mret (match t with
                | None => None
                | Some target_inode => Some (parent_inode_num, parent_inode, target_inode_num, target_inode, name)
                end)
      end
  end.

Definition unlinkFile (path : list Z) : FS D bool :=
  t ← find_target path;
  match t with
  | None => mret false
  | Some (parent_inode_num, parent_inode, target_inode_num, target_inode, name) =>
      if is_dir target_inode then mret false else
      ok ← removeDirEntry parent_inode name;
      if negb ok then mret false else
      _ ← writeInode parent_inode_num parent_inode;
      target_inode ← freeAllInodeBlocks target_inode;
      _ ← writeInode target_inode_num (set_dtime (set_links target_inode 0) 0);
      freeInode target_inode_num
  end.

Definition rmdirPath (path : list Z) : FS D bool :=
  t ← find_target path;
  match t with
  | None => mret false
  | Some (parent_inode_num, parent_inode, target_inode_num, target_inode, name) =>
      if negb (is_dir target_inode) then mret false else
      fs ← get;
      block_buf ← kmalloc (block_size fs);
      match block_buf with
      | None => mret false
      | Some block_buf =>
          n ← num_blocks target_inode;
          r ← dir_blocks (Z.to_nat n) 0 target_inode block_buf
                (fun _ buf acc => lift (walk (walk_fuel (block_size fs)) (block_size fs) buf (has_children_body buf) 0 acc)) tt;
          match r with
          | inr _ => mret false
          | inl _ =>
              ok ← removeDirEntry parent_inode name;
              if negb ok then mret false else
              _ ← writeInode parent_inode_num (set_links parent_inode (u16 (links_count parent_inode - 1)));
              target_inode ← freeAllInodeBlocks target_inode;
              _ ← writeInode target_inode_num (set_links target_inode 0);
              freeInode target_inode_num
          end
      end
  end.

(** The block of a new directory: [.] and [..]. *)
Definition dots_block (bs new_inode_num parent_inode_num : Z) : outcome (list Z) :=
  let dot_len := dirEntryMinSize 1 in
  buf ← splice (replicate (Z.to_nat bs) 0) 0 (encode_dirent (mkDirEnt new_inode_num dot_len 1 FT_DIR));
  buf ← store buf 8 46;
  buf ← splice buf dot_len (encode_dirent (mkDirEnt parent_inode_num (u16 (bs - dot_len)) 2 FT_DIR));
  buf ← store buf (dot_len + 8) 46;
  store buf (dot_len + 8 + 1) 46.

(** Modes 0755 and 0644. *)
Definition fresh_inode (isdir : bool) : Inode :=
  mkInode (if isdir then S_IFDIR .| 0x1ED else S_IFREG .| 0x1A4) 0 0 0 0 0 0 0 (if isdir then 2 else 1) 0 0 0
    (replicate 15 0) 0 0 0 0 (replicate 12 0).

(** The new inode with its first block, or [None] on failure. *)
Definition init_directory (new_inode_num parent_inode_num : Z) : FS D (option Inode) :=
  data_block ← allocBlock 0;
  if data_block =? 0 then mret None else
  fs ← get;
  block_buf ← kmalloc (block_size fs);
  match block_buf with
  | None => mret None
  | Some _ =>
      buf ← lift (dots_block (block_size fs) new_inode_num parent_inode_num);
      ok ← writeBlock data_block buf;
      if negb ok then mret None else
      mret (Some (inode_with (fresh_inode true) (block_size fs) 2 (block_size fs / 512)
        (data_block :: replicate 14 0)))
  end.

Definition create (path : list Z) (isdir : bool) : FS D bool :=
  match split_path path with
  | None => mret false
  | Some (parent_path, name) =>
      if (length name =? 0)%nat then mret false else
      parent_inode_num ← resolvePathToInode parent_path;
      if parent_inode_num =? 0 then mret false else
      p ← readInode parent_inode_num stack_inode;
      match p with
      | None => mret false
      | Some parent_inode =>
          if negb (is_dir parent_inode) then mret false else
          existing ← lookupInDir parent_inode name;
          if negb (existing =? 0) then mret false else
          new_inode_num ← allocInode 0;
          if new_inode_num =? 0 then mret false else
          ni ← (if isdir then init_directory new_inode_num parent_inode_num else mret (Some (fresh_inode false)));
          match ni with
          | None => mret false
          | Some new_inode =>
              let parent_inode := if isdir then set_links parent_inode (u16 (links_count parent_inode + 1)) else parent_inode in
              ok ← writeInode new_inode_num new_inode;
              if negb ok then mret false else
              '(ok, parent_inode) ← insertDirEntry parent_inode name new_inode_num (if isdir then FT_DIR else FT_REG_FILE);
              if negb ok then mret false else
              writeInode parent_inode_num parent_inode
          end
      end
  end.
(** ** Mounting *)

(** [for (i = i0; i < i0 + n; ++i) readBlock(fs, bgdt_block + i, bgdt_buf + i * block_size)] *)
Fixpoint read_bgdt (n : nat) (bgdt_block i : Z) (buf : list Z) : FS D (option (list Z)) :=
  match n with
  | O => mret (Some buf)
  | S n' =>
      fs ← get;
      r ← readBlock_at (u32 (bgdt_block + i)) buf (u32 (i * block_size fs));
      match r with
      | None => mret None
      | Some buf => read_bgdt n' bgdt_block (i + 1) buf
      end
  end.

(** The group descriptors in a buffer. *)
Fixpoint decode_groups (n : nat) (buf : list Z) : outcome (list GroupDesc) :=
  match n with
  | O => mret []
  | S n' => bs ← slice buf 0 32; g ← decode_group bs; gs ← decode_groups n' (drop 32 buf); mret (g :: gs)
  end.

(** The superblock checks and the geometry; the argument is the device with
    the structure that [kmalloc] returned, not filled in yet. *)
Definition mount : FS D bool :=
  fs ← get;
  count ← lift (udiv 1024 (sector_size fs));
  match dev_read 2 count (dev fs) with
  | None => mret false
  | Some data =>
      sb_buf ← lift (splice (junk 1024) 0 data);
      s ← lift (decode_sb sb_buf);
      if negb (magic s =? EXT2_MAGIC) then mret false else
      p ← kmalloc 1048;
      match p with
      | None => mret false
      | Some _ =>
          if 32 <=? log_block_size s then lift Fault else
          let bs := u32 (1024 .<< log_block_size s) in
          let s := if rev_level s =? 0 then sb_with_rev0 s else s in
          gcount ← lift (udiv (u32 (blocks_count s + block_per_group s - 1)) (block_per_group s));
          fs ← get;
          _ ← put (mkFs (dev fs) (sector_size fs) s [] gcount bs (heap fs));
          p ← kmalloc (32 * gcount);
          match p with
          | None => mret false
          | Some _ =>
              let bgdt_block := u32 (first_data_block s + 1) in
              let bgdt_bytes := u32 (32 * gcount) in
              bgdt_blocks_needed ← lift (udiv (u32 (bgdt_bytes + bs - 1)) bs);
              bgdt_buf ← kmalloc (u32 (bgdt_blocks_needed * bs));
              match bgdt_buf with
              | None => mret false
              | Some bgdt_buf =>
                  r ← read_bgdt (Z.to_nat bgdt_blocks_needed) bgdt_block 0 bgdt_buf;
                  match r with
                  | None => mret false
                  | Some bgdt_buf =>
                      gs ← lift (decode_groups (Z.to_nat gcount) bgdt_buf);
                      fs ← get;
                      _ ← put (with_groups fs gs);
                      mret true
                  end
              end
          end
      end
  end.
End ext2_files.
