(* ===== verification/Ext2Proofs.v ===== *)
(** Proofs about the ext2 driver of [Ext2]: blocks of the disk, the inode
    table and the allocation bitmaps.

    The driver is verified against the laws of a block device that does not
    fail ([BlockDevLaws]); [ram_disk] of [Ext2Image] is one. *)

From Stdlib Require Import ZifyBool.
From S2P Require Import Prelude Bytes Ext2Layout Ext2.

(** A device of [n] sectors of [ss] bytes: a read in range returns the bytes
    last written there. *)
Class BlockDevLaws (D : Type) `{BlockDev D} := {
  dev_wf : Z -> Z -> D -> Prop;
  dev_read_ok ss n d lba count : dev_wf ss n d -> 0 <= lba -> 0 <= count -> lba + count <= n ->
    exists data, dev_read lba count d = Some data /\ Z.of_nat (length data) = count * ss /\ bytes_ok data;
  dev_write_ok ss n d lba count data : dev_wf ss n d -> 0 <= lba -> 0 <= count -> lba + count <= n ->
    Z.of_nat (length data) = count * ss -> bytes_ok data ->
    exists d', dev_write lba count data d = (true, d') /\ dev_wf ss n d' /\ dev_read lba count d' = Some data /\
      forall lba' count', 0 <= lba' -> 0 <= count' -> lba' + count' <= n ->
        lba' + count' <= lba \/ lba + count <= lba' -> dev_read lba' count' d' = dev_read lba' count' d;
}.

(** Fresh memory has the size asked for. *)
Class UninitLaws `{Uninit} := {
  length_junk n : length (junk n) = n;
}.

(** ** Running the monad *)

Lemma run_bind {D A B} (m : FS D A) (k : A -> FS D B) fs a fs' : m fs = Ok (a, fs') -> (m ≫= k) fs = k a fs'.
Proof. intros E. unfold mbind, FS_bind. by rewrite E. Qed.

Lemma run_get {D B} (k : FsInstance D -> FS D B) fs : (get ≫= k) fs = k fs fs.
Proof. done. Qed.

Lemma run_lift {D A B} (o : outcome A) (k : A -> FS D B) fs a : o = Ok a -> (lift o ≫= k) fs = k a fs.
Proof. by intros ->. Qed.

Lemma udiv_ok a b : b <> 0 -> udiv a b = Ok (a / b).
Proof. intros Hb. unfold udiv. by rewrite (proj2 (Z.eqb_neq b 0)). Qed.

Lemma umod_ok a b : b <> 0 -> umod a b = Ok (a mod b).
Proof. intros Hb. unfold umod. by rewrite (proj2 (Z.eqb_neq b 0)). Qed.

(** One step of a sequence: [E] says what the next call returns. *)
Ltac step E := first [rewrite (run_bind _ _ _ _ _ E) | rewrite (run_lift _ _ _ _ E)]; cbn beta iota.
Ltac step_get := rewrite run_get; cbn beta iota.

Section proofs.
Context {D : Type} `{BlockDevLaws D} `{UninitLaws}.
Implicit Types fs : FsInstance D.

Definition spb fs : Z := block_size fs / sector_size fs.

(** The bytes of a block. *)
Definition block_bytes fs (b : Z) : list Z := default [] (dev_read (b * spb fs) (spb fs) (dev fs)).

(** A usable instance on a device of [nb] blocks: sectors of 512 bytes, blocks
    of a power of two from 1024 to 32768 bytes, no allocation failure. *)
Record geometry (nb : Z) fs : Prop := mkGeometry {
  geo_sector : sector_size fs = 512;
  geo_block : exists k, 1 <= k <= 32 /\ block_size fs = 1024 * k;
  geo_blocks : 0 <= nb < 2 ^ 32;
  geo_dev : dev_wf 512 (nb * spb fs) (dev fs);
  geo_heap : heap fs = [];
}.

Lemma spb_mul nb fs : geometry nb fs -> spb fs * 512 = block_size fs /\ 2 <= spb fs <= 64.
Proof.
  intros [Hs (k & Hk & Hb) _ _ _]. unfold spb. rewrite Hs, Hb.
  replace (1024 * k) with (2 * k * 512) by lia. rewrite Z.div_mul by lia. lia.
Qed.

Lemma geometry_block_size nb fs : geometry nb fs -> 1024 <= block_size fs <= 32768.
Proof. intros [_ (k & Hk & ->) _ _ _]. lia. Qed.

Lemma block_bytes_ok nb fs b : geometry nb fs -> 0 <= b < nb ->
  dev_read (b * spb fs) (spb fs) (dev fs) = Some (block_bytes fs b) /\
  Z.of_nat (length (block_bytes fs b)) = block_size fs /\ bytes_ok (block_bytes fs b).
Proof.
  intros Hg Hb. destruct (spb_mul nb fs Hg) as [Hm Hr]. unfold block_bytes.
  destruct (dev_read_ok 512 (nb * spb fs) (dev fs) (b * spb fs) (spb fs)) as (data & -> & Hl & Hok);
    [apply Hg | nia | nia | nia |]. simpl. split; [done|]. split; [lia | done].
Qed.

Lemma kmalloc_ok nb fs n : geometry nb fs -> kmalloc n fs = Ok (Some (junk (Z.to_nat n)), fs).
Proof. intros Hg. unfold kmalloc. by rewrite (geo_heap nb fs Hg). Qed.

Lemma lba_small nb fs b : geometry nb fs -> 0 <= b < nb -> u64 (b * spb fs) = b * spb fs.
Proof.
  intros Hg Hb. destruct (spb_mul nb fs Hg) as [_ Hr]. pose proof (geo_blocks nb fs Hg). apply u64_small. nia.
Qed.

Lemma readBlock_ok nb fs b buf : geometry nb fs -> 0 <= b < nb -> Z.of_nat (length buf) = block_size fs ->
  readBlock b buf fs = Ok (Some (block_bytes fs b), fs).
Proof.
  intros Hg Hb Hl. destruct (block_bytes_ok nb fs b Hg Hb) as (E & El & _).
  unfold readBlock, readBlock_at, get, lift, udiv, mbind, FS_bind. rewrite (geo_sector nb fs Hg).
  cbn [Z.eqb]. pose proof (lba_small nb fs b Hg Hb) as Hlba. unfold spb in *.
  rewrite (geo_sector nb fs Hg) in *. rewrite Hlba, E.
  rewrite splice_ok by lia. cbn [Z.to_nat take Nat.add].
  rewrite drop_ge, app_nil_r by lia. done.
Qed.

(** A buffer that [kmalloc] returns is overwritten by [readBlock]. *)
Lemma readBlock_fresh nb fs b : geometry nb fs -> 0 <= b < nb ->
  readBlock b (junk (Z.to_nat (block_size fs))) fs = Ok (Some (block_bytes fs b), fs).
Proof.
  intros Hg Hb. apply (readBlock_ok nb); [done | done |]. rewrite length_junk.
  pose proof (geometry_block_size nb fs Hg). lia.
Qed.

(** [fs'] differs from [fs] in the contents of the disk only. *)
Definition same_instance fs fs' : Prop := fs' = with_dev fs (dev fs').

Lemma writeBlock_ok nb fs b buf : geometry nb fs -> 0 <= b < nb -> Z.of_nat (length buf) = block_size fs ->
  bytes_ok buf ->
  exists fs', writeBlock b buf fs = Ok (true, fs') /\ geometry nb fs' /\ same_instance fs fs' /\
    block_bytes fs' b = buf /\ forall b', 0 <= b' < nb -> b' <> b -> block_bytes fs' b' = block_bytes fs b'.
Proof.
  intros Hg Hb Hl Hok. destruct (spb_mul nb fs Hg) as [Hm Hr].
  destruct (dev_write_ok 512 (nb * spb fs) (dev fs) (b * spb fs) (spb fs) buf)
    as (d' & Ew & Hwf & Er & Hframe); [apply Hg | nia | nia | nia | lia | done |].
  exists (with_dev fs d'). split; [|split; [|split; [done|split]]].
  - unfold writeBlock, get, put, lift, udiv, mbind, FS_bind, mret, FS_ret. cbn beta iota.
    rewrite (geo_sector nb fs Hg). cbn [Z.eqb]. cbn beta iota. pose proof (lba_small nb fs b Hg Hb) as Hlba. unfold spb in *.
    rewrite (geo_sector nb fs Hg) in *. rewrite slice_ok by lia. change (drop (Z.to_nat 0) buf) with buf.
    rewrite Hm, take_ge by lia. by rewrite Hlba, Ew.
  - destruct Hg. by constructor.
  - unfold block_bytes, spb in *. cbn. by rewrite Er.
  - intros b' Hb' Hne. unfold block_bytes, spb in *. cbn. rewrite Hframe; [done | nia | nia | nia |].
    assert (b' < b \/ b < b') as [Hlt|Hlt] by lia; [left | right]; nia.
Qed.

(** ** The inode table *)

Definition isz fs : Z := inode_size_of (sb fs).
Definition ipg fs : Z := inodes_per_group (sb fs).
Definition table_blocks fs : Z := (ipg fs * isz fs + block_size fs - 1) / block_size fs.

(** The inode tables of the groups lie on the disk and do not overlap. *)
Record inode_layout (nb : Z) fs : Prop := mkInodeLayout {
  il_ipg : 0 < ipg fs;
  il_size : 128 <= isz fs;
  il_div : (isz fs | block_size fs);
  il_table_small : ipg fs * isz fs < 2 ^ 32;
  il_count_small : ipg fs * group_count fs < 2 ^ 32;
  il_groups : Z.of_nat (length (groups fs)) = group_count fs;
  il_tables : forall g gd, groups fs !! g = Some gd ->
    0 <= inode_table gd /\ inode_table gd + table_blocks fs <= nb;
  il_disjoint : forall g g' gd gd', g <> g' -> groups fs !! g = Some gd -> groups fs !! g' = Some gd' ->
    inode_table gd + table_blocks fs <= inode_table gd' \/ inode_table gd' + table_blocks fs <= inode_table gd;
}.

Definition valid_inode fs (n : Z) : Prop := 1 <= n <= ipg fs * group_count fs.

(** Block and offset of an inode. *)
Definition inode_block fs (n : Z) : Z :=
  inode_table (nth (Z.to_nat ((n - 1) / ipg fs)) (groups fs) (mkGroup 0 0 0 0 0 0 0 [])) +
  (n - 1) mod ipg fs * isz fs / block_size fs.
Definition inode_offset fs (n : Z) : Z := ((n - 1) mod ipg fs * isz fs) mod block_size fs.

Lemma div_between a b k : 0 < b -> b * k <= a < b * (k + 1) -> a / b = k.
Proof. intros. symmetry. apply Z.div_unique with (a - b * k); lia. Qed.

(** Index [j] of an array of items of [s] bytes, in blocks of [s * m] bytes. *)
Lemma item_position j s m : 0 < s -> 0 < m ->
  j * s / (s * m) = j / m /\ (j * s) mod (s * m) = s * (j mod m).
Proof.
  intros Hs Hm. rewrite (Z.mul_comm j s). split.
  - apply Z.div_mul_cancel_l; lia.
  - apply Z.mul_mod_distr_l; lia.
Qed.

Lemma inode_offset_bounds nb fs n : geometry nb fs -> inode_layout nb fs ->
  0 <= inode_offset fs n /\ inode_offset fs n + isz fs <= block_size fs.
Proof.
  intros Hg Hl. destruct (il_div nb fs Hl) as [m Hm]. pose proof (il_size nb fs Hl).
  pose proof (geometry_block_size nb fs Hg). assert (0 < m) by nia.
  unfold inode_offset. replace (block_size fs) with (isz fs * m) by lia.
  destruct (item_position ((n - 1) mod ipg fs) (isz fs) m) as [_ ->]; [lia | lia |].
  pose proof (Z.mod_pos_bound ((n - 1) mod ipg fs) m ltac:(lia)). nia.
Qed.

(** The group of a valid inode, and its place in it. *)
Lemma inode_group_of nb fs n : inode_layout nb fs -> valid_inode fs n ->
  let g := (n - 1) / ipg fs in let j := (n - 1) mod ipg fs in
  0 <= g < group_count fs /\ 0 <= j < ipg fs /\ exists gd, groups fs !! Z.to_nat g = Some gd /\
    inode_block fs n = inode_table gd + j * isz fs / block_size fs.
Proof.
  intros Hl Hv g j. pose proof (il_ipg nb fs Hl). unfold valid_inode in Hv.
  assert (Hgr : 0 <= g < group_count fs).
  { subst g. split; [apply Z.div_pos; lia | apply Z.div_lt_upper_bound; lia]. }
  split; [done|]. split; [apply Z.mod_pos_bound; lia|].
  destruct (lookup_lt_is_Some_2 (groups fs) (Z.to_nat g)) as [gd Hgd].
  { pose proof (il_groups nb fs Hl). lia. }
  exists gd. split; [done|]. unfold inode_block. fold g j. by rewrite (nth_lookup_Some _ _ _ _ Hgd).
Qed.

Lemma table_index nb fs j : geometry nb fs -> inode_layout nb fs -> 0 <= j < ipg fs ->
  0 <= j * isz fs / block_size fs < table_blocks fs.
Proof.
  intros Hg Hl Hj. pose proof (il_size nb fs Hl). pose proof (geometry_block_size nb fs Hg).
  split; [apply Z.div_pos; nia|]. unfold table_blocks.
  apply Z.lt_le_trans with (j * isz fs / block_size fs + 1); [lia|].
  rewrite <- Z.div_add by lia. apply Z.div_le_mono; [lia | nia].
Qed.

Lemma inode_block_bounds nb fs n : geometry nb fs -> inode_layout nb fs -> valid_inode fs n ->
  0 <= inode_block fs n < nb.
Proof.
  intros Hg Hl Hv. destruct (inode_group_of nb fs n Hl Hv) as (_ & Hj & gd & Hgd & ->).
  pose proof (table_index nb fs _ Hg Hl Hj). pose proof (il_tables nb fs Hl _ _ Hgd). lia.
Qed.

Lemma inode_group_ok nb fs n : inode_layout nb fs -> valid_inode fs n ->
  inode_group n fs = Ok (Some ((n - 1) / ipg fs, (n - 1) mod ipg fs), fs).
Proof.
  intros Hl Hv. destruct (inode_group_of nb fs n Hl Hv) as (Hgr & _).
  pose proof (il_ipg nb fs Hl). pose proof (il_count_small nb fs Hl). unfold valid_inode, ipg in *.
  unfold inode_group. step_get. rewrite u32_small by lia.
  step (udiv_ok (n - 1) (inodes_per_group (sb fs)) ltac:(lia)).
  step (umod_ok (n - 1) (inodes_per_group (sb fs)) ltac:(lia)).
  rewrite (proj2 (Z.leb_gt _ _)) by lia. done.
Qed.

Lemma inode_location_ok nb fs n : geometry nb fs -> inode_layout nb fs -> valid_inode fs n ->
  inode_location ((n - 1) / ipg fs) ((n - 1) mod ipg fs) fs = Ok ((inode_block fs n, inode_offset fs n), fs).
Proof.
  intros Hg Hl Hv. destruct (inode_group_of nb fs n Hl Hv) as (Hgr & Hj & gd & Hgd & Eb).
  pose proof (geometry_block_size nb fs Hg). pose proof (il_table_small nb fs Hl). pose proof (il_size nb fs Hl).
  pose proof (inode_block_bounds nb fs n Hg Hl Hv). pose proof (geo_blocks nb fs Hg).
  unfold inode_location, inode_offset in *. step_get. fold (isz fs). rewrite u32_small by nia.
  set (o := (n - 1) mod ipg fs * isz fs) in *.
  step (udiv_ok o (block_size fs) ltac:(lia)). step (umod_ok o (block_size fs) ltac:(lia)).
  assert (Eg : load (groups fs) ((n - 1) / ipg fs) = Ok gd) by (apply load_ok; split; [lia | done]).
  step Eg. rewrite <- Eb, u32_small by lia. done.
Qed.

(** The 128 bytes of an inode on the disk. *)
Definition inode_bytes fs (n : Z) : list Z :=
  take 128 (drop (Z.to_nat (inode_offset fs n)) (block_bytes fs (inode_block fs n))).

Lemma decode_inode_total bs : exists i, decode_inode bs = Ok i.
Proof. eexists. reflexivity. Qed.

Lemma readInode_ok nb fs n out i : geometry nb fs -> inode_layout nb fs -> valid_inode fs n ->
  length out = 128%nat -> decode_inode (inode_bytes fs n) = Ok i -> readInode n out fs = Ok (Some i, fs).
Proof.
  intros Hg Hl Hv Ho Hd. pose proof (inode_block_bounds nb fs n Hg Hl Hv) as Hb.
  pose proof (inode_offset_bounds nb fs n Hg Hl) as Hoff. pose proof (il_size nb fs Hl) as Hs.
  destruct (block_bytes_ok nb fs (inode_block fs n) Hg Hb) as (_ & Hlen & _).
  unfold readInode. rewrite (proj2 (Z.eqb_neq n 0)) by (unfold valid_inode in Hv; lia).
  step (inode_group_ok nb fs n Hl Hv). step (inode_location_ok nb fs n Hg Hl Hv). step_get.
  step (kmalloc_ok nb fs (block_size fs) Hg). step (readBlock_fresh nb fs _ Hg Hb).
  fold (isz fs). rewrite Z.min_l by lia. step (slice_ok (block_bytes fs (inode_block fs n)) (inode_offset fs n) 128
    ltac:(lia) ltac:(lia) ltac:(lia)).
  change (Z.to_nat 128) with 128%nat. fold (inode_bytes fs n).
  rewrite drop_ge, app_nil_r by lia. step Hd. done.
Qed.

(** Two inodes never overlap. *)
Lemma inodes_apart nb fs n m : geometry nb fs -> inode_layout nb fs -> valid_inode fs n -> valid_inode fs m ->
  n <> m -> inode_block fs n <> inode_block fs m \/
    inode_offset fs n + isz fs <= inode_offset fs m \/ inode_offset fs m + isz fs <= inode_offset fs n.
Proof.
  intros Hg Hl Hn Hm Hne. pose proof (il_ipg nb fs Hl). pose proof (il_size nb fs Hl).
  pose proof (geometry_block_size nb fs Hg). destruct (il_div nb fs Hl) as [k Hk]. assert (0 < k) by nia.
  destruct (inode_group_of nb fs n Hl Hn) as (Hgn & Hjn & gd & Hgd & En).
  destruct (inode_group_of nb fs m Hl Hm) as (Hgm & Hjm & gd' & Hgd' & Em).
  destruct (decide ((n - 1) / ipg fs = (m - 1) / ipg fs)) as [Eg|Hg'].
  - rewrite Eg, Hgd' in Hgd. injection Hgd as <-.
    assert (Hj : (n - 1) mod ipg fs <> (m - 1) mod ipg fs).
    { intros Ej. pose proof (Z.div_mod (n - 1) (ipg fs) ltac:(lia)). pose proof (Z.div_mod (m - 1) (ipg fs) ltac:(lia)).
      rewrite Eg, Ej in *. lia. }
    unfold inode_offset. rewrite En, Em. replace (block_size fs) with (isz fs * k) by lia.
    set (j := (n - 1) mod ipg fs) in *. set (j' := (m - 1) mod ipg fs) in *.
    destruct (item_position j (isz fs) k) as [-> ->]; [lia | lia |].
    destruct (item_position j' (isz fs) k) as [-> ->]; [lia | lia |].
    destruct (decide (j / k = j' / k)) as [Eq|]; [right | left; lia].
    pose proof (Z.div_mod j k ltac:(lia)). pose proof (Z.div_mod j' k ltac:(lia)).
    assert (j mod k < j' mod k \/ j' mod k < j mod k) by nia. nia.
  - left. assert (Hnat : Z.to_nat ((n - 1) / ipg fs) <> Z.to_nat ((m - 1) / ipg fs)) by lia.
    destruct (il_disjoint nb fs Hl _ _ _ _ Hnat Hgd Hgd') as [Hd|Hd];
      pose proof (table_index nb fs _ Hg Hl Hjn); pose proof (table_index nb fs _ Hg Hl Hjm); lia.
Qed.

Lemma same_position fs fs' n : same_instance fs fs' ->
  inode_block fs' n = inode_block fs n /\ inode_offset fs' n = inode_offset fs n.
Proof. unfold same_instance. by intros ->. Qed.

Lemma inode_bytes_other nb fs fs' n m buf : geometry nb fs -> inode_layout nb fs -> valid_inode fs n ->
  valid_inode fs m -> n <> m -> same_instance fs fs' ->
  splice (block_bytes fs (inode_block fs n)) (inode_offset fs n) buf = Ok (block_bytes fs' (inode_block fs n)) ->
  length buf = 128%nat ->
  (forall b', 0 <= b' < nb -> b' <> inode_block fs n -> block_bytes fs' b' = block_bytes fs b') ->
  inode_bytes fs' m = inode_bytes fs m.
Proof.
  intros Hg Hl Hn Hm Hne Hi Hsp Hlb Hother. pose proof (inode_block_bounds nb fs m Hg Hl Hm) as Hbm.
  pose proof (inode_offset_bounds nb fs m Hg Hl). pose proof (il_size nb fs Hl).
  unfold inode_bytes. destruct (same_position fs fs' m Hi) as [-> ->].
  destruct (decide (inode_block fs m = inode_block fs n)) as [Eb|Hb]; [|by rewrite Hother].
  rewrite Eb. change 128%nat with (Z.to_nat 128). apply (splice_other _ _ _ _ _ _ Hsp); [lia | lia |].
  rewrite Hlb. destruct (inodes_apart nb fs n m Hg Hl Hn Hm Hne) as [?|[?|?]]; lia.
Qed.

Lemma same_layout nb fs fs' : same_instance fs fs' -> inode_layout nb fs -> inode_layout nb fs'.
Proof. unfold same_instance. intros -> [? ? ? ? ? ? ? ?]. by constructor. Qed.

Lemma inode_ok_bytes i : inode_ok i -> bytes_ok (encode_inode i).
Proof.
  intros (_ & _ & _ & _ & Hb). unfold encode_inode, bytes_ok. rewrite !Forall_app. split_and!; try apply pack_bytes_ok. done.
Qed.

Lemma writeInode_ok nb fs n i : geometry nb fs -> inode_layout nb fs -> valid_inode fs n -> inode_ok i ->
  exists fs', writeInode n i fs = Ok (true, fs') /\ geometry nb fs' /\ same_instance fs fs' /\
    inode_bytes fs' n = encode_inode i /\
    (forall m, valid_inode fs m -> n <> m -> inode_bytes fs' m = inode_bytes fs m) /\
    forall b, 0 <= b < nb -> b <> inode_block fs n -> block_bytes fs' b = block_bytes fs b.
Proof.
  intros Hg Hl Hv Hi. pose proof (inode_block_bounds nb fs n Hg Hl Hv) as Hb.
  pose proof (inode_offset_bounds nb fs n Hg Hl) as Hoff. pose proof (il_size nb fs Hl) as Hs.
  destruct (block_bytes_ok nb fs (inode_block fs n) Hg Hb) as (_ & Hlen & Hok).
  assert (Hli : length (encode_inode i) = 128%nat).
  { destruct Hi as (_ & Hbl & _ & Ho & _). apply length_encode_inode; [by apply Forall2_length in Hbl | done]. }
  destruct (splice (block_bytes fs (inode_block fs n)) (inode_offset fs n) (encode_inode i)) as [buf| |] eqn:Esp;
    [|rewrite splice_ok in Esp by lia; done|rewrite splice_ok in Esp by lia; done].
  destruct (writeBlock_ok nb fs (inode_block fs n) buf Hg Hb) as (fs' & Ew & Hg' & Hsame & Eself & Hother).
  { rewrite (splice_length _ _ _ _ Esp). lia. }
  { apply (splice_bytes_ok _ _ _ _ Hok (inode_ok_bytes i Hi) Esp). }
  exists fs'. split_and!; try done.
  - unfold writeInode. rewrite (proj2 (Z.eqb_neq n 0)) by (unfold valid_inode in Hv; lia).
    step (inode_group_ok nb fs n Hl Hv). step (inode_location_ok nb fs n Hg Hl Hv). step_get.
    step (kmalloc_ok nb fs (block_size fs) Hg). step (readBlock_fresh nb fs _ Hg Hb). step Esp. done.
  - unfold inode_bytes. destruct (same_position fs fs' n Hsame) as [-> ->].
    rewrite Eself, <- Hli. apply (splice_self _ _ _ _ Esp).
  - intros m Hm Hne. eapply (inode_bytes_other nb fs fs' n m); try done. by rewrite Eself.
Qed.

(** ** Claims *)

(** An inode written with [writeInode] is read back by [readInode], byte
    for byte, whatever its variable held before; every other inode reads as
    before, and no block but the one of the inode table is touched. *)
Theorem writeInode_readInode nb fs n i out : geometry nb fs -> inode_layout nb fs -> valid_inode fs n -> inode_ok i ->
  length out = 128%nat ->
  exists fs', writeInode n i fs = Ok (true, fs') /\ geometry nb fs' /\ inode_layout nb fs' /\
    readInode n out fs' = Ok (Some i, fs') /\
    (forall m j, valid_inode fs m -> m <> n -> readInode m out fs = Ok (Some j, fs) -> readInode m out fs' = Ok (Some j, fs')) /\
    forall b, 0 <= b < nb -> b <> inode_block fs n -> block_bytes fs' b = block_bytes fs b.
Proof.
  intros Hg Hl Hv Hi Ho. destruct (writeInode_ok nb fs n i Hg Hl Hv Hi) as (fs' & E & Hg' & Hs & Eb & Hot & Hblk).
  pose proof (same_layout nb fs fs' Hs Hl) as Hl'.
  assert (Hval : forall m, valid_inode fs m -> valid_inode fs' m) by (unfold same_instance in Hs; by rewrite Hs).
  exists fs'. split_and!; try done.
  - apply (readInode_ok nb); [done | done | by apply Hval | done |]. rewrite Eb. by apply decode_encode_inode.
  - intros m j Hm Hne Er. destruct (decode_inode_total (inode_bytes fs m)) as [j' Ej].
    rewrite (readInode_ok nb fs m out j' Hg Hl Hm Ho Ej) in Er. injection Er as ->.
    apply (readInode_ok nb); [done | done | by apply Hval | done |]. by rewrite Hot.
Qed.
End proofs.
