(* ===== verification/Ext2Alloc.v ===== *)
(** Proofs about the allocation of blocks and inodes by the ext2 driver:
    bitmaps, free counts, and the superblock and group descriptors written
    back after every change. *)

From Stdlib Require Import ZifyBool.
From S2P Require Import Prelude Bytes Ext2Layout Ext2 Ext2Proofs Ext2Files.

(** ** Bits *)

Definition bit (bm : list Z) (i : Z) : bool := Z.testbit (nth (Z.to_nat (i / 8)) bm 0) (i mod 8).

Lemma div8_range i n : 0 <= i < 8 * n -> 0 <= i / 8 < n /\ 0 <= i mod 8 < 8.
Proof.
  intros Hi. split; [split; [apply Z.div_pos; lia | apply Z.div_lt_upper_bound; lia]|].
  apply Z.mod_pos_bound. lia.
Qed.

Lemma load_nth (bm : list Z) i : 0 <= i < Z.of_nat (length bm) -> load bm i = Ok (nth (Z.to_nat i) bm 0).
Proof.
  intros Hi. apply load_ok. split; [lia|]. destruct (lookup_lt_is_Some_2 bm (Z.to_nat i)) as [x Hx]; [lia|].
  by rewrite (nth_lookup_Some _ _ _ _ Hx).
Qed.

Lemma find_clear_spec n bm i : 0 <= i -> i + Z.of_nat n <= 8 * Z.of_nat (length bm) ->
  match find_clear n bm i with
  | Ok (Some k) => i <= k < i + Z.of_nat n /\ bit bm k = false /\ forall j, i <= j < k -> bit bm j = true
  | Ok None => forall j, i <= j < i + Z.of_nat n -> bit bm j = true
  | _ => False
  end.
Proof.
  revert i. induction n as [|n IH]; intros i Hi Hn; cbn [find_clear]; [simpl; lia|].
  destruct (div8_range i (Z.of_nat (length bm))) as [Hd Hm]; [lia|].
  run_call (load_nth bm (i / 8) Hd). rewrite has_one_shl by lia. fold (bit bm i).
  destruct (bit bm i) eqn:Eb; [|split; [lia|]; split; [done | lia]].
  specialize (IH (i + 1) ltac:(lia) ltac:(lia)). destruct (find_clear n bm (i + 1)) as [[k|]| |]; [| |done|done].
  - destruct IH as (Hk & Hc & Hall). split; [lia|]. split; [done|]. intros j Hj.
    destruct (decide (j = i)) as [->|]; [done | apply Hall; lia].
  - intros j Hj. destruct (decide (j = i)) as [->|]; [done | apply IH; lia].
Qed.

(** [bm'] is [bm] with bit [i] set to [v]. *)
Definition bit_update (bm : list Z) (i : Z) (v : bool) (bm' : list Z) : Prop :=
  length bm' = length bm /\ bytes_ok bm' /\
  forall j, 0 <= j < 8 * Z.of_nat (length bm) -> bit bm' j = if j =? i then v else bit bm j.

Lemma byte_update bm i x v : bytes_ok bm -> 0 <= i < 8 * Z.of_nat (length bm) -> 0 <= x < 2 ^ 8 ->
  (forall k, 0 <= k < 8 -> Z.testbit x k = if k =? i mod 8 then v else Z.testbit (nth (Z.to_nat (i / 8)) bm 0) k) ->
  bit_update bm i v (<[Z.to_nat (i / 8) := x]> bm).
Proof.
  intros Hb Hi Hx Hbits. destruct (div8_range i _ Hi) as [Hd Hm].
  split; [by rewrite length_insert|]. split; [by apply Forall_insert|].
  intros j Hj. destruct (div8_range j _ Hj) as [Hdj Hmj]. unfold bit.
  pose proof (Z.div_mod i 8 ltac:(lia)). pose proof (Z.div_mod j 8 ltac:(lia)).
  destruct (decide (j / 8 = i / 8)) as [E|Hne].
  - rewrite E. erewrite nth_lookup_Some by (apply list_lookup_insert_eq; lia).
    rewrite Hbits by done. destruct (Z.eqb_spec (j mod 8) (i mod 8)), (Z.eqb_spec j i); [done | lia | lia | done].
  - rewrite (proj2 (Z.eqb_neq j i)) by (intros ->; done).
    destruct (lookup_lt_is_Some_2 bm (Z.to_nat (j / 8))) as [y Hy]; [lia|].
    rewrite (nth_lookup_Some _ _ _ _ Hy). erewrite nth_lookup_Some; [done|].
    rewrite list_lookup_insert_ne by lia. done.
Qed.

Lemma nth_byte bm i : bytes_ok bm -> 0 <= i < Z.of_nat (length bm) -> 0 <= nth (Z.to_nat i) bm 0 < 2 ^ 8.
Proof.
  intros Hb Hi. destruct (lookup_lt_is_Some_2 bm (Z.to_nat i)) as [x Hx]; [lia|].
  rewrite (nth_lookup_Some _ _ _ _ Hx). by apply (Forall_lookup_1 _ _ _ _ Hb Hx).
Qed.

Lemma set_bit_ok bm i : bytes_ok bm -> 0 <= i < 8 * Z.of_nat (length bm) ->
  exists bm', set_bit bm i = Ok bm' /\ bit_update bm i true bm'.
Proof.
  intros Hb Hi. destruct (div8_range i _ Hi) as [Hd Hm]. unfold set_bit. run_call (load_nth bm (i / 8) Hd).
  rewrite store_in_range by done. eexists. split; [done|]. apply byte_update; [done | done | apply u8_range |].
  intros k Hk. rewrite u8_testbit, Z.lor_spec, testbit_one_shl by lia. rewrite (proj2 (Z.ltb_lt k 8)) by lia.
  rewrite (Z.eqb_sym (i mod 8)). destruct (k =? i mod 8); simpl; [apply orb_true_r | apply orb_false_r].
Qed.

Lemma clear_bit_ok bm i : bytes_ok bm -> 0 <= i < 8 * Z.of_nat (length bm) ->
  exists bm', clear_bit bm i = Ok bm' /\ bit_update bm i false bm'.
Proof.
  intros Hb Hi. destruct (div8_range i _ Hi) as [Hd Hm]. unfold clear_bit. run_call (load_nth bm (i / 8) Hd).
  rewrite store_in_range by done. eexists. split; [done|]. apply byte_update; [done | done | apply u8_range |].
  intros k Hk. rewrite u8_testbit, Z.land_spec, Z.lnot_spec, testbit_one_shl by lia. rewrite (proj2 (Z.ltb_lt k 8)) by lia.
  rewrite (Z.eqb_sym (i mod 8)). destruct (k =? i mod 8); simpl; [apply andb_false_r | apply andb_true_r].
Qed.

Section alloc.
Context {D : Type} `{BlockDevLaws D} `{UninitLaws}.
Implicit Types fs : FsInstance D.

(** ** Superblock and group descriptors *)

Definition fdb fs : Z := first_data_block (sb fs).
Definition gdt_blocks fs : Z := (32 * group_count fs + block_size fs - 1) / block_size fs.
Definition gdt_bytes fs : list Z := concat (encode_group <$> groups fs).

(** Where the driver keeps the superblock and the descriptors. *)
Record meta_layout (nb : Z) fs : Prop := mkMeta {
  ml_sb : sb_ok (sb fs);
  ml_groups : Forall group_ok (groups fs);
  ml_count : Z.of_nat (length (groups fs)) = group_count fs;
  ml_small : group_count fs <= 2 ^ 24;
  ml_fdb : 0 <= fdb fs /\ fdb fs * block_size fs <= 1024 /\ 2048 <= (fdb fs + 1) * block_size fs;
  ml_room : fdb fs + 1 + gdt_blocks fs <= nb;
}.

(** The blocks that hold them. *)
Definition reserved fs (b : Z) : Prop := fdb fs <= b < fdb fs + 1 + gdt_blocks fs.

Lemma length_concat_const {A} (ls : list (list A)) k : Forall (fun l => length l = k) ls ->
  length (concat ls) = (length ls * k)%nat.
Proof. induction 1 as [|l ls Hl _ IH]; simpl; [done|]. rewrite length_app, Hl, IH. lia. Qed.

Lemma length_gdt_bytes nb fs : meta_layout nb fs -> Z.of_nat (length (gdt_bytes fs)) = 32 * group_count fs.
Proof.
  intros Hm. unfold gdt_bytes. rewrite (length_concat_const _ 32).
  - rewrite length_fmap. pose proof (ml_count nb fs Hm). lia.
  - apply Forall_fmap. eapply Forall_impl; [|exact (ml_groups nb fs Hm)].
    intros g (_ & Hl & _). by apply length_encode_group.
Qed.

Lemma gdt_bytes_ok nb fs : meta_layout nb fs -> bytes_ok (gdt_bytes fs).
Proof.
  intros Hm. unfold gdt_bytes. apply Forall_concat, Forall_fmap.
  eapply Forall_impl; [|exact (ml_groups nb fs Hm)]. intros g (_ & _ & Hb).
  simpl. unfold encode_group. apply Forall_app. split; [apply pack_bytes_ok | done].
Qed.

Lemma gdt_room nb fs : geometry nb fs -> meta_layout nb fs ->
  0 <= gdt_blocks fs /\ 32 * group_count fs <= gdt_blocks fs * block_size fs /\ gdt_blocks fs * block_size fs < 2 ^ 30.
Proof.
  intros Hg Hm. pose proof (geometry_block_size nb fs Hg). pose proof (ml_count nb fs Hm). pose proof (ml_small nb fs Hm).
  unfold gdt_blocks. set (a := 32 * group_count fs) in *.
  pose proof (Z.div_mod (a + block_size fs - 1) (block_size fs) ltac:(lia)).
  pose proof (Z.mod_pos_bound (a + block_size fs - 1) (block_size fs) ltac:(lia)).
  split; [apply Z.div_pos; lia|]. nia.
Qed.

Lemma write_bgdt_ok nb n : forall fs start i buf, geometry nb fs -> 0 <= i -> 0 <= start ->
  start + i + Z.of_nat n <= nb -> (i + Z.of_nat n) * block_size fs <= Z.of_nat (length buf) ->
  Z.of_nat (length buf) < 2 ^ 32 -> bytes_ok buf ->
  exists fs', write_bgdt n start i buf fs = Ok (true, fs') /\ geometry nb fs' /\ same_instance fs fs' /\
    (forall j, i <= j < i + Z.of_nat n ->
       block_bytes fs' (start + j) = take (Z.to_nat (block_size fs)) (drop (Z.to_nat (j * block_size fs)) buf)) /\
    forall b, 0 <= b < nb -> b < start + i \/ start + i + Z.of_nat n <= b -> block_bytes fs' b = block_bytes fs b.
Proof.
  induction n as [|n IH]; intros fs start i buf Hg Hi Hs Hnb Hl Hsmall Hb.
  - exists fs. split; [done|]. split; [done|]. split; [by destruct fs|]. split; [simpl; lia | done].
  - pose proof (geometry_block_size nb fs Hg) as Hbs. pose proof (geo_blocks nb fs Hg).
    set (piece j := take (Z.to_nat (block_size fs)) (drop (Z.to_nat (j * block_size fs)) buf)).
    assert (Hpl : Z.of_nat (length (piece i)) = block_size fs) by (unfold piece; rewrite length_take, length_drop; nia).
    assert (Hpb : bytes_ok (piece i)) by by apply list.Forall_take, Forall_drop.
    destruct (writeBlock_ok nb fs (start + i) (piece i) Hg ltac:(lia) Hpl Hpb) as (fs1 & E1 & Hg1 & Hs1 & Eself & Hot1).
    assert (Ebs : block_size fs1 = block_size fs) by (unfold same_instance in Hs1; by rewrite Hs1).
    destruct (IH fs1 start (i + 1) buf) as (fs2 & E2 & Hg2 & Hs2 & Hin & Hout); [done|lia|lia|lia| |done|done|].
    { rewrite Ebs. lia. }
    rewrite Ebs in Hin. fold piece in Hin.
    exists fs2. split; [|split; [done|split; [|split]]].
    + cbn [write_bgdt]. step_get. rewrite (u32_small (i * block_size fs)), (u32_small (start + i)) by nia.
      step (slice_ok buf (i * block_size fs) (block_size fs) ltac:(nia) ltac:(lia) ltac:(nia)). fold (piece i).
      step E1. done.
    + unfold same_instance in *. rewrite Hs2, Hs1. done.
    + intros j Hj. fold (piece j). destruct (decide (j = i)) as [->|]; [|apply Hin; lia].
      rewrite Hout by lia. done.
    + intros b Hb' Hr. rewrite Hout by lia. apply Hot1; lia.
Qed.

(** The descriptors on the disk are those in memory. *)
Definition gdt_synced fs : Prop := forall j, 0 <= j < gdt_blocks fs ->
  block_bytes fs (fdb fs + 1 + j) = take (Z.to_nat (block_size fs)) (drop (Z.to_nat (j * block_size fs))
    (gdt_bytes fs ++ replicate (Z.to_nat (gdt_blocks fs * block_size fs) - length (gdt_bytes fs)) 0)).
Definition sb_synced fs : Prop := dev_read 2 2 (dev fs) = Some (encode_sb (sb fs)).

Lemma meta_same nb fs fs' : same_instance fs fs' -> meta_layout nb fs -> meta_layout nb fs'.
Proof. unfold same_instance. intros -> [? ? ? ? ? ?]. by constructor. Qed.

Lemma sb_fields_bound nb fs : meta_layout nb fs -> 0 <= fdb fs < 2 ^ 31.
Proof. intros Hm. destruct (ml_fdb nb fs Hm) as (? & ? & ?). nia. Qed.

Lemma writeGroupDescriptors_ok nb fs : geometry nb fs -> meta_layout nb fs ->
  exists fs', writeGroupDescriptors fs = Ok (true, fs') /\ geometry nb fs' /\ same_instance fs fs' /\ gdt_synced fs' /\
    forall b, 0 <= b < nb -> b <= fdb fs \/ fdb fs + 1 + gdt_blocks fs <= b -> block_bytes fs' b = block_bytes fs b.
Proof.
  intros Hg Hm. pose proof (gdt_room nb fs Hg Hm) as (Hr1 & Hr2 & Hr3). pose proof (geometry_block_size nb fs Hg).
  pose proof (ml_count nb fs Hm). pose proof (ml_small nb fs Hm). pose proof (sb_fields_bound nb fs Hm).
  pose proof (length_gdt_bytes nb fs Hm) as Hgl. pose proof (ml_room nb fs Hm).
  set (total := gdt_blocks fs * block_size fs) in *.
  set (buf := gdt_bytes fs ++ replicate (Z.to_nat total - length (gdt_bytes fs)) 0).
  assert (Hbl : Z.of_nat (length buf) = total) by (unfold buf; rewrite length_app, length_replicate; lia).
  destruct (write_bgdt_ok nb (Z.to_nat (gdt_blocks fs)) fs (fdb fs + 1) 0 buf) as (fs' & E & Hg' & Hs' & Hin & Hout);
    [done|lia|lia|lia| | lia | |].
  { unfold total in Hbl. lia. }
  { apply Forall_app. split; [by apply (gdt_bytes_ok nb) | by apply Forall_replicate]. }
  exists fs'. split; [|split; [done|split; [done|split]]].
  - unfold writeGroupDescriptors. step_get. fold (fdb fs). rewrite (u32_small (32 * group_count fs)) by lia.
    rewrite (u32_small (32 * group_count fs + block_size fs - 1)) by lia. rewrite (u32_small (fdb fs + 1)) by lia.
    step (udiv_ok (32 * group_count fs + block_size fs - 1) (block_size fs) ltac:(lia)).
    fold (gdt_blocks fs). fold total. rewrite (u32_small total) by lia. step (kmalloc_ok nb fs total Hg).
    assert (Esp : splice (replicate (Z.to_nat total) 0) 0 (take (Z.to_nat (32 * group_count fs)) (gdt_bytes fs)) = Ok buf).
    { rewrite take_ge by lia. rewrite splice_ok; [|lia|rewrite length_replicate; lia].
      cbn [Z.to_nat take app Nat.add]. unfold buf. by rewrite drop_replicate. }
    fold (gdt_bytes fs). step Esp. done.
  - unfold gdt_synced. intros j Hj. unfold same_instance in Hs'. rewrite Hs' in Hj |- * at 2 3 4 5 6 7 8.
    change (fdb (with_dev fs (dev fs'))) with (fdb fs). apply Hin. change (gdt_blocks (with_dev fs (dev fs'))) with (gdt_blocks fs) in Hj. lia.
  - intros b Hb Hr. apply Hout; [done | lia].
Qed.

Lemma writeSuperblock_ok nb fs : geometry nb fs -> meta_layout nb fs ->
  exists fs', writeSuperblock fs = Ok (true, fs') /\ geometry nb fs' /\ same_instance fs fs' /\ sb_synced fs' /\
    forall b, 0 <= b < nb -> b <> fdb fs -> block_bytes fs' b = block_bytes fs b.
Proof.
  intros Hg Hm. destruct (spb_mul nb fs Hg) as [Hmul Hr]. destruct (ml_fdb nb fs Hm) as (Hf1 & Hf2 & Hf3).
  pose proof (ml_room nb fs Hm). pose proof (gdt_room nb fs Hg Hm) as (Hr1 & _).
  pose proof (ml_sb nb fs Hm) as (_ & Htl & Htb).
  assert (Hel : length (encode_sb (sb fs)) = 1024%nat) by by apply length_encode_sb.
  destruct (dev_write_ok 512 (nb * spb fs) (dev fs) 2 2 (encode_sb (sb fs))) as (d' & Ew & Hwf & Er & Hframe);
    [apply Hg | lia | lia | nia | lia | apply Forall_app; split; [apply pack_bytes_ok | done] |].
  exists (with_dev fs d'). split; [|split; [|split; [done|split]]].
  - unfold writeSuperblock. step_get. rewrite (geo_sector nb fs Hg).
    step (udiv_ok 1024 512 ltac:(lia)). change (1024 / 512) with 2.
    step (slice_ok (encode_sb (sb fs)) 0 (2 * 512) ltac:(lia) ltac:(lia) ltac:(lia)).
    change (drop (Z.to_nat 0) (encode_sb (sb fs))) with (encode_sb (sb fs)). rewrite take_ge by lia. by rewrite Ew.
  - destruct Hg. by constructor.
  - done.
  - intros b Hb Hne. unfold block_bytes. change (spb (with_dev fs d')) with (spb fs). cbn [dev with_dev].
    rewrite Hframe; [done | nia | nia | nia |]. assert (b < fdb fs \/ fdb fs < b) as [Hlt|Hlt] by lia; [left | right]; nia.
Qed.

(** The instance with the free counts changed. *)
Definition counted fs (group dblocks dinodes : Z) (g : GroupDesc) : FsInstance D :=
  with_sb (with_groups fs (<[Z.to_nat group := group_with_free g (u16 (free_blocks_count g + dblocks))
      (u16 (free_inodes_count g + dinodes))]> (groups fs)))
    (sb_with_free (sb fs) (u32 (sb_free_blocks (sb fs) + dblocks)) (u32 (sb_free_inodes (sb fs) + dinodes))).

Lemma group_with_free_ok g a b : group_ok g -> group_ok (group_with_free g (u16 a) (u16 b)).
Proof.
  intros (Hf & Hl & Hb). split; [|done]. unfold fields_ok, group_widths, group_fields, group_with_free in *. cbn in *.
  repeat match goal with H : Forall2 _ (_ :: _) (_ :: _) |- _ => apply Forall2_cons_iff in H as [? H] end.
  repeat (constructor; [done || apply u16_range|]). constructor.
Qed.

Lemma sb_with_free_ok s a b : sb_ok s -> sb_ok (sb_with_free s (u32 a) (u32 b)).
Proof.
  intros (Hf & Hl & Hb). split; [|done]. unfold fields_ok, sb_widths, sb_fields, sb_with_free in *. cbn in *.
  repeat match goal with H : Forall2 _ (_ :: _) (_ :: _) |- _ => apply Forall2_cons_iff in H as [? H] end.
  repeat (constructor; [done || apply u32_range|]). constructor.
Qed.

Lemma counted_meta nb fs group db di g : meta_layout nb fs -> groups fs !! Z.to_nat group = Some g ->
  meta_layout nb (counted fs group db di g).
Proof.
  intros [Hsb Hgs Hc Hs Hf Hr] Hg. constructor; try done.
  - by apply sb_with_free_ok.
  - apply Forall_insert; [done|]. apply group_with_free_ok. by apply (Forall_lookup_1 _ _ _ _ Hgs Hg).
  - cbn. by rewrite length_insert.
Qed.

Lemma update_counts_ok nb fs group db di g : geometry nb fs -> meta_layout nb fs ->
  0 <= group < group_count fs -> groups fs !! Z.to_nat group = Some g ->
  exists fs', update_counts group db di fs = Ok (tt, fs') /\ geometry nb fs' /\
    same_instance (counted fs group db di g) fs' /\ gdt_synced fs' /\ sb_synced fs' /\
    forall b, 0 <= b < nb -> ~ reserved fs b -> block_bytes fs' b = block_bytes fs b.
Proof.
  intros Hg Hm Hgr Hlk. pose proof (ml_count nb fs Hm) as Hc.
  set (fs1 := counted fs group db di g).
  assert (Hg1 : geometry nb fs1) by (destruct Hg; by constructor).
  assert (Hm1 : meta_layout nb fs1) by by apply counted_meta.
  destruct (writeGroupDescriptors_ok nb fs1 Hg1 Hm1) as (fs2 & E2 & Hg2 & Hs2 & Hsync & Hout2).
  assert (Hm2 : meta_layout nb fs2) by by apply (meta_same nb fs1).
  destruct (writeSuperblock_ok nb fs2 Hg2 Hm2) as (fs3 & E3 & Hg3 & Hs3 & Hsb & Hout3).
  assert (Ef : fdb fs2 = fdb fs /\ gdt_blocks fs2 = gdt_blocks fs) by (unfold same_instance in Hs2; by rewrite Hs2).
  destruct Ef as [Ef Eg]. pose proof (gdt_room nb fs2 Hg2 Hm2) as (Hr1 & _).
  destruct (ml_fdb nb fs2 Hm2) as (Hf1 & _). pose proof (ml_room nb fs2 Hm2).
  exists fs3. split; [|split; [done|split; [|split; [|split; [done|]]]]].
  - unfold update_counts. step_get.
    assert (El : load (groups fs) group = Ok g) by (apply load_ok; split; [lia | done]). step El.
    step (store_in_range (groups fs) group (group_with_free g (u16 (free_blocks_count g + db)) (u16 (free_inodes_count g + di)))
      ltac:(lia)).
    assert (Ep : forall fs2, put fs2 fs = Ok (tt, fs2)) by done. step (Ep fs1). step E2. step E3. done.
  - unfold same_instance in *. rewrite Hs3, Hs2. done.
  - intros j Hj. assert (Eall : fdb fs3 = fdb fs2 /\ gdt_blocks fs3 = gdt_blocks fs2 /\ block_size fs3 = block_size fs2 /\
      gdt_bytes fs3 = gdt_bytes fs2) by (unfold same_instance in Hs3; by rewrite Hs3).
    destruct Eall as (E4 & E5 & E6 & E7). rewrite E5 in Hj. rewrite E4, E5, E6, E7.
    rewrite <- (Hsync j) by done. apply Hout3; lia.
  - intros b Hb Hnr. unfold reserved in Hnr. rewrite Hout3 by lia. rewrite Hout2; [done | done |].
    change (fdb fs1) with (fdb fs). change (gdt_blocks fs1) with (gdt_blocks fs). lia.
Qed.

(** ** Taking and releasing a bit *)

Lemma bitmap_bits nb fs b : geometry nb fs -> 0 <= b < nb ->
  8 * Z.of_nat (length (block_bytes fs b)) = 8 * block_size fs.
Proof. intros Hg Hb. destruct (block_bytes_ok nb fs b Hg Hb) as (_ & -> & _). done. Qed.

Lemma alloc_bit_ok nb fs bb n : geometry nb fs -> 0 <= bb < nb -> 0 <= n <= 8 * block_size fs ->
  (alloc_bit bb n fs = Ok (None, fs) /\ forall j, 0 <= j < n -> bit (block_bytes fs bb) j = true) \/
  exists i fs', alloc_bit bb n fs = Ok (Some i, fs') /\ 0 <= i < n /\ bit (block_bytes fs bb) i = false /\
    geometry nb fs' /\ same_instance fs fs' /\ bit_update (block_bytes fs bb) i true (block_bytes fs' bb) /\
    forall b, 0 <= b < nb -> b <> bb -> block_bytes fs' b = block_bytes fs b.
Proof.
  intros Hg Hb Hn. destruct (block_bytes_ok nb fs bb Hg Hb) as (_ & Hlen & Hok).
  pose proof (geometry_block_size nb fs Hg) as Hbs.
  unfold alloc_bit. step_get. step (kmalloc_ok nb fs (block_size fs) Hg). step (readBlock_fresh nb fs bb Hg Hb).
  set (bm := block_bytes fs bb) in *.
  pose proof (find_clear_spec (Z.to_nat n) bm 0 ltac:(lia) ltac:(lia)) as Hspec.
  destruct (find_clear (Z.to_nat n) bm 0) as [[i|]| |] eqn:Ef; [| |done|done].
  - right. destruct Hspec as (Hi & Hc & _). destruct (set_bit_ok bm i Hok ltac:(lia)) as (bm' & Es & Hu).
    pose proof Hu as (Hul & Hub & _).
    destruct (writeBlock_ok nb fs bb bm' Hg Hb ltac:(lia) Hub) as (fs' & Ew & Hg' & Hs' & Eself & Hot).
    exists i, fs'. rewrite Eself. split; [|split_and!; try done; lia].
    rewrite (run_lift (D := D) (Ok (Some i)) _ fs (Some i) eq_refl). cbn beta iota. step Es.
    assert (s32 i = i) as Esi.
    { unfold s32, sgn. rewrite Z.mod_small by lia. case_if; lia. }
    rewrite Esi, (proj2 (Z.ltb_ge i 0)) by lia. step Ew. done.
  - left. split; [done|]. intros j Hj. apply Hspec. lia.
Qed.

Lemma free_bit_ok nb fs bb i : geometry nb fs -> 0 <= bb < nb -> 0 <= i < 8 * block_size fs ->
  exists bm' fs', clear_bit (block_bytes fs bb) i = Ok bm' /\ writeBlock bb bm' fs = Ok (true, fs') /\
    geometry nb fs' /\ same_instance fs fs' /\ bit_update (block_bytes fs bb) i false (block_bytes fs' bb) /\
    forall b, 0 <= b < nb -> b <> bb -> block_bytes fs' b = block_bytes fs b.
Proof.
  intros Hg Hb Hi. destruct (block_bytes_ok nb fs bb Hg Hb) as (_ & Hlen & Hok).
  destruct (clear_bit_ok (block_bytes fs bb) i Hok ltac:(lia)) as (bm' & Es & Hu). pose proof Hu as (Hul & Hub & _).
  destruct (writeBlock_ok nb fs bb bm' Hg Hb ltac:(lia) Hub) as (fs' & Ew & Hg' & Hs' & Eself & Hot).
  exists bm', fs'. rewrite Eself. split_and!; done.
Qed.

(** ** Blocks *)

Definition bpg fs : Z := block_per_group (sb fs).

(** The block bitmaps lie on the disk, outside the reserved blocks and each in
    a block of its own, and the groups cover the blocks of the file system. *)
Record block_layout (nb : Z) fs : Prop := mkBlockLayout {
  bl_bpg : 0 < bpg fs <= 8 * block_size fs;
  bl_total : fdb fs <= blocks_count (sb fs) <= nb;
  bl_cover : (group_count fs - 1) * bpg fs <= blocks_count (sb fs) - fdb fs <= group_count fs * bpg fs;
  bl_bitmap : forall g gd, groups fs !! g = Some gd -> 0 <= block_bitmap gd < nb /\ ~ reserved fs (block_bitmap gd);
  bl_distinct : forall g g' gd gd', groups fs !! g = Some gd -> groups fs !! g' = Some gd' ->
    block_bitmap gd = block_bitmap gd' -> g = g';
}.

Definition fs_block fs (b : Z) : Prop := fdb fs <= b < blocks_count (sb fs).

Definition block_group fs (b : Z) : Z := (b - fdb fs) / bpg fs.
Definition block_index fs (b : Z) : Z := (b - fdb fs) mod bpg fs.
Definition bitmap_of fs (g : Z) : Z :=
  block_bitmap (nth (Z.to_nat g) (groups fs) (mkGroup 0 0 0 0 0 0 0 [])).

(** The bit of the block bitmap that says whether block [b] is in use. *)
Definition block_used fs (b : Z) : bool :=
  bit (block_bytes fs (bitmap_of fs (block_group fs b))) (block_index fs b).

Lemma block_group_range nb fs b : meta_layout nb fs -> block_layout nb fs -> fs_block fs b ->
  0 <= block_group fs b < group_count fs /\ 0 <= block_index fs b < bpg fs /\
  b = fdb fs + block_group fs b * bpg fs + block_index fs b /\
  exists gd, groups fs !! Z.to_nat (block_group fs b) = Some gd /\ bitmap_of fs (block_group fs b) = block_bitmap gd.
Proof.
  intros Hm Hl Hb. pose proof (bl_bpg nb fs Hl). pose proof (bl_cover nb fs Hl). pose proof (ml_count nb fs Hm).
  unfold fs_block, block_group, block_index in *.
  assert (Hr : 0 <= (b - fdb fs) / bpg fs < group_count fs).
  { split; [apply Z.div_pos; lia | apply Z.div_lt_upper_bound; lia]. }
  split; [done|]. split; [apply Z.mod_pos_bound; lia|].
  split; [pose proof (Z.div_mod (b - fdb fs) (bpg fs) ltac:(lia)); lia|].
  destruct (lookup_lt_is_Some_2 (groups fs) (Z.to_nat ((b - fdb fs) / bpg fs))) as [gd Hgd]; [lia|].
  exists gd. split; [done|]. unfold bitmap_of. by rewrite (nth_lookup_Some _ _ _ _ Hgd).
Qed.

Lemma group_index_of fs g i : 0 < bpg fs -> 0 <= i < bpg fs ->
  block_group fs (fdb fs + g * bpg fs + i) = g /\ block_index fs (fdb fs + g * bpg fs + i) = i.
Proof.
  intros Hb Hi. unfold block_group, block_index. replace (fdb fs + g * bpg fs + i - fdb fs) with (i + g * bpg fs) by lia.
  rewrite Z.div_add, Z.mod_add, Z.div_small, Z.mod_small by lia. lia.
Qed.

Lemma same_lookup fs fs' g db di gd k gd' : groups fs !! Z.to_nat g = Some gd ->
  same_instance (counted fs g db di gd) fs' -> groups fs' !! k = Some gd' ->
  exists gd0, groups fs !! k = Some gd0 /\ block_bitmap gd' = block_bitmap gd0 /\
    inode_bitmap gd' = inode_bitmap gd0 /\ inode_table gd' = inode_table gd0.
Proof.
  unfold same_instance. intros Hg -> Hk. cbn in Hk. destruct (decide (k = Z.to_nat g)) as [->|Hne].
  - rewrite list_lookup_insert_eq in Hk by by eapply lookup_lt_Some. injection Hk as <-. by exists gd.
  - rewrite list_lookup_insert_ne in Hk by done. by exists gd'.
Qed.

Lemma same_bitmap_of fs fs' g db di gd k : groups fs !! Z.to_nat g = Some gd ->
  same_instance (counted fs g db di gd) fs' -> bitmap_of fs' k = bitmap_of fs k.
Proof.
  unfold same_instance. intros Hg ->. unfold bitmap_of. cbn.
  destruct (decide (Z.to_nat k = Z.to_nat g)) as [->|Hne].
  - rewrite (nth_lookup_Some _ _ _ _ Hg). erewrite nth_lookup_Some; [|apply list_lookup_insert_eq; by eapply lookup_lt_Some].
    done.
  - rewrite !nth_lookup. rewrite list_lookup_insert_ne by done. done.
Qed.

Lemma counted_block_layout nb fs fs' g db di gd : groups fs !! Z.to_nat g = Some gd ->
  same_instance (counted fs g db di gd) fs' -> block_layout nb fs -> block_layout nb fs'.
Proof.
  intros Hg Hs [H1' H2' H3 H4 H5]. assert (E : bpg fs' = bpg fs /\ fdb fs' = fdb fs /\ group_count fs' = group_count fs /\
    blocks_count (sb fs') = blocks_count (sb fs) /\ block_size fs' = block_size fs) by (unfold same_instance in Hs; by rewrite Hs).
  destruct E as (E1 & E2 & E3 & E4 & E5).
  constructor; try (rewrite ?E1, ?E2, ?E3, ?E4, ?E5; done).
  - intros k gd' Hk. destruct (same_lookup fs fs' g db di gd k gd' Hg Hs Hk) as (gd0 & Hk0 & -> & _).
    unfold reserved, gdt_blocks. rewrite E2, E3, E5. by apply (H4 k).
  - intros k k' gd1 gd2 Hk Hk' Eb. destruct (same_lookup fs fs' g db di gd k gd1 Hg Hs Hk) as (a & Ha & Ea & _).
    destruct (same_lookup fs fs' g db di gd k' gd2 Hg Hs Hk') as (b & Hb & Ebb & _). apply (H5 k k' a b); congruence.
Qed.

(** Block [b] becomes used ([v = true]) or free, and nothing else changes but
    the counts and the disk copies of superblock and descriptors. *)
Record block_change (nb : Z) fs fs' (b : Z) (v : bool) (db : Z) : Prop := mkChange {
  bc_geometry : geometry nb fs';
  bc_meta : meta_layout nb fs';
  bc_layout : block_layout nb fs';
  bc_synced : gdt_synced fs' /\ sb_synced fs';
  bc_counts : exists gd, groups fs !! Z.to_nat (block_group fs b) = Some gd /\
    same_instance (counted fs (block_group fs b) db 0 gd) fs';
  bc_used : forall b', fs_block fs b' -> block_used fs' b' = if b' =? b then v else block_used fs b';
  bc_frame : forall c, 0 <= c < nb -> ~ reserved fs c -> c <> bitmap_of fs (block_group fs b) ->
    block_bytes fs' c = block_bytes fs c;
}.

Lemma block_change_intro nb fs fs1 g i gd v db : geometry nb fs -> meta_layout nb fs -> block_layout nb fs ->
  0 <= g < group_count fs -> 0 <= i < bpg fs -> groups fs !! Z.to_nat g = Some gd ->
  geometry nb fs1 -> same_instance fs fs1 ->
  bit_update (block_bytes fs (block_bitmap gd)) i v (block_bytes fs1 (block_bitmap gd)) ->
  (forall c, 0 <= c < nb -> c <> block_bitmap gd -> block_bytes fs1 c = block_bytes fs c) ->
  exists fs2, update_counts g db 0 fs1 = Ok (tt, fs2) /\ block_change nb fs fs2 (fdb fs + g * bpg fs + i) v db.
Proof.
  intros Hg Hm Hl Hgr Hi Hgd Hg1 Hs1 Hu Hot1. pose proof (bl_bpg nb fs Hl) as Hbpg.
  destruct (bl_bitmap nb fs Hl _ _ Hgd) as [Hbb Hbr].
  assert (Egs : groups fs1 = groups fs /\ group_count fs1 = group_count fs /\ (forall c, reserved fs1 c <-> reserved fs c))
    by (unfold same_instance in Hs1; by rewrite Hs1). destruct Egs as (Egs & Egc & Ers).
  destruct (update_counts_ok nb fs1 g db 0 gd Hg1 (meta_same nb fs fs1 Hs1 Hm)) as (fs2 & E & Hg2 & Hs2 & Hsy1 & Hsy2 & Hot2);
    [by rewrite Egc | by rewrite Egs |].
  exists fs2. split; [done|]. destruct (group_index_of fs g i ltac:(lia) Hi) as [Eg Ei].
  assert (Hs02 : same_instance (counted fs g db 0 gd) fs2).
  { unfold same_instance in *. rewrite Hs2 at 1. rewrite Hs1. done. }
  assert (Hm2 : meta_layout nb fs2) by (apply (meta_same nb _ _ Hs02); by apply counted_meta).
  constructor; [done | done | by eapply (counted_block_layout nb fs) | done | rewrite Eg; by exists gd | |].
  - intros b' Hb'. destruct (block_group_range nb fs b' Hm Hl Hb') as (Hg' & Hi' & Eb' & gd' & Hgd' & Ebm).
    unfold block_used. assert (Esame : block_group fs2 b' = block_group fs b' /\ block_index fs2 b' = block_index fs b').
    { unfold same_instance in Hs02. by rewrite Hs02. } destruct Esame as [-> ->].
    rewrite (same_bitmap_of fs fs2 g db 0 gd _ Hgd Hs02), Ebm.
    destruct (bl_bitmap nb fs Hl _ _ Hgd') as [Hbb' Hbr'].
    rewrite Hot2 by (done || by rewrite Ers).
    destruct (decide (block_group fs b' = g)) as [Egg|Hne].
    + rewrite Egg in Hgd', Eb'. rewrite Hgd in Hgd'. injection Hgd' as <-. destruct Hu as (_ & _ & Hbits).
      rewrite Hbits by (rewrite (bitmap_bits nb fs) by done; lia).
      destruct (Z.eqb_spec (block_index fs b') i), (Z.eqb_spec b' (fdb fs + g * bpg fs + i)); [done | lia | lia | done].
    + rewrite Hot1; [|done|].
      * rewrite (proj2 (Z.eqb_neq _ _)); [done|]. intros ->. by rewrite Eg in Hne.
      * intros Eq. apply Hne. pose proof (bl_distinct nb fs Hl _ _ _ _ Hgd' Hgd Eq). lia.
  - intros c Hc Hr Hne. rewrite Eg in Hne. unfold bitmap_of in Hne. rewrite (nth_lookup_Some _ _ _ _ Hgd) in Hne.
    rewrite Hot2 by (done || by rewrite Ers). by apply Hot1.
Qed.

(** Blocks of group [g] that the allocator looks at. *)
Definition in_group fs (g b : Z) : Prop := fs_block fs b /\ block_group fs b = g.

Lemma allocBlockInGroup_ok nb fs g : geometry nb fs -> meta_layout nb fs -> block_layout nb fs ->
  0 <= g < group_count fs -> (fdb fs = 0 -> block_used fs 0 = true) ->
  (allocBlockInGroup g fs = Ok (0, fs) /\
     (free_blocks_count (nth (Z.to_nat g) (groups fs) (mkGroup 0 0 0 0 0 0 0 [])) = 0 \/
      forall b, in_group fs g b -> block_used fs b = true)) \/
  exists b fs', allocBlockInGroup g fs = Ok (b, fs') /\ b <> 0 /\ fs_block fs b /\ block_used fs b = false /\
    block_change nb fs fs' b true (-1).
Proof.
  intros Hg Hm Hl Hgr Hz. destruct (lookup_lt_is_Some_2 (groups fs) (Z.to_nat g)) as [gd Hgd].
  { pose proof (ml_count nb fs Hm). lia. }
  rewrite (nth_lookup_Some _ _ _ _ Hgd). pose proof (bl_bpg nb fs Hl) as Hbpg. pose proof (bl_total nb fs Hl) as Htot.
  pose proof (bl_cover nb fs Hl) as Hcov. pose proof (ml_fdb nb fs Hm) as (Hf & _). pose proof (geo_blocks nb fs Hg) as Hnb.
  destruct (bl_bitmap nb fs Hl _ _ Hgd) as [Hbb Hbr].
  unfold allocBlockInGroup. step_get. rewrite (proj2 (Z.leb_gt _ _)) by lia.
  assert (El : load (groups fs) g = Ok gd) by (apply load_ok; split; [lia | done]). step El.
  destruct (Z.eqb_spec (free_blocks_count gd) 0) as [E0|_]; [left; split; [done | by left]|].
  cbv zeta. fold (fdb fs) (bpg fs). set (bc := blocks_count (sb fs)) in *.
  rewrite (u32_small (bc - fdb fs)), (u32_small (bc - fdb fs - g * bpg fs)) by nia.
  set (n := if bc - fdb fs - g * bpg fs <? bpg fs then bc - fdb fs - g * bpg fs else bpg fs).
  assert (Hn : 0 <= n <= bpg fs /\ forall i, 0 <= i < bpg fs -> (fdb fs + g * bpg fs + i < bc <-> i < n)).
  { unfold n. destruct (Z.ltb_spec (bc - fdb fs - g * bpg fs) (bpg fs)); split; [nia | intros; lia | lia | intros; nia]. }
  destruct Hn as [Hn Hni].
  destruct (alloc_bit_ok nb fs (block_bitmap gd) n Hg Hbb ltac:(lia)) as
    [[E Hall]|(i & fs1 & E & Hi & Hc & Hg1 & Hs1 & Hu & Hot)].
  - left. step E. split; [done|]. right. intros b [Hb Hbg].
    destruct (block_group_range nb fs b Hm Hl Hb) as (_ & Hidx & Eb & gd' & Hgd' & Ebm).
    rewrite Hbg in Hgd', Ebm, Eb. rewrite Hgd in Hgd'. injection Hgd' as <-.
    unfold block_used. rewrite Hbg, Ebm. apply Hall. split; [lia|]. apply (Hni _ Hidx). rewrite <- Eb.
    unfold fs_block in Hb. fold bc in Hb. lia.
  - right. destruct (group_index_of fs g i ltac:(lia) ltac:(lia)) as [Eg Ei].
    set (b := fdb fs + g * bpg fs + i). assert (Hb : fdb fs <= b < bc) by (pose proof (Hni i ltac:(lia)); nia).
    destruct (block_change_intro nb fs fs1 g i gd true (-1)) as (fs2 & E2 & Hch); try done; [lia|].
    exists b, fs2. step E. step E2. fold b. rewrite u32_small by lia.
    assert (Hfree : block_used fs b = false).
    { unfold block_used. subst b. rewrite Eg, Ei. unfold bitmap_of. by rewrite (nth_lookup_Some _ _ _ _ Hgd). }
    split; [done|]. split; [|done]. intros Eb0. rewrite Eb0 in Hfree. rewrite Hz in Hfree by lia. done.
Qed.

(** A search over the groups: each attempt fails and leaves everything as it
    is, or succeeds. *)
Lemma first_group_rule (alloc : Z -> FS D Z) (full : Z -> Prop) (done_with : Z -> FsInstance D -> Prop) fs :
  0 < group_count fs ->
  (forall g, 0 <= g < group_count fs ->
     (alloc g fs = Ok (0, fs) /\ full g) \/
     exists r fs', alloc g fs = Ok (r, fs') /\ r <> 0 /\ done_with r fs') ->
  forall n i, 0 <= i -> i + Z.of_nat n <= group_count fs -> group_count fs < 2 ^ 32 ->
    (first_group n alloc 0 i fs = Ok (0, fs) /\ forall g, i <= g < i + Z.of_nat n -> full g) \/
    exists r fs', first_group n alloc 0 i fs = Ok (r, fs') /\ r <> 0 /\ done_with r fs'.
Proof.
  intros Hgc Hstep. induction n as [|n IH]; intros i Hi Hn Hs.
  - left. split; [done | simpl; lia].
  - cbn [first_group]. rewrite run_get. cbn beta iota. rewrite u32_small, Z.add_0_l, Z.mod_small by lia.
    destruct (Hstep i ltac:(lia)) as [[E Hf]|(r & fs' & E & Hr & Hd)].
    + rewrite (run_bind _ _ _ _ _ E). cbn [Z.eqb negb].
      destruct (IH (i + 1)) as [[E' Hall]|(r & fs' & E' & Hr & Hd)]; [lia | lia | done | left | right].
      * split; [done|]. intros g Hg. destruct (decide (g = i)) as [->|]; [done | apply Hall; lia].
      * by exists r, fs'.
    + right. exists r, fs'. rewrite (run_bind _ _ _ _ _ E), (proj2 (Z.eqb_neq r 0)) by done. done.
Qed.

(** No group has a block left: its count says so, or every block is in use. *)
Definition group_full fs (g : Z) : Prop :=
  free_blocks_count (nth (Z.to_nat g) (groups fs) (mkGroup 0 0 0 0 0 0 0 [])) = 0 \/
  forall b, in_group fs g b -> block_used fs b = true.

Lemma allocBlock_ok nb fs : geometry nb fs -> meta_layout nb fs -> block_layout nb fs ->
  (fdb fs = 0 -> block_used fs 0 = true) ->
  (allocBlock 0 fs = Ok (0, fs) /\ forall g, 0 <= g < group_count fs -> group_full fs g) \/
  exists b fs', allocBlock 0 fs = Ok (b, fs') /\ b <> 0 /\ fs_block fs b /\ block_used fs b = false /\
    block_change nb fs fs' b true (-1).
Proof.
  intros Hg Hm Hl Hz. pose proof (ml_count nb fs Hm). pose proof (ml_small nb fs Hm).
  unfold allocBlock. step_get. destruct (decide (group_count fs = 0)) as [E0|Hne].
  { left. rewrite E0. split; [done | lia]. }
  destruct (first_group_rule allocBlockInGroup (group_full fs) (fun b fs' => fs_block fs b /\ block_used fs b = false /\
    block_change nb fs fs' b true (-1)) fs ltac:(lia)) with (n := Z.to_nat (group_count fs)) (i := 0)
    as [[E Hall]|(b & fs' & E & Hb & Hd)]; [|lia|lia|lia| |].
  - intros g Hgr. destruct (allocBlockInGroup_ok nb fs g Hg Hm Hl Hgr Hz) as [?|(b & fs' & E & Hb & Hrest)]; [by left|].
    right. by exists b, fs'.
  - left. split; [done|]. intros g Hgr. apply Hall. lia.
  - right. by exists b, fs'.
Qed.

Lemma freeBlock_ok nb fs b : geometry nb fs -> meta_layout nb fs -> block_layout nb fs -> fs_block fs b -> b <> 0 ->
  exists fs', freeBlock b fs = Ok (true, fs') /\ block_change nb fs fs' b false 1.
Proof.
  intros Hg Hm Hl Hb Hb0. pose proof (bl_bpg nb fs Hl) as Hbpg. pose proof (bl_total nb fs Hl) as Htot.
  pose proof (ml_fdb nb fs Hm) as (Hf & _). pose proof (geo_blocks nb fs Hg) as Hnb.
  destruct (block_group_range nb fs b Hm Hl Hb) as (Hgr & Hidx & Eb & gd & Hgd & Ebm).
  destruct (bl_bitmap nb fs Hl _ _ Hgd) as [Hbb Hbr]. unfold fs_block in Hb.
  destruct (free_bit_ok nb fs (block_bitmap gd) (block_index fs b) Hg Hbb ltac:(lia))
    as (bm' & fs1 & Ec & Ew & Hg1 & Hs1 & Hu & Hot).
  destruct (block_change_intro nb fs fs1 (block_group fs b) (block_index fs b) gd false 1) as (fs2 & E2 & Hch); try done.
  rewrite <- Eb in Hch. exists fs2. split; [|done].
  unfold freeBlock. rewrite (proj2 (Z.eqb_neq b 0)) by done. step_get. fold (fdb fs) (bpg fs).
  rewrite u32_small by lia. step (udiv_ok (b - fdb fs) (bpg fs) ltac:(lia)). step (umod_ok (b - fdb fs) (bpg fs) ltac:(lia)).
  fold (block_group fs b) (block_index fs b). rewrite (proj2 (Z.leb_gt _ _)) by lia.
  step (kmalloc_ok nb fs (block_size fs) Hg).
  assert (El : load (groups fs) (block_group fs b) = Ok gd) by (apply load_ok; split; [lia | done]). step El.
  step (readBlock_fresh nb fs (block_bitmap gd) Hg Hbb). step Ec. step Ew. cbn [negb]. step E2. done.
Qed.

Lemma u32_undo x d : 0 <= x < 2 ^ 32 -> u32 (u32 (x + d) + - d) = x.
Proof. intros Hx. unfold u32. rewrite Zplus_mod_idemp_l. replace (x + d + - d) with x by lia. by apply Z.mod_small. Qed.

Lemma u16_undo x d : 0 <= x < 2 ^ 16 -> u16 (u16 (x + d) + - d) = x.
Proof. intros Hx. unfold u16. rewrite Zplus_mod_idemp_l. replace (x + d + - d) with x by lia. by apply Z.mod_small. Qed.

Lemma sb_free_range s : sb_ok s -> 0 <= sb_free_blocks s < 2 ^ 32 /\ 0 <= sb_free_inodes s < 2 ^ 32.
Proof.
  intros (Hf & _). unfold fields_ok, sb_widths, sb_fields in Hf. cbn in Hf.
  repeat match goal with H : Forall2 _ (_ :: _) (_ :: _) |- _ => apply Forall2_cons_iff in H as [? H] end. done.
Qed.

Lemma group_free_range g : group_ok g -> 0 <= free_blocks_count g < 2 ^ 16 /\ 0 <= free_inodes_count g < 2 ^ 16.
Proof.
  intros (Hf & _). unfold fields_ok, group_widths, group_fields in Hf. cbn in Hf.
  repeat match goal with H : Forall2 _ (_ :: _) (_ :: _) |- _ => apply Forall2_cons_iff in H as [? H] end. done.
Qed.

(** Counting up again restores the counts. *)
Lemma counted_undo nb fs fs1 fs2 g d gd gd1 : meta_layout nb fs -> groups fs !! Z.to_nat g = Some gd ->
  same_instance (counted fs g (- d) 0 gd) fs1 -> groups fs1 !! Z.to_nat g = Some gd1 ->
  same_instance (counted fs1 g d 0 gd1) fs2 -> sb fs2 = sb fs /\ groups fs2 = groups fs.
Proof.
  intros Hm Hgd Hs1 Hgd1 Hs2. unfold same_instance in *. rewrite Hs2. rewrite Hs1 in Hgd1 |- *. cbn in Hgd1 |- *.
  rewrite list_lookup_insert_eq in Hgd1 by by eapply lookup_lt_Some. injection Hgd1 as <-. cbn.
  destruct (sb_free_range _ (ml_sb nb fs Hm)) as [Hx Hy].
  pose proof (Forall_lookup_1 _ _ _ _ (ml_groups nb fs Hm) Hgd) as Hgok. destruct (group_free_range _ Hgok) as [Hx' Hy'].
  split.
  - unfold sb_with_free. cbn. pose proof (u32_undo _ (- d) Hx) as E1. pose proof (u32_undo _ 0 Hy) as E2.
    rewrite Z.opp_involutive in E1. rewrite E1. change (- 0) with 0 in E2. rewrite E2. by destruct (sb fs).
  - rewrite list_insert_insert_eq. apply list_insert_id. rewrite Hgd. f_equal. unfold group_with_free. cbn.
    pose proof (u16_undo _ (- d) Hx') as E1. pose proof (u16_undo _ 0 Hy') as E2.
    rewrite Z.opp_involutive in E1. rewrite E1. change (- 0) with 0 in E2. rewrite E2. by destruct gd.
Qed.

(** ** Claims *)

(** C5. [allocBlock] returns 0 and changes nothing only when every group is
    full; otherwise it returns a block of the file system that was free, which
    is then marked in use.  No other block changes its state, the free counts
    go down by one, superblock and descriptors are written back, and no block
    of the disk outside them and the bitmap is touched. *)
Theorem allocBlock_correct nb fs : geometry nb fs -> meta_layout nb fs -> block_layout nb fs ->
  (fdb fs = 0 -> block_used fs 0 = true) ->
  (allocBlock 0 fs = Ok (0, fs) /\ forall g, 0 <= g < group_count fs -> group_full fs g) \/
  exists b fs', allocBlock 0 fs = Ok (b, fs') /\ b <> 0 /\ fs_block fs b /\ block_used fs b = false /\
    block_change nb fs fs' b true (-1).
Proof. apply allocBlock_ok. Qed.

(** [freeBlock] after [allocBlock] gives the block back: the same blocks
    are in use as before, and the free counts are restored. *)
Theorem freeBlock_undoes_allocBlock nb fs b fs1 : geometry nb fs -> meta_layout nb fs -> block_layout nb fs ->
  (fdb fs = 0 -> block_used fs 0 = true) -> allocBlock 0 fs = Ok (b, fs1) -> b <> 0 ->
  exists fs2, freeBlock b fs1 = Ok (true, fs2) /\ sb fs2 = sb fs /\ groups fs2 = groups fs /\
    (forall b', fs_block fs b' -> block_used fs2 b' = block_used fs b') /\
    forall c, 0 <= c < nb -> ~ reserved fs c -> c <> bitmap_of fs (block_group fs b) ->
      block_bytes fs2 c = block_bytes fs c.
Proof.
  intros Hg Hm Hl Hz Ea Hb0. destruct (allocBlock_ok nb fs Hg Hm Hl Hz) as [[E _]|(b' & fs' & E & _ & Hb & Hfree & Hch)].
  { rewrite Ea in E. by injection E as -> _. }
  rewrite Ea in E. injection E as <- <-. destruct Hch as [Hg1 Hm1 Hl1 _ (gd & Hgd & Hs1) Hu1 Hf1].
  assert (Es : fdb fs1 = fdb fs /\ blocks_count (sb fs1) = blocks_count (sb fs) /\ bpg fs1 = bpg fs /\
    gdt_blocks fs1 = gdt_blocks fs) by (unfold same_instance in Hs1; by rewrite Hs1).
  destruct Es as (E1 & E2 & E3 & E4).
  assert (Hsame : forall c, fs_block fs1 c <-> fs_block fs c) by (intros; unfold fs_block; by rewrite E1, E2).
  assert (Hgrp : block_group fs1 b = block_group fs b) by (unfold block_group; by rewrite E1, E3).
  destruct (freeBlock_ok nb fs1 b Hg1 Hm1 Hl1) as (fs2 & Efree & Hch2); [by apply Hsame | done |].
  destruct Hch2 as [Hg2 Hm2 Hl2 _ (gd1 & Hgd1 & Hs2) Hu2 Hf2]. exists fs2. split; [done|].
  rewrite Hgrp in Hgd1, Hs2.
  destruct (counted_undo nb fs fs1 fs2 _ 1 gd gd1 Hm Hgd Hs1 Hgd1 Hs2) as [-> ->]. split; [done|]. split; [done|]. split.
  - intros c Hc. rewrite Hu2 by by apply Hsame. destruct (Z.eqb_spec c b) as [->|Hne]; [done|].
    rewrite Hu1, (proj2 (Z.eqb_neq c b)) by done. done.
  - intros c Hc Hr Hne. rewrite Hf2, Hf1; try done.
    + unfold reserved. by rewrite E1, E4.
    + rewrite Hgrp. rewrite (same_bitmap_of fs fs1 _ _ _ gd _ Hgd Hs1). done.
Qed.
End alloc.
