(* ===== verification/Ext2Mount.v ===== *)
(** Mounting an ext2 file system: [mount] reads back the superblock and the
    group descriptors that the driver wrote. *)

From Stdlib Require Import ZifyBool.
From S2P Require Import Prelude Bytes Ext2Layout Ext2 Ext2Proofs Ext2Files Ext2Alloc.

Lemma decode_groups_ok gs rest : Forall group_ok gs ->
  decode_groups (length gs) (concat (encode_group <$> gs) ++ rest) = Ok gs.
Proof.
  induction 1 as [|g gs Hg Hgs IH]; [done|]. cbn [length decode_groups fmap list_fmap concat].
  pose proof Hg as (_ & Hl & _). pose proof (length_encode_group g Hl) as Hel. rewrite <- app_assoc.
  set (tl := concat (encode_group <$> gs) ++ rest) in *.
  assert (Es : slice (encode_group g ++ tl) 0 32 = Ok (encode_group g)).
  { rewrite slice_ok by (rewrite ?length_app; lia). change (Z.to_nat 32) with 32%nat. rewrite <- Hel. apply f_equal, take_app_length. }
  run_call Es. run_call (decode_encode_group g Hg).
  assert (Ed : drop 32 (encode_group g ++ tl) = tl) by (rewrite <- Hel; apply drop_app_length).
  rewrite Ed. run_call IH. done.
Qed.

Section mount.
Context {D : Type} `{BlockDevLaws D} `{UninitLaws}.
Implicit Types fs : FsInstance D.

Lemma read_bgdt_ok nb fs start B : geometry nb fs -> 0 <= start -> Z.of_nat (length B) < 2 ^ 31 ->
  forall n i rest, 0 <= i -> start + i + Z.of_nat n <= nb ->
    (i + Z.of_nat n) * block_size fs = Z.of_nat (length B) -> Z.of_nat (length rest) = Z.of_nat n * block_size fs ->
    (forall j, i <= j < i + Z.of_nat n ->
       block_bytes fs (start + j) = take (Z.to_nat (block_size fs)) (drop (Z.to_nat (j * block_size fs)) B)) ->
    read_bgdt n start i (take (Z.to_nat (i * block_size fs)) B ++ rest) fs = Ok (Some B, fs).
Proof.
  intros Hg Hst HB. pose proof (geometry_block_size nb fs Hg) as Hbs. pose proof (geo_blocks nb fs Hg) as Hnb.
  destruct (spb_mul nb fs Hg) as [Hmul Hr].
  induction n as [|n IH]; intros i rest Hi Hroom HlB Hrest Hblk; cbn [read_bgdt].
  - assert (rest = []) as -> by (apply nil_length_inv; lia). rewrite app_nil_r, take_ge by lia. done.
  - step_get. rewrite (u32_small (start + i)), (u32_small (i * block_size fs)) by nia.
    set (bs := block_size fs) in *. set (piece := take (Z.to_nat bs) (drop (Z.to_nat (i * bs)) B)) in *.
    assert (Hpl : length piece = Z.to_nat bs) by (subst piece; rewrite length_take, length_drop; nia).
    assert (Er : readBlock_at (start + i) (take (Z.to_nat (i * bs)) B ++ rest) (i * bs) fs =
      Ok (Some (take (Z.to_nat ((i + 1) * bs)) B ++ drop (Z.to_nat bs) rest), fs)).
    { destruct (block_bytes_ok nb fs (start + i) Hg ltac:(lia)) as (E & El & _).
      unfold readBlock_at, spb in *. step_get. rewrite (geo_sector nb fs Hg) in *.
      step (udiv_ok (block_size fs) 512 ltac:(lia)).
      pose proof (lba_small nb fs (start + i) Hg ltac:(lia)) as Hlba. unfold spb in Hlba. rewrite (geo_sector nb fs Hg) in Hlba.
      rewrite Hlba, E. rewrite Hblk by lia. fold piece.
      assert (Ht : length (take (Z.to_nat (i * bs)) B) = Z.to_nat (i * bs)) by (rewrite length_take; nia).
      assert (Es : splice (take (Z.to_nat (i * bs)) B ++ rest) (i * bs) piece =
        Ok (take (Z.to_nat (i * bs)) B ++ piece ++ drop (Z.to_nat bs) rest)).
      { rewrite <- (take_drop (Z.to_nat bs) rest) at 1. rewrite <- (Z2Nat.id (i * bs)) at 2 by nia. rewrite <- Ht at 2.
        apply splice_app. rewrite length_take, Hpl. nia. }
      step Es. unfold mret, FS_ret. do 3 f_equal. rewrite app_assoc. f_equal.
      replace (Z.to_nat ((i + 1) * bs)) with (Z.to_nat (i * bs) + Z.to_nat bs)%nat by nia.
      unfold piece. by rewrite take_take_drop. }
    step Er. apply IH; [lia | lia | lia | rewrite length_drop; nia |]. intros j Hj. apply Hblk. lia.
Qed.

Lemma kmalloc_empty n fs : heap fs = [] -> kmalloc n fs = Ok (Some (junk (Z.to_nat n)), fs).
Proof. intros E. unfold kmalloc. by rewrite E. Qed.

(** What a file system that [mount] accepts says of itself. *)
Record mountable fs : Prop := mkMountable {
  mb_magic : magic (sb fs) = EXT2_MAGIC;
  mb_rev : rev_level (sb fs) <> 0;
  mb_log : 0 <= log_block_size (sb fs) < 32;
  mb_size : block_size fs = 1024 .<< log_block_size (sb fs);
  mb_count : group_count fs = (blocks_count (sb fs) + block_per_group (sb fs) - 1) / block_per_group (sb fs);
  mb_total : 0 < block_per_group (sb fs) /\ 0 <= blocks_count (sb fs) /\
    blocks_count (sb fs) + block_per_group (sb fs) - 1 < 2 ^ 32;
}.

(** When the disk holds the superblock and descriptors of an instance, [mount]
    builds that instance again. *)
Lemma mount_synced nb fs fs0 : geometry nb fs -> meta_layout nb fs -> mountable fs ->
  gdt_synced fs -> sb_synced fs -> dev fs0 = dev fs -> sector_size fs0 = 512 -> heap fs0 = [] ->
  mount fs0 = Ok (true, fs).
Proof.
  intros Hg Hm [Hmag Hrev Hlog Hsz Hgc (Hb1 & Hb2 & Hb3)] Hgs Hss Ed Es Eh.
  pose proof (geometry_block_size nb fs Hg) as Hbs. pose proof (gdt_room nb fs Hg Hm) as (Hr1 & Hr2 & Hr3).
  pose proof (sb_fields_bound nb fs Hm) as Hf. pose proof (ml_count nb fs Hm) as Hc. pose proof (ml_small nb fs Hm).
  pose proof (ml_sb nb fs Hm) as Hsb. pose proof (length_gdt_bytes nb fs Hm) as Hgl. pose proof (ml_room nb fs Hm).
  pose proof (length_encode_sb (sb fs) ltac:(apply Hsb)) as Hel.
  unfold mount. step_get. rewrite Es, Ed. step (udiv_ok 1024 512 ltac:(lia)). change (1024 / 512) with 2.
  rewrite Hss.
  assert (Esp : splice (junk 1024) 0 (encode_sb (sb fs)) = Ok (encode_sb (sb fs))).
  { rewrite splice_ok by (rewrite ?length_junk; lia). rewrite Hel. cbn [Z.to_nat Nat.add take app].
    by rewrite drop_ge, app_nil_r by (rewrite length_junk; lia). }
  step Esp. step (decode_encode_sb (sb fs) Hsb). rewrite Hmag, Z.eqb_refl. cbn [negb].
  step (kmalloc_empty 1048 fs0 Eh). rewrite (proj2 (Z.leb_gt 32 _)) by lia. cbv zeta.
  rewrite <- Hsz, (u32_small (block_size fs)) by lia. rewrite (proj2 (Z.eqb_neq _ 0) Hrev).
  rewrite (u32_small (_ - 1)) by lia.
  step (udiv_ok (blocks_count (sb fs) + block_per_group (sb fs) - 1) (block_per_group (sb fs)) ltac:(lia)).
  rewrite <- Hgc. step_get. rewrite Ed, Es, Eh.
  set (fs1 := mkFs (dev fs) 512 (sb fs) [] (group_count fs) (block_size fs) []).
  assert (Ep : put fs1 fs0 = Ok (tt, fs1)) by done. step Ep. step (kmalloc_empty (32 * group_count fs) fs1 eq_refl).
  fold (fdb fs). rewrite (u32_small (fdb fs + 1)), (u32_small (32 * group_count fs)) by lia.
  rewrite (u32_small (32 * group_count fs + block_size fs - 1)) by lia.
  step (udiv_ok (32 * group_count fs + block_size fs - 1) (block_size fs) ltac:(lia)). fold (gdt_blocks fs).
  rewrite (u32_small (gdt_blocks fs * block_size fs)) by lia. step (kmalloc_empty (gdt_blocks fs * block_size fs) fs1 eq_refl).
  set (B := gdt_bytes fs ++ replicate (Z.to_nat (gdt_blocks fs * block_size fs) - length (gdt_bytes fs)) 0).
  assert (HB : Z.of_nat (length B) = gdt_blocks fs * block_size fs) by (unfold B; rewrite length_app, length_replicate; lia).
  assert (Hg1 : geometry nb fs1).
  { pose proof (geo_sector nb fs Hg) as Hsec. destruct Hg as [? ? ? Hdev ?]. constructor; try done.
    unfold spb in *. cbn. by rewrite Hsec in Hdev. }
  assert (Er : read_bgdt (Z.to_nat (gdt_blocks fs)) (fdb fs + 1) 0 (junk (Z.to_nat (gdt_blocks fs * block_size fs))) fs1 =
    Ok (Some B, fs1)).
  { apply (read_bgdt_ok nb fs1 (fdb fs + 1) B Hg1 ltac:(lia) ltac:(lia) _ 0 (junk (Z.to_nat (gdt_blocks fs * block_size fs))));
      [lia | lia | cbn; lia | rewrite length_junk; cbn; lia |].
    intros j Hj. etrans; [|apply (Hgs j); lia]. unfold block_bytes, spb. cbn.
    by rewrite (geo_sector nb fs Hg). }
  step Er.
  assert (Edg : decode_groups (Z.to_nat (group_count fs)) B = Ok (groups fs)).
  { replace (Z.to_nat (group_count fs)) with (length (groups fs)) by lia. apply decode_groups_ok, (ml_groups nb fs Hm). }
  step Edg. step_get. unfold fs1, mret, FS_ret, put, mbind, FS_bind, with_groups. cbn.
  pose proof (geo_sector nb fs Hg) as Hsec. pose proof (geo_heap nb fs Hg) as Hh. destruct fs. cbn in *. by subst.
Qed.

Lemma mountable_same fs fs' : same_instance fs fs' -> mountable fs -> mountable fs'.
Proof. unfold same_instance. intros -> []. by constructor. Qed.

Lemma mountable_counted fs group db di g : mountable fs -> mountable (counted fs group db di g).
Proof. intros []. by constructor. Qed.

(** The superblock does not lie among the descriptors. *)
Lemma gdt_synced_kept nb fs fs' : geometry nb fs -> meta_layout nb fs -> same_instance fs fs' ->
  (forall b, 0 <= b < nb -> b <> fdb fs -> block_bytes fs' b = block_bytes fs b) -> gdt_synced fs -> gdt_synced fs'.
Proof.
  intros Hg Hm Hs Hframe Hgs j. unfold same_instance in Hs.
  assert (Eall : fdb fs' = fdb fs /\ gdt_blocks fs' = gdt_blocks fs /\ block_size fs' = block_size fs /\
    gdt_bytes fs' = gdt_bytes fs) by by rewrite Hs.
  destruct Eall as (E1 & E2 & E3 & E4). rewrite E1, E2, E3, E4. intros Hj. rewrite <- (Hgs j Hj).
  pose proof (ml_room nb fs Hm). pose proof (ml_fdb nb fs Hm). apply Hframe; lia.
Qed.

(** C33. What the driver writes, [mount] reads back: [writeGroupDescriptors]
    followed by [writeSuperblock] succeeds, leaves every block outside the
    superblock and the descriptors as it was, and mounting the resulting disk
    rebuilds the instance, with its superblock, its group descriptors and its
    sizes.  The same holds after [update_counts], through which every
    allocation and release changes the counts: mounting the disk finds the
    changed counts in the superblock and in the descriptor of the group. *)
Theorem mount_reads_back nb fs fs0 : geometry nb fs -> meta_layout nb fs -> mountable fs ->
  sector_size fs0 = 512 -> heap fs0 = [] ->
  (exists fs1 fs2, writeGroupDescriptors fs = Ok (true, fs1) /\ writeSuperblock fs1 = Ok (true, fs2) /\
     fs2 = with_dev fs (dev fs2) /\
     (forall b, 0 <= b < nb -> ~ reserved fs b -> block_bytes fs2 b = block_bytes fs b) /\
     mount (with_dev fs0 (dev fs2)) = Ok (true, fs2)) /\
  forall group db di g, 0 <= group < group_count fs -> groups fs !! Z.to_nat group = Some g ->
    exists fs3, update_counts group db di fs = Ok (tt, fs3) /\
      groups fs3 = <[Z.to_nat group := group_with_free g (u16 (free_blocks_count g + db)) (u16 (free_inodes_count g + di))]> (groups fs) /\
      sb fs3 = sb_with_free (sb fs) (u32 (sb_free_blocks (sb fs) + db)) (u32 (sb_free_inodes (sb fs) + di)) /\
      mount (with_dev fs0 (dev fs3)) = Ok (true, fs3).
Proof.
  intros Hg Hm Hmb Es Eh. split.
  - destruct (writeGroupDescriptors_ok nb fs Hg Hm) as (fs1 & E1 & Hg1 & Hs1 & Hgs & Hf1).
    pose proof (meta_same nb fs fs1 Hs1 Hm) as Hm1.
    destruct (writeSuperblock_ok nb fs1 Hg1 Hm1) as (fs2 & E2 & Hg2 & Hs2 & Hss & Hf2).
    exists fs1, fs2. split; [done|]. split; [done|]. split; [unfold same_instance in *; by rewrite Hs2, Hs1|]. split.
    + intros b Hb Hr. unfold reserved in Hr. pose proof (ml_fdb nb fs Hm). pose proof (gdt_room nb fs Hg Hm) as (? & _).
      assert (Ef : fdb fs1 = fdb fs) by (unfold same_instance in Hs1; by rewrite Hs1). rewrite Hf2 by lia. apply Hf1; lia.
    + apply (mount_synced nb); try done; [by apply (meta_same nb fs1) | by apply (mountable_same fs1), (mountable_same fs) |].
      by apply (gdt_synced_kept nb fs1).
  - intros group db di g Hgr Hlk. destruct (update_counts_ok nb fs group db di g Hg Hm Hgr Hlk) as (fs3 & E & Hg3 & Hs3 & Hgs & Hss & _).
    pose proof (meta_same nb _ fs3 Hs3 (counted_meta nb fs group db di g Hm Hlk)) as Hm3.
    pose proof (mountable_same _ fs3 Hs3 (mountable_counted fs group db di g Hmb)) as Hmb3.
    exists fs3. split; [done|]. split; [unfold same_instance in Hs3; by rewrite Hs3|].
    split; [unfold same_instance in Hs3; by rewrite Hs3|]. by apply (mount_synced nb).
Qed.
End mount.
