(* ===== verification/Ext2Dir.v ===== *)
(** Directories of the ext2 driver: the entries of a block, lookup, insertion
    and removal of names, refined to operations on the list of live entries. *)

From Stdlib Require Import ZifyBool.
From S2P Require Import Prelude Bytes Ext2Layout Ext2 Ext2Proofs Ext2Files.

(** ** Blocks as lists of entries *)

(** An entry with the bytes after its header, up to the next entry. *)
Record ent := mkEnt { hdr : DirEntryOnDisk; body : list Z }.

Definition ent_bytes (e : ent) : list Z := encode_dirent (hdr e) ++ body e.
Definition block_of (es : list ent) : list Z := concat (ent_bytes <$> es).

(** Room for the header and, in a used entry, for the padded name. *)
Definition ent_ok (e : ent) : Prop :=
  dirent_ok (hdr e) /\ bytes_ok (body e) /\ Z.of_nat (length (body e)) + 8 = rec_len (hdr e) /\
  (inode (hdr e) <> 0 -> dirEntryMinSize (name_len (hdr e)) <= rec_len (hdr e)).

Definition ent_live (e : ent) : bool := negb (inode (hdr e) =? 0).
Definition ent_name (e : ent) : list Z := take (Z.to_nat (name_len (hdr e))) (body e).

(** What a directory says: the name, inode and type of its used entries. *)
Record link := mkLink { l_name : list Z; l_inode : Z; l_type : Z }.

Definition ent_links (e : ent) : list link :=
  if ent_live e then [mkLink (ent_name e) (inode (hdr e)) (file_type (hdr e))] else [].
Definition links (es : list ent) : list link := concat (ent_links <$> es).

Lemma links_app a b : links (a ++ b) = links a ++ links b.
Proof. unfold links. by rewrite fmap_app, concat_app. Qed.

Lemma links_cons e es : links (e :: es) = ent_links e ++ links es.
Proof. done. Qed.

Lemma block_of_app a b : block_of (a ++ b) = block_of a ++ block_of b.
Proof. unfold block_of. by rewrite fmap_app, concat_app. Qed.

Lemma block_of_cons e es : block_of (e :: es) = ent_bytes e ++ block_of es.
Proof. done. Qed.

Lemma block_of_one e : block_of [e] = ent_bytes e.
Proof. apply app_nil_r. Qed.

Lemma links_one e : links [e] = ent_links e.
Proof. apply app_nil_r. Qed.

Lemma min_size_bounds n : 0 <= n <= 255 -> 8 + n <= dirEntryMinSize n <= 8 + n + 3.
Proof.
  intros Hn. assert (Hall : Forall (fun n => 8 + n <= dirEntryMinSize n <= 8 + n + 3) (seqZ 0 256)).
  { apply (bool_decide_unpack _). vm_compute. exact I. }
  rewrite Forall_forall in Hall. apply Hall, list_elem_of_In, elem_of_seqZ. lia.
Qed.

Lemma dirent_ranges e : dirent_ok e ->
  0 <= inode e < 2 ^ 32 /\ 0 <= rec_len e < 2 ^ 16 /\ 0 <= name_len e < 2 ^ 8 /\ 0 <= file_type e < 2 ^ 8.
Proof.
  unfold dirent_ok, fields_ok, dirent_widths. intros Hf.
  repeat match goal with H : Forall2 _ (_ :: _) (_ :: _) |- _ => apply Forall2_cons_iff in H as [? H] end. done.
Qed.

Lemma dirent_ok_intro i r n t : 0 <= i < 2 ^ 32 -> 0 <= r < 2 ^ 16 -> 0 <= n < 2 ^ 8 -> 0 <= t < 2 ^ 8 ->
  dirent_ok (mkDirEnt i r n t).
Proof. intros. unfold dirent_ok, fields_ok, dirent_widths. repeat (constructor; [done|]). constructor. Qed.

Lemma length_ent_bytes e : ent_ok e -> Z.of_nat (length (ent_bytes e)) = rec_len (hdr e).
Proof. intros (_ & _ & Hl & _). unfold ent_bytes. rewrite length_app, length_encode_dirent. lia. Qed.

Lemma ent_name_fits e : ent_ok e -> ent_live e = true -> 0 <= name_len (hdr e) <= Z.of_nat (length (body e)).
Proof.
  intros (Hd & _ & Hl & Hs) Hlive. unfold ent_live in Hlive. apply dirent_ranges in Hd as (_ & _ & Hn & _).
  pose proof (min_size_bounds (name_len (hdr e)) ltac:(lia)). specialize (Hs ltac:(lia)). lia.
Qed.

Lemma entry_at_ok pre e rest : dirent_ok (hdr e) ->
  entry_at (pre ++ ent_bytes e ++ rest) (Z.of_nat (length pre)) = Ok (hdr e).
Proof.
  intros Hd. unfold entry_at, ent_bytes. rewrite <- app_assoc.
  pose proof (slice_app pre (encode_dirent (hdr e)) (body e ++ rest)) as Es.
  rewrite length_encode_dirent in Es. change (Z.of_nat 8) with 8 in Es. rewrite Es. cbn [mbind outcome_bind].
  rewrite <- (app_nil_r (encode_dirent (hdr e))). by apply decode_encode_dirent.
Qed.

(** ** The walk *)

(** The inner loop over the entries still to be visited. *)
Fixpoint over_entries {A R} (f : Z -> DirEntryOnDisk -> A -> outcome (A + R)) (off : Z) (es : list ent) (acc : A) :
    outcome (A + R) :=
  match es with
  | [] => Ok (inl acc)
  | e :: es' =>
      r ← f off (hdr e) acc;
      match r with
      | inr res => Ok (inr res)
      | inl acc' => over_entries f (off + rec_len (hdr e)) es' acc'
      end
  end.

Lemma next_offset pre e : ent_ok e ->
  Z.of_nat (length (block_of pre)) + rec_len (hdr e) = Z.of_nat (length (block_of (pre ++ [e]))).
Proof.
  intros He. rewrite block_of_app, length_app, block_of_one.
  pose proof (length_ent_bytes e He). lia.
Qed.

Lemma walk_entries {A R} (f : Z -> DirEntryOnDisk -> A -> outcome (A + R)) bs buf fuel pre es acc :
  buf = block_of (pre ++ es) -> Forall ent_ok es -> Z.of_nat (length buf) = bs -> bs < 2 ^ 31 ->
  (length es < fuel)%nat ->
  walk fuel bs buf f (Z.of_nat (length (block_of pre))) acc = over_entries f (Z.of_nat (length (block_of pre))) es acc.
Proof.
  intros -> Hes Hl Hbs Hfuel. revert pre acc fuel Hl Hfuel.
  induction Hes as [|e es He Hes IH]; intros pre acc fuel Hl Hfuel; (destruct fuel as [|fuel]; [simpl in Hfuel; lia|]);
    cbn [walk over_entries].
  - rewrite app_nil_r in Hl. rewrite (proj2 (Z.leb_le _ _)) by lia. done.
  - pose proof (length_ent_bytes e He) as Hle. pose proof He as (Hd & _ & Hrl & _).
    pose proof Hl as Hl'. rewrite block_of_app, length_app, block_of_cons, length_app in Hl'.
    rewrite (proj2 (Z.leb_gt _ _)) by lia.
    assert (Ee : entry_at (block_of (pre ++ e :: es)) (Z.of_nat (length (block_of pre))) = Ok (hdr e)).
    { rewrite block_of_app, block_of_cons. by apply entry_at_ok. }
    run_call Ee. rewrite (proj2 (Z.eqb_neq _ 0)) by lia.
    destruct (f (Z.of_nat (length (block_of pre))) (hdr e) acc) as [[acc'|res]| |]; try done.
    cbn [mbind outcome_bind]. rewrite u32_small, next_offset by (done || lia).
    replace (pre ++ e :: es) with ((pre ++ [e]) ++ es) by by rewrite <- app_assoc.
    apply IH; [by rewrite <- app_assoc | simpl in Hfuel; lia].
Qed.

Lemma entries_count es : Forall ent_ok es -> 8 * Z.of_nat (length es) <= Z.of_nat (length (block_of es)).
Proof.
  induction 1 as [|e es He Hes IH]; [done|]. rewrite block_of_cons, length_app. pose proof (length_ent_bytes e He).
  destruct He as (_ & _ & Hl & _). simpl. lia.
Qed.

Lemma walk_block {A R} (f : Z -> DirEntryOnDisk -> A -> outcome (A + R)) bs es acc :
  Forall ent_ok es -> Z.of_nat (length (block_of es)) = bs -> bs < 2 ^ 31 ->
  walk (walk_fuel bs) bs (block_of es) f 0 acc = over_entries f 0 es acc.
Proof.
  intros Hes Hl Hbs. apply (walk_entries f bs (block_of es) (walk_fuel bs) [] es acc); try done.
  pose proof (entries_count es Hes). unfold walk_fuel. lia.
Qed.

(** ** Names *)

Lemma name_matches_ok a b c name : length b = length name ->
  name_matches (a ++ b ++ c) (Z.of_nat (length a)) name = Ok (bool_decide (b = name)).
Proof.
  revert a b. induction name as [|x name IH]; intros a b Hl; (destruct b as [|y b]; [|try done]); try done.
  cbn [name_matches]. injection Hl as Hl.
  assert (Eld : load (a ++ (y :: b) ++ c) (Z.of_nat (length a)) = Ok y).
  { apply load_ok. split; [lia|]. rewrite Nat2Z.id. by apply list_lookup_middle. }
  run_call Eld. destruct (Z.eqb_spec y x) as [->|Hne].
  - replace (a ++ (x :: b) ++ c) with ((a ++ [x]) ++ b ++ c) by by rewrite <- app_assoc.
    replace (Z.of_nat (length a) + 1) with (Z.of_nat (length (a ++ [x]))) by (rewrite length_app; simpl; lia).
    rewrite IH by done. f_equal. apply bool_decide_ext. split; [by intros -> | by intros [= ->]].
  - unfold mret, outcome_ret. rewrite bool_decide_eq_false_2; [done|]. by intros [= ? _].
Qed.

(** The test of a used entry against a name, as all loops do it. *)
Definition is_named (name : list Z) (e : ent) : bool := ent_live e && bool_decide (ent_name e = name).

Lemma entry_name_matches pre e rest name : ent_ok e -> ent_live e = true ->
  name_len (hdr e) = Z.of_nat (length name) ->
  name_matches (pre ++ ent_bytes e ++ rest) (Z.of_nat (length pre) + 8) name = Ok (bool_decide (ent_name e = name)).
Proof.
  intros He Hlive Hn. pose proof (ent_name_fits e He Hlive) as Hfit. unfold ent_name.
  set (nl := Z.to_nat (name_len (hdr e))).
  assert (E : pre ++ ent_bytes e ++ rest =
    (pre ++ encode_dirent (hdr e)) ++ take nl (body e) ++ drop nl (body e) ++ rest).
  { unfold ent_bytes. by rewrite (app_assoc (take nl _)), take_drop, <- !app_assoc. }
  rewrite E. replace (Z.of_nat (length pre) + 8) with (Z.of_nat (length (pre ++ encode_dirent (hdr e))))
    by (rewrite length_app, length_encode_dirent; lia).
  apply name_matches_ok. rewrite length_take. lia.
Qed.

Lemma is_named_length name e : ent_ok e -> is_named name e = true -> name_len (hdr e) = Z.of_nat (length name).
Proof.
  intros He Hn. apply andb_true_iff in Hn as [Hl Hn]. apply bool_decide_eq_true in Hn.
  pose proof (ent_name_fits e He Hl). rewrite <- Hn. unfold ent_name. rewrite length_take. lia.
Qed.

(** ** Lookup *)

Fixpoint lookup_links (name : list Z) (ls : list link) : Z :=
  match ls with
  | [] => 0
  | l :: ls' => if bool_decide (l_name l = name) then l_inode l else lookup_links name ls'
  end.

Lemma lookup_links_app name a b :
  lookup_links name (a ++ b) = if bool_decide (name ∈ l_name <$> a) then lookup_links name a else lookup_links name b.
Proof.
  induction a as [|l a IH]; simpl; [done|]. destruct (decide (l_name l = name)) as [<-|Hne].
  - rewrite (bool_decide_eq_true_2 (l_name l = l_name l)) by done. by rewrite bool_decide_eq_true_2 by by left.
  - rewrite (bool_decide_eq_false_2 (l_name l = name)) by done. rewrite IH.
    erewrite bool_decide_ext; [done|]. rewrite elem_of_cons. naive_solver.
Qed.

Lemma lookup_entries buf pre es name : buf = block_of (pre ++ es) -> Forall ent_ok es ->
  over_entries (lookup_body buf name) (Z.of_nat (length (block_of pre))) es tt =
  Ok (if bool_decide (name ∈ l_name <$> links es) then inr (lookup_links name (links es)) else inl tt).
Proof.
  intros Hbuf Hes. revert pre Hbuf. induction Hes as [|e es He Hes IH]; intros pre Hbuf; [done|]. cbn [over_entries].
  assert (Hbody : lookup_body buf name (Z.of_nat (length (block_of pre))) (hdr e) tt =
    Ok (if is_named name e then inr (inode (hdr e)) else inl tt)).
  { unfold lookup_body, is_named. fold (ent_live e). destruct (ent_live e) eqn:Hlive; [|done]. cbn [andb].
    destruct (Z.eqb_spec (name_len (hdr e)) (Z.of_nat (length name))) as [En|Hne].
    - assert (Em : name_matches buf (Z.of_nat (length (block_of pre)) + 8) name = Ok (bool_decide (ent_name e = name))).
      { rewrite Hbuf, block_of_app, block_of_cons. by apply entry_name_matches. }
      run_call Em. by destruct (bool_decide _).
    - destruct (bool_decide (ent_name e = name)) eqn:Ed; [|done]. exfalso. apply Hne.
      apply (is_named_length name e He). unfold is_named. by rewrite Hlive, Ed. }
  run_call Hbody. rewrite links_cons. unfold is_named, ent_links in *. destruct (ent_live e) eqn:Hlive; cbn [andb].
  - cbn [app fmap list_fmap lookup_links l_name l_inode]. destruct (decide (ent_name e = name)) as [E|Hne].
    + rewrite (bool_decide_eq_true_2 (ent_name e = name)) by done. rewrite bool_decide_eq_true_2; [done|]. rewrite E. by left.
    + rewrite (bool_decide_eq_false_2 (ent_name e = name)) by done.
      rewrite next_offset, IH by (done || by rewrite <- app_assoc).
      erewrite bool_decide_ext; [done|]. rewrite elem_of_cons. naive_solver.
  - by rewrite next_offset, IH by (done || by rewrite <- app_assoc).
Qed.

(** ** Insertion *)

Definition used_size (e : ent) : Z := if ent_live e then dirEntryMinSize (name_len (hdr e)) else 0.

(** There is room for the name behind what entry [e] uses. *)
Definition has_room (name : list Z) (e : ent) : bool :=
  dirEntryMinSize (Z.of_nat (length name)) <=? rec_len (hdr e) - used_size e.

(** The entries that replace [e]. *)
Definition place (name : list Z) (child ft : Z) (e : ent) : list ent :=
  let nl := Z.of_nat (length name) in
  if ent_live e then
    let used := dirEntryMinSize (name_len (hdr e)) in
    [mkEnt (mkDirEnt (inode (hdr e)) used (name_len (hdr e)) (file_type (hdr e))) (take (Z.to_nat used - 8) (body e));
     mkEnt (mkDirEnt child (rec_len (hdr e) - used) nl ft) (name ++ drop (Z.to_nat used + length name) (body e))]
  else [mkEnt (mkDirEnt child (rec_len (hdr e)) nl ft) (name ++ drop (length name) (body e))].

Lemma place_dead_bytes pre rest name child ft e : ent_ok e -> has_room name e = true -> (length name <= 255)%nat ->
  ent_live e = false ->
  insert_body (pre ++ ent_bytes e ++ rest) name child ft (Z.of_nat (length pre)) (hdr e) tt =
    Ok (inr (pre ++ concat (ent_bytes <$> place name child ft e) ++ rest)).
Proof.
  intros He Hroom Hn Hdead. pose proof He as (Hd & _ & Hl & _). unfold has_room, used_size in Hroom. rewrite Hdead in Hroom.
  pose proof (dirent_ranges _ Hd) as (_ & Hrl & _). pose proof (min_size_bounds (Z.of_nat (length name)) ltac:(lia)).
  unfold insert_body. assert (Ei : (inode (hdr e) =? 0) = true) by (unfold ent_live in Hdead; lia). rewrite Ei.
  rewrite (u8_small (Z.of_nat (length name))), (u32_small (_ - 0)) by lia. rewrite (proj2 (Z.ltb_ge _ _)) by lia.
  rewrite Nat2Z.id, take_ge by done.
  set (h' := mkDirEnt child (rec_len (hdr e)) (Z.of_nat (length name)) ft).
  assert (E1 : splice (pre ++ ent_bytes e ++ rest) (Z.of_nat (length pre)) (encode_dirent h') =
    Ok (pre ++ encode_dirent h' ++ body e ++ rest)).
  { unfold ent_bytes. rewrite <- app_assoc. apply splice_app. by rewrite !length_encode_dirent. }
  run_call E1.
  assert (E2 : splice (pre ++ encode_dirent h' ++ body e ++ rest) (Z.of_nat (length pre) + 8) name =
    Ok (pre ++ encode_dirent h' ++ name ++ drop (length name) (body e) ++ rest)).
  { replace (Z.of_nat (length pre) + 8) with (Z.of_nat (length (pre ++ encode_dirent h')))
      by (rewrite length_app, length_encode_dirent; lia).
    replace (pre ++ encode_dirent h' ++ body e ++ rest) with
      ((pre ++ encode_dirent h') ++ take (length name) (body e) ++ drop (length name) (body e) ++ rest)
      by by rewrite (app_assoc (take _ _)), take_drop, <- !app_assoc.
    rewrite splice_app by (rewrite length_take; lia). by rewrite <- !app_assoc. }
  run_call E2. unfold place. rewrite Hdead. cbn [fmap list_fmap concat]. unfold ent_bytes. cbn [hdr body]. fold h'.
  by rewrite app_nil_r, <- !app_assoc.
Qed.

Lemma place_live_bytes pre rest name child ft e : ent_ok e -> has_room name e = true -> (length name <= 255)%nat ->
  ent_live e = true ->
  insert_body (pre ++ ent_bytes e ++ rest) name child ft (Z.of_nat (length pre)) (hdr e) tt =
    Ok (inr (pre ++ concat (ent_bytes <$> place name child ft e) ++ rest)).
Proof.
  intros He Hroom Hn Hlive. pose proof He as (Hd & _ & Hl & Hs). unfold has_room, used_size in Hroom. rewrite Hlive in Hroom.
  pose proof (dirent_ranges _ Hd) as (_ & Hrl & Hnl & _). pose proof (min_size_bounds (Z.of_nat (length name)) ltac:(lia)) as Hm1.
  pose proof (min_size_bounds (name_len (hdr e)) ltac:(lia)) as Hm2.
  assert (Ei : (inode (hdr e) =? 0) = false) by (unfold ent_live in Hlive; lia).
  unfold insert_body. rewrite Ei. set (used := dirEntryMinSize (name_len (hdr e))) in *.
  rewrite (u8_small (Z.of_nat (length name))), (u32_small (_ - used)) by lia. rewrite (proj2 (Z.ltb_ge _ _)) by lia.
  rewrite Nat2Z.id, (take_ge name) by done. rewrite !u16_small by lia.
  set (h1 := mkDirEnt (inode (hdr e)) used (name_len (hdr e)) (file_type (hdr e))).
  set (h2 := mkDirEnt child (rec_len (hdr e) - used) (Z.of_nat (length name)) ft).
  set (b1 := take (Z.to_nat used - 8) (body e)). set (b2 := take 8 (drop (Z.to_nat used - 8) (body e))).
  set (b3 := take (length name) (drop (Z.to_nat used) (body e))). set (b4 := drop (Z.to_nat used + length name) (body e)).
  assert (Hb : body e = b1 ++ b2 ++ b3 ++ b4).
  { unfold b1, b2, b3, b4. rewrite <- drop_drop, take_drop.
    replace (Z.to_nat used) with (Z.to_nat used - 8 + 8)%nat at 3 by lia. by rewrite <- drop_drop, take_drop, take_drop. }
  assert (Hb1 : Z.of_nat (length b1) = used - 8) by (unfold b1; rewrite length_take; lia).
  assert (Hb2 : length b2 = 8%nat) by (unfold b2; rewrite length_take, length_drop; lia).
  assert (Hb3 : length b3 = length name) by (unfold b3; rewrite length_take, length_drop; lia).
  assert (E1 : splice (pre ++ ent_bytes e ++ rest) (Z.of_nat (length pre)) (encode_dirent h1) =
    Ok (pre ++ encode_dirent h1 ++ body e ++ rest)).
  { unfold ent_bytes. rewrite <- app_assoc. apply splice_app. by rewrite !length_encode_dirent. }
  run_call E1. rewrite Hb.
  assert (E2 : splice (pre ++ encode_dirent h1 ++ (b1 ++ b2 ++ b3 ++ b4) ++ rest) (Z.of_nat (length pre) + used) (encode_dirent h2) =
    Ok ((pre ++ encode_dirent h1 ++ b1) ++ encode_dirent h2 ++ b3 ++ b4 ++ rest)).
  { replace (Z.of_nat (length pre) + used) with (Z.of_nat (length (pre ++ encode_dirent h1 ++ b1)))
      by (rewrite !length_app, length_encode_dirent; lia).
    replace (pre ++ encode_dirent h1 ++ (b1 ++ b2 ++ b3 ++ b4) ++ rest)
      with ((pre ++ encode_dirent h1 ++ b1) ++ b2 ++ b3 ++ b4 ++ rest) by by rewrite <- !app_assoc.
    apply splice_app. by rewrite length_encode_dirent. }
  run_call E2.
  assert (E3 : splice ((pre ++ encode_dirent h1 ++ b1) ++ encode_dirent h2 ++ b3 ++ b4 ++ rest) (Z.of_nat (length pre) + used + 8) name =
    Ok ((pre ++ encode_dirent h1 ++ b1 ++ encode_dirent h2) ++ name ++ b4 ++ rest)).
  { replace (Z.of_nat (length pre) + used + 8) with (Z.of_nat (length (pre ++ encode_dirent h1 ++ b1 ++ encode_dirent h2)))
      by (rewrite !length_app, !length_encode_dirent; lia).
    replace ((pre ++ encode_dirent h1 ++ b1) ++ encode_dirent h2 ++ b3 ++ b4 ++ rest)
      with ((pre ++ encode_dirent h1 ++ b1 ++ encode_dirent h2) ++ b3 ++ b4 ++ rest) by by rewrite <- !app_assoc.
    by apply splice_app. }
  run_call E3. unfold place. rewrite Hlive. cbn [fmap list_fmap concat]. unfold ent_bytes. cbn [hdr body].
  fold used. fold h1 h2 b1 b4. by rewrite app_nil_r, <- !app_assoc.
Qed.

(** A name the driver can store, for an inode that exists. *)
Record new_link (name : list Z) (child ft : Z) : Prop := mkNewLink {
  nl_name : (1 <= length name <= 255)%nat;
  nl_bytes : bytes_ok name;
  nl_child : 0 < child < 2 ^ 32;
  nl_type : 0 <= ft < 2 ^ 8;
}.

Lemma place_ok name child ft e : ent_ok e -> has_room name e = true -> new_link name child ft ->
  Forall ent_ok (place name child ft e) /\ links (place name child ft e) = ent_links e ++ [mkLink name child ft] /\
  length (block_of (place name child ft e)) = length (ent_bytes e).
Proof.
  intros He Hroom [Hn Hb Hc Ht]. pose proof He as (Hd & Hbb & Hl & Hs). pose proof (dirent_ranges _ Hd) as (Hi & Hrl & Hnl & Hft).
  pose proof (min_size_bounds (Z.of_nat (length name)) ltac:(lia)) as Hm1.
  pose proof (min_size_bounds (name_len (hdr e)) ltac:(lia)) as Hm2.
  unfold has_room, used_size in Hroom. unfold place, links, block_of, ent_bytes, ent_links.
  assert (Hnew : forall r k, Z.of_nat (length (name ++ drop k (body e))) + 8 = r -> 0 <= r < 2 ^ 16 ->
    dirEntryMinSize (Z.of_nat (length name)) <= r ->
    ent_ok (mkEnt (mkDirEnt child r (Z.of_nat (length name)) ft) (name ++ drop k (body e)))).
  { intros r k Hr Hr2 Hr3. split_and!; cbn [hdr body rec_len inode name_len]; [apply dirent_ok_intro; lia | | lia | lia].
    apply Forall_app. split; [done | by apply Forall_drop]. }
  assert (Hlive2 : forall r b, ent_live (mkEnt (mkDirEnt child r (Z.of_nat (length name)) ft) b) = true).
  { intros. unfold ent_live. cbn. lia. }
  assert (Hname : forall r b, ent_name (mkEnt (mkDirEnt child r (Z.of_nat (length name)) ft) (name ++ b)) = name).
  { intros. unfold ent_name. cbn. rewrite Nat2Z.id. apply take_app_length. }
  destruct (ent_live e) eqn:Hlive.
  - set (used := dirEntryMinSize (name_len (hdr e))) in *.
    assert (Hb1 : Z.of_nat (length (take (Z.to_nat used - 8) (body e))) = used - 8) by (rewrite length_take; lia).
    split_and!.
    + constructor; [|constructor; [|constructor]].
      * split_and!; cbn [hdr body rec_len inode name_len]; [apply dirent_ok_intro; lia | by apply list.Forall_take | lia | fold used; lia].
      * apply Hnew; [rewrite length_app, length_drop; lia | lia | lia].
    + cbn [fmap list_fmap concat]. rewrite Hlive2, Hname. unfold ent_live in *. cbn [hdr inode]. rewrite Hlive.
      unfold ent_name. cbn [hdr name_len body l_name app file_type]. rewrite take_take, Nat.min_l by lia. done.
    + cbn [fmap list_fmap concat hdr body]. rewrite !length_app, !length_encode_dirent, length_drop. cbn [length]. lia.
  - split_and!.
    + constructor; [|constructor]. apply Hnew; [rewrite length_app, length_drop; lia | lia | lia].
    + cbn [fmap list_fmap concat]. by rewrite Hlive2, Hname.
    + cbn [fmap list_fmap concat hdr body]. rewrite !length_app, !length_encode_dirent, length_drop. cbn [length]. lia.
Qed.

(** The first entry with room is replaced. *)
Fixpoint insert_ents (name : list Z) (child ft : Z) (es : list ent) : option (list ent) :=
  match es with
  | [] => None
  | e :: es' =>
      if has_room name e then Some (place name child ft e ++ es')
      else match insert_ents name child ft es' with Some l => Some (e :: l) | None => None end
  end.

Lemma insert_entries buf pre es name child ft : buf = block_of (pre ++ es) -> Forall ent_ok es ->
  (1 <= length name <= 255)%nat ->
  over_entries (insert_body buf name child ft) (Z.of_nat (length (block_of pre))) es tt =
  Ok (match insert_ents name child ft es with Some es' => inr (block_of (pre ++ es')) | None => inl tt end).
Proof.
  intros Hbuf Hes Hn. revert pre Hbuf. induction Hes as [|e es He Hes IH]; intros pre Hbuf; [done|].
  cbn [over_entries insert_ents].
  assert (Hbody : insert_body buf name child ft (Z.of_nat (length (block_of pre))) (hdr e) tt =
    Ok (if has_room name e then inr (block_of (pre ++ place name child ft e ++ es)) else inl tt)).
  { destruct (has_room name e) eqn:Hroom.
    - rewrite Hbuf, !block_of_app, block_of_cons. destruct (ent_live e) eqn:Hlive;
        [apply place_live_bytes | apply place_dead_bytes]; (done || lia).
    - pose proof He as (Hd & _ & Hl & Hs). pose proof (dirent_ranges _ Hd) as (_ & Hrl & Hnl & _).
      pose proof (min_size_bounds (name_len (hdr e)) ltac:(lia)). unfold insert_body, has_room, used_size, ent_live in *.
      rewrite u8_small by lia. destruct (Z.eqb_spec (inode (hdr e)) 0) as [Ei|Hi]; cbn [negb] in Hroom.
      + rewrite u32_small by lia. by rewrite (proj2 (Z.ltb_lt _ _)) by lia.
      + specialize (Hs Hi). rewrite u32_small by lia. by rewrite (proj2 (Z.ltb_lt _ _)) by lia. }
  run_call Hbody. destruct (has_room name e); [done|].
  rewrite next_offset, IH by (done || by rewrite <- app_assoc).
  destruct (insert_ents name child ft es); [|done]. by rewrite <- app_assoc.
Qed.

Lemma insert_ents_ok name child ft es es' : Forall ent_ok es -> new_link name child ft ->
  insert_ents name child ft es = Some es' ->
  Forall ent_ok es' /\ length (block_of es') = length (block_of es) /\
  exists l1 l2, links es = l1 ++ l2 /\ links es' = l1 ++ mkLink name child ft :: l2.
Proof.
  intros Hes Hnew. revert es'. induction Hes as [|e es He Hes IH]; intros es' E; [done|]. cbn [insert_ents] in E.
  destruct (has_room name e) eqn:Hroom.
  - injection E as <-. destruct (place_ok name child ft e He Hroom Hnew) as (H1 & H2 & H3).
    split; [by apply Forall_app|]. split; [rewrite block_of_app, block_of_cons, !length_app; lia|].
    exists (ent_links e), (links es). split; [done|]. rewrite links_app, H2. by rewrite <- app_assoc.
  - destruct (insert_ents name child ft es) as [l|] eqn:El; [|done]. injection E as <-.
    destruct (IH l eq_refl) as (H1 & H2 & l1 & l2 & H3 & H4). split; [by constructor|].
    split; [rewrite !block_of_cons, !length_app; lia|]. exists (ent_links e ++ l1), l2.
    rewrite !links_cons, H3, H4. by rewrite <- !app_assoc.
Qed.

(** ** Removal *)

Definition kill (e : ent) : ent :=
  mkEnt (mkDirEnt 0 (rec_len (hdr e)) (name_len (hdr e)) (file_type (hdr e))) (body e).
Definition absorb (p e : ent) : ent :=
  mkEnt (mkDirEnt (inode (hdr p)) (rec_len (hdr p) + rec_len (hdr e)) (name_len (hdr p)) (file_type (hdr p)))
    (body p ++ ent_bytes e).

(** The first entry with the name goes; the result includes the entry before. *)
Fixpoint remove_ents (name : list Z) (prev : option ent) (es : list ent) : option (list ent) :=
  match es with
  | [] => None
  | e :: es' =>
      if is_named name e
      then Some (match prev with None => kill e | Some p => absorb p e end :: es')
      else match remove_ents name (Some e) es' with Some l => Some (option_list prev ++ l) | None => None end
  end.

Lemma named_test pre e rest name : ent_ok e ->
  (if negb (inode (hdr e) =? 0) && (name_len (hdr e) =? Z.of_nat (length name))
   then name_matches (pre ++ ent_bytes e ++ rest) (Z.of_nat (length pre) + 8) name else mret false) =
  Ok (is_named name e).
Proof.
  intros He. unfold is_named. fold (ent_live e). destruct (ent_live e) eqn:Hlive; [|done]. cbn [andb].
  destruct (Z.eqb_spec (name_len (hdr e)) (Z.of_nat (length name))) as [En|Hne]; [by apply entry_name_matches|].
  destruct (bool_decide (ent_name e = name)) eqn:Ed; [|done]. exfalso. apply Hne.
  apply (is_named_length name e He). unfold is_named. by rewrite Hlive, Ed.
Qed.

(** Offset of the entry before, as the loop keeps it. *)
Definition prev_offset (pre : list ent) (prev : option ent) : option Z :=
  match prev with None => None | Some _ => Some (Z.of_nat (length (block_of pre))) end.

(** One step of the loop. *)
Lemma remove_step pre prev e es name buf : buf = block_of (pre ++ option_list prev ++ e :: es) ->
  Forall ent_ok (option_list prev) -> ent_ok e -> Z.of_nat (length buf) < 2 ^ 16 -> (prev = None -> pre = []) ->
  let off := Z.of_nat (length (block_of (pre ++ option_list prev))) in
  remove_body buf name off (hdr e) (prev_offset pre prev) =
  Ok (if is_named name e
      then inr (block_of (pre ++ match prev with None => kill e | Some p => absorb p e end :: es))
      else inl (Some off)).
Proof.
  intros Hbuf Hp He Hsmall Hpre off.
  assert (Ebuf : buf = block_of (pre ++ option_list prev) ++ ent_bytes e ++ block_of es).
  { rewrite Hbuf. by rewrite app_assoc, block_of_app, block_of_cons. }
  unfold remove_body. pose proof (named_test (block_of (pre ++ option_list prev)) e (block_of es) name He) as Hnt.
  rewrite <- Ebuf in Hnt. fold off in Hnt. run_call Hnt. destruct (is_named name e) eqn:Hnamed; cbn [negb]; [|done].
  pose proof He as (Hd & _ & Hl & _). destruct prev as [p|]; cbn [prev_offset option_list option_rect app] in *.
  - apply Forall_cons_iff in Hp as [Hpok _]. pose proof Hpok as (Hpd & _ & Hpl & _).
    assert (Ebuf2 : buf = block_of pre ++ ent_bytes p ++ ent_bytes e ++ block_of es).
    { rewrite Ebuf, block_of_app, block_of_one. by rewrite <- !app_assoc. }
    assert (Eat : entry_at buf (Z.of_nat (length (block_of pre))) = Ok (hdr p)) by (rewrite Ebuf2; by apply entry_at_ok).
    run_call Eat. rewrite Ebuf2 in Hsmall. rewrite !length_app in Hsmall.
    pose proof (length_ent_bytes p Hpok). pose proof (length_ent_bytes e He). rewrite u16_small by lia.
    assert (Es : splice buf (Z.of_nat (length (block_of pre))) (encode_dirent (hdr (absorb p e))) =
      Ok (block_of pre ++ encode_dirent (hdr (absorb p e)) ++ body p ++ ent_bytes e ++ block_of es)).
    { rewrite Ebuf2. unfold ent_bytes at 1. rewrite <- app_assoc. apply splice_app. by rewrite !length_encode_dirent. }
    cbn [absorb hdr] in Es. run_call Es. do 2 f_equal. rewrite block_of_app, block_of_cons. unfold ent_bytes at 2.
    cbn [absorb hdr body]. by rewrite <- !app_assoc.
  - assert (pre = []) as -> by by apply Hpre. cbn [app] in *. unfold ent_bytes in Ebuf. rewrite <- app_assoc in Ebuf.
    assert (Es : splice buf off (encode_dirent (hdr (kill e))) =
      Ok (block_of [] ++ encode_dirent (hdr (kill e)) ++ body e ++ block_of es)).
    { unfold off. rewrite Ebuf. apply splice_app. by rewrite !length_encode_dirent. }
    cbn [kill hdr] in Es. run_call Es. cbn [app]. rewrite block_of_cons. unfold ent_bytes. cbn [kill hdr body].
    by rewrite <- app_assoc.
Qed.

Lemma remove_entries pre prev es name buf : buf = block_of (pre ++ option_list prev ++ es) ->
  Forall ent_ok (option_list prev ++ es) -> Z.of_nat (length buf) < 2 ^ 16 -> (prev = None -> pre = []) ->
  let r := over_entries (remove_body buf name)
    (Z.of_nat (length (block_of (pre ++ option_list prev)))) es (prev_offset pre prev) in
  match remove_ents name prev es with
  | Some es' => r = Ok (inr (block_of (pre ++ es')))
  | None => exists acc, r = Ok (inl acc)
  end.
Proof.
  intros Hbuf Hok Hsmall Hpre. revert pre prev Hbuf Hok Hpre.
  induction es as [|e es IH]; intros pre prev Hbuf Hok Hpre; [by eexists|].
  apply Forall_app in Hok as [Hp [He Hes]%Forall_cons_iff]. cbn [over_entries remove_ents].
  pose proof (remove_step pre prev e es name buf Hbuf Hp He Hsmall Hpre) as Hstep. cbv zeta in *.
  run_call Hstep. destruct (is_named name e); [done|]. rewrite next_offset by done.
  specialize (IH (pre ++ option_list prev) (Some e)). cbn [option_list option_rect app prev_offset] in IH.
  specialize (IH ltac:(by rewrite <- app_assoc) ltac:(by constructor) ltac:(done)).
  destruct (remove_ents name (Some e) es) as [l|]; [by rewrite IH, <- app_assoc | done].
Qed.

Lemma absorb_ent_ok p e : ent_ok p -> ent_ok e -> rec_len (hdr p) + rec_len (hdr e) < 2 ^ 16 -> ent_ok (absorb p e).
Proof.
  intros Hp He Hs. pose proof (length_ent_bytes e He). pose proof Hp as (Hd & Hb & Hl & Hm).
  pose proof He as (Hde & Hbe & Hle & _). pose proof (dirent_ranges _ Hd) as (? & ? & ? & ?). pose proof (dirent_ranges _ Hde).
  split_and!; cbn [absorb hdr body rec_len inode name_len].
  - apply dirent_ok_intro; lia.
  - apply Forall_app. split; [done|]. apply Forall_app. split; [apply pack_bytes_ok | done].
  - rewrite length_app. lia.
  - intros Hi. specialize (Hm Hi). lia.
Qed.

Lemma remove_ents_ok name prev es es' : Forall ent_ok (option_list prev ++ es) ->
  Z.of_nat (length (block_of (option_list prev ++ es))) < 2 ^ 16 ->
  name ∉ l_name <$> links (option_list prev) -> remove_ents name prev es = Some es' ->
  Forall ent_ok es' /\ length (block_of es') = length (block_of (option_list prev ++ es)) /\
  exists l1 l l2, links (option_list prev ++ es) = l1 ++ l :: l2 /\ links es' = l1 ++ l2 /\
    l_name l = name /\ name ∉ l_name <$> l1.
Proof.
  revert prev es'. induction es as [|e es IH]; intros prev es' Hok Hsmall Hnp E; [done|]. cbn [remove_ents] in E.
  apply Forall_app in Hok as [Hp [He Hes]%Forall_cons_iff]. pose proof (length_ent_bytes e He) as Hle.
  destruct (is_named name e) eqn:Hnamed.
  - injection E as <-. apply andb_true_iff in Hnamed as [Hlive Hname]. apply bool_decide_eq_true in Hname.
    assert (Hel : ent_links e = [mkLink name (inode (hdr e)) (file_type (hdr e))]).
    { unfold ent_links. by rewrite Hlive, Hname. }
    destruct prev as [p|]; cbn [option_list option_rect app] in *.
    + apply Forall_cons_iff in Hp as [Hp _]. pose proof (length_ent_bytes p Hp) as Hlp.
      rewrite !block_of_cons, !length_app in Hsmall.
      assert (Hlab : ent_links (absorb p e) = ent_links p).
      { unfold ent_links, ent_live, ent_name. cbn [absorb hdr inode name_len file_type body].
        destruct (inode (hdr p) =? 0) eqn:Hi; [done|]. cbn [negb].
        pose proof (ent_name_fits p Hp) as Hfit. unfold ent_live in Hfit. rewrite Hi in Hfit. specialize (Hfit eq_refl).
        rewrite take_app_le by lia. done. }
      split; [constructor; [apply absorb_ent_ok; (done || lia) | done]|]. split.
      * rewrite !block_of_cons. unfold ent_bytes. cbn [absorb body hdr]. rewrite !length_app, !length_encode_dirent.
        unfold ent_bytes. rewrite length_app, length_encode_dirent. lia.
      * exists (ent_links p), (mkLink name (inode (hdr e)) (file_type (hdr e))), (links es).
        rewrite !links_cons, Hel, Hlab. split_and!; try done.
        by rewrite links_one in Hnp.
    + split; [constructor; [|done]|]. { destruct He as (Hd & Hb & Hl & _). apply dirent_ranges in Hd.
        split_and!; cbn [kill hdr body rec_len inode name_len]; [apply dirent_ok_intro; lia | done | done | done]. }
      split; [rewrite !block_of_cons; unfold ent_bytes; cbn [kill body hdr]; by rewrite !length_app, !length_encode_dirent|].
      exists [], (mkLink name (inode (hdr e)) (file_type (hdr e))), (links es).
      rewrite !links_cons, Hel. split_and!; [done | done | done |]. apply not_elem_of_nil.
  - destruct (remove_ents name (Some e) es) as [l|] eqn:El; [|done]. injection E as <-.
    rewrite block_of_app, length_app in Hsmall.
    destruct (IH (Some e) l) as (H1 & H2 & l1 & x & l2 & H3 & H4 & H5 & H6); [by constructor | cbn [option_list option_rect app]; lia | | done |].
    { cbn [option_list option_rect]. rewrite links_one. unfold ent_links, is_named in *.
      destruct (ent_live e); [|apply not_elem_of_nil]. cbn [andb fmap list_fmap l_name] in *.
      intros Hin%list_elem_of_singleton. by rewrite bool_decide_eq_false in Hnamed. }
    split; [by apply Forall_app|]. cbn [option_list option_rect app] in *. split; [rewrite !block_of_app, !length_app; lia|].
    exists (links (option_list prev) ++ l1), x, l2. rewrite !links_app, H3, H4, <- !app_assoc. split_and!; try done.
    rewrite fmap_app, elem_of_app. tauto.
Qed.

Lemma remove_ents_none name prev es : remove_ents name prev es = None <-> name ∉ l_name <$> links es.
Proof.
  revert prev. induction es as [|e es IH]; intros prev; cbn [remove_ents]; [split; [intros _; apply not_elem_of_nil | done]|].
  rewrite links_cons, fmap_app, elem_of_app. unfold is_named, ent_links. destruct (ent_live e); cbn [andb].
  - cbn [fmap list_fmap l_name]. rewrite list_elem_of_singleton. case_bool_decide as Hd.
    + split; [done|]. intros Hn. exfalso. apply Hn. by left.
    + specialize (IH (Some e)). destruct (remove_ents name (Some e) es); naive_solver.
  - specialize (IH (Some e)). cbn [fmap list_fmap]. rewrite elem_of_nil. destruct (remove_ents name (Some e) es); naive_solver.
Qed.
