(* ===== verification/Ext2DirOps.v ===== *)
(** [lookupInDir], [insertDirEntry] and [removeDirEntry] on a directory of
    several blocks, refined to lookup, insertion and removal in the list of
    its links. *)

From Stdlib Require Import ZifyBool.
From S2P Require Import Prelude Bytes Ext2Layout Ext2 Ext2Proofs Ext2Files Ext2Dir.

(** The first element that satisfies a test, if there is one. *)
Lemma first_true {A} (P : A -> bool) l :
  (forall x, x ∈ l -> P x = false) \/
  exists l1 x l2, l = l1 ++ x :: l2 /\ P x = true /\ forall y, y ∈ l1 -> P y = false.
Proof.
  induction l as [|x l IH]; [left; by intros ? ?%not_elem_of_nil|]. destruct (P x) eqn:Hx.
  - right. exists [], x, l. split_and!; try done. by intros ? ?%not_elem_of_nil.
  - destruct IH as [Hall|(l1 & y & l2 & -> & Hy & Hl1)]; [left | right].
    + intros z [-> |Hz]%elem_of_cons; [done | by apply Hall].
    + exists (x :: l1), y, l2. split_and!; try done. intros z [-> |Hz]%elem_of_cons; [done | by apply Hl1].
Qed.

Section dirs.
Context {D : Type} `{BlockDevLaws D} `{UninitLaws}.
Implicit Types fs : FsInstance D.

(** A directory is viewed as the list of its blocks: number and entries. *)
Record directory (nb : Z) fs (dir : Inode) (v : list (Z * list ent)) : Prop := mkDirectory {
  d_is_dir : is_dir dir = true;
  d_size : size dir = Z.of_nat (length v) * block_size fs;
  d_direct : (length v <= 12)%nat;
  d_blocks : forall k p es, v !! k = Some (p, es) ->
    block dir !! k = Some p /\ 0 < p < nb /\ block_bytes fs p = block_of es /\ Forall ent_ok es;
  d_distinct : NoDup (fst <$> v);
}.

Definition dir_links (v : list (Z * list ent)) : list link := links (concat (snd <$> v)).

Lemma dir_links_split v1 p es v2 : dir_links (v1 ++ (p, es) :: v2) = dir_links v1 ++ links es ++ dir_links v2.
Proof. unfold dir_links. rewrite fmap_app, concat_app, links_app. cbn [fmap list_fmap concat snd]. by rewrite links_app. Qed.

Lemma dir_links_names v name : name ∈ l_name <$> dir_links v <-> exists pe, pe ∈ v /\ name ∈ l_name <$> links (snd pe).
Proof.
  unfold dir_links. induction v as [|[p es] v IH]; cbn [fmap list_fmap concat snd].
  - split; [by intros ?%not_elem_of_nil | by intros (? & ?%not_elem_of_nil & _)].
  - rewrite links_app, fmap_app, elem_of_app. setoid_rewrite elem_of_cons. fold (snd <$> v). rewrite IH. split.
    + intros [Hin|(pe & Hpe & Hin)]; [by exists (p, es); split; [left|] | by exists pe; split; [right|]].
    + intros (pe & [-> |Hpe] & Hin); [by left | right; by exists pe].
Qed.

Lemma block_len nb fs dir v k p es : geometry nb fs -> directory nb fs dir v -> v !! k = Some (p, es) ->
  Z.of_nat (length (block_of es)) = block_size fs.
Proof.
  intros Hg Hd Hk. destruct (d_blocks _ _ _ _ Hd k p es Hk) as (_ & Hp & <- & _).
  by destruct (block_bytes_ok nb fs p Hg ltac:(lia)) as (_ & -> & _).
Qed.

Lemma inodeBlockAt_direct fs dir k p : block dir !! k = Some p -> (k < 12)%nat ->
  inodeBlockAt dir (Z.of_nat k) fs = Ok (p, fs).
Proof.
  intros Hk Hlt. unfold inodeBlockAt. rewrite (proj2 (Z.ltb_lt _ _)) by lia. unfold lift.
  assert (E : load (block dir) (Z.of_nat k) = Ok p) by (apply load_ok; rewrite Nat2Z.id; split; [lia | done]).
  by rewrite E.
Qed.

Lemma num_blocks_ok nb fs dir v : geometry nb fs -> directory nb fs dir v ->
  num_blocks dir fs = Ok (Z.of_nat (length v), fs).
Proof.
  intros Hg Hd. pose proof (geometry_block_size nb fs Hg). pose proof (d_direct _ _ _ _ Hd).
  unfold num_blocks. step_get. rewrite (d_size _ _ _ _ Hd), u32_small by nia. unfold lift.
  rewrite udiv_ok by lia. do 2 f_equal. apply div_between; nia.
Qed.

(** The loop over the blocks passes a block at which [f] goes on ... *)
Lemma dir_blocks_pass {R} nb fs dir v (f : Z -> list Z -> unit -> FS D (unit + R)) n b p es buf :
  geometry nb fs -> directory nb fs dir v -> v !! b = Some (p, es) -> Z.of_nat (length buf) = block_size fs ->
  f p (block_of es) tt fs = Ok (inl tt, fs) ->
  dir_blocks (S n) (Z.of_nat b) dir buf f tt fs = dir_blocks n (Z.of_nat (S b)) dir (block_of es) f tt fs.
Proof.
  intros Hg Hd Hb Hl Hf. destruct (d_blocks _ _ _ _ Hd b p es Hb) as (Hk & Hp & Ebytes & _).
  pose proof (d_direct _ _ _ _ Hd). apply lookup_lt_Some in Hb. cbn [dir_blocks].
  step (inodeBlockAt_direct fs dir b p Hk ltac:(lia)). rewrite (proj2 (Z.eqb_neq p 0)) by lia.
  step (readBlock_ok nb fs p buf Hg ltac:(lia) Hl). rewrite Ebytes. step Hf.
  by replace (Z.of_nat b + 1) with (Z.of_nat (S b)) by lia.
Qed.

(** ... and stops at one where it returns. *)
Lemma dir_blocks_stop {R} nb fs dir v (f : Z -> list Z -> unit -> FS D (unit + R)) n b p es buf r fs' :
  geometry nb fs -> directory nb fs dir v -> v !! b = Some (p, es) -> Z.of_nat (length buf) = block_size fs ->
  f p (block_of es) tt fs = Ok (inr r, fs') ->
  dir_blocks (S n) (Z.of_nat b) dir buf f tt fs = Ok (inr r, fs').
Proof.
  intros Hg Hd Hb Hl Hf. destruct (d_blocks _ _ _ _ Hd b p es Hb) as (Hk & Hp & Ebytes & _).
  pose proof (d_direct _ _ _ _ Hd). apply lookup_lt_Some in Hb. cbn [dir_blocks].
  step (inodeBlockAt_direct fs dir b p Hk ltac:(lia)). rewrite (proj2 (Z.eqb_neq p 0)) by lia.
  step (readBlock_ok nb fs p buf Hg ltac:(lia) Hl). rewrite Ebytes. by step Hf.
Qed.

(** The loop up to the first block where [f] returns, or to the end. *)
Lemma dir_blocks_first {R} nb fs dir v v1 v2 (f : Z -> list Z -> unit -> FS D (unit + R)) buf :
  geometry nb fs -> directory nb fs dir v -> v = v1 ++ v2 -> Z.of_nat (length buf) = block_size fs ->
  (forall p es, (p, es) ∈ v1 -> f p (block_of es) tt fs = Ok (inl tt, fs)) ->
  exists buf', Z.of_nat (length buf') = block_size fs /\
    dir_blocks (length v) 0 dir buf f tt fs = dir_blocks (length v2) (Z.of_nat (length v1)) dir buf' f tt fs.
Proof.
  intros Hg Hd Hv Hl Hf. enough (Hgen : forall b va vb buf, v = va ++ vb ++ v2 -> b = length va ->
    Z.of_nat (length buf) = block_size fs -> (forall p es, (p, es) ∈ vb -> f p (block_of es) tt fs = Ok (inl tt, fs)) ->
    exists buf', Z.of_nat (length buf') = block_size fs /\
      dir_blocks (length vb + length v2) (Z.of_nat b) dir buf f tt fs =
      dir_blocks (length v2) (Z.of_nat (length (va ++ vb))) dir buf' f tt fs).
  { destruct (Hgen 0%nat [] v1 buf) as (buf' & ? & E); try done. exists buf'. split; [done|].
    rewrite Hv, length_app. done. }
  intros b va vb. revert b va. induction vb as [|[p es] vb IH]; intros b va buf0 Hva -> Hl0 Hf0.
  - exists buf0. split; [done|]. by rewrite app_nil_r.
  - assert (Hk : v !! length va = Some (p, es)) by (rewrite Hva; by apply list_lookup_middle).
    cbn [length Nat.add]. rewrite (dir_blocks_pass nb fs dir v f _ _ p es buf0 Hg Hd Hk Hl0) by (apply Hf0; by left).
    destruct (IH (S (length va)) (va ++ [(p, es)]) (block_of es)) as (buf' & Hb' & E).
    + by rewrite <- app_assoc.
    + rewrite length_app. simpl. lia.
    + by apply (block_len nb fs dir v _ p es Hg Hd Hk).
    + intros q es' Hin. apply Hf0. by right.
    + exists buf'. split; [done|]. rewrite E. by rewrite <- app_assoc.
Qed.

(** The loop as a search for the first block that passes a test. *)
Lemma dir_blocks_search {R} nb fs dir v (f : Z -> list Z -> unit -> FS D (unit + R)) (stop : list ent -> bool) :
  geometry nb fs -> directory nb fs dir v ->
  (forall k p es, v !! k = Some (p, es) -> stop es = false -> f p (block_of es) tt fs = Ok (inl tt, fs)) ->
  let r := dir_blocks (length v) 0 dir (junk (Z.to_nat (block_size fs))) f tt fs in
  (r = Ok (inl tt, fs) /\ forall pe, pe ∈ v -> stop (snd pe) = false) \/
  exists v1 p es v2, v = v1 ++ (p, es) :: v2 /\ stop es = true /\ (forall pe, pe ∈ v1 -> stop (snd pe) = false) /\
    forall x fs', f p (block_of es) tt fs = Ok (inr x, fs') -> r = Ok (inr x, fs').
Proof.
  intros Hg Hd Hf r. pose proof (geometry_block_size nb fs Hg) as Hbs.
  assert (Hj : Z.of_nat (length (junk (Z.to_nat (block_size fs)))) = block_size fs) by (rewrite length_junk; lia).
  destruct (first_true (fun pe : Z * list ent => stop (snd pe)) v) as [Hall|(v1 & [p es] & v2 & Ev & Hin & Hv1)].
  - left. split; [|done]. destruct (dir_blocks_first nb fs dir v v [] f _ Hg Hd ltac:(by rewrite app_nil_r) Hj) as (buf' & _ & E); [|done].
    intros p es [k Hk]%list_elem_of_lookup_1. apply (Hf k p es Hk). apply (Hall _ (list_elem_of_lookup_2 _ _ _ Hk)).
  - right. exists v1, p, es, v2. split_and!; try done.
    destruct (dir_blocks_first nb fs dir v v1 ((p, es) :: v2) f _ Hg Hd Ev Hj) as (buf' & Hb' & E).
    { intros q es' Hq. assert (Hq' : (q, es') ∈ v) by (rewrite Ev; apply elem_of_app; by left).
      apply list_elem_of_lookup_1 in Hq' as [k Hk]. apply (Hf k q es' Hk), (Hv1 _ Hq). }
    intros x fs' Hx. unfold r. rewrite E. apply (dir_blocks_stop nb fs dir v f _ _ p es); try done.
    rewrite Ev. by apply list_lookup_middle.
Qed.

(** ** Lookup *)

Lemma lookupInDir_ok nb fs dir v name : geometry nb fs -> directory nb fs dir v ->
  lookupInDir dir name fs = Ok (lookup_links name (dir_links v), fs).
Proof.
  intros Hg Hd. pose proof (geometry_block_size nb fs Hg) as Hbs.
  set (f := fun (_ : Z) buf acc => lift (D := D) (walk (walk_fuel (block_size fs)) (block_size fs) buf (lookup_body buf name) 0 acc)).
  set (stop := fun es => bool_decide (name ∈ l_name <$> links es)).
  assert (Hf : forall k p es, v !! k = Some (p, es) ->
    f p (block_of es) tt fs = Ok (if stop es then inr (lookup_links name (links es)) else inl tt, fs)).
  { intros k p es Hk. destruct (d_blocks _ _ _ _ Hd k p es Hk) as (_ & _ & _ & Hok).
    pose proof (block_len nb fs dir v k p es Hg Hd Hk) as Hl. unfold f, lift. rewrite walk_block by (done || lia).
    pose proof (lookup_entries (block_of es) [] es name eq_refl Hok) as E.
    change (Z.of_nat (length (block_of []))) with 0 in E. by rewrite E. }
  unfold lookupInDir. rewrite (d_is_dir _ _ _ _ Hd). cbn [negb]. step_get. step (kmalloc_ok nb fs (block_size fs) Hg).
  step (num_blocks_ok nb fs dir v Hg Hd). rewrite Nat2Z.id. fold f.
  assert (Habsent : forall w, (forall pe, pe ∈ w -> stop (snd pe) = false) -> name ∉ l_name <$> dir_links w).
  { intros w Hw. rewrite dir_links_names. intros (pe & Hpe & Hname). by apply (bool_decide_eq_false_1 _ (Hw pe Hpe)). }
  destruct (dir_blocks_search nb fs dir v f stop Hg Hd) as [[E Hall]|(v1 & p & es & v2 & Ev & Hs & Hv1 & Hr)].
  { intros k p es Hk Hs. by rewrite (Hf k p es Hk), Hs. }
  - step E. unfold mret, FS_ret. do 2 f_equal. symmetry. rewrite <- (app_nil_r (dir_links v)), lookup_links_app.
    by rewrite bool_decide_eq_false_2 by by apply Habsent.
  - assert (Hk : v !! length v1 = Some (p, es)) by (rewrite Ev; by apply list_lookup_middle).
    pose proof (Hf _ _ _ Hk) as Hfk. rewrite Hs in Hfk. step (Hr _ _ Hfk).
    unfold mret, FS_ret. do 2 f_equal. rewrite Ev, dir_links_split, lookup_links_app.
    rewrite bool_decide_eq_false_2 by by apply Habsent. rewrite lookup_links_app. unfold stop in Hs. by rewrite Hs.
Qed.

(** ** Writing a block of a directory *)

Lemma directory_write nb fs fs' dir v1 p es es' v2 : geometry nb fs -> directory nb fs dir (v1 ++ (p, es) :: v2) ->
  same_instance fs fs' -> block_bytes fs' p = block_of es' -> Forall ent_ok es' ->
  (forall b, 0 <= b < nb -> b <> p -> block_bytes fs' b = block_bytes fs b) ->
  directory nb fs' dir (v1 ++ (p, es') :: v2).
Proof.
  intros Hg [Hdir Hsz Hdr Hbl Hnd] Hs Eself Hok Hot.
  assert (Ebs : block_size fs' = block_size fs) by (unfold same_instance in Hs; by rewrite Hs).
  assert (Hfst : fst <$> v1 ++ (p, es') :: v2 = fst <$> v1 ++ (p, es) :: v2) by by rewrite !fmap_app.
  constructor; [done | | | | by rewrite Hfst].
  - rewrite Hsz, Ebs. by rewrite !length_app.
  - by rewrite !length_app in *.
  - intros k q es'' Hk. destruct (decide (k = length v1)) as [->|Hne].
    + rewrite list_lookup_middle in Hk by done. injection Hk as <- <-.
      destruct (Hbl (length v1) p es) as (? & ? & _); [by apply list_lookup_middle|]. done.
    + assert (Hk' : (v1 ++ (p, es) :: v2) !! k = Some (q, es'')).
      { rewrite <- Hk. destruct (decide (k < length v1)%nat).
        - by rewrite !lookup_app_l by done.
        - rewrite !lookup_app_r by lia. by replace (k - length v1)%nat with (S (k - length v1 - 1)) by lia. }
      destruct (Hbl k q es'' Hk') as (H1' & H2' & H3 & H4). split_and!; try done; try lia. rewrite Hot; [done | lia |].
      intros ->. apply Hne. eapply (NoDup_lookup _ _ _ p Hnd); rewrite list_lookup_fmap; [by rewrite Hk'|].
      by rewrite list_lookup_middle.
Qed.

Lemma writeBlock_entries nb fs dir v1 p es es' v2 : geometry nb fs -> directory nb fs dir (v1 ++ (p, es) :: v2) ->
  Forall ent_ok es' -> length (block_of es') = length (block_of es) ->
  exists fs', writeBlock p (block_of es') fs = Ok (true, fs') /\ geometry nb fs' /\ same_instance fs fs' /\
    directory nb fs' dir (v1 ++ (p, es') :: v2) /\
    forall b, 0 <= b < nb -> b <> p -> block_bytes fs' b = block_bytes fs b.
Proof.
  intros Hg Hd Hok Hl. assert (Hk : (v1 ++ (p, es) :: v2) !! length v1 = Some (p, es)) by by apply list_lookup_middle.
  destruct (d_blocks _ _ _ _ Hd _ _ _ Hk) as (_ & Hp & _). pose proof (block_len nb fs dir _ _ _ _ Hg Hd Hk) as Hlen.
  assert (Hbytes : bytes_ok (block_of es')).
  { apply Forall_concat, Forall_fmap. eapply Forall_impl; [|exact Hok]. intros e (_ & Hb & _).
    apply Forall_app. split; [apply pack_bytes_ok | done]. }
  destruct (writeBlock_ok nb fs p (block_of es') Hg ltac:(lia) ltac:(lia) Hbytes) as (fs' & E & Hg' & Hs & Eself & Hot).
  exists fs'. split_and!; try done. by apply (directory_write nb fs fs' dir v1 p es es' v2).
Qed.

(** ** Insertion and removal *)

(** [insertDirEntry] when a block has room. *)
Lemma insertDirEntry_ok nb fs dir v name child ft : geometry nb fs -> directory nb fs dir v -> new_link name child ft ->
  (exists pe, pe ∈ v /\ insert_ents name child ft (snd pe) <> None) ->
  exists v' fs' l1 l2, insertDirEntry dir name child ft fs = Ok ((true, dir), fs') /\ geometry nb fs' /\
    same_instance fs fs' /\ directory nb fs' dir v' /\ (fst <$> v') = (fst <$> v) /\
    dir_links v = l1 ++ l2 /\ dir_links v' = l1 ++ mkLink name child ft :: l2 /\
    forall b, 0 <= b < nb -> b ∉ fst <$> v -> block_bytes fs' b = block_bytes fs b.
Proof.
  intros Hg Hd Hnew (pe & Hpe & Hsome). pose proof (geometry_block_size nb fs Hg) as Hbs. pose proof (nl_name _ _ _ Hnew) as Hn.
  set (f := fun phys_block buf acc =>
    r ← lift (D := D) (walk (walk_fuel (block_size fs)) (block_size fs) buf (insert_body buf name child ft) 0 acc);
    match r with
    | inl acc => mret (inl acc)
    | inr buf => ok ← writeBlock phys_block buf; mret (inr ok)
    end).
  set (stop := fun es => match insert_ents name child ft es with Some _ => true | None => false end).
  assert (Hf : forall k p es, v !! k = Some (p, es) -> f p (block_of es) tt fs =
    match insert_ents name child ft es with
    | Some es' => (ok ← writeBlock p (block_of es'); mret (inr ok)) fs
    | None => Ok (inl tt, fs)
    end).
  { intros k p es Hk. destruct (d_blocks _ _ _ _ Hd k p es Hk) as (_ & _ & _ & Hok).
    pose proof (block_len nb fs dir v k p es Hg Hd Hk) as Hl.
    assert (E : walk (walk_fuel (block_size fs)) (block_size fs) (block_of es) (insert_body (block_of es) name child ft) 0 tt =
      Ok (match insert_ents name child ft es with Some es' => inr (block_of es') | None => inl tt end)).
    { rewrite walk_block by (done || lia). apply (insert_entries (block_of es) [] es name child ft eq_refl Hok Hn). }
    unfold f. step E. by destruct (insert_ents name child ft es). }
  destruct (dir_blocks_search nb fs dir v f stop Hg Hd) as [[_ Hall]|(v1 & p & es & v2 & Ev & Hs & Hv1 & Hr)].
  { intros k p es Hk Hs. rewrite (Hf k p es Hk). unfold stop in Hs. by destruct (insert_ents name child ft es). }
  { exfalso. specialize (Hall pe Hpe). unfold stop in Hall. by destruct (insert_ents name child ft (snd pe)). }
  assert (Hk : v !! length v1 = Some (p, es)) by (rewrite Ev; by apply list_lookup_middle).
  destruct (d_blocks _ _ _ _ Hd _ _ _ Hk) as (_ & Hp & _ & Hok). pose proof (Hf _ _ _ Hk) as Hfk. unfold stop in Hs.
  destruct (insert_ents name child ft es) as [es'|] eqn:Ei; [|done].
  destruct (insert_ents_ok name child ft es es' Hok Hnew Ei) as (Hok' & Hlen & l1 & l2 & El & El').
  rewrite Ev in Hd. destruct (writeBlock_entries nb fs dir v1 p es es' v2 Hg Hd Hok' Hlen) as (fs' & Ew & Hg' & Hsm & Hd' & Hot).
  rewrite <- Ev in Hd.
  exists (v1 ++ (p, es') :: v2), fs', (dir_links v1 ++ l1), (l2 ++ dir_links v2). split_and!; try done.
  - unfold insertDirEntry. step_get. step (kmalloc_ok nb fs (block_size fs) Hg). step (num_blocks_ok nb fs dir v Hg Hd).
    rewrite Nat2Z.id. fold f. rewrite (run_bind _ _ _ _ _ Ew) in Hfk. step (Hr _ _ Hfk). done.
  - rewrite Ev. by rewrite !fmap_app.
  - rewrite Ev, dir_links_split, El. by rewrite <- !app_assoc.
  - rewrite dir_links_split, El'. by rewrite <- !app_assoc.
  - intros b Hb Hnb. apply Hot; [done|]. intros ->. apply Hnb. rewrite Ev, fmap_app, elem_of_app. right. by left.
Qed.

Lemma removeDirEntry_ok nb fs dir v name : geometry nb fs -> directory nb fs dir v ->
  (removeDirEntry dir name fs = Ok (false, fs) /\ name ∉ l_name <$> dir_links v) \/
  exists v' fs' l1 l l2, removeDirEntry dir name fs = Ok (true, fs') /\ geometry nb fs' /\ same_instance fs fs' /\
    directory nb fs' dir v' /\ (fst <$> v') = (fst <$> v) /\
    dir_links v = l1 ++ l :: l2 /\ dir_links v' = l1 ++ l2 /\ l_name l = name /\ (name ∉ l_name <$> l1) /\
    forall b, 0 <= b < nb -> b ∉ fst <$> v -> block_bytes fs' b = block_bytes fs b.
Proof.
  intros Hg Hd. pose proof (geometry_block_size nb fs Hg) as Hbs.
  set (f := fun phys_block buf (_ : unit) =>
    r ← lift (D := D) (walk (walk_fuel (block_size fs)) (block_size fs) buf (remove_body buf name) 0 None);
    match r with
    | inl _ => mret (inl tt)
    | inr buf => ok ← writeBlock phys_block buf; mret (inr ok)
    end).
  set (stop := fun es => match remove_ents name None es with Some _ => true | None => false end).
  assert (Hf : forall k p es, v !! k = Some (p, es) -> f p (block_of es) tt fs =
    match remove_ents name None es with
    | Some es' => (ok ← writeBlock p (block_of es'); mret (inr ok)) fs
    | None => Ok (inl tt, fs)
    end).
  { intros k p es Hk. destruct (d_blocks _ _ _ _ Hd k p es Hk) as (_ & _ & _ & Hok).
    pose proof (block_len nb fs dir v k p es Hg Hd Hk) as Hl.
    pose proof (remove_entries [] None es name (block_of es) eq_refl Hok ltac:(lia) ltac:(done)) as Hr. cbv zeta in Hr.
    assert (Hw : walk (walk_fuel (block_size fs)) (block_size fs) (block_of es) (remove_body (block_of es) name) 0 None =
      over_entries (remove_body (block_of es) name) 0 es None) by (apply walk_block; (done || lia)).
    change (Z.of_nat (length (block_of ([] ++ option_list None)))) with 0 in Hr. cbn [prev_offset] in Hr.
    unfold f. destruct (remove_ents name None es) as [es'|].
    - rewrite Hr in Hw. by step Hw.
    - destruct Hr as [acc Hr]. rewrite Hr in Hw. by step Hw. }
  assert (Hrun : removeDirEntry dir name fs = (r ← dir_blocks (length v) 0 dir (junk (Z.to_nat (block_size fs))) f tt;
    mret (match r with inr ok => ok | inl _ => false end)) fs).
  { unfold removeDirEntry. step_get. step (kmalloc_ok nb fs (block_size fs) Hg). step (num_blocks_ok nb fs dir v Hg Hd).
    by rewrite Nat2Z.id. }
  destruct (dir_blocks_search nb fs dir v f stop Hg Hd) as [[E Hall]|(v1 & p & es & v2 & Ev & Hs & Hv1 & Hr)].
  { intros k p es Hk Hs. rewrite (Hf k p es Hk). unfold stop in Hs. by destruct (remove_ents name None es). }
  { left. rewrite Hrun. step E. split; [done|]. rewrite dir_links_names. intros (pe & Hpe & Hin).
    specialize (Hall pe Hpe). unfold stop in Hall. destruct (remove_ents name None (snd pe)) eqn:Er; [done|].
    by apply remove_ents_none in Er. }
  right. assert (Hk : v !! length v1 = Some (p, es)) by (rewrite Ev; by apply list_lookup_middle).
  destruct (d_blocks _ _ _ _ Hd _ _ _ Hk) as (_ & Hp & _ & Hok). pose proof (Hf _ _ _ Hk) as Hfk. unfold stop in Hs.
  pose proof (block_len nb fs dir v _ p es Hg Hd Hk) as Hl.
  destruct (remove_ents name None es) as [es'|] eqn:Er; [|done].
  destruct (remove_ents_ok name None es es' Hok ltac:(cbn [option_list option_rect app]; lia) ltac:(apply not_elem_of_nil) Er)
    as (Hok' & Hlen & l1 & l & l2 & El & El' & Hname & Hfirst).
  assert (Hd0 := Hd). rewrite Ev in Hd0.
  destruct (writeBlock_entries nb fs dir v1 p es es' v2 Hg Hd0 Hok' Hlen) as (fs' & Ew & Hg' & Hsm & Hd' & Hot).
  rewrite (run_bind _ _ _ _ _ Ew) in Hfk.
  exists (v1 ++ (p, es') :: v2), fs', (dir_links v1 ++ l1), l, (l2 ++ dir_links v2). split_and!; try done.
  - rewrite Hrun. by step (Hr _ _ Hfk).
  - rewrite Ev. by rewrite !fmap_app.
  - rewrite Ev, dir_links_split. cbn [option_list option_rect app] in El. rewrite El. by rewrite <- !app_assoc.
  - rewrite dir_links_split, El'. by rewrite <- !app_assoc.
  - rewrite fmap_app, elem_of_app. intros [Hin|Hin]; [|done]. rewrite dir_links_names in Hin.
    destruct Hin as (pe & Hpe & Hin). specialize (Hv1 pe Hpe). unfold stop in Hv1.
    destruct (remove_ents name None (snd pe)) eqn:Er'; [done|]. by apply remove_ents_none in Er'.
  - intros b Hb Hnb. apply Hot; [done|]. intros ->. apply Hnb. rewrite Ev, fmap_app, elem_of_app. right. by left.
Qed.

(** ** Claims *)

Lemma lookup_insert_link name child ft n l1 l2 : name ∉ l_name <$> (l1 ++ l2) ->
  lookup_links n (l1 ++ mkLink name child ft :: l2) = if bool_decide (n = name) then child else lookup_links n (l1 ++ l2).
Proof.
  rewrite fmap_app, elem_of_app. intros Hno. rewrite !lookup_links_app. cbn [lookup_links l_name l_inode].
  case_bool_decide as Ha; case_bool_decide as Hb; subst; try done.
  - exfalso. tauto.
  - by rewrite bool_decide_eq_true_2.
  - by rewrite bool_decide_eq_false_2.
Qed.

Lemma lookup_remove_link l n l1 l2 : l_name l ∉ l_name <$> (l1 ++ l2) ->
  lookup_links n (l1 ++ l2) = if bool_decide (n = l_name l) then 0 else lookup_links n (l1 ++ l :: l2).
Proof.
  rewrite fmap_app, elem_of_app. intros Hno. rewrite !lookup_links_app. cbn [lookup_links].
  case_bool_decide as Ha; case_bool_decide as Hb; subst; try done.
  - exfalso. tauto.
  - rewrite <- (app_nil_r l2), lookup_links_app, bool_decide_eq_false_2; [done | tauto].
  - by rewrite bool_decide_eq_false_2.
Qed.

(** Inserting a name that a directory does not have, when a block has
    room for it: afterwards [lookupInDir] finds the new inode under that name,
    every other name resolves as before, and only a block of the directory
    has changed. *)
Theorem insertDirEntry_correct nb fs dir v name child ft :
  geometry nb fs -> directory nb fs dir v -> new_link name child ft -> name ∉ l_name <$> dir_links v ->
  (exists pe, pe ∈ v /\ insert_ents name child ft (snd pe) <> None) ->
  exists v' fs', insertDirEntry dir name child ft fs = Ok ((true, dir), fs') /\ geometry nb fs' /\
    directory nb fs' dir v' /\ lookupInDir dir name fs' = Ok (child, fs') /\
    (forall n r, n <> name -> lookupInDir dir n fs = Ok (r, fs) -> lookupInDir dir n fs' = Ok (r, fs')) /\
    forall b, 0 <= b < nb -> b ∉ fst <$> v -> block_bytes fs' b = block_bytes fs b.
Proof.
  intros Hg Hd Hnew Hfresh Hroom.
  destruct (insertDirEntry_ok nb fs dir v name child ft Hg Hd Hnew Hroom)
    as (v' & fs' & l1 & l2 & E & Hg' & Hs & Hd' & _ & El & El' & Hot).
  rewrite El in Hfresh. exists v', fs'. split_and!; try done.
  - rewrite (lookupInDir_ok nb fs' dir v' name Hg' Hd'), El', lookup_insert_link, bool_decide_eq_true_2; done.
  - intros n r Hne. rewrite (lookupInDir_ok nb fs dir v n Hg Hd), (lookupInDir_ok nb fs' dir v' n Hg' Hd').
    intros [= <-]. rewrite El, El', lookup_insert_link, bool_decide_eq_false_2; done.
Qed.

(** [removeDirEntry] fails and changes nothing when the directory does not
    have the name.  Otherwise it removes it: the name resolves to nothing, the
    others as before, provided names are not repeated. *)
Theorem removeDirEntry_correct nb fs dir v name :
  geometry nb fs -> directory nb fs dir v -> NoDup (l_name <$> dir_links v) ->
  (removeDirEntry dir name fs = Ok (false, fs) /\ lookupInDir dir name fs = Ok (0, fs)) \/
  exists v' fs', removeDirEntry dir name fs = Ok (true, fs') /\ geometry nb fs' /\
    directory nb fs' dir v' /\ NoDup (l_name <$> dir_links v') /\ lookupInDir dir name fs' = Ok (0, fs') /\
    (forall n r, n <> name -> lookupInDir dir n fs = Ok (r, fs) -> lookupInDir dir n fs' = Ok (r, fs')) /\
    forall b, 0 <= b < nb -> b ∉ fst <$> v -> block_bytes fs' b = block_bytes fs b.
Proof.
  intros Hg Hd Hnd. destruct (removeDirEntry_ok nb fs dir v name Hg Hd)
    as [[E Hno]|(v' & fs' & l1 & l & l2 & E & Hg' & Hs & Hd' & _ & El & El' & <- & Hfirst & Hot)]; [left | right].
  - split; [done|]. rewrite (lookupInDir_ok nb fs dir v name Hg Hd), <- (app_nil_r (dir_links v)), lookup_links_app.
    by rewrite bool_decide_eq_false_2.
  - rewrite El in Hnd. rewrite fmap_app, fmap_cons in Hnd. apply NoDup_ListNoDup, NoDup_remove in Hnd as [Hnd Hl].
    assert (Hl' : l_name l ∉ l_name <$> (l1 ++ l2)) by (rewrite fmap_app; by rewrite list_elem_of_In).
    exists v', fs'. split_and!; try done.
    + rewrite El', fmap_app. by apply NoDup_ListNoDup.
    + by rewrite (lookupInDir_ok nb fs' dir v' _ Hg' Hd'), El', (lookup_remove_link l), bool_decide_eq_true_2.
    + intros n r Hne. rewrite (lookupInDir_ok nb fs dir v n Hg Hd), (lookupInDir_ok nb fs' dir v' n Hg' Hd').
      intros [= <-]. by rewrite El, El', (lookup_remove_link l), bool_decide_eq_false_2.
Qed.
End dirs.
