(* ===== verification/Ext2Read.v ===== *)
(** Reading files of the ext2 driver: [read] returns the slice of the file
    that its blocks hold. *)

From Stdlib Require Import ZifyBool.
From S2P Require Import Prelude Bytes Ext2Layout Ext2 Ext2Proofs Ext2Files.

(** A window inside one of several blocks of the same size. *)
Lemma concat_window (ls : list (list Z)) (bs k o n : nat) l : Forall (fun l => length l = bs) ls -> ls !! k = Some l ->
  (o + n <= bs)%nat -> take n (drop (k * bs + o) (concat ls)) = take n (drop o l).
Proof.
  intros Hall. revert k. induction Hall as [|l0 ls Hl0 Hall IH]; intros k Hk Ho; [by rewrite lookup_nil in Hk|].
  destruct k as [|k]; cbn [concat].
  - injection Hk as ->. cbn [Nat.mul Nat.add]. rewrite drop_app_le by lia. rewrite take_app_le by (rewrite length_drop; lia). done.
  - rewrite drop_app_ge by lia. rewrite Hl0. replace (S k * bs + o - bs)%nat with (k * bs + o)%nat by lia. by apply IH.
Qed.

Section read.
Context {D : Type} `{BlockDevLaws D} `{UninitLaws}.
Implicit Types fs : FsInstance D.

(** Pointer [k] of an inode is [p]: one of the twelve direct ones, or one in
    the block of pointers that pointer 12 leads to. *)
Definition points_to (nb : Z) fs (i : Inode) (k : nat) (p : Z) : Prop :=
  if (k <? 12)%nat then block i !! k = Some p else
  exists ib, block i !! 12%nat = Some ib /\ 0 < ib < nb /\ get_le 4 (block_bytes fs ib) (4 * (Z.of_nat k - 12)) = Ok p.

(** A file whose blocks [ps] are all mapped. *)
Record mapped_file (nb : Z) fs (i : Inode) (ps : list Z) : Prop := mkMapped {
  mf_blocks : forall k p, ps !! k = Some p -> points_to nb fs i k p /\ 0 < p < nb;
  mf_limit : Z.of_nat (length ps) <= 12 + block_size fs / 4;
  mf_size : 0 <= size i <= Z.of_nat (length ps) * block_size fs;
}.

Definition file_content fs (i : Inode) (ps : list Z) : list Z :=
  take (Z.to_nat (size i)) (concat (block_bytes fs <$> ps)).

Lemma blocks_length nb fs i ps : geometry nb fs -> mapped_file nb fs i ps ->
  Forall (fun l => length l = Z.to_nat (block_size fs)) (block_bytes fs <$> ps).
Proof.
  intros Hg Hf. apply Forall_fmap, Forall_forall. intros p Hp%list_elem_of_In%list_elem_of_lookup_1. destruct Hp as [k Hk].
  destruct (mf_blocks _ _ _ _ Hf k p Hk) as (_ & Hp). destruct (block_bytes_ok nb fs p Hg ltac:(lia)) as (_ & Hl & _).
  cbn. lia.
Qed.

Lemma length_file_content nb fs i ps : geometry nb fs -> mapped_file nb fs i ps ->
  Z.of_nat (length (file_content fs i ps)) = size i.
Proof.
  intros Hg Hf. unfold file_content. rewrite length_take.
  assert (El : length (concat (block_bytes fs <$> ps)) = (length ps * Z.to_nat (block_size fs))%nat).
  { pose proof (blocks_length nb fs i ps Hg Hf) as Hall. rewrite <- (length_fmap (block_bytes fs) ps).
    generalize dependent (block_bytes fs <$> ps). induction 1 as [|l ls Hl _ IH]; [done|]. simpl. rewrite length_app. lia. }
  pose proof (mf_size _ _ _ _ Hf). pose proof (geometry_block_size nb fs Hg). nia.
Qed.

Lemma mapped_small nb fs i ps : geometry nb fs -> mapped_file nb fs i ps ->
  Z.of_nat (length ps) <= 8204 /\ size i < 2 ^ 30.
Proof.
  intros Hg Hf. pose proof (geometry_block_size nb fs Hg). pose proof (mf_limit _ _ _ _ Hf). pose proof (mf_size _ _ _ _ Hf).
  assert (block_size fs / 4 <= 8192) by (apply Z.div_le_upper_bound; lia). nia.
Qed.

Lemma mapped_block nb fs i ps k p : geometry nb fs -> mapped_file nb fs i ps -> ps !! k = Some p ->
  inodeBlockAtOrAlloc i (Z.of_nat k) fs = Ok ((p, i), fs).
Proof.
  intros Hg Hf Hk. destruct (mf_blocks _ _ _ _ Hf k p Hk) as (Hb & Hp). pose proof (mf_limit _ _ _ _ Hf).
  pose proof (lookup_lt_Some _ _ _ Hk). unfold inodeBlockAtOrAlloc. unfold points_to in Hb.
  destruct (Nat.ltb_spec k 12) as [Hk12|Hk12].
  - rewrite (proj2 (Z.ltb_lt _ _)) by lia.
    assert (E : load (block i) (Z.of_nat k) = Ok p) by (apply load_ok; rewrite Nat2Z.id; split; [lia | done]).
    step E. by rewrite (proj2 (Z.eqb_neq p 0)) by lia.
  - rewrite (proj2 (Z.ltb_ge _ _)) by lia. destruct Hb as (ib & Hib & Hr & Eg). step_get.
    unfold ptrs_per_block. rewrite (proj2 (Z.leb_gt _ _)) by lia.
    assert (E : load (block i) 12 = Ok ib) by (apply load_ok; split; [lia | done]).
    assert (Ei : indirect_block i fs = Ok ((Some ib, i), fs)).
    { unfold indirect_block. step E. by rewrite (proj2 (Z.eqb_neq ib 0)) by lia. }
    step Ei. step (kmalloc_ok nb fs (block_size fs) Hg). step (readBlock_fresh nb fs ib Hg ltac:(lia)). step Eg.
    by rewrite (proj2 (Z.eqb_neq p 0)) by lia.
Qed.

(** Blocks left to visit, from position [pos] up to [stop]. *)
Definition blocks_left (bs pos stop : Z) : Z := if stop <=? pos then 0 else (stop - 1) / bs - pos / bs + 1.

(** A chunk ends the data or the block. *)
Lemma blocks_left_step bs pos stop : 0 < bs -> 0 <= pos -> pos < stop ->
  blocks_left bs (pos + Z.min (bs - pos mod bs) (stop - pos)) stop < blocks_left bs pos stop.
Proof.
  intros Hbs Hp Hs. pose proof (Z.div_mod pos bs ltac:(lia)). pose proof (Z.mod_pos_bound pos bs ltac:(lia)).
  assert (pos / bs <= (stop - 1) / bs) by (apply Z.div_le_mono; lia). unfold blocks_left. rewrite (proj2 (Z.leb_gt stop pos)) by lia.
  case_if; [lia|]. replace (pos + _) with ((pos / bs + 1) * bs) by lia. rewrite Z.div_mul by lia. lia.
Qed.

Lemma read_loop_ok nb fs i ps off count : geometry nb fs -> mapped_file nb fs i ps ->
  0 <= off -> 0 <= count -> off + count <= size i ->
  forall fuel buf dst, Z.of_nat (length buf) = block_size fs ->
    dst = take (length dst) (drop (Z.to_nat off) (file_content fs i ps)) -> Z.of_nat (length dst) <= count ->
    blocks_left (block_size fs) (off + Z.of_nat (length dst)) (off + count) < Z.of_nat fuel ->
    read_loop fuel i off count buf dst fs =
      Ok ((true, take (Z.to_nat count) (drop (Z.to_nat off) (file_content fs i ps)), i), fs).
Proof.
  intros Hg Hf Ho Hc Hsz. pose proof (geometry_block_size nb fs Hg) as Hbs. pose proof (mf_size _ _ _ _ Hf) as Hms.
  destruct (mapped_small nb fs i ps Hg Hf) as [Hdir Hsmall]. pose proof (length_file_content nb fs i ps Hg Hf) as Hlc.
  set (content := file_content fs i ps) in *. set (bs := block_size fs) in *.
  induction fuel as [|fuel IH]; intros buf dst Hbuf Hdst Hle Hfuel.
  { unfold blocks_left in Hfuel. exfalso. destruct (Z.leb_spec (off + count) (off + Z.of_nat (length dst))); [lia|].
    assert ((off + Z.of_nat (length dst)) / bs <= (off + count - 1) / bs) by (apply Z.div_le_mono; lia). lia. }
  cbn [read_loop]. destruct (Z.leb_spec count (Z.of_nat (length dst))) as [Hdone|Hmore].
  { replace (Z.to_nat count) with (length dst) by lia. by rewrite <- Hdst. }
  step_get. fold bs. set (pos := off + Z.of_nat (length dst)) in *. rewrite (u64_small pos) by nia.
  step (udiv_ok pos bs ltac:(lia)).
  pose proof (Z.div_mod pos bs ltac:(lia)) as Hdm. pose proof (Z.mod_pos_bound pos bs ltac:(lia)) as Hmb.
  assert (Hk : 0 <= pos / bs < Z.of_nat (length ps)).
  { split; [apply Z.div_pos; lia | apply Z.div_lt_upper_bound; nia]. }
  rewrite (u32_small (pos / bs)) by lia.
  destruct (lookup_lt_is_Some_2 ps (Z.to_nat (pos / bs))) as [p Hp]; [lia|].
  pose proof (mapped_block nb fs i ps _ p Hg Hf Hp) as Eb. rewrite Z2Nat.id in Eb by lia. step Eb.
  destruct (mf_blocks _ _ _ _ Hf _ _ Hp) as (_ & Hpr). rewrite (proj2 (Z.eqb_neq p 0)) by lia.
  step (readBlock_ok nb fs p buf Hg ltac:(lia) Hbuf).
  destruct (block_bytes_ok nb fs p Hg ltac:(lia)) as (_ & Hpl & _). fold bs in Hpl.
  set (chunk := Z.min (bs - pos mod bs) (count - Z.of_nat (length dst))). 
  assert (Hch : 0 < chunk /\ chunk <= bs - pos mod bs /\ chunk <= count - Z.of_nat (length dst) /\
    chunk = Z.min (bs - pos mod bs) (off + count - pos)).
  { replace (off + count - pos) with (count - Z.of_nat (length dst)) by (unfold pos; lia). unfold chunk. lia. }
  clearbody chunk. destruct Hch as (Hch0 & Hch1 & Hch2 & Hch3).
  assert (Hw : pos mod bs + chunk <= Z.of_nat (length (block_bytes fs p))) by (rewrite Hpl; clear -Hch1; lia).
  step (slice_ok (block_bytes fs p) (pos mod bs) chunk ltac:(apply Hmb) ltac:(lia) Hw).
  set (data := take (Z.to_nat chunk) (drop (Z.to_nat (pos mod bs)) (block_bytes fs p))).
  assert (Hdl : Z.of_nat (length data) = chunk) by (unfold data; rewrite length_take, length_drop; lia).
  assert (Hdata : data = take (Z.to_nat chunk) (drop (Z.to_nat pos) content)).
  { unfold content, file_content. rewrite (take_drop_commute _ _ (Z.to_nat pos)), take_take, Nat.min_l by lia.
    rewrite <- take_drop_commute. unfold data. rewrite <- (concat_window (block_bytes fs <$> ps) (Z.to_nat bs) (Z.to_nat (pos / bs)) (Z.to_nat (pos mod bs)) (Z.to_nat chunk) (block_bytes fs p)).
    - do 2 f_equal. nia.
    - apply (blocks_length nb fs i ps Hg Hf).
    - by rewrite list_lookup_fmap, Hp.
    - lia. }
  apply IH; [lia | | rewrite length_app; lia |].
  - rewrite length_app. replace (length data) with (Z.to_nat chunk) by lia. rewrite <- take_take_drop.
    f_equal; [exact Hdst|]. rewrite Hdata, drop_drop. do 2 f_equal. lia.
  - rewrite length_app. pose proof (blocks_left_step bs pos (off + count) ltac:(lia) ltac:(lia) ltac:(lia)) as Hbl.
    rewrite <- Hch3 in Hbl. replace (off + Z.of_nat (length dst + length data)) with (pos + chunk) by (unfold pos; lia). lia.
Qed.

Lemma read_fuel_enough bs off count : 0 < bs -> 0 <= off -> 0 <= count ->
  blocks_left bs off (off + count) < Z.of_nat (Z.to_nat (count / bs) + 3).
Proof.
  intros Hbs Ho Hc. assert (0 <= count / bs) by (apply Z.div_pos; lia). unfold blocks_left. case_if; [lia|].
  pose proof (Z.div_mod count bs ltac:(lia)). pose proof (Z.mod_pos_bound count bs ltac:(lia)).
  pose proof (Z.div_mod off bs ltac:(lia)). pose proof (Z.mod_pos_bound off bs ltac:(lia)).
  assert ((off + count - 1) / bs < off / bs + count / bs + 2) by (apply Z.div_lt_upper_bound; nia). lia.
Qed.

Lemma ext2_read_ok nb fs i ps ino off count : geometry nb fs -> mapped_file nb fs i ps ->
  0 <= off -> 0 <= count -> off + count < 2 ^ 64 ->
  let data := take (Z.to_nat count) (drop (Z.to_nat off) (file_content fs i ps)) in
  read (mkPriv ino i) off count fs = Ok ((Z.of_nat (length data), data, mkPriv ino i), fs).
Proof.
  intros Hg Hf Ho Hc Hoc data. pose proof (geometry_block_size nb fs Hg) as Hbs.
  pose proof (length_file_content nb fs i ps Hg Hf) as Hlc. unfold read. cbn [p_inode p_inode_num].
  destruct (Z.leb_spec (size i) off) as [Hend|Hin].
  { assert (data = []) as -> by (unfold data; rewrite drop_ge, take_nil by lia; done). done. }
  rewrite u64_small by lia. set (n := if size i <? off + count then size i - off else count).
  assert (Hn : 0 <= n /\ off + n <= size i /\ data = take (Z.to_nat n) (drop (Z.to_nat off) (file_content fs i ps))).
  { unfold n, data. destruct (Z.ltb_spec (size i) (off + count)); split_and!; try lia; try done.
    rewrite !take_ge by (rewrite length_drop; lia). done. }
  destruct Hn as (Hn0 & Hn1 & ->). step_get. step (kmalloc_ok nb fs (block_size fs) Hg).
  assert (E := read_loop_ok nb fs i ps off n Hg Hf Ho Hn0 Hn1 (Z.to_nat (n / block_size fs) + 3)
    (junk (Z.to_nat (block_size fs))) [] ltac:(rewrite length_junk; lia) eq_refl ltac:(simpl; lia)).
  rewrite Z.add_0_r in E. specialize (E (read_fuel_enough (block_size fs) off n ltac:(lia) Ho Hn0)).
  step E. done.
Qed.

(** ** Claims *)

(** [read] of a file whose blocks are mapped returns the bytes of the file
    from the offset on, as many as asked for and the file has, and leaves file
    system and handle unchanged. *)
Theorem ext2_read_correct nb fs i ps ino off count : geometry nb fs -> mapped_file nb fs i ps ->
  0 <= off -> 0 <= count -> off + count < 2 ^ 64 ->
  let data := take (Z.to_nat count) (drop (Z.to_nat off) (file_content fs i ps)) in
  read (mkPriv ino i) off count fs = Ok ((Z.of_nat (length data), data, mkPriv ino i), fs).
Proof. apply ext2_read_ok. Qed.
End read.
