(* ===== verification/Ext2Grow.v ===== *)
(** Well-formed file systems and files of the ext2 driver: which blocks a file
    owns, and that [inodeBlockAtOrAlloc] returns its blocks and grows it, in the
    inode and behind the block of pointers, keeping both well-formed. *)

From Stdlib Require Import ZifyBool.
From S2P Require Import Prelude Bytes Ext2Layout Ext2 Ext2Proofs Ext2Files Ext2Alloc.

(** Little-endian integers in a buffer. *)
Lemma get_put_le w buf off v buf' : put_le w buf off v = Ok buf' -> 0 <= w -> 0 <= v < 2 ^ (8 * w) -> get_le w buf' off = Ok v.
Proof.
  unfold put_le, get_le. intros Hp Hw Hv. pose proof (length_le w v Hw) as Hl. pose proof (splice_inv _ _ _ _ Hp) as (Ho & Hod & _).
  rewrite slice_ok by (rewrite ?(splice_length _ _ _ _ Hp); lia). cbn [mbind outcome_bind]. rewrite <- Hl.
  rewrite (splice_self _ _ _ _ Hp). by rewrite le_value_le.
Qed.

Lemma get_le_other w buf off v buf' o : put_le w buf off v = Ok buf' -> 0 <= w -> 0 <= o ->
  o + w <= off \/ off + w <= o -> get_le w buf' o = get_le w buf o.
Proof.
  unfold put_le, get_le. intros Hp Hw Ho Hd. pose proof (length_le w v Hw) as Hl. pose proof (splice_length _ _ _ _ Hp) as Hlen.
  assert (E : slice buf' o w = slice buf o w); [|by rewrite E]. unfold slice.
  rewrite Hlen. case_if; [|done]. f_equal. apply (splice_other _ _ _ _ _ _ Hp); lia.
Qed.

Lemma get_le_zeros w n o : 0 <= o -> 0 <= w -> o + w <= n -> get_le w (replicate (Z.to_nat n) 0) o = Ok 0.
Proof.
  intros Ho Hw Hn. unfold get_le. rewrite slice_ok by (rewrite ?length_replicate; lia). cbn [mbind outcome_bind].
  rewrite drop_replicate, take_replicate. f_equal. induction (Z.to_nat w `min` (Z.to_nat n - Z.to_nat o))%nat as [|k IH]; [done|].
  unfold le_value in *. cbn [replicate little_endian_to_Z]. by rewrite IH.
Qed.

Section grow.
Context {D : Type} `{BlockDevLaws D} `{UninitLaws}.
Implicit Types fs : FsInstance D.

(** ** Well-formed file systems *)

Definition in_table fs (b : Z) : Prop :=
  exists k gd, groups fs !! k = Some gd /\ inode_table gd <= b < inode_table gd + table_blocks fs.
Definition is_bitmap fs (b : Z) : Prop := exists k gd, groups fs !! k = Some gd /\ b = block_bitmap gd.

Definition is_inode_bitmap fs (b : Z) : Prop := exists k gd, groups fs !! k = Some gd /\ b = inode_bitmap gd.

(** The blocks that hold no file. *)
Definition system fs (b : Z) : Prop := reserved fs b \/ is_bitmap fs b \/ is_inode_bitmap fs b \/ in_table fs b.

Record fs_ok (nb : Z) fs : Prop := {
  fo_geometry : geometry nb fs;
  fo_meta : meta_layout nb fs;
  fo_blocks : block_layout nb fs;
  fo_inodes : inode_layout nb fs;
  fo_used : forall b, fs_block fs b -> system fs b -> block_used fs b = true;
  fo_some : fdb fs < blocks_count (sb fs);
  fo_tables : forall b, in_table fs b -> ~ reserved fs b /\ ~ is_bitmap fs b;
}.

Definition group_places (gd : GroupDesc) : Z * Z * Z := (block_bitmap gd, inode_table gd, inode_bitmap gd).

(** Two instances with the same arrangement of blocks. *)
Record same_shape fs fs' : Prop := {
  ss_block_size : block_size fs' = block_size fs;
  ss_sector : sector_size fs' = sector_size fs;
  ss_fdb : fdb fs' = fdb fs;
  ss_bpg : bpg fs' = bpg fs;
  ss_total : blocks_count (sb fs') = blocks_count (sb fs);
  ss_count : group_count fs' = group_count fs;
  ss_ipg : ipg fs' = ipg fs;
  ss_isz : isz fs' = isz fs;
  ss_groups : group_places <$> groups fs' = group_places <$> groups fs;
}.

Lemma same_shape_refl fs : same_shape fs fs.
Proof. by split. Qed.
Lemma same_shape_trans fs1 fs2 fs3 : same_shape fs1 fs2 -> same_shape fs2 fs3 -> same_shape fs1 fs3.
Proof. intros [] []. split; congruence. Qed.

Lemma same_instance_shape fs fs' : same_instance fs fs' -> same_shape fs fs'.
Proof. unfold same_instance. intros ->. by split. Qed.

Lemma shape_group fs fs' k gd' : same_shape fs fs' -> groups fs' !! k = Some gd' ->
  exists gd, groups fs !! k = Some gd /\ block_bitmap gd' = block_bitmap gd /\ inode_table gd' = inode_table gd /\
    inode_bitmap gd' = inode_bitmap gd.
Proof.
  intros Hs Hk. pose proof (f_equal (.!! k) (ss_groups _ _ Hs)) as Hg. rewrite !list_lookup_fmap, Hk in Hg. cbn in Hg.
  destruct (groups fs !! k) as [gd|]; [|done]. injection Hg as ? ? ?. by exists gd.
Qed.

Lemma same_shape_sym fs fs' : same_shape fs fs' -> same_shape fs' fs.
Proof. intros []. by split. Qed.

Lemma shape_system fs fs' b : same_shape fs fs' ->
  (reserved fs' b <-> reserved fs b) /\ (is_bitmap fs' b -> is_bitmap fs b) /\ (in_table fs' b -> in_table fs b) /\
  (is_inode_bitmap fs' b -> is_inode_bitmap fs b).
Proof.
  intros Hs. pose proof Hs as [Eb _ Ef _ _ Ec Ei Es _]. split; [unfold reserved, gdt_blocks; by rewrite Ef, Ec, Eb|]. split_and!.
  - intros (k & gd' & Hk & ->). destruct (shape_group _ _ _ _ Hs Hk) as (gd & Hgd & E1 & E2). by exists k, gd.
  - intros (k & gd' & Hk & Hb). destruct (shape_group _ _ _ _ Hs Hk) as (gd & Hgd & E1 & E2). exists k, gd. split; [done|].
    unfold table_blocks in *. rewrite Ei, Es, Eb in Hb. by rewrite <- (proj1 E2).
  - intros (k & gd' & Hk & ->). destruct (shape_group _ _ _ _ Hs Hk) as (gd & Hgd & _ & _ & ->). by exists k, gd.
Qed.

Lemma system_shape fs fs' b : same_shape fs fs' -> system fs' b -> system fs b.
Proof. intros Hs. destruct (shape_system fs fs' b Hs) as (H1' & H2' & H3' & H4'). unfold system. tauto. Qed.

Lemma counted_shape fs fs' g db di gd : groups fs !! Z.to_nat g = Some gd -> same_instance (counted fs g db di gd) fs' -> same_shape fs fs'.
Proof.
  intros Hg Hs. unfold same_instance in Hs. rewrite Hs. split; try done. cbn. rewrite list_fmap_insert. cbn.
  rewrite list_insert_id; [done|]. by rewrite list_lookup_fmap, Hg.
Qed.

Lemma inode_layout_shape nb fs fs' : same_shape fs fs' -> inode_layout nb fs -> inode_layout nb fs'.
Proof.
  intros Hs [L1 L2 L3 L4 L5 L6 L7 L8]. pose proof Hs as [Eb _ _ _ _ Ec Ei Es Eg].
  constructor; rewrite ?Ei, ?Es, ?Eb, ?Ec; try done.
  - rewrite <- L6, <- (length_fmap group_places (groups fs')), Eg, length_fmap. done.
  - intros k gd' Hk. destruct (shape_group _ _ _ _ Hs Hk) as (gd & Hgd & _ & -> & _). unfold table_blocks. rewrite Ei, Es, Eb. by apply (L7 k).
  - intros k k' gd1 gd2 Hne Hk Hk'. destruct (shape_group _ _ _ _ Hs Hk) as (a & Ha & _ & -> & _).
    destruct (shape_group _ _ _ _ Hs Hk') as (b & Hb & _ & -> & _). unfold table_blocks. rewrite Ei, Es, Eb. by apply (L8 k k').
Qed.

Lemma meta_shape_blocks nb fs fs' : same_shape fs fs' -> block_layout nb fs -> block_layout nb fs'.
Proof.
  intros Hs [L1 L2 L3 L4 L5]. pose proof Hs as [Eb _ Ef Ep Et Ec _ _ _].
  constructor; rewrite ?Ep, ?Eb, ?Ef, ?Et, ?Ec; try done.
  - intros k gd' Hk. destruct (shape_group _ _ _ _ Hs Hk) as (gd & Hgd & -> & _).
    unfold reserved, gdt_blocks. rewrite Ef, Ec, Eb. by apply (L4 k).
  - intros k k' gd1 gd2 Hk Hk'. destruct (shape_group _ _ _ _ Hs Hk) as (a & Ha & -> & _).
    destruct (shape_group _ _ _ _ Hs Hk') as (b & Hb & -> & _). by apply (L5 k k').
Qed.

Lemma shape_fs_block fs fs' b : same_shape fs fs' -> fs_block fs' b <-> fs_block fs b.
Proof. intros Hs. unfold fs_block. by rewrite (ss_fdb _ _ Hs), (ss_total _ _ Hs). Qed.

(** [fs_ok] after a change that keeps the arrangement, and the blocks of the
    system in use. *)
Lemma fs_ok_system nb fs fs' : fs_ok nb fs -> same_shape fs fs' -> geometry nb fs' -> meta_layout nb fs' ->
  (forall b, fs_block fs b -> system fs b -> block_used fs' b = true) -> fs_ok nb fs'.
Proof.
  intros Hok Hs Hg Hm Hu. pose proof Hok as [_ _ Hbl Hil Hus Hz Ht]. constructor.
  - done.
  - done.
  - by apply (meta_shape_blocks nb fs).
  - by apply (inode_layout_shape nb fs).
  - intros b Hb%(shape_fs_block _ _ _ Hs) Hsys%(system_shape _ _ _ Hs). by apply Hu.
  - by rewrite (ss_fdb _ _ Hs), (ss_total _ _ Hs).
  - intros b Hb. destruct (shape_system _ _ b Hs) as (H1' & H2' & H3' & _). destruct (Ht b (H3' Hb)) as [Hr Hbm].
    split; [by rewrite H1' | intros Hb'; by apply Hbm, H2'].
Qed.

Lemma fs_ok_shape nb fs fs' : fs_ok nb fs -> same_shape fs fs' -> geometry nb fs' -> meta_layout nb fs' ->
  (forall b, fs_block fs b -> block_used fs b = true -> block_used fs' b = true) -> fs_ok nb fs'.
Proof. intros Hok Hs Hg Hm Hu. apply (fs_ok_system nb fs); try done. intros b Hb Hsys. by apply Hu, (fo_used nb fs Hok). Qed.

Lemma block_zero nb fs : fs_ok nb fs -> fdb fs = 0 -> block_used fs 0 = true.
Proof.
  intros Hok E. pose proof (fo_some nb fs Hok). apply (fo_used nb fs Hok); [unfold fs_block; lia|]. left. unfold reserved.
  pose proof (gdt_room nb fs (fo_geometry nb fs Hok) (fo_meta nb fs Hok)). lia.
Qed.

Lemma bitmap_of_is nb fs b : fs_ok nb fs -> fs_block fs b -> is_bitmap fs (bitmap_of fs (block_group fs b)).
Proof.
  intros Hok Hb. destruct (block_group_range nb fs b (fo_meta nb fs Hok) (fo_blocks nb fs Hok) Hb) as (_ & _ & _ & gd & Hgd & ->).
  by exists (Z.to_nat (block_group fs b)), gd.
Qed.

Lemma bitmap_range nb fs b : fs_ok nb fs -> is_bitmap fs b -> 0 <= b < nb.
Proof. intros Hok (k & gd & Hk & ->). apply (bl_bitmap nb fs (fo_blocks nb fs Hok) k gd Hk). Qed.

(** A write outside the bitmaps leaves the file system well-formed. *)
Lemma write_frame nb fs fs' : fs_ok nb fs -> geometry nb fs' -> same_instance fs fs' ->
  (forall b, is_bitmap fs b -> block_bytes fs' b = block_bytes fs b) ->
  fs_ok nb fs' /\ forall b, fs_block fs b -> block_used fs' b = block_used fs b.
Proof.
  intros Hok Hg Hs Hbm. assert (Hu : forall b, fs_block fs b -> block_used fs' b = block_used fs b).
  { intros b Hb. unfold block_used. assert (E : block_group fs' b = block_group fs b /\ block_index fs' b = block_index fs b /\
      bitmap_of fs' (block_group fs b) = bitmap_of fs (block_group fs b)) by (unfold same_instance in Hs; by rewrite Hs).
    destruct E as (-> & -> & ->). by rewrite Hbm by by apply (bitmap_of_is nb). }
  split; [|done]. apply (fs_ok_shape nb fs); [done | by apply same_instance_shape | done | by apply (meta_same nb fs), fo_meta |].
  intros b Hb. by rewrite Hu.
Qed.

(** [allocBlock] on a well-formed file system. *)
Lemma fs_alloc_ok nb fs : fs_ok nb fs ->
  (allocBlock 0 fs = Ok (0, fs) /\ forall g, 0 <= g < group_count fs -> group_full fs g) \/
  exists b fs', allocBlock 0 fs = Ok (b, fs') /\ 0 < b < nb /\ fs_block fs b /\ block_used fs b = false /\ ~ system fs b /\
    fs_ok nb fs' /\ same_shape fs fs' /\
    (forall b', fs_block fs b' -> block_used fs' b' = block_used fs b' || (b' =? b)) /\
    forall c, 0 <= c < nb -> ~ reserved fs c -> ~ is_bitmap fs c -> block_bytes fs' c = block_bytes fs c.
Proof.
  intros Hok. pose proof Hok as [Hg Hm Hbl Hil Hus Hso Ht].
  destruct (allocBlock_ok nb fs Hg Hm Hbl (block_zero nb fs Hok)) as [?|(b & fs' & E & Hb0 & Hb & Hfree & Hch)]; [by left|].
  right. exists b, fs'. pose proof Hch as [Hg' Hm' _ _ (gd & Hgd & Hsi) Hused Hframe].
  pose proof (counted_shape fs fs' _ _ _ gd Hgd Hsi) as Hs. pose proof (bl_total nb fs Hbl). pose proof (ml_fdb nb fs Hm).
  assert (Hu : forall b', fs_block fs b' -> block_used fs' b' = block_used fs b' || (b' =? b)).
  { intros b' Hb'. rewrite Hused by done. destruct (b' =? b); [by rewrite orb_true_r | by rewrite orb_false_r]. }
  split_and!; try done; [unfold fs_block in Hb; lia | unfold fs_block in Hb; lia | | |].
  - intros Hsys. by rewrite (Hus b Hb Hsys) in Hfree.
  - apply (fs_ok_shape nb fs); try done. intros b' Hb' E'. by rewrite Hu, E' by done.
  - intros c Hc Hr Hnb. apply Hframe; [done | done |]. intros ->. by apply Hnb, (bitmap_of_is nb).
Qed.

(** ** Files *)

(** The block of pointers of an inode, and the blocks of a file with it. *)
Definition ind (i : Inode) : Z := nth 12 (block i) 0.
Definition owned (i : Inode) (ps : list Z) : list Z := ps ++ (if ind i =? 0 then [] else [ind i]).

(** The entries of the block of pointers, when there is one. *)
Definition indirect_ok fs (i : Inode) (ps : list Z) : Prop :=
  if ind i =? 0 then (length ps <= 12)%nat else
  forall j, Z.of_nat j < block_size fs / 4 ->
    get_le 4 (block_bytes fs (ind i)) (4 * Z.of_nat j) = Ok (default 0 (ps !! (12 + j)%nat)).

(** A file without holes, whose blocks [ps] and block of pointers are in use
    and its own. *)
Record file_ok (nb : Z) fs (i : Inode) (ps : list Z) : Prop := mkFile {
  fi_inode : inode_ok i;
  fi_direct : forall k, (k < 12)%nat -> block i !! k = Some (default 0 (ps !! k));
  fi_limit : Z.of_nat (length ps) <= 12 + block_size fs / 4;
  fi_indirect : indirect_ok fs i ps;
  fi_nodup : NoDup (owned i ps);
  fi_used : forall p, p ∈ owned i ps -> 0 < p /\ fs_block fs p /\ ~ system fs p /\ block_used fs p = true;
}.

(** The file grew from [ps] to [ps'], and nothing but its blocks changed. *)
Record file_step (nb : Z) fs (i : Inode) (ps : list Z) fs' (i' : Inode) (ps' : list Z) : Prop := mkStep {
  st_ok : fs_ok nb fs';
  st_file : file_ok nb fs' i' ps';
  st_shape : same_shape fs fs';
  st_prefix : ps `prefix_of` ps';
  st_owned : owned i ps ⊆ owned i' ps';
  st_inode : i' = set_blocks i (blocks i') (block i');
  st_fresh : forall p, p ∈ owned i' ps' -> p ∈ owned i ps \/ fs_block fs p /\ block_used fs p = false;
  st_used : forall b, fs_block fs b -> block_used fs' b = block_used fs b || bool_decide (b ∈ owned i' ps');
  st_frame : forall c, 0 <= c < nb -> ~ reserved fs c -> ~ is_bitmap fs c -> c ∉ owned i' ps' ->
    block_bytes fs' c = block_bytes fs c;
}.

Lemma file_step_refl nb fs i ps : fs_ok nb fs -> file_ok nb fs i ps -> file_step nb fs i ps fs i ps.
Proof.
  intros Hok Hf. constructor; try done; [by destruct i | by left |].
  intros b Hb. case_bool_decide as Hin; [|by rewrite orb_false_r]. by destruct (fi_used _ _ _ _ Hf b Hin) as (_ & _ & _ & ->).
Qed.

Lemma file_step_trans nb fs1 i1 ps1 fs2 i2 ps2 fs3 i3 ps3 : file_step nb fs1 i1 ps1 fs2 i2 ps2 ->
  file_step nb fs2 i2 ps2 fs3 i3 ps3 -> file_step nb fs1 i1 ps1 fs3 i3 ps3.
Proof.
  intros [A1 A2 A3 A4 A0 A5 A6 A7 A8] [B1 B2 B3 B4 B0 B5 B6 B7 B8].
  assert (Hfb : forall p, fs_block fs2 p <-> fs_block fs1 p) by (intros; by apply shape_fs_block).
  constructor; try done.
  - by apply (same_shape_trans _ fs2).
  - by trans ps2.
  - by trans (owned i2 ps2).
  - rewrite B5, A5. done.
  - intros p Hp. destruct (B6 p Hp) as [Hp2|[Hb Hu]]; [by apply A6|]. apply Hfb in Hb. right. split; [done|].
    rewrite A7 in Hu by done. by apply orb_false_iff in Hu as [-> _].
  - intros b Hb. rewrite B7 by by apply Hfb. rewrite A7 by done. destruct (decide (b ∈ owned i2 ps2)) as [Hin|Hout].
    + rewrite !bool_decide_eq_true_2 by auto. by rewrite !orb_true_r.
    + by rewrite (bool_decide_eq_false_2 (b ∈ owned i2 ps2)), orb_false_r.
  - intros c Hc Hr Hb Hin. rewrite B8, A8; try done; [intros Hi; by apply Hin, B0 | by rewrite (proj1 (shape_system _ _ c A3)) |].
    intros Hi. apply Hb. by apply (shape_system _ _ c A3).
Qed.

Lemma in_owned i ps p : p ∈ owned i ps <-> p ∈ ps \/ ind i <> 0 /\ p = ind i.
Proof.
  unfold owned. rewrite elem_of_app. destruct (Z.eqb_spec (ind i) 0) as [E|E].
  - rewrite elem_of_nil. tauto.
  - rewrite list_elem_of_singleton. tauto.
Qed.

Lemma file_block_range nb fs i ps p : fs_ok nb fs -> file_ok nb fs i ps -> p ∈ owned i ps ->
  0 < p < nb /\ ~ reserved fs p /\ ~ is_bitmap fs p /\ ~ in_table fs p.
Proof.
  intros Hok Hf Hp. destruct (fi_used _ _ _ _ Hf p Hp) as (H0' & Hb & Hs & _). unfold fs_block in Hb.
  pose proof (bl_total nb fs (fo_blocks nb fs Hok)). unfold system in Hs. split_and!; [lia | lia | tauto..].
Qed.

Lemma data_range nb fs i ps p : fs_ok nb fs -> file_ok nb fs i ps -> p ∈ ps ->
  0 < p < nb /\ ~ reserved fs p /\ ~ is_bitmap fs p /\ ~ in_table fs p.
Proof. intros Hok Hf Hp. apply (file_block_range nb fs i ps p Hok Hf), in_owned. by left. Qed.

Lemma ind_not_data nb fs i ps p : file_ok nb fs i ps -> ind i <> 0 -> p ∈ ps -> p <> ind i.
Proof.
  intros Hf Hi Hp ->. pose proof (fi_nodup _ _ _ _ Hf) as Hn. unfold owned in Hn. rewrite (proj2 (Z.eqb_neq _ _) Hi) in Hn.
  apply list.NoDup_app in Hn as (_ & Hn & _). apply (Hn _ Hp). by left.
Qed.

Lemma data_nodup nb fs i ps : file_ok nb fs i ps -> NoDup ps.
Proof. intros Hf. pose proof (fi_nodup _ _ _ _ Hf) as Hn. unfold owned in Hn. by apply list.NoDup_app in Hn as (? & _). Qed.

(** A file after a change that touches neither its inode nor its block of
    pointers. *)
Lemma file_kept nb fs fs' i ps : file_ok nb fs i ps -> same_shape fs fs' ->
  (forall b, fs_block fs b -> block_used fs b = true -> block_used fs' b = true) ->
  (ind i <> 0 -> block_bytes fs' (ind i) = block_bytes fs (ind i)) -> file_ok nb fs' i ps.
Proof.
  intros [F1 F2 F3 F4 F5 F6] Hs Hu Hi. pose proof (ss_block_size _ _ Hs) as Ebs. constructor; try done.
  - by rewrite Ebs.
  - unfold indirect_ok in *. rewrite Ebs. destruct (Z.eqb_spec (ind i) 0); [done|]. by rewrite Hi.
  - intros p Hp. destruct (F6 p Hp) as (? & Hb & Hsys & Hpu).
    split; [done|]. split; [by apply (shape_fs_block _ _ _ Hs)|]. split; [|by apply Hu].
    intros Hs'. by apply Hsys, (system_shape _ _ _ Hs).
Qed.

Lemma fields_insert ws vs k v w : fields_ok ws vs -> ws !! k = Some w -> 0 <= v < 2 ^ (8 * Z.of_nat w) ->
  fields_ok ws (<[k := v]> vs).
Proof.
  unfold fields_ok. intros Hf. revert k. induction Hf as [|w' v' ws' vs' Hv' Hf' IH]; intros k Hk Hv; [by rewrite lookup_nil in Hk|].
  destruct k as [|k]; cbn in Hk |- *; constructor; try done; [by injection Hk as -> | by apply IH].
Qed.

(** An inode stays well-formed when blocks are added or the size grows. *)
Lemma set_blocks_ok i n bl : inode_ok i -> fields_ok (replicate 15 4%nat) bl -> inode_ok (set_blocks i (u32 n) bl).
Proof.
  intros (Hh & Hb & Ht & Ho & Hob) Hbl. split_and!; try done. unfold set_blocks, inode_with, fields_ok, inode_widths, inode_head in *.
  cbn in *. repeat match goal with H : Forall2 _ (_ :: _) (_ :: _) |- _ => apply Forall2_cons_iff in H as [? H] end.
  repeat (constructor; [done || apply u32_range|]). constructor.
Qed.

Lemma set_size_ok i n : inode_ok i -> inode_ok (set_size i (u32 n)).
Proof.
  intros (Hh & Hb & Ht & Ho & Hob). split_and!; try done. unfold set_size, inode_with, fields_ok, inode_widths, inode_head in *.
  cbn in *. repeat match goal with H : Forall2 _ (_ :: _) (_ :: _) |- _ => apply Forall2_cons_iff in H as [? H] end.
  repeat (constructor; [done || apply u32_range|]). constructor.
Qed.

(** A file that takes over the free block [p]. *)
Lemma file_grow_step nb fs i ps fs' i' ps' p : file_ok nb fs i ps -> fs_ok nb fs' -> same_shape fs fs' ->
  0 < p -> fs_block fs p -> block_used fs p = false -> ~ system fs p ->
  (forall b, fs_block fs b -> block_used fs' b = block_used fs b || (b =? p)) ->
  (forall c, 0 <= c < nb -> ~ reserved fs c -> ~ is_bitmap fs c -> c ∉ owned i' ps' -> block_bytes fs' c = block_bytes fs c) ->
  inode_ok i' -> (forall k, (k < 12)%nat -> block i' !! k = Some (default 0 (ps' !! k))) ->
  Z.of_nat (length ps') <= 12 + block_size fs / 4 -> indirect_ok fs' i' ps' ->
  owned i' ps' ≡ₚ p :: owned i ps -> ps `prefix_of` ps' -> i' = set_blocks i (blocks i') (block i') ->
  file_step nb fs i ps fs' i' ps'.
Proof.
  intros Hf Hok' Hs Hp0 Hpb Hpf Hps Hu Hfr Hi' Hdir Hlim Hind Hperm Hpre Einode.
  assert (Hin : forall q, q ∈ owned i' ps' <-> q = p \/ q ∈ owned i ps) by (intros q; by rewrite Hperm, elem_of_cons).
  constructor; try done.
  - constructor; try done; [by rewrite (ss_block_size _ _ Hs) | |].
    + rewrite Hperm. apply list.NoDup_cons. split; [|apply Hf]. intros Hpo.
      destruct (fi_used _ _ _ _ Hf p Hpo) as (_ & _ & _ & Hpu). congruence.
    + intros q Hq. assert (Hq' : 0 < q /\ fs_block fs q /\ ~ system fs q /\ block_used fs' q = true).
      { apply Hin in Hq as [->|Hq]; [rewrite Hu, Z.eqb_refl, orb_true_r by done; done|].
        destruct (fi_used _ _ _ _ Hf q Hq) as (? & ? & ? & Hqu). by rewrite Hu, Hqu by done. }
      destruct Hq' as (? & Hqb & Hqs & ?). split_and!; [done | by apply (shape_fs_block _ _ _ Hs) | | done].
      intros Hsys. by apply Hqs, (system_shape _ _ _ Hs).
  - intros q Hq. apply Hin. by right.
  - intros q Hq. apply Hin in Hq as [->|Hq]; [by right | by left].
  - intros b Hb. rewrite Hu by done. case_bool_decide as Hbi.
    + apply Hin in Hbi as [->|Hbi]; [by rewrite Z.eqb_refl|].
      destruct (fi_used _ _ _ _ Hf b Hbi) as (_ & _ & _ & ->). done.
    + rewrite (proj2 (Z.eqb_neq b p)); [done|]. intros ->. apply Hbi, Hin. by left.
Qed.

Lemma owned_snoc i i' ps p : ind i' = ind i -> owned i' (ps ++ [p]) ≡ₚ p :: owned i ps.
Proof. intros E. unfold owned. rewrite E. rewrite <- app_assoc. cbn [app]. symmetry. apply Permutation_middle. Qed.

Lemma length_block i : inode_ok i -> length (block i) = 15%nat.
Proof. intros (_ & Hb & _). by apply Forall2_length in Hb. Qed.

(** The inode with block [p] at index [k]. *)
Definition grown_inode fs (i : Inode) (k : nat) (p : Z) : Inode :=
  set_blocks i (u32 (blocks i + block_size fs / 512)) (<[k := p]> (block i)).

Lemma grown_inode_ok fs i k p : inode_ok i -> (k < 15)%nat -> 0 <= p < 2 ^ 32 -> inode_ok (grown_inode fs i k p).
Proof.
  intros Hi Hk Hp. apply set_blocks_ok; [done|]. destruct Hi as (_ & Hb & _). apply (fields_insert _ _ _ _ 4); [done | | done].
  by apply lookup_replicate.
Qed.

Lemma add_block_ok fs i k p : inode_ok i -> (k < 15)%nat -> add_block fs i (Z.of_nat k) p = Ok (grown_inode fs i k p).
Proof.
  intros Hi Hk. unfold add_block. rewrite store_in_range by (rewrite (length_block i Hi); lia). by rewrite Nat2Z.id.
Qed.

Lemma ind_grown fs i k p : inode_ok i -> ind (grown_inode fs i k p) = if (k =? 12)%nat then p else ind i.
Proof.
  intros Hi. pose proof (length_block i Hi) as Hl. unfold ind, grown_inode. cbn. destruct (Nat.eqb_spec k 12) as [->|Hne].
  - erewrite nth_lookup_Some; [done|]. apply list_lookup_insert_eq. lia.
  - rewrite !nth_lookup, list_lookup_insert_ne by done. done.
Qed.

(** A direct block is added at the end. *)
Lemma grow_direct nb fs fs' i ps p : file_ok nb fs i ps -> fs_ok nb fs' -> same_shape fs fs' -> (length ps < 12)%nat ->
  0 < p < 2 ^ 32 -> fs_block fs p -> block_used fs p = false -> ~ system fs p -> 0 < block_size fs ->
  (forall b, fs_block fs b -> block_used fs' b = block_used fs b || (b =? p)) ->
  (forall c, 0 <= c < nb -> ~ reserved fs c -> ~ is_bitmap fs c -> block_bytes fs' c = block_bytes fs c) ->
  (ind i <> 0 -> block_bytes fs' (ind i) = block_bytes fs (ind i)) ->
  file_step nb fs i ps fs' (grown_inode fs i (length ps) p) (ps ++ [p]).
Proof.
  intros Hf Hok' Hs Hlen Hp Hpb Hpf Hps Hbs Hu Hfr Hib. pose proof (fi_inode _ _ _ _ Hf) as Hi.
  pose proof (ind_grown fs i (length ps) p Hi) as Eind. rewrite (proj2 (Nat.eqb_neq _ _)) in Eind by lia.
  assert (Hq : 0 <= block_size fs / 4) by (apply Z.div_pos; lia).
  apply (file_grow_step nb fs i ps _ _ _ p); try done; [lia | by intros; apply Hfr | apply grown_inode_ok; [done | lia | lia] | | | |
    by apply owned_snoc | by exists [p]].
  - intros k Hk. cbn. destruct (decide (k = length ps)) as [->|Hne].
    + rewrite list_lookup_insert_eq by (rewrite (length_block i Hi); lia). by rewrite lookup_app_r, Nat.sub_diag by lia.
    + rewrite list_lookup_insert_ne by done. rewrite (fi_direct _ _ _ _ Hf k Hk). destruct (decide (k < length ps)%nat).
      * by rewrite lookup_app_l by lia.
      * by rewrite !lookup_ge_None_2 by (rewrite ?length_app; simpl; lia).
  - rewrite length_app. simpl. lia.
  - pose proof (fi_indirect _ _ _ _ Hf) as Hind. unfold indirect_ok in *. rewrite Eind, (ss_block_size _ _ Hs).
    destruct (Z.eqb_spec (ind i) 0); [rewrite length_app; simpl; lia|]. intros j Hj. rewrite Hib, (Hind j Hj) by done.
    by rewrite !lookup_ge_None_2 by (rewrite ?length_app; simpl; lia).
Qed.

(** An empty block of pointers is added. *)
Lemma grow_pointers nb fs fs' i ps p : file_ok nb fs i ps -> fs_ok nb fs' -> same_shape fs fs' -> ind i = 0 ->
  0 < p < 2 ^ 32 -> fs_block fs p -> block_used fs p = false -> ~ system fs p -> 0 < block_size fs ->
  (forall b, fs_block fs b -> block_used fs' b = block_used fs b || (b =? p)) ->
  (forall c, 0 <= c < nb -> ~ reserved fs c -> ~ is_bitmap fs c -> c <> p -> block_bytes fs' c = block_bytes fs c) ->
  block_bytes fs' p = replicate (Z.to_nat (block_size fs)) 0 ->
  file_step nb fs i ps fs' (grown_inode fs i 12 p) ps.
Proof.
  intros Hf Hok' Hs Hi0 Hp Hpb Hpf Hps Hbs Hu Hfr Hz. pose proof (fi_inode _ _ _ _ Hf) as Hi.
  pose proof (ind_grown fs i 12 p Hi) as Eind. cbn [Nat.eqb] in Eind.
  pose proof (fi_indirect _ _ _ _ Hf) as Hind. unfold indirect_ok in Hind. rewrite Hi0 in Hind. cbn [Z.eqb] in Hind.
  apply (file_grow_step nb fs i ps _ _ _ p); try done; [lia | | apply grown_inode_ok; [done | lia | lia] | | apply Hf | |].
  - intros c Hc Hr Hb Hin. apply Hfr; try done. intros ->. apply Hin, in_owned. right. rewrite Eind. split; [lia | done].
  - intros k Hk. cbn. rewrite list_lookup_insert_ne by lia. by apply (fi_direct _ _ _ _ Hf).
  - unfold indirect_ok. rewrite Eind, (proj2 (Z.eqb_neq p 0)), Hz, (ss_block_size _ _ Hs) by lia. intros j Hj.
    rewrite (lookup_ge_None_2 ps) by lia. apply get_le_zeros; [lia | lia |]. pose proof (Z.mul_div_le (block_size fs) 4 ltac:(lia)). lia.
  - unfold owned. rewrite Eind, Hi0, (proj2 (Z.eqb_neq p 0)) by lia. cbn [Z.eqb]. rewrite app_nil_r. by rewrite <- Permutation_cons_append.
Qed.

(** A block is added at the end of the block of pointers. *)
Lemma grow_indirect nb fs fs' i ps p buf : file_ok nb fs i ps -> fs_ok nb fs' -> same_shape fs fs' -> ind i <> 0 ->
  (12 <= length ps)%nat -> Z.of_nat (length ps) < 12 + block_size fs / 4 ->
  0 < p < 2 ^ 32 -> fs_block fs p -> block_used fs p = false -> ~ system fs p ->
  (forall b, fs_block fs b -> block_used fs' b = block_used fs b || (b =? p)) ->
  (forall c, 0 <= c < nb -> ~ reserved fs c -> ~ is_bitmap fs c -> c <> ind i -> block_bytes fs' c = block_bytes fs c) ->
  put_le 4 (block_bytes fs (ind i)) (4 * (Z.of_nat (length ps) - 12)) p = Ok buf -> block_bytes fs' (ind i) = buf ->
  file_step nb fs i ps fs' (set_blocks i (u32 (blocks i + block_size fs / 512)) (block i)) (ps ++ [p]).
Proof.
  intros Hf Hok' Hs Hi0 Hlen Hlim Hp Hpb Hpf Hps Hu Hfr Hput Ebuf. pose proof (fi_inode _ _ _ _ Hf) as Hi.
  set (i' := set_blocks i _ _). assert (Eind : ind i' = ind i) by done.
  pose proof (fi_indirect _ _ _ _ Hf) as Hind. unfold indirect_ok in Hind. rewrite (proj2 (Z.eqb_neq _ _) Hi0) in Hind.
  apply (file_grow_step nb fs i ps _ _ _ p); try done; [lia | | apply set_blocks_ok; [done | apply Hi] | | | | by apply owned_snoc | by exists [p]].
  - intros c Hc Hr Hb Hin. apply Hfr; try done. intros ->. apply Hin, in_owned. right. by rewrite Eind.
  - intros k Hk. cbn. rewrite lookup_app_l by lia. by apply (fi_direct _ _ _ _ Hf).
  - rewrite length_app. simpl. lia.
  - unfold indirect_ok. rewrite Eind, (proj2 (Z.eqb_neq _ _) Hi0), Ebuf, (ss_block_size _ _ Hs). intros j Hj.
    destruct (decide (12 + j = length ps)%nat) as [Ej|Hj'].
    + rewrite Ej, lookup_app_r, Nat.sub_diag by lia. cbn [lookup list_lookup default].
      replace (4 * Z.of_nat j) with (4 * (Z.of_nat (length ps) - 12)) by lia. apply (get_put_le 4 _ _ p _ Hput); lia.
    + rewrite (get_le_other 4 _ _ p _ _ Hput) by lia. rewrite (Hind j Hj). f_equal.
      destruct (decide (12 + j < length ps)%nat); [by rewrite lookup_app_l by lia|].
      by rewrite !lookup_ge_None_2 by (rewrite ?length_app; simpl; lia).
Qed.

(** Writing a block that is not a bitmap. *)
Lemma block_written nb fs p buf : fs_ok nb fs -> 0 <= p < nb -> ~ is_bitmap fs p -> Z.of_nat (length buf) = block_size fs ->
  bytes_ok buf ->
  exists fs', writeBlock p buf fs = Ok (true, fs') /\ fs_ok nb fs' /\ same_instance fs fs' /\ same_shape fs fs' /\
    (forall b, fs_block fs b -> block_used fs' b = block_used fs b) /\ block_bytes fs' p = buf /\
    forall c, 0 <= c < nb -> c <> p -> block_bytes fs' c = block_bytes fs c.
Proof.
  intros Hok Hp Hnb Hl Hb. destruct (writeBlock_ok nb fs p buf (fo_geometry nb fs Hok) Hp Hl Hb) as (fs' & Ew & Hg' & Hs & Eself & Hother).
  destruct (write_frame nb fs fs' Hok Hg' Hs) as (Hok' & Hu).
  { intros b Hbm. apply Hother; [by apply (bitmap_range nb fs) | by intros ->]. }
  exists fs'. split_and!; try done. by apply same_instance_shape.
Qed.

Definition disk_full fs : Prop := forall g, 0 <= g < group_count fs -> group_full fs g.

Lemma load_ind i : inode_ok i -> load (block i) 12 = Ok (ind i).
Proof.
  intros Hi. pose proof (length_block i Hi). apply load_ok. split; [lia|]. unfold ind.
  destruct (lookup_lt_is_Some_2 (block i) 12) as [x Hx]; [lia|]. by rewrite (nth_lookup_Some _ _ _ _ Hx).
Qed.

(** The block of pointers is there, is added, or cannot be had. *)
Lemma indirect_for nb fs i ps : fs_ok nb fs -> file_ok nb fs i ps ->
  (indirect_block i fs = Ok ((None, i), fs) /\ disk_full fs) \/
  exists i1 fs1, indirect_block i fs = Ok ((Some (ind i1), i1), fs1) /\ ind i1 <> 0 /\ file_step nb fs i ps fs1 i1 ps /\
    forall q, q ∈ ps -> block_bytes fs1 q = block_bytes fs q.
Proof.
  intros Hok Hf. pose proof (fi_inode _ _ _ _ Hf) as Hi. unfold indirect_block. step (load_ind i Hi).
  destruct (Z.eqb_spec (ind i) 0) as [Ei|Ei]; cbn [negb].
  2:{ right. exists i, fs. split_and!; [done | done | by apply file_step_refl | done]. }
  destruct (fs_alloc_ok nb fs Hok) as [[Ea Hfull]|(p & fs1 & Ea & Hp & Hb & Hfree & Hsys & Hok1 & Hs & Hu & Hfr)].
  { left. step Ea. done. }
  right. pose proof (geometry_block_size nb fs (fo_geometry nb fs Hok)) as Hbs. pose proof (geo_blocks nb fs (fo_geometry nb fs Hok)) as Hnb.
  pose proof (ss_block_size _ _ Hs) as Ebs.
  destruct (block_written nb fs1 p (replicate (Z.to_nat (block_size fs)) 0) Hok1 ltac:(lia)) as
    (fs2 & Ew & Hok2 & Hsi & Hs2 & Hu2 & Eself & Hother); [| rewrite length_replicate; lia | by apply Forall_replicate |].
  { intros Hbm. apply Hsys. right. left. by apply (shape_system _ _ p Hs). }
  pose proof (same_shape_trans _ _ _ Hs Hs2) as Hs02.
  assert (Hst : file_step nb fs i ps fs2 (grown_inode fs i 12 p) ps).
  { apply (grow_pointers nb fs fs2); try done; [lia | lia | |].
    - intros b Hbb. rewrite Hu2 by by apply (shape_fs_block _ _ _ Hs). by apply Hu.
    - intros c Hc Hr Hbm Hne. rewrite Hother by done. by apply Hfr. }
  exists (grown_inode fs i 12 p), fs2. rewrite (ind_grown fs i 12 p Hi). cbn [Nat.eqb]. split_and!; [|lia | done |].
  - step Ea. rewrite (proj2 (Z.eqb_neq p 0)) by lia. step_get. step (kmalloc_ok nb fs1 (block_size fs1) (fo_geometry nb fs1 Hok1)).
    rewrite Ebs. step Ew. assert (Eadd : add_block fs1 i 12 p = Ok (grown_inode fs i 12 p)).
    { rewrite <- (add_block_ok fs i 12 p Hi) by lia. unfold add_block. by rewrite Ebs. }
    by step Eadd.
  - intros q Hq. destruct (data_range nb fs i ps q Hok Hf Hq) as (Hqr & Hnr & Hnbm & _).
    rewrite Hother; [by apply Hfr; try lia | lia |]. intros ->.
    destruct (fi_used _ _ _ _ Hf p) as (_ & _ & _ & Hpu); [apply in_owned; by left | congruence].
Qed.

(** What [inodeBlockAtOrAlloc] does for block [k] of a file, existing or next. *)
Definition block_given nb fs (i : Inode) (ps : list Z) (k : nat) (r : outcome (Z * Inode * FsInstance D)) : Prop :=
  exists p i' ps' fs', r = Ok ((p, i'), fs') /\ file_step nb fs i ps fs' i' ps' /\
    (forall q, q ∈ ps -> block_bytes fs' q = block_bytes fs q) /\
    (p = 0 /\ ps' = ps /\ disk_full fs' \/ ps' !! k = Some p).

Lemma block_for_direct nb fs i ps k : fs_ok nb fs -> file_ok nb fs i ps -> (k <= length ps)%nat -> (k < 12)%nat ->
  block_given nb fs i ps k (inodeBlockAtOrAlloc i (Z.of_nat k) fs).
Proof.
  intros Hok Hf Hk Hk12. unfold inodeBlockAtOrAlloc. rewrite (proj2 (Z.ltb_lt _ _)) by lia.
  assert (E : load (block i) (Z.of_nat k) = Ok (default 0 (ps !! k))).
  { apply load_ok. rewrite Nat2Z.id. split; [lia | by apply (fi_direct _ _ _ _ Hf)]. }
  step E. destruct (ps !! k) as [p|] eqn:Ep; cbn [from_option id].
  - destruct (fi_used _ _ _ _ Hf p) as (Hp0 & _); [apply in_owned; left; by eapply list_elem_of_lookup_2|].
    rewrite (proj2 (Z.eqb_neq p 0)) by lia. exists p, i, ps, fs. split_and!; [done | by apply file_step_refl | done | by right].
  - assert (k = length ps) as -> by (apply lookup_ge_None in Ep; lia). cbn [Z.eqb negb].
    destruct (fs_alloc_ok nb fs Hok) as [[Ea Hfull]|(p & fs' & Ea & Hp & Hb & Hfree & Hsys & Hok' & Hs & Hu & Hfr)].
    { step Ea. exists 0, i, ps, fs. split_and!; [done | by apply file_step_refl | done | by left]. }
    pose proof (geo_blocks nb fs (fo_geometry nb fs Hok)). pose proof (geometry_block_size nb fs (fo_geometry nb fs Hok)) as Hbs.
    assert (Hown : forall q, q ∈ owned i ps -> block_bytes fs' q = block_bytes fs q).
    { intros q Hq. destruct (file_block_range nb fs i ps q Hok Hf Hq) as (? & ? & ? & _). apply Hfr; [lia | done | done]. }
    exists p, (grown_inode fs i (length ps) p), (ps ++ [p]), fs'. step Ea. rewrite (proj2 (Z.eqb_neq p 0)) by lia. step_get.
    assert (Eadd : add_block fs' i (Z.of_nat (length ps)) p = Ok (grown_inode fs i (length ps) p)).
    { rewrite <- (add_block_ok fs i (length ps) p (fi_inode _ _ _ _ Hf)) by lia. unfold add_block. by rewrite (ss_block_size _ _ Hs). }
    step Eadd. split_and!; [done | | |right; by rewrite lookup_app_r, Nat.sub_diag by lia].
    + apply grow_direct; try done; [lia | lia |]. intros Hi. apply Hown, in_owned. by right.
    + intros q Hq. apply Hown, in_owned. by left.
Qed.

(** The next block, behind the block of pointers. *)
Lemma next_indirect nb fs i ps : fs_ok nb fs -> file_ok nb fs i ps -> ind i <> 0 -> (12 <= length ps)%nat ->
  Z.of_nat (length ps) < 12 + block_size fs / 4 ->
  (allocBlock 0 fs = Ok (0, fs) /\ disk_full fs) \/
  exists p buf fs1 fs2, allocBlock 0 fs = Ok (p, fs1) /\ p <> 0 /\ block_size fs1 = block_size fs /\
    put_le 4 (block_bytes fs (ind i)) (4 * (Z.of_nat (length ps) - 12)) p = Ok buf /\
    writeBlock (ind i) buf fs1 = Ok (true, fs2) /\
    file_step nb fs i ps fs2 (set_blocks i (u32 (blocks i + block_size fs / 512)) (block i)) (ps ++ [p]) /\
    forall q, q ∈ ps -> block_bytes fs2 q = block_bytes fs q.
Proof.
  intros Hok Hf Hi Hl Hlim. pose proof (fo_geometry nb fs Hok) as Hg.
  destruct (fs_alloc_ok nb fs Hok) as [[Ea Hfull]|(p & fs1 & Ea & Hp & Hb & Hfree & Hsys & Hok1 & Hs & Hu & Hfr)]; [by left|].
  right. pose proof (geometry_block_size nb fs Hg) as Hbs. pose proof (geo_blocks nb fs Hg) as Hnb. pose proof (ss_block_size _ _ Hs) as Ebs.
  assert (Hio : ind i ∈ owned i ps) by (apply in_owned; by right).
  destruct (file_block_range nb fs i ps _ Hok Hf Hio) as (Hir & Hinr & Hinb & _).
  destruct (block_bytes_ok nb fs (ind i) Hg ltac:(lia)) as (_ & Hbl & Hbb).
  pose proof (Z.mul_div_le (block_size fs) 4 ltac:(lia)) as Hd. pose proof (length_le 4 p ltac:(lia)) as Hll.
  destruct (put_le 4 (block_bytes fs (ind i)) (4 * (Z.of_nat (length ps) - 12)) p) as [buf| |] eqn:Eput;
    [|unfold put_le in Eput; rewrite splice_ok in Eput by lia; done..].
  destruct (block_written nb fs1 (ind i) buf Hok1 ltac:(lia)) as (fs2 & Ew & Hok2 & Hsi & Hs2 & Hu2 & Eself & Hother).
  { intros Hbm. apply Hinb. by apply (shape_system _ _ _ Hs). }
  { unfold put_le in Eput. rewrite (splice_length _ _ _ _ Eput). lia. }
  { unfold put_le in Eput. apply (splice_bytes_ok _ _ _ _ Hbb (le_bytes_ok 4 p ltac:(lia)) Eput). }
  exists p, buf, fs1, fs2. split_and!; try done; [lia | |].
  - apply (grow_indirect nb fs fs2 i ps p buf); try done; [by apply (same_shape_trans _ fs1) | lia | |].
    + intros b Hbb'. rewrite Hu2 by by apply (shape_fs_block _ _ _ Hs). by apply Hu.
    + intros c Hc Hr Hbm Hne. rewrite Hother by done. by apply Hfr.
  - intros q Hq. destruct (data_range nb fs i ps q Hok Hf Hq) as (Hqr & Hnr & Hnbm & _).
    rewrite Hother; [by apply Hfr; try lia | lia |]. by apply (ind_not_data nb fs i ps).
Qed.

Lemma block_for_indirect nb fs i ps k : fs_ok nb fs -> file_ok nb fs i ps -> (k <= length ps)%nat -> (12 <= k)%nat ->
  Z.of_nat k < 12 + block_size fs / 4 -> block_given nb fs i ps k (inodeBlockAtOrAlloc i (Z.of_nat k) fs).
Proof.
  intros Hok Hf Hk Hk12 Hlim. unfold inodeBlockAtOrAlloc. rewrite (proj2 (Z.ltb_ge _ _)) by lia. step_get.
  unfold ptrs_per_block. rewrite (proj2 (Z.leb_gt _ _)) by lia.
  destruct (indirect_for nb fs i ps Hok Hf) as [[Ei Hfull]|(i1 & fs1 & Ei & Hi1 & Hst1 & Hsame1)].
  { step Ei. exists 0, i, ps, fs. split_and!; [done | by apply file_step_refl | done | by left]. }
  step Ei. pose proof Hst1 as [Hok1 Hf1 Hs1 _ _ _ _ _ _]. pose proof (fo_geometry nb fs1 Hok1) as Hg1. pose proof (ss_block_size _ _ Hs1) as Ebs.
  assert (Hio : ind i1 ∈ owned i1 ps) by (apply in_owned; by right).
  destruct (file_block_range nb fs1 i1 ps _ Hok1 Hf1 Hio) as (Hir & _).
  step (kmalloc_ok nb fs1 (block_size fs) Hg1). rewrite <- Ebs. step (readBlock_fresh nb fs1 (ind i1) Hg1 ltac:(lia)).
  pose proof (fi_indirect _ _ _ _ Hf1) as Hind. unfold indirect_ok in Hind. rewrite (proj2 (Z.eqb_neq _ _) Hi1), Ebs in Hind.
  specialize (Hind (k - 12)%nat ltac:(lia)). replace (12 + (k - 12))%nat with k in Hind by lia.
  replace (4 * Z.of_nat (k - 12)) with (4 * (Z.of_nat k - 12)) in Hind by lia. step Hind.
  destruct (ps !! k) as [p|] eqn:Ep; cbn [from_option id].
  - destruct (fi_used _ _ _ _ Hf p) as (Hp0 & _); [apply in_owned; left; by eapply list_elem_of_lookup_2|].
    rewrite (proj2 (Z.eqb_neq p 0)) by lia. exists p, i1, ps, fs1. split_and!; [done | done | done | by right].
  - assert (k = length ps) as -> by (apply lookup_ge_None in Ep; lia). cbn [Z.eqb negb].
    destruct (next_indirect nb fs1 i1 ps Hok1 Hf1 Hi1 Hk12 ltac:(rewrite Ebs; lia)) as
      [[Ea Hfull]|(p & buf & fs2 & fs3 & Ea & Hp & Ebs2 & Eput & Ew & Hst2 & Hsame2)].
    { step Ea. exists 0, i1, ps, fs1. split_and!; [done | done | done | by left]. }
    step Ea. rewrite (proj2 (Z.eqb_neq p 0)) by done. step Eput. step Ew. do 4 eexists. split; [reflexivity|].
    split; [by apply (file_step_trans nb _ _ _ fs1 i1 ps)|]. split.
    + intros q Hq. by rewrite Hsame2, Hsame1.
    + right. by rewrite lookup_app_r, Nat.sub_diag by lia.
Qed.

Lemma block_for nb fs i ps k : fs_ok nb fs -> file_ok nb fs i ps -> (k <= length ps)%nat -> Z.of_nat k < 12 + block_size fs / 4 ->
  block_given nb fs i ps k (inodeBlockAtOrAlloc i (Z.of_nat k) fs).
Proof.
  intros. destruct (decide (k < 12)%nat); [by apply block_for_direct | apply block_for_indirect; [done..| lia | done]].
Qed.
End grow.
