(* ===== verification/Ext2Write.v ===== *)
(** Writing files of the ext2 driver: [write] replaces the bytes at an offset
    and appends at the end, allocating blocks, until the data or the disk is
    used up. *)

From Stdlib Require Import ZifyBool.
From S2P Require Import Prelude Bytes Ext2Layout Ext2 Ext2Proofs Ext2Files Ext2Alloc Ext2Read Ext2Grow.

(** ** Bytes of blocks *)

(** An element of several lists of the same length in a row. *)
Lemma concat_lookup {A} (ls : list (list A)) (bs j : nat) : (0 < bs)%nat -> Forall (fun l => length l = bs) ls ->
  concat ls !! j = ls !! (j / bs)%nat ≫= (fun l => l !! (j mod bs)%nat).
Proof.
  intros Hbs Hall. revert j. induction Hall as [|l ls Hl Hall IH]; intros j; [by rewrite !lookup_nil|]. cbn [concat].
  destruct (decide (j < bs)%nat) as [Hlt|Hge].
  - rewrite lookup_app_l by lia. by rewrite Nat.div_small, Nat.mod_small by lia.
  - rewrite lookup_app_r by lia. rewrite IH, Hl. pose proof (Nat.div_add_l 1 bs (j - bs) ltac:(lia)) as E1.
    pose proof (Nat.Div0.mod_add (j - bs) 1 bs) as E2. replace (1 * bs + (j - bs))%nat with j in E1 by lia.
    replace (j - bs + 1 * bs)%nat with j in E2 by lia. by rewrite E1, E2.
Qed.

Lemma splice_lookup buf off data buf' j : splice buf off data = Ok buf' ->
  buf' !! j = if (Z.to_nat off <=? j)%nat && (j <? Z.to_nat off + length data)%nat then data !! (j - Z.to_nat off)%nat else buf !! j.
Proof.
  intros (H1 & H2 & ->)%splice_inv. assert (Hl : length (take (Z.to_nat off) buf) = Z.to_nat off) by (rewrite length_take; lia).
  destruct ((Z.to_nat off <=? j)%nat && (j <? Z.to_nat off + length data)%nat) eqn:E.
  - rewrite lookup_app_r, Hl by lia. by rewrite lookup_app_l by lia.
  - destruct (decide (j < Z.to_nat off)%nat); [rewrite lookup_app_l, lookup_take_lt by lia; done|].
    rewrite lookup_app_r, Hl by lia. rewrite lookup_app_r by lia. rewrite lookup_drop. f_equal. lia.
Qed.

Section write.
Context {D : Type} `{BlockDevLaws D} `{UninitLaws}.
Implicit Types fs : FsInstance D.

(** Byte [j] of the blocks of a file. *)
Definition byte_at fs (ps : list Z) (j : nat) : option Z :=
  ps !! (j / Z.to_nat (block_size fs))%nat ≫= (fun p => block_bytes fs p !! (j mod Z.to_nat (block_size fs))%nat).

(** ** One chunk *)

(** The buffer before the copy: the block is read unless the chunk covers it. *)
Lemma chunk_buffer nb fs p buf o data buf1 : geometry nb fs -> 0 <= p < nb -> Z.of_nat (length buf) = block_size fs ->
  splice (block_bytes fs p) o data = Ok buf1 -> 
  exists buf', (if negb (o =? 0) || negb (Z.of_nat (length data) =? block_size fs) then readBlock p buf else mret (Some buf)) fs
    = Ok (Some buf', fs) /\ splice buf' o data = Ok buf1.
Proof.
  intros Hg Hp Hl Hsp. pose proof (splice_inv _ _ _ _ Hsp) as (Ho & Hod & Eb).
  destruct (block_bytes_ok nb fs p Hg Hp) as (_ & Hbl & _).
  destruct (negb (o =? 0) || negb (Z.of_nat (length data) =? block_size fs)) eqn:E.
  - exists (block_bytes fs p). split; [by apply (readBlock_ok nb) | done].
  - exists buf. split; [done|]. assert (o = 0) as -> by lia. rewrite splice_ok by lia. f_equal. rewrite Eb.
    cbn [Z.to_nat take Nat.add]. by rewrite !drop_ge by lia.
Qed.

Lemma byte_at_same fs fs' ps j : block_size fs' = block_size fs -> (forall q, q ∈ ps -> block_bytes fs' q = block_bytes fs q) ->
  byte_at fs' ps j = byte_at fs ps j.
Proof.
  intros E Hq. unfold byte_at. rewrite E. destruct (ps !! (j / Z.to_nat (block_size fs))%nat) as [p|] eqn:Ep; cbn; [|done].
  rewrite Hq; [done|]. by eapply list_elem_of_lookup_2.
Qed.

(** Part of block [k] of the file is overwritten. *)
Lemma store_chunk nb fs i ps k p o data buf1 : fs_ok nb fs -> file_ok nb fs i ps -> ps !! k = Some p -> bytes_ok data ->
  splice (block_bytes fs p) (Z.of_nat o) data = Ok buf1 ->
  exists fs', writeBlock p buf1 fs = Ok (true, fs') /\ file_step nb fs i ps fs' i ps /\ same_instance fs fs' /\
    forall j, byte_at fs' ps j =
      let start := (k * Z.to_nat (block_size fs) + o)%nat in
      if (start <=? j)%nat && (j <? start + length data)%nat then data !! (j - start)%nat else byte_at fs ps j.
Proof.
  intros Hok Hf Hk Hd Hsp. pose proof (fo_geometry nb fs Hok) as Hg. pose proof (geometry_block_size nb fs Hg) as Hbs.
  assert (Hin : p ∈ ps) by by eapply list_elem_of_lookup_2.
  destruct (data_range nb fs i ps p Hok Hf Hin) as (Hp & Hnr & Hnb & _).
  destruct (block_bytes_ok nb fs p Hg ltac:(lia)) as (_ & Hbl & Hbb). pose proof (splice_inv _ _ _ _ Hsp) as (_ & Hod & _).
  destruct (block_written nb fs p buf1 Hok ltac:(lia) Hnb) as (fs' & Ew & Hok' & Hs & Hsh & Hu & Eself & Hother).
  { rewrite (splice_length _ _ _ _ Hsp). lia. }
  { by apply (splice_bytes_ok _ _ _ _ Hbb Hd Hsp). }
  exists fs'. split; [done|]. split; [|split; [done|]].
  - constructor; try done; [|by destruct i | by left | |].
    + apply (file_kept nb fs); try done; [by intros b Hb; rewrite Hu|]. intros Hi.
      assert (Hio : ind i ∈ owned i ps) by (apply in_owned; by right).
      apply Hother; [destruct (file_block_range nb fs i ps _ Hok Hf Hio); lia|]. symmetry. by apply (ind_not_data nb fs i ps).
    + intros b Hb. rewrite Hu by done. by apply (st_used _ _ _ _ _ _ _ (file_step_refl nb fs i ps Hok Hf)).
    + intros c Hc _ _ Hcn. apply Hother; [done|]. intros ->. apply Hcn, in_owned. by left.
  - intros j. cbv zeta. unfold byte_at. rewrite (ss_block_size _ _ Hsh). set (bs := Z.to_nat (block_size fs)) in *.
    assert (Hbs0 : (0 < bs)%nat) by lia. pose proof (Nat.div_mod_eq j bs) as Hj. pose proof (Nat.mod_upper_bound j bs ltac:(lia)) as Hjm.
    destruct (decide (j / bs = k)%nat) as [Ek|Hne].
    + rewrite Ek, Hk. cbn [mbind option_bind]. rewrite Eself, (splice_lookup _ _ _ _ _ Hsp), Nat2Z.id.
      rewrite Ek in Hj. replace (k * bs + o <=? j)%nat with (o <=? j mod bs)%nat by lia.
      replace (j <? k * bs + o + length data)%nat with (j mod bs <? o + length data)%nat by lia.
      by replace (j - (k * bs + o))%nat with (j mod bs - o)%nat by lia.
    + assert (Efalse : (k * bs + o <=? j)%nat && (j <? k * bs + o + length data)%nat = false).
      { assert ((j / bs < k \/ k < j / bs)%nat) as [Hlt|Hlt] by lia; nia. }
      rewrite Efalse. destruct (ps !! (j / bs)%nat) as [q|] eqn:Eq; cbn; [|done]. rewrite Hother; [done| |].
      * assert (Hq : q ∈ ps) by by eapply list_elem_of_lookup_2. destruct (data_range nb fs i ps q Hok Hf Hq). lia.
      * intros ->. apply Hne. by apply (NoDup_lookup ps _ _ p (data_nodup nb fs i ps Hf)).
Qed.

Lemma byte_at_prefix fs ps ps' j : 0 < block_size fs -> ps `prefix_of` ps' -> Z.of_nat j < Z.of_nat (length ps) * block_size fs ->
  byte_at fs ps' j = byte_at fs ps j.
Proof.
  intros Hbs [l ->] Hj. unfold byte_at. rewrite lookup_app_l; [done|]. apply Nat.Div0.div_lt_upper_bound. nia.
Qed.

(** [fs'] holds [n] bytes of [src] from position [pos] on, and the other bytes
    of the file as before. *)
Definition overwritten fs ps fs' ps' (pos : Z) (n : nat) (src : list Z) : Prop :=
  forall j, Z.of_nat j < Z.of_nat (length ps) * block_size fs \/ pos <= Z.of_nat j < pos + Z.of_nat n ->
    byte_at fs' ps' j = if (pos <=? Z.of_nat j) && (Z.of_nat j <? pos + Z.of_nat n) then src !! (j - Z.to_nat pos)%nat
      else byte_at fs ps j.

(** Up to the call that finds the block. *)
Ltac enter_write src Epos Hk E :=
  cbn [write_loop]; destruct src as [|? ?]; [done|]; step_get; rewrite Epos, u64_small by lia;
  match goal with |- context [udiv ?a ?b] => step (udiv_ok a b ltac:(lia)) end;
  match type of Hk with Z.div _ ?b = _ => fold b end; rewrite Hk, u32_small by lia; step E.

(** The most an inode can map. *)
Definition max_bytes fs : Z := (12 + block_size fs / 4) * block_size fs.

Lemma max_bytes_small nb fs : geometry nb fs -> 0 <= max_bytes fs < 2 ^ 30.
Proof.
  intros Hg. pose proof (geometry_block_size nb fs Hg). unfold max_bytes.
  assert (0 <= block_size fs / 4 <= 8192) by (split; [apply Z.div_pos; lia | apply Z.div_le_upper_bound; lia]). nia.
Qed.

(** One iteration: the next block cannot be had, or takes a chunk. *)
Lemma write_step nb fs i ps off w buf src fuel : fs_ok nb fs -> file_ok nb fs i ps ->
  Z.of_nat (length buf) = block_size fs -> bytes_ok src -> src <> [] -> 0 <= off -> 0 <= w ->
  off + w <= Z.of_nat (length ps) * block_size fs -> off + w + Z.of_nat (length src) <= max_bytes fs ->
  let pos := off + w in
  let chunk := Z.min (block_size fs - pos mod block_size fs) (Z.of_nat (length src)) in
  (exists i1 fs1, write_loop (S fuel) i off w buf src fs = Ok ((w, i1), fs1) /\ disk_full fs1 /\ file_step nb fs i ps fs1 i1 ps /\
     forall q, q ∈ ps -> block_bytes fs1 q = block_bytes fs q) \/
  exists i1 ps1 fs1 buf1,
    write_loop (S fuel) i off w buf src fs = write_loop fuel i1 off (w + chunk) buf1 (drop (Z.to_nat chunk) src) fs1 /\
    file_step nb fs i ps fs1 i1 ps1 /\ Z.of_nat (length buf1) = block_size fs /\
    pos + chunk <= Z.of_nat (length ps1) * block_size fs /\ overwritten fs ps fs1 ps1 pos (Z.to_nat chunk) src.
Proof.
  intros Hok Hf Hbuf Hsrc Hne Hoff Hw Hpos Hend pos chunk. pose proof (fo_geometry nb fs Hok) as Hg.
  pose proof (geometry_block_size nb fs Hg) as Hbs. set (bs := block_size fs) in *. fold pos in Hpos, Hend.
  assert (Epos : off + w = pos) by done. clearbody pos. assert (Hs0 : 0 < Z.of_nat (length src)) by (destruct src; [done | cbn; lia]).
  pose proof (Z.div_mod pos bs ltac:(lia)) as Hdm. pose proof (Z.mod_pos_bound pos bs ltac:(lia)) as Hmb.
  assert (Hc : 0 < chunk <= bs - pos mod bs /\ chunk <= Z.of_nat (length src)) by (unfold chunk; lia).
  set (k := Z.to_nat (pos / bs)). assert (Hk : pos / bs = Z.of_nat k) by (unfold k; assert (0 <= pos / bs) by (apply Z.div_pos; lia); lia).
  assert (Hk1 : (k <= length ps)%nat) by nia. assert (Hk2 : Z.of_nat k < 12 + bs / 4) by (unfold max_bytes in Hend; fold bs in Hend; nia).
  set (data := take (Z.to_nat chunk) src). assert (Hdl : length data = Z.to_nat chunk) by (unfold data; rewrite length_take; lia).
  assert (Hsmall : pos < 2 ^ 32 /\ Z.of_nat k < 2 ^ 32).
  { pose proof (max_bytes_small nb fs Hg). lia. }
  destruct (block_for nb fs i ps k Hok Hf Hk1 Hk2) as (p & i1 & ps1 & fs1 & E & Hst & Hsame & [(-> & -> & Hfull)|Hp]).
  { left. exists i1, fs1. split_and!; try done. by enter_write src Epos Hk E. }
  right. pose proof Hst as [Hok1 Hf1 Hsh1 Hpre _ _ _ _ _]. pose proof (fo_geometry nb fs1 Hok1) as Hg1.
  pose proof (ss_block_size _ _ Hsh1) as Ebs. fold bs in Ebs.
  assert (Hin : p ∈ ps1) by by eapply list_elem_of_lookup_2.
  destruct (data_range nb fs1 i1 ps1 p Hok1 Hf1 Hin) as (Hpr & _).
  destruct (block_bytes_ok nb fs1 p Hg1 ltac:(lia)) as (_ & Hbl & _).
  destruct (splice (block_bytes fs1 p) (pos mod bs) data) as [buf1| |] eqn:Esp; [|rewrite splice_ok in Esp by lia; done..].
  destruct (chunk_buffer nb fs1 p buf (pos mod bs) data buf1 Hg1 ltac:(lia) ltac:(lia) Esp) as (buf' & Eb & Esp').
  replace (pos mod bs) with (Z.of_nat (Z.to_nat (pos mod bs))) in Esp by lia.
  destruct (store_chunk nb fs1 i1 ps1 k p (Z.to_nat (pos mod bs)) data buf1 Hok1 Hf1 Hp) as (fs2 & Ew & Hst2 & Hsi & Hbytes);
    [by apply list.Forall_take | done |].
  exists i1, ps1, fs2, buf1. split_and!.
  - enter_write src Epos Hk E. fold bs chunk. rewrite (proj2 (Z.eqb_neq p 0)) by lia. rewrite Ebs, Hdl, Z2Nat.id in Eb by lia. step Eb. step Esp'. step Ew. done.
  - by apply (file_step_trans nb _ _ _ fs1 i1 ps1).
  - rewrite (splice_length _ _ _ _ Esp). lia.
  - pose proof (lookup_lt_Some _ _ _ Hp). nia.
  - intros j Hj. rewrite Hbytes. cbv zeta. rewrite Ebs, Hdl.
    replace (k * Z.to_nat bs + Z.to_nat (pos mod bs))%nat with (Z.to_nat pos) by nia.
    replace ((Z.to_nat pos <=? j)%nat && (j <? Z.to_nat pos + Z.to_nat chunk)%nat)
      with ((pos <=? Z.of_nat j) && (Z.of_nat j <? pos + Z.of_nat (Z.to_nat chunk))) by lia.
    destruct ((pos <=? Z.of_nat j) && (Z.of_nat j <? pos + Z.of_nat (Z.to_nat chunk))) eqn:Ej.
    + unfold data. by rewrite lookup_take_lt by lia.
    + assert (Hj' : Z.of_nat j < Z.of_nat (length ps) * bs) by lia.
      rewrite (byte_at_prefix fs1 ps) by (rewrite ?Ebs; done || lia). by apply byte_at_same.
Qed.

(** ** The loop *)

Lemma overwritten_trans fs ps fs1 ps1 fs2 ps2 pos c n src : block_size fs1 = block_size fs -> 0 <= pos -> (c <= length src)%nat ->
  pos + Z.of_nat c <= Z.of_nat (length ps1) * block_size fs -> (length ps <= length ps1)%nat -> 0 < block_size fs ->
  overwritten fs ps fs1 ps1 pos c src -> overwritten fs1 ps1 fs2 ps2 (pos + Z.of_nat c) n (drop c src) ->
  overwritten fs ps fs2 ps2 pos (c + n) src.
Proof.
  intros Eb Hp Hc Hend Hlen Hbs H1' H2' j Hj. rewrite H2' by (rewrite Eb; nia).
  destruct ((pos + Z.of_nat c <=? Z.of_nat j) && (Z.of_nat j <? pos + Z.of_nat c + Z.of_nat n)) eqn:E2.
  - rewrite lookup_drop. replace ((pos <=? Z.of_nat j) && (Z.of_nat j <? pos + Z.of_nat (c + n))) with true by lia. f_equal. lia.
  - rewrite H1' by lia. replace ((pos <=? Z.of_nat j) && (Z.of_nat j <? pos + Z.of_nat (c + n)))
      with ((pos <=? Z.of_nat j) && (Z.of_nat j <? pos + Z.of_nat c)) by lia. done.
Qed.

Lemma overwritten_nothing fs ps pos src : overwritten fs ps fs ps pos 0 src.
Proof. intros j _. replace ((pos <=? Z.of_nat j) && (Z.of_nat j <? pos + Z.of_nat 0)) with false by lia. done. Qed.

Lemma write_loop_ok nb off fuel : forall fs i ps w buf src, fs_ok nb fs -> file_ok nb fs i ps ->
  Z.of_nat (length buf) = block_size fs -> bytes_ok src -> 0 <= off -> 0 <= w ->
  off + w <= Z.of_nat (length ps) * block_size fs -> off + w + Z.of_nat (length src) <= max_bytes fs ->
  blocks_left (block_size fs) (off + w) (off + w + Z.of_nat (length src)) < Z.of_nat fuel ->
  exists n i' ps' fs', write_loop fuel i off w buf src fs = Ok ((w + Z.of_nat n, i'), fs') /\ (n <= length src)%nat /\
    (n = length src \/ disk_full fs') /\ file_step nb fs i ps fs' i' ps' /\
    off + w + Z.of_nat n <= Z.of_nat (length ps') * block_size fs /\ overwritten fs ps fs' ps' (off + w) n src.
Proof.
  induction fuel as [|fuel IH]; intros fs i ps w buf src Hok Hf Hbuf Hsrc Hoff Hw Hpos Hend Hfuel.
  { pose proof (geometry_block_size nb fs (fo_geometry nb fs Hok)). unfold blocks_left in Hfuel.
    destruct (Z.leb_spec (off + w + Z.of_nat (length src)) (off + w)); [lia|].
    assert ((off + w) / block_size fs <= (off + w + Z.of_nat (length src) - 1) / block_size fs) by (apply Z.div_le_mono; lia). lia. }
  pose proof (geometry_block_size nb fs (fo_geometry nb fs Hok)) as Hbs.
  destruct (decide (src = [])) as [->|Hne].
  { exists 0%nat, i, ps, fs. rewrite Z.add_0_r. split_and!; [done | done | by left | by apply file_step_refl | lia | apply overwritten_nothing]. }
  assert (Hs0 : 0 < Z.of_nat (length src)) by (destruct src; [done | cbn; lia]).
  destruct (write_step nb fs i ps off w buf src fuel) as [(i1 & fs1 & E & Hfull & Hst & Hsame)|(i1 & ps1 & fs1 & buf1 & E & Hst & Hb1 & Hl1 & Hov)]; try done.
  { exists 0%nat, i1, ps, fs1. rewrite Z.add_0_r. split_and!; [done | lia | by right | done | lia |].
    intros j _. replace ((off + w <=? Z.of_nat j) && (Z.of_nat j <? off + w + Z.of_nat 0)) with false by lia.
    apply byte_at_same; [apply Hst | done]. }
  set (pos := off + w) in *. set (chunk := Z.min (block_size fs - pos mod block_size fs) (Z.of_nat (length src))) in *.
  pose proof (Z.mod_pos_bound pos (block_size fs) ltac:(lia)) as Hmb.
  assert (Hc : 0 < chunk /\ chunk <= Z.of_nat (length src)) by (unfold chunk; lia).
  pose proof (ss_block_size _ _ (st_shape _ _ _ _ _ _ _ Hst)) as Eb. pose proof (length_drop src (Z.to_nat chunk)) as Hld.
  assert (Em : max_bytes fs1 = max_bytes fs) by (unfold max_bytes; by rewrite Eb).
  destruct (IH fs1 i1 ps1 (w + chunk) buf1 (drop (Z.to_nat chunk) src)) as (n & i2 & ps2 & fs2 & E2 & Hn & Hdone & Hst2 & Hl2 & Hov2);
    rewrite ?Hld, ?Em, ?Eb, ?Z.add_assoc; try (apply Hst || done || lia); [by apply Forall_drop | lia.. | |].
  { pose proof (blocks_left_step (block_size fs) pos (pos + Z.of_nat (length src)) ltac:(lia) ltac:(lia) ltac:(lia)) as Hbl.
    replace (Z.min _ _) with chunk in Hbl by (unfold chunk; f_equal; lia). fold pos.
    replace (pos + chunk + Z.of_nat (length src - Z.to_nat chunk)) with (pos + Z.of_nat (length src)) by lia. lia. }
  rewrite Z.add_assoc in Hl2, Hov2. fold pos in Hl2, Hov2. rewrite Eb in Hl2.
  exists (Z.to_nat chunk + n)%nat, i2, ps2, fs2. rewrite E, E2. split_and!.
  - do 2 f_equal. f_equal. lia.
  - lia.
  - destruct Hdone as [->|?]; [left; lia | by right].
  - by apply (file_step_trans nb _ _ _ fs1 i1 ps1).
  - lia.
  - pose proof (prefix_length _ _ (st_prefix _ _ _ _ _ _ _ Hst)).
    apply (overwritten_trans fs ps fs1 ps1); try done; try lia. by rewrite Z2Nat.id by lia.
Qed.

(** ** The whole call *)

Lemma mapped_of_file nb fs i ps : fs_ok nb fs -> file_ok nb fs i ps -> 0 <= size i <= Z.of_nat (length ps) * block_size fs ->
  mapped_file nb fs i ps.
Proof.
  intros Hok Hf Hs. constructor; [|apply Hf | done]. intros k p Hk. pose proof (fi_limit _ _ _ _ Hf) as Hlim.
  pose proof (lookup_lt_Some _ _ _ Hk) as Hlt. split; [|apply (data_range nb fs i ps p Hok Hf); by eapply list_elem_of_lookup_2].
  unfold points_to. destruct (Nat.ltb_spec k 12) as [Hk12|Hk12]; [by rewrite (fi_direct _ _ _ _ Hf k Hk12), Hk|].
  pose proof (fi_indirect _ _ _ _ Hf) as Hind. unfold indirect_ok in Hind. destruct (Z.eqb_spec (ind i) 0) as [E|E]; [lia|].
  exists (ind i). pose proof (load_ind i (fi_inode _ _ _ _ Hf)) as Hl. apply load_ok in Hl as [_ Hl]. split; [done|].
  split; [apply (file_block_range nb fs i ps _ Hok Hf), in_owned; by right|].
  specialize (Hind (k - 12)%nat ltac:(lia)). replace (12 + (k - 12))%nat with k in Hind by lia. rewrite Hk in Hind.
  replace (4 * (Z.of_nat k - 12)) with (4 * Z.of_nat (k - 12)) by lia. done.
Qed.

Lemma content_lookup nb fs i ps j : fs_ok nb fs -> file_ok nb fs i ps -> 0 <= size i <= Z.of_nat (length ps) * block_size fs ->
  file_content fs i ps !! j = if Z.of_nat j <? size i then byte_at fs ps j else None.
Proof.
  intros Hok Hf Hs. pose proof (fo_geometry nb fs Hok) as Hg. pose proof (geometry_block_size nb fs Hg).
  unfold file_content. destruct (Z.ltb_spec (Z.of_nat j) (size i)).
  - rewrite lookup_take_lt by lia. rewrite (concat_lookup _ (Z.to_nat (block_size fs))); [|lia|].
    + rewrite list_lookup_fmap. unfold byte_at. by destruct (ps !! _).
    + by apply (blocks_length nb fs i ps Hg), mapped_of_file.
  - by rewrite lookup_take_ge by lia.
Qed.

(** The contents of a file from its bytes. *)
Lemma content_spliced nb fs i ps fs' i' ps' off n src : fs_ok nb fs -> file_ok nb fs i ps -> fs_ok nb fs' -> file_ok nb fs' i' ps' ->
  0 <= size i <= Z.of_nat (length ps) * block_size fs -> 0 <= size i' <= Z.of_nat (length ps') * block_size fs' ->
  size i' = Z.max (size i) (off + Z.of_nat n) -> 0 <= off <= size i -> (n <= length src)%nat -> overwritten fs ps fs' ps' off n src ->
  let c := file_content fs i ps in
  file_content fs' i' ps' = take (Z.to_nat off) c ++ take n src ++ drop (Z.to_nat off + n) c.
Proof.
  intros Hok Hf Hok' Hf' Hs Hs' Esz Hoff Hn Hov c. apply list_eq. intros j.
  pose proof (length_file_content nb fs i ps (fo_geometry _ _ Hok) (mapped_of_file nb fs i ps Hok Hf Hs)) as Hlc. fold c in Hlc.
  assert (Hl1 : length (take (Z.to_nat off) c) = Z.to_nat off) by (rewrite length_take; lia).
  assert (Hl2 : length (take n src) = n) by (rewrite length_take; lia).
  rewrite (content_lookup nb fs' i' ps' j Hok' Hf' Hs'). destruct (Z.ltb_spec (Z.of_nat j) (size i')) as [Hj|Hj].
  - rewrite Hov by lia. destruct ((off <=? Z.of_nat j) && (Z.of_nat j <? off + Z.of_nat n)) eqn:E.
    + rewrite lookup_app_r, lookup_app_l, lookup_take_lt by lia. f_equal. lia.
    + assert (Hc : c !! j = byte_at fs ps j).
      { unfold c. rewrite (content_lookup nb fs i ps j Hok Hf Hs), (proj2 (Z.ltb_lt _ _)) by lia. done. }
      rewrite <- Hc. destruct (Z.leb_spec off (Z.of_nat j)) as [Hge|Hlt]; [|by rewrite lookup_app_l, lookup_take_lt by lia].
      rewrite !lookup_app_r, lookup_drop by lia. f_equal. lia.
  - symmetry. apply lookup_ge_None. rewrite !length_app, length_drop. lia.
Qed.

Lemma inode_block_in_table nb fs ino : fs_ok nb fs -> valid_inode fs ino -> in_table fs (inode_block fs ino).
Proof.
  intros Hok Hv. destruct (inode_group_of nb fs ino (fo_inodes nb fs Hok) Hv) as (_ & Hj & gd & Hgd & ->).
  exists (Z.to_nat ((ino - 1) / ipg fs)), gd. split; [done|].
  pose proof (table_index nb fs _ (fo_geometry nb fs Hok) (fo_inodes nb fs Hok) Hj). lia.
Qed.

Lemma shape_position nb fs fs' n : fs_ok nb fs -> same_shape fs fs' -> valid_inode fs n ->
  inode_block fs' n = inode_block fs n /\ inode_offset fs' n = inode_offset fs n.
Proof.
  intros Hok Hs Hv. destruct (inode_group_of nb fs n (fo_inodes nb fs Hok) Hv) as (_ & _ & gd & Hgd & _).
  unfold inode_block, inode_offset. rewrite (ss_ipg _ _ Hs), (ss_isz _ _ Hs), (ss_block_size _ _ Hs). split; [|done]. f_equal.
  destruct (shape_group fs' fs _ gd (same_shape_sym _ _ Hs) Hgd) as (gd' & Hgd' & _ & E & _).
  by rewrite (nth_lookup_Some _ _ _ _ Hgd), (nth_lookup_Some _ _ _ _ Hgd').
Qed.

(** Only the pointers of the inode matter. *)
Lemma same_pointers_ok nb fs i i' ps : file_ok nb fs i ps -> inode_ok i' -> block i' = block i -> file_ok nb fs i' ps.
Proof.
  intros [F1 F2 F3 F4 F5 F6] Hi' Eb. assert (Ei : ind i' = ind i) by (unfold ind; by rewrite Eb).
  constructor; try done; [by rewrite Eb | unfold indirect_ok in *; by rewrite Ei | unfold owned in *; by rewrite Ei..].
Qed.

Lemma group_full_same fs fs' g : same_instance fs fs' -> (forall b, fs_block fs b -> block_used fs' b = block_used fs b) ->
  group_full fs g -> group_full fs' g.
Proof.
  intros Hs Hu [E|Hall]; [left | right].
  - unfold same_instance in Hs. by rewrite Hs.
  - intros b Hb. assert (Hb' : in_group fs g b) by (unfold same_instance in Hs; by rewrite Hs in Hb).
    rewrite Hu; [by apply Hall | apply Hb'].
Qed.

(** Storing an inode of a well-formed file system. *)
Lemma inode_stored nb fs ino i : fs_ok nb fs -> valid_inode fs ino -> inode_ok i ->
  exists fs', writeInode ino i fs = Ok (true, fs') /\ fs_ok nb fs' /\ same_instance fs fs' /\
    (forall b, fs_block fs b -> block_used fs' b = block_used fs b) /\
    inode_bytes fs' ino = encode_inode i /\
    (forall m, valid_inode fs m -> m <> ino -> inode_bytes fs' m = inode_bytes fs m) /\
    forall b, 0 <= b < nb -> ~ in_table fs b -> block_bytes fs' b = block_bytes fs b.
Proof.
  intros Hok Hv Hi. destruct (writeInode_ok nb fs ino i (fo_geometry _ _ Hok) (fo_inodes _ _ Hok) Hv Hi)
    as (fs' & E & Hg' & Hs & Eb & Hot & Hblk).
  pose proof (inode_block_in_table nb fs ino Hok Hv) as Hin. destruct (fo_tables nb fs Hok _ Hin) as [Hnr Hnb].
  destruct (write_frame nb fs fs' Hok Hg' Hs) as [Hok' Hu].
  { intros b Hb. apply Hblk; [by apply (bitmap_range nb fs) | by intros ->]. }
  exists fs'. split_and!; try done.
  - intros m Hm Hne. apply Hot; [done | congruence].
  - intros b Hb Hnt. apply Hblk; [done | by intros ->].
Qed.

(** The result of a write of [src] at [off] to the file with inode [ino],
    inode contents [i] and blocks [ps]: [n] bytes of it. *)
Record written (nb : Z) fs (ino : Z) (i : Inode) (ps : list Z) (off : Z) (src : list Z) (n : nat) fs' (i' : Inode) (ps' : list Z) :
    Prop := mkWritten {
  wr_count : (n <= length src)%nat /\ (n = length src \/ disk_full fs');
  wr_ok : fs_ok nb fs' /\ file_ok nb fs' i' ps' /\ 0 <= size i' <= Z.of_nat (length ps') * block_size fs';
  wr_size : size i' = Z.max (size i) (off + Z.of_nat n);
  wr_content : let c := file_content fs i ps in
    file_content fs' i' ps' = take (Z.to_nat off) c ++ take n src ++ drop (Z.to_nat off + n) c;
  wr_inode : forall out, length out = 128%nat -> readInode ino out fs' = Ok (Some i', fs');
  wr_inodes : forall m, valid_inode fs m -> m <> ino -> inode_bytes fs' m = inode_bytes fs m;
  wr_files : forall j qs, file_ok nb fs j qs -> (forall q, q ∈ owned j qs -> q ∉ owned i ps) ->
    file_ok nb fs' j qs /\ file_content fs' j qs = file_content fs j qs;
}.

(** Growing a file leaves the inode tables and the other files alone. *)
Lemma step_inode_bytes nb fs i ps fs1 i1 ps1 m : fs_ok nb fs -> file_step nb fs i ps fs1 i1 ps1 -> valid_inode fs m ->
  inode_bytes fs1 m = inode_bytes fs m.
Proof.
  intros Hok Hst Hm. pose proof Hst as [Hok1 Hf1 Hsh _ _ _ _ _ Hframe]. pose proof (inode_block_in_table nb fs m Hok Hm) as Hin.
  destruct (fo_tables nb fs Hok _ Hin) as [Hnr Hnb]. unfold inode_bytes. destruct (shape_position nb fs fs1 m Hok Hsh Hm) as [-> ->].
  rewrite Hframe; [done | by apply (inode_block_bounds nb); apply Hok || done | done | done |].
  intros Hp. destruct (file_block_range nb fs1 i1 ps1 _ Hok1 Hf1 Hp) as (_ & _ & _ & Hnt). apply Hnt.
  by apply (shape_system _ _ _ (same_shape_sym _ _ Hsh)).
Qed.

Lemma other_file_kept nb fs i ps fs1 i1 ps1 fs' j qs : fs_ok nb fs -> file_step nb fs i ps fs1 i1 ps1 -> same_instance fs1 fs' ->
  (forall b, fs_block fs1 b -> block_used fs' b = block_used fs1 b) ->
  (forall b, 0 <= b < nb -> ~ in_table fs1 b -> block_bytes fs' b = block_bytes fs1 b) ->
  file_ok nb fs j qs -> (forall q, q ∈ owned j qs -> q ∉ owned i ps) ->
  file_ok nb fs' j qs /\ file_content fs' j qs = file_content fs j qs.
Proof.
  intros Hok Hst Hsi Hu Hblk Hj Hdis. pose proof Hst as [Hok1 Hf1 Hsh _ _ _ Hfresh Hused Hframe].
  pose proof (same_instance_shape _ _ Hsi) as Hsh2.
  assert (Hsame : forall q, q ∈ owned j qs -> block_bytes fs' q = block_bytes fs q).
  { intros q Hin. destruct (file_block_range nb fs j qs q Hok Hj Hin) as (Hr & Hnr & Hnb & Hnt).
    rewrite Hblk, Hframe; [done | lia | done | done | | lia |].
    - intros Hp. destruct (Hfresh q Hp) as [Hp'|[_ Hfree]]; [by apply (Hdis q)|].
      destruct (fi_used _ _ _ _ Hj q Hin) as (_ & _ & _ & Hqu). congruence.
    - intros Ht. apply Hnt. by apply (shape_system _ _ _ Hsh). }
  split.
  - apply (file_kept nb fs); [done | by apply (same_shape_trans _ fs1) | |].
    + intros b Hb E. rewrite Hu by by apply (shape_fs_block _ _ _ Hsh). by rewrite Hused, E by done.
    + intros Hi. apply Hsame, in_owned. by right.
  - unfold file_content. f_equal. f_equal. apply list_fmap_ext. intros k q Hq. apply Hsame, in_owned. left.
    by eapply list_elem_of_lookup_2.
Qed.

Lemma written_intro nb fs ino i ps off src n fs1 i1 ps1 fs' i' : fs_ok nb fs -> file_ok nb fs i ps ->
  0 <= size i <= Z.of_nat (length ps) * block_size fs -> valid_inode fs ino -> 0 <= off <= size i ->
  (n <= length src)%nat -> n = length src \/ disk_full fs1 -> file_step nb fs i ps fs1 i1 ps1 ->
  off + Z.of_nat n <= Z.of_nat (length ps1) * block_size fs -> overwritten fs ps fs1 ps1 off n src ->
  block i' = block i1 -> inode_ok i' -> size i' = Z.max (size i) (off + Z.of_nat n) ->
  writeInode ino i' fs1 = Ok (true, fs') -> written nb fs ino i ps off src n fs' i' ps1.
Proof.
  intros Hok Hf Hs Hv Hoff Hn Hdone Hst Hend Hov Ebl Hi' Esz Ew.
  pose proof Hst as [Hok1 Hf1 Hsh Hpre _ _ Hfresh Hused Hframe].
  assert (Hv1 : forall m, valid_inode fs m -> valid_inode fs1 m) by (unfold valid_inode; by rewrite (ss_ipg _ _ Hsh), (ss_count _ _ Hsh)).
  destruct (inode_stored nb fs1 ino i' Hok1 (Hv1 _ Hv) Hi') as (fs2 & E & Hok' & Hsi & Hu & Eb & Hot & Hblk).
  rewrite Ew in E. injection E as <-. pose proof (same_instance_shape _ _ Hsi) as Hsh2. pose proof (ss_block_size _ _ Hsh) as Ebs.
  assert (Hf' : file_ok nb fs' i' ps1).
  { apply (same_pointers_ok nb fs' i1); [|done | done]. apply (file_kept nb fs1); try done; [by intros b Hb; rewrite Hu|].
    intros Hi. destruct (file_block_range nb fs1 i1 ps1 (ind i1) Hok1 Hf1) as (? & _ & _ & Hnt); [apply in_owned; by right|].
    apply Hblk; [lia | done]. }
  assert (Hs' : 0 <= size i' <= Z.of_nat (length ps1) * block_size fs').
  { rewrite (ss_block_size _ _ Hsh2), Ebs, Esz. pose proof (prefix_length _ _ Hpre).
    pose proof (geometry_block_size nb fs (fo_geometry nb fs Hok)). nia. }
  constructor; try done.
  - split; [done|]. destruct Hdone as [?|Hfull]; [by left | right]. intros g Hg. rewrite (ss_count _ _ Hsh2) in Hg.
    apply (group_full_same fs1); [done | done | by apply Hfull].
  - apply (content_spliced nb); try done. intros j Hj. rewrite <- Hov by done. apply byte_at_same; [by apply Hsh2|].
    intros q Hq. destruct (data_range nb fs1 i1 ps1 q Hok1 Hf1 Hq) as (? & _ & _ & Hnt). apply Hblk; [lia | done].
  - intros out Hout. apply (readInode_ok nb); [apply Hok' | apply Hok' | | done | rewrite Eb; by apply decode_encode_inode].
    unfold valid_inode. rewrite (ss_ipg _ _ Hsh2), (ss_count _ _ Hsh2). by apply Hv1.
  - intros m Hm Hne. rewrite Hot by auto. by apply (step_inode_bytes nb fs i ps fs1 i1 ps1).
  - intros j qs Hj Hdis. apply (other_file_kept nb fs i ps fs1 i1 ps1); done.
Qed.

Lemma ext2_write_ok nb fs ino i ps off src : fs_ok nb fs -> file_ok nb fs i ps ->
  0 <= size i <= Z.of_nat (length ps) * block_size fs -> valid_inode fs ino -> bytes_ok src ->
  0 <= off <= size i -> off + Z.of_nat (length src) <= max_bytes fs ->
  exists n fs' i' ps', write (mkPriv ino i) off src fs = Ok ((Z.of_nat n, mkPriv ino i'), fs') /\
    written nb fs ino i ps off src n fs' i' ps' /\
    read (mkPriv ino i') off (Z.of_nat n) fs' = Ok ((Z.of_nat n, take n src, mkPriv ino i'), fs').
Proof.
  intros Hok Hf Hs Hv Hsrc Hoff Hend. pose proof (fo_geometry nb fs Hok) as Hg. pose proof (geometry_block_size nb fs Hg) as Hbs.
  pose proof (max_bytes_small nb fs Hg) as Hmax. pose proof (length_junk (Z.to_nat (block_size fs))) as Hj. set (buf := junk (Z.to_nat (block_size fs))) in *.
  destruct (write_loop_ok nb off (Z.to_nat (Z.of_nat (length src) / block_size fs) + 3) fs i ps 0 buf src)
    as (n & i1 & ps1 & fs1 & E & Hn & Hdone & Hst & Hl & Hov); try done; rewrite ?Z.add_0_r; try lia.
  { apply read_fuel_enough; lia. }
  rewrite Z.add_0_r in Hl, Hov. pose proof (st_inode _ _ _ _ _ _ _ Hst) as Ei1. pose proof (st_shape _ _ _ _ _ _ _ Hst) as Hsh.
  assert (Esz : size i1 = size i) by by rewrite Ei1. pose proof (fi_inode _ _ _ _ (st_file _ _ _ _ _ _ _ Hst)) as Hi1.
  set (i' := if size i1 <? off + Z.of_nat n then set_size i1 (u32 (off + Z.of_nat n)) else i1).
  assert (Hi' : block i' = block i1 /\ inode_ok i' /\ size i' = Z.max (size i) (off + Z.of_nat n)).
  { unfold i'. destruct (Z.ltb_spec (size i1) (off + Z.of_nat n)); split_and!; try done; [by apply set_size_ok | | lia].
    cbn. rewrite u32_small; lia. }
  destruct Hi' as (Ebl & Hi' & Esz').
  destruct (inode_stored nb fs1 ino i' (st_ok _ _ _ _ _ _ _ Hst)) as (fs' & Ew & _); [|done|].
  { unfold valid_inode. by rewrite (ss_ipg _ _ Hsh), (ss_count _ _ Hsh). }
  assert (Hwr : written nb fs ino i ps off src n fs' i' ps1) by by apply (written_intro nb fs ino i ps off src n fs1 i1).
  exists n, fs', i', ps1. split; [|split; [done|]].
  - unfold write. step_get. step (kmalloc_ok nb fs (block_size fs) Hg). cbn [p_inode p_inode_num]. fold buf. step E.
    rewrite (u64_small (off + (0 + Z.of_nat n))), Z.add_0_l by lia. fold i'. step Ew. done.
  - pose proof Hwr as [_ (Hok' & Hf' & Hs') _ Ec _ _ _]. cbv zeta in Ec.
    pose proof (length_file_content nb fs i ps Hg (mapped_of_file nb fs i ps Hok Hf Hs)) as Hlc.
    rewrite (ext2_read_ok nb fs' i' ps1) by (apply Hok' || by apply mapped_of_file || lia). rewrite Ec, drop_app_length', Nat2Z.id by (rewrite length_take; lia).
    rewrite take_app_length' by (rewrite length_take; lia). assert (El : length (take n src) = n) by (rewrite length_take; lia). by rewrite El.
Qed.

(** ** Claims *)

(** [write] at an offset within a file puts the data there, replacing what
    the file has and appending the rest: it returns the number of bytes
    written, all of them unless the disk is full, and the file then holds the
    old bytes before the offset, the bytes written, and the old bytes after
    them.  The inode is stored with the new size; every other inode, and the
    contents of every other file, are unchanged; and [read] returns the data. *)
Theorem ext2_write_correct nb fs ino i ps off src : fs_ok nb fs -> file_ok nb fs i ps ->
  0 <= size i <= Z.of_nat (length ps) * block_size fs -> valid_inode fs ino -> bytes_ok src ->
  0 <= off <= size i -> off + Z.of_nat (length src) <= max_bytes fs ->
  exists n fs' i' ps', write (mkPriv ino i) off src fs = Ok ((Z.of_nat n, mkPriv ino i'), fs') /\
    written nb fs ino i ps off src n fs' i' ps' /\
    read (mkPriv ino i') off (Z.of_nat n) fs' = Ok ((Z.of_nat n, take n src, mkPriv ino i'), fs').
Proof. apply ext2_write_ok. Qed.
End write.
