(* ===== verification/Ext2Tree.v ===== *)
(** Inodes in use and directory trees of the ext2 driver: [allocInode] takes a
    free inode, and a path is resolved along the directories of a tree. *)

From Stdlib Require Import ZifyBool.
From S2P Require Import Prelude Vfs VfsProofs Bytes Ext2Layout Ext2 Ext2Proofs Ext2Files Ext2Alloc Ext2Dir Ext2DirOps Ext2Grow Ext2Write.

(** The blocks of a directory with their entries. *)
Notation view := (list (Z * list ent)).

Section tree.
Context {D : Type} `{BlockDevLaws D} `{UninitLaws}.
Implicit Types fs : FsInstance D.

(** ** Inodes in use *)

Definition imap_of fs (g : Z) : Z := inode_bitmap (nth (Z.to_nat g) (groups fs) (mkGroup 0 0 0 0 0 0 0 [])).

(** The bit of the inode bitmap that says whether inode [n] is in use. *)
Definition inode_used fs (n : Z) : bool := bit (block_bytes fs (imap_of fs ((n - 1) / ipg fs))) ((n - 1) mod ipg fs).

(** The inode bitmaps have blocks of their own. *)
Record inode_maps (nb : Z) fs : Prop := mkInodeMaps {
  im_fits : ipg fs <= 8 * block_size fs;
  im_bitmap : forall k gd, groups fs !! k = Some gd -> 0 <= inode_bitmap gd < nb;
  im_apart : forall b, is_inode_bitmap fs b -> ~ reserved fs b /\ ~ is_bitmap fs b /\ ~ in_table fs b;
  im_distinct : forall k k' gd gd', groups fs !! k = Some gd -> groups fs !! k' = Some gd' ->
    inode_bitmap gd = inode_bitmap gd' -> k = k';
}.

Lemma inode_maps_shape nb fs fs' : same_shape fs fs' -> inode_maps nb fs -> inode_maps nb fs'.
Proof.
  intros Hs [L1 L2 L3 L4]. constructor.
  - by rewrite (ss_ipg _ _ Hs), (ss_block_size _ _ Hs).
  - intros k gd' Hk. destruct (shape_group _ _ _ _ Hs Hk) as (gd & Hgd & _ & _ & ->). by apply (L2 k).
  - intros b Hb. destruct (shape_system _ _ b Hs) as (H1' & H2' & H3' & H4'). destruct (L3 b (H4' Hb)) as (? & ? & ?). tauto.
  - intros k k' gd1 gd2 Hk Hk'. destruct (shape_group _ _ _ _ Hs Hk) as (a & Ha & _ & _ & ->).
    destruct (shape_group _ _ _ _ Hs Hk') as (b & Hb & _ & _ & ->). by apply (L4 k k').
Qed.

Lemma imap_shape fs fs' g : same_shape fs fs' -> imap_of fs' g = imap_of fs g.
Proof.
  intros Hs. pose proof (f_equal (.!! Z.to_nat g) (ss_groups _ _ Hs)) as Hg. rewrite !list_lookup_fmap in Hg.
  unfold imap_of. rewrite !nth_lookup. destruct (groups fs' !! _), (groups fs !! _); cbn in *; try done. by injection Hg.
Qed.

Lemma imap_range nb fs m : fs_ok nb fs -> inode_maps nb fs -> valid_inode fs m ->
  0 <= imap_of fs ((m - 1) / ipg fs) < nb /\ is_inode_bitmap fs (imap_of fs ((m - 1) / ipg fs)).
Proof.
  intros Hok Hi Hv. destruct (inode_group_of nb fs m (fo_inodes nb fs Hok) Hv) as (_ & _ & gd & Hgd & _).
  unfold imap_of. rewrite (nth_lookup_Some _ _ _ _ Hgd). split; [by apply (im_bitmap nb fs Hi _ gd Hgd)|]. by eexists _, gd.
Qed.

(** Only the inode bitmaps say which inodes are in use. *)
Lemma inode_used_frame nb fs fs' m : fs_ok nb fs -> inode_maps nb fs -> same_shape fs fs' -> valid_inode fs m ->
  (forall b, is_inode_bitmap fs b -> 0 <= b < nb -> block_bytes fs' b = block_bytes fs b) -> inode_used fs' m = inode_used fs m.
Proof.
  intros Hok Hi Hs Hv Hb. destruct (imap_range nb fs m Hok Hi Hv) as [Hr Hm].
  unfold inode_used. rewrite (imap_shape _ _ _ Hs), (ss_ipg _ _ Hs). by rewrite Hb.
Qed.

(** Inode [n] is taken ([v = true]) or released, and nothing else changes but
    the counts. *)
Record inode_change (nb : Z) fs fs' (n : Z) (v : bool) : Prop := mkInodeChange {
  ic_ok : fs_ok nb fs';
  ic_maps : inode_maps nb fs';
  ic_shape : same_shape fs fs';
  ic_used : forall m, valid_inode fs m -> inode_used fs' m = if m =? n then v else inode_used fs m;
  ic_blocks : forall b, fs_block fs b -> block_used fs' b = block_used fs b;
  ic_frame : forall c, 0 <= c < nb -> ~ reserved fs c -> ~ is_inode_bitmap fs c -> block_bytes fs' c = block_bytes fs c;
}.

Lemma inode_number nb fs g i : inode_layout nb fs -> 0 <= g < group_count fs -> 0 <= i < ipg fs ->
  valid_inode fs (g * ipg fs + i + 1) /\ (g * ipg fs + i + 1 - 1) / ipg fs = g /\ (g * ipg fs + i + 1 - 1) mod ipg fs = i.
Proof.
  intros Hl Hg Hi. replace (g * ipg fs + i + 1 - 1) with (i + g * ipg fs) by lia.
  rewrite Z.div_add, Z.mod_add, Z.div_small, Z.mod_small by lia. unfold valid_inode. split_and!; nia.
Qed.

Lemma inode_change_intro nb fs fs1 g i gd v di : fs_ok nb fs -> inode_maps nb fs -> 0 <= g < group_count fs -> 0 <= i < ipg fs ->
  groups fs !! Z.to_nat g = Some gd -> geometry nb fs1 -> same_instance fs fs1 ->
  bit_update (block_bytes fs (inode_bitmap gd)) i v (block_bytes fs1 (inode_bitmap gd)) ->
  (forall c, 0 <= c < nb -> c <> inode_bitmap gd -> block_bytes fs1 c = block_bytes fs c) ->
  exists fs2, update_counts g 0 di fs1 = Ok (tt, fs2) /\ inode_change nb fs fs2 (g * ipg fs + i + 1) v.
Proof.
  intros Hok Him Hgr Hi Hgd Hg1 Hs1 Hu Hot1. pose proof (fo_meta nb fs Hok) as Hm. pose proof (fo_inodes nb fs Hok) as Hil.
  destruct (inode_number nb fs g i Hil Hgr Hi) as (Hv & Eg & Ei). set (n := g * ipg fs + i + 1) in *.
  assert (Egs : groups fs1 = groups fs /\ group_count fs1 = group_count fs /\ (forall c, reserved fs1 c <-> reserved fs c))
    by (unfold same_instance in Hs1; by rewrite Hs1). destruct Egs as (Egs & Egc & Ers).
  destruct (update_counts_ok nb fs1 g 0 di gd Hg1 (meta_same nb fs fs1 Hs1 Hm)) as (fs2 & E & Hg2 & Hs2 & _ & _ & Hot2);
    [by rewrite Egc | by rewrite Egs |].
  assert (Hs02 : same_instance (counted fs g 0 di gd) fs2).
  { unfold same_instance in *. rewrite Hs2 at 1. rewrite Hs1. done. }
  pose proof (counted_shape fs fs2 _ _ _ gd Hgd Hs02) as Hsh.
  assert (Hib : is_inode_bitmap fs (inode_bitmap gd)) by by exists (Z.to_nat g), gd.
  assert (Hfr : forall c, 0 <= c < nb -> ~ reserved fs c -> c <> inode_bitmap gd -> block_bytes fs2 c = block_bytes fs c).
  { intros c Hc Hr Hne. rewrite Hot2 by (done || by rewrite Ers). by apply Hot1. }
  assert (Hbu : forall b, fs_block fs b -> block_used fs2 b = block_used fs b).
  { intros b Hb. pose proof (bitmap_of_is nb fs b Hok Hb) as Hbm. unfold block_used.
    assert (Es : block_group fs2 b = block_group fs b /\ block_index fs2 b = block_index fs b) by (unfold same_instance in Hs02; by rewrite Hs02).
    destruct Es as [-> ->]. rewrite (same_bitmap_of fs fs2 g 0 di gd _ Hgd Hs02). rewrite Hfr; [done | by apply (bitmap_range nb fs) | |].
    - destruct Hbm as (k & gd' & Hk & ->). apply (bl_bitmap nb fs (fo_blocks nb fs Hok) k gd' Hk).
    - intros Eq. rewrite Eq in Hbm. by apply (im_apart nb fs Him _ Hib) in Hbm. }
  exists fs2. split; [done|]. constructor; try done.
  - apply (fs_ok_shape nb fs); try done; [apply (meta_same nb _ _ Hs02); by apply counted_meta|]. intros b Hb. by rewrite Hbu.
  - by apply (inode_maps_shape nb fs).
  - intros m Hvm. destruct (inode_group_of nb fs m Hil Hvm) as (_ & Hj & gd' & Hgd' & _). unfold inode_used.
    rewrite (imap_shape _ _ _ Hsh), (ss_ipg _ _ Hsh). unfold imap_of. rewrite (nth_lookup_Some _ _ _ _ Hgd').
    assert (Hib' : is_inode_bitmap fs (inode_bitmap gd')) by by eexists _, gd'.
    pose proof (im_bitmap nb fs Him _ _ Hgd') as Hr'. pose proof (im_bitmap nb fs Him _ _ Hgd) as Hr.
    destruct (decide ((m - 1) / ipg fs = g)) as [Egg|Hne].
    + rewrite Egg, Hgd in Hgd'. injection Hgd' as <-. destruct Hu as (_ & _ & Hbits).
      rewrite Hot2 by (done || (rewrite Ers; by apply (im_apart nb fs Him))).
      pose proof (im_fits nb fs Him). rewrite Hbits by (rewrite (bitmap_bits nb fs) by (apply Hok || done); lia).
      pose proof (Z.div_mod (m - 1) (ipg fs) ltac:(lia)) as Hdm. rewrite Egg in Hdm.
      destruct (Z.eqb_spec ((m - 1) mod ipg fs) i), (Z.eqb_spec m n); [done | subst n; lia | subst m; lia | done].
    + destruct (inode_group_of nb fs m Hil Hvm) as (Hgm & _).
      rewrite Hfr; [|done|by apply (im_apart nb fs Him)|].
      * rewrite (proj2 (Z.eqb_neq m n)); [done|]. intros ->. by rewrite Eg in Hne.
      * intros Eq. apply Hne. pose proof (im_distinct nb fs Him _ _ _ _ Hgd' Hgd Eq). lia.
  - intros c Hc Hr Hnib. apply Hfr; [done | done |]. by intros ->.
Qed.

(** No group has an inode left. *)
Definition inodes_full fs (g : Z) : Prop :=
  free_inodes_count (nth (Z.to_nat g) (groups fs) (mkGroup 0 0 0 0 0 0 0 [])) = 0 \/
  forall n, valid_inode fs n -> (n - 1) / ipg fs = g -> inode_used fs n = true.

Lemma allocInodeInGroup_ok nb fs g : fs_ok nb fs -> inode_maps nb fs -> 0 <= g < group_count fs ->
  (allocInodeInGroup g fs = Ok (0, fs) /\ inodes_full fs g) \/
  exists n fs', allocInodeInGroup g fs = Ok (n, fs') /\ n <> 0 /\ valid_inode fs n /\ inode_used fs n = false /\ inode_change nb fs fs' n true.
Proof.
  intros Hok Him Hgr. pose proof (fo_inodes nb fs Hok) as Hil. pose proof (fo_geometry nb fs Hok) as Hg.
  destruct (lookup_lt_is_Some_2 (groups fs) (Z.to_nat g)) as [gd Hgd]; [pose proof (il_groups nb fs Hil); lia|].
  pose proof (im_bitmap nb fs Him _ _ Hgd) as Hr. pose proof (im_fits nb fs Him) as Hfit. pose proof (il_ipg nb fs Hil) as Hipg.
  unfold inodes_full. rewrite (nth_lookup_Some _ _ _ _ Hgd).
  unfold allocInodeInGroup. step_get. rewrite (proj2 (Z.leb_gt _ _)) by lia.
  assert (El : load (groups fs) g = Ok gd) by (apply load_ok; split; [lia | done]). step El.
  destruct (Z.eqb_spec (free_inodes_count gd) 0) as [E0|_]; [left; split; [done | by left]|]. fold (ipg fs).
  destruct (alloc_bit_ok nb fs (inode_bitmap gd) (ipg fs) Hg Hr ltac:(lia)) as
    [[E Hall]|(i & fs1 & E & Hi & Hc & Hg1 & Hs1 & Hu & Hot)].
  - left. step E. split; [done|]. right. intros n Hv <-. unfold inode_used, imap_of. rewrite (nth_lookup_Some _ _ _ _ Hgd).
    apply Hall. apply Z.mod_pos_bound. lia.
  - right. destruct (inode_number nb fs g i Hil Hgr ltac:(lia)) as (Hv & Eg & Ei).
    destruct (inode_change_intro nb fs fs1 g i gd true (-1) Hok Him Hgr ltac:(lia) Hgd Hg1 Hs1 Hu Hot) as (fs2 & E2 & Ht).
    pose proof (il_count_small nb fs Hil). exists (g * ipg fs + i + 1), fs2. step E. step E2.
    unfold valid_inode in Hv. rewrite u32_small by lia. split_and!; try done; [lia..|].
    unfold inode_used. rewrite Eg, Ei. unfold imap_of. by rewrite (nth_lookup_Some _ _ _ _ Hgd).
Qed.

Lemma allocInode_ok nb fs : fs_ok nb fs -> inode_maps nb fs ->
  (allocInode 0 fs = Ok (0, fs) /\ forall g, 0 <= g < group_count fs -> inodes_full fs g) \/
  exists n fs', allocInode 0 fs = Ok (n, fs') /\ valid_inode fs n /\ inode_used fs n = false /\ inode_change nb fs fs' n true.
Proof.
  intros Hok Him. pose proof (ml_count nb fs (fo_meta nb fs Hok)). pose proof (ml_small nb fs (fo_meta nb fs Hok)).
  unfold allocInode. step_get. destruct (decide (group_count fs = 0)) as [E0|Hne].
  { left. rewrite E0. split; [done | lia]. }
  destruct (first_group_rule allocInodeInGroup (inodes_full fs) (fun n fs' => valid_inode fs n /\ inode_used fs n = false /\
    inode_change nb fs fs' n true) fs ltac:(lia)) with (n := Z.to_nat (group_count fs)) (i := 0)
    as [[E Hall]|(n & fs' & E & Hn & Hd)]; [|lia|lia|lia| |].
  - intros g Hgr. destruct (allocInodeInGroup_ok nb fs g Hok Him Hgr) as [?|(n & fs' & E & Hn & Hrest)]; [by left|].
    right. by exists n, fs'.
  - left. split; [done|]. intros g Hgr. apply Hall. lia.
  - right. by exists n, fs'.
Qed.
Lemma freeInode_ok nb fs n : fs_ok nb fs -> inode_maps nb fs -> valid_inode fs n ->
  exists fs', freeInode n fs = Ok (true, fs') /\ inode_change nb fs fs' n false.
Proof.
  intros Hok Him Hv. pose proof (fo_inodes nb fs Hok) as Hil. pose proof (fo_geometry nb fs Hok) as Hg.
  destruct (inode_group_of nb fs n Hil Hv) as (Hgr & Hi & gd & Hgd & _). pose proof (im_bitmap nb fs Him _ _ Hgd) as Hr.
  pose proof (im_fits nb fs Him). pose proof (il_ipg nb fs Hil). set (g := (n - 1) / ipg fs) in *. set (i := (n - 1) mod ipg fs) in *.
  destruct (free_bit_ok nb fs (inode_bitmap gd) i Hg Hr ltac:(lia)) as (bm' & fs1 & Ec & Ew & Hg1 & Hs1 & Hu & Hot).
  destruct (inode_change_intro nb fs fs1 g i gd false 1 Hok Him Hgr Hi Hgd Hg1 Hs1 Hu Hot) as (fs2 & E2 & Hch).
  replace (g * ipg fs + i + 1) with n in Hch by (pose proof (Z.div_mod (n - 1) (ipg fs) ltac:(lia)); subst g i; lia).
  exists fs2. split; [|done]. unfold freeInode. rewrite (proj2 (Z.eqb_neq n 0)) by (unfold valid_inode in Hv; lia).
  step (inode_group_ok nb fs n Hil Hv). fold g i. step_get. step (kmalloc_ok nb fs (block_size fs) Hg).
  assert (El : load (groups fs) g = Ok gd) by (apply load_ok; split; [lia | done]). step El.
  step (readBlock_fresh nb fs (inode_bitmap gd) Hg Hr). step Ec. step Ew. cbn [negb]. step E2. done.
Qed.

(** ** Trees *)

(** Inode [ino] is a directory with these blocks, which are its own. *)
Record dir_at (nb : Z) fs (ino : Z) (d : Inode * view) : Prop := mkDirAt {
  da_valid : valid_inode fs ino;
  da_used : inode_used fs ino = true;
  da_bytes : inode_bytes fs ino = encode_inode (fst d);
  da_inode : inode_ok (fst d);
  da_dir : directory nb fs (fst d) (snd d);
  da_blocks : forall p, p ∈ fst <$> snd d -> fs_block fs p /\ ~ system fs p /\ block_used fs p = true;
}.

(** A tree: the directories known of a file system, the root among them. *)
Record tree_ok (nb : Z) fs (T : gmap Z (Inode * view)) : Prop := mkTree {
  tr_root : is_Some (T !! ROOT_INODE);
  tr_dirs : forall ino d, T !! ino = Some d -> dir_at nb fs ino d;
  tr_apart : forall a b d e p, T !! a = Some d -> T !! b = Some e -> p ∈ fst <$> snd d -> p ∈ fst <$> snd e -> a = b;
}.

(** Where a list of names leads from inode [cur]: 0 when a name is missing,
    nothing when an inode on the way is not a directory of the tree. *)
Fixpoint lookup_path (T : gmap Z (Inode * view)) (cs : list (list Z)) (cur : Z) : option Z :=
  match cs with
  | [] => Some cur
  | c :: cs' =>
      match T !! cur with
      | Some d => let n := lookup_links c (dir_links (snd d)) in if n =? 0 then Some 0 else lookup_path T cs' n
      | None => None
      end
  end.

Lemma readInode_at nb fs ino i out : fs_ok nb fs -> valid_inode fs ino -> inode_bytes fs ino = encode_inode i -> inode_ok i ->
  length out = 128%nat -> readInode ino out fs = Ok (Some i, fs).
Proof.
  intros Hok Hv Hb Hi Ho. apply (readInode_ok nb); [apply Hok | apply Hok | done | done |]. rewrite Hb. by apply decode_encode_inode.
Qed.

(** One component is collected. *)
Lemma resolve_scan fs s : forall rest cur acc, Forall (fun c => c <> SLASH) s -> (length acc + length s <= 63)%nat ->
  resolve_from (s ++ rest) cur acc fs = resolve_from rest cur (acc ++ s) fs.
Proof.
  induction s as [|c s IH]; intros rest cur acc Hs Hl; [by rewrite app_nil_r|].
  apply Forall_cons_iff in Hs as [Hc Hs]. cbn [app resolve_from length] in *.
  change (c =? 47) with (c =? SLASH). rewrite (proj2 (Z.eqb_neq c SLASH)) by done.
  rewrite (proj2 (Nat.ltb_lt _ _)) by lia. rewrite IH by first [done | rewrite ?length_app; simpl; lia]. by rewrite <- app_assoc.
Qed.

(** The component is looked up in the current directory. *)
Lemma resolve_component nb fs T cur d c : fs_ok nb fs -> tree_ok nb fs T -> T !! cur = Some d -> component c ->
  (if (length c =? 0)%nat then mret cur else
   dir_inode ← readInode cur stack_inode;
   match dir_inode with None => mret 0 | Some dir_inode => lookupInDir dir_inode c end) fs =
  Ok (lookup_links c (dir_links (snd d)), fs).
Proof.
  intros Hok HT Hd (Hne & _). destruct (tr_dirs _ _ _ HT cur d Hd) as [Hv _ Hb Hi Hdir _].
  rewrite (proj2 (Nat.eqb_neq _ _)) by (by destruct c).
  step (readInode_at nb fs cur (fst d) stack_inode Hok Hv Hb Hi (length_junk _)).
  by apply (lookupInDir_ok nb), Hdir; apply Hok.
Qed.

Lemma resolve_names nb fs T : fs_ok nb fs -> tree_ok nb fs T -> forall cs cur n, Forall component cs -> cs <> [] ->
  lookup_path T cs cur = Some n -> resolve_from (join cs) cur [] fs = Ok (n, fs).
Proof.
  intros Hok HT. induction cs as [|c cs IH]; intros cur n Hcs Hne Hl; [done|]. apply Forall_cons_iff in Hcs as [Hc Hcs].
  cbn [lookup_path] in Hl. destruct (T !! cur) as [d|] eqn:Hd; [|done]. pose proof Hc as (_ & Hns & Hlen).
  pose proof (resolve_component nb fs T cur d c Hok HT Hd Hc) as E.
  set (k := lookup_links c (dir_links (snd d))) in *. destruct cs as [|c' cs].
  - cbn [join]. rewrite <- (app_nil_r c) at 1; rewrite resolve_scan by first [done | simpl; lia]. cbn [app resolve_from].
    rewrite E. cbn [lookup_path] in Hl. destruct (Z.eqb_spec k 0); congruence.
  - rewrite join_cons by done. rewrite resolve_scan by first [done | simpl; lia]. cbn [app resolve_from].
    change (SLASH =? 47) with true. cbn iota. rewrite (run_bind _ _ _ _ _ E). cbv beta.
    destruct (Z.eqb_spec k 0); [by injection Hl as <- | by apply IH].
Qed.

(** A path of names is resolved along the tree. *)
Lemma resolve_ok nb fs T cs n : fs_ok nb fs -> tree_ok nb fs T -> Forall component cs ->
  lookup_path T cs ROOT_INODE = Some n -> resolvePathToInode (join cs) fs = Ok (n, fs).
Proof.
  intros Hok HT Hcs Hl. destruct (decide (cs = [])) as [->|Hne]; [by injection Hl as <-|].
  rewrite <- (resolve_names nb fs T Hok HT cs ROOT_INODE n Hcs Hne Hl). unfold resolvePathToInode.
  destruct (join cs) eqn:E; [|done]. pose proof (length_join cs Hcs). rewrite E in *. destruct cs; [done | simpl in *; lia].
Qed.

(** The parent and the name of a path. *)
Lemma last_slash_none s : Forall (fun c => c <> SLASH) s -> last_slash s = None.
Proof.
  intros Hs. induction Hs as [|c s Hc Hs IH]; [done|]. cbn [last_slash]. rewrite IH.
  change (c =? 47) with (c =? SLASH). by rewrite (proj2 (Z.eqb_neq c SLASH)).
Qed.

Lemma last_slash_app p s : Forall (fun c => c <> SLASH) s -> last_slash (p ++ SLASH :: s) = Some (p, s).
Proof.
  intros Hs. induction p as [|c p IH]; cbn [app last_slash]; [by rewrite last_slash_none|]. by rewrite IH.
Qed.

Lemma join_snoc cs c : cs <> [] -> join (cs ++ [c]) = join cs ++ SLASH :: c.
Proof.
  induction cs as [|s cs IH]; [done|]. intros _. destruct cs as [|s' cs]; [done|].
  change ((s :: s' :: cs) ++ [c]) with (s :: ((s' :: cs) ++ [c])). rewrite (join_cons s ((s' :: cs) ++ [c])), (join_cons s (s' :: cs)) by done. rewrite IH by done. by rewrite <- app_assoc.
Qed.

Lemma split_path_ok cs name : component name -> (length (join cs) < 128)%nat -> split_path (join (cs ++ [name])) = Some (join cs, name).
Proof.
  intros (_ & Hn & _) Hl. unfold split_path. destruct (decide (cs = [])) as [->|Hne].
  - cbn [app join]. by rewrite last_slash_none.
  - rewrite join_snoc, last_slash_app by done. by rewrite (proj2 (Nat.leb_gt _ _)).
Qed.
End tree.
