(* ===== verification/Ext2Create.v ===== *)
(** Creating files and directories with the ext2 driver: [create] takes a free
    inode, stores it and adds one name to one directory of the tree. *)

From Stdlib Require Import ZifyBool.
From S2P Require Import Prelude Vfs VfsProofs Bytes Ext2Layout Ext2 Ext2Proofs Ext2Files Ext2Alloc Ext2Dir Ext2DirOps Ext2Read Ext2Grow Ext2Write Ext2Tree.

Section create.
Context {D : Type} `{BlockDevLaws D} `{UninitLaws}.
Implicit Types fs : FsInstance D.
Implicit Types T : gmap Z (Inode * view).

(** ** Changes elsewhere *)

Lemma shape_valid fs fs' n : same_shape fs fs' -> valid_inode fs' n <-> valid_inode fs n.
Proof. intros Hs. unfold valid_inode. by rewrite (ss_ipg _ _ Hs), (ss_count _ _ Hs). Qed.

Lemma shape_not_system fs fs' b : same_shape fs fs' -> ~ system fs b -> ~ system fs' b.
Proof. intros Hs Hb Hb'. by apply Hb, (system_shape fs fs' b Hs). Qed.

Lemma directory_frame nb fs fs' dir v : directory nb fs dir v -> same_shape fs fs' ->
  (forall p, p ∈ fst <$> v -> block_bytes fs' p = block_bytes fs p) -> directory nb fs' dir v.
Proof.
  intros [D1 D2 D3 D4 D5] Hs Hb. constructor; try done; [by rewrite (ss_block_size _ _ Hs)|].
  intros k p es Hk. destruct (D4 k p es Hk) as (? & ? & ? & ?). rewrite Hb; [done|].
  apply list_elem_of_fmap. exists (p, es). split; [done | by eapply list_elem_of_lookup_2].
Qed.

(** A directory whose inode and blocks are as before. *)
Lemma dir_at_frame nb fs fs' ino d : dir_at nb fs ino d -> same_shape fs fs' -> inode_used fs' ino = true ->
  inode_bytes fs' ino = inode_bytes fs ino ->
  (forall p, p ∈ fst <$> snd d -> block_bytes fs' p = block_bytes fs p /\ block_used fs' p = true) -> dir_at nb fs' ino d.
Proof.
  intros [A1 A2 A3 A4 A5 A6] Hs Hu Hi Hb. constructor; try done.
  - by apply (shape_valid fs fs').
  - by rewrite Hi.
  - apply (directory_frame nb fs); [done | done |]. intros p Hp. by apply Hb.
  - intros p Hp. destruct (A6 p Hp) as (? & ? & ?). destruct (Hb p Hp) as [_ Hbu].
    split; [by apply (shape_fs_block fs fs')|]. split; [by apply (shape_not_system fs fs') | done].
Qed.

(** One directory of the tree changes, the others are as before. *)
Lemma tree_update nb fs fs' T ino d d' : tree_ok nb fs T -> T !! ino = Some d -> (fst <$> snd d') = (fst <$> snd d) ->
  dir_at nb fs' ino d' -> (forall a e, a <> ino -> T !! a = Some e -> dir_at nb fs' a e) -> tree_ok nb fs' (<[ino := d']> T).
Proof.
  intros [T1 T2 T3] Hd Hf Hd' Hot. constructor.
  - destruct (decide (ROOT_INODE = ino)) as [->|Hne]; [by rewrite lookup_insert_eq | by rewrite lookup_insert_ne].
  - intros a e He. destruct (decide (a = ino)) as [->|Hne]; [rewrite lookup_insert_eq in He; by injection He as <-|].
    rewrite lookup_insert_ne in He by done. by apply Hot.
  - intros a b e e' p Ha Hb Hp Hp'.
    assert (Hback : forall c x, <[ino := d']> T !! c = Some x -> exists y, T !! c = Some y /\ (fst <$> snd y) = (fst <$> snd x)).
    { intros c x Hx. destruct (decide (c = ino)) as [->|Hne]; [rewrite lookup_insert_eq in Hx; injection Hx as <-; by exists d|].
      rewrite lookup_insert_ne in Hx by done. by exists x. }
    destruct (Hback a e Ha) as (y & Hy & Ey). destruct (Hback b e' Hb) as (y' & Hy' & Ey'). apply (T3 a b y y' p Hy Hy'); congruence.
Qed.

(** A directory that is new to the tree. *)
Lemma tree_extend nb fs T ino d : tree_ok nb fs T -> T !! ino = None -> dir_at nb fs ino d ->
  (forall a e p, T !! a = Some e -> p ∈ fst <$> snd d -> p ∉ fst <$> snd e) -> tree_ok nb fs (<[ino := d]> T).
Proof.
  intros [T1 T2 T3] Hn Hd Hnew. assert (Hne : forall a e, T !! a = Some e -> a <> ino) by (intros a e He ->; congruence).
  constructor.
  - destruct T1 as [e He]. rewrite lookup_insert_ne; [by exists e|]. intros E. by apply (Hne _ _ He).
  - intros a e. rewrite lookup_insert. case_decide as E; [intros [= <-]; by subst | by apply T2].
  - intros a b e e' p. rewrite !lookup_insert. case_decide as E; case_decide as E'; subst; try done.
    + intros [= <-] He Hp Hp'. by destruct (Hnew _ _ p He Hp).
    + intros He [= <-] Hp Hp'. by destruct (Hnew _ _ p He Hp').
    + apply T3.
Qed.

Lemma inode_bytes_frame nb fs fs' m : fs_ok nb fs -> same_shape fs fs' -> valid_inode fs m ->
  (forall b, in_table fs b -> 0 <= b < nb -> block_bytes fs' b = block_bytes fs b) -> inode_bytes fs' m = inode_bytes fs m.
Proof.
  intros Hok Hs Hv Hb. pose proof (inode_block_in_table nb fs m Hok Hv) as Hin.
  unfold inode_bytes. destruct (shape_position nb fs fs' m Hok Hs Hv) as [-> ->]. rewrite Hb; [done | done |].
  apply (inode_block_bounds nb fs m); [apply Hok | apply Hok | done].
Qed.

Lemma tree_range nb fs T a e p : fs_ok nb fs -> tree_ok nb fs T -> T !! a = Some e -> p ∈ fst <$> snd e ->
  0 <= p < nb /\ fs_block fs p /\ ~ system fs p /\ block_used fs p = true.
Proof.
  intros Hok HT Ha Hp. destruct (tr_dirs _ _ _ HT a e Ha) as [_ _ _ _ _ Hb]. destruct (Hb p Hp) as (H1' & H2' & H3').
  split_and!; try done; pose proof (bl_total nb fs (fo_blocks nb fs Hok)); pose proof (ml_fdb nb fs (fo_meta nb fs Hok));
    unfold fs_block in *; lia.
Qed.

(** The tree is as before when its directories are. *)
Lemma tree_frame nb fs fs' T : fs_ok nb fs -> tree_ok nb fs T -> same_shape fs fs' ->
  (forall a e, T !! a = Some e -> inode_bytes fs' a = inode_bytes fs a) ->
  (forall a, valid_inode fs a -> inode_used fs a = true -> inode_used fs' a = true) ->
  (forall p, 0 <= p < nb -> fs_block fs p -> ~ system fs p -> block_used fs p = true ->
     block_bytes fs' p = block_bytes fs p /\ block_used fs' p = true) -> tree_ok nb fs' T.
Proof.
  intros Hok HT Hs Hi Hu Hb. pose proof HT as [T1 T2 T3]. constructor; [done | | done].
  intros a e He. pose proof (T2 a e He) as Hd. apply (dir_at_frame nb fs); try done.
  - apply Hu; apply Hd.
  - by apply (Hi a e).
  - intros p Hp. destruct (tree_range nb fs T a e p Hok HT He Hp) as (? & ? & ? & ?). by apply Hb.
Qed.

(** ** The new name *)

(** A block of the directory has room for the name. *)
Definition room (name : list Z) (v : view) : Prop := exists p es e, (p, es) ∈ v /\ e ∈ es /\ has_room name e = true.

Lemma room_insert name v child ft : room name v -> exists pe, pe ∈ v /\ insert_ents name child ft (snd pe) <> None.
Proof.
  intros (p & es & e & Hv & He & Hr). exists (p, es). split; [done|]. cbn [snd]. clear Hv.
  induction es as [|x es IH]; [by apply not_elem_of_nil in He|]. cbn [insert_ents]. destruct (has_room name x) eqn:Hx; [done|].
  apply elem_of_cons in He as [-> |He]; [congruence|]. specialize (IH He). by destruct (insert_ents name child ft es).
Qed.

(** The end of [create]: the new inode [n] is stored and named in the parent. *)
Definition link_new (pino n : Z) (dir ni : Inode) (name : list Z) (ft : Z) : FS D bool :=
  ok ← writeInode n ni;
  if negb ok then mret false else
  '(ok, dir) ← insertDirEntry dir name n ft;
  if negb ok then mret false else
  writeInode pino dir.

(** The directory [pino] of the tree has one more name, and nothing else has
    changed but the inodes of the directory and of the name. *)
Record linked (nb : Z) fs T (pino : Z) (d : Inode * view) (dir : Inode) (n : Z) (ni : Inode) (name : list Z) (ft : Z) fs' (v' : view) : Prop := mkLinked {
  lk_ok : fs_ok nb fs';
  lk_maps : inode_maps nb fs';
  lk_instance : same_instance fs fs';
  lk_blocks : forall b, fs_block fs b -> block_used fs' b = block_used fs b;
  lk_inodes : forall m, valid_inode fs m -> inode_used fs' m = inode_used fs m;
  lk_tree : tree_ok nb fs' (<[pino := (dir, v')]> T);
  lk_same_blocks : (fst <$> v') = (fst <$> snd d);
  lk_links : exists l1 l2, dir_links (snd d) = l1 ++ l2 /\ dir_links v' = l1 ++ mkLink name n ft :: l2;
  lk_new : inode_bytes fs' n = encode_inode ni;
  lk_others : forall m, valid_inode fs m -> m <> n -> m <> pino -> inode_bytes fs' m = inode_bytes fs m;
  lk_frame : forall c, 0 <= c < nb -> ~ in_table fs c -> c ∉ fst <$> snd d -> block_bytes fs' c = block_bytes fs c;
}.

Lemma same_directory nb fs dir dir' v : directory nb fs dir v -> is_dir dir' = true -> size dir' = size dir -> block dir' = block dir ->
  directory nb fs dir' v.
Proof. intros [D1 D2 D3 D4 D5] Hd Hs Hb. constructor; try done; [by rewrite Hs | by rewrite Hb]. Qed.

Lemma link_ok nb fs T pino d dir n ni name ft : fs_ok nb fs -> inode_maps nb fs -> tree_ok nb fs T -> T !! pino = Some d ->
  T !! n = None -> valid_inode fs n -> inode_ok ni -> inode_ok dir -> is_dir dir = true -> size dir = size (fst d) ->
  block dir = block (fst d) -> new_link name n ft -> room name (snd d) ->
  exists fs' v', link_new pino n dir ni name ft fs = Ok (true, fs') /\ linked nb fs T pino d dir n ni name ft fs' v'.
Proof.
  intros Hok Him HT Hd Hn Hv Hni Hdir Hisd Hsz Hbl Hnew Hroom. pose proof (tr_dirs _ _ _ HT pino d Hd) as Hat.
  assert (Hnp : n <> pino) by (intros ->; congruence). pose proof (da_valid _ _ _ _ Hat) as Hvp.
  assert (Hblk : forall p, p ∈ fst <$> snd d -> 0 <= p < nb /\ fs_block fs p /\ ~ system fs p /\ block_used fs p = true)
    by (intros p; by apply (tree_range nb fs T pino)).
  destruct (inode_stored nb fs n ni Hok Hv Hni) as (fs1 & E1 & Hok1 & Hs1 & Hu1 & Eb1 & Hot1 & Hfr1).
  pose proof (same_instance_shape _ _ Hs1) as Hsh1.
  assert (Hd1 : directory nb fs1 dir (snd d)).
  { apply (same_directory nb fs1 (fst d)); try done. apply (directory_frame nb fs); [apply Hat | done |].
    intros p Hp. destruct (Hblk p Hp) as (? & _ & Hns & _). apply Hfr1; [done|]. intros Ht. apply Hns. by do 3 right. }
  destruct (insertDirEntry_ok nb fs1 dir (snd d) name n ft (fo_geometry _ _ Hok1) Hd1 Hnew (room_insert name _ n ft Hroom))
    as (v' & fs2 & l1 & l2 & E2 & Hg2 & Hs2 & Hd2 & Hfst & El & El' & Hfr2).
  assert (Hsys2 : forall b, 0 <= b < nb -> system fs b -> block_bytes fs2 b = block_bytes fs1 b).
  { intros b Hb Hsb. apply Hfr2; [done|]. intros Hin. by destruct (Hblk b Hin) as (_ & _ & Hns & _). }
  assert (Hbm1 : forall b, is_bitmap fs1 b -> is_bitmap fs b) by (intros b; unfold same_instance in Hs1; by rewrite Hs1).
  assert (Ht1 : forall b, in_table fs1 b -> in_table fs b) by (intros b; unfold same_instance in Hs1; by rewrite Hs1).
  assert (Ht2 : forall b, in_table fs2 b -> in_table fs b) by (intros b; unfold same_instance in Hs1, Hs2; by rewrite Hs2, Hs1).
  destruct (write_frame nb fs1 fs2 Hok1 Hg2 Hs2) as [Hok2 Hu2].
  { intros b Hb. apply Hsys2; [by apply (bitmap_range nb fs1) | right; left; by apply Hbm1]. }
  assert (Hvs : forall m, (valid_inode fs1 m <-> valid_inode fs m) /\ (valid_inode fs2 m <-> valid_inode fs m) /\
    (fs_block fs1 m <-> fs_block fs m) /\ (fs_block fs2 m <-> fs_block fs m))
    by (intros m; unfold same_instance in Hs1, Hs2; by rewrite Hs2, Hs1).
  destruct (inode_stored nb fs2 pino dir Hok2) as (fs3 & E3 & Hok3 & Hs3 & Hu3 & Eb3 & Hot3 & Hfr3); [by apply Hvs | done |].
  assert (Hs03 : same_instance fs fs3) by (unfold same_instance in *; rewrite Hs3, Hs2, Hs1; done).
  pose proof (same_instance_shape _ _ Hs03) as Hsh3.
  assert (Hb03 : forall b, fs_block fs b -> block_used fs3 b = block_used fs b)
    by (intros b Hb; rewrite Hu3, Hu2, Hu1 by (done || by apply Hvs); done).
  assert (Hi12 : forall m, valid_inode fs m -> inode_bytes fs2 m = inode_bytes fs1 m).
  { intros m Hm. apply (inode_bytes_frame nb); [done | by apply same_instance_shape | by apply Hvs |].
    intros b Hb Hr. apply Hsys2; [done|]. do 3 right. by apply Ht1. }
  assert (Hfr : forall c, 0 <= c < nb -> ~ in_table fs c -> c ∉ fst <$> snd d -> block_bytes fs3 c = block_bytes fs c).
  { intros c Hc Ht Hin. rewrite Hfr3, Hfr2, Hfr1; try done. intros Ht'. by apply Ht, Ht2. }
  assert (Hdata : forall p, p ∈ fst <$> snd d -> block_bytes fs3 p = block_bytes fs2 p).
  { intros p Hp. destruct (Hblk p Hp) as (? & _ & Hns & _). apply Hfr3; [done|]. intros Ht. apply Hns. do 3 right. by apply Ht2. }
  assert (Hiu : forall m, valid_inode fs m -> inode_used fs3 m = inode_used fs m).
  { intros m Hm. apply (inode_used_frame nb); try done. intros b Hb Hr. destruct (im_apart nb fs Him b Hb) as (_ & _ & Ht).
    apply Hfr; [done | done |]. intros Hin. destruct (Hblk b Hin) as (_ & _ & Hns & _). apply Hns. by do 2 right; left. }
  assert (Hoi : forall m, valid_inode fs m -> m <> n -> m <> pino -> inode_bytes fs3 m = inode_bytes fs m).
  { intros m Hm Hmn Hmp. rewrite Hot3, Hi12, Hot1; try done. by apply Hvs. }
  exists fs3, v'. split; [unfold link_new; step E1; cbn [negb]; step E2; cbn [negb]; done|]. constructor; try done.
  - by apply (inode_maps_shape nb fs).
  - apply (tree_update nb fs fs3 T pino d); try done.
    + constructor; cbn [fst snd]; try done; [by apply (shape_valid fs) | by rewrite Hiu by done; apply Hat | |].
      * apply (directory_frame nb fs2); [done | by apply same_instance_shape |]. rewrite Hfst. apply Hdata.
      * intros p. rewrite Hfst. intros Hp. destruct (Hblk p Hp) as (_ & ? & ? & ?). split; [by apply (shape_fs_block fs)|].
        split; [by apply (shape_not_system fs) | by rewrite Hb03].
    + intros a e Ha He. pose proof (tr_dirs _ _ _ HT a e He) as Hae. pose proof (da_valid _ _ _ _ Hae) as Hva.
      apply (dir_at_frame nb fs); try done; [by rewrite Hiu by done; apply Hae | apply Hoi; try done; congruence |].
      intros p Hp. destruct (tree_range nb fs T a e p Hok HT He Hp) as (? & ? & Hns & Hu). rewrite Hb03 by done. split; [|done].
      apply Hfr; [done | intros Ht; apply Hns; by do 3 right |]. intros Hin. by apply Ha, (tr_apart _ _ _ HT a pino e d p).
  - by exists l1, l2.
  - rewrite Hot3, Hi12; try done. by apply Hvs.
Qed.

(** ** Paths after a name was added *)

Lemma lookup_path_mono T T' cs cur n : T ⊆ T' -> lookup_path T cs cur = Some n -> lookup_path T' cs cur = Some n.
Proof.
  intros Hsub. revert cur. induction cs as [|c cs IH]; intros cur Hl; [done|]. cbn [lookup_path] in *.
  destruct (T !! cur) as [d|] eqn:Hd; [|done]. assert (T' !! cur = Some d) as -> by by eapply lookup_weaken. cbv zeta in *. destruct (_ =? 0); [done | by apply IH].
Qed.

(** The directory [pino] with a name more, an entry of type [ft]. *)
Definition name_added T (pino : Z) (name : list Z) (n ft : Z) T' : Prop := exists d d' l1 l2, T !! pino = Some d /\
  T' = <[pino := d']> T /\ dir_links (snd d) = l1 ++ l2 /\ dir_links (snd d') = l1 ++ mkLink name n ft :: l2 /\ name ∉ l_name <$> dir_links (snd d).

Lemma lookup_path_kept T pino name n ft T' : name_added T pino name n ft T' -> forall cs cur m, lookup_path T cs cur = Some m -> m <> 0 ->
  lookup_path T' cs cur = Some m.
Proof.
  intros (d & d' & l1 & l2 & Hd & -> & El & El' & Hno). induction cs as [|c cs IH]; intros cur m Hl Hm; [done|]. cbn [lookup_path] in *.
  destruct (decide (cur = pino)) as [->|Hne].
  - rewrite Hd in Hl. rewrite lookup_insert_eq. rewrite El in Hno, Hl. rewrite El', (lookup_insert_link name n ft c l1 l2 Hno).
    cbv zeta in *. case_bool_decide as Hc; [|destruct (_ =? 0); [done | by apply IH]]. subst c. rewrite <- (app_nil_r (l1 ++ l2)), lookup_links_app in Hl.
    rewrite bool_decide_eq_false_2 in Hl by done. cbn in Hl. congruence.
  - rewrite lookup_insert_ne by done. destruct (T !! cur) as [e|]; [|done]. cbv zeta in *. destruct (_ =? 0); [done | by apply IH].
Qed.

Lemma lookup_path_snoc T cs cur m c d : lookup_path T cs cur = Some m -> m <> 0 -> T !! m = Some d ->
  lookup_path T (cs ++ [c]) cur = Some (lookup_links c (dir_links (snd d))).
Proof.
  revert cur. induction cs as [|s cs IH]; intros cur Hl Hm Hd; cbn [app lookup_path] in *.
  - injection Hl as <-. rewrite Hd. case_match eqn:E; [|done]. by apply Z.eqb_eq in E as ->.
  - destruct (T !! cur) as [e|]; [|done]. cbv zeta in *. destruct (_ =? 0); [congruence | by apply IH].
Qed.

Lemma lookup_path_new T pino name n ft T' cs : name_added T pino name n ft T' -> pino <> 0 ->
  lookup_path T cs ROOT_INODE = Some pino -> lookup_path T' (cs ++ [name]) ROOT_INODE = Some n.
Proof.
  intros Hadd Hp Hl. pose proof (lookup_path_kept _ _ _ _ _ _ Hadd _ _ _ Hl Hp) as Hl'.
  destruct Hadd as (d & d' & l1 & l2 & Hd & -> & El & El' & Hno). rewrite (lookup_path_snoc _ cs ROOT_INODE pino name d' Hl' Hp);
    [|apply lookup_insert_eq]. rewrite El in Hno. by rewrite El', lookup_insert_link, bool_decide_eq_true_2 by done.
Qed.

(** ** The new inode *)

(** Inode [n] and the blocks [new] are taken; files and directories are as before. *)
Record prepared (nb : Z) fs T fs' (n : Z) (new : list Z) : Prop := mkPrepared {
  pr_ok : fs_ok nb fs';
  pr_maps : inode_maps nb fs';
  pr_shape : same_shape fs fs';
  pr_tree : tree_ok nb fs' T;
  pr_inodes : forall m, valid_inode fs m -> inode_used fs' m = (m =? n) || inode_used fs m;
  pr_bytes : forall m, valid_inode fs m -> inode_bytes fs' m = inode_bytes fs m;
  pr_blocks : forall b, fs_block fs b -> block_used fs' b = block_used fs b || bool_decide (b ∈ new);
  pr_frame : forall c, 0 <= c < nb -> ~ system fs c -> c ∉ new -> block_bytes fs' c = block_bytes fs c;
}.

Lemma prepare_file nb fs T fs' n : fs_ok nb fs -> inode_maps nb fs -> tree_ok nb fs T -> inode_change nb fs fs' n true -> prepared nb fs T fs' n [].
Proof.
  intros Hok Him HT [I1 I2 I3 I4 I5 I6].
  assert (Hby : forall m, valid_inode fs m -> inode_bytes fs' m = inode_bytes fs m).
  { intros m Hm. apply (inode_bytes_frame nb); try done. intros b Hb Hr. destruct (fo_tables nb fs Hok b Hb) as [Hnr _].
    apply I6; [done | done |]. intros Hi. by apply (im_apart nb fs Him b Hi) in Hb. }
  assert (Hfr : forall c, 0 <= c < nb -> ~ system fs c -> block_bytes fs' c = block_bytes fs c).
  { intros c Hc Hns. apply I6; [done | intros ?; apply Hns; by left | intros ?; apply Hns; by do 2 right; left]. }
  constructor; try done.
  - apply (tree_frame nb fs); try done.
    + intros a e He. apply Hby, (tr_dirs _ _ _ HT a e He).
    + intros a Ha Hu. rewrite I4, Hu by done. by destruct (a =? n).
    + intros p Hp Hb Hns Hu. split; [by apply Hfr | by rewrite I5].
  - intros b Hb. rewrite I5 by done. rewrite bool_decide_eq_false_2 by apply not_elem_of_nil. by rewrite orb_false_r.
  - intros c Hc Hns _. by apply Hfr.
Qed.

(** A block for the new directory, filled with [buf]. *)
Lemma prepare_block nb fs T fs1 n buf : fs_ok nb fs -> inode_maps nb fs -> prepared nb fs T fs1 n [] ->
  Z.of_nat (length buf) = block_size fs -> bytes_ok buf ->
  (allocBlock 0 fs1 = Ok (0, fs1) /\ disk_full fs1) \/
  exists p fs2 fs3, allocBlock 0 fs1 = Ok (p, fs2) /\ same_shape fs fs2 /\ geometry nb fs2 /\ writeBlock p buf fs2 = Ok (true, fs3) /\
    0 < p < nb /\ fs_block fs p /\ ~ system fs p /\ block_used fs p = false /\ block_bytes fs3 p = buf /\ prepared nb fs T fs3 n [p].
Proof.
  intros Hok Him [P1 P2 P3 P4 P5 P6 P7 P8] Hl Hb.
  destruct (fs_alloc_ok nb fs1 P1) as [?|(p & fs2 & E2 & Hp & Hfb & Hfree & Hns & Hok2 & Hs2 & Hu2 & Hfr2)]; [by left|right].
  pose proof (shape_not_system fs1 fs2 p Hs2 Hns) as Hns2. pose proof (same_shape_trans _ _ _ P3 Hs2) as Hs02.
  assert (Hfb0 : fs_block fs p) by by apply (shape_fs_block fs fs1). assert (Hns0 : ~ system fs p).
  { apply (shape_not_system fs1); [by apply same_shape_sym | done]. }
  destruct (block_written nb fs2 p buf Hok2) as (fs3 & E3 & Hok3 & _ & Hs3 & Hu3 & Eself & Hot3);
    [lia | intros ?; apply Hns2; by right; left | by rewrite (ss_block_size _ _ Hs02) | done |].
  pose proof (same_shape_trans _ _ _ Hs02 Hs3) as Hs03. pose proof (same_shape_trans _ _ _ Hs2 Hs3) as Hs13.
  assert (Hsys1 : forall c, (reserved fs1 c <-> reserved fs c) /\ (is_bitmap fs1 c -> is_bitmap fs c)).
  { intros c. destruct (shape_system fs fs1 c P3) as (? & ? & _). done. }
  assert (Hfr13 : forall c, 0 <= c < nb -> ~ reserved fs c -> ~ is_bitmap fs c -> c <> p -> block_bytes fs3 c = block_bytes fs1 c).
  { intros c Hc Hr Hbm Hne. rewrite Hot3, Hfr2; try done; [by rewrite (proj1 (Hsys1 c)) | intros ?; by apply Hbm, Hsys1]. }
  assert (Hbu : forall b, fs_block fs b -> block_used fs3 b = block_used fs b || bool_decide (b ∈ [p])).
  { intros b Hfbb. assert (Hfb1 : fs_block fs1 b) by by apply (shape_fs_block fs fs1).
    rewrite Hu3 by by apply (shape_fs_block fs1 fs2). rewrite Hu2, P7 by done.
    rewrite (bool_decide_eq_false_2 (b ∈ [])), orb_false_r by apply not_elem_of_nil. f_equal.
    rewrite (bool_decide_ext _ (b = p)) by apply list_elem_of_singleton. destruct (Z.eqb_spec b p); by case_bool_decide. }
  assert (Hby : forall m, valid_inode fs m -> inode_bytes fs3 m = inode_bytes fs m).
  { intros m Hm. rewrite <- P6 by done. apply (inode_bytes_frame nb); [done | done | by apply (shape_valid fs)|].
    intros b Hb1 Hr. destruct (fo_tables nb fs1 P1 b Hb1) as [Hnr Hnb]. rewrite Hot3, Hfr2; try done.
    intros ->. apply Hns. by do 3 right. }
  assert (Hiu : forall m, valid_inode fs m -> inode_used fs3 m = inode_used fs1 m).
  { intros m Hm. apply (inode_used_frame nb); try done; [by apply (shape_valid fs)|]. intros b Hb1 Hr.
    destruct (im_apart nb fs1 P2 b Hb1) as (Hnr & Hnb & _). rewrite Hot3, Hfr2; try done. intros ->. apply Hns. by do 2 right; left. }
  exists p, fs2, fs3. split_and!; try done; try lia; [apply Hok2 | |].
  - rewrite P7 in Hfree by done. by apply orb_false_iff in Hfree as [? _].
  - constructor; try done; [by apply (inode_maps_shape nb fs1) | | intros m Hm; by rewrite Hiu, P5 |].
    + apply (tree_frame nb fs1); try done.
      * intros a e He. pose proof (da_valid _ _ _ _ (tr_dirs _ _ _ P4 a e He)) as Hva. apply (shape_valid fs fs1) in Hva; [|done].
        by rewrite Hby, P6.
      * intros a Ha Hua. rewrite Hiu; [done | by apply (shape_valid fs fs1)].
      * intros q Hq Hqb Hqs Hqu. assert (Hqb0 : fs_block fs q) by by apply (shape_fs_block fs fs1).
        assert (q <> p) by congruence. split.
        -- apply Hfr13; [done | | | done]; intros Hx; apply Hqs; [left; by apply Hsys1 | right; left].
           apply (shape_system fs1 fs q (same_shape_sym _ _ P3)), Hx.
        -- rewrite Hbu by done. rewrite P7 in Hqu by done.
           rewrite (bool_decide_eq_false_2 (q ∈ [])), orb_false_r in Hqu by apply not_elem_of_nil. by rewrite Hqu.
    + intros c Hc Hcs Hcn. apply not_elem_of_cons in Hcn as [Hcn _]. rewrite <- P8; [| done | done | apply not_elem_of_nil].
      apply Hfr13; [done | intros ?; apply Hcs; by left | intros ?; apply Hcs; by right; left | done].
Qed.

(** ** The first block of a directory *)

Definition dot_entries (bs n pino : Z) : list ent :=
  [mkEnt (mkDirEnt n 12 1 FT_DIR) [46; 0; 0; 0];
   mkEnt (mkDirEnt pino (bs - 12) 2 FT_DIR) ([46; 46] ++ replicate (Z.to_nat (bs - 22)) 0)].

Lemma dot_entries_ok bs n pino : 1024 <= bs <= 32768 -> 0 < n < 2 ^ 32 -> 0 < pino < 2 ^ 32 -> Forall ent_ok (dot_entries bs n pino).
Proof.
  intros Hbs Hn Hp. assert (E1 : dirEntryMinSize 1 = 12) by reflexivity. assert (E2 : dirEntryMinSize 2 = 12) by reflexivity.
  repeat apply Forall_cons_2; [| |apply Forall_nil_2]; (split; [|split; [|split]]); cbn [hdr body inode rec_len name_len].
  - apply dirent_ok_intro; unfold FT_DIR; lia.
  - by repeat constructor.
  - done.
  - rewrite E1. lia.
  - apply dirent_ok_intro; unfold FT_DIR; lia.
  - apply Forall_app. split; [by repeat constructor | by apply Forall_replicate].
  - rewrite length_app, length_replicate. simpl. lia.
  - rewrite E2. lia.
Qed.

Lemma store_at (a c : list Z) x y i : i = Z.of_nat (length a) -> store (a ++ x :: c) i y = Ok (a ++ y :: c).
Proof.
  intros ->. rewrite store_in_range by (rewrite length_app; simpl; lia). by rewrite Nat2Z.id, insert_app_r_alt, Nat.sub_diag by lia.
Qed.

Lemma splice_at (a b b' c : list Z) i : i = Z.of_nat (length a) -> length b = length b' -> splice (a ++ b ++ c) i b' = Ok (a ++ b' ++ c).
Proof. intros ->. apply splice_app. Qed.

Lemma dots_block_ok bs n pino : 1024 <= bs <= 32768 -> dots_block bs n pino = Ok (block_of (dot_entries bs n pino)).
Proof.
  intros Hbs. unfold dots_block. change (dirEntryMinSize 1) with 12. cbv zeta. rewrite u16_small by lia.
  set (h1 := encode_dirent (mkDirEnt n 12 1 FT_DIR)). set (h2 := encode_dirent (mkDirEnt pino (bs - 12) 2 FT_DIR)).
  assert (Hl1 : length h1 = 8%nat) by apply length_encode_dirent. assert (Hl2 : length h2 = 8%nat) by apply length_encode_dirent.
  set (R := replicate (Z.to_nat (bs - 22)) 0).
  assert (E0 : replicate (Z.to_nat bs) 0 = [] ++ replicate 8 0 ++ [0; 0; 0; 0] ++ replicate 8 0 ++ [0; 0] ++ R).
  { unfold R. replace (Z.to_nat bs) with (8 + (4 + (8 + (2 + Z.to_nat (bs - 22)))))%nat by lia. by rewrite !replicate_add. }
  rewrite E0, (splice_at [] (replicate 8 0) h1) by done. cbn [mbind outcome_bind app].
  rewrite (store_at h1 _ 0 46) by (rewrite Hl1; done). cbn [mbind outcome_bind].
  change (h1 ++ 46 :: 0 :: 0 :: 0 :: replicate 8 0 ++ 0 :: 0 :: R) with (h1 ++ [46; 0; 0; 0] ++ replicate 8 0 ++ 0 :: 0 :: R).
  rewrite app_assoc, (splice_at (h1 ++ [46; 0; 0; 0]) (replicate 8 0) h2) by (rewrite ?length_app, ?Hl1, ?Hl2; done).
  cbn [mbind outcome_bind]. set (a := h1 ++ [46; 0; 0; 0]). assert (Ha : length a = 12%nat) by (unfold a; by rewrite length_app, Hl1).
  rewrite (app_assoc a h2). rewrite (store_at (a ++ h2) _ 0 46) by (rewrite length_app, Ha, Hl2; done). cbn [mbind outcome_bind].
  change ((a ++ h2) ++ 46 :: 0 :: R) with ((a ++ h2) ++ [46] ++ 0 :: R). rewrite app_assoc.
  rewrite (store_at ((a ++ h2) ++ [46]) _ 0 46) by (rewrite !length_app, Ha, Hl2; done).
  f_equal. unfold dot_entries, a. cbn [block_of fmap list_fmap concat]. unfold block_of, ent_bytes. cbn [fmap list_fmap concat hdr body].
  fold h1 h2 R. by rewrite <- !app_assoc, app_nil_r.
Qed.

(** ** The whole call *)

(** The inode of a new file or directory, and the parent's inode with it. *)
Definition new_node (isdir : bool) (bs p : Z) : Inode :=
  if isdir then inode_with (fresh_inode true) bs 2 (bs / 512) (p :: replicate 14 0) else fresh_inode false.
Definition parent_node (isdir : bool) (dir : Inode) : Inode :=
  if isdir then set_links dir (u16 (links_count dir + 1)) else dir.

Lemma new_node_ok isdir bs p : 1024 <= bs <= 32768 -> 0 <= p < 2 ^ 32 -> inode_ok (new_node isdir bs p).
Proof.
  intros Hbs Hp. assert (0 <= bs / 512 < 2 ^ 32) by (split; [apply Z.div_pos; lia | apply Z.div_lt_upper_bound; lia]).
  destruct isdir; (split_and!; [| | |done|by apply Forall_replicate]); unfold fields_ok, new_node, inode_with, fresh_inode; cbn;
    repeat (apply Forall2_cons_2; [first [by split | cbv [size blocks]; lia]|]); apply Forall2_nil_2.
Qed.

Lemma parent_node_ok isdir dir : inode_ok dir -> inode_ok (parent_node isdir dir).
Proof.
  destruct isdir; [|done]. intros (Hh & Hb & Ht & Ho & Hob). split_and!; try done.
  unfold parent_node, set_links, inode_with, fields_ok, inode_widths, inode_head in *. cbn in *.
  repeat match goal with H : Forall2 _ (_ :: _) (_ :: _) |- _ => apply Forall2_cons_iff in H as [? H] end.
  repeat (constructor; [done || apply u16_range|]). constructor.
Qed.

Lemma links_live es : Forall (fun l => l_inode l <> 0) (links es).
Proof.
  apply Forall_concat, Forall_fmap, list.Forall_forall. intros e _. cbn. unfold ent_links, ent_live.
  destruct (Z.eqb_spec (inode (hdr e)) 0); cbn; [constructor | by repeat constructor].
Qed.

Lemma lookup_present name ls : Forall (fun l => l_inode l <> 0) ls -> name ∈ l_name <$> ls -> lookup_links name ls <> 0.
Proof.
  induction 1 as [|l ls Hl Hls IH]; cbn [fmap list_fmap lookup_links]; [by intros ?%not_elem_of_nil|].
  rewrite elem_of_cons. case_bool_decide; [done|]. intros [->|Hin]; [done | by apply IH].
Qed.

Lemma lookup_absent name ls : name ∉ l_name <$> ls -> lookup_links name ls = 0.
Proof. intros Hno. rewrite <- (app_nil_r ls), lookup_links_app. by rewrite bool_decide_eq_false_2. Qed.

(** The tree with the new name, and with the new directory. *)
Definition tree_after T (isdir : bool) (pino : Z) (dir : Inode) (v : view) (n bs p : Z) : gmap Z (Inode * view) :=
  let T1 := <[pino := (parent_node isdir dir, v)]> T in
  if isdir then <[n := (new_node true bs p, [(p, dot_entries bs n pino)])]> T1 else T1.

(** The type that a directory entry gives to an inode. *)
Definition entry_type (ni : Inode) : Z := if is_dir ni then FT_DIR else FT_REG_FILE.

(** What [create] does when it succeeds: inode [n] was free and is now the one
    of the path, with contents [ni]; the tree has the new name, with its type; the blocks
    [new] are taken; every other inode, every path that led somewhere and every
    block of a file are as before. *)
Record created (nb : Z) fs T (cs : list (list Z)) (name : list Z) (pino : Z) (d : Inode * view) (n : Z) (ni : Inode) (new : list Z) fs' T' : Prop := mkCreated {
  cr_ok : fs_ok nb fs' /\ inode_maps nb fs' /\ same_shape fs fs';
  cr_tree : tree_ok nb fs' T';
  cr_added : exists T1, name_added T pino name n (entry_type ni) T1 /\ T1 ⊆ T';
  cr_path : resolvePathToInode (join (cs ++ [name])) fs' = Ok (n, fs');
  cr_paths : forall cs' m, Forall component cs' -> lookup_path T cs' ROOT_INODE = Some m -> m <> 0 -> resolvePathToInode (join cs') fs' = Ok (m, fs');
  cr_fresh : valid_inode fs n /\ inode_used fs n = false;
  cr_stored : inode_bytes fs' n = encode_inode ni;
  cr_inode : readInode n (junk 128) fs' = Ok (Some ni, fs');
  cr_inodes : forall m, valid_inode fs m -> inode_used fs' m = (m =? n) || inode_used fs m;
  cr_others : forall m, valid_inode fs m -> m <> n -> m <> pino -> inode_bytes fs' m = inode_bytes fs m;
  cr_blocks : forall b, fs_block fs b -> block_used fs' b = block_used fs b || bool_decide (b ∈ new);
  cr_frame : forall c, 0 <= c < nb -> ~ system fs c -> c ∉ fst <$> snd d -> c ∉ new -> block_bytes fs' c = block_bytes fs c;
}.

(** Taking an inode and then naming it. *)
Lemma created_intro nb fs T cs name pino d dir n ni ft new fs1 fs2 v' T' : fs_ok nb fs -> prepared nb fs T fs1 n new ->
  linked nb fs1 T pino d dir n ni name ft fs2 v' -> T !! pino = Some d -> name ∉ l_name <$> dir_links (snd d) ->
  Forall component cs -> component name -> lookup_path T cs ROOT_INODE = Some pino -> valid_inode fs n -> inode_used fs n = false ->
  inode_ok ni -> ft = entry_type ni -> <[pino := (dir, v')]> T ⊆ T' -> tree_ok nb fs2 T' -> created nb fs T cs name pino d n ni new fs2 T'.
Proof.
  intros Hok [P1 P2 P3 P4 P5 P6 P7 P8] [L1 L2 L3 L4 L5 L6 _ (l1 & l2 & El & El') L8 L9 L10] Hd Hno Hcs Hc Hpath Hv Hfree Hni Hft Hsub HT'.
  pose proof (same_instance_shape _ _ L3) as Hs12. pose proof (same_shape_trans _ _ _ P3 Hs12) as Hs02.
  assert (Hv1 : forall m, valid_inode fs m -> valid_inode fs1 m) by (intros m; by apply (shape_valid fs)).
  assert (Hadd : name_added T pino name n ft (<[pino := (dir, v')]> T)) by (exists d, (dir, v'), l1, l2; done).
  assert (Hp0 : pino <> 0).
  { pose proof (da_valid _ _ _ _ (tr_dirs _ _ _ P4 pino d Hd)) as Hvp. unfold valid_inode in Hvp. lia. }
  constructor; try done.
  - exists (<[pino := (dir, v')]> T). by rewrite <- Hft.
  - apply (resolve_ok nb fs2 T'); [done | done | apply Forall_app; by split; [|constructor] |].
    eapply lookup_path_mono; [exact Hsub|]. by eapply lookup_path_new.
  - intros cs' m Hcs' Hl Hm. apply (resolve_ok nb fs2 T'); [done | done | done |]. eapply lookup_path_mono; [exact Hsub|].
    by eapply lookup_path_kept.
  - apply (readInode_at nb); [done | by apply (shape_valid fs) | done | done | apply length_junk].
  - intros m Hm. rewrite L5, P5 by auto. done.
  - intros m Hm Hmn Hmp. rewrite L9, P6 by auto. done.
  - intros b Hb. rewrite L4, P7; [done | done | by apply (shape_fs_block fs fs1)].
  - intros c Hc' Hs Hin Hnew. rewrite L10; [by apply P8 | done | | done]. intros Ht. apply Hs. do 3 right.
    by apply (shape_system fs fs1 c P3).
Qed.

Lemma init_directory_ok nb fs T fs1 n pino : fs_ok nb fs -> inode_maps nb fs -> prepared nb fs T fs1 n [] -> 0 < n < 2 ^ 32 -> 0 < pino < 2 ^ 32 ->
  let bs := block_size fs in
  (init_directory n pino fs1 = Ok (None, fs1) /\ disk_full fs1) \/
  exists p fs2, init_directory n pino fs1 = Ok (Some (new_node true bs p), fs2) /\ 0 < p < nb /\ fs_block fs p /\ ~ system fs p /\
    block_used fs p = false /\ block_bytes fs2 p = block_of (dot_entries bs n pino) /\ prepared nb fs T fs2 n [p].
Proof.
  intros Hok Him Hpr Hn Hp bs. pose proof (geometry_block_size nb fs (fo_geometry _ _ Hok)) as Hbs. fold bs in Hbs.
  pose proof (dot_entries_ok bs n pino Hbs Hn Hp) as Hents. set (buf := block_of (dot_entries bs n pino)).
  assert (Hlen : Z.of_nat (length buf) = bs).
  { unfold buf, dot_entries. rewrite block_of_cons, block_of_one. unfold ent_bytes. cbn [hdr body].
    rewrite !length_app, !length_encode_dirent, length_replicate. cbn [length]. lia. }
  assert (Hbytes : bytes_ok buf).
  { apply Forall_concat, Forall_fmap. eapply Forall_impl; [|exact Hents]. intros e (_ & Hb & _). apply Forall_app. split; [apply pack_bytes_ok | done]. }
  unfold init_directory.
  destruct (prepare_block nb fs T fs1 n buf Hok Him Hpr Hlen Hbytes) as
    [[E Hfull]|(p & fs2 & fs3 & E & Hs & Hg2 & Ew & Hpr' & Hfb & Hns & Hfree & Eself & Hprep)].
  - left. step E. done.
  - right. exists p, fs3. split; [|done]. step E. rewrite (proj2 (Z.eqb_neq p 0)) by lia. step_get. step (kmalloc_ok nb fs2 (block_size fs2) Hg2).
    rewrite (ss_block_size _ _ Hs). fold bs. step (dots_block_ok bs n pino Hbs). fold buf. step Ew. done.
Qed.

(** The new directory joins the tree. *)
Lemma new_directory nb fs fs1 fs2 T pino d dir n name v' p : fs_ok nb fs -> tree_ok nb fs T -> T !! n = None -> T !! pino = Some d -> valid_inode fs n -> 0 < n < 2 ^ 32 -> 0 < pino < 2 ^ 32 ->
  let bs := block_size fs in
  0 < p < nb -> fs_block fs p -> ~ system fs p -> block_used fs p = false -> block_bytes fs1 p = block_of (dot_entries bs n pino) ->
  prepared nb fs T fs1 n [p] -> linked nb fs1 T pino d dir n (new_node true bs p) name FT_DIR fs2 v' ->
  tree_ok nb fs2 (<[n := (new_node true bs p, [(p, dot_entries bs n pino)])]> (<[pino := (dir, v')]> T)).
Proof.
  intros Hok HT Hn Hd Hv Hn32 Hp32 bs Hp Hfb Hns Hfree Ebuf [P1 P2 P3 P4 P5 P6 P7 P8] [L1 L2 L3 L4 L5 L6 L0 L7 L8 L9 L10].
  pose proof (geometry_block_size nb fs (fo_geometry _ _ Hok)) as Hbs. fold bs in Hbs. pose proof (geo_blocks nb fs (fo_geometry _ _ Hok)) as Hnb.
  pose proof (same_instance_shape _ _ L3) as Hs12. pose proof (same_shape_trans _ _ _ P3 Hs12) as Hs02.
  assert (Hout : forall a e, T !! a = Some e -> p ∉ fst <$> snd e).
  { intros a e He Hin. destruct (tree_range nb fs T a e p Hok HT He Hin) as (_ & _ & _ & Hu). congruence. }
  assert (Hv1 : valid_inode fs1 n) by by apply (shape_valid fs).
  apply tree_extend; [done | rewrite lookup_insert_ne; [done | intros ->; congruence] | |].
  - constructor; cbn [fst snd]; [by apply (shape_valid fs) | | done | by apply new_node_ok; lia | | ].
    + rewrite L5, P5 by done. by rewrite Z.eqb_refl.
    + constructor; [done | rewrite (ss_block_size _ _ Hs02); fold bs; cbn [length]; cbv [new_node inode_with size]; lia | simpl; lia | | apply list.NoDup_singleton].
      intros [|k] q es; [|done]. intros [= <- <-]. split; [done|]. split; [done|]. split; [|by apply dot_entries_ok].
      rewrite L10; [done | lia | | by apply (Hout pino)]. intros Ht. apply Hns. do 3 right. by apply (shape_system fs fs1 p P3).
    + intros q Hq. apply list_elem_of_singleton in Hq as ->. cbn [fst]. split; [by apply (shape_fs_block fs)|].
      split; [by apply (shape_not_system fs)|]. rewrite L4, P7; [|done | by apply (shape_fs_block fs fs1)].
      rewrite bool_decide_eq_true_2 by (by left). apply orb_true_r.
  - intros a e q. rewrite lookup_insert. cbn [snd fst fmap list_fmap]. intros He Hq. apply list_elem_of_singleton in Hq as ->.
    case_decide; [|by apply (Hout a)]. injection He as <-. cbn [snd].
    rewrite L0. by apply (Hout pino).
Qed.

(** [create] once the parent directory is known not to have the name. *)
Definition create_at (isdir : bool) (pino : Z) (dir : Inode) (name : list Z) : FS D bool :=
  n ← allocInode 0;
  if n =? 0 then mret false else
  ni ← (if isdir then init_directory n pino else mret (Some (fresh_inode false)));
  match ni with
  | None => mret false
  | Some ni => link_new pino n (parent_node isdir dir) ni name (if isdir then FT_DIR else FT_REG_FILE)
  end.

Lemma create_at_ok nb fs T cs name isdir pino d : fs_ok nb fs -> inode_maps nb fs -> tree_ok nb fs T ->
  Forall component cs -> component name -> bytes_ok name ->
  lookup_path T cs ROOT_INODE = Some pino -> T !! pino = Some d -> room name (snd d) -> name ∉ l_name <$> dir_links (snd d) ->
  let path := join (cs ++ [name]) in let bs := block_size fs in
  (create_at isdir pino (fst d) name fs = Ok (false, fs) /\ forall g, 0 <= g < group_count fs -> inodes_full fs g) \/
  (exists fs' n, create_at isdir pino (fst d) name fs = Ok (false, fs') /\ isdir = true /\ disk_full fs' /\ prepared nb fs T fs' n []) \/
  exists fs' n p v', create_at isdir pino (fst d) name fs = Ok (true, fs') /\ (isdir = true -> fs_block fs p /\ block_used fs p = false) /\
    created nb fs T cs name pino d n (new_node isdir bs p) (if isdir then [p] else []) fs' (tree_after T isdir pino (fst d) v' n bs p).
Proof.
  intros Hok Him HT Hcs Hc Hcb Hpath Hd Hroom Hno path bs. pose proof (fo_geometry _ _ Hok) as Hg.
  pose proof (geometry_block_size nb fs Hg) as Hbs. pose proof (geo_blocks nb fs Hg) as Hnb. pose proof (il_count_small nb fs (fo_inodes _ _ Hok)) as Hsmall.
  pose proof (tr_dirs _ _ _ HT pino d Hd) as Hat. pose proof (da_valid _ _ _ _ Hat) as Hvp. unfold valid_inode in Hvp.
  pose proof (parent_node_ok isdir (fst d) (da_inode _ _ _ _ Hat)) as Hpi. pose proof (d_is_dir _ _ _ _ (da_dir _ _ _ _ Hat)) as Hisd.
  unfold create_at. destruct (allocInode_ok nb fs Hok Him) as [[E Hfull]|(n & fs1 & E & Hv & Hfree & Htaken)]; [left; by step E|].
  pose proof (prepare_file nb fs T fs1 n Hok Him HT Htaken) as Hprep. step E. pose proof Hv as Hv0. unfold valid_inode in Hv0.
  rewrite (proj2 (Z.eqb_neq n 0)) by lia.
  assert (HTn : T !! n = None).
  { destruct (T !! n) as [e|] eqn:He; [|done]. pose proof (da_used _ _ _ _ (tr_dirs _ _ _ HT n e He)). congruence. }
  assert (Hlink : forall ft, 0 <= ft < 2 ^ 8 -> new_link name n ft).
  { intros ft Hft. destruct Hc as (Hne & _ & Hl). constructor; [destruct name; [done | simpl in *; lia] | done | lia | done]. }
  destruct isdir; right.
  - destruct (init_directory_ok nb fs T fs1 n pino Hok Him Hprep) as
      [[E1 Hdf]|(p & fs2 & E1 & Hp & Hfb & Hns & Hu & Ebuf & Hprep2)]; [lia | lia | left; exists fs1, n; by step E1 | right].
    destruct (link_ok nb fs2 T pino d (parent_node true (fst d)) n (new_node true bs p) name FT_DIR) as (fs3 & v' & E2 & Hlk);
      try done; try apply Hprep2; [by apply (shape_valid fs), Hv; apply Hprep2 | by apply new_node_ok; lia | by apply Hlink |].
    exists fs3, n, p, v'. split; [step E1; done|]. split; [done|]. cbn [tree_after].
    apply (created_intro nb fs T cs name pino d (parent_node true (fst d)) n _ FT_DIR [p] fs2 fs3 v'); try done; [by apply new_node_ok; lia | |].
    + apply insert_subseteq. rewrite lookup_insert_ne; [done | congruence].
    + apply (new_directory nb fs fs2 fs3 T pino d _ n name); try done; lia.
  - right. destruct (link_ok nb fs1 T pino d (fst d) n (fresh_inode false) name FT_REG_FILE) as (fs3 & v' & E2 & Hlk);
      try done; try apply Hprep; [by apply (shape_valid fs), Hv; apply Hprep | by apply (new_node_ok false bs 0); lia | by apply Hlink |].
    exists fs3, n, 0, v'. split; [done|]. split; [done|]. cbn [tree_after].
    apply (created_intro nb fs T cs name pino d (fst d) n _ FT_REG_FILE [] fs1 fs3 v'); try done; [by apply (new_node_ok false bs 0); lia | apply Hlk].
Qed.

Lemma create_ok nb fs T cs name isdir pino d : fs_ok nb fs -> inode_maps nb fs -> tree_ok nb fs T ->
  Forall component cs -> component name -> bytes_ok name -> (length (join cs) < 128)%nat ->
  lookup_path T cs ROOT_INODE = Some pino -> T !! pino = Some d -> room name (snd d) ->
  let path := join (cs ++ [name]) in let bs := block_size fs in
  if bool_decide (name ∈ l_name <$> dir_links (snd d)) then create path isdir fs = Ok (false, fs) else
  (create path isdir fs = Ok (false, fs) /\ forall g, 0 <= g < group_count fs -> inodes_full fs g) \/
  (exists fs' n, create path isdir fs = Ok (false, fs') /\ isdir = true /\ disk_full fs' /\ prepared nb fs T fs' n []) \/
  exists fs' n p v', create path isdir fs = Ok (true, fs') /\ (isdir = true -> fs_block fs p /\ block_used fs p = false) /\
    created nb fs T cs name pino d n (new_node isdir bs p) (if isdir then [p] else []) fs' (tree_after T isdir pino (fst d) v' n bs p).
Proof.
  intros Hok Him HT Hcs Hc Hcb Hlen Hpath Hd Hroom path bs. pose proof (fo_geometry _ _ Hok) as Hg.
  pose proof (geometry_block_size nb fs Hg) as Hbs. pose proof (geo_blocks nb fs Hg) as Hnb.
  destruct (tr_dirs _ _ _ HT pino d Hd) as [Hvp Hup Hbp Hip Hdp _]. pose proof (il_count_small nb fs (fo_inodes _ _ Hok)) as Hsmall.
  assert (Hp32 : 0 < pino < 2 ^ 32) by (unfold valid_inode in Hvp; lia).
  assert (Hrun : create path isdir fs = (if negb (lookup_links name (dir_links (snd d)) =? 0) then Ok (false, fs) else
    create_at isdir pino (fst d) name fs)).
  { unfold create, path. rewrite (split_path_ok cs name Hc Hlen). rewrite (proj2 (Nat.eqb_neq _ _)) by (destruct Hc as [? _]; by destruct name).
    step (resolve_ok nb fs T cs pino Hok HT Hcs Hpath). rewrite (proj2 (Z.eqb_neq pino 0)) by lia.
    step (readInode_at nb fs pino (fst d) stack_inode Hok Hvp Hbp Hip (length_junk _)). rewrite (d_is_dir _ _ _ _ Hdp). cbn [negb].
    step (lookupInDir_ok nb fs (fst d) (snd d) name Hg Hdp). by case_match. }
  rewrite Hrun. case_bool_decide as Hin.
  { by rewrite (proj2 (Z.eqb_neq _ _)) by (apply lookup_present; [apply links_live | done]). }
  rewrite lookup_absent by done. cbn [Z.eqb negb]. by apply create_at_ok.
Qed.

(** A new file is empty. *)
Lemma new_file_ok nb fs : fs_ok nb fs -> file_ok nb fs (fresh_inode false) [].
Proof.
  intros Hok. pose proof (geometry_block_size nb fs (fo_geometry _ _ Hok)). constructor.
  - apply (new_node_ok false (block_size fs) 0); lia.
  - intros k Hk. do 12 (destruct k as [|k]; [done|]). lia.
  - cbn [length]. assert (0 <= block_size fs / 4) by (apply Z.div_pos; lia). lia.
  - unfold indirect_ok. cbn. lia.
  - constructor.
  - intros p Hp. by apply not_elem_of_nil in Hp.
Qed.

(** ** Claims *)

(** C6. [create] for a path of names whose parent is a directory of the tree
    with room for a name.  When the name is there already it returns false and
    changes nothing; so it does when no inode is free.  A directory for which
    there is no block is refused too, but its inode stays taken.  Otherwise
    the call returns true: an inode that was free is stored with the mode of a
    new file or directory, and the path leads to it; a directory also has a block
    of its own with [.] and [..] in it; every path that led to an inode before
    still leads there, and no other inode and no block of another file or
    directory has changed. *)
Theorem ext2_create_correct nb fs T cs name isdir pino d : fs_ok nb fs -> inode_maps nb fs -> tree_ok nb fs T ->
  Forall component cs -> component name -> bytes_ok name -> (length (join cs) < 128)%nat ->
  lookup_path T cs ROOT_INODE = Some pino -> T !! pino = Some d -> room name (snd d) ->
  let path := join (cs ++ [name]) in let bs := block_size fs in
  if bool_decide (name ∈ l_name <$> dir_links (snd d)) then create path isdir fs = Ok (false, fs) else
  (create path isdir fs = Ok (false, fs) /\ forall g, 0 <= g < group_count fs -> inodes_full fs g) \/
  (exists fs' n, create path isdir fs = Ok (false, fs') /\ isdir = true /\ disk_full fs' /\ prepared nb fs T fs' n []) \/
  exists fs' n p v', create path isdir fs = Ok (true, fs') /\ (isdir = true -> fs_block fs p /\ block_used fs p = false) /\
    created nb fs T cs name pino d n (new_node isdir bs p) (if isdir then [p] else []) fs' (tree_after T isdir pino (fst d) v' n bs p).
Proof. apply create_ok. Qed.
End create.
