(* ===== verification/Ext2Unlink.v ===== *)
(** Removing files with the ext2 driver: [unlinkFile] takes one name out of one
    directory of the tree and gives the inode and the blocks of the file back. *)

From Stdlib Require Import ZifyBool.
From S2P Require Import Prelude Vfs VfsProofs Bytes Ext2Layout Ext2 Ext2Proofs Ext2Files Ext2Alloc Ext2Dir Ext2DirOps Ext2Read Ext2Grow Ext2Write Ext2Tree Ext2Create.

(** The integers of a block of pointers. *)
Lemma unpack_lookup n : forall bs j, (j < n)%nat -> (4 * n <= length bs)%nat ->
  unpack (replicate n 4%nat) bs !! j = Some (le_value (take 4 (drop (4 * j) bs))).
Proof.
  induction n as [|n IH]; intros bs j Hj Hl; [lia|]. cbn [replicate unpack]. destruct j as [|j]; [done|].
  cbn [lookup list_lookup]. rewrite IH by (rewrite ?length_drop; lia). rewrite drop_drop. do 4 f_equal. lia.
Qed.

Lemma length_unpack ws bs : length (unpack ws bs) = length ws.
Proof. revert bs. induction ws as [|w ws IH]; intros bs; [done|]. cbn [unpack length]. by rewrite IH. Qed.

Lemma unpack_get n bs j p : (j < n)%nat -> (4 * n <= length bs)%nat -> get_le 4 bs (4 * Z.of_nat j) = Ok p ->
  unpack (replicate n 4%nat) bs !! j = Some p.
Proof.
  intros Hj Hl Hg. rewrite unpack_lookup by done. unfold get_le in Hg. rewrite slice_ok in Hg by lia.
  cbn [mbind outcome_bind mret outcome_ret] in Hg. injection Hg as <-. change (Z.to_nat 4) with 4%nat.
  by replace (Z.to_nat (4 * Z.of_nat j)) with (4 * j)%nat by lia.
Qed.

Section unlink.
Context {D : Type} `{BlockDevLaws D} `{UninitLaws}.
Implicit Types fs : FsInstance D.
Implicit Types T : gmap Z (Inode * view).

(** ** Giving blocks back *)

(** The blocks [l] (but 0) are free, and nothing else changes but the counts. *)
Record blocks_freed (nb : Z) fs fs' (l : list Z) : Prop := mkFreed {
  bf_ok : fs_ok nb fs';
  bf_shape : same_shape fs fs';
  bf_used : forall b, fs_block fs b -> block_used fs' b = block_used fs b && negb (bool_decide (b <> 0 /\ b ∈ l));
  bf_frame : forall c, 0 <= c < nb -> ~ reserved fs c -> ~ is_bitmap fs c -> block_bytes fs' c = block_bytes fs c;
}.

Lemma freed_nothing nb fs l : fs_ok nb fs -> (forall b, b ∈ l -> b = 0) -> blocks_freed nb fs fs l.
Proof.
  intros Hok Hl. constructor; [done | apply same_shape_refl | | done].
  intros b _. rewrite bool_decide_eq_false_2, andb_true_r; [done|]. intros [Hb Hin]. by apply Hb, Hl.
Qed.

Lemma freed_trans nb fs1 fs2 fs3 l1 l2 : blocks_freed nb fs1 fs2 l1 -> blocks_freed nb fs2 fs3 l2 -> blocks_freed nb fs1 fs3 (l1 ++ l2).
Proof.
  intros [A1 A2 A3 A4] [B1 B2 B3 B4]. constructor; [done | by apply (same_shape_trans _ fs2) | |].
  - intros b Hb. rewrite B3 by by apply (shape_fs_block fs1 fs2). rewrite A3 by done. rewrite <- andb_assoc, <- negb_orb, <- bool_decide_or.
    do 2 f_equal. apply bool_decide_ext. rewrite elem_of_app. tauto.
  - intros c Hc Hr Hb. destruct (shape_system fs1 fs2 c A2) as (H1' & H2' & _). rewrite B4, A4; try done; [by rewrite H1' | by intros ?%H2'].
Qed.

Lemma freed_ext nb fs fs' l l' : (forall b, b <> 0 -> b ∈ l <-> b ∈ l') -> blocks_freed nb fs fs' l -> blocks_freed nb fs fs' l'.
Proof.
  intros Hl [A1 A2 A3 A4]. constructor; try done. intros b Hb. rewrite A3 by done. do 2 f_equal. apply bool_decide_ext.
  split; intros [Hb0 Hin]; (split; [done | by apply Hl]).
Qed.

Lemma fs_free_ok nb fs p : fs_ok nb fs -> p <> 0 -> fs_block fs p -> ~ system fs p ->
  exists fs', freeBlock p fs = Ok (true, fs') /\ blocks_freed nb fs fs' [p].
Proof.
  intros Hok Hp Hb Hs. destruct (freeBlock_ok nb fs p (fo_geometry _ _ Hok) (fo_meta _ _ Hok) (fo_blocks _ _ Hok) Hb Hp) as (fs' & E & Hch).
  pose proof Hch as [Hg' Hm' _ _ (gd & Hgd & Hsi) Hused Hframe]. pose proof (counted_shape fs fs' _ _ _ gd Hgd Hsi) as Hsh.
  assert (Hu : forall b, fs_block fs b -> block_used fs' b = block_used fs b && negb (bool_decide (b <> 0 /\ b ∈ [p]))).
  { intros b Hfb. rewrite Hused by done. destruct (Z.eqb_spec b p) as [->|Hne].
    - rewrite bool_decide_eq_true_2 by (split; [done | by left]). by rewrite andb_false_r.
    - rewrite bool_decide_eq_false_2, andb_true_r; [done|]. intros [_ Hin%list_elem_of_singleton]. done. }
  exists fs'. split; [done|]. constructor; [| done | done |].
  - apply (fs_ok_system nb fs); try done. intros b Hfb Hsys. rewrite Hu, (fo_used nb fs Hok b Hfb Hsys) by done.
    rewrite bool_decide_eq_false_2; [done|]. intros [_ ->%list_elem_of_singleton]. done.
  - intros c Hc Hr Hnb. apply Hframe; [done | done |]. intros ->. by apply Hnb, (bitmap_of_is nb).
Qed.

Lemma free_blocks_ok nb ptrs : forall fs, fs_ok nb fs -> (forall p, p ∈ ptrs -> p <> 0 -> fs_block fs p /\ ~ system fs p) ->
  exists fs', free_blocks ptrs fs = Ok (tt, fs') /\ blocks_freed nb fs fs' ptrs.
Proof.
  induction ptrs as [|p ptrs IH]; intros fs Hok Hp.
  { exists fs. split; [done|]. apply freed_nothing; [done|]. by intros b ?%not_elem_of_nil. }
  cbn [free_blocks]. destruct (Z.eqb_spec p 0) as [->|Hp0].
  - destruct (IH fs Hok) as (fs' & E & Hf); [intros q Hq; by apply Hp; right|]. exists fs'. split; [done|].
    eapply freed_ext; [|exact Hf]. intros b Hb. rewrite elem_of_cons. naive_solver.
  - destruct (Hp p ltac:(by left) Hp0) as [Hb Hs]. destruct (fs_free_ok nb fs p Hok Hp0 Hb Hs) as (fs1 & E1 & Hf1).
    destruct (IH fs1 (bf_ok _ _ _ _ Hf1)) as (fs' & E & Hf).
    { intros q Hq Hq0. destruct (Hp q ltac:(by right) Hq0) as [Hqb Hqs]. pose proof (bf_shape _ _ _ _ Hf1) as Hsh.
      split; [by apply (shape_fs_block fs fs1) | by apply (shape_not_system fs fs1)]. }
    exists fs'. split; [by step E1|]. by apply (freed_trans nb fs fs1 fs' [p] ptrs).
Qed.

(** ** All blocks of a file *)

(** The inode with no blocks left. *)
Definition cleared (i : Inode) : Inode := inode_with i 0 (links_count i) 0 (replicate 13 0 ++ drop 13 (block i)).

Lemma direct_pointers nb fs i ps b : file_ok nb fs i ps -> b <> 0 -> b ∈ take 12 (block i) <-> b ∈ take 12 ps.
Proof.
  intros Hf Hb. rewrite !list_elem_of_lookup. split; intros (k & Hk); exists k; apply lookup_take_Some in Hk as [Hk Hlt].
  - rewrite (fi_direct _ _ _ _ Hf k Hlt) in Hk. rewrite lookup_take_lt by done. destruct (ps !! k); cbn in Hk; congruence.
  - rewrite lookup_take_lt by done. by rewrite (fi_direct _ _ _ _ Hf k Hlt), Hk.
Qed.

Lemma indirect_pointers nb fs i ps b n : fs_ok nb fs -> file_ok nb fs i ps -> ind i <> 0 -> b <> 0 -> Z.of_nat n = block_size fs / 4 ->
  b ∈ unpack (replicate n 4%nat) (block_bytes fs (ind i)) <-> b ∈ drop 12 ps.
Proof.
  intros Hok Hf Hi Hb Hn. pose proof (fi_indirect _ _ _ _ Hf) as Hind. unfold indirect_ok in Hind.
  rewrite (proj2 (Z.eqb_neq _ _) Hi) in Hind. pose proof (fi_limit _ _ _ _ Hf) as Hlim.
  destruct (file_block_range nb fs i ps (ind i) Hok Hf) as (Hr & _); [apply in_owned; by right|].
  destruct (block_bytes_ok nb fs (ind i) (fo_geometry _ _ Hok) ltac:(lia)) as (_ & Hlen & _).
  assert (Hl4 : (4 * n <= length (block_bytes fs (ind i)))%nat).
  { pose proof (Z.mul_div_le (block_size fs) 4 ltac:(lia)). lia. }
  assert (Hget : forall j, (j < n)%nat -> unpack (replicate n 4%nat) (block_bytes fs (ind i)) !! j = Some (default 0 (ps !! (12 + j)%nat))).
  { intros j Hj. apply unpack_get; [done | done |]. apply Hind. lia. }
  rewrite !list_elem_of_lookup. split; intros (k & Hk).
  - pose proof (lookup_lt_Some _ _ _ Hk) as Hlt. rewrite length_unpack, length_replicate in Hlt. rewrite Hget in Hk by done.
    exists k. rewrite lookup_drop. destruct (ps !! (12 + k)%nat); cbn in Hk; congruence.
  - rewrite lookup_drop in Hk. pose proof (lookup_lt_Some _ _ _ Hk) as Hlt. exists k. rewrite Hget by lia. by rewrite Hk.
Qed.

Lemma freeAllInodeBlocks_ok nb fs i ps : fs_ok nb fs -> file_ok nb fs i ps ->
  exists fs', freeAllInodeBlocks i fs = Ok (cleared i, fs') /\ blocks_freed nb fs fs' (owned i ps).
Proof.
  intros Hok Hf. assert (Hown : forall p, p ∈ owned i ps -> p <> 0 /\ fs_block fs p /\ ~ system fs p).
  { intros p Hp. destruct (fi_used _ _ _ _ Hf p Hp) as (? & ? & ? & _). split_and!; [lia | done | done]. }
  destruct (free_blocks_ok nb (take 12 (block i)) fs Hok) as (fs1 & E1 & Hf1).
  { intros p Hp Hp0. apply Hown, in_owned. left. apply (direct_pointers nb fs i ps p Hf Hp0) in Hp. rewrite <- (take_drop 12 ps), elem_of_app. by left. }
  pose proof (bf_shape _ _ _ _ Hf1) as Hs1. pose proof (bf_ok _ _ _ _ Hf1) as Hok1.
  unfold freeAllInodeBlocks. step E1. step (load_ind i (fi_inode _ _ _ _ Hf)). fold (cleared i).
  destruct (Z.eqb_spec (ind i) 0) as [Hi|Hi].
  { exists fs1. split; [done|]. eapply freed_ext; [|exact Hf1]. intros b Hb. rewrite (direct_pointers nb fs i ps b Hf Hb), in_owned.
    pose proof (fi_indirect _ _ _ _ Hf) as Hind. unfold indirect_ok in Hind. rewrite (proj2 (Z.eqb_eq _ _) Hi) in Hind.
    rewrite take_ge by done. naive_solver. }
  assert (Hio : ind i ∈ owned i ps) by (apply in_owned; by right).
  destruct (file_block_range nb fs i ps (ind i) Hok Hf Hio) as (Hr & Hnr & Hnb & _).
  step_get. step (kmalloc_ok nb fs1 (block_size fs1) (fo_geometry _ _ Hok1)).
  step (readBlock_fresh nb fs1 (ind i) (fo_geometry _ _ Hok1) ltac:(lia)).
  rewrite (bf_frame _ _ _ _ Hf1) by (done || lia). unfold ptrs_per_block. rewrite (ss_block_size _ _ Hs1).
  pose proof (geometry_block_size nb fs (fo_geometry _ _ Hok)) as Hbs. set (n := Z.to_nat (block_size fs / 4)).
  assert (Hn : Z.of_nat n = block_size fs / 4) by (unfold n; rewrite Z2Nat.id; [done | apply Z.div_pos; lia]).
  set (l2 := unpack (replicate n 4%nat) (block_bytes fs (ind i))).
  assert (Hsys1 : forall p, p ∈ owned i ps -> fs_block fs1 p /\ ~ system fs1 p).
  { intros p Hp. destruct (Hown p Hp) as (_ & ? & ?). split; [by apply (shape_fs_block fs fs1) | by apply (shape_not_system fs fs1)]. }
  destruct (free_blocks_ok nb l2 fs1 Hok1) as (fs2 & E2 & Hf2).
  { intros p Hp Hp0. apply Hsys1, in_owned. left. apply (indirect_pointers nb fs i ps p n) in Hp; [|done..]. rewrite <- (take_drop 12 ps), elem_of_app. by right. }
  pose proof (bf_shape _ _ _ _ Hf2) as Hs2. step E2. destruct (Hsys1 _ Hio) as [Hfb Hns].
  destruct (fs_free_ok nb fs2 (ind i) (bf_ok _ _ _ _ Hf2) Hi) as (fs3 & E3 & Hf3);
    [by apply (shape_fs_block fs1 fs2) | by apply (shape_not_system fs1 fs2) |].
  step E3. exists fs3. split; [done|]. eapply freed_ext; [|eapply freed_trans; [eapply freed_trans; [exact Hf1 | exact Hf2] | exact Hf3]].
  intros b Hb. rewrite !elem_of_app, (direct_pointers nb fs i ps b Hf Hb), list_elem_of_singleton, in_owned.
  unfold l2. rewrite (indirect_pointers nb fs i ps b n) by done. rewrite <- (take_drop 12 ps) at 3. rewrite elem_of_app. naive_solver.
Qed.

(** ** Paths after a name was removed *)

Definition name_removed T (pino : Z) (l : link) T' : Prop := exists d d' l1 l2, T !! pino = Some d /\ T' = <[pino := d']> T /\
  dir_links (snd d) = l1 ++ l :: l2 /\ dir_links (snd d') = l1 ++ l2 /\ l_name l ∉ l_name <$> (l1 ++ l2).

Lemma path_not_removed T pino l T' : name_removed T pino l T' -> T !! l_inode l = None -> forall cs cur m, lookup_path T cs cur = Some m ->
  m <> 0 -> m <> l_inode l -> lookup_path T' cs cur = Some m.
Proof.
  intros (d & d' & l1 & l2 & Hd & -> & El & El' & Hno) Hf. induction cs as [|c cs IH]; intros cur m Hl Hm Hml; [done|]. cbn [lookup_path] in *.
  destruct (decide (cur = pino)) as [->|Hne].
  - rewrite Hd in Hl. rewrite lookup_insert_eq, El', (lookup_remove_link l c l1 l2 Hno). rewrite El in Hl. cbv zeta in *.
    case_bool_decide as Hc; [|destruct (_ =? 0); [done | by apply IH]]. exfalso. subst c.
    rewrite lookup_links_app, bool_decide_eq_false_2 in Hl by (intros Hin; apply Hno; rewrite fmap_app, elem_of_app; by left).
    cbn [lookup_links] in Hl. rewrite bool_decide_eq_true_2 in Hl by done. destruct (l_inode l =? 0); [congruence|].
    destruct cs; cbn [lookup_path] in Hl; [congruence | by rewrite Hf in Hl].
  - rewrite lookup_insert_ne by done. destruct (T !! cur) as [e|]; [|done]. cbv zeta in *. destruct (_ =? 0); [done | by apply IH].
Qed.

Lemma path_removed T pino l T' cs : name_removed T pino l T' -> T !! l_inode l = None -> pino <> 0 ->
  lookup_path T cs ROOT_INODE = Some pino -> lookup_path T' (cs ++ [l_name l]) ROOT_INODE = Some 0.
Proof.
  intros Hrem Hf Hp Hl. assert (Hne : pino <> l_inode l) by (destruct Hrem as (d & _ & _ & _ & Hd & _); intros ->; congruence).
  pose proof (path_not_removed _ _ _ _ Hrem Hf _ _ _ Hl Hp Hne) as Hl'. destruct Hrem as (d & d' & l1 & l2 & Hd & -> & El & El' & Hno).
  rewrite (lookup_path_snoc _ cs ROOT_INODE pino (l_name l) d' Hl' Hp); [|apply lookup_insert_eq].
  by rewrite El', (lookup_remove_link l), bool_decide_eq_true_2 by done.
Qed.

(** ** The whole call *)

Lemma cleared_ok i : inode_ok i -> inode_ok (set_dtime (set_links (cleared i) 0) 0).
Proof.
  intros (Hh & Hb & Ht & Ho & Hob). split_and!; try done.
  - unfold set_dtime, set_links, cleared, inode_with, fields_ok, inode_widths, inode_head in *. cbn in *.
    repeat match goal with H : Forall2 _ (_ :: _) (_ :: _) |- _ => apply Forall2_cons_iff in H as [? H] end.
    repeat (constructor; [first [done | by split]|]). constructor.
  - unfold fields_ok in *. change (replicate 15 4%nat) with (replicate 13 4%nat ++ drop 13 (replicate 15 4%nat)).
    apply Forall2_app; [|by apply Forall2_drop]. cbn. repeat (constructor; [by split|]). constructor.
Qed.

(** A file elsewhere. *)
Lemma file_frame nb fs fs' j qs : fs_ok nb fs -> file_ok nb fs j qs -> same_shape fs fs' ->
  (forall q, q ∈ owned j qs -> block_bytes fs' q = block_bytes fs q /\ block_used fs' q = true) ->
  file_ok nb fs' j qs /\ file_content fs' j qs = file_content fs j qs.
Proof.
  intros Hok [F1 F2 F3 F4 F5 F6] Hs Hq. pose proof (ss_block_size _ _ Hs) as Ebs. split.
  - constructor; try done; [by rewrite Ebs | |].
    + unfold indirect_ok in *. rewrite Ebs. destruct (Z.eqb_spec (ind j) 0) as [E|E]; [done|].
      destruct (Hq (ind j)) as [-> _]; [apply in_owned; by right | done].
    + intros p Hp. destruct (F6 p Hp) as (? & ? & ? & _). split; [done|]. split; [by apply (shape_fs_block _ _ _ Hs)|].
      split; [by apply (shape_not_system fs) | by apply Hq].
  - unfold file_content. f_equal. f_equal. apply list_fmap_ext. intros k q Hk. apply Hq, in_owned. left. by eapply list_elem_of_lookup_2.
Qed.

(** What [unlinkFile] does when it succeeds: the path leads nowhere, the tree has
    one name less, inode [ino] and the blocks of its file are free, and every
    other inode, path and file is as before. *)
Record unlinked (nb : Z) fs T (path : list Z) (pino : Z) (d : Inode * view) (ino : Z) (i : Inode) (ps : list Z) fs' T' : Prop := mkUnlinked {
  ul_ok : fs_ok nb fs' /\ inode_maps nb fs' /\ same_shape fs fs';
  ul_tree : tree_ok nb fs' T';
  ul_path : resolvePathToInode path fs' = Ok (0, fs');
  ul_paths : forall cs m, Forall component cs -> lookup_path T cs ROOT_INODE = Some m -> m <> 0 -> m <> ino ->
    resolvePathToInode (join cs) fs' = Ok (m, fs');
  ul_inodes : forall m, valid_inode fs m -> inode_used fs' m = if m =? ino then false else inode_used fs m;
  ul_others : forall m, valid_inode fs m -> m <> ino -> m <> pino -> inode_bytes fs' m = inode_bytes fs m;
  ul_blocks : forall b, fs_block fs b -> block_used fs' b = block_used fs b && negb (bool_decide (b ∈ owned i ps));
  ul_files : forall j qs, file_ok nb fs j qs -> (forall q, q ∈ owned j qs -> (q ∉ owned i ps) /\ (q ∉ fst <$> snd d)) ->
    file_ok nb fs' j qs /\ file_content fs' j qs = file_content fs j qs;
}.

(** The name leaves the directory, whose inode is stored as [dir]. *)
Record name_dropped (nb : Z) fs T (pino : Z) (d : Inode * view) (dir : Inode) (l : link) fs' (v' : view) : Prop := mkDropped {
  nd_ok : fs_ok nb fs';
  nd_instance : same_instance fs fs';
  nd_blocks : forall b, fs_block fs b -> block_used fs' b = block_used fs b;
  nd_inodes : forall m, valid_inode fs m -> inode_used fs' m = inode_used fs m;
  nd_tree : tree_ok nb fs' (<[pino := (dir, v')]> T);
  nd_removed : name_removed T pino l (<[pino := (dir, v')]> T);
  nd_same_blocks : (fst <$> v') = (fst <$> snd d);
  nd_others : forall m, valid_inode fs m -> m <> pino -> inode_bytes fs' m = inode_bytes fs m;
  nd_frame : forall c, 0 <= c < nb -> ~ in_table fs c -> c ∉ fst <$> snd d -> block_bytes fs' c = block_bytes fs c;
}.

Lemma drop_name_ok nb fs T pino d dir name : fs_ok nb fs -> inode_maps nb fs -> tree_ok nb fs T -> T !! pino = Some d ->
  name ∈ l_name <$> dir_links (snd d) -> NoDup (l_name <$> dir_links (snd d)) ->
  inode_ok dir -> is_dir dir = true -> size dir = size (fst d) -> block dir = block (fst d) ->
  exists fs1 fs2 l v', removeDirEntry (fst d) name fs = Ok (true, fs1) /\ writeInode pino dir fs1 = Ok (true, fs2) /\ l_name l = name /\
    l ∈ dir_links (snd d) /\ name_dropped nb fs T pino d dir l fs2 v'.
Proof.
  intros Hok Him HT Hd Hin Hnd Hdir Hisd Hsz Hbl. pose proof (tr_dirs _ _ _ HT pino d Hd) as Hat. pose proof (da_valid _ _ _ _ Hat) as Hvp.
  assert (Hblk : forall p, p ∈ fst <$> snd d -> 0 <= p < nb /\ fs_block fs p /\ ~ system fs p /\ block_used fs p = true)
    by (intros p; by apply (tree_range nb fs T pino)).
  destruct (removeDirEntry_ok nb fs (fst d) (snd d) name (fo_geometry _ _ Hok) (da_dir _ _ _ _ Hat)) as
    [[_ Hno]|(v' & fs1 & l1 & l & l2 & E1 & Hg1 & Hs1 & Hd1 & Hfst & El & El' & Hl & _ & Hfr1)]; [done|].
  assert (Hsys1 : forall b, 0 <= b < nb -> system fs b -> block_bytes fs1 b = block_bytes fs b).
  { intros b Hb Hsb. apply Hfr1; [done|]. intros Hi. by destruct (Hblk b Hi) as (_ & _ & Hns & _). }
  destruct (write_frame nb fs fs1 Hok Hg1 Hs1) as [Hok1 Hu1].
  { intros b Hb. apply Hsys1; [by apply (bitmap_range nb fs) | by right; left]. }
  assert (Hvs : forall m, (valid_inode fs1 m <-> valid_inode fs m) /\ (fs_block fs1 m <-> fs_block fs m) /\ (in_table fs1 m <-> in_table fs m))
    by (intros m; unfold same_instance in Hs1; by rewrite Hs1).
  destruct (inode_stored nb fs1 pino dir Hok1) as (fs2 & E2 & Hok2 & Hs2 & Hu2 & Eb2 & Hot2 & Hfr2); [by apply Hvs | done |].
  assert (Hs02 : same_instance fs fs2) by (unfold same_instance in *; rewrite Hs2, Hs1; done).
  pose proof (same_instance_shape _ _ Hs02) as Hsh.
  assert (Hb02 : forall b, fs_block fs b -> block_used fs2 b = block_used fs b) by (intros b Hb; rewrite Hu2, Hu1 by (done || by apply Hvs); done).
  assert (Hfr : forall c, 0 <= c < nb -> ~ in_table fs c -> c ∉ fst <$> snd d -> block_bytes fs2 c = block_bytes fs c).
  { intros c Hc Ht Hi. rewrite Hfr2, Hfr1; try done. intros Ht'. by apply Ht, Hvs. }
  assert (Hoi : forall m, valid_inode fs m -> m <> pino -> inode_bytes fs2 m = inode_bytes fs m).
  { intros m Hm Hmp. rewrite Hot2 by (done || by apply Hvs). apply (inode_bytes_frame nb); [done | by apply same_instance_shape | done |].
    intros b Hb Hr. apply Hsys1; [done|]. by do 3 right. }
  assert (Hiu : forall m, valid_inode fs m -> inode_used fs2 m = inode_used fs m).
  { intros m Hm. apply (inode_used_frame nb); try done. intros b Hb Hr. destruct (im_apart nb fs Him b Hb) as (_ & _ & Ht).
    apply Hfr; [done | done |]. intros Hi. destruct (Hblk b Hi) as (_ & _ & Hns & _). apply Hns. by do 2 right; left. }
  exists fs1, fs2, l, v'. split; [done|]. split; [done|]. split; [done|].
  split; [rewrite El; apply elem_of_app; right; by left|]. constructor; try done.
  - apply (tree_update nb fs fs2 T pino d); try done.
    + constructor; cbn [fst snd]; try done; [by apply (shape_valid fs) | by rewrite Hiu by done; apply Hat | |].
      * apply (same_directory nb fs2 (fst d)); try done. apply (directory_frame nb fs1); [done | by apply same_instance_shape |].
        rewrite Hfst. intros p Hp. destruct (Hblk p Hp) as (? & _ & Hns & _). apply Hfr2; [done|]. intros Ht. apply Hns. do 3 right. by apply Hvs.
      * intros p. rewrite Hfst. intros Hp. destruct (Hblk p Hp) as (_ & ? & ? & ?). split; [by apply (shape_fs_block fs)|].
        split; [by apply (shape_not_system fs) | by rewrite Hb02].
    + intros a e Ha He. pose proof (tr_dirs _ _ _ HT a e He) as Hae. pose proof (da_valid _ _ _ _ Hae) as Hva.
      apply (dir_at_frame nb fs); try done; [by rewrite Hiu by done; apply Hae | by apply Hoi |].
      intros p Hp. destruct (tree_range nb fs T a e p Hok HT He Hp) as (? & ? & Hns & Hu). rewrite Hb02 by done. split; [|done].
      apply Hfr; [done | intros Ht; apply Hns; by do 3 right |]. intros Hi. by apply Ha, (tr_apart _ _ _ HT a pino e d p).
  - exists d, (dir, v'), l1, l2. split_and!; try done. rewrite El, fmap_app, fmap_cons in Hnd.
    apply NoDup_ListNoDup, NoDup_remove in Hnd as [_ Hl']. rewrite fmap_app. by rewrite list_elem_of_In.
Qed.

(** The file's blocks and its inode are given back. *)
Record released (nb : Z) fs T (ino : Z) (i : Inode) (ps : list Z) fs' : Prop := mkReleased {
  rl_ok : fs_ok nb fs';
  rl_maps : inode_maps nb fs';
  rl_shape : same_shape fs fs';
  rl_tree : tree_ok nb fs' T;
  rl_inodes : forall m, valid_inode fs m -> inode_used fs' m = if m =? ino then false else inode_used fs m;
  rl_others : forall m, valid_inode fs m -> m <> ino -> inode_bytes fs' m = inode_bytes fs m;
  rl_blocks : forall b, fs_block fs b -> block_used fs' b = block_used fs b && negb (bool_decide (b ∈ owned i ps));
  rl_frame : forall c, 0 <= c < nb -> ~ system fs c -> block_bytes fs' c = block_bytes fs c;
}.

Lemma release_ok nb fs T ino i ps i2 : fs_ok nb fs -> inode_maps nb fs -> tree_ok nb fs T -> valid_inode fs ino -> T !! ino = None ->
  file_ok nb fs i ps -> (forall a e p, T !! a = Some e -> p ∈ fst <$> snd e -> p ∉ owned i ps) -> inode_ok i2 ->
  exists fs1 fs2 fs3, freeAllInodeBlocks i fs = Ok (cleared i, fs1) /\ writeInode ino i2 fs1 = Ok (true, fs2) /\
    freeInode ino fs2 = Ok (true, fs3) /\ released nb fs T ino i ps fs3.
Proof.
  intros Hok Him HT Hv Hn Hf Hdis Hi2.
  destruct (freeAllInodeBlocks_ok nb fs i ps Hok Hf) as (fs1 & E1 & [Hok1 Hs1 Hu1 Hfr1]).
  destruct (inode_stored nb fs1 ino i2 Hok1) as (fs2 & E2 & Hok2 & Hs2 & Hu2 & _ & Hot2 & Hfr2); [by apply (shape_valid fs) | done |].
  pose proof (same_instance_shape _ _ Hs2) as Hsh2. pose proof (same_shape_trans _ _ _ Hs1 Hsh2) as Hs02.
  destruct (freeInode_ok nb fs2 ino Hok2 (inode_maps_shape nb fs fs2 Hs02 Him)) as (fs3 & E3 & [Hok3 Him3 Hs3 Hi3 Hu3 Hfr3]);
    [by apply (shape_valid fs)|].
  pose proof (same_shape_trans _ _ _ Hs02 Hs3) as Hs03.
  assert (Hsys : forall fs' c, same_shape fs fs' -> (reserved fs' c -> reserved fs c) /\ (in_table fs' c -> in_table fs c) /\
    (is_inode_bitmap fs' c -> is_inode_bitmap fs c)).
  { intros fs' c Hs. destruct (shape_system fs fs' c Hs) as (? & _ & ? & ?). tauto. }
  assert (Hfr : forall c, 0 <= c < nb -> ~ system fs c -> block_bytes fs3 c = block_bytes fs c).
  { intros c Hc Hns. unfold system in Hns. rewrite Hfr3, Hfr2, Hfr1; try done; try tauto.
    - intros Ht%(Hsys fs1 c Hs1). tauto.
    - intros Ht%(Hsys fs2 c Hs02). tauto.
    - intros Ht%(Hsys fs2 c Hs02). tauto. }
  assert (Hoi : forall m, valid_inode fs m -> m <> ino -> inode_bytes fs3 m = inode_bytes fs m).
  { intros m Hm Hne. assert (Hm1 : valid_inode fs1 m) by by apply (shape_valid fs). assert (Hm2 : valid_inode fs2 m) by by apply (shape_valid fs).
    transitivity (inode_bytes fs2 m); [|rewrite Hot2 by done]; apply (inode_bytes_frame nb); try done; intros b Hb Hr.
    - destruct (fo_tables nb fs2 Hok2 b Hb) as [Hnr _]. apply Hfr3; [done | done |]. intros Hib.
      by destruct (im_apart nb fs2 (inode_maps_shape nb fs fs2 Hs02 Him) b Hib) as (_ & _ & ?).
    - destruct (fo_tables nb fs Hok b Hb) as [Hnr Hnb]. by apply Hfr1. }
  assert (Hiu : forall m, valid_inode fs m -> inode_used fs3 m = if m =? ino then false else inode_used fs m).
  { intros m Hm. rewrite Hi3 by by apply (shape_valid fs). destruct (m =? ino); [done|].
    apply (inode_used_frame nb); try done. intros b Hb Hr. destruct (im_apart nb fs Him b Hb) as (Hnr & Hnb & Hnt).
    rewrite Hfr2, Hfr1; try done. by intros Ht%(Hsys fs1 b Hs1). }
  assert (Hbu : forall b, fs_block fs b -> block_used fs3 b = block_used fs b && negb (bool_decide (b ∈ owned i ps))).
  { intros b Hb. rewrite Hu3 by by apply (shape_fs_block fs fs2). rewrite Hu2 by by apply (shape_fs_block fs fs1). rewrite Hu1 by done.
    do 2 f_equal. apply bool_decide_ext. split; [by intros [_ ?]|]. intros Hin. destruct (fi_used _ _ _ _ Hf b Hin) as (? & _). split; [lia | done]. }
  exists fs1, fs2, fs3. split_and!; try done. constructor; try done.
  pose proof HT as [T1 T2 T3]. constructor; [done | | done]. intros a e He. pose proof (T2 a e He) as Hae. pose proof (da_valid _ _ _ _ Hae) as Hva.
  assert (Hai : a <> ino) by (intros ->; congruence).
  apply (dir_at_frame nb fs); try done; [| by apply Hoi |].
  - rewrite Hiu by done. rewrite (proj2 (Z.eqb_neq _ _) Hai). apply Hae.
  - intros p Hp. destruct (tree_range nb fs T a e p Hok HT He Hp) as (? & ? & ? & Hu). split; [by apply Hfr|].
    rewrite Hbu, Hu by done. rewrite bool_decide_eq_false_2; [done | by apply (Hdis a e)].
Qed.

Lemma removed_inode T pino d l T' : name_removed T pino l T' -> T !! pino = Some d -> lookup_links (l_name l) (dir_links (snd d)) = l_inode l.
Proof.
  intros (d0 & d' & l1 & l2 & Hd & _ & El & _ & Hno) Hd'. rewrite Hd in Hd'. injection Hd' as <-. rewrite El, lookup_links_app.
  rewrite bool_decide_eq_false_2 by (intros Hin; apply Hno; rewrite fmap_app, elem_of_app; by left). cbn [lookup_links].
  by rewrite bool_decide_eq_true_2.
Qed.

(** The parent directory and the inode that a path names. *)
Lemma find_target_ok nb fs T cs name pino d : fs_ok nb fs -> tree_ok nb fs T -> Forall component cs -> component name ->
  (length (join cs) < 128)%nat -> lookup_path T cs ROOT_INODE = Some pino -> T !! pino = Some d ->
  let ino := lookup_links name (dir_links (snd d)) in
  (ino = 0 -> find_target (join (cs ++ [name])) fs = Ok (None, fs)) /\
  forall i, valid_inode fs ino -> inode_bytes fs ino = encode_inode i -> inode_ok i ->
    find_target (join (cs ++ [name])) fs = Ok (Some (pino, fst d, ino, i, name), fs).
Proof.
  intros Hok HT Hcs Hc Hlen Hpath Hd ino. destruct (tr_dirs _ _ _ HT pino d Hd) as [Hvp _ Hbp Hip Hdp _].
  assert (Hrun : find_target (join (cs ++ [name])) fs = (if ino =? 0 then mret None else
    t ← readInode ino stack_inode; mret (match t with None => None | Some t => Some (pino, fst d, ino, t, name) end)) fs).
  { unfold find_target. rewrite (split_path_ok cs name Hc Hlen). rewrite (proj2 (Nat.eqb_neq _ _)) by (destruct Hc as [? _]; by destruct name).
    step (resolve_ok nb fs T cs pino Hok HT Hcs Hpath). rewrite (proj2 (Z.eqb_neq pino 0)) by (unfold valid_inode in Hvp; lia).
    step (readInode_at nb fs pino (fst d) stack_inode Hok Hvp Hbp Hip (length_junk _)).
    step (lookupInDir_ok nb fs (fst d) (snd d) name (fo_geometry _ _ Hok) Hdp). done. }
  split; [intros E; by rewrite Hrun, E|]. intros i Hv Hb Hi. rewrite Hrun.
  rewrite (proj2 (Z.eqb_neq ino 0)) by (unfold valid_inode in Hv; lia).
  by step (readInode_at nb fs ino i stack_inode Hok Hv Hb Hi (length_junk _)).
Qed.

Lemma not_dir_not_in_tree nb fs T ino i : tree_ok nb fs T -> inode_bytes fs ino = encode_inode i -> inode_ok i -> is_dir i = false -> T !! ino = None.
Proof.
  intros HT Hb Hi Hnd. destruct (T !! ino) as [e|] eqn:He; [|done]. exfalso. destruct (tr_dirs _ _ _ HT ino e He) as [_ _ Hb' Hi' Hd' _].
  pose proof (decode_encode_inode i Hi) as E. rewrite <- Hb, Hb', (decode_encode_inode _ Hi') in E. injection E as <-.
  pose proof (d_is_dir _ _ _ _ Hd'). congruence.
Qed.

(** Dropping the name and releasing the file. *)
Lemma unlinked_intro nb fs T cs pino d dir l v' i ps fs1 fs2 : fs_ok nb fs -> tree_ok nb fs T -> Forall component cs -> component (l_name l) ->
  lookup_path T cs ROOT_INODE = Some pino -> T !! pino = Some d -> T !! l_inode l = None ->
  name_dropped nb fs T pino d dir l fs1 v' -> released nb fs1 (<[pino := (dir, v')]> T) (l_inode l) i ps fs2 ->
  unlinked nb fs T (join (cs ++ [l_name l])) pino d (l_inode l) i ps fs2 (<[pino := (dir, v')]> T).
Proof.
  intros Hok HT Hcs Hc Hpath Hd Hn [N1 N2 N3 N4 N5 N6 N7 N8 N9] [R1 R2 R3 R4 R5 R6 R7 R8].
  pose proof (same_instance_shape _ _ N2) as Hs1. pose proof (same_shape_trans _ _ _ Hs1 R3) as Hs.
  assert (Hp0 : pino <> 0). { pose proof (da_valid _ _ _ _ (tr_dirs _ _ _ HT pino d Hd)) as Hvp. unfold valid_inode in Hvp. lia. }
  assert (Hv1 : forall m, valid_inode fs m -> valid_inode fs1 m) by (intros m; by apply (shape_valid fs)).
  assert (Hb1 : forall b, fs_block fs b -> fs_block fs1 b) by (intros b; by apply (shape_fs_block fs fs1)).
  assert (Hbu : forall b, fs_block fs b -> block_used fs2 b = block_used fs b && negb (bool_decide (b ∈ owned i ps)))
    by (intros b Hb; rewrite R7, N3 by auto; done).
  constructor; try done.
  - apply (resolve_ok nb fs2 (<[pino := (dir, v')]> T)); [done | done | apply Forall_app; by split; [|constructor] |].
    by eapply path_removed.
  - intros cs' m Hcs' Hl Hm Hml. apply (resolve_ok nb fs2 (<[pino := (dir, v')]> T)); [done | done | done |]. by eapply path_not_removed.
  - intros m Hm. rewrite R5 by auto. by rewrite N4.
  - intros m Hm Hmi Hmp. rewrite R6, N8 by auto. done.
  - intros j qs Hj Hdis. apply (file_frame nb fs); try done. intros q Hq. destruct (Hdis q Hq) as [Hq1 Hq2].
    destruct (fi_used _ _ _ _ Hj q Hq) as (_ & Hfb & Hns & Hu). destruct (file_block_range nb fs j qs q Hok Hj Hq) as (Hr & _ & _ & Hnt).
    rewrite Hbu, Hu, bool_decide_eq_false_2 by done. split; [|done].
    rewrite R8, N9; [done | lia | done | done | lia | by apply (shape_not_system fs)].
Qed.


(** Taking a file out of the tree: what [unlinkFile] and [rmdirPath] have in common. *)
Lemma remove_ok nb fs T cs name pino d dir i ps i2 : fs_ok nb fs -> inode_maps nb fs -> tree_ok nb fs T -> Forall component cs -> component name ->
  lookup_path T cs ROOT_INODE = Some pino -> T !! pino = Some d -> NoDup (l_name <$> dir_links (snd d)) ->
  inode_ok dir -> is_dir dir = true -> size dir = size (fst d) -> block dir = block (fst d) ->
  let ino := lookup_links name (dir_links (snd d)) in valid_inode fs ino -> T !! ino = None -> file_ok nb fs i ps ->
  (forall a e p, T !! a = Some e -> p ∈ fst <$> snd e -> p ∉ owned i ps) -> inode_ok i2 ->
  exists fs1 fs2 fs3 fs4 fs5 v', removeDirEntry (fst d) name fs = Ok (true, fs1) /\ writeInode pino dir fs1 = Ok (true, fs2) /\
    freeAllInodeBlocks i fs2 = Ok (cleared i, fs3) /\ writeInode ino i2 fs3 = Ok (true, fs4) /\ freeInode ino fs4 = Ok (true, fs5) /\
    unlinked nb fs T (join (cs ++ [name])) pino d ino i ps fs5 (<[pino := (dir, v')]> T).
Proof.
  intros Hok Him HT Hcs Hc Hpath Hd Hnd Hdir Hisd Hsz Hbl ino Hv Hn Hf Hdis Hi2.
  assert (Hname : name ∈ l_name <$> dir_links (snd d)).
  { destruct (decide (name ∈ l_name <$> dir_links (snd d))) as [?|Hno]; [done|]. pose proof (lookup_absent name _ Hno) as E0.
    fold ino in E0. unfold valid_inode in Hv. lia. }
  destruct (drop_name_ok nb fs T pino d dir name Hok Him HT Hd Hname Hnd Hdir Hisd Hsz Hbl) as (fs1 & fs2 & l & v' & E1 & E2 & Hl & _ & Hdrop). subst name.
  assert (Eino : ino = l_inode l) by (unfold ino; by eapply removed_inode, Hd; apply Hdrop).
  pose proof (same_instance_shape _ _ (nd_instance _ _ _ _ _ _ _ _ _ Hdrop)) as Hs2.
  assert (Hf2 : file_ok nb fs2 i ps).
  { apply (file_frame nb fs); try done. intros q Hq. destruct (file_block_range nb fs i ps q Hok Hf Hq) as (Hr & _ & _ & Hnt).
    destruct (fi_used _ _ _ _ Hf q Hq) as (_ & Hfb & _ & Hu). rewrite (nd_blocks _ _ _ _ _ _ _ _ _ Hdrop) by done. split; [|done].
    apply (nd_frame _ _ _ _ _ _ _ _ _ Hdrop); [lia | done |]. intros Hin. by apply (Hdis pino d q Hd Hin). }
  destruct (release_ok nb fs2 (<[pino := (dir, v')]> T) ino i ps i2) as (fs3 & fs4 & fs5 & E3 & E4 & E5 & Hrel);
    [apply Hdrop | by apply (inode_maps_shape nb fs) | apply Hdrop | by apply (shape_valid fs) | | done | | done |].
  { rewrite lookup_insert_ne; [done | congruence]. }
  { intros a e p. rewrite lookup_insert. case_decide as Ea; [|by apply Hdis]. intros [= <-]. cbn [snd].
    rewrite (nd_same_blocks _ _ _ _ _ _ _ _ _ Hdrop). by apply (Hdis pino d). }
  exists fs1, fs2, fs3, fs4, fs5, v'. split_and!; try done. rewrite Eino in *. by apply (unlinked_intro nb fs T cs pino d dir l v' i ps fs2 fs5).
Qed.

Lemma unlinkFile_ok nb fs T cs name pino d : fs_ok nb fs -> inode_maps nb fs -> tree_ok nb fs T ->
  Forall component cs -> component name -> (length (join cs) < 128)%nat ->
  lookup_path T cs ROOT_INODE = Some pino -> T !! pino = Some d -> NoDup (l_name <$> dir_links (snd d)) ->
  let path := join (cs ++ [name]) in let ino := lookup_links name (dir_links (snd d)) in
  (ino = 0 -> unlinkFile path fs = Ok (false, fs)) /\
  forall i, valid_inode fs ino -> inode_bytes fs ino = encode_inode i -> inode_ok i ->
    (is_dir i = true -> unlinkFile path fs = Ok (false, fs)) /\
    forall ps, is_dir i = false -> file_ok nb fs i ps -> (forall a e p, T !! a = Some e -> p ∈ fst <$> snd e -> p ∉ owned i ps) ->
      exists fs' v', unlinkFile path fs = Ok (true, fs') /\ unlinked nb fs T path pino d ino i ps fs' (<[pino := (fst d, v')]> T).
Proof.
  intros Hok Him HT Hcs Hc Hlen Hpath Hd Hnd path ino. pose proof (tr_dirs _ _ _ HT pino d Hd) as Hat.
  destruct (find_target_ok nb fs T cs name pino d Hok HT Hcs Hc Hlen Hpath Hd) as [Hnone Hsome]. fold ino path in Hnone, Hsome.
  unfold unlinkFile. split; [intros E; by step (Hnone E)|]. intros i Hv Hb Hi. split; [intros Hisd; step (Hsome i Hv Hb Hi); by rewrite Hisd|].
  intros ps Hisd Hf Hdis. pose proof (not_dir_not_in_tree nb fs T ino i HT Hb Hi Hisd) as Hn.
  destruct (remove_ok nb fs T cs name pino d (fst d) i ps (set_dtime (set_links (cleared i) 0) 0) Hok Him HT Hcs Hc Hpath Hd Hnd (da_inode _ _ _ _ Hat)
    (d_is_dir _ _ _ _ (da_dir _ _ _ _ Hat)) eq_refl eq_refl Hv Hn Hf Hdis (cleared_ok i Hi)) as (fs1 & fs2 & fs3 & fs4 & fs5 & v' & E1 & E2 & E3 & E4 & E5 & Hul).
  exists fs5, v'. split; [|done]. step (Hsome i Hv Hb Hi). rewrite Hisd. step E1. cbn [negb]. step E2. step E3. step E4. done.
Qed.

(** ** Directories *)

(** The names that every directory has. *)
Definition is_dot (name : list Z) : bool := bool_decide (name = [46]) || bool_decide (name = [46; 46]).
Definition is_child (e : ent) : bool := ent_live e && negb (is_dot (ent_name e)).

Lemma entry_char pre e rest k c : body e !! k = Some c ->
  load (block_of pre ++ ent_bytes e ++ rest) (Z.of_nat (length (block_of pre)) + 8 + Z.of_nat k) = Ok c.
Proof.
  intros Hk. apply load_ok. split; [lia|]. replace (Z.to_nat _) with (length (block_of pre) + (8 + k))%nat by lia.
  rewrite lookup_app_r, Nat.add_comm, Nat.add_sub by lia. unfold ent_bytes. rewrite <- app_assoc.
  rewrite lookup_app_r, length_encode_dirent by (rewrite length_encode_dirent; lia). rewrite Nat.add_comm, Nat.add_sub.
  rewrite lookup_app_l; [done | by eapply lookup_lt_Some].
Qed.

Lemma is_dots_ok pre e rest : ent_ok e -> ent_live e = true ->
  is_dots (block_of pre ++ ent_bytes e ++ rest) (Z.of_nat (length (block_of pre))) (hdr e) = Ok (is_dot (ent_name e)).
Proof.
  intros He Hlive. pose proof (ent_name_fits e He Hlive) as Hfit. pose proof (entry_char pre e rest) as Hch.
  unfold is_dots, is_dot, ent_name in *. set (off := Z.of_nat (length (block_of pre))) in *.
  destruct (Z.eqb_spec (name_len (hdr e)) 1) as [E1|N1]; [|destruct (Z.eqb_spec (name_len (hdr e)) 2) as [E2|N2]].
  - rewrite E1 in *. destruct (body e) as [|c0 b]; [simpl in Hfit; lia|]. specialize (Hch 0%nat c0 eq_refl). change (Z.of_nat 0) with 0 in Hch.
    rewrite Z.add_0_r in Hch. run_call Hch. change (Z.to_nat 1) with 1%nat. cbn [take]. rewrite take_0. f_equal.
    rewrite (bool_decide_eq_false_2 ([c0] = [46; 46])), orb_false_r by done. destruct (Z.eqb_spec c0 46); case_bool_decide; congruence.
  - rewrite E2 in *. destruct (body e) as [|c0 [|c1 b]]; [simpl in Hfit; lia | simpl in Hfit; lia|].
    pose proof (Hch 0%nat c0 eq_refl) as H0'. pose proof (Hch 1%nat c1 eq_refl) as H1'. change (Z.of_nat 0) with 0 in H0'. rewrite Z.add_0_r in H0'.
    replace (off + 8 + Z.of_nat 1) with (off + 9) in H1' by lia. run_call H0'. change (Z.to_nat 2) with 2%nat. cbn [take]. rewrite take_0.
    rewrite (bool_decide_eq_false_2 ([c0; c1] = [46])) by done. cbn [orb].
    destruct (Z.eqb_spec c0 46); [run_call H1'; f_equal; destruct (Z.eqb_spec c1 46)|f_equal]; case_bool_decide; first [done | congruence].
  - f_equal. symmetry. apply orb_false_iff. split; apply bool_decide_eq_false_2; intros E; apply (f_equal length) in E;
      rewrite length_take in E; simpl in E; lia.
Qed.

Lemma children_entries buf pre es : buf = block_of (pre ++ es) -> Forall ent_ok es ->
  over_entries (has_children_body buf) (Z.of_nat (length (block_of pre))) es tt = Ok (if existsb is_child es then inr tt else inl tt).
Proof.
  intros Hbuf Hes. revert pre Hbuf. induction Hes as [|e es He Hes IH]; intros pre Hbuf; [done|]. cbn [over_entries existsb].
  assert (Hbody : has_children_body buf (Z.of_nat (length (block_of pre))) (hdr e) tt = Ok (if is_child e then inr tt else inl tt)).
  { unfold has_children_body, is_child, ent_live. destruct (Z.eqb_spec (inode (hdr e)) 0) as [E|E]; [done|]. cbn [negb andb].
    rewrite Hbuf, block_of_app, block_of_cons. rewrite is_dots_ok; [|done | unfold ent_live; by rewrite (proj2 (Z.eqb_neq _ _) E)].
    cbn [mbind outcome_bind mret outcome_ret]. by destruct (is_dot (ent_name e)). }
  run_call Hbody. destruct (is_child e); [done|]. cbn [orb]. by rewrite next_offset, IH by (done || by rewrite <- app_assoc).
Qed.

(** The directory has no names but these. *)
Definition is_empty (v : view) : bool := forallb (fun pe : Z * list ent => negb (existsb is_child (snd pe))) v.

(** The loop of [rmdirPath] over the blocks of the directory. *)
Lemma has_children_ok nb fs dir v : geometry nb fs -> directory nb fs dir v ->
  dir_blocks (length v) 0 dir (junk (Z.to_nat (block_size fs)))
    (fun _ buf acc => lift (walk (walk_fuel (block_size fs)) (block_size fs) buf (has_children_body buf) 0 acc)) tt fs =
  Ok (if is_empty v then inl tt else inr tt, fs).
Proof.
  intros Hg Hd. pose proof (geometry_block_size nb fs Hg) as Hbs.
  set (f := fun (_ : Z) buf acc => lift (D := D) (walk (walk_fuel (block_size fs)) (block_size fs) buf (has_children_body buf) 0 acc)).
  assert (Hf : forall k p es, v !! k = Some (p, es) -> f p (block_of es) tt fs = Ok (if existsb is_child es then inr tt else inl tt, fs)).
  { intros k p es Hk. destruct (d_blocks _ _ _ _ Hd k p es Hk) as (_ & _ & _ & Hok).
    pose proof (block_len nb fs dir v k p es Hg Hd Hk) as Hl. unfold f, lift. rewrite walk_block by (done || lia).
    pose proof (children_entries (block_of es) [] es eq_refl Hok) as E. change (Z.of_nat (length (block_of []))) with 0 in E. by rewrite E. }
  destruct (dir_blocks_search nb fs dir v f (existsb is_child) Hg Hd) as [[E Hall]|(v1 & p & es & v2 & Ev & Hs & Hv1 & Hr)].
  { intros k p es Hk Hs. by rewrite (Hf k p es Hk), Hs. }
  - rewrite E. replace (is_empty v) with true; [done|]. symmetry. apply forallb_forall. intros pe Hpe%list_elem_of_In. by rewrite Hall.
  - assert (Hk : v !! length v1 = Some (p, es)) by (rewrite Ev; by apply list_lookup_middle).
    pose proof (Hf _ _ _ Hk) as Hfk. rewrite Hs in Hfk. rewrite (Hr _ _ Hfk). replace (is_empty v) with false; [done|].
    unfold is_empty. rewrite Ev, forallb_app. cbn [forallb snd]. rewrite Hs. by rewrite andb_false_r.
Qed.

Lemma tree_delete nb fs T ino : tree_ok nb fs T -> ino <> ROOT_INODE -> tree_ok nb fs (delete ino T).
Proof.
  intros [T1 T2 T3] Hne. constructor; [by rewrite lookup_delete_ne | |].
  - intros a e [_ He]%lookup_delete_Some. by apply T2.
  - intros a b d e p [_ Ha]%lookup_delete_Some [_ Hb]%lookup_delete_Some. by apply (T3 a b d e p).
Qed.

Lemma set_links_ok i n : inode_ok i -> inode_ok (set_links i (u16 n)).
Proof.
  intros (Hh & Hb & Ht & Ho & Hob). split_and!; try done. unfold set_links, inode_with, fields_ok, inode_widths, inode_head in *. cbn in *.
  repeat match goal with H : Forall2 _ (_ :: _) (_ :: _) |- _ => apply Forall2_cons_iff in H as [? H] end.
  repeat (constructor; [done || apply u16_range|]). constructor.
Qed.

Lemma rmdirPath_ok nb fs T cs name pino d e : fs_ok nb fs -> inode_maps nb fs -> tree_ok nb fs T ->
  Forall component cs -> component name -> (length (join cs) < 128)%nat ->
  T !! pino = Some d -> NoDup (l_name <$> dir_links (snd d)) ->
  let path := join (cs ++ [name]) in let ino := lookup_links name (dir_links (snd d)) in let T' := delete ino T in
  T !! ino = Some e -> ino <> ROOT_INODE -> ino <> pino -> lookup_path T' cs ROOT_INODE = Some pino ->
  file_ok nb fs (fst e) (fst <$> snd e) -> ind (fst e) = 0 ->
  if is_empty (snd e) then exists fs' v', rmdirPath path fs = Ok (true, fs') /\
    unlinked nb fs T' path pino d ino (fst e) (fst <$> snd e) fs' (<[pino := (set_links (fst d) (u16 (links_count (fst d) - 1)), v')]> T')
  else rmdirPath path fs = Ok (false, fs).
Proof.
  intros Hok Him HT Hcs Hc Hlen Hd Hnd path ino T' He Hroot Hpi Hpath Hf Hind. pose proof (tr_dirs _ _ _ HT pino d Hd) as Hat.
  pose proof (tr_dirs _ _ _ HT ino e He) as [Hv Hu Hb Hi Hde _]. pose proof (tree_delete nb fs T ino HT Hroot) as HT'.
  assert (Hd' : T' !! pino = Some d) by (unfold T'; by rewrite lookup_delete_ne).
  assert (HpathT : lookup_path T cs ROOT_INODE = Some pino) by (eapply lookup_path_mono; [apply delete_subseteq | exact Hpath]).
  destruct (find_target_ok nb fs T cs name pino d Hok HT Hcs Hc Hlen HpathT Hd) as [_ Hsome]. fold ino path in Hsome.
  assert (Hrun : rmdirPath path fs = (if is_empty (snd e) then
    (ok ← removeDirEntry (fst d) name; if negb ok then mret false else
     _ ← writeInode pino (set_links (fst d) (u16 (links_count (fst d) - 1)));
     target_inode ← freeAllInodeBlocks (fst e);
     _ ← writeInode ino (set_links target_inode 0); freeInode ino) else mret false) fs).
  { unfold rmdirPath. step (Hsome (fst e) Hv Hb Hi). rewrite (d_is_dir _ _ _ _ Hde). cbn [negb]. step_get.
    step (kmalloc_ok nb fs (block_size fs) (fo_geometry _ _ Hok)). step (num_blocks_ok nb fs (fst e) (snd e) (fo_geometry _ _ Hok) Hde).
    rewrite Nat2Z.id. step (has_children_ok nb fs (fst e) (snd e) (fo_geometry _ _ Hok) Hde). by destruct (is_empty (snd e)). }
  rewrite Hrun. destruct (is_empty (snd e)); [|done].
  destruct (remove_ok nb fs T' cs name pino d (set_links (fst d) (u16 (links_count (fst d) - 1))) (fst e) (fst <$> snd e) (set_links (cleared (fst e)) 0))
    as (fs1 & fs2 & fs3 & fs4 & fs5 & v' & E1 & E2 & E3 & E4 & E5 & Hul); try done.
  - apply set_links_ok, Hat.
  - apply (d_is_dir _ _ _ _ (da_dir _ _ _ _ Hat)).
  - apply lookup_delete_eq.
  - intros a x p [Hax Hx]%lookup_delete_Some Hp Hin. unfold owned in Hin. rewrite Hind in Hin. cbn [Z.eqb] in Hin. rewrite app_nil_r in Hin.
    apply Hax. by apply (tr_apart _ _ _ HT ino a e x p).
  - destruct (cleared_ok (fst e) Hi) as (Hh & Hbk & Ht & Ho & Hob). split_and!; try done.
    destruct Hi as (Hh0 & _). unfold set_dtime, set_links, cleared, inode_with, fields_ok, inode_widths, inode_head in *. cbn in *.
    repeat match goal with H : Forall2 _ (_ :: _) (_ :: _) |- _ => apply Forall2_cons_iff in H as [? H] end.
    repeat (constructor; [first [done | by split]|]). constructor.
  - exists fs5, v'. split; [|done]. step E1. cbn [negb]. step E2. step E3. step E4. done.
Qed.

(** A new directory as a file of one block. *)
Lemma new_directory_file nb fs n bs p es : fs_ok nb fs -> 1024 <= bs <= 32768 -> dir_at nb fs n (new_node true bs p, [(p, es)]) ->
  file_ok nb fs (new_node true bs p) [p].
Proof.
  intros Hok Hbs [_ _ _ Hi Hd Hb]. cbn [fst snd] in *. destruct (d_blocks _ _ _ _ Hd 0%nat p es eq_refl) as (_ & Hp & _).
  pose proof (geometry_block_size nb fs (fo_geometry _ _ Hok)). assert (0 <= block_size fs / 4) by (apply Z.div_pos; lia).
  constructor; [done | | cbn [length]; lia | cbn; lia | apply list.NoDup_singleton |].
  - intros k Hk. do 12 (destruct k as [|k]; [done|]). lia.
  - intros q Hq. change (owned (new_node true bs p) [p]) with [p] in Hq. apply list_elem_of_singleton in Hq as ->.
    destruct (Hb p ltac:(by left)) as (? & ? & ?). split; [lia | done].
Qed.

(** ** Claims *)

(** C7. [unlinkFile] on a path of names whose parent is a directory of the tree.
    When the directory does not have the name, or the name is of a directory,
    the call returns false and changes nothing.  For a file it returns true: the
    path leads nowhere any more, the inode and all blocks of the file, the block
    of pointers included, are free, every other path leads where it did, and no
    other inode and no other file has changed. *)
Theorem ext2_unlink_correct nb fs T cs name pino d : fs_ok nb fs -> inode_maps nb fs -> tree_ok nb fs T ->
  Forall component cs -> component name -> (length (join cs) < 128)%nat ->
  lookup_path T cs ROOT_INODE = Some pino -> T !! pino = Some d -> NoDup (l_name <$> dir_links (snd d)) ->
  let path := join (cs ++ [name]) in let ino := lookup_links name (dir_links (snd d)) in
  (ino = 0 -> unlinkFile path fs = Ok (false, fs)) /\
  forall i, valid_inode fs ino -> inode_bytes fs ino = encode_inode i -> inode_ok i ->
    (is_dir i = true -> unlinkFile path fs = Ok (false, fs)) /\
    forall ps, is_dir i = false -> file_ok nb fs i ps -> (forall a e p, T !! a = Some e -> p ∈ fst <$> snd e -> p ∉ owned i ps) ->
      exists fs' v', unlinkFile path fs = Ok (true, fs') /\ unlinked nb fs T path pino d ino i ps fs' (<[pino := (fst d, v')]> T).
Proof. apply unlinkFile_ok. Qed.

(** C8. [rmdirPath] on a path to a directory of the tree below its parent.  When
    the directory has names other than [.] and [..] the call returns false and
    changes nothing.  Otherwise it returns true: the path leads nowhere any more,
    the inode and the blocks of the directory are free, the parent has one link
    less, paths that do not pass the directory lead where they did, and no other
    inode and no file has changed. *)
Theorem ext2_rmdir_correct nb fs T cs name pino d e : fs_ok nb fs -> inode_maps nb fs -> tree_ok nb fs T ->
  Forall component cs -> component name -> (length (join cs) < 128)%nat ->
  T !! pino = Some d -> NoDup (l_name <$> dir_links (snd d)) ->
  let path := join (cs ++ [name]) in let ino := lookup_links name (dir_links (snd d)) in let T' := delete ino T in
  T !! ino = Some e -> ino <> ROOT_INODE -> ino <> pino -> lookup_path T' cs ROOT_INODE = Some pino ->
  file_ok nb fs (fst e) (fst <$> snd e) -> ind (fst e) = 0 ->
  if is_empty (snd e) then exists fs' v', rmdirPath path fs = Ok (true, fs') /\
    unlinked nb fs T' path pino d ino (fst e) (fst <$> snd e) fs' (<[pino := (set_links (fst d) (u16 (links_count (fst d) - 1)), v')]> T')
  else rmdirPath path fs = Ok (false, fs).
Proof. apply rmdirPath_ok. Qed.

(** C9. [unlinkFile] undoes [create]: after a file was made, removing it under the
    same path succeeds; the same inodes and blocks are in use as before, the path
    leads nowhere, every other path leads where it did, and no inode in use but
    the one of the directory has changed. *)
Theorem unlink_undoes_create nb fs T cs name pino d fs1 : fs_ok nb fs -> inode_maps nb fs -> tree_ok nb fs T ->
  Forall component cs -> component name -> bytes_ok name -> (length (join cs) < 128)%nat ->
  lookup_path T cs ROOT_INODE = Some pino -> T !! pino = Some d -> room name (snd d) -> NoDup (l_name <$> dir_links (snd d)) ->
  let path := join (cs ++ [name]) in create path false fs = Ok (true, fs1) ->
  exists n fs2, resolvePathToInode path fs1 = Ok (n, fs1) /\ inode_used fs n = false /\ unlinkFile path fs1 = Ok (true, fs2) /\
    (forall m, valid_inode fs m -> inode_used fs2 m = inode_used fs m) /\
    (forall b, fs_block fs b -> block_used fs2 b = block_used fs b) /\
    resolvePathToInode path fs2 = Ok (0, fs2) /\
    (forall cs' m, Forall component cs' -> lookup_path T cs' ROOT_INODE = Some m -> m <> 0 -> m <> n -> resolvePathToInode (join cs') fs2 = Ok (m, fs2)) /\
    forall m, valid_inode fs m -> m <> n -> m <> pino -> inode_bytes fs2 m = inode_bytes fs m.
Proof.
  intros Hok Him HT Hcs Hc Hcb Hlen Hpath Hd Hroom Hnd path Ec. pose proof (create_ok nb fs T cs name false pino d Hok Him HT Hcs Hc Hcb Hlen Hpath Hd Hroom) as Hres.
  cbv zeta in Hres. fold path in Hres. rewrite Ec in Hres. case_bool_decide as Hno; [done|].
  destruct Hres as [[? _]|[(? & ? & ? & _)|(fs1' & n & p & v' & [= <-] & _ & Hcr)]]; [done | done |].
  destruct Hcr as [(Hok1 & Him1 & Hsh) HT1 (T1 & Hadd & HsubT) Epath _ (Hv & Hfree) Hst _ Hiu Hot Hbu _]. cbn [tree_after new_node] in *.
  set (T' := tree_after T false pino (fst d) v' n (block_size fs) p) in *.
  assert (Hp0 : pino <> 0). { pose proof (da_valid _ _ _ _ (tr_dirs _ _ _ HT pino d Hd)) as Hvp. unfold valid_inode in Hvp. lia. }
  assert (Hkept : forall cs' m, lookup_path T cs' ROOT_INODE = Some m -> m <> 0 -> lookup_path T' cs' ROOT_INODE = Some m).
  { intros cs' m Hl Hm. eapply lookup_path_mono; [exact HsubT|]. by eapply lookup_path_kept. }
  pose proof Hadd as (d0 & d' & l1 & l2 & Hd0 & ET1 & El & El' & Hno'). rewrite Hd in Hd0. injection Hd0 as <-.
  assert (Hd' : T' !! pino = Some d'). { eapply lookup_weaken; [|exact HsubT]. rewrite ET1. apply lookup_insert_eq. }
  assert (Hnd' : NoDup (l_name <$> dir_links (snd d'))).
  { rewrite El', fmap_app, fmap_cons. cbn [l_name]. rewrite El, fmap_app in Hnd, Hno'. rewrite <- Permutation_middle. by constructor. }
  destruct (unlinkFile_ok nb fs1 T' cs name pino d' Hok1 Him1 HT1 Hcs Hc Hlen (Hkept _ _ Hpath Hp0) Hd' Hnd') as [_ Hun].
  rewrite El in Hno'. rewrite El', (lookup_insert_link name n _ name l1 l2 Hno'), bool_decide_eq_true_2 in Hun by done.
  destruct (Hun (fresh_inode false)) as [_ Hun']; [by apply (shape_valid fs) | done | apply (new_node_ok false 1024 0); lia |].
  destruct (Hun' []) as (fs2 & v2 & Eu & [_ _ Upath Upaths Uin Uot Ubl _]); [done | by apply new_file_ok | by intros a e q _ _ ?%not_elem_of_nil |].
  exists n, fs2. split_and!; try done.
  - intros m Hm. rewrite Uin, Hiu by (done || by apply (shape_valid fs)). destruct (Z.eqb_spec m n) as [->|]; [by rewrite Hfree | done].
  - intros b Hb. rewrite Ubl, Hbu by (done || by apply (shape_fs_block fs fs1)). rewrite !bool_decide_eq_false_2 by apply not_elem_of_nil.
    by rewrite orb_false_r, andb_true_r.
  - intros cs' m Hcs' Hl Hm Hmn. apply Upaths; auto.
  - intros m Hm Hmn Hmp. rewrite Uot, Hot by (done || by apply (shape_valid fs)). done.
Qed.
End unlink.
