(* ===== verification/Ext2Image.v ===== *)
(** A disk in memory that satisfies the laws of a block device, and a small
    ext2 file system on it, on which the theorems about the driver are
    evaluated.

    The file system has 16 blocks of 1024 bytes: superblock in block 1, group
    descriptor in 2, block bitmap in 3, inode bitmap in 4, the table of 16
    inodes in 5 and 6, and the root directory, with [.] and [..], in 7. *)

From Stdlib Require Import ZifyBool.
From S2P Require Import Prelude Vfs VfsProofs Bytes Ext2Layout Ext2 Ext2Proofs Ext2Files Ext2Alloc Ext2Mount Ext2Dir Ext2DirOps Ext2Read Ext2Grow Ext2Write Ext2Tree Ext2Create Ext2Unlink.

(** ** A disk in memory, in sectors of 512 bytes *)

#[export] Instance ram_disk : BlockDev (list Z) := {
  dev_read lba count d := match slice d (512 * lba) (512 * count) with Ok data => Some data | _ => None end;
  dev_write lba count data d := match splice d (512 * lba) data with Ok d' => (true, d') | _ => (false, d) end;
}.

Definition ram_wf (ss n : Z) (d : list Z) : Prop := ss = 512 /\ Z.of_nat (length d) = 512 * n /\ bytes_ok d.

Lemma ram_read ss n d lba count : ram_wf ss n d -> 0 <= lba -> 0 <= count -> lba + count <= n ->
  dev_read lba count d = Some (take (Z.to_nat (512 * count)) (drop (Z.to_nat (512 * lba)) d)).
Proof. intros (_ & Hl & _) H1 H2 H3. cbn. by rewrite slice_ok by lia. Qed.

#[export, refine] Instance ram_disk_laws : BlockDevLaws (list Z) := { dev_wf := ram_wf }.
Proof.
  - intros ss n d lba count Hwf H1 H2 H3. eexists. split; [by apply (ram_read ss n)|]. destruct Hwf as (-> & Hl & Hb).
    split; [rewrite length_take, length_drop; lia | by apply list.Forall_take, Forall_drop].
  - intros ss n d lba count data Hwf H1 H2 H3 Hlen Hok. pose proof Hwf as (-> & Hl & Hb).
    destruct (splice d (512 * lba) data) as [d'| |] eqn:Es; [|rewrite splice_ok in Es by lia; done..].
    assert (Hwf' : ram_wf 512 n d').
    { split_and!; [done | by rewrite (splice_length _ _ _ _ Es) | by apply (splice_bytes_ok _ _ _ _ Hb Hok Es)]. }
    exists d'. split; [cbn; by rewrite Es|]. split; [done|]. split.
    + rewrite (ram_read 512 n) by done. f_equal. replace (Z.to_nat (512 * count)) with (length data) by lia.
      apply (splice_self _ _ _ _ Es).
    + intros lba' count' H4 H5 H6 Hdis. rewrite !(ram_read 512 n) by done. f_equal.
      apply (splice_other _ _ _ _ _ _ Es); lia.
Defined.

#[export] Instance ram_junk : Uninit := fun n => replicate n 170.
#[export] Instance ram_junk_laws : UninitLaws := { length_junk n := length_replicate n 170 }.

(** ** A file system *)

Definition toy_sb : Superblock :=
  mkSb 16 16 0 8 5 1 0 0 8192 8192 16 0 0 0 20 EXT2_MAGIC 1 1 0 0 0 0 1 0 0 11 128 0 0 0 0 (replicate 920 0).
Definition toy_group : GroupDesc := mkGroup 3 4 5 8 5 1 0 (replicate 12 0).
Definition toy_root : Inode :=
  mkInode 0x41ED 0 1024 0 0 0 0 0 2 2 0 0 (7 :: replicate 14 0) 0 0 0 0 (replicate 12 0).
Definition toy_root_entries : list ent :=
  [mkEnt (mkDirEnt 2 12 1 2) [46; 0; 0; 0]; mkEnt (mkDirEnt 2 1012 2 2) (46 :: 46 :: replicate 1002 0)].

Definition pad (bs : list Z) : list Z := bs ++ replicate (1024 - length bs) 0.

(** Blocks 1 to 7 are in use, and inodes 1 to 11. *)
Definition toy_disk : list Z :=
  pad [] ++ pad (encode_sb toy_sb) ++ pad (encode_group toy_group) ++ pad [0x7F] ++ pad [0xFF; 0x07] ++
  pad (replicate 128 0 ++ encode_inode toy_root) ++ pad [] ++ block_of toy_root_entries ++
  concat (replicate 8 (pad [])).

Definition toy_fs : FsInstance (list Z) := mkFs toy_disk 512 toy_sb [toy_group] 1 1024 [].

Ltac decide_now := first
  [ apply fields_okb_ok; vm_compute; reflexivity
  | apply bytes_okb_ok; vm_compute; reflexivity
  | apply (bool_decide_unpack _); vm_compute; exact I ].

Lemma toy_bytes : bytes_ok toy_disk /\ Z.of_nat (length toy_disk) = 16384.
Proof. split; [decide_now | vm_compute; reflexivity]. Qed.

Lemma toy_geometry : geometry 16 toy_fs.
Proof.
  constructor; [done | by exists 1 | lia | | done]. split; [done|]. destruct toy_bytes as [Hb Hl]. split; [|done].
  cbn [dev toy_fs]. rewrite Hl. done.
Qed.

Lemma toy_sb_ok : sb_ok toy_sb.
Proof. split_and!; [decide_now | reflexivity | decide_now]. Qed.

Lemma toy_group_ok : group_ok toy_group.
Proof. split_and!; [decide_now | reflexivity | decide_now]. Qed.

Lemma toy_root_ok : inode_ok toy_root.
Proof. split_and!; [decide_now | decide_now | decide_now | reflexivity | decide_now]. Qed.

Lemma toy_meta : meta_layout 16 toy_fs.
Proof.
  constructor; [apply toy_sb_ok | constructor; [apply toy_group_ok | constructor] | done | done | |].
  - vm_compute. split_and!; done.
  - vm_compute. done.
Qed.

Lemma single_group gd g : [toy_group] !! g = Some gd -> g = 0%nat /\ gd = toy_group.
Proof. destruct g as [|g]; [by intros [= <-] | by rewrite lookup_cons]. Qed.

Lemma toy_inodes : inode_layout 16 toy_fs.
Proof.
  constructor; try (vm_compute; done).
  - by exists 8.
  - intros g gd [-> ->]%single_group. vm_compute. split; done.
  - intros g g' gd gd' Hne [-> ->]%single_group [-> ->]%single_group. done.
Qed.

Lemma toy_blocks : block_layout 16 toy_fs.
Proof.
  constructor; try (vm_compute; split; done).
  - intros g gd [-> ->]%single_group. split; [vm_compute; split; done|]. unfold reserved. vm_compute. intros [? ?]. done.
  - intros g g' gd gd' [-> ->]%single_group [-> ->]%single_group. done.
Qed.

Lemma toy_directory : directory 16 toy_fs toy_root [(7, toy_root_entries)].
Proof.
  constructor; [done | done | simpl; lia | | repeat constructor; apply not_elem_of_nil].
  intros k p es Hk. destruct k as [|k]; [|by rewrite lookup_cons in Hk]. injection Hk as <- <-.
  split; [done|]. split; [lia|]. split; [vm_compute; reflexivity|].
  repeat constructor; try decide_now; vm_compute; done.
Qed.

(** ** The theorems at work *)

Lemma writeInode_readInode_witness :
  exists fs', writeInode 12 toy_root toy_fs = Ok (true, fs') /\ readInode 12 stack_inode fs' = Ok (Some toy_root, fs').
Proof.
  destruct (writeInode_readInode 16 toy_fs 12 toy_root stack_inode toy_geometry toy_inodes) as (fs' & E & _ & _ & Er & _).
  - vm_compute. split; done.
  - exact toy_root_ok.
  - reflexivity.
  - exists fs'. split; [exact E | exact Er].
Defined.

Lemma toy_block_zero : fdb toy_fs = 0 -> block_used toy_fs 0 = true.
Proof. done. Qed.

Lemma allocBlock_correct_witness :
  exists b fs', allocBlock 0 toy_fs = Ok (b, fs') /\ b = 8 /\ block_used toy_fs b = false /\ block_used fs' b = true.
Proof.
  destruct (allocBlock_correct 16 toy_fs toy_geometry toy_meta toy_blocks toy_block_zero)
    as [[E _]|(b & fs' & E & _ & Hb & Hfree & Hch)].
  - exfalso. vm_compute in E. discriminate E.
  - exists b, fs'. assert (b = 8) as -> by (vm_compute in E; by injection E).
    split; [exact E|]. split; [reflexivity|]. split; [exact Hfree|].
    rewrite (bc_used _ _ _ _ _ _ Hch) by exact Hb. reflexivity.
Defined.

Lemma freeBlock_undoes_allocBlock_witness :
  exists b fs1 fs2, allocBlock 0 toy_fs = Ok (b, fs1) /\ freeBlock b fs1 = Ok (true, fs2) /\
    sb fs1 <> sb toy_fs /\ sb fs2 = sb toy_fs /\ groups fs2 = groups toy_fs.
Proof.
  destruct (allocBlock 0 toy_fs) as [[b fs1]| |] eqn:E; [|exfalso; vm_compute in E; discriminate E..].
  destruct (freeBlock_undoes_allocBlock 16 toy_fs b fs1 toy_geometry toy_meta toy_blocks toy_block_zero E)
    as (fs2 & Ef & Hs & Hg & _).
  - vm_compute in E. injection E as <- _. done.
  - exists b, fs1, fs2. split_and!; [reflexivity | exact Ef | | exact Hs | exact Hg].
    vm_compute in E. injection E as _ <-. vm_compute. intros Hsb. discriminate Hsb.
Defined.

Lemma toy_mountable : mountable toy_fs.
Proof. constructor; vm_compute; try reflexivity; [discriminate | split; [discriminate | reflexivity] | split_and!; done]. Qed.

Lemma mount_reads_back_witness :
  (exists fs1 fs2, writeGroupDescriptors toy_fs = Ok (true, fs1) /\ writeSuperblock fs1 = Ok (true, fs2) /\
     mount (mkFs (dev fs2) 512 toy_sb [] 0 0 []) = Ok (true, fs2) /\ sb fs2 = toy_sb) /\
  exists fs3, update_counts 0 (-1) 0 toy_fs = Ok (tt, fs3) /\ mount (mkFs (dev fs3) 512 toy_sb [] 0 0 []) = Ok (true, fs3).
Proof.
  destruct (mount_reads_back 16 toy_fs (mkFs toy_disk 512 toy_sb [] 0 0 []) toy_geometry toy_meta toy_mountable eq_refl eq_refl)
    as [(fs1 & fs2 & E1 & E2 & Hs & _ & Em) Hu]. split.
  - exists fs1, fs2. split; [exact E1|]. split; [exact E2|]. split; [exact Em|]. rewrite Hs. reflexivity.
  - destruct (groups toy_fs !! 0%nat) as [g|] eqn:Eg; [|discriminate Eg].
    destruct (Hu 0 (-1) 0 g) as (fs3 & E3 & _ & _ & Em3); [split; [lia | reflexivity] | exact Eg |].
    exists fs3. split; [exact E3 | exact Em3].
Defined.

Lemma toy_new_link : new_link [97] 12 FT_REG_FILE.
Proof. constructor; [simpl; lia | decide_now | lia | vm_compute; split; done]. Qed.

Lemma toy_links : (l_name <$> dir_links [(7, toy_root_entries)]) = [[46]; [46; 46]].
Proof. vm_compute. reflexivity. Qed.

Lemma insertDirEntry_correct_witness :
  exists fs', insertDirEntry toy_root [97] 12 FT_REG_FILE toy_fs = Ok ((true, toy_root), fs') /\
    lookupInDir toy_root [97] fs' = Ok (12, fs') /\ lookupInDir toy_root [46; 46] fs' = Ok (2, fs').
Proof.
  destruct (insertDirEntry_correct 16 toy_fs toy_root [(7, toy_root_entries)] [97] 12 FT_REG_FILE
    toy_geometry toy_directory toy_new_link) as (v' & fs' & E & _ & _ & El & Hother & _).
  - rewrite toy_links. rewrite !not_elem_of_cons. split_and!; [done | done | apply not_elem_of_nil].
  - exists (7, toy_root_entries). split; [by left | vm_compute; discriminate].
  - exists fs'. split; [exact E|]. split; [exact El|]. apply Hother; [discriminate | vm_compute; reflexivity].
Defined.

Lemma removeDirEntry_correct_witness :
  exists fs', removeDirEntry toy_root [46; 46] toy_fs = Ok (true, fs') /\
    lookupInDir toy_root [46; 46] fs' = Ok (0, fs') /\ lookupInDir toy_root [46] fs' = Ok (2, fs').
Proof.
  destruct (removeDirEntry_correct 16 toy_fs toy_root [(7, toy_root_entries)] [46; 46] toy_geometry toy_directory)
    as [[E _]|(v' & fs' & E & _ & _ & _ & El & Hother & _)].
  - rewrite toy_links. decide_now.
  - exfalso. vm_compute in E. discriminate E.
  - exists fs'. split; [exact E|]. split; [exact El|]. apply Hother; [discriminate | vm_compute; reflexivity].
Defined.

Lemma toy_mapped : mapped_file 16 toy_fs toy_root [7].
Proof.
  constructor; [|vm_compute; discriminate | vm_compute; split; discriminate].
  intros k p Hk. destruct k as [|k]; [|by rewrite lookup_cons in Hk]. injection Hk as <-. split; [reflexivity | lia].
Qed.

(** The root directory as a file of one block. *)
Lemma ext2_read_correct_witness :
  read (mkPriv 2 toy_root) 8 4 toy_fs = Ok ((4, [46; 0; 0; 0], mkPriv 2 toy_root), toy_fs).
Proof.
  apply (ext2_read_correct 16 toy_fs toy_root [7] 2 8 4 toy_geometry toy_mapped); lia.
Defined.

Lemma toy_fs_ok : fs_ok 16 toy_fs.
Proof.
  constructor; [exact toy_geometry | exact toy_meta | exact toy_blocks | exact toy_inodes | | vm_compute; reflexivity |].
  - intros b _ [Hr|[(k & gd & [-> ->]%single_group & ->)|[(k & gd & [-> ->]%single_group & ->)|(k & gd & [-> ->]%single_group & Ht)]]];
      [| vm_compute; reflexivity | vm_compute; reflexivity |].
    + unfold reserved in Hr. change (fdb toy_fs) with 1 in Hr. change (gdt_blocks toy_fs) with 1 in Hr.
      assert (b = 1 \/ b = 2) as [->| ->] by lia; vm_compute; reflexivity.
    + change (inode_table toy_group) with 5 in Ht. change (table_blocks toy_fs) with 2 in Ht.
      assert (b = 5 \/ b = 6) as [->| ->] by lia; vm_compute; reflexivity.
  - intros b (k & gd & [-> ->]%single_group & Ht). change (inode_table toy_group) with 5 in Ht.
    change (table_blocks toy_fs) with 2 in Ht. split.
    + unfold reserved. change (fdb toy_fs) with 1. change (gdt_blocks toy_fs) with 1. lia.
    + intros (k & gd & [-> ->]%single_group & ->). change (block_bitmap toy_group) with 3 in Ht. lia.
Qed.

Lemma toy_root_file : file_ok 16 toy_fs toy_root [7].
Proof.
  constructor; [exact toy_root_ok | | vm_compute; discriminate | vm_compute; lia | apply NoDup_singleton |].
  { intros k Hk. do 12 (destruct k as [|k]; [reflexivity|]). lia. }
  intros p ->%list_elem_of_singleton. split; [lia|]. split; [vm_compute; split; [discriminate | reflexivity]|].
  split; [|vm_compute; reflexivity].
  intros [Hr|[(k & gd & [-> ->]%single_group & E)|[(k & gd & [-> ->]%single_group & E)|(k & gd & [-> ->]%single_group & Ht)]]];
    [| discriminate E | discriminate E |].
  - unfold reserved in Hr. change (fdb toy_fs) with 1 in Hr. change (gdt_blocks toy_fs) with 1 in Hr. lia.
  - change (inode_table toy_group) with 5 in Ht. change (table_blocks toy_fs) with 2 in Ht. lia.
Qed.

(** Seven bytes across the end of the first block: a second is allocated. *)
Lemma ext2_write_correct_witness : exists fs' i',
  write (mkPriv 2 toy_root) 1020 [1; 2; 3; 4; 5; 6; 7] toy_fs = Ok ((7, mkPriv 2 i'), fs') /\ size i' = 1027 /\
  read (mkPriv 2 i') 1020 7 fs' = Ok ((7, [1; 2; 3; 4; 5; 6; 7], mkPriv 2 i'), fs').
Proof.
  destruct (ext2_write_correct 16 toy_fs 2 toy_root [7] 1020 [1; 2; 3; 4; 5; 6; 7] toy_fs_ok toy_root_file)
    as (n & fs' & i' & ps' & E & Hwr & Er).
  - vm_compute. split; discriminate.
  - vm_compute. split; discriminate.
  - decide_now.
  - vm_compute. split; discriminate.
  - vm_compute. discriminate.
  - assert (Hn : n = 7%nat).
    { assert (Hv : match write (mkPriv 2 toy_root) 1020 [1; 2; 3; 4; 5; 6; 7] toy_fs with Ok ((m, _), _) => m | _ => 0 end = 7)
        by (vm_compute; reflexivity). rewrite E in Hv. lia. }
    subst n. exists fs', i'. split; [exact E|]. split; [|exact Er]. exact (wr_size _ _ _ _ _ _ _ _ _ _ _ Hwr).
Defined.

Lemma toy_maps : inode_maps 16 toy_fs.
Proof.
  constructor; [vm_compute; discriminate | | |].
  - intros k gd [-> ->]%single_group. vm_compute. split; done.
  - intros b (k & gd & [-> ->]%single_group & ->). change (inode_bitmap toy_group) with 4. split_and!.
    + unfold reserved. change (fdb toy_fs) with 1. change (gdt_blocks toy_fs) with 1. lia.
    + intros (k & gd & [-> ->]%single_group & E). discriminate E.
    + intros (k & gd & [-> ->]%single_group & Ht). change (inode_table toy_group) with 5 in Ht. lia.
  - intros k k' gd gd' [-> ->]%single_group [-> ->]%single_group. done.
Qed.

(** The tree of the small file system: the root directory. *)
Definition toy_tree : gmap Z (Inode * list (Z * list ent)) := {[ROOT_INODE := (toy_root, [(7, toy_root_entries)])]}.

Lemma toy_tree_ok : tree_ok 16 toy_fs toy_tree.
Proof.
  constructor.
  - by eexists.
  - unfold toy_tree. intros ino d [<- <-]%lookup_singleton_Some. constructor; cbn [fst snd].
    + vm_compute. split; discriminate.
    + vm_compute. reflexivity.
    + vm_compute. reflexivity.
    + exact toy_root_ok.
    + exact toy_directory.
    + intros p ->%list_elem_of_singleton. cbn [fst]. destruct (fi_used _ _ _ _ toy_root_file 7) as (_ & ? & ? & ?); [by left | done].
  - unfold toy_tree. intros a b d e p [<- _]%lookup_singleton_Some [<- _]%lookup_singleton_Some. done.
Qed.

Lemma toy_room : room [100] [(7, toy_root_entries)].
Proof. eexists 7, toy_root_entries, (mkEnt _ _). split; [by left|]. split; [by right; left | vm_compute; reflexivity]. Qed.

(** A directory [d] in the root: inode 12 and block 8. *)
Lemma ext2_create_correct_witness : exists fs', create [100] true toy_fs = Ok (true, fs') /\
  resolvePathToInode [100] fs' = Ok (12, fs') /\ resolvePathToInode [] fs' = Ok (2, fs') /\ block_used fs' 8 = true.
Proof.
  destruct (ext2_create_correct 16 toy_fs toy_tree [] [100] true 2 (toy_root, [(7, toy_root_entries)]) toy_fs_ok toy_maps toy_tree_ok) as
    [[E _]|[(fs' & n & E & _)|(fs' & n & p & v' & E & Hp & Hc)]].
  - constructor.
  - split_and!; [discriminate | decide_now | simpl; lia].
  - decide_now.
  - simpl. lia.
  - reflexivity.
  - vm_compute. reflexivity.
  - exact toy_room.
  - exfalso. vm_compute in E. discriminate E.
  - exfalso. vm_compute in E. discriminate E.
  - assert (Hr : match create [100] true toy_fs with
                 | Ok (_, fs) => match resolvePathToInode [100] fs with Ok (m, _) => m | _ => 0 end | _ => 0 end = 12) by (vm_compute; reflexivity).
    change (join ([] ++ [[100]])) with [100] in *. rewrite E in Hr. pose proof (cr_path _ _ _ _ _ _ _ _ _ _ _ _ Hc) as Epath.
    change (join ([] ++ [[100]])) with [100] in Epath.
    rewrite Epath in Hr. subst n. exists fs'. split; [exact E|]. split; [exact Epath|]. split; [reflexivity|].
    assert (Hu : match create [100] true toy_fs with Ok (_, fs) => block_used fs 8 | _ => false end = true) by (vm_compute; reflexivity).
    rewrite E in Hu. exact Hu.
Defined.

(** The small file system with a new file or directory [d] in the root. *)
Lemma toy_created isdir : exists fs1 n p v', create [100] isdir toy_fs = Ok (true, fs1) /\
  created 16 toy_fs toy_tree [] [100] 2 (toy_root, [(7, toy_root_entries)]) n (new_node isdir 1024 p) (if isdir then [p] else [])
    fs1 (tree_after toy_tree isdir 2 toy_root v' n 1024 p).
Proof.
  pose proof (create_ok 16 toy_fs toy_tree [] [100] isdir 2 (toy_root, [(7, toy_root_entries)]) toy_fs_ok toy_maps toy_tree_ok) as Hc.
  cbv zeta in Hc. rewrite bool_decide_eq_false_2 in Hc.
  - destruct Hc as [[E _]|[(fs' & n & E & _)|(fs' & n & p & v' & E & _ & Hcr)]].
    + constructor.
    + split_and!; [discriminate | decide_now | simpl; lia].
    + decide_now.
    + simpl. lia.
    + reflexivity.
    + vm_compute. reflexivity.
    + exact toy_room.
    + exfalso. destruct isdir; vm_compute in E; discriminate E.
    + exfalso. destruct isdir; vm_compute in E; discriminate E.
    + exists fs', n, p, v'. split; [exact E | exact Hcr].
  - cbn [snd]. rewrite toy_links. rewrite !not_elem_of_cons. split_and!; [discriminate | discriminate | apply not_elem_of_nil].
Qed.

(** The names of the root directory after [d] was added. *)
Lemma toy_added n ft T' : name_added toy_tree 2 [100] n ft T' -> exists d, T' = <[2 := d]> toy_tree /\
  NoDup (l_name <$> dir_links (snd d)) /\ lookup_links [100] (dir_links (snd d)) = n.
Proof.
  intros (d & d' & l1 & l2 & Hd & -> & El & El' & Hno). exists d'. unfold toy_tree in Hd. apply lookup_singleton_Some in Hd as [_ <-]. cbn [snd] in *.
  split; [done|]. rewrite El'. split.
  - rewrite fmap_app, fmap_cons. cbn [l_name]. rewrite <- Permutation_middle, <- fmap_app. rewrite El in Hno. constructor; [done|].
    rewrite <- El, toy_links. decide_now.
  - rewrite El in Hno. by rewrite lookup_insert_link, bool_decide_eq_true_2.
Qed.

Lemma ext2_unlink_correct_witness : exists fs1 fs2, create [100] false toy_fs = Ok (true, fs1) /\
  unlinkFile [100] fs1 = Ok (true, fs2) /\ resolvePathToInode [100] fs2 = Ok (0, fs2).
Proof.
  destruct (toy_created false) as (fs1 & n & p & v' & E & Hcr). destruct Hcr as [(Hok1 & Him1 & Hsh) HT1 (T1 & Hadd & Hsub) _ _ (Hv & _) Hst _ _ _ _ _].
  destruct (toy_added n _ T1 Hadd) as (d & -> & Hnd & Hl). cbn [tree_after new_node] in *.
  assert (Hd : tree_after toy_tree false 2 toy_root v' n 1024 p !! 2 = Some d) by (eapply lookup_weaken; [apply lookup_insert_eq | exact Hsub]).
  destruct (ext2_unlink_correct 16 fs1 (tree_after toy_tree false 2 toy_root v' n 1024 p) [] [100] 2 d Hok1 Him1 HT1) as [_ Hun].
  - constructor.
  - split_and!; [discriminate | decide_now | simpl; lia].
  - simpl. lia.
  - reflexivity.
  - exact Hd.
  - exact Hnd.
  - rewrite Hl in Hun. destruct (Hun (fresh_inode false)) as [_ Hun'].
    + by apply (shape_valid toy_fs).
    + exact Hst.
    + apply (new_node_ok false 1024 0); lia.
    + destruct (Hun' []) as (fs2 & v2 & Eu & Hul).
      * reflexivity.
      * by apply new_file_ok.
      * intros a e q _ _ Hq. by apply not_elem_of_nil in Hq.
      * exists fs1, fs2. split; [exact E|]. split; [exact Eu | apply Hul].
Defined.

Lemma unlink_undoes_create_witness : exists fs1 fs2, create [100] false toy_fs = Ok (true, fs1) /\
  unlinkFile [100] fs1 = Ok (true, fs2) /\ inode_used fs1 12 = true /\ inode_used fs2 12 = false /\ block_used fs2 7 = true.
Proof.
  destruct (toy_created false) as (fs1 & n & p & v' & E & _).
  destruct (unlink_undoes_create 16 toy_fs toy_tree [] [100] 2 (toy_root, [(7, toy_root_entries)]) fs1 toy_fs_ok toy_maps toy_tree_ok) as
    (m & fs2 & _ & _ & Eu & Hi & Hb & _).
  - constructor.
  - split_and!; [discriminate | decide_now | simpl; lia].
  - decide_now.
  - simpl. lia.
  - reflexivity.
  - vm_compute. reflexivity.
  - exact toy_room.
  - cbn [snd]. rewrite toy_links. decide_now.
  - exact E.
  - exists fs1, fs2. split; [exact E|]. split; [exact Eu|]. split.
    + assert (Hu : match create [100] false toy_fs with Ok (_, fs) => inode_used fs 12 | _ => false end = true) by (vm_compute; reflexivity).
      rewrite E in Hu. exact Hu.
    + split.
      * transitivity (inode_used toy_fs 12); [apply Hi; vm_compute; split; discriminate | vm_compute; reflexivity].
      * transitivity (block_used toy_fs 7); [apply Hb; vm_compute; split; [discriminate | reflexivity] | vm_compute; reflexivity].
Defined.

Lemma ext2_rmdir_correct_witness : exists fs1 fs2, create [100] true toy_fs = Ok (true, fs1) /\
  rmdirPath [100] fs1 = Ok (true, fs2) /\ resolvePathToInode [100] fs2 = Ok (0, fs2) /\ block_used fs1 8 = true /\ block_used fs2 8 = false.
Proof.
  destruct (toy_created true) as (fs1 & n & p & v' & E & Hcr). destruct Hcr as [(Hok1 & Him1 & Hsh) HT1 (T1 & Hadd & Hsub) Epath _ (Hv & Hfree) Hst _ _ _ Hbl _].
  assert (Hn : n = 12).
  { assert (Hr : match create [100] true toy_fs with
                 | Ok (_, fs) => match resolvePathToInode [100] fs with Ok (m, _) => m | _ => 0 end | _ => 0 end = 12) by (vm_compute; reflexivity).
    change (join ([] ++ [[100]])) with [100] in Epath. by rewrite E, Epath in Hr. }
  assert (Hp : block_used fs1 8 = true).
  { assert (Hu : match create [100] true toy_fs with Ok (_, fs) => block_used fs 8 | _ => false end = true) by (vm_compute; reflexivity).
    rewrite E in Hu. exact Hu. }
  assert (p = 8) as ->.
  { rewrite Hbl in Hp by (vm_compute; split; [discriminate | reflexivity]). apply orb_true_iff in Hp as [Hp|Hp]; [vm_compute in Hp; discriminate Hp|].
    apply bool_decide_eq_true in Hp. apply list_elem_of_singleton in Hp. done. }
  subst n. destruct (toy_added 12 _ T1 Hadd) as (d & -> & Hnd & Hl). set (e := (new_node true 1024 8, [(8, dot_entries 1024 12 2)])).
  set (T := tree_after toy_tree true 2 toy_root v' 12 1024 8) in *.
  assert (Hd : T !! 2 = Some d) by (eapply lookup_weaken; [apply lookup_insert_eq | exact Hsub]).
  assert (He : T !! 12 = Some e) by apply lookup_insert_eq.
  pose proof (ext2_rmdir_correct 16 fs1 T [] [100] 2 d e Hok1 Him1 HT1) as Hrm. cbv zeta in Hrm. rewrite Hl in Hrm.
  destruct Hrm as (fs2 & v2 & Er & Hul).
  - constructor.
  - split_and!; [discriminate | decide_now | simpl; lia].
  - simpl. lia.
  - exact Hd.
  - exact Hnd.
  - exact He.
  - discriminate.
  - discriminate.
  - reflexivity.
  - apply (new_directory_file 16 fs1 12 1024 8 (dot_entries 1024 12 2)); [exact Hok1 | lia | exact (tr_dirs _ _ _ HT1 12 e He)].
  - reflexivity.
  - exists fs1, fs2. split; [exact E|]. split; [exact Er|]. split; [exact (ul_path _ _ _ _ _ _ _ _ _ _ _ Hul)|]. split; [exact Hp|].
    rewrite (ul_blocks _ _ _ _ _ _ _ _ _ _ _ Hul) by (apply (shape_fs_block toy_fs fs1 8 Hsh); vm_compute; split; [discriminate | reflexivity]).
    rewrite Hp. reflexivity.
Defined.

(** A session: make a file and a directory, write across a block boundary in a
    file of the directory, read it back, list, and remove both again. *)
Definition session : FS (list Z) (list Z * Z * option (list Z * bool) * bool) :=
  _ ← create [102] false;
  _ ← create [100] true;
  _ ← create [100; 47; 103] false;
  p ← open [100; 47; 103];
  match p with
  | None => mret ([], 0, None, false)
  | Some p =>
      '(n, p) ← write p 1020 [1; 2; 3; 4; 5; 6; 7];
      '(_, data, p) ← read p 1018 100;
      e ← readdir [] 1;
      ok1 ← unlinkFile [100; 47; 103];
      ok2 ← rmdirPath [100];
      mret (data, n, e, ok1 && ok2)
  end.

Example session_result :
  match session toy_fs with
  | Ok (r, fs) => r = ([0; 0; 1; 2; 3; 4; 5; 6; 7], 7, Some ([100], true), true) /\
      sb_free_blocks (sb fs) = 8 /\ sb_free_inodes (sb fs) = 4
  | _ => False
  end.
Proof. vm_compute. split_and!; reflexivity. Qed.

(** The same with 32 blocks, room for a file that needs the block of pointers:
    block 20, between the twelve direct blocks 8 to 19 and block 21. *)
Definition wide_sb : Superblock :=
  mkSb 16 32 0 24 5 1 0 0 8192 8192 16 0 0 0 20 EXT2_MAGIC 1 1 0 0 0 0 1 0 0 11 128 0 0 0 0 (replicate 920 0).
Definition wide_group : GroupDesc := mkGroup 3 4 5 24 5 1 0 (replicate 12 0).
Definition wide_disk : list Z :=
  pad [] ++ pad (encode_sb wide_sb) ++ pad (encode_group wide_group) ++ drop 3072 toy_disk ++ concat (replicate 16 (pad [])).
Definition wide_fs : FsInstance (list Z) := mkFs wide_disk 512 wide_sb [wide_group] 1 1024 [].

Definition wide_session : FS (list Z) (Z * list Z * bool * Z) :=
  _ ← create [102] false;
  p ← open [102];
  match p with
  | None => mret (0, [], false, 0)
  | Some p =>
      '(n, p) ← write p 0 (replicate (Z.to_nat 12280) 1 ++ [2; 3] ++ replicate (Z.to_nat 1030) 4);
      '(_, data, p) ← read p 12278 12;
      ok ← unlinkFile [102];
      mret (n, data, ok, ind (p_inode p))
  end.

Example wide_result : match wide_session wide_fs with
  | Ok (r, fs) => r = (13312, [1; 1; 2; 3; 4; 4; 4; 4; 4; 4; 4; 4], true, 20) /\ sb_free_blocks (sb fs) = 24
  | _ => False end.
Proof. vm_compute. split; reflexivity. Qed.
