(* ===== verification/Ext2Driver.v ===== *)
(** The ext2 driver behind the virtual file system: the table [g_driver] of
    [src/src/fs/ext2/ext2.cpp].

    The driver's functions get a pointer to the mounted instance and handles
    whose [fs_private] points to the inode they keep.  [Ext2World] is what
    these pointers lead to, with the disks by device handle, which all the
    instances on a device share.  [kheap] are the answers of the next
    allocations and [fresh] is the address the next structure
    gets. *)

From Stdlib Require Import ZifyBool.
From S2P Require Import Prelude Bytes Vfs VfsProofs Ext2Layout Ext2 Ext2Proofs Ext2Files Ext2Alloc Ext2Dir Ext2DirOps Ext2Read Ext2Grow Ext2Write Ext2Tree Ext2Create Ext2Image.

Record Ext2World (D : Type) := mkExt2World {
  disks : gmap Z D;
  kheap : list bool;
  instances : gmap Z (Z * FsInstance D);
  privates : gmap Z PrivateData;
  fresh : Z;
}.
Arguments mkExt2World {D}.
Arguments disks {D}.
Arguments kheap {D}.
Arguments instances {D}.
Arguments privates {D}.
Arguments fresh {D}.

Section Driver.
Context {D : Type} `{BlockDev D} `{Uninit}.
Implicit Types w : Ext2World D.

(** Run an operation of the instance at [inst] on its disk. *)
Definition run_fs {A} (inst : Z) (m : FS D A) w : outcome (A * Ext2World D) :=
  match instances w !! inst with
  | None => Fault
  | Some (h, fs) =>
      match disks w !! h with
      | None => Fault
      | Some d =>
          '(a, fs) ← m (with_heap (with_dev fs d) (kheap w));
          mret (a, mkExt2World (<[h := dev fs]> (disks w)) (heap fs) (<[inst := (h, fs)]> (instances w)) (privates w) (fresh w))
      end
  end.

(** Dereferencing [fs_private]. *)
Definition get_private (p : Z) w : outcome PrivateData :=
  match privates w !! p with Some x => Ok x | None => Fault end.
Definition put_private (p : Z) (x : PrivateData) w : Ext2World D :=
  mkExt2World (disks w) (kheap w) (instances w) (<[p := x]> (privates w)) (fresh w).

(** The instance is new, at the address [fresh]; a failed mount leaves none. *)
Definition driver_mount (bd : BlockDevice) w : outcome (Z * Ext2World D) :=
  match disks w !! device_handle bd with
  | None => Fault
  | Some d =>
      unset ← decode_sb (junk 1024);
      '(ok, fs) ← Ext2Files.mount (mkFs d (Vfs.sector_size bd) unset [] 0 0 (kheap w));
      let ds := <[device_handle bd := dev fs]> (disks w) in
      mret (if (ok : bool)
            then (fresh w, mkExt2World ds (heap fs) (<[fresh w := (device_handle bd, fs)]> (instances w)) (privates w) (fresh w + 1))
            else (0, mkExt2World ds (heap fs) (instances w) (privates w) (fresh w)))
  end.

Definition driver_unmount (inst : Z) w : outcome (Ext2World D) :=
  mret (mkExt2World (disks w) (kheap w) (delete inst (instances w)) (privates w) (fresh w)).

Definition driver_open (inst : Z) (path : list Z) w : outcome (option FileHandle * Ext2World D) :=
  '(r, w) ← run_fs inst (Ext2Files.open path) w;
  mret (match r with
        | None => (None, w)
        | Some priv => (Some (mkHandle (fresh w) (size (p_inode priv)) (is_dir (p_inode priv))),
                        mkExt2World (disks w) (kheap w) (instances w) (<[fresh w := priv]> (privates w)) (fresh w + 1))
        end).

Definition driver_close (_ : Z) (h : FileHandle) w : outcome (Ext2World D) :=
  if fs_private h =? 0 then mret w else
  mret (mkExt2World (disks w) (kheap w) (instances w) (delete (fs_private h) (privates w)) (fresh w)).

Definition driver_read (inst : Z) (h : FileHandle) (off count : Z) w : outcome (Z * list Z * FileHandle * Ext2World D) :=
  priv ← get_private (fs_private h) w;
  '(n, data, priv, w) ← run_fs inst (Ext2Files.read priv off count) w;
  mret (n, data, h, put_private (fs_private h) priv w).

(** The handle's size follows the size of the inode when the file grows. *)
Definition driver_write (inst : Z) (h : FileHandle) (off : Z) (buf : list Z) w : outcome (Z * FileHandle * Ext2World D) :=
  priv ← get_private (fs_private h) w;
  '(n, priv', w) ← run_fs inst (Ext2Files.write priv off buf) w;
  let sz := if (0 <=? n) && (size (p_inode priv) <? u64 (off + n)) then size (p_inode priv') else fsize h in
  mret (n, mkHandle (fs_private h) sz (is_directory h), put_private (fs_private h) priv' w).

Definition driver_readdir (inst : Z) (path : list Z) (index : Z) w : outcome (option DirEntry * Ext2World D) :=
  '(r, w) ← run_fs inst (Ext2Files.readdir path index) w;
  mret (match r with Some (name, dir) => Some (mkEntry name dir) | None => None end, w).

Definition g_driver : FilesystemDriver (Ext2World D) :=
  mkDriver [101; 120; 116; 50] driver_mount driver_unmount driver_open driver_close driver_read driver_write
    (fun inst path => run_fs inst (Ext2Files.isDirectory path)) driver_readdir
    (fun inst path dir => run_fs inst (Ext2Files.create path dir))
    (fun inst path => run_fs inst (Ext2Files.unlinkFile path)) (fun inst path => run_fs inst (Ext2Files.rmdirPath path)).

End Driver.

Section DriverProofs.
Context {D : Type} `{BlockDevLaws D} `{UninitLaws}.
Implicit Types w : Ext2World D.

(** The instance at [inst] is [fs], and its disk and heap are those of the world. *)
Definition instance_at w (inst : Z) (fs : FsInstance D) : Prop :=
  exists h, instances w !! inst = Some (h, fs) /\ disks w !! h = Some (dev fs) /\ kheap w = heap fs.

(** An operation that leaves the file system as it is leaves the world as it is. *)
Lemma run_fs_same {A} (m : FS D A) w inst fs a : instance_at w inst fs -> m fs = Ok (a, fs) -> run_fs inst m w = Ok (a, w).
Proof.
  intros (h & Hi & Hd & Hk) Hm. unfold run_fs. rewrite Hi, Hd, Hk.
  assert (with_heap (with_dev fs (dev fs)) (heap fs) = fs) as -> by (by destruct fs). run_call Hm.
  rewrite !insert_id by done. rewrite <- Hk. by destruct w.
Qed.

(** An operation of the instance. *)
Lemma run_fs_step {A} (m : FS D A) w inst fs a fs' : instance_at w inst fs -> m fs = Ok (a, fs') ->
  exists w', run_fs inst m w = Ok (a, w') /\ instance_at w' inst fs' /\ privates w' = privates w.
Proof.
  intros (h & Hi & Hd & Hk) Hm. unfold run_fs. rewrite Hi, Hd, Hk.
  assert (with_heap (with_dev fs (dev fs)) (heap fs) = fs) as -> by (by destruct fs). run_call Hm.
  eexists. split; [reflexivity|]. split; [|done]. exists h. cbn. by rewrite !lookup_insert_eq.
Qed.

(** The driver keeps the contract of the virtual file system: reading an open
    file returns slices of its content and changes nothing. *)
Lemma driver_reads_slices nb w inst fs h priv ps : instance_at w inst fs -> geometry nb fs ->
  privates w !! fs_private h = Some priv -> mapped_file nb fs (p_inode priv) ps ->
  reads_slices g_driver inst h w (file_content fs (p_inode priv) ps).
Proof.
  intros Hi Hg Hp Hf off count Ho Hc data. cbn [drv_read g_driver]. unfold driver_read, get_private. rewrite Hp.
  cbn [mbind outcome_bind]. destruct priv as [ino i]. cbn [p_inode] in *.
  assert (E1 := ext2_read_ok nb fs i ps ino off count Hg Hf ltac:(lia) ltac:(lia) ltac:(lia)). cbv zeta in E1. fold data in E1.
  rewrite (run_fs_same _ w inst fs _ Hi E1). cbn [mbind outcome_bind mret outcome_ret]. do 2 f_equal.
  unfold put_private. rewrite insert_id by done. by destruct w.
Qed.

(** Opening a path that leads to an inode: a handle on it, at a new address. *)
Lemma driver_open_ok nb w inst fs sub ino i : instance_at w inst fs -> geometry nb fs ->
  resolvePathToInode sub fs = Ok (ino, fs) -> ino <> 0 -> readInode ino (junk 128) fs = Ok (Some i, fs) ->
  driver_open inst sub w = Ok (Some (mkHandle (fresh w) (size i) (is_dir i)),
    mkExt2World (disks w) (kheap w) (instances w) (<[fresh w := mkPriv ino i]> (privates w)) (fresh w + 1)).
Proof.
  intros Hi Hg Hr Hino Hri. unfold driver_open.
  assert (E1 : Ext2Files.open sub fs = Ok (Some (mkPriv ino i), fs)).
  { unfold Ext2Files.open. step Hr. rewrite (proj2 (Z.eqb_neq ino 0) Hino). step (kmalloc_ok nb fs 128 Hg).
    change (Z.to_nat 128) with 128%nat. step Hri. by step (kmalloc_ok nb fs 132 Hg). }
  by rewrite (run_fs_same _ w inst fs _ Hi E1).
Qed.

(** C17. The virtual file system over the ext2 driver: opening a path below
    the mount point that leads to an inode whose blocks are mapped, and reading
    it twice, returns consecutive bytes of the blocks of that inode on the disk,
    cut at the size of the inode, and changes no byte of the disk. *)
Theorem vfs_reads_ext2_file nb (v : Vfs (Ext2World D)) path mi sub m fs ino i ps fd c1 c2 :
  vfs_wf v -> resolvePath path 128 v = Some (mi, sub) -> g_mounts v !! mi = Some m -> driver m = g_driver ->
  first_slot (fun f => negb (f_in_use f)) (g_open_files v) 0 = Some fd ->
  instance_at (world v) (fs_instance m) fs -> geometry nb fs ->
  resolvePathToInode sub fs = Ok (ino, fs) -> ino <> 0 -> readInode ino (junk 128) fs = Ok (Some i, fs) ->
  mapped_file nb fs i ps -> 0 <= c1 < 2 ^ 63 -> 0 <= c2 < 2 ^ 63 ->
  exists v1 v2 v3 d1 d2, Vfs.open path v = Ok (Z.of_nat fd, v1) /\
    Vfs.read (Z.of_nat fd) c1 v1 = Ok (Z.of_nat (length d1), d1, v2) /\
    Vfs.read (Z.of_nat fd) c2 v2 = Ok (Z.of_nat (length d2), d2, v3) /\
    d1 ++ d2 = take (Z.to_nat (c1 + c2)) (file_content fs i ps) /\
    instance_at (world v3) (fs_instance m) fs /\ disks (world v3) = disks (world v).
Proof.
  intros Hwf Hr Hm Hdrv Hslot Hi Hg Hrp Hino Hri Hf Hc1 Hc2.
  pose proof (driver_open_ok nb (world v) _ fs sub ino i Hi Hg Hrp Hino Hri) as Eo.
  assert (Eo' : drv_open (driver m) (fs_instance m) sub (world v) = _) by (rewrite Hdrv; exact Eo).
  destruct (open_ok path v mi sub m _ _ fd Hwf Hr Hm Eo' Hslot) as (v1 & E1 & Hwf1 & Ew1 & Em1 & _ & _ & Hg1).
  assert (Hi1 : instance_at (world v1) (fs_instance m) fs) by (rewrite Ew1; exact Hi).
  assert (Hsl : reads_slices (driver m) (fs_instance m) (mkHandle (fresh (world v)) (size i) (is_dir i)) (world v1) (file_content fs i ps)).
  { rewrite Hdrv. apply (driver_reads_slices nb _ _ fs _ (mkPriv ino i) ps Hi1 Hg); [|done]. rewrite Ew1. apply lookup_insert_eq. }
  pose proof (length_file_content nb fs i ps Hg Hf) as Hlen. pose proof (mf_size _ _ _ _ Hf) as Hsz.
  destruct (mapped_small nb fs i ps Hg Hf) as [_ Hsmall].
  pose proof (Hg1 (Z.of_nat fd)) as Hf1. rewrite Z.eqb_refl in Hf1. rewrite <- Em1 in Hm.
  destruct (read_ok (Z.of_nat fd) c1 v1 _ m _ Hwf1 Hf1 Hm Hsl) as (v2 & E2 & Hwf2 & Ew2 & Em2 & Hg2); [simpl; lia | done | simpl; lia |].
  cbn [f_offset f_mount f_handle] in *. change (Z.to_nat 0) with 0%nat in *. rewrite drop_0 in *.
  set (d1 := take (Z.to_nat c1) (file_content fs i ps)) in *.
  assert (Hd1 : (length d1 <= length (file_content fs i ps))%nat) by (subst d1; rewrite length_take; lia).
  pose proof (Hg2 (Z.of_nat fd)) as Hf2. rewrite Z.eqb_refl in Hf2. rewrite <- Em2 in Hm. rewrite <- Ew2 in Hsl.
  destruct (read_ok (Z.of_nat fd) c2 v2 _ m _ Hwf2 Hf2 Hm Hsl) as (v3 & E3 & Hwf3 & Ew3 & Em3 & Hg3); [simpl; lia | done | simpl; lia |].
  cbn [f_offset f_mount f_handle] in *. rewrite Z.add_0_l, Nat2Z.id in *.
  eexists v1, v2, v3, d1, _. split; [done|]. split; [done|]. split; [done|].
  split; [rewrite Z2Nat.inj_add by lia; apply (slices_app (file_content fs i ps) 0)|].
  rewrite Ew3, Ew2, Ew1. done.
Qed.

Lemma driver_write_ok nb w inst fs h ino i ps off src : instance_at w inst fs -> fs_ok nb fs -> file_ok nb fs i ps ->
  privates w !! fs_private h = Some (mkPriv ino i) -> fsize h = size i ->
  0 <= size i <= Z.of_nat (length ps) * block_size fs -> valid_inode fs ino -> bytes_ok src ->
  0 <= off <= size i -> off + Z.of_nat (length src) <= max_bytes fs ->
  exists n fs' i' ps' w', driver_write inst h off src w = Ok (Z.of_nat n, mkHandle (fs_private h) (size i') (is_directory h), w') /\
    written nb fs ino i ps off src n fs' i' ps' /\ instance_at w' inst fs' /\ privates w' !! fs_private h = Some (mkPriv ino i').
Proof.
  intros Hi Hok Hf Hp Hfs Hs Hv Hsrc Hoff Hend. pose proof (max_bytes_small nb fs (fo_geometry nb fs Hok)) as Hmax.
  destruct (ext2_write_ok nb fs ino i ps off src Hok Hf Hs Hv Hsrc Hoff Hend) as (n & fs' & i' & ps' & Ew & Hwr & _).
  pose proof (wr_count _ _ _ _ _ _ _ _ _ _ _ Hwr) as [Hn _]. pose proof (wr_size _ _ _ _ _ _ _ _ _ _ _ Hwr) as Esz.
  destruct (run_fs_step _ w inst fs _ fs' Hi Ew) as (w' & Er & Hi' & Epriv).
  exists n, fs', i', ps', (put_private (fs_private h) (mkPriv ino i') w'). split; [|split; [done|split]].
  - unfold driver_write, get_private. rewrite Hp. cbn [mbind outcome_bind]. rewrite Er. cbn [mbind outcome_bind p_inode mret outcome_ret].
    rewrite u64_small by lia. do 4 f_equal. rewrite (proj2 (Z.leb_le 0 (Z.of_nat n))) by lia.
    cbn [andb]. destruct (Z.ltb_spec (size i) (off + Z.of_nat n)); [done | lia].
  - done.
  - cbn. apply lookup_insert_eq.
Qed.

Lemma vfs_write_ok nb (v : Vfs (Ext2World D)) path mi sub m fs ino i ps fd off src :
  vfs_wf v -> resolvePath path 128 v = Some (mi, sub) -> g_mounts v !! mi = Some m -> driver m = g_driver ->
  first_slot (fun f => negb (f_in_use f)) (g_open_files v) 0 = Some fd ->
  instance_at (world v) (fs_instance m) fs -> fs_ok nb fs -> file_ok nb fs i ps ->
  resolvePathToInode sub fs = Ok (ino, fs) -> valid_inode fs ino -> readInode ino (junk 128) fs = Ok (Some i, fs) ->
  0 <= size i <= Z.of_nat (length ps) * block_size fs -> bytes_ok src ->
  0 <= off <= size i -> off + Z.of_nat (length src) <= max_bytes fs ->
  exists v1 v2 v3 v4 v5 n fs' i' ps', Vfs.open path v = Ok (Z.of_nat fd, v1) /\
    Vfs.seek (Z.of_nat fd) off SeekSet v1 = (off, v2) /\ Vfs.write (Z.of_nat fd) src v2 = Ok (Z.of_nat n, v3) /\
    Vfs.seek (Z.of_nat fd) 0 SeekSet v3 = (0, v4) /\
    (let c := file_content fs i ps in
     let c' := take (Z.to_nat off) c ++ take n src ++ drop (Z.to_nat off + n) c in
     Vfs.read (Z.of_nat fd) (size i') v4 = Ok (size i', c', v5)) /\
    written nb fs ino i ps off src n fs' i' ps' /\ instance_at (world v5) (fs_instance m) fs'.
Proof.
  intros Hwf Hr Hm Hdrv Hslot Hi Hok Hf Hrp Hv Hri Hs Hsrc Hoff Hend. pose proof (fo_geometry nb fs Hok) as Hg.
  pose proof (max_bytes_small nb fs Hg) as Hmax. assert (Hino : ino <> 0) by (unfold valid_inode in Hv; lia).
  pose proof (driver_open_ok nb (world v) _ fs sub ino i Hi Hg Hrp Hino Hri) as Eo.
  assert (Eo' : drv_open (driver m) (fs_instance m) sub (world v) = _) by (rewrite Hdrv; exact Eo).
  destruct (open_ok path v mi sub m _ _ fd Hwf Hr Hm Eo' Hslot) as (v1 & E1 & Hwf1 & Ew1 & Em1 & _ & _ & Hg1).
  assert (Hi1 : instance_at (world v1) (fs_instance m) fs) by (rewrite Ew1; exact Hi).
  destruct (mapped_small nb fs i ps Hg (mapped_of_file nb fs i ps Hok Hf Hs)) as [_ Hsmall].
  pose proof (Hg1 (Z.of_nat fd)) as Hf1. rewrite Z.eqb_refl in Hf1.
  destruct (seek_set_ok (Z.of_nat fd) off v1 _ Hwf1 Hf1 ltac:(lia)) as (v2 & E2 & Hwf2 & Ew2 & Em2 & Hg2).
  pose proof (Hg2 (Z.of_nat fd)) as Hf2. rewrite Z.eqb_refl in Hf2. cbn [f_mount f_handle] in Hf2.
  set (h := mkHandle (fresh (world v)) (size i) (is_dir i)) in *.
  destruct (driver_write_ok nb (world v2) (fs_instance m) fs h ino i ps off src) as (n & fs' & i' & ps' & w' & Edw & Hwr & Hi' & Hp');
    try done; [by rewrite Ew2 | rewrite Ew2, Ew1; apply lookup_insert_eq |].
  pose proof (wr_count _ _ _ _ _ _ _ _ _ _ _ Hwr) as [Hn _]. pose proof (wr_ok _ _ _ _ _ _ _ _ _ _ _ Hwr) as (Hok' & Hf' & Hs').
  assert (Hm2 : g_mounts v2 !! mi = Some m) by (by rewrite Em2, Em1).
  set (h' := mkHandle (fs_private h) (size i') (is_directory h)) in *.
  destruct (write_ok (Z.of_nat fd) src v2 _ m (Z.of_nat n) h' w' Hwf2 Hf2 Hm2) as (v3 & E3 & Hwf3 & Ew3 & Em3 & Hg3);
    cbn [f_offset f_handle]; [rewrite Hdrv; exact Edw | lia | lia | lia |].
  pose proof (Hg3 (Z.of_nat fd)) as Hf3. rewrite Z.eqb_refl in Hf3. cbn [f_mount f_handle f_offset] in Hf3.
  destruct (seek_set_ok (Z.of_nat fd) 0 v3 _ Hwf3 Hf3 ltac:(lia)) as (v4 & E4 & Hwf4 & Ew4 & Em4 & Hg4).
  pose proof (Hg4 (Z.of_nat fd)) as Hf4. rewrite Z.eqb_refl in Hf4. cbn [f_mount f_handle f_offset] in Hf4.
  pose proof (mapped_of_file nb fs' i' ps' Hok' Hf' Hs') as Hmf. destruct (mapped_small nb fs' i' ps' (fo_geometry _ _ Hok') Hmf) as [_ Hsmall'].
  pose proof (length_file_content nb fs' i' ps' (fo_geometry _ _ Hok') Hmf) as Hlc.
  assert (Hsl : reads_slices (driver m) (fs_instance m) h' (world v4) (file_content fs' i' ps')).
  { rewrite Hdrv, Ew4, Ew3. apply (driver_reads_slices nb _ _ fs' _ (mkPriv ino i') ps' Hi' (fo_geometry _ _ Hok')); done. }
  assert (Hm4 : g_mounts v4 !! mi = Some m) by (by rewrite Em4, Em3).
  destruct (read_ok (Z.of_nat fd) (size i') v4 _ m _ Hwf4 Hf4 Hm4 Hsl) as (v5 & E5 & _ & Ew5 & _); [simpl; lia | lia | simpl; lia |].
  exists v1, v2, v3, v4, v5, n, fs', i', ps'. split_and!; try done; [|by rewrite Ew5, Ew4, Ew3].
  cbv zeta. rewrite <- (wr_content _ _ _ _ _ _ _ _ _ _ _ Hwr). cbn [f_offset] in E5. change (Z.to_nat 0) with 0%nat in E5.
  rewrite drop_0, take_ge in E5 by lia. by rewrite Hlc in E5.
Qed.

(** C18. The virtual file system over the ext2 driver, writing: opening a path
    below the mount point that leads to a well-formed file, seeking to an offset
    within it and writing stores the data there (all of it unless the disk is
    full); a read from the start then returns the old bytes before the offset,
    the data, and the old bytes behind it.  Nothing else on the disk changes. *)
Theorem vfs_writes_ext2_file nb (v : Vfs (Ext2World D)) path mi sub m fs ino i ps fd off src :
  vfs_wf v -> resolvePath path 128 v = Some (mi, sub) -> g_mounts v !! mi = Some m -> driver m = g_driver ->
  first_slot (fun f => negb (f_in_use f)) (g_open_files v) 0 = Some fd ->
  instance_at (world v) (fs_instance m) fs -> fs_ok nb fs -> file_ok nb fs i ps ->
  resolvePathToInode sub fs = Ok (ino, fs) -> valid_inode fs ino -> readInode ino (junk 128) fs = Ok (Some i, fs) ->
  0 <= size i <= Z.of_nat (length ps) * block_size fs -> bytes_ok src ->
  0 <= off <= size i -> off + Z.of_nat (length src) <= max_bytes fs ->
  exists v1 v2 v3 v4 v5 n fs' i' ps', Vfs.open path v = Ok (Z.of_nat fd, v1) /\
    Vfs.seek (Z.of_nat fd) off SeekSet v1 = (off, v2) /\ Vfs.write (Z.of_nat fd) src v2 = Ok (Z.of_nat n, v3) /\
    Vfs.seek (Z.of_nat fd) 0 SeekSet v3 = (0, v4) /\
    (let c := file_content fs i ps in
     let c' := take (Z.to_nat off) c ++ take n src ++ drop (Z.to_nat off + n) c in
     Vfs.read (Z.of_nat fd) (size i') v4 = Ok (size i', c', v5)) /\
    written nb fs ino i ps off src n fs' i' ps' /\ instance_at (world v5) (fs_instance m) fs'.
Proof. apply vfs_write_ok. Qed.

(** C19. Making a file through the virtual file system and writing it: when the
    path leads to a new name in a directory of the ext2 tree, [create] fails
    without a change because no inode is free, or it returns true; then the file
    can be opened, what is written to it is read back, all of it unless the disk
    is full, and every inode but the new one and the directory's is as before. *)
Theorem vfs_creates_ext2_file nb (v : Vfs (Ext2World D)) path mi m fs T cs name pino d fd src :
  vfs_wf v -> resolvePath path 128 v = Some (mi, join (cs ++ [name])) -> g_mounts v !! mi = Some m -> driver m = g_driver ->
  first_slot (fun f => negb (f_in_use f)) (g_open_files v) 0 = Some fd ->
  instance_at (world v) (fs_instance m) fs -> fs_ok nb fs -> inode_maps nb fs -> tree_ok nb fs T ->
  Forall component cs -> component name -> bytes_ok name -> (length (join cs) < 128)%nat ->
  lookup_path T cs ROOT_INODE = Some pino -> T !! pino = Some d -> room name (snd d) -> name ∉ l_name <$> dir_links (snd d) ->
  bytes_ok src -> Z.of_nat (length src) <= max_bytes fs ->
  (exists v', Vfs.create path false v = Ok (false, v') /\ instance_at (world v') (fs_instance m) fs /\
     forall g, 0 <= g < group_count fs -> inodes_full fs g) \/
  exists v0 v1 v2 v3 v4 v5 n ino fs', Vfs.create path false v = Ok (true, v0) /\ Vfs.open path v0 = Ok (Z.of_nat fd, v1) /\
    Vfs.seek (Z.of_nat fd) 0 SeekSet v1 = (0, v2) /\ Vfs.write (Z.of_nat fd) src v2 = Ok (Z.of_nat n, v3) /\
    Vfs.seek (Z.of_nat fd) 0 SeekSet v3 = (0, v4) /\ Vfs.read (Z.of_nat fd) (Z.of_nat n) v4 = Ok (Z.of_nat n, take n src, v5) /\
    instance_at (world v5) (fs_instance m) fs' /\ (n = length src \/ disk_full fs') /\ inode_used fs ino = false /\
    forall k, valid_inode fs k -> k <> ino -> k <> pino -> inode_bytes fs' k = inode_bytes fs k.
Proof.
  intros Hwf Hr Hm Hdrv Hslot Hi Hok Him HT Hcs Hc Hcb Hlen Hpath Hd Hroom Hno Hsrc Hmax.
  assert (Hcreate : forall b fs', Ext2Files.create (join (cs ++ [name])) false fs = Ok (b, fs') ->
    exists w, Vfs.create path false v = Ok (b, with_world v w) /\ instance_at w (fs_instance m) fs').
  { intros b fs' E. destruct (run_fs_step _ (world v) _ fs _ fs' Hi E) as (w & Er & Hi' & _). exists w. split; [|done].
    apply (on_path_ok path false _ v mi _ m b w Hr Hm). rewrite Hdrv. exact Er. }
  pose proof (create_ok nb fs T cs name false pino d Hok Him HT Hcs Hc Hcb Hlen Hpath Hd Hroom) as Hres. cbv zeta in Hres.
  rewrite bool_decide_eq_false_2 in Hres by done. destruct Hres as [[E Hfull]|[(? & ? & _ & ? & _)|(fs1 & ino & p & v' & E & _ & Hcr)]]; [|done|].
  - left. destruct (Hcreate _ _ E) as (w & Ec & Hi'). by exists (with_world v w).
  - right. destruct (Hcreate _ _ E) as (w & Ec & Hi1). destruct Hcr as [(Hok1 & _ & Hsh) _ _ Epath _ (Hv & Hfree) _ Einode _ Hothers _ _].
    assert (Hmax1 : max_bytes fs1 = max_bytes fs) by (unfold max_bytes; by rewrite (ss_block_size _ _ Hsh)).
    destruct (vfs_write_ok nb (with_world v w) path mi (join (cs ++ [name])) m fs1 ino (fresh_inode false) [] fd 0 src) as
      (v1 & v2 & v3 & v4 & v5 & n & fs2 & i' & ps' & E1 & E2 & E3 & E4 & E5 & Hwr & Hi5); try done;
      [by apply new_file_ok | by apply (shape_valid fs) | by rewrite Hmax1 |].
    pose proof (wr_size _ _ _ _ _ _ _ _ _ _ _ Hwr) as Esz. change (size (fresh_inode false)) with 0 in Esz. rewrite Z.max_r, Z.add_0_l in Esz by lia.
    cbv zeta in E5. change (file_content fs1 (fresh_inode false) []) with (@nil Z) in E5. rewrite Esz, take_nil, drop_nil, app_nil_r in E5.
    exists (with_world v w), v1, v2, v3, v4, v5, n, ino, fs2. split_and!; try done; [apply (wr_count _ _ _ _ _ _ _ _ _ _ _ Hwr)|].
    intros k Hk Hki Hkp. rewrite (wr_inodes _ _ _ _ _ _ _ _ _ _ _ Hwr), Hothers; try done. by apply (shape_valid fs).
Qed.

End DriverProofs.

(** ** Witness *)

(** The small file system, mounted at ["/mnt"]; the root directory is read. *)
Definition ext2_mount : Mount (Ext2World (list Z)) := mkMount true mnt [97] 0 g_driver 5.
Definition no_mount : Mount (Ext2World (list Z)) := mkMount false [] [] 0 g_driver 0.
Definition ext2_vfs : Vfs (Ext2World (list Z)) :=
  mkVfs [] (ext2_mount :: replicate 7 no_mount) (replicate 32 (mkOpen false 0 toy_handle 0))
    (mkExt2World {[1 := toy_disk]} [] {[5 := (1, toy_fs)]} ∅ 100).

Lemma vfs_reads_ext2_file_witness : exists v1 v2 v3 d1 d2, Vfs.open mnt ext2_vfs = Ok (0, v1) /\
  Vfs.read 0 4 v1 = Ok (Z.of_nat (length d1), d1, v2) /\ Vfs.read 0 2000 v2 = Ok (Z.of_nat (length d2), d2, v3) /\
  d1 ++ d2 = block_of toy_root_entries.
Proof.
  destruct (vfs_reads_ext2_file 16 ext2_vfs mnt 0 [] ext2_mount toy_fs 2 toy_root [7] 0 4 2000) as
    (v1 & v2 & v3 & d1 & d2 & E1 & E2 & E3 & Ed & _).
  - split; reflexivity.
  - reflexivity.
  - reflexivity.
  - reflexivity.
  - reflexivity.
  - exists 1. split; [reflexivity|]. split; reflexivity.
  - exact toy_geometry.
  - vm_compute. reflexivity.
  - discriminate.
  - vm_compute. reflexivity.
  - exact toy_mapped.
  - lia.
  - lia.
  - exists v1, v2, v3, d1, d2. split; [exact E1|]. split; [exact E2|]. split; [exact E3|]. rewrite Ed. vm_compute. reflexivity.
Defined.

(** Seven bytes at offset 1020, across the end of the block. *)
Lemma vfs_writes_ext2_file_witness : exists v1 v2 v3 v4 v5 c, Vfs.open mnt ext2_vfs = Ok (0, v1) /\
  Vfs.seek 0 1020 SeekSet v1 = (1020, v2) /\ Vfs.write 0 [1; 2; 3; 4; 5; 6; 7] v2 = Ok (7, v3) /\
  Vfs.seek 0 0 SeekSet v3 = (0, v4) /\ Vfs.read 0 1027 v4 = Ok (1027, c, v5) /\
  c = take 1020 (block_of toy_root_entries) ++ [1; 2; 3; 4; 5; 6; 7].
Proof.
  destruct (vfs_writes_ext2_file 16 ext2_vfs mnt 0 [] ext2_mount toy_fs 2 toy_root [7] 0 1020 [1; 2; 3; 4; 5; 6; 7]) as
    (v1 & v2 & v3 & v4 & v5 & n & fs' & i' & ps' & E1 & E2 & E3 & E4 & E5 & Hwr & _).
  - split; reflexivity.
  - reflexivity.
  - reflexivity.
  - reflexivity.
  - reflexivity.
  - exists 1. split; [reflexivity|]. split; reflexivity.
  - exact toy_fs_ok.
  - exact toy_root_file.
  - vm_compute. reflexivity.
  - vm_compute. split; discriminate.
  - vm_compute. reflexivity.
  - vm_compute. split; discriminate.
  - decide_now.
  - vm_compute. split; discriminate.
  - vm_compute. discriminate.
  - assert (Hn : n = 7%nat).
    { assert (Hv : match Vfs.open mnt ext2_vfs with
                   | Ok (_, a) => match Vfs.write 0 [1; 2; 3; 4; 5; 6; 7] (snd (Vfs.seek 0 1020 SeekSet a)) with Ok (m, _) => m | _ => 0 end
                   | _ => 0 end = 7) by (vm_compute; reflexivity).
      rewrite E1 in Hv. change (Z.of_nat 0) with 0 in E2, E3. rewrite E2 in Hv. cbn [snd] in Hv. rewrite E3 in Hv. lia. }
    subst n. pose proof (wr_size _ _ _ _ _ _ _ _ _ _ _ Hwr) as Esz. change (size i' = 1027) in Esz. cbv zeta in E5. rewrite Esz in E5.
    eexists v1, v2, v3, v4, v5, _. split; [exact E1|]. split; [exact E2|]. split; [exact E3|]. split; [exact E4|]. split; [exact E5|].
    vm_compute. reflexivity.
Defined.

(** The file ["/mnt/d"] with three bytes. *)
Lemma vfs_creates_ext2_file_witness : exists v0 v1 v2 v3 v4 v5, Vfs.create (mnt ++ [47; 100]) false ext2_vfs = Ok (true, v0) /\
  Vfs.open (mnt ++ [47; 100]) v0 = Ok (0, v1) /\ Vfs.seek 0 0 SeekSet v1 = (0, v2) /\ Vfs.write 0 [1; 2; 3] v2 = Ok (3, v3) /\
  Vfs.seek 0 0 SeekSet v3 = (0, v4) /\ Vfs.read 0 3 v4 = Ok (3, [1; 2; 3], v5).
Proof.
  destruct (vfs_creates_ext2_file 16 ext2_vfs (mnt ++ [47; 100]) 0 ext2_mount toy_fs toy_tree [] [100] 2 (toy_root, [(7, toy_root_entries)]) 0
    [1; 2; 3]) as [(v' & E & _)|(v0 & v1 & v2 & v3 & v4 & v5 & n & ino & fs' & E0 & E1 & E2 & E3 & E4 & E5 & _)].
  - split; reflexivity.
  - vm_compute. reflexivity.
  - reflexivity.
  - reflexivity.
  - reflexivity.
  - exists 1. split; [reflexivity|]. split; reflexivity.
  - exact toy_fs_ok.
  - exact toy_maps.
  - exact toy_tree_ok.
  - constructor.
  - split_and!; [discriminate | decide_now | simpl; lia].
  - decide_now.
  - simpl. lia.
  - reflexivity.
  - vm_compute. reflexivity.
  - exact toy_room.
  - cbn [snd]. rewrite toy_links. rewrite !not_elem_of_cons. split_and!; [discriminate | discriminate | apply not_elem_of_nil].
  - decide_now.
  - vm_compute. discriminate.
  - exfalso. assert (Hb : match Vfs.create (mnt ++ [47; 100]) false ext2_vfs with Ok (b, _) => b | _ => false end = true)
      by (vm_compute; reflexivity). rewrite E in Hb. discriminate Hb.
  - assert (Hn : n = 3%nat).
    { assert (Hv : match Vfs.create (mnt ++ [47; 100]) false ext2_vfs with
                   | Ok (_, a) => match Vfs.open (mnt ++ [47; 100]) a with
                     | Ok (_, b) => match Vfs.write 0 [1; 2; 3] (snd (Vfs.seek 0 0 SeekSet b)) with Ok (k, _) => k | _ => 0 end | _ => 0 end
                   | _ => 0 end = 3) by (vm_compute; reflexivity).
      rewrite E0, E1 in Hv. change (Z.of_nat 0) with 0 in E2, E3. rewrite E2 in Hv. cbn [snd] in Hv. rewrite E3 in Hv. lia. }
    subst n. exists v0, v1, v2, v3, v4, v5. split; [exact E0|]. split; [exact E1|]. split; [exact E2|]. split; [exact E3|]. split; [exact E4 | exact E5].
Defined.
