(* ===== verification/Io.v ===== *)
(** Port input and output, [src/src/arch/x86_64/io.h].

    The instructions [in] and [out] reach devices outside the program, so a
    device is a parameter: a type of states with the effect of every port
    access.  Drivers are verified for any device, or for one that satisfies
    the behaviour its data sheet documents.  [PortLog] is a device that
    records the accesses. *)

From S2P Require Import Prelude.

Class PortIO (P : Type) := {
  inb : Z -> P -> Z * P;
  outb : Z -> Z -> P -> P;
  inw : Z -> P -> Z * P;
  outw : Z -> Z -> P -> P;
  inl : Z -> P -> Z * P;
  outl : Z -> Z -> P -> P;
}.

Definition io_wait {P} `{PortIO P} (p : P) : P := outb 0x80 0 p.

(** ** A device that answers from a script and logs what is written *)

Record PortLog := mkLog { written : list (Z * Z); answers : list Z }.

Definition log_in (_ : Z) (l : PortLog) : Z * PortLog :=
  match answers l with
  | [] => (0, l)
  | a :: rest => (a, mkLog (written l) rest)
  end.

Definition log_out (port v : Z) (l : PortLog) : PortLog := mkLog (written l ++ [(port, v)]) (answers l).

#[export] Instance port_log : PortIO PortLog := 
  { inb := log_in; outb := log_out; inw := log_in; outw := log_out; inl := log_in; outl := log_out }.
