(* ===== verification/Format.v ===== *)
(** Numbers as text: the digits that [Terminal::writeDec] and [writeHex], and
    [Serial::writeDec] and [writeHex], print, and that the parsers of the C
    library read back. *)

From Stdlib Require Import ZifyBool.
From Stdlib Require Strings.String Strings.Ascii.
From S2P Require Import Prelude Libc.
Export Stdlib.Strings.String.StringSyntax.

(** A string literal is the list of its character codes; the terminating zero
    is left out, [deref] supplies it. *)
Definition chars (s : String.string) : list Z :=
  map (fun c => Z.of_N (Ascii.N_of_ascii c)) (String.list_ascii_of_string s).
Arguments chars s%_string_scope.

(** [while (value > 0) { digits[count++] = '0' + value % 10; value /= 10; }]
    with [char digits[20]]; the list has the digit stored last first, which is
    the order in which they are printed. *)
Fixpoint dec_loop (fuel : nat) (value : Z) (digits : list Z) : outcome (list Z) :=
  match fuel with
  | O => Halt
  | S fuel' =>
      if value =? 0 then mret digits else
      if (20 <=? length digits)%nat then Fault
      else dec_loop fuel' (value / 10) (48 + value mod 10 :: digits)
  end.

(** The characters of [writeDec]. *)
Definition dec_chars (value : Z) : outcome (list Z) :=
  if value =? 0 then mret [48] else dec_loop 21 value [].

Definition hex_digits : list Z := Eval cbv in chars "0123456789ABCDEF".

(** [for (int i = 60; i >= 0; i -= 4)] of [writeHex], [i = 4 * (n - 1)] first. *)
Fixpoint hex_chars_from (n : nat) (value : Z) (leading : bool) : outcome (list Z) :=
  match n with
  | O => mret []
  | S n' =>
      let nibble := (value .>> (4 * Z.of_nat n')) .& 0xF in
      let leading := leading && (nibble =? 0) in
      rest ← hex_chars_from n' value leading;
      if negb leading || (n' =? 0)%nat then d ← load hex_digits nibble; mret (d :: rest) else mret rest
  end.

Definition hex_chars (value : Z) : outcome (list Z) := hex_chars_from 16 value true.

(** ** Decimal *)

Fixpoint dec_value_from (acc : Z) (ds : list Z) : Z :=
  match ds with [] => acc | c :: ds' => dec_value_from (acc * 10 + (c - 48)) ds' end.

Definition is_dec (c : Z) : Prop := 48 <= c <= 57.

Lemma dec_value_app a b acc : dec_value_from acc (a ++ b) = dec_value_from (dec_value_from acc a) b.
Proof. revert acc. induction a as [|c a IH]; intros acc; simpl; [done | apply IH]. Qed.

Lemma dec_loop_ok fuel k value digits : 0 <= value < 10 ^ Z.of_nat k -> (k < fuel)%nat ->
  (k + length digits <= 20)%nat -> Forall is_dec digits ->
  exists ds, dec_loop fuel value digits = Ok (ds ++ digits) /\ Forall is_dec ds /\ dec_value_from 0 ds = value /\
    (value <> 0 -> ds <> []).
Proof.
  revert fuel value digits. induction k as [|k IH]; intros fuel value digits Hv Hf Hl Hd;
    (destruct fuel as [|fuel]; [lia|]); cbn [dec_loop].
  - assert (value = 0) as -> by (simpl in Hv; lia). exists []. by split_and!.
  - destruct (Z.eqb_spec value 0) as [->|Hne]; [exists []; by split_and!|].
    destruct (20 <=? length digits)%nat eqn:E20; [apply Nat.leb_le in E20; lia|].
    assert (Hm : 0 <= value mod 10 < 10) by (apply Z.mod_pos_bound; lia).
    assert (Hdiv : 0 <= value / 10 < 10 ^ Z.of_nat k).
    { rewrite Nat2Z.inj_succ, Z.pow_succ_r in Hv by lia. split; [apply Z.div_pos; lia | apply Z.div_lt_upper_bound; lia]. }
    destruct (IH fuel (value / 10) (48 + value mod 10 :: digits)) as (ds & E & Hds & Hval & _);
      [done | lia | simpl; lia | constructor; [unfold is_dec; lia | done] |].
    exists (ds ++ [48 + value mod 10]). split; [rewrite E, <- app_assoc; done|]. split; [|split].
    + apply Forall_app. split; [done|]. constructor; [unfold is_dec; lia | done].
    + rewrite dec_value_app, Hval. simpl. pose proof (Z.div_mod value 10). lia.
    + intros _ Hnil. by apply app_nil in Hnil as [_ ?].
Qed.

(** [char digits[20]] has room for every [uint64_t]. *)
Lemma dec_chars_ok value : 0 <= value < 2 ^ 64 ->
  exists ds, dec_chars value = Ok ds /\ Forall is_dec ds /\ ds <> [] /\ dec_value_from 0 ds = value.
Proof.
  intros Hv. unfold dec_chars. destruct (Z.eqb_spec value 0) as [->|Hne].
  - exists [48]. split_and!; try done. by repeat constructor.
  - destruct (dec_loop_ok 21 20 value []) as (ds & E & Hd & Hval & Hnil); [|lia|simpl; lia|done|].
    { change (10 ^ Z.of_nat 20) with 100000000000000000000. lia. }
    rewrite app_nil_r in E. exists ds. split_and!; try done. by apply Hnil.
Qed.

Lemma dec_value_mono ds acc : Forall is_dec ds -> 0 <= acc -> acc <= dec_value_from acc ds.
Proof.
  intros Hf. revert acc. induction Hf as [|c ds Hc Hf IH]; intros acc Ha; simpl; [lia|].
  unfold is_dec in Hc. specialize (IH (acc * 10 + (c - 48)) ltac:(lia)). lia.
Qed.

Lemma sgn_small w x : 1 < w -> 0 <= x < 2 ^ (w - 1) -> sgn w x = x.
Proof.
  intros Hw Hx. unfold sgn. assert (2 ^ w = 2 * 2 ^ (w - 1)) by (rewrite <- Z.pow_succ_r by lia; f_equal; lia).
  rewrite Z.mod_small by lia. case_if; lia.
Qed.

Lemma digits_loop_ok w ds acc : 1 < w -> Forall is_dec ds -> 0 <= acc -> dec_value_from acc ds < 2 ^ (w - 1) ->
  digits_loop w ds acc = dec_value_from acc ds.
Proof.
  intros Hw Hf. revert acc. induction Hf as [|c ds Hc Hf IH]; intros acc Ha Hv; cbn [digits_loop dec_value_from] in *; [done|].
  unfold is_dec in Hc. assert (is_digit c = true) as -> by (unfold is_digit; lia).
  pose proof (dec_value_mono ds (acc * 10 + (c - 48)) Hf ltac:(lia)). rewrite sgn_small by lia. apply IH; [lia | done].
Qed.

Lemma parse_signed_ok w ds : 1 < w -> Forall is_dec ds -> ds <> [] -> dec_value_from 0 ds < 2 ^ (w - 1) ->
  parse_signed w ds = dec_value_from 0 ds.
Proof.
  intros Hw Hf Hne Hv. destruct ds as [|c ds]; [done|]. pose proof Hf as [Hc _]%Forall_cons_iff. unfold is_dec in Hc.
  unfold parse_signed. assert (Es : skip_spaces (c :: ds) = c :: ds).
  { cbn [skip_spaces]. assert (is_space c = false) as -> by (unfold is_space; lia). done. }
  rewrite Es. cbn [deref]. rewrite (proj2 (Z.eqb_neq c 43)), (proj2 (Z.eqb_neq c 45)) by lia. cbn [orb].
  rewrite digits_loop_ok by (done || lia). pose proof (dec_value_mono (c :: ds) 0 Hf ltac:(lia)).
  rewrite Z.mul_1_l. apply sgn_small; lia.
Qed.

(** ** Hexadecimal *)

Lemma nibble_split value n : 0 <= value ->
  value mod 2 ^ (4 * Z.of_nat (S n)) =
  ((value .>> (4 * Z.of_nat n)) .& 0xF) * 2 ^ (4 * Z.of_nat n) + value mod 2 ^ (4 * Z.of_nat n).
Proof.
  intros Hv. rewrite Z.shiftr_div_pow2 by lia. change 0xF with (Z.ones 4). rewrite Z.land_ones by lia.
  replace (4 * Z.of_nat (S n)) with (4 * Z.of_nat n + 4) by lia. rewrite Z.pow_add_r by lia.
  rewrite Z.rem_mul_r by (apply Z.pow_nonzero || apply Z.pow_pos_nonneg; lia). lia.
Qed.

Lemma load_hex_digit x : 0 <= x < 16 -> exists d, load hex_digits x = Ok d /\ is_hex d /\ hex_digit d = x.
Proof.
  intros Hx. assert (Hall : forallb (fun x => match load hex_digits x with Ok d => hex_digit d =? x | _ => false end) (seqZ 0 16) = true) by done.
  rewrite forallb_forall in Hall. specialize (Hall x). cbn beta in Hall.
  rewrite <- list_elem_of_In, elem_of_seqZ in Hall. specialize (Hall ltac:(lia)).
  destruct (load hex_digits x) as [d| |]; [|done|done]. apply Z.eqb_eq in Hall. exists d. unfold is_hex. split_and!; [done | lia | done].
Qed.

Lemma hex_value_app a b acc : hex_value_from acc (a ++ b) = hex_value_from (hex_value_from acc a) b.
Proof. unfold hex_value_from. apply fold_left_app. Qed.

Lemma hex_chars_from_ok n value leading : 0 <= value ->
  exists ds, hex_chars_from n value leading = Ok ds /\ Forall is_hex ds /\
    (n <> O -> ds <> []) /\
    forall acc, 0 <= acc -> (leading = true -> acc = 0) ->
      hex_value_from acc ds = acc * 2 ^ (4 * Z.of_nat n) + value mod 2 ^ (4 * Z.of_nat n).
Proof.
  intros Hv. revert leading. induction n as [|n IH]; intros leading; cbn [hex_chars_from].
  - exists []. split_and!; try done. intros acc _ _. simpl. rewrite Z.mod_1_r. lia.
  - set (nib := (value .>> (4 * Z.of_nat n)) .& 0xF).
    assert (Hn : 0 <= nib < 16).
    { unfold nib. change 0xF with (Z.ones 4). rewrite Z.land_ones by lia. by apply Z.mod_pos_bound. }
    destruct (IH (leading && (nib =? 0))) as (ds & E & Hf & Hne & Hval). cbv zeta. run_call E.
    destruct (load_hex_digit nib Hn) as (d & Ed & Hd & Hdv).
    pose proof (nibble_split value n Hv) as Hs. fold nib in Hs.
    assert (Hpow : 2 ^ (4 * Z.of_nat (S n)) = 16 * 2 ^ (4 * Z.of_nat n)).
    { replace (4 * Z.of_nat (S n)) with (4 + 4 * Z.of_nat n) by lia. by rewrite Z.pow_add_r by lia. }
    destruct (negb (leading && (nib =? 0)) || (n =? 0)%nat) eqn:Ep.
    + run_call Ed. exists (d :: ds). split_and!; try done; [by constructor|].
      intros acc Ha Hz. change (hex_value_from acc (d :: ds)) with (hex_value_from (acc * 16 + hex_digit d) ds).
      rewrite Hdv. destruct (leading && (nib =? 0)) eqn:El.
      * apply andb_true_iff in El as [-> Hn0%Z.eqb_eq]. rewrite Hz by done. rewrite Hval by lia. lia.
      * rewrite Hval by (done || lia). rewrite Hs, Hpow. lia.
    + apply orb_false_iff in Ep as [Ep Hn0]. apply negb_false_iff in Ep. apply andb_true_iff in Ep as [-> Hnib%Z.eqb_eq].
      exists ds. split_and!; try done; [intros _; apply Hne; by apply Nat.eqb_neq in Hn0|].
      intros acc Ha Hz. specialize (Hz eq_refl) as ->. rewrite Hval by done. rewrite Hs, Hnib. lia.
Qed.

Lemma hex_chars_ok value : 0 <= value < 2 ^ 64 ->
  exists ds, hex_chars value = Ok ds /\ Forall is_hex ds /\ ds <> [] /\ hex_value_from 0 ds = value.
Proof.
  intros Hv. destruct (hex_chars_from_ok 16 value true) as (ds & E & Hf & Hne & Hval); [lia|].
  exists ds. split_and!; [done | done | by apply Hne |]. rewrite Hval by done. change (4 * Z.of_nat 16) with 64.
  rewrite Z.mod_small by lia. lia.
Qed.

(** ** Printing and parsing are inverse *)

Lemma dec_chars_parse value : 0 <= value < 2 ^ 63 ->
  exists ds, dec_chars value = Ok ds /\ Forall (fun c => c <> 0) ds /\ atoll ds = value.
Proof.
  intros Hv. destruct (dec_chars_ok value) as (ds & E & Hd & Hne & Hval); [lia|]. exists ds. split_and!; [done| |].
  - eapply Forall_impl; [|exact Hd]. unfold is_dec. simpl. lia.
  - unfold atoll. rewrite parse_signed_ok; [done | lia | done | done |]. rewrite Hval. lia.
Qed.

Lemma hex_chars_parse value : 0 <= value < 2 ^ 64 ->
  exists ds, hex_chars value = Ok ds /\ Forall (fun c => c <> 0) ds /\ hex_to_u64 (chars "0x" ++ ds) = Some value.
Proof.
  intros Hv. destruct (hex_chars_ok value Hv) as (ds & E & Hd & Hne & Hval). exists ds. split_and!; [done| |].
  - eapply Forall_impl; [|exact Hd]. intros c Hc ->. by apply Hc.
  - pose proof (hex_to_u64_ok [] (chars "0x") ds []) as Hok. rewrite app_nil_r in Hok. cbn [app] in Hok |- *.
    rewrite Hok; try done.
    + rewrite Hval. case_if; [done | lia].
    + right. by left.
    + intros Hc. by apply Hc.
Qed.
