(* ===== verification/Terminal.v ===== *)
(** The VGA text terminal, [src/src/drivers/vga/terminal.cpp] and [terminal.h].

    The state is the object [g_terminal]: the cells of the text buffer at
    0xB8000, the cursor and the colour, together with the device behind the
    CRT controller's ports.  Writing a cell outside the buffer is a [Fault].

    The second half shows what the screen displays: after [clear], [write]
    leaves the last 24 rows of the wrapped text on the screen and the cursor
    behind them, and never touches the status row below. *)

From Stdlib Require Import ZifyBool.
From S2P Require Import Prelude Libc Io Format.

Definition VGA_WIDTH : Z := 80.
Definition VGA_HEIGHT : Z := 24.

Record Terminal (P : Type) := mkTerminal {
  buffer : list Z;
  row : Z;
  column : Z;
  color : Z;
  ports : P;
}.
Arguments mkTerminal {P} _ _ _ _ _.
Arguments buffer {P} _.
Arguments row {P} _.
Arguments column {P} _.
Arguments color {P} _.
Arguments ports {P} _.

Definition vgaEntry (c color : Z) : Z := u8 c .| u16 (color .<< 8).

Definition is_newline (c : Z) : bool := c =? 10.
Definition space : Z := 32.

Section Terminal.
Context {P : Type} `{PortIO P}.
Implicit Types t : Terminal P.

Definition set_buffer t b : Terminal P := mkTerminal b (row t) (column t) (color t) (ports t).
Definition set_cursor t r c : Terminal P := mkTerminal (buffer t) r c (color t) (ports t).
Definition set_color t c : Terminal P := mkTerminal (buffer t) (row t) (column t) c (ports t).
Definition set_ports t p : Terminal P := mkTerminal (buffer t) (row t) (column t) (color t) p.

Definition setColor (fg bg : Z) t : Terminal P := set_color t (u8 (fg .| (bg .<< 4))).

Definition setColorForeground (fg : Z) t : Terminal P :=
  let bg := u8 ((color t .& 0xF0) .>> 4) in setColor fg bg t.

Definition setColorBackground (bg : Z) t : Terminal P :=
  let fg := u8 (color t .& 0x0F) in setColor fg bg t.

Definition updateHardwareCursor t : Terminal P :=
  let position := u16 (row t * VGA_WIDTH + column t) in
  let p := outb 0x3D4 0x0F (ports t) in
  let p := outb 0x3D5 (u8 (position .& 0xFF)) p in
  let p := outb 0x3D4 0x0E p in
  set_ports t (outb 0x3D5 (u8 ((position .>> 8) .& 0xFF)) p).

Definition enableHardwareCursor t : Terminal P :=
  let p := outb 0x3D4 0x0A (ports t) in
  let (cursor_start, p) := inb 0x3D5 p in
  let p := outb 0x3D5 (u8 ((cursor_start .& 0xC0) .| 14)) p in
  let p := outb 0x3D4 0x0B p in
  let (cursor_end, p) := inb 0x3D5 p in
  set_ports t (outb 0x3D5 (u8 ((cursor_end .& 0xE0) .| 15)) p).

(** [for (x = 0; x < VGA_WIDTH; ++x) buffer_[y * VGA_WIDTH + x] = e;] *)
Definition fill_row (y e : Z) (b : list Z) : outcome (list Z) :=
  for_range 0 VGA_WIDTH (fun x b => store b (y * VGA_WIDTH + x) e) b.

Definition clear_rows (height : Z) t : outcome (Terminal P) :=
  b ← for_range 0 height (fun y => fill_row y (vgaEntry space (color t))) (buffer t);
  mret (updateHardwareCursor (set_cursor (set_buffer t b) 0 0)).

Definition clear t : outcome (Terminal P) := clear_rows VGA_HEIGHT t.
Definition clearAll t : outcome (Terminal P) := clear_rows (VGA_HEIGHT + 1) t.

(** The constructor, on the cells [b] that the firmware left in the buffer. *)
Definition Terminal_init (b : list Z) (p : P) : outcome (Terminal P) := clear (mkTerminal b 0 0 0x0F p).

Definition copy_row (y : Z) (b : list Z) : outcome (list Z) :=
  for_range 0 VGA_WIDTH (fun x b =>
    e ← load b (y * VGA_WIDTH + x); store b ((y - 1) * VGA_WIDTH + x) e) b.

Definition scroll t : outcome (Terminal P) :=
  b ← for_range 1 VGA_HEIGHT copy_row (buffer t);
  b ← fill_row (VGA_HEIGHT - 1) (vgaEntry space (color t)) b;
  mret (set_buffer t b).

Definition newline t : outcome (Terminal P) :=
  let t := set_cursor t (row t) 0 in
  if row t =? VGA_HEIGHT - 1 then scroll t else mret (set_cursor t (u16 (row t + 1)) (column t)).

Definition putChar (c : Z) t : outcome (Terminal P) :=
  if is_newline c then newline t else
  b ← store (buffer t) (row t * VGA_WIDTH + column t) (vgaEntry c (color t));
  let t := set_cursor (set_buffer t b) (row t) (u16 (column t + 1)) in
  t ← (if column t =? VGA_WIDTH then newline t else mret t);
  mret (updateHardwareCursor t).

Definition putCharAt (c x y : Z) t : outcome (Terminal P) :=
  b ← store (buffer t) (u64 (y * VGA_WIDTH + x)) (vgaEntry c (color t)); mret (set_buffer t b).

Definition setCursor (r c : Z) t : Terminal P := updateHardwareCursor (set_cursor t r c).

Fixpoint write (str : list Z) t : outcome (Terminal P) :=
  match str with
  | [] => mret t
  | c :: str' => if c =? 0 then mret t else t ← putChar c t; write str' t
  end.

(** [for (size_t i = 0; ...; ++i) putCharAt(str[i], x + i, y);] from [i]. *)
Fixpoint putCharsAt (cs : list Z) (x i y : Z) t : outcome (Terminal P) :=
  match cs with
  | [] => mret t
  | c :: cs' => t ← putCharAt c (u64 (x + i)) y t; putCharsAt cs' x (u64 (i + 1)) y t
  end.

(** The characters before the first zero. *)
Fixpoint until_nul (str : list Z) : list Z :=
  match str with [] => [] | c :: str' => if c =? 0 then [] else c :: until_nul str' end.

Definition writeAt (str : list Z) (x y : Z) t : outcome (Terminal P) := putCharsAt (until_nul str) x 0 y t.

Definition writeHex (value : Z) t : outcome (Terminal P) :=
  t ← write (chars "0x") t; cs ← hex_chars value; foldM putChar cs t.

Definition writeDec (value : Z) t : outcome (Terminal P) := cs ← dec_chars value; foldM putChar cs t.

Definition writeDecAt (value x y : Z) t : outcome (Terminal P) :=
  cs ← dec_chars value; putCharsAt cs x 0 y t.

Definition backspace t : outcome (Terminal P) :=
  let back t :=
    b ← store (buffer t) (row t * VGA_WIDTH + column t) (vgaEntry space (color t));
    mret (updateHardwareCursor (set_buffer t b)) in
  if column t >? 0 then back (set_cursor t (row t) (column t - 1)) else
  if row t >? 0 then back (set_cursor t (row t - 1) (VGA_WIDTH - 1)) else mret t.

(** ** Loops over the cells *)

(** [b'] is [b] with the [n] cells from [lo] replaced by [f 0], [f 1], ... *)
Definition updated (b b' : list Z) (lo n : nat) (f : nat -> Z) : Prop :=
  length b' = length b /\
  forall i, (i < length b)%nat -> b' !! i = if (lo <=? i)%nat && (i <? lo + n)%nat then Some (f (i - lo)%nat) else b !! i.

Lemma updated_refl b lo f : updated b b lo 0 f.
Proof. split; [done|]. intros i Hi. destruct ((lo <=? i)%nat && (i <? lo + 0)%nat) eqn:E; [lia | done]. Qed.

Lemma updated_snoc b b' lo n f : (lo + n < length b)%nat -> updated b b' lo n f ->
  updated b (<[(lo + n)%nat := f n]> b') lo (S n) f.
Proof.
  intros Hl [E Hb]. split; [by rewrite length_insert|]. intros i Hi. destruct (decide (i = lo + n)%nat) as [->|Hne].
  - rewrite list_lookup_insert_eq by lia.
    assert ((lo <=? lo + n)%nat && (lo + n <? lo + S n)%nat = true) as -> by lia. do 2 f_equal. lia.
  - rewrite list_lookup_insert_ne, Hb by lia.
    assert ((lo <=? i)%nat && (i <? lo + S n)%nat = (lo <=? i)%nat && (i <? lo + n)%nat) as -> by lia. done.
Qed.

(** Two adjacent runs of updates are one. *)
Lemma updated_app b1 b2 b3 lo n m f : updated b1 b2 lo n f -> updated b2 b3 (lo + n) m (fun k => f (n + k)%nat) ->
  updated b1 b3 lo (n + m) f.
Proof.
  intros [E1 H1] [E2 H2]. split; [congruence|]. intros i Hi. rewrite H2, H1 by lia.
  destruct (decide (lo + n <= i < lo + n + m)%nat).
  - assert ((lo + n <=? i)%nat && (i <? lo + n + m)%nat = true) as -> by lia.
    assert ((lo <=? i)%nat && (i <? lo + (n + m))%nat = true) as -> by lia. do 2 f_equal. lia.
  - assert ((lo + n <=? i)%nat && (i <? lo + n + m)%nat = false) as -> by lia.
    assert ((lo <=? i)%nat && (i <? lo + (n + m))%nat = (lo <=? i)%nat && (i <? lo + n)%nat) as -> by lia. done.
Qed.

Lemma updated_ext b b' lo n f g : (forall k, (k < n)%nat -> f k = g k) -> updated b b' lo n f -> updated b b' lo n g.
Proof.
  intros Hfg [E Hb]. split; [done|]. intros i Hi. rewrite Hb by done.
  destruct ((lo <=? i)%nat && (i <? lo + n)%nat) eqn:Ei; [|done]. f_equal. apply Hfg. lia.
Qed.

Lemma updated_drop b b' lo n f m : updated b b' lo n f -> (lo + n <= m)%nat -> drop m b' = drop m b.
Proof.
  intros [E Hb] Hm. apply list_eq. intros i. rewrite !lookup_drop. destruct (decide (m + i < length b)%nat).
  - rewrite Hb by done. assert ((lo <=? m + i)%nat && (m + i <? lo + n)%nat = false) as -> by lia. done.
  - rewrite !lookup_ge_None_2; [done | lia | lia].
Qed.

(** A loop over one row whose step stores [f x] in cell [lo + x]. *)
Lemma row_loop b lo f body : (lo + 80 <= length b)%nat ->
  (forall x b', (x < 80)%nat -> updated b b' lo x f -> body (Z.of_nat x) b' = Ok (<[(lo + x)%nat := f x]> b')) ->
  exists b', for_range 0 VGA_WIDTH body b = Ok b' /\ updated b b' lo 80 f.
Proof.
  intros Hl Hbody.
  destruct (for_range_rule (fun x b' => updated b b' lo (Z.to_nat x) f) 0 VGA_WIDTH body b) as (b' & E & Hu);
    [done | apply updated_refl | | by exists b'].
  unfold VGA_WIDTH. intros x b' Hx Hu. assert (exists n, x = Z.of_nat n) as [n ->] by (exists (Z.to_nat x); lia).
  rewrite Nat2Z.id in Hu. rewrite Hbody by (done || lia). eexists. split; [done|].
  replace (Z.to_nat (Z.of_nat n + 1)) with (S n) by lia.
  apply updated_snoc; [lia | done].
Qed.

Lemma fill_row_ok y e b : (y * 80 + 80 <= length b)%nat ->
  exists b', fill_row (Z.of_nat y) e b = Ok b' /\ updated b b' (y * 80) 80 (fun _ => e).
Proof.
  intros Hl. apply row_loop; [done|]. intros x b' Hx [E _]. unfold VGA_WIDTH. rewrite store_in_range by lia.
  do 2 f_equal. lia.
Qed.

Lemma fill_rows_ok height e b : (height * 80 <= length b)%nat ->
  exists b', for_range 0 (Z.of_nat height) (fun y => fill_row y e) b = Ok b' /\ updated b b' 0 (height * 80) (fun _ => e).
Proof.
  intros Hl.
  destruct (for_range_rule (fun y b' => updated b b' 0 (Z.to_nat y * 80) (fun _ => e)) 0 (Z.of_nat height)
    (fun y => fill_row y e) b) as (b' & E & Hu); [lia | apply updated_refl | |].
  - intros y b' Hy Hu. destruct (fill_row_ok (Z.to_nat y) e b') as (b2 & E & Hu2); [destruct Hu; lia|].
    rewrite Z2Nat.id in E by lia. exists b2. split; [done|].
    replace (Z.to_nat (y + 1) * 80)%nat with (Z.to_nat y * 80 + 80)%nat by lia. by eapply updated_app.
  - exists b'. rewrite Nat2Z.id in Hu. done.
Qed.

Lemma copy_rows_ok b : (1920 <= length b)%nat ->
  exists b', for_range 1 VGA_HEIGHT copy_row b = Ok b' /\
    updated b b' 0 1840 (fun k => default 0 (b !! (k + 80)%nat)).
Proof.
  intros Hl. set (f := fun k => default 0 (b !! (k + 80)%nat)).
  destruct (for_range_rule (fun y b' => updated b b' 0 ((Z.to_nat y - 1) * 80) f) 1 VGA_HEIGHT copy_row b)
    as (b' & E & Hu); [done | apply updated_refl | | by exists b'].
  unfold VGA_HEIGHT. intros y b' Hy Hu.
  destruct (row_loop b' ((Z.to_nat y - 1) * 80) (fun k => f ((Z.to_nat y - 1) * 80 + k)%nat)
    (fun x b => e ← load b (y * VGA_WIDTH + x); store b ((y - 1) * VGA_WIDTH + x) e)) as (b2 & E & Hu2).
  - destruct Hu. lia.
  - intros x b3 Hx [E3 H3]. destruct Hu as [E' H']. unfold VGA_WIDTH.
    set (i := ((Z.to_nat y - 1) * 80 + x)%nat).
    assert (Hi : (i + 80 < length b)%nat) by lia. destruct (lookup_lt_is_Some_2 b (i + 80) Hi) as [v Hv].
    assert (Hload : load b3 (y * 80 + Z.of_nat x) = Ok v).
    { apply load_ok. split; [lia|]. replace (Z.to_nat (y * 80 + Z.of_nat x)) with (i + 80)%nat by lia.
      rewrite H3, H' by lia. rewrite <- Hv. repeat case_if; (lia || done). }
    run_call Hload. rewrite store_in_range by lia. unfold f. fold i. rewrite Hv. simpl. do 2 f_equal. lia.
  - exists b2. split; [done|]. replace ((Z.to_nat (y + 1) - 1) * 80)%nat with ((Z.to_nat y - 1) * 80 + 80)%nat by lia.
    by eapply updated_app.
Qed.

(** ** What the screen displays *)

(** The text written so far: the finished rows, and the cells of the current
    row, which the cursor is behind. *)
Definition text : Type := list (list Z) * list Z.

(** The entry at row [y] and column [x] of a screen that displays the last 24
    rows of a text; [e] is a blank cell. *)
Definition displayed (e : Z) (s : text) (y x : nat) : Z :=
  default e ((s.1 ++ [s.2]) !! (length s.1 - 23 + y)%nat ≫= (.!! x)).

Record shows t (s : text) : Prop := {
  shows_length : (1920 <= length (buffer t))%nat;
  shows_row : row t = Z.of_nat (Nat.min 23 (length s.1));
  shows_column : column t = Z.of_nat (length s.2);
  shows_cells : forall y x, (y < 24)%nat -> (x < 80)%nat ->
    buffer t !! (y * 80 + x)%nat = Some (displayed (vgaEntry space (color t)) s y x);
}.

(** The effect of one character on the text: a new row after a line feed or
    after the 80th cell. *)
Definition type_cell (color : Z) (s : text) (c : Z) : text :=
  if is_newline c then (s.1 ++ [s.2], []) else
  let cur := s.2 ++ [vgaEntry c color] in
  if (length cur =? 80)%nat then (s.1 ++ [cur], []) else (s.1, cur).

Definition type_text (color : Z) (s : text) (cs : list Z) : text := fold_left (type_cell color) cs s.

(** What printing leaves alone: the colour, the size of the buffer, and its
    cells below the 24 rows. *)
Definition same_frame t t' : Prop :=
  color t' = color t /\ length (buffer t') = length (buffer t) /\ drop 1920 (buffer t') = drop 1920 (buffer t).

Lemma same_frame_refl t : same_frame t t.
Proof. by split_and!. Qed.

Lemma same_frame_trans t1 t2 t3 : same_frame t1 t2 -> same_frame t2 t3 -> same_frame t1 t3.
Proof. intros (A1 & A2 & A3) (B1 & B2 & B3). split_and!; congruence. Qed.

Lemma shows_clear t : (1920 <= length (buffer t))%nat ->
  exists t', clear t = Ok t' /\ shows t' ([], []) /\ same_frame t t'.
Proof.
  intros Hl. unfold clear, clear_rows, VGA_HEIGHT.
  destruct (fill_rows_ok 24 (vgaEntry space (color t)) (buffer t)) as (b & E & Hu); [done|].
  change (Z.of_nat 24) with 24 in E. run_call E. eexists. split; [done|].
  pose proof (updated_drop _ _ _ _ _ 1920 Hu ltac:(lia)) as Hd. destruct Hu as [El Hb]. split; [|by split_and!].
  split; simpl; try (done || lia). intros y x Hy Hx. rewrite Hb by lia. case_if; [|lia].
  f_equal. unfold displayed. simpl. destruct y; done.
Qed.

Lemma scroll_ok t : (1920 <= length (buffer t))%nat ->
  exists b, scroll t = Ok (set_buffer t b) /\ same_frame t (set_buffer t b) /\
    (forall i, (i < 1840)%nat -> b !! i = buffer t !! (i + 80)%nat) /\
    (forall i, (1840 <= i < 1920)%nat -> b !! i = Some (vgaEntry space (color t))).
Proof.
  intros Hl. unfold scroll. destruct (copy_rows_ok (buffer t) Hl) as (b1 & E1 & Hu1). run_call E1.
  destruct (fill_row_ok 23 (vgaEntry space (color t)) b1) as (b2 & E2 & Hu2); [destruct Hu1; lia|].
  change (Z.of_nat 23) with (VGA_HEIGHT - 1) in E2. run_call E2. exists b2. split; [done|].
  pose proof (updated_drop _ _ _ _ _ 1920 Hu1 ltac:(lia)) as Hd1.
  pose proof (updated_drop _ _ _ _ _ 1920 Hu2 ltac:(lia)) as Hd2.
  destruct Hu1 as [El1 Hb1], Hu2 as [El2 Hb2]. split; [split_and!; simpl; congruence|]. split; intros i Hi.
  - rewrite Hb2, Hb1 by lia. repeat case_if; try lia. rewrite Nat.sub_0_r.
    by destruct (lookup_lt_is_Some_2 (buffer t) (i + 80)) as [v ->]; [lia|].
  - rewrite Hb2 by lia. case_if; [done | lia].
Qed.

(** A new empty row is displayed as blanks, whatever is above it. *)
Lemma displayed_new_row e h cur y x :
  displayed e (h ++ [cur], []) y x =
  if (length h <? 23)%nat then displayed e (h, cur) y x
  else if (y <? 23)%nat then displayed e (h, cur) (S y) x else e.
Proof.
  unfold displayed. simpl. rewrite length_app. simpl. destruct (length h <? 23)%nat eqn:E.
  - replace (length h + 1 - 23)%nat with O by lia. replace (length h - 23)%nat with O by lia. simpl.
    destruct (decide (y < length h + 1)%nat).
    + by rewrite lookup_app_l by (rewrite length_app; simpl; lia).
    + rewrite (lookup_ge_None_2 (h ++ [cur])) by (rewrite length_app; simpl; lia).
      rewrite lookup_app_r by (rewrite length_app; simpl; lia).
      destruct (y - length (h ++ [cur]))%nat as [|k]; done.
  - destruct (y <? 23)%nat eqn:Ey.
    + replace (length h + 1 - 23 + y)%nat with (length h - 23 + S y)%nat by lia.
      by rewrite lookup_app_l by (rewrite length_app; simpl; lia).
    + destruct (decide (y = 23)%nat) as [->|].
      * rewrite lookup_app_r by (rewrite length_app; simpl; lia). rewrite length_app. simpl.
        by replace (length h + 1 - 23 + 23 - (length h + 1))%nat with O by lia.
      * rewrite lookup_ge_None_2; [done|]. rewrite !length_app. simpl. lia.
Qed.

Lemma newline_ok t s : shows t s ->
  exists t', newline t = Ok t' /\ shows t' (s.1 ++ [s.2], []) /\ same_frame t t'.
Proof.
  intros [Hl Hr Hc Hs]. destruct s as [h cur]. cbn [fst snd] in *. unfold newline. cbn [row set_cursor]. rewrite Hr.
  unfold VGA_HEIGHT at 1. destruct (decide (length h < 23)%nat) as [Hlt|Hge].
  - destruct (Z.eqb_spec (Z.of_nat (Nat.min 23 (length h))) (24 - 1)) as [?|_]; [lia|].
    eexists. split; [done|]. split; [|by split_and!]. split; cbn [row column color buffer set_cursor fst snd]; try done.
    + rewrite length_app. simpl length. rewrite u16_small; lia.
    + intros y x Hy Hx. rewrite Hs by done. f_equal. rewrite displayed_new_row. by case_if; [|lia].
  - destruct (Z.eqb_spec (Z.of_nat (Nat.min 23 (length h))) (24 - 1)) as [_|?]; [|lia].
    destruct (scroll_ok (set_cursor t (row t) 0)) as (b & E & Hf & Hup & Hlast); [done|].
    rewrite <- Hr, E. eexists. split; [done|]. split; [|exact Hf]. destruct Hf as (_ & El & _).
    split; cbn [row column color buffer set_cursor set_buffer fst snd] in *;
      [lia | rewrite Hr, length_app; simpl length; lia | done |].
    intros y x Hy Hx. rewrite displayed_new_row. case_if; [lia|]. case_if.
    + rewrite Hup by lia. rewrite <- (Hs (S y) x) by lia. f_equal. lia.
    + rewrite Hlast by lia. done.
Qed.

Lemma shows_hardware_cursor t s : shows t s -> shows (updateHardwareCursor t) s.
Proof. by intros [? ? ? ?]. Qed.

(** The cell under the cursor is where the next entry of the row is displayed. *)
Lemma displayed_snoc e h cur v y x : (y < 24)%nat -> (x < 80)%nat ->
  displayed e (h, cur ++ [v]) y x =
  if (y =? Nat.min 23 (length h))%nat && (x =? length cur)%nat then v else displayed e (h, cur) y x.
Proof.
  intros Hy Hx. unfold displayed. cbn [fst snd]. destruct (decide (y = Nat.min 23 (length h))) as [->|Hne].
  - rewrite Nat.eqb_refl. cbn [andb].
    rewrite !lookup_app_r by lia. replace (length h - 23 + Nat.min 23 (length h) - length h)%nat with O by lia. simpl.
    destruct (Nat.eqb_spec x (length cur)) as [->|Hx'].
    + by rewrite lookup_app_r, Nat.sub_diag by lia.
    + destruct (decide (x < length cur)%nat).
      * by rewrite lookup_app_l by lia.
      * rewrite !lookup_ge_None_2; [done | lia | rewrite length_app; simpl; lia].
  - rewrite (proj2 (Nat.eqb_neq y _) Hne). cbn [andb].
    destruct (decide (length h - 23 + y < length h)%nat).
    + by rewrite !lookup_app_l by lia.
    + rewrite !lookup_ge_None_2; [done | rewrite length_app; simpl; lia | rewrite length_app; simpl; lia].
Qed.

(** Storing one cell of the current row. *)
Lemma store_cell t b h cur v : (length cur < 80)%nat -> shows t (h, cur) ->
  b = <[(Nat.min 23 (length h) * 80 + length cur)%nat := v]> (buffer t) ->
  shows (set_cursor (set_buffer t b) (row t) (column t + 1)) (h, cur ++ [v]) /\ same_frame t (set_buffer t b).
Proof.
  intros Hcur [Hl Hr Hc Hs] ->. split; [|].
  - split; cbn [row column color buffer set_cursor set_buffer fst snd] in *.
    + by rewrite length_insert.
    + done.
    + rewrite length_app. simpl length. lia.
    + intros y x Hy Hx. rewrite displayed_snoc by done.
      destruct ((y =? Nat.min 23 (length h))%nat && (x =? length cur)%nat) eqn:E.
      * replace (y * 80 + x)%nat with (Nat.min 23 (length h) * 80 + length cur)%nat by lia.
        by rewrite list_lookup_insert_eq by lia.
      * rewrite list_lookup_insert_ne; [by apply Hs | lia].
  - split_and!; cbn [color buffer set_buffer]; [done | by rewrite length_insert |].
    rewrite drop_insert_lt; [done | lia].
Qed.

Lemma putChar_ok t s c : (length s.2 < 80)%nat -> shows t s ->
  exists t', putChar c t = Ok t' /\ shows t' (type_cell (color t) s c) /\ same_frame t t' /\
    (length (type_cell (color t) s c).2 < 80)%nat.
Proof.
  intros Hcur Hsh. destruct s as [h cur]. cbn [snd] in Hcur. pose proof Hsh as [Hl Hr Hc Hs]. cbn [fst snd] in *.
  unfold putChar, type_cell. cbn [fst snd]. destruct (is_newline c).
  { destruct (newline_ok t (h, cur) Hsh) as (t' & E & H1' & H2'). exists t'. split_and!; try done. simpl. lia. }
  unfold VGA_WIDTH. rewrite store_in_range by lia. cbn [mbind outcome_bind].
  replace (Z.to_nat (row t * 80 + column t)) with (Nat.min 23 (length h) * 80 + length cur)%nat by lia.
  destruct (store_cell t _ h cur (vgaEntry c (color t)) Hcur Hsh eq_refl) as [Hsh' Hf].
  rewrite u16_small by lia. set (t1 := set_cursor _ _ _) in *. assert (Hc1 : column t1 = Z.of_nat (length cur) + 1).
  { unfold t1. simpl. lia. }
  rewrite Hc1, length_app. simpl length. destruct (Z.eqb_spec (Z.of_nat (length cur) + 1) 80) as [E80|E80].
  - rewrite (proj2 (Nat.eqb_eq _ _)) by lia. destruct (newline_ok t1 _ Hsh') as (t2 & E & Hsh2 & Hf2). run_call E.
    eexists. split; [done|]. split_and!; [by apply shows_hardware_cursor | | simpl; lia].
    exact (same_frame_trans t t1 t2 Hf Hf2).
  - rewrite (proj2 (Nat.eqb_neq _ _)) by lia. cbn [mbind outcome_bind mret outcome_ret]. eexists. split; [done|].
    split_and!; [by apply shows_hardware_cursor | exact Hf | cbn [snd]; rewrite length_app; simpl; lia].
Qed.

Lemma foldM_putChar_ok cs t s : (length s.2 < 80)%nat -> shows t s ->
  exists t', foldM putChar cs t = Ok t' /\ shows t' (type_text (color t) s cs) /\ same_frame t t' /\
    (length (type_text (color t) s cs).2 < 80)%nat.
Proof.
  revert t s. induction cs as [|c cs IH]; intros t s Hcur Hsh; simpl.
  - exists t. split_and!; try done; apply same_frame_refl.
  - destruct (putChar_ok t s c Hcur Hsh) as (t1 & E1 & Hsh1 & Hf1 & Hcur1). run_call E1.
    destruct (IH t1 _ Hcur1 Hsh1) as (t2 & E2 & Hsh2 & Hf2 & Hcur2). exists t2.
    destruct Hf1 as (Ec & Hf1). rewrite Ec in *. split_and!; try done.
    by apply (same_frame_trans t t1 t2).
Qed.

Lemma write_chars cs t : Forall (fun c => c <> 0) cs -> write cs t = foldM putChar cs t.
Proof.
  intros Hf. revert t. induction Hf as [|c cs Hc Hf IH]; intros t; [done|]. cbn [write foldM].
  rewrite (proj2 (Z.eqb_neq c 0) Hc). destruct (putChar c t); simpl; [apply IH | done | done].
Qed.

Lemma write_then_fold l cs t : Forall (fun c => c <> 0) (l ++ cs) ->
  (t ← write l t; foldM putChar cs t) = write (l ++ cs) t.
Proof.
  intros Hf. rewrite (write_chars (l ++ cs)) by done. apply Forall_app in Hf as [Hl _].
  rewrite foldM_app, write_chars by done. done.
Qed.

(** Blanking a cell that held a blank before it was written restores it. *)
Lemma reblank (b : list Z) i v e : b !! i = Some e -> <[i := e]> (<[i := v]> b) = b.
Proof. intros Hi. rewrite list_insert_insert_eq. by apply list_insert_id. Qed.

(** ** Properties *)

(** C39. The terminal displays the text it is given: after [clear], [write]
    of any string returns with the last 24 rows of the text, wrapped at 80
    columns, on the screen and the cursor behind the last character, and leaves
    the cells below (the status row) as they were. *)
Theorem write_displays_text t cs : (1920 <= length (buffer t))%nat -> Forall (fun c => c <> 0) cs ->
  exists t', (t1 ← clear t; write cs t1) = Ok t' /\
    shows t' (type_text (color t) ([], []) cs) /\ same_frame t t'.
Proof.
  intros Hl Hcs. destruct (shows_clear t Hl) as (t1 & E1 & Hsh1 & Hf1). run_call E1. rewrite write_chars by done.
  destruct (foldM_putChar_ok cs t1 ([], [])) as (t2 & E2 & Hsh2 & Hf2 & _); [simpl; lia | done |]. exists t2.
  destruct Hf1 as [Ec ?]. rewrite Ec in Hsh2. split_and!; try done. by apply (same_frame_trans t t1 t2).
Qed.

(** [backspace] undoes [putChar]: unless the character scrolled the screen,
    the buffer and the cursor are as before it, also when the character
    filled its row and the cursor went to the next one. *)
Theorem backspace_undoes_putChar t s c : shows t s -> (length s.2 < 80)%nat -> is_newline c = false ->
  (length s.1 < 23 \/ length s.2 < 79)%nat ->
  exists t', (t1 ← putChar c t; backspace t1) = Ok t' /\
    buffer t' = buffer t /\ row t' = row t /\ column t' = column t /\ color t' = color t.
Proof.
  intros [Hl Hr Hc Hs] Hcur Hnl Hroom. destruct s as [h cur]. cbn [fst snd] in *. unfold putChar. rewrite Hnl.
  unfold VGA_WIDTH. rewrite store_in_range by lia. cbn [mbind outcome_bind column set_cursor].
  set (i := Z.to_nat (row t * 80 + column t)). rewrite u16_small by lia.
  assert (Hi : buffer t !! i = Some (vgaEntry space (color t))).
  { replace i with (Nat.min 23 (length h) * 80 + length cur)%nat by lia. rewrite Hs by lia. f_equal. unfold displayed.
    cbn [fst snd]. rewrite lookup_app_r by lia. replace (_ - length h)%nat with O by lia. simpl.
    by rewrite lookup_ge_None_2 by lia. }
  destruct (Z.eqb_spec (column t + 1) 80) as [E80|E80].
  - unfold newline. cbn [row set_cursor set_buffer column]. unfold VGA_HEIGHT.
    rewrite (proj2 (Z.eqb_neq _ _)) by lia. rewrite u16_small by lia. cbn [mbind outcome_bind mret outcome_ret].
    unfold backspace. cbn [column row set_cursor updateHardwareCursor set_ports].
    rewrite (proj2 (Z.gtb_lt (row t + 1) 0)) by lia. change (0 >? 0) with false. cbv iota.
    unfold VGA_WIDTH. rewrite store_in_range by (cbn; rewrite length_insert; lia).
    cbn [mbind outcome_bind mret outcome_ret]. eexists. split; [done|]. cbn.
    split_and!; try (done || lia). replace (Z.to_nat _) with i by lia. by apply reblank.
  - cbn [mbind outcome_bind mret outcome_ret].
    unfold backspace. cbn [column row set_cursor updateHardwareCursor set_ports set_buffer].
    rewrite (proj2 (Z.gtb_lt (column t + 1) 0)) by lia.
    unfold VGA_WIDTH. rewrite store_in_range by (cbn; rewrite length_insert; lia).
    cbn [mbind outcome_bind mret outcome_ret]. eexists. split; [done|]. cbn.
    split_and!; try (done || lia). replace (Z.to_nat _) with i by lia. by apply reblank.
Qed.

(** Numbers are printed as text that the C library reads back: [writeDec]
    writes a decimal string whose [atoll] is the number, and [writeHex] a
    string with the prefix 0x whose [hex_to_u64] is the number. *)
Theorem printed_numbers_parse value t : 0 <= value < 2 ^ 64 ->
  (value < 2 ^ 63 -> exists ds, writeDec value t = write ds t /\ atoll ds = value) /\
  (exists hs, writeHex value t = write hs t /\ hex_to_u64 hs = Some value).
Proof.
  intros Hv. split.
  - intros Hs. destruct (dec_chars_parse value ltac:(lia)) as (ds & E & Hd & Hp). exists ds. split; [|done].
    unfold writeDec. run_call E. by rewrite write_chars.
  - destruct (hex_chars_parse value Hv) as (ds & E & Hd & Hp). exists (chars "0x" ++ ds). split; [|done].
    unfold writeHex. rewrite E. cbn [mbind outcome_bind]. apply write_then_fold. apply Forall_app. split; [|done].
    by repeat constructor.
Qed.

End Terminal.

(** ** Witnesses *)

Definition blank_terminal : Terminal PortLog := mkTerminal (replicate 2000 0) 5 7 0x0F (mkLog [] []).

Lemma write_displays_text_witness :
  exists t', (t1 ← clear blank_terminal; write (chars "ab") t1) = Ok t' /\
    displayed (vgaEntry space 15) (type_text 15 ([], []) (chars "ab")) 0 1 = vgaEntry 98 15 /\
    shows t' (type_text (color blank_terminal) ([], []) (chars "ab")).
Proof.
  destruct (write_displays_text blank_terminal (chars "ab")) as (t' & E & Hs & _).
  - apply Nat.leb_le. vm_compute. reflexivity.
  - repeat constructor; discriminate.
  - exists t'. split; [exact E|]. split; [vm_compute; reflexivity | exact Hs].
Defined.

Definition cleared_terminal : Terminal PortLog := mkTerminal (replicate 2000 (vgaEntry space 0x0F)) 0 0 0x0F (mkLog [] []).

Lemma cleared_terminal_shows : shows cleared_terminal ([], []).
Proof.
  split; [apply Nat.leb_le; vm_compute; reflexivity | done | done |].
  intros y x Hy Hx. unfold cleared_terminal. cbn [buffer color]. rewrite lookup_replicate_2 by lia.
  f_equal. unfold displayed. simpl. by destruct y.
Qed.

Lemma backspace_undoes_putChar_witness :
  exists t', (t1 ← putChar 65 cleared_terminal; backspace t1) = Ok t' /\ buffer t' = buffer cleared_terminal.
Proof.
  destruct (backspace_undoes_putChar cleared_terminal ([], []) 65) as (t' & E & Hb & _).
  - apply cleared_terminal_shows.
  - simpl. lia.
  - reflexivity.
  - left. simpl. lia.
  - exists t'. split; [exact E | exact Hb].
Defined.

Lemma printed_numbers_parse_witness :
  exists ds, writeDec 2026 cleared_terminal = write ds cleared_terminal /\ atoll ds = 2026.
Proof. destruct (printed_numbers_parse 2026 cleared_terminal) as [Hdec _]; [lia|]. apply Hdec. lia. Defined.
