(* ===== verification/Printf.v ===== *)
(** Formatted output, [src/src/libc/printf.cpp].

    The variable arguments are a list of typed values; reading one with
    another type than it was passed with, or one more than were passed, is
    undefined and is a [Fault], as is the negation of the least [int64_t]
    and a format that ends in a single percent sign, where the loop steps
    over the terminating zero. *)

From Stdlib Require Import ZifyBool.
From S2P Require Import Prelude Libc Io Format Terminal.

Inductive arg : Type :=
| ArgStr (str : option (list Z))
| ArgInt (n : Z)
| Arg64 (n : Z).

Definition va_str (args : list arg) : outcome (option (list Z) * list arg) :=
  match args with ArgStr s :: args' => mret (s, args') | _ => Fault end.
Definition va_int (args : list arg) : outcome (Z * list arg) :=
  match args with ArgInt n :: args' => mret (n, args') | _ => Fault end.
Definition va_64 (args : list arg) : outcome (Z * list arg) :=
  match args with Arg64 n :: args' => mret (n, args') | _ => Fault end.

(** [while (val > 0) { buf[idx] = '0' + (val & mask); val >>= width; idx--; }]
    The list holds [buf + idx + 1]. *)
Fixpoint bits_loop (fuel : nat) (width val idx : Z) (buf : list Z) : outcome (list Z) :=
  match fuel with
  | O => Halt
  | S fuel' =>
      if val =? 0 then mret buf else
      if idx <? 0 then Fault
      else bits_loop fuel' width (val .>> width) (idx - 1) (48 + (val .& Z.ones width) :: buf)
  end.

Definition bin_chars (val : Z) : outcome (list Z) := if val =? 0 then mret (chars "0") else bits_loop 66 1 val 63 [].
Definition oct_chars (val : Z) : outcome (list Z) := if val =? 0 then mret (chars "0") else bits_loop 24 3 val 21 [].

Section Printf.
Context {P : Type} `{PortIO P}.
Implicit Types t : Terminal P.

(** The [switch] on the character after a percent sign. *)
Definition directive (f : Z) (args : list arg) t : outcome (list arg * Terminal P) :=
  if f =? 115 (* s *) then
    '(s, args) ← va_str args; t ← write (default (chars "(null)") s) t; mret (args, t)
  else if f =? 99 (* c *) then
    '(n, args) ← va_int args; t ← write [u8 n] t; mret (args, t)
  else if f =? 114 (* r *) then
    '(n, args) ← va_int args; mret (args, setColorForeground (u8 n) t)
  else if f =? 82 (* R *) then
    '(n, args) ← va_int args; mret (args, setColorBackground (u8 n) t)
  else if (f =? 100) || (f =? 117) (* d, u *) then
    '(n, args) ← va_64 args;
    let val := u64 n in
    if (f =? 100) && (s64 val <? 0) then
      if s64 val =? - 2 ^ 63 then Fault else
      t ← write (chars "-") t; t ← writeDec (u64 (- s64 val)) t; mret (args, t)
    else t ← writeDec val t; mret (args, t)
  else if (f =? 120) || (f =? 112) (* x, p *) then
    t ← (if f =? 112 then write (chars "0x") t else mret t);
    '(n, args) ← va_64 args; t ← writeHex (u64 n) t; mret (args, t)
  else if f =? 98 (* b *) then
    '(n, args) ← va_64 args; cs ← bin_chars (u64 n); t ← write cs t; mret (args, t)
  else if f =? 111 (* o *) then
    '(n, args) ← va_64 args; cs ← oct_chars (u64 n); t ← write cs t; mret (args, t)
  else if f =? 37 (* % *) then
    t ← write (chars "%") t; mret (args, t)
  else t ← write [37; f] t; mret (args, t).

Fixpoint printf (format : list Z) (args : list arg) t : outcome (Terminal P) :=
  match format with
  | [] => mret t
  | c :: format' =>
      if c =? 0 then mret t else
      if c =? 37 then
        match format' with
        | [] => Fault
        | f :: format'' => '(args, t) ← directive f args t; printf format'' args t
        end
      else t ← write [c] t; printf format' args t
  end.

(** ** Binary and octal digits *)

Fixpoint value_from (base acc : Z) (ds : list Z) : Z :=
  match ds with [] => acc | c :: ds' => value_from base (acc * base + (c - 48)) ds' end.

Lemma value_from_app base a b acc : value_from base acc (a ++ b) = value_from base (value_from base acc a) b.
Proof. revert acc. induction a as [|c a IH]; intros acc; simpl; [done | apply IH]. Qed.

Lemma bits_loop_ok fuel k width val idx buf : 0 < width -> 0 <= val < 2 ^ (width * Z.of_nat k) -> (k < fuel)%nat ->
  Z.of_nat k <= idx + 1 ->
  exists ds, bits_loop fuel width val idx buf = Ok (ds ++ buf) /\ value_from (2 ^ width) 0 ds = val /\
    Forall (fun c => 48 <= c) ds.
Proof.
  intros Hw. revert fuel val idx buf. induction k as [|k IH]; intros fuel val idx buf Hv Hf Hi;
    (destruct fuel as [|fuel]; [lia|]); cbn [bits_loop].
  - assert (val = 0) as -> by (rewrite Z.mul_0_r in Hv; simpl in Hv; lia). exists []. by split_and!.
  - destruct (Z.eqb_spec val 0) as [->|Hne]; [exists []; by split_and!|]. case_if; [lia|].
    rewrite Z.shiftr_div_pow2, Z.land_ones by lia. assert (Hp : 0 < 2 ^ width) by lia.
    pose proof (Z.mod_pos_bound val (2 ^ width) Hp) as Hm.
    destruct (IH fuel (val / 2 ^ width) (idx - 1) (48 + val mod 2 ^ width :: buf)) as (ds & E & Hval & Hd); [|lia|lia|].
    { replace (width * Z.of_nat (S k)) with (width + width * Z.of_nat k) in Hv by lia. rewrite Z.pow_add_r in Hv by lia.
      split; [apply Z.div_pos; lia | apply Z.div_lt_upper_bound; lia]. }
    exists (ds ++ [48 + val mod 2 ^ width]). split_and!; [rewrite E, <- app_assoc; done | |].
    + rewrite value_from_app, Hval. simpl. pose proof (Z.div_mod val (2 ^ width)). lia.
    + apply Forall_app. split; [done|]. constructor; [lia | done].
Qed.

(** The buffers of 65 and 23 bytes have room for every number. *)
Lemma bin_chars_ok val : 0 <= val < 2 ^ 64 ->
  exists ds, bin_chars val = Ok ds /\ value_from 2 0 ds = val /\ Forall (fun c => 48 <= c) ds.
Proof.
  intros Hv. unfold bin_chars. destruct (Z.eqb_spec val 0) as [->|Hne]; [exists (chars "0"); by repeat constructor|].
  destruct (bits_loop_ok 66 64 1 val 63 []) as (ds & E & Hval & Hd); [lia | done | lia | lia |].
  rewrite app_nil_r in E. by exists ds.
Qed.

Lemma oct_chars_ok val : 0 <= val < 2 ^ 64 ->
  exists ds, oct_chars val = Ok ds /\ value_from 8 0 ds = val /\ Forall (fun c => 48 <= c) ds.
Proof.
  intros Hv. unfold oct_chars. destruct (Z.eqb_spec val 0) as [->|Hne]; [exists (chars "0"); by repeat constructor|].
  destruct (bits_loop_ok 24 22 3 val 21 []) as (ds & E & Hval & Hd); [lia | change (3 * Z.of_nat 22) with 66; lia | lia | lia |].
  rewrite app_nil_r in E. by exists ds.
Qed.

(** ** What a format prints *)

(** The pieces of a format with the values printed for them. *)
Inductive piece : Type :=
| Lit (c : Z)
| Str (s : option (list Z))
| Chr (n : Z)
| Dec (n : Z)
| Uns (n : Z)
| Hex (n : Z)
| Ptr (n : Z)
| Bin (n : Z)
| Oct (n : Z)
| Percent.

Definition format_of (p : piece) : list Z :=
  match p with
  | Lit c => [c] | Str _ => chars "%s" | Chr _ => chars "%c" | Dec _ => chars "%d" | Uns _ => chars "%u"
  | Hex _ => chars "%x" | Ptr _ => chars "%p" | Bin _ => chars "%b" | Oct _ => chars "%o" | Percent => chars "%%"
  end.

Definition args_of (p : piece) : list arg :=
  match p with
  | Lit _ | Percent => [] | Str s => [ArgStr s] | Chr n => [ArgInt n]
  | Dec n | Uns n | Hex n | Ptr n | Bin n | Oct n => [Arg64 n]
  end.

Definition piece_ok (p : piece) : Prop :=
  match p with
  | Lit c => c <> 0 /\ c <> 37
  | Dec n => - 2 ^ 63 < n < 2 ^ 63
  | Uns n | Hex n | Ptr n | Bin n | Oct n => 0 <= n < 2 ^ 64
  | _ => True
  end.

Definition decimal (n : Z) (ds : list Z) : Prop := Forall is_dec ds /\ ds <> [] /\ dec_value_from 0 ds = n.

(** [ds] is the text of the value of a piece. *)
Definition renders (p : piece) (ds : list Z) : Prop :=
  match p with
  | Lit c => ds = [c]
  | Str s => ds = until_nul (default (chars "(null)") s)
  | Chr n => ds = until_nul [u8 n]
  | Dec n => if n <? 0 then exists ds', ds = 45 :: ds' /\ decimal (- n) ds' else decimal n ds
  | Uns n => decimal n ds
  | Hex n => hex_to_u64 ds = Some n
  | Ptr n => exists ds', ds = chars "0x" ++ ds' /\ hex_to_u64 ds' = Some n
  | Bin n => value_from 2 0 ds = n
  | Oct n => value_from 8 0 ds = n
  | Percent => ds = [37]
  end.

Lemma until_nul_nonzero s : Forall (fun c => c <> 0) (until_nul s).
Proof. induction s as [|c s IH]; simpl; [done|]. case_if; [done | by constructor]. Qed.

Lemma write_until_nul s t : write s t = write (until_nul s) t.
Proof.
  revert t. induction s as [|c s IH]; intros t; simpl; [done|]. case_if; [done|]. cbn [write].
  rewrite (proj2 (Z.eqb_neq c 0)) by done. destruct (putChar c t); simpl; [apply IH | done | done].
Qed.

Lemma write_app a b t : Forall (fun c => c <> 0) a -> write (a ++ b) t = (t ← write a t; write b t).
Proof.
  intros Ha. revert t. induction Ha as [|c a Hc Ha IH]; intros t; [done|]. cbn [write app].
  rewrite (proj2 (Z.eqb_neq c 0)) by done. destruct (putChar c t); simpl; [apply IH | done | done].
Qed.

Lemma is_dec_nonzero ds : Forall is_dec ds -> Forall (fun c => c <> 0) ds.
Proof. intros Hd. eapply Forall_impl; [|exact Hd]. unfold is_dec. simpl. lia. Qed.

Lemma writeDec_write n : 0 <= n < 2 ^ 64 ->
  exists ds, decimal n ds /\ Forall (fun c => c <> 0) ds /\ forall t, writeDec n t = write ds t.
Proof.
  intros Hn. destruct (dec_chars_ok n Hn) as (ds & E & Hd & Hne & Hv). exists ds.
  pose proof (is_dec_nonzero ds Hd). split_and!; try done. intros t. unfold writeDec. run_call E. by rewrite write_chars.
Qed.

Lemma writeHex_write n : 0 <= n < 2 ^ 64 ->
  exists ds, hex_to_u64 ds = Some n /\ Forall (fun c => c <> 0) ds /\ forall t, writeHex n t = write ds t.
Proof.
  intros Hn. destruct (hex_chars_parse n Hn) as (ds & E & Hd & Hp).
  assert (Hall : Forall (fun c => c <> 0) (chars "0x" ++ ds)) by (apply Forall_app; split; [by repeat constructor | done]).
  exists (chars "0x" ++ ds). split_and!; try done. intros t. unfold writeHex. rewrite E. cbn [mbind outcome_bind].
  by apply write_then_fold.
Qed.

Lemma s64_id n : - 2 ^ 63 < n < 2 ^ 63 -> s64 (u64 n) = n.
Proof.
  intros Hn. unfold s64, sgn, u64. rewrite Z.mod_mod by lia. destruct (decide (0 <= n)).
  - rewrite Z.mod_small by lia. case_if; lia.
  - assert (n mod 2 ^ 64 = n + 2 ^ 64) as ->.
    { rewrite <- (Z.mod_small (n + 2 ^ 64) (2 ^ 64)) by lia. rewrite <- (Z_mod_plus_full n 1 (2 ^ 64)). f_equal. }
    case_if; lia.
Qed.

Lemma printf_directive f rest args t :
  printf (37 :: f :: rest) args t = ('(args, t) ← directive f args t; printf rest args t).
Proof. done. Qed.

(** Run the directive whose character has the code [f]. *)
Local Ltac run_directive f :=
  intros rest ra t;
  match goal with |- context [chars ?fmt ++ rest] => change (chars fmt ++ rest) with (37 :: f :: rest) end;
  rewrite printf_directive; unfold directive;
  cbn [Z.eqb Pos.eqb orb andb app va_str va_int va_64 mret outcome_ret mbind outcome_bind].

Local Ltac finish_write :=
  cbn [mbind outcome_bind mret outcome_ret];
  match goal with |- context [write ?ds ?t] => by destruct (write ds t) end.

(** One piece of a format. *)
Lemma printf_piece p : piece_ok p ->
  exists ds, renders p ds /\ Forall (fun c => c <> 0) ds /\
    forall rest ra t, printf (format_of p ++ rest) (args_of p ++ ra) t = (t ← write ds t; printf rest ra t).
Proof.
  destruct p as [c|s|n|n|n|n|n|n|n|]; intros Hp; cbn [piece_ok renders format_of args_of] in *.
  - exists [c]. split_and!; [done | by repeat constructor; apply Hp |]. intros rest ra t. cbn [printf app].
    by rewrite (proj2 (Z.eqb_neq c 0)), (proj2 (Z.eqb_neq c 37)) by apply Hp.
  - exists (until_nul (default (chars "(null)") s)). split_and!; [done | apply until_nul_nonzero |].
    run_directive 115. rewrite write_until_nul. finish_write.
  - exists (until_nul [u8 n]). split_and!; [done | apply until_nul_nonzero |].
    run_directive 99. rewrite write_until_nul. finish_write.
  - destruct (n <? 0) eqn:En; bool_to_prop.
    + destruct (writeDec_write (- n)) as (ds & Hd & Hz & Hw); [lia|]. exists (45 :: ds).
      split_and!; [by exists ds | by constructor |]. run_directive 100.
      rewrite s64_id by lia. rewrite (proj2 (Z.ltb_lt n 0)), (proj2 (Z.eqb_neq n _)) by lia.
      rewrite (u64_small (- n)) by lia. change (45 :: ds) with (chars "-" ++ ds).
      rewrite write_app by (by repeat constructor).
      destruct (write (chars "-") t) as [t1| |]; [|done|done]. cbn [mbind outcome_bind]. rewrite Hw. finish_write.
    + destruct (writeDec_write n) as (ds & Hd & Hz & Hw); [lia|]. exists ds. split_and!; [done | done |].
      run_directive 100. rewrite s64_id by lia. rewrite (proj2 (Z.ltb_ge n 0)) by lia.
      rewrite (u64_small n), Hw by lia. finish_write.
  - destruct (writeDec_write n Hp) as (ds & Hd & Hz & Hw). exists ds. split_and!; [done | done |].
    run_directive 117. rewrite (u64_small n), Hw by done. finish_write.
  - destruct (writeHex_write n Hp) as (ds & Hd & Hz & Hw). exists ds. split_and!; [done | done |].
    run_directive 120. rewrite (u64_small n), Hw by done. finish_write.
  - destruct (writeHex_write n Hp) as (ds & Hd & Hz & Hw). exists (chars "0x" ++ ds).
    assert (H0x : Forall (fun c => c <> 0) (chars "0x")) by (by repeat constructor).
    split_and!; [by exists ds | by apply Forall_app |]. run_directive 112. rewrite write_app by done.
    destruct (write (chars "0x") t) as [t1| |]; [|done|done]. cbn [mbind outcome_bind].
    rewrite (u64_small n), Hw by done. finish_write.
  - destruct (bin_chars_ok n Hp) as (ds & E & Hd & Hz). exists ds.
    split_and!; [done | eapply Forall_impl; [|exact Hz]; simpl; lia |].
    run_directive 98. rewrite (u64_small n) by done. run_call E. finish_write.
  - destruct (oct_chars_ok n Hp) as (ds & E & Hd & Hz). exists ds.
    split_and!; [done | eapply Forall_impl; [|exact Hz]; simpl; lia |].
    run_directive 111. rewrite (u64_small n) by done. run_call E. finish_write.
  - exists [37]. split_and!; [done | by repeat constructor |]. run_directive 37.
    change (chars "%") with [37]. finish_write.
Qed.

(** ** Properties *)

(** C40. [printf] prints its format with every directive replaced by the text
    of its argument, in order, and returns: the text of a number reads back
    as the number, in the base of the directive, and a string stops at its
    first zero. *)
Theorem printf_correct ps t : Forall piece_ok ps ->
  exists texts, Forall2 renders ps texts /\
    printf (concat (format_of <$> ps)) (concat (args_of <$> ps)) t = write (concat texts) t.
Proof.
  intros Hps. assert (Hgen : exists texts, Forall2 renders ps texts /\
    forall t, printf (concat (format_of <$> ps)) (concat (args_of <$> ps)) t = write (concat texts) t).
  { induction Hps as [|p ps Hp Hps (texts & Hr & Hpr)]; [by exists []|].
    destruct (printf_piece p Hp) as (ds & Hd & Hz & Hpp). exists (ds :: texts). split; [by constructor|].
    intros t'. cbn [fmap list_fmap concat]. rewrite Hpp, write_app by done.
    destruct (write ds t') as [t1| |]; [|done|done]. apply Hpr. }
  destruct Hgen as (texts & Hr & Hpr). exists texts. split; [done | apply Hpr].
Qed.

End Printf.

Lemma printf_correct_witness :
  exists texts, Forall2 renders [Str (Some (chars "id")); Lit 61; Dec (-12)] texts /\
    printf (chars "%s=%d") [ArgStr (Some (chars "id")); Arg64 (-12)] cleared_terminal =
    write (concat texts) cleared_terminal.
Proof.
  apply (printf_correct [Str (Some (chars "id")); Lit 61; Dec (-12)] cleared_terminal).
  repeat constructor; simpl; lia.
Defined.
