(* ===== verification/Screen.v ===== *)
(** Well-formed terminals and well-typed formats: every operation of
    [src/src/drivers/vga/terminal.cpp] and [printf] of
    [src/src/libc/printf.cpp] on a terminal whose cursor is on the screen.

    [term_ok] is the type of a terminal: 80 by 25 cells of 16 bits, a colour of
    8 bits and a cursor in the first 24 rows.  [well_typed] compares the
    directives of a format with the arguments that are passed. *)

From Stdlib Require Import ZifyBool.
From S2P Require Import Prelude Libc Io Format Terminal Printf.

Definition cell_ok (c : Z) : Prop := 0 <= c < 2 ^ 16.

Section Screen.
Context {P : Type} `{PortIO P}.
Implicit Types t : Terminal P.

Record term_ok t : Prop := {
  ok_length : length (buffer t) = 2000%nat;
  ok_cells : Forall cell_ok (buffer t);
  ok_row : 0 <= row t < 24;
  ok_column : 0 <= column t < 80;
  ok_color : 0 <= color t < 2 ^ 8;
}.

(** The ports change by writes to the cursor registers only. *)
Inductive cursor_writes : P -> P -> Prop :=
| cw_refl p : cursor_writes p p
| cw_step port v p p' : port = 0x3D4 \/ port = 0x3D5 -> cursor_writes (outb port v p) p' -> cursor_writes p p'.

Lemma cursor_writes_trans p1 p2 p3 : cursor_writes p1 p2 -> cursor_writes p2 p3 -> cursor_writes p1 p3.
Proof. induction 1; [done|]. intros. by eapply cw_step; [|apply IHcursor_writes]. Qed.

(** The result of an operation that returns with a well-formed terminal. *)
Definition stays t (r : outcome (Terminal P)) : Prop :=
  exists t', r = Ok t' /\ term_ok t' /\ cursor_writes (ports t) (ports t').

Lemma stays_ret t t' : term_ok t' -> cursor_writes (ports t) (ports t') -> stays t (mret t').
Proof. by exists t'. Qed.

Lemma stays_bind t (r : outcome (Terminal P)) f : stays t r ->
  (forall t', term_ok t' -> cursor_writes (ports t) (ports t') -> stays t' (f t')) -> stays t (mbind f r).
Proof.
  intros (t1 & -> & H1 & C1) Hf. destruct (Hf t1 H1 C1) as (t2 & E2 & H2 & C2). exists t2. cbn [mbind outcome_bind].
  split_and!; [done.. | by eapply cursor_writes_trans].
Qed.

Lemma lor_bound n a b : 0 <= n -> 0 <= a < 2 ^ n -> 0 <= b < 2 ^ n -> 0 <= a .| b < 2 ^ n.
Proof.
  intros Hn Ha Hb. assert (0 <= a .| b) by (apply Z.lor_nonneg; lia). split; [done|].
  apply Z.bounded_iff_bits_nonneg; [done | done |]. intros l Hl. rewrite Z.lor_spec.
  rewrite (proj1 (Z.bounded_iff_bits_nonneg n a ltac:(done) ltac:(lia))) by lia.
  by rewrite (proj1 (Z.bounded_iff_bits_nonneg n b ltac:(done) ltac:(lia))) by lia.
Qed.

Lemma vgaEntry_ok c color : cell_ok (vgaEntry c color).
Proof. pose proof (u8_range c). pose proof (u16_range (color .<< 8)). apply lor_bound; lia. Qed.

(** ** The operations *)

Lemma cursor_ok t : term_ok t -> term_ok (updateHardwareCursor t).
Proof. by intros [? ? ? ? ?]. Qed.

Lemma cursor_ports t : cursor_writes (ports t) (ports (updateHardwareCursor t)).
Proof.
  unfold updateHardwareCursor. cbn [ports set_ports]. eapply (cw_step 0x3D4), (cw_step 0x3D5), (cw_step 0x3D4), (cw_step 0x3D5), cw_refl; auto.
Qed.

Lemma color_ok t c : term_ok t -> 0 <= c < 2 ^ 8 -> term_ok (set_color t c).
Proof. intros [? ? ? ? ?] ?. by split. Qed.

Lemma updated_cells b b' lo n f : updated b b' lo n f -> Forall cell_ok b -> (forall k, (k < n)%nat -> cell_ok (f k)) -> Forall cell_ok b'.
Proof.
  intros [El Hb] Hok Hf. apply Forall_lookup. intros i c Hi. pose proof (lookup_lt_Some _ _ _ Hi) as Hlt. rewrite El in Hlt.
  rewrite (Hb i Hlt) in Hi. destruct (_ && _) eqn:E; [injection Hi as <-; apply Hf; lia|]. by apply (proj1 (Forall_lookup _ _) Hok i c).
Qed.

Lemma clear_rows_ok n t : (n <= 25)%nat -> term_ok t -> stays t (clear_rows (Z.of_nat n) t).
Proof.
  intros Hn [Hl Hc Hr Hco Hcl]. unfold clear_rows.
  destruct (fill_rows_ok n (vgaEntry space (color t)) (buffer t)) as (b & E & Hu); [lia|]. run_call E.
  pose proof (updated_cells _ _ _ _ _ Hu Hc (fun _ _ => vgaEntry_ok _ _)) as Hcells. destruct Hu as [El _].
  apply stays_ret; [|exact (cursor_ports (set_cursor (set_buffer t b) 0 0))]. apply cursor_ok. split; cbn; try lia; try done.
Qed.

Lemma scroll_stays t : term_ok t -> stays t (scroll t).
Proof.
  intros [Hl Hc Hr Hco Hcl]. unfold scroll. destruct (copy_rows_ok (buffer t)) as (b1 & E1 & Hu1); [lia|]. run_call E1.
  assert (Hc1 : Forall cell_ok b1).
  { apply (updated_cells _ _ _ _ _ Hu1 Hc). intros k Hk. destruct (lookup_lt_is_Some_2 (buffer t) (k + 80)) as [v Hv]; [lia|].
    rewrite Hv. by apply (proj1 (Forall_lookup _ _) Hc (k + 80)%nat v). }
  destruct Hu1 as [El1 _]. destruct (fill_row_ok 23 (vgaEntry space (color t)) b1) as (b2 & E2 & Hu2); [lia|].
  change (Z.of_nat 23) with (VGA_HEIGHT - 1) in E2. run_call E2.
  pose proof (updated_cells _ _ _ _ _ Hu2 Hc1 (fun _ _ => vgaEntry_ok _ _)) as Hcells. destruct Hu2 as [El2 _].
  apply stays_ret; [split; cbn; try lia; try done | apply cw_refl].
Qed.

Lemma newline_stays t : 0 <= column t <= 80 -> term_ok (set_cursor t (row t) 0) -> stays t (newline t).
Proof.
  intros Hcol Hok. unfold newline. cbn [row set_cursor]. unfold VGA_HEIGHT. destruct (Z.eqb_spec (row t) (24 - 1)) as [Er|Er].
  - destruct (scroll_stays _ Hok) as (t' & E & H1 & C1). by exists t'.
  - destruct Hok as [? ? Hr ? ?]. cbn in *. apply stays_ret; [|apply cw_refl]. rewrite u16_small by lia. by split; cbn; try lia.
Qed.

Lemma put_cell t r c v : term_ok t -> 0 <= r < 24 -> 0 <= c < 80 -> cell_ok v ->
  exists b, store (buffer t) (r * VGA_WIDTH + c) v = Ok b /\ length b = 2000%nat /\ Forall cell_ok b.
Proof.
  intros [Hl Hc _ _ _] Hr Hco Hv. unfold VGA_WIDTH. rewrite store_in_range by lia. eexists. split; [done|].
  rewrite length_insert. split; [done | by apply Forall_insert].
Qed.

Lemma putChar_stays c t : term_ok t -> stays t (putChar c t).
Proof.
  intros Hok. unfold putChar. destruct (is_newline c).
  { apply newline_stays; destruct Hok; [lia | by split; cbn; try lia]. }
  pose proof Hok as [Hl Hc Hr Hco Hcl]. destruct (put_cell t (row t) (column t) (vgaEntry c (color t)) Hok Hr Hco (vgaEntry_ok _ _))
    as (b & E & El & Hb). run_call E. rewrite u16_small by lia. unfold VGA_WIDTH. cbn [column set_cursor].
  destruct (Z.eqb_spec (column t + 1) 80) as [E80|E80].
  - apply stays_bind.
    + destruct (newline_stays (set_cursor (set_buffer t b) (row t) (column t + 1))) as (t' & E' & ? & ?); [cbn; lia | by split; cbn; try lia |].
      by exists t'.
    + intros t' Ht' _. apply stays_ret; [by apply cursor_ok | apply cursor_ports].
  - apply stays_ret; [|exact (cursor_ports (set_cursor (set_buffer t b) (row t) (column t + 1)))].
    apply cursor_ok. by split; cbn; try lia.
Qed.

Lemma write_stays s t : term_ok t -> stays t (write s t).
Proof.
  revert t. induction s as [|c s IH]; intros t Hok; cbn [write]; [by apply stays_ret; [|apply cw_refl]|].
  destruct (c =? 0); [by apply stays_ret; [|apply cw_refl]|]. apply stays_bind; [by apply putChar_stays|]. intros t' Ht' _. by apply IH.
Qed.

Lemma foldM_stays cs t : term_ok t -> stays t (foldM putChar cs t).
Proof.
  revert t. induction cs as [|c cs IH]; intros t Hok; cbn [foldM]; [by apply stays_ret; [|apply cw_refl]|].
  apply stays_bind; [by apply putChar_stays|]. intros t' Ht' _. by apply IH.
Qed.

Lemma writeDec_stays n t : 0 <= n < 2 ^ 64 -> term_ok t -> stays t (writeDec n t).
Proof. intros Hn Hok. unfold writeDec. destruct (dec_chars_ok n Hn) as (cs & E & _). run_call E. by apply foldM_stays. Qed.

Lemma writeHex_stays n t : 0 <= n < 2 ^ 64 -> term_ok t -> stays t (writeHex n t).
Proof.
  intros Hn Hok. unfold writeHex. apply stays_bind; [by apply write_stays|]. intros t' Ht' _.
  destruct (hex_chars_parse n Hn) as (ds & E & _). run_call E. by apply foldM_stays.
Qed.

Lemma setColor_stays fg bg t : term_ok t -> term_ok (setColor fg bg t).
Proof. intros Hok. by apply color_ok; [|apply u8_range]. Qed.

Lemma backspace_stays t : term_ok t -> stays t (backspace t).
Proof.
  intros Hok. pose proof Hok as [Hl Hc Hr Hco Hcl]. unfold backspace. cbv zeta.
  assert (Hback : forall r c, 0 <= r < 24 -> 0 <= c < 80 ->
    stays t (b ← store (buffer (set_cursor t r c)) (row (set_cursor t r c) * VGA_WIDTH + column (set_cursor t r c)) (vgaEntry space (color (set_cursor t r c)));
             mret (updateHardwareCursor (set_buffer (set_cursor t r c) b)))).
  { intros r c Hr' Hc'. cbn [buffer row column color set_cursor].
    destruct (put_cell t r c (vgaEntry space (color t)) Hok Hr' Hc' (vgaEntry_ok _ _)) as (b & E & El & Hb). run_call E.
    apply stays_ret; [apply cursor_ok; by split; cbn; try lia | exact (cursor_ports (set_buffer (set_cursor t r c) b))]. }
  destruct (Z.gtb_spec (column t) 0); [by apply Hback; lia|]. destruct (Z.gtb_spec (row t) 0); [apply Hback; unfold VGA_WIDTH; lia|].
  by apply stays_ret; [|apply cw_refl].
Qed.

Lemma putCharAt_stays c x y t : 0 <= x < 80 -> 0 <= y < 25 -> term_ok t -> stays t (putCharAt c x y t).
Proof.
  intros Hx Hy [Hl Hc Hr Hco Hcl]. unfold putCharAt, VGA_WIDTH. rewrite u64_small, store_in_range by lia. cbn [mbind outcome_bind].
  apply stays_ret; [|apply cw_refl]. split; cbn; try done. { by rewrite length_insert. } { apply Forall_insert; [done | apply vgaEntry_ok]. }
Qed.

Lemma putCharsAt_stays cs x i y t : 0 <= x -> 0 <= i -> x + i + Z.of_nat (length cs) <= 80 -> 0 <= y < 25 -> term_ok t ->
  stays t (putCharsAt cs x i y t).
Proof.
  intros Hx. revert i t. induction cs as [|c cs IH]; intros i t Hi Hn Hy Hok; cbn [putCharsAt]; [by apply stays_ret; [|apply cw_refl]|].
  simpl length in Hn. rewrite !u64_small by lia. apply stays_bind; [apply putCharAt_stays; (done || lia)|].
  intros t' Ht' _. apply IH; (done || lia).
Qed.

(** ** Sequences of operations *)

Inductive screen_op :=
| PutChar (c : Z) | Write (s : list Z) | WriteHex (n : Z) | WriteDec (n : Z) | Clear | ClearAll | Backspace
| SetColor (fg bg : Z) | SetColorForeground (fg : Z) | SetColorBackground (bg : Z) | SetCursor (r c : Z)
| PutCharAt (c x y : Z) | WriteAt (s : list Z) (x y : Z).

Definition run_op (o : screen_op) t : outcome (Terminal P) :=
  match o with
  | PutChar c => putChar c t
  | Write s => write s t
  | WriteHex n => writeHex n t
  | WriteDec n => writeDec n t
  | Clear => clear t
  | ClearAll => clearAll t
  | Backspace => backspace t
  | SetColor fg bg => mret (setColor fg bg t)
  | SetColorForeground fg => mret (setColorForeground fg t)
  | SetColorBackground bg => mret (setColorBackground bg t)
  | SetCursor r c => mret (setCursor r c t)
  | PutCharAt c x y => putCharAt c x y t
  | WriteAt s x y => writeAt s x y t
  end.

(** The positions that an operation names are on the screen, and numbers have 64 bits. *)
Definition op_ok (o : screen_op) : Prop :=
  match o with
  | WriteHex n | WriteDec n => 0 <= n < 2 ^ 64
  | SetCursor r c => 0 <= r < 24 /\ 0 <= c < 80
  | PutCharAt _ x y => 0 <= x < 80 /\ 0 <= y < 25
  | WriteAt s x y => 0 <= x /\ x + Z.of_nat (length (until_nul s)) <= 80 /\ 0 <= y < 25
  | _ => True
  end.

Lemma run_op_stays o t : op_ok o -> term_ok t -> stays t (run_op o t).
Proof.
  intros Ho Hok. destruct o; cbn [run_op op_ok] in *.
  - by apply putChar_stays.
  - by apply write_stays.
  - by apply writeHex_stays.
  - by apply writeDec_stays.
  - apply (clear_rows_ok 24 t); [lia | done].
  - apply (clear_rows_ok 25 t); [lia | done].
  - by apply backspace_stays.
  - apply stays_ret; [by apply setColor_stays | apply cw_refl].
  - apply stays_ret; [by apply setColor_stays | apply cw_refl].
  - apply stays_ret; [by apply setColor_stays | apply cw_refl].
  - apply stays_ret; [apply cursor_ok; destruct Hok; by split; cbn; try lia | exact (cursor_ports (set_cursor t r c))].
  - by apply putCharAt_stays; try apply Ho.
  - apply putCharsAt_stays; (done || lia).
Qed.

(** A terminal that is cleared stays well formed: any sequence of operations
    whose positions are on the screen returns, and leaves the cells, the colour
    and the cursor within their ranges. *)
Theorem screen_stays_ok ops t : Forall op_ok ops -> term_ok t ->
  exists t', foldM run_op ops t = Ok t' /\ term_ok t' /\ cursor_writes (ports t) (ports t').
Proof.
  intros Ho. revert t. induction Ho as [|o ops Ho Hos IH]; intros t Hok; cbn [foldM]; [by apply stays_ret; [|apply cw_refl]|].
  apply stays_bind; [by apply run_op_stays|]. intros t' Ht' _. by apply IH.
Qed.

(** ** Types of formats *)

(** What is left of the arguments after a directive with the character [f];
    [None] when the next one has another type or is missing.  A [%d] of the
    least [int64_t] is negated, which overflows. *)
Definition consume (f : Z) (args : list arg) : option (list arg) :=
  if f =? 115 then match args with ArgStr _ :: args' => Some args' | _ => None end
  else if (f =? 99) || (f =? 114) || (f =? 82) then match args with ArgInt _ :: args' => Some args' | _ => None end
  else if f =? 100 then match args with Arg64 n :: args' => if s64 (u64 n) =? - 2 ^ 63 then None else Some args' | _ => None end
  else if (f =? 117) || (f =? 120) || (f =? 112) || (f =? 98) || (f =? 111) then
    match args with Arg64 _ :: args' => Some args' | _ => None end
  else Some args.

Fixpoint well_typed (format : list Z) (args : list arg) : bool :=
  match format with
  | [] => true
  | c :: format' =>
      if c =? 0 then true else
      if c =? 37 then
        match format' with
        | [] => false
        | f :: format'' => match consume f args with Some args' => well_typed format'' args' | None => false end
        end
      else well_typed format' args
  end.

Definition directive_result (r : option (list arg)) t (d : outcome (list arg * Terminal P)) : Prop :=
  match r with
  | Some args' => exists t', d = Ok (args', t') /\ term_ok t' /\ cursor_writes (ports t) (ports t')
  | None => d = Fault
  end.

Lemma result_write t args' (r : outcome (Terminal P)) : stays t r -> directive_result (Some args') t (t ← r; mret (args', t)).
Proof. intros (t' & -> & H1 & C1). by exists t'. Qed.


Lemma directive_typed f args t : term_ok t -> directive_result (consume f args) t (directive f args t).
Proof.
  intros Hok. unfold directive, consume.
  assert (Hn : forall n, 0 <= u64 n < 2 ^ 64) by (intros; apply u64_range).
  destruct (Z.eqb_spec f 115) as [->|H1].
  { destruct args as [|[s| |] args]; try done. cbn [va_str mbind outcome_bind mret outcome_ret]. apply result_write. by apply write_stays. }
  destruct (Z.eqb_spec f 99) as [->|H2].
  { cbn [orb]. destruct args as [|[|n|] args]; try done. cbn [va_int mbind outcome_bind mret outcome_ret]. apply result_write. by apply write_stays. }
  destruct (Z.eqb_spec f 114) as [->|H3].
  { cbn [orb]. destruct args as [|[|n|] args]; try done. cbn. eexists. split; [done|]. split; [by apply setColor_stays | apply cw_refl]. }
  destruct (Z.eqb_spec f 82) as [->|H4].
  { cbn [orb]. destruct args as [|[|n|] args]; try done. cbn. eexists. split; [done|]. split; [by apply setColor_stays | apply cw_refl]. }
  cbn [orb]. destruct (Z.eqb_spec f 100) as [->|H5].
  { cbn [orb andb]. destruct args as [|[| |n] args]; try done. cbn [va_64 mbind outcome_bind mret outcome_ret].
    destruct (Z.ltb_spec (s64 (u64 n)) 0) as [Hneg|Hpos].
    - destruct (s64 (u64 n) =? - 2 ^ 63); [done|]. destruct (write_stays (chars "-") t Hok) as (t1 & E1 & Ok1 & C1). run_call E1.
      destruct (writeDec_stays (u64 (- s64 (u64 n))) t1 (Hn _) Ok1) as (t2 & E2 & Ok2 & C2). run_call E2.
      exists t2. split_and!; [done.. | by eapply cursor_writes_trans].
    - rewrite (proj2 (Z.eqb_neq _ _)) by lia. apply result_write. by apply writeDec_stays. }
  cbn [orb]. destruct (Z.eqb_spec f 117) as [->|H6].
  { cbn [orb andb Z.eqb Pos.eqb]. destruct args as [|[| |n] args]; try done. cbn [va_64 mbind outcome_bind mret outcome_ret].
    apply result_write. by apply writeDec_stays. }
  cbn [orb]. destruct (Z.eqb_spec f 120) as [->|H7].
  { cbn [orb andb Z.eqb Pos.eqb]. cbn [mret outcome_ret mbind outcome_bind]. destruct args as [|[| |n] args]; try done. cbn [va_64 mbind outcome_bind mret outcome_ret].
    apply result_write. by apply writeHex_stays. }
  cbn [orb]. destruct (Z.eqb_spec f 112) as [->|H8].
  { cbn [orb]. destruct (write_stays (chars "0x") t Hok) as (t1 & E1 & Ok1 & C1). run_call E1. destruct args as [|[| |n] args]; try done.
    cbn [va_64 mbind outcome_bind mret outcome_ret]. destruct (writeHex_stays (u64 n) t1 (Hn _) Ok1) as (t2 & E2 & Ok2 & C2). run_call E2.
    exists t2. split_and!; [done.. | by eapply cursor_writes_trans]. }
  cbn [orb]. destruct (Z.eqb_spec f 98) as [->|H9].
  { cbn [orb]. destruct args as [|[| |n] args]; try done. cbn [va_64 mbind outcome_bind mret outcome_ret].
    destruct (bin_chars_ok (u64 n) (Hn _)) as (ds & E & _). run_call E. apply result_write. by apply write_stays. }
  cbn [orb]. destruct (Z.eqb_spec f 111) as [->|H10].
  { cbn [orb]. destruct args as [|[| |n] args]; try done. cbn [va_64 mbind outcome_bind mret outcome_ret].
    destruct (oct_chars_ok (u64 n) (Hn _)) as (ds & E & _). run_call E. apply result_write. by apply write_stays. }
  destruct (f =? 37); apply result_write; by apply write_stays.
Qed.

Lemma printf_typed format args t : term_ok t ->
  if well_typed format args
  then exists t', printf format args t = Ok t' /\ term_ok t' /\ cursor_writes (ports t) (ports t')
  else printf format args t = Fault.
Proof.
  remember (length format) as n eqn:En. revert format args t En. induction n as [n IH] using lt_wf_ind. intros format args t En Hok.
  destruct format as [|c format]; cbn [well_typed printf]; [by apply stays_ret; [|apply cw_refl]|].
  destruct (c =? 0); [by apply stays_ret; [|apply cw_refl]|]. cbn [length] in En. destruct (c =? 37).
  - destruct format as [|f format]; [done|]. cbn [length] in En. pose proof (directive_typed f args t Hok) as Hd.
    destruct (consume f args) as [args'|]; cbn [directive_result] in Hd; [|by rewrite Hd].
    destruct Hd as (t1 & E1 & Ok1 & C1). run_call E1. specialize (IH (length format) ltac:(lia) format args' t1 eq_refl Ok1).
    destruct (well_typed format args'); [|done]. destruct IH as (t2 & E2 & Ok2 & C2). exists t2. split_and!; [done.. | by eapply cursor_writes_trans].
  - destruct (write_stays [c] t Hok) as (t1 & E1 & Ok1 & C1). run_call E1.
    specialize (IH (length format) ltac:(lia) format args t1 eq_refl Ok1).
    destruct (well_typed format args); [|done]. destruct IH as (t2 & E2 & Ok2 & C2). exists t2. split_and!; [done.. | by eapply cursor_writes_trans].
Qed.

(** C25. [printf] is type safe and [well_typed] is exactly its type checker: on a
    well-formed terminal a format whose directives match the arguments passed
    is printed, leaving a well-formed terminal, and any other format reads an
    argument that was not passed or not passed with that type. *)
Theorem printf_type_safe format args t : term_ok t ->
  if well_typed format args
  then exists t', printf format args t = Ok t' /\ term_ok t' /\ cursor_writes (ports t) (ports t')
  else printf format args t = Fault.
Proof. apply printf_typed. Qed.

End Screen.

Lemma cleared_terminal_ok : term_ok cleared_terminal.
Proof.
  split; cbn [cleared_terminal buffer row column color]; [apply length_replicate | apply Forall_replicate; apply vgaEntry_ok | lia ..].
Qed.

Lemma printf_type_safe_witness :
  (exists t', printf (chars "%s=%d") [ArgStr (Some (chars "id")); Arg64 7] cleared_terminal = Ok t' /\ term_ok t') /\
  printf (chars "found %d devices") [ArgInt 7] cleared_terminal = Fault.
Proof.
  split.
  - destruct (printf_type_safe (chars "%s=%d") [ArgStr (Some (chars "id")); Arg64 7] cleared_terminal cleared_terminal_ok) as (t' & E & Hok & _).
    exists t'. split; [exact E | exact Hok].
  - exact (printf_type_safe (chars "found %d devices") [ArgInt 7] cleared_terminal cleared_terminal_ok).
Defined.
