(* ===== verification/Serial.v ===== *)
(** The serial port driver, [src/src/drivers/serial/serial.cpp].

    [putChar] spins until the transmitter is empty; [spins] bounds the number
    of times it reads the line status before the model gives up with [Halt].
    The UART is outside the program: [Uart] states the part of the 16550
    data sheet that the driver relies on, and [SimUart] is a device that has
    these properties. *)

From Stdlib Require Import ZifyBool.
From S2P Require Import Prelude Libc Io Format.

Definition COM1 : Z := 0x3F8.
Definition REG_DATA : Z := 0x00.
Definition REG_INT_ENABLE : Z := 0x01.
Definition REG_FIFO_CTRL : Z := 0x02.
Definition REG_LINE_CTRL : Z := 0x03.
Definition REG_MODEM_CTRL : Z := 0x04.
Definition REG_LINE_STATUS : Z := 0x05.

Section Serial.
Context {P : Type} `{PortIO P} (spins : nat).
Implicit Types p : P.

Definition isTransmitEmpty p : bool * P :=
  let (v, p) := inb (COM1 + REG_LINE_STATUS) p in (has v 0x20, p).

Definition init p : P :=
  let p := outb (COM1 + REG_INT_ENABLE) 0x00 p in
  let p := outb (COM1 + REG_LINE_CTRL) 0x80 p in
  let p := outb (COM1 + REG_DATA) 0x03 p in
  let p := outb (COM1 + REG_INT_ENABLE) 0x00 p in
  let p := outb (COM1 + REG_LINE_CTRL) 0x03 p in
  let p := outb (COM1 + REG_FIFO_CTRL) 0xC7 p in
  outb (COM1 + REG_MODEM_CTRL) 0x0B p.

(** [while (!isTransmitEmpty()) pause;] *)
Fixpoint wait_empty (fuel : nat) p : outcome P :=
  match fuel with
  | O => Halt
  | S fuel' => let (e, p) := isTransmitEmpty p in if e then mret p else wait_empty fuel' p
  end.

Definition send (c : Z) p : outcome P := p ← wait_empty spins p; mret (outb (COM1 + REG_DATA) (u8 c) p).

Definition putChar (c : Z) p : outcome P :=
  p ← (if c =? 10 then send 13 p else mret p); send c p.

Fixpoint write (str : list Z) p : outcome P :=
  match str with
  | [] => mret p
  | c :: str' => if c =? 0 then mret p else p ← putChar c p; write str' p
  end.

Definition writeHex (value : Z) p : outcome P :=
  p ← write (chars "0x") p; cs ← hex_chars value; foldM putChar cs p.

Definition writeDec (value : Z) p : outcome P := cs ← dec_chars value; foldM putChar cs p.

End Serial.

(** ** The device *)

(** [line p] says that the data port is the transmit register and not the low
    byte of the divisor, [divisor p] is that byte; [busy p] bounds the status
    reads that can still find the transmitter full. *)
Class Uart (P : Type) `{PortIO P} := {
  line : P -> bool;
  divisor : P -> Z;
  sent : P -> list Z;
  busy : P -> nat;
  max_busy : nat;
  busy_bound p : (busy p <= max_busy)%nat;
  uart_status p v p' : inb (COM1 + REG_LINE_STATUS) p = (v, p') ->
    line p' = line p /\ sent p' = sent p /\ divisor p' = divisor p /\
    (if has v 0x20 then True else (busy p' < busy p)%nat);
  uart_data c p : line p = true ->
    sent (outb (COM1 + REG_DATA) c p) = sent p ++ [c] /\ line (outb (COM1 + REG_DATA) c p) = true /\
    divisor (outb (COM1 + REG_DATA) c p) = divisor p;
  uart_divisor c p : line p = false ->
    sent (outb (COM1 + REG_DATA) c p) = sent p /\ line (outb (COM1 + REG_DATA) c p) = false /\
    divisor (outb (COM1 + REG_DATA) c p) = c;
  uart_line_ctrl c p :
    line (outb (COM1 + REG_LINE_CTRL) c p) = negb (has c 0x80) /\
    sent (outb (COM1 + REG_LINE_CTRL) c p) = sent p /\
    divisor (outb (COM1 + REG_LINE_CTRL) c p) = divisor p;
  uart_other r c p : r = REG_FIFO_CTRL \/ r = REG_MODEM_CTRL \/ r = REG_INT_ENABLE ->
    line (outb (COM1 + r) c p) = line p /\ sent (outb (COM1 + r) c p) = sent p /\
    divisor (outb (COM1 + r) c p) = divisor p;
}.

(** A transmitter that is full for [delay] status reads after every byte, and
    never for more. *)
Record SimUart := mkUart { u_line : bool; u_divisor : Z; u_sent : list Z; u_busy : nat }.
Definition delay : nat := 3.

Definition uart_in (port : Z) (u : SimUart) : Z * SimUart :=
  match Nat.min delay (u_busy u) with
  | O => (0x60, u)
  | S n => (0, mkUart (u_line u) (u_divisor u) (u_sent u) n)
  end.

Definition uart_out (port c : Z) (u : SimUart) : SimUart :=
  if port =? COM1 + REG_DATA then
    if u_line u then mkUart (u_line u) (u_divisor u) (u_sent u ++ [c]) delay
    else mkUart (u_line u) c (u_sent u) (u_busy u)
  else if port =? COM1 + REG_LINE_CTRL then mkUart (negb (has c 0x80)) (u_divisor u) (u_sent u) (u_busy u)
  else u.

#[export] Instance sim_uart_ports : PortIO SimUart :=
  { inb := uart_in; outb := uart_out; inw := uart_in; outw := uart_out; inl := uart_in; outl := uart_out }.

(** ** Transmission *)

Section Transmission.
Context {P : Type} `{U : Uart P} (spins : nat) (Hspins : (max_busy < spins)%nat).
Implicit Types p : P.

(** The bytes on the wire for a string: a carriage return before every line
    feed. *)
Definition wire (cs : list Z) : list Z := concat ((fun c => if c =? 10 then [13; 10] else [u8 c]) <$> cs).

Lemma wait_empty_ok fuel p : (busy p < fuel)%nat -> line p = true ->
  exists p', wait_empty fuel p = Ok p' /\ sent p' = sent p /\ line p' = true /\ divisor p' = divisor p.
Proof.
  revert p. induction fuel as [|fuel IH]; intros p Hb Hl; [lia|]. cbn [wait_empty]. unfold isTransmitEmpty.
  destruct (inb (COM1 + REG_LINE_STATUS) p) as [v p1] eqn:E.
  destruct (uart_status p v p1 E) as (E1 & E2 & E3 & Hbusy). destruct (has v 0x20).
  - exists p1. split_and!; [done | congruence..].
  - destruct (IH p1) as (p2 & Ew & Es & El & Ed); [lia | congruence |]. exists p2. split_and!; [done | congruence..].
Qed.

Lemma send_ok c p : line p = true ->
  exists p', send spins c p = Ok p' /\ sent p' = sent p ++ [u8 c] /\ line p' = true /\ divisor p' = divisor p.
Proof.
  intros Hl. destruct (wait_empty_ok spins p) as (p1 & E & Es & El & Ed); [pose proof (busy_bound p); lia | done |].
  unfold send. run_call E. eexists. split; [done|]. destruct (uart_data (u8 c) p1 El) as (E1 & E2 & E3).
  split_and!; congruence.
Qed.

Lemma write_wire cs p : line p = true -> Forall (fun c => c <> 0) cs ->
  exists p', write spins cs p = Ok p' /\ sent p' = sent p ++ wire cs /\ line p' = true /\ divisor p' = divisor p.
Proof.
  intros Hl Hcs. revert p Hl. induction Hcs as [|c cs Hc Hcs IH]; intros p Hl; cbn [write].
  - exists p. split_and!; try done. by rewrite app_nil_r.
  - rewrite (proj2 (Z.eqb_neq c 0) Hc). unfold putChar, wire. cbn [fmap list_fmap concat].
    destruct (Z.eqb_spec c 10) as [->|Hnl].
    + destruct (send_ok 13 p Hl) as (p1 & E1 & S1 & L1 & D1). run_call E1.
      destruct (send_ok 10 p1 L1) as (p2 & E2 & S2 & L2 & D2). run_call E2.
      destruct (IH p2 L2) as (p3 & E3 & S3 & L3 & D3). exists p3. rewrite E3, S3, S2, S1, D3, D2, D1.
      split_and!; try done. by rewrite <- !app_assoc.
    + cbn [mbind outcome_bind mret outcome_ret].
      destruct (send_ok c p Hl) as (p1 & E1 & S1 & L1 & D1). run_call E1.
      destruct (IH p1 L1) as (p2 & E2 & S2 & L2 & D2). exists p2. rewrite E2, S2, S1, D2, D1.
      split_and!; try done. by rewrite <- !app_assoc.
Qed.


(** Selecting the divisor and back leaves the line ready at divisor 3, and
    nothing is sent. *)
Lemma serial_init_ok p : line (init p) = true /\ sent (init p) = sent p /\ divisor (init p) = 3.
Proof.
  unfold init. cbv zeta. set (p1 := outb (COM1 + REG_INT_ENABLE) _ p).
  set (p2 := outb (COM1 + REG_LINE_CTRL) _ p1). set (p3 := outb (COM1 + REG_DATA) _ p2).
  set (p4 := outb (COM1 + REG_INT_ENABLE) _ p3). set (p5 := outb (COM1 + REG_LINE_CTRL) _ p4).
  set (p6 := outb (COM1 + REG_FIFO_CTRL) _ p5).
  destruct (uart_other REG_INT_ENABLE 0 p ltac:(tauto)) as (_ & S1 & _).
  destruct (uart_line_ctrl 0x80 p1) as (L2 & S2 & _). destruct (uart_divisor 3 p2 L2) as (S3 & _ & D3).
  destruct (uart_other REG_INT_ENABLE 0 p3 ltac:(tauto)) as (_ & S4 & D4).
  destruct (uart_line_ctrl 3 p4) as (L5 & S5 & D5).
  destruct (uart_other REG_FIFO_CTRL 0xC7 p5 ltac:(tauto)) as (L6 & S6 & D6).
  destruct (uart_other REG_MODEM_CTRL 0x0B p6 ltac:(tauto)) as (-> & -> & ->).
  unfold p6, p5, p4, p3, p2, p1 in *. rewrite L6, S6, D6, L5, S5, D5, S4, D4, S3, D3, S2, S1. done.
Qed.

(** ** Properties *)

(** After [init] the port runs with divisor 3, and [write] of any string
    returns, whatever the state of the transmitter, with exactly the bytes of
    the string sent in order, a carriage return before every line feed. *)
Theorem serial_write_correct p cs : Forall (fun c => c <> 0) cs ->
  exists p', write spins cs (init p) = Ok p' /\ sent p' = sent p ++ wire cs /\ divisor p' = 3.
Proof.
  intros Hcs. destruct (serial_init_ok p) as (L & S & D).
  destruct (write_wire cs (init p) L Hcs) as (p' & E & S' & _ & D'). exists p'. split_and!; congruence.
Qed.

End Transmission.

(** ** The simulated device is a UART *)

#[export] Program Instance sim_uart : Uart SimUart :=
  { line := u_line; divisor := u_divisor; sent := u_sent; busy u := Nat.min delay (u_busy u); max_busy := delay }.
Next Obligation. intros. apply Nat.le_min_l. Qed.
Next Obligation.
  intros [l d s b] v p' E. cbn [inb sim_uart_ports] in E. unfold uart_in in E. cbn [u_busy u_line u_divisor u_sent] in *.
  destruct (Nat.min delay b) as [|n] eqn:Eb; injection E as <- <-; split_and!; try done.
  change (has 0 0x20) with false. cbn [u_busy]. lia.
Qed.
Next Obligation. intros c [l d s b] Hl. cbn in *. by subst. Qed.
Next Obligation. intros c [l d s b] Hl. cbn in *. by subst. Qed.
Next Obligation. done. Qed.
Next Obligation. intros r c p [-> |[-> | ->]]; done. Qed.

Lemma serial_write_correct_witness :
  exists p', write 4 (chars "ok") (init (mkUart true 1 [] 2)) = Ok p' /\ sent p' = [111; 107].
Proof.
  destruct (serial_write_correct (U:=sim_uart) 4 (Nat.lt_succ_diag_r 3) (mkUart true 1 [] 2) (chars "ok")) as (p' & E & S & _).
  - repeat constructor; discriminate.
  - exists p'. split; [exact E | exact S].
Defined.
