(* ===== verification/Pic.v ===== *)
(** The interrupt controller driver, [src/src/arch/x86_64/pic.cpp].

    The two 8259A chips are outside the program.  [Chip] is the part of the
    chip's state that the driver programs, [chip_command] and [chip_data] are
    the command words of its data sheet, and the class [Pics] says that a
    device answers the four ports with two such chips. *)

From Stdlib Require Import ZifyBool.
From S2P Require Import Prelude Io.

Definition PIC1_COMMAND : Z := 0x20.
Definition PIC1_DATA : Z := 0x21.
Definition PIC2_COMMAND : Z := 0xA0.
Definition PIC2_DATA : Z := 0xA1.
Definition ICW1_INIT : Z := 0x10.
Definition ICW1_ICW4 : Z := 0x01.
Definition ICW4_8086 : Z := 0x01.
Definition PIC_EOI : Z := 0x20.

Section Pic.
Context {P : Type} `{PortIO P}.
Implicit Types p : P.

Definition remap (master_offset slave_offset : Z) p : P :=
  let (mask1, p) := inb PIC1_DATA p in
  let (mask2, p) := inb PIC2_DATA p in
  let p := io_wait (outb PIC1_COMMAND (ICW1_INIT .| ICW1_ICW4) p) in
  let p := io_wait (outb PIC2_COMMAND (ICW1_INIT .| ICW1_ICW4) p) in
  let p := io_wait (outb PIC1_DATA master_offset p) in
  let p := io_wait (outb PIC2_DATA slave_offset p) in
  let p := io_wait (outb PIC1_DATA 4 p) in
  let p := io_wait (outb PIC2_DATA 2 p) in
  let p := io_wait (outb PIC1_DATA ICW4_8086 p) in
  let p := io_wait (outb PIC2_DATA ICW4_8086 p) in
  let p := outb PIC1_DATA mask1 p in
  outb PIC2_DATA mask2 p.

Definition sendEOI (irq : Z) p : P :=
  let p := if irq >=? 8 then outb PIC2_COMMAND PIC_EOI p else p in
  io_wait (outb PIC1_COMMAND PIC_EOI p).

Definition mask_port (irq : Z) : Z := if irq <? 8 then PIC1_DATA else PIC2_DATA.
Definition irq_line (irq : Z) : Z := if irq <? 8 then irq else u8 (irq - 8).

Definition setMask (irq : Z) p : P :=
  let (v, p) := inb (mask_port irq) p in
  outb (mask_port irq) (u8 (v .| (1 .<< irq_line irq))) p.

Definition clearMask (irq : Z) p : P :=
  let (v, p) := inb (mask_port irq) p in
  outb (mask_port irq) (u8 (v .& .~ (1 .<< irq_line irq))) p.

End Pic.

(** ** The chips *)

(** [icw] counts the initialisation words still expected; [in_service] are the
    interrupts being served, [offset] the vector of line 0. *)
Record Chip := mkChip { icw : nat; offset : Z; cascade : Z; imr : Z; in_service : list Z }.

(** ICW1 starts the initialisation and clears the masks; an EOI ends the
    service of the line with the highest priority. *)
Definition chip_command (v : Z) (c : Chip) : Chip :=
  if has v ICW1_INIT then mkChip 3 (offset c) (cascade c) 0 []
  else if v =? PIC_EOI then mkChip (icw c) (offset c) (cascade c) (imr c) (tail (in_service c))
  else c.

(** ICW2, ICW3 and ICW4 in this order, and the mask register otherwise. *)
Definition chip_data (v : Z) (c : Chip) : Chip :=
  match icw c with
  | 3%nat => mkChip 2 v (cascade c) (imr c) (in_service c)
  | 2%nat => mkChip 1 (offset c) v (imr c) (in_service c)
  | 1%nat => mkChip 0 (offset c) (cascade c) (imr c) (in_service c)
  | _ => mkChip (icw c) (offset c) (cascade c) v (in_service c)
  end.

Class Pics (P : Type) `{PortIO P} := {
  master : P -> Chip;
  slave : P -> Chip;
  pic1_command v p : master (outb PIC1_COMMAND v p) = chip_command v (master p) /\
    slave (outb PIC1_COMMAND v p) = slave p;
  pic2_command v p : slave (outb PIC2_COMMAND v p) = chip_command v (slave p) /\
    master (outb PIC2_COMMAND v p) = master p;
  pic1_data v p : master (outb PIC1_DATA v p) = chip_data v (master p) /\ slave (outb PIC1_DATA v p) = slave p;
  pic2_data v p : slave (outb PIC2_DATA v p) = chip_data v (slave p) /\ master (outb PIC2_DATA v p) = master p;
  pic1_mask p : exists p', inb PIC1_DATA p = (imr (master p), p') /\ master p' = master p /\ slave p' = slave p;
  pic2_mask p : exists p', inb PIC2_DATA p = (imr (slave p), p') /\ master p' = master p /\ slave p' = slave p;
  pic_wait p : master (io_wait p) = master p /\ slave (io_wait p) = slave p;
}.

Section Chips.
Context {P : Type} `{Pics P}.
Implicit Types p : P.

Definition pics_ready p : Prop := icw (master p) = O /\ icw (slave p) = O.

(** Follow the writes of a program through the two chips. *)
Local Ltac follow_ports :=
  repeat match goal with
  | |- context [master (io_wait ?q)] => rewrite (proj1 (pic_wait q))
  | |- context [slave (io_wait ?q)] => rewrite (proj2 (pic_wait q))
  | |- context [master (outb PIC1_COMMAND ?v ?q)] => rewrite (proj1 (pic1_command v q))
  | |- context [slave (outb PIC1_COMMAND ?v ?q)] => rewrite (proj2 (pic1_command v q))
  | |- context [slave (outb PIC2_COMMAND ?v ?q)] => rewrite (proj1 (pic2_command v q))
  | |- context [master (outb PIC2_COMMAND ?v ?q)] => rewrite (proj2 (pic2_command v q))
  | |- context [master (outb PIC1_DATA ?v ?q)] => rewrite (proj1 (pic1_data v q))
  | |- context [slave (outb PIC1_DATA ?v ?q)] => rewrite (proj2 (pic1_data v q))
  | |- context [slave (outb PIC2_DATA ?v ?q)] => rewrite (proj1 (pic2_data v q))
  | |- context [master (outb PIC2_DATA ?v ?q)] => rewrite (proj2 (pic2_data v q))
  end.

Lemma remap_ok m s p : pics_ready p ->
  master (remap m s p) = mkChip 0 m 4 (imr (master p)) [] /\ slave (remap m s p) = mkChip 0 s 2 (imr (slave p)) [].
Proof.
  intros [Hm Hs]. unfold remap. destruct (pic1_mask p) as (p1 & E1 & M1 & S1). rewrite E1.
  destruct (pic2_mask p1) as (p2 & E2 & M2 & S2). rewrite E2, S1. cbv zeta. split; follow_ports; done.
Qed.

Lemma data_ready v c : icw c = O -> chip_data v c = mkChip 0 (offset c) (cascade c) v (in_service c).
Proof. intros Hc. unfold chip_data. by rewrite Hc. Qed.

(** The chip of an interrupt line. *)
Definition chip_of (irq : Z) p : Chip := if irq <? 8 then master p else slave p.

Definition masked (irq : Z) p : bool := Z.testbit (imr (chip_of irq p)) (irq_line irq).

Lemma irq_line_range irq : 0 <= irq < 16 -> 0 <= irq_line irq < 8.
Proof. intros Hi. unfold irq_line. case_if; [lia|]. rewrite u8_small; lia. Qed.

(** Writing the mask register of one line's chip. *)
Lemma write_mask irq v p : pics_ready p -> 0 <= irq < 16 ->
  exists p1, inb (mask_port irq) p = (imr (chip_of irq p), p1) /\
    let p2 := outb (mask_port irq) v p1 in
    pics_ready p2 /\ imr (chip_of irq p2) = v /\
    forall j, (j <? 8) <> (irq <? 8) -> imr (chip_of j p2) = imr (chip_of j p).
Proof.
  intros [Hm Hs] Hi. unfold mask_port, chip_of. destruct (irq <? 8).
  - destruct (pic1_mask p) as (p1 & E & M & S). exists p1. split; [done|]. cbv zeta. unfold pics_ready.
    follow_ports. rewrite M, data_ready, S by done. split_and!; try done.
    intros j Hj. by destruct (j <? 8); follow_ports; rewrite ?S.
  - destruct (pic2_mask p) as (p1 & E & M & S). exists p1. split; [done|]. cbv zeta. unfold pics_ready.
    follow_ports. rewrite M, data_ready by (by rewrite S). split_and!; try done.
    intros j Hj. by destruct (j <? 8); follow_ports; rewrite ?M.
Qed.

Lemma same_line i j : 0 <= i < 16 -> 0 <= j < 16 -> (i <? 8) = (j <? 8) -> i <> j -> irq_line i <> irq_line j.
Proof. intros Hi Hj E Hne. unfold irq_line. rewrite E. case_if; [done|]. rewrite !u8_small; lia. Qed.

Lemma setMask_ok irq p : pics_ready p -> 0 <= irq < 16 ->
  pics_ready (setMask irq p) /\ forall j, 0 <= j < 16 -> masked j (setMask irq p) = (j =? irq) || masked j p.
Proof.
  intros Hp Hi. unfold setMask.
  destruct (write_mask irq (u8 (imr (chip_of irq p) .| (1 .<< irq_line irq))) p Hp Hi) as (p1 & E & Hr & Hv & Ho).
  rewrite E. split; [done|]. intros j Hj. unfold masked. pose proof (irq_line_range irq Hi). pose proof (irq_line_range j Hj).
  destruct (decide ((j <? 8) = (irq <? 8))) as [Es|Es].
  - unfold chip_of at 1. rewrite Es. fold (chip_of irq (outb (mask_port irq) (u8 (imr (chip_of irq p) .| (1 .<< irq_line irq))) p1)).
    rewrite Hv, u8_testbit, Z.lor_spec, testbit_one_shl by lia. rewrite (proj2 (Z.ltb_lt (irq_line j) 8)) by lia. cbn [andb].
    assert (chip_of irq p = chip_of j p) as -> by (unfold chip_of; by rewrite Es).
    destruct (Z.eqb_spec j irq) as [->|Hne]; [rewrite Z.eqb_refl; by destruct (Z.testbit _ _)|].
    rewrite (proj2 (Z.eqb_neq (irq_line irq) (irq_line j))) by (apply same_line; (done || lia)). by rewrite orb_false_r.
  - rewrite Ho by done. destruct (Z.eqb_spec j irq) as [->|]; [done | done].
Qed.

Lemma clearMask_ok irq p : pics_ready p -> 0 <= irq < 16 ->
  pics_ready (clearMask irq p) /\
  forall j, 0 <= j < 16 -> masked j (clearMask irq p) = negb (j =? irq) && masked j p.
Proof.
  intros Hp Hi. unfold clearMask.
  destruct (write_mask irq (u8 (imr (chip_of irq p) .& .~ (1 .<< irq_line irq))) p Hp Hi) as (p1 & E & Hr & Hv & Ho).
  rewrite E. split; [done|]. intros j Hj. unfold masked. pose proof (irq_line_range irq Hi). pose proof (irq_line_range j Hj).
  destruct (decide ((j <? 8) = (irq <? 8))) as [Es|Es].
  - unfold chip_of at 1. rewrite Es. fold (chip_of irq (outb (mask_port irq) (u8 (imr (chip_of irq p) .& .~ (1 .<< irq_line irq))) p1)).
    rewrite Hv, u8_testbit, Z.land_spec, Z.lnot_spec, testbit_one_shl by lia.
    rewrite (proj2 (Z.ltb_lt (irq_line j) 8)) by lia. cbn [andb].
    assert (chip_of irq p = chip_of j p) as -> by (unfold chip_of; by rewrite Es).
    destruct (Z.eqb_spec j irq) as [->|Hne]; [rewrite Z.eqb_refl; apply andb_false_r|].
    rewrite (proj2 (Z.eqb_neq (irq_line irq) (irq_line j))) by (apply same_line; (done || lia)). by rewrite andb_true_r.
  - rewrite Ho by done. destruct (Z.eqb_spec j irq) as [->|]; [done | done].
Qed.

Lemma sendEOI_ok irq p :
  master (sendEOI irq p) = chip_command PIC_EOI (master p) /\
  slave (sendEOI irq p) = if irq >=? 8 then chip_command PIC_EOI (slave p) else slave p.
Proof. unfold sendEOI. cbv zeta. split; destruct (irq >=? 8); follow_ports; done. Qed.

(** ** Properties *)

(** [remap] leaves both chips initialised with the given vector offsets,
    the cascade on line 2 and the interrupt masks as they were before, and
    afterwards [setMask] and [clearMask] change the mask of exactly the line
    they are given, on either chip. *)
Theorem pic_programming_correct m s p irq : pics_ready p -> 0 <= irq < 16 ->
  let p1 := remap m s p in
  offset (master p1) = m /\ offset (slave p1) = s /\ cascade (master p1) = 4 /\ cascade (slave p1) = 2 /\
  (forall j, 0 <= j < 16 -> masked j p1 = masked j p) /\
  (forall j, 0 <= j < 16 -> masked j (setMask irq p1) = (j =? irq) || masked j p) /\
  (forall j, 0 <= j < 16 -> masked j (clearMask irq p1) = negb (j =? irq) && masked j p).
Proof.
  intros Hp Hi p1. destruct (remap_ok m s p Hp) as [Em Es]. fold p1 in Em, Es.
  assert (Hr : pics_ready p1) by (split; by rewrite ?Em, ?Es).
  assert (Hk : forall j, masked j p1 = masked j p).
  { intros j. unfold masked, chip_of. by destruct (j <? 8); rewrite ?Em, ?Es. }
  rewrite Em, Es. split_and!; try done; intros j Hj.
  - by rewrite (proj2 (setMask_ok irq p1 Hr Hi)), Hk.
  - by rewrite (proj2 (clearMask_ok irq p1 Hr Hi)), Hk.
Qed.

End Chips.

(** ** A device with two chips *)

(** [floating] is what every other port answers. *)
Record TwoChips := mkTwo { chip1 : Chip; chip2 : Chip; floating : Z }.

Definition two_out (port v : Z) (d : TwoChips) : TwoChips :=
  if port =? PIC1_COMMAND then mkTwo (chip_command v (chip1 d)) (chip2 d) (floating d)
  else if port =? PIC1_DATA then mkTwo (chip_data v (chip1 d)) (chip2 d) (floating d)
  else if port =? PIC2_COMMAND then mkTwo (chip1 d) (chip_command v (chip2 d)) (floating d)
  else if port =? PIC2_DATA then mkTwo (chip1 d) (chip_data v (chip2 d)) (floating d)
  else d.

Definition two_in (port : Z) (d : TwoChips) : Z * TwoChips :=
  if port =? PIC1_DATA then (imr (chip1 d), d) else if port =? PIC2_DATA then (imr (chip2 d), d) else (floating d, d).

#[export] Instance two_ports : PortIO TwoChips :=
  { inb := two_in; outb := two_out; inw := two_in; outw := two_out; inl := two_in; outl := two_out }.

#[export] Program Instance two_pics : Pics TwoChips := { master := chip1; slave := chip2 }.
Solve Obligations with first [done | intros p; by exists p].

Definition power_on : TwoChips := mkTwo (mkChip 0 8 4 0xFF []) (mkChip 0 0x70 2 0xFF []) 0xFF.

Lemma pic_programming_correct_witness :
  offset (master (remap 0x20 0x28 power_on)) = 0x20 /\ masked 1 (clearMask 1 (remap 0x20 0x28 power_on)) = false.
Proof.
  destruct (pic_programming_correct 0x20 0x28 power_on 1) as (E & _ & _ & _ & _ & _ & Hc).
  - split; reflexivity.
  - lia.
  - split; [exact E|]. rewrite Hc; [reflexivity | lia].
Defined.
