(* ===== verification/Timer.v ===== *)
(** The interval timer, [src/src/arch/x86_64/timer.cpp].

    The sleeps read [g_ticks] until it passes a bound while interrupts change
    it: their model takes the values that the successive reads find, and
    [Halt] is a loop that has not left when the readings end. *)

From Stdlib Require Import ZifyBool.
From S2P Require Import Prelude Io.

Definition PIT_CHANNEL0_DATA : Z := 0x40.
Definition PIT_COMMAND : Z := 0x43.
Definition PIT_BASE_FREQUENCY : Z := 1193182.

Record Timer := mkTimer { g_ticks : Z; g_frequency_hz : Z }.

(** The divisor programmed for a frequency; zero hertz is a division by zero. *)
Definition pit_divisor (frequency_hz : Z) : outcome Z :=
  if frequency_hz =? 0 then Fault else
  let divisor := PIT_BASE_FREQUENCY / frequency_hz in
  mret (if 0xFFFF <? divisor then 0xFFFF else divisor).

(** The registration of [onIRQ] is part of [Interrupts]. *)
Definition init {P} `{PortIO P} (frequency_hz : Z) (p : P) : outcome (Timer * P) :=
  divisor ← pit_divisor frequency_hz;
  let p := outb PIT_COMMAND 0x36 p in
  let p := outb PIT_CHANNEL0_DATA (u8 (divisor .& 0xFF)) p in
  let p := outb PIT_CHANNEL0_DATA (u8 ((divisor .>> 8) .& 0xFF)) p in
  mret (mkTimer 0 frequency_hz, p).

Definition getTicks (t : Timer) : Z := g_ticks t.

Definition onIRQ (t : Timer) : Timer := mkTimer (u64 (g_ticks t + 1)) (g_frequency_hz t).

(** [while (true) if (bound < getTicks()) break;] *)
Fixpoint wait_past (bound : Z) (readings : list Z) : outcome (list Z) :=
  match readings with
  | [] => Halt
  | r :: readings' => if bound <? r then mret readings' else wait_past bound readings'
  end.

Definition sleep_for (ticks : Z) (readings : list Z) : outcome (list Z) :=
  match readings with
  | [] => Halt
  | ticks_ :: readings' => wait_past (u64 (ticks_ + ticks)) readings'
  end.

Definition sleepTicks (ticks : Z) (readings : list Z) : outcome (list Z) := sleep_for ticks readings.
Definition sleepMiliseconds (ms : Z) (readings : list Z) : outcome (list Z) := sleep_for ms readings.
Definition sleepSeconds (s : Z) (readings : list Z) : outcome (list Z) := sleep_for (u64 (s * 1000)) readings.

(** ** The sleeps *)

(** The readings of a counter that starts at [t] and advances by the given
    numbers of ticks between the reads. *)
Fixpoint readings_from (t : Z) (steps : list Z) : list Z :=
  match steps with [] => [] | d :: steps' => u64 (t + d) :: readings_from (u64 (t + d)) steps' end.

Definition elapsed (steps : list Z) : Z := fold_right Z.add 0 steps.

Lemma readings_app t a b : Forall (fun d => 0 <= d) a -> 0 <= t -> t + elapsed a < 2 ^ 64 ->
  readings_from t (a ++ b) = readings_from t a ++ readings_from (t + elapsed a) b.
Proof.
  intros Ha. revert t. induction Ha as [|d a Hd Ha IH]; intros t Ht Hb; cbn [app elapsed fold_right readings_from] in *.
  - by rewrite Z.add_0_r.
  - fold (elapsed a) in *. assert (0 <= elapsed a) by (clear -Ha; induction Ha; simpl; lia).
    rewrite u64_small by lia. rewrite IH by lia. cbn [app]. by rewrite Z.add_assoc.
Qed.

(** The loop leaves at the first reading past the bound: the prefix of the
    reads it makes. *)
Lemma wait_past_ok t bound steps : 0 <= t <= bound -> Forall (fun d => 0 <= d) steps ->
  bound < t + elapsed steps < 2 ^ 64 ->
  exists a b, steps = a ++ b /\ wait_past bound (readings_from t steps) = Ok (readings_from (t + elapsed a) b) /\
    bound < t + elapsed a /\ forall a' d, a = a' ++ [d] -> t + elapsed a' <= bound.
Proof.
  intros Ht Hs. revert t Ht. induction Hs as [|d steps Hd Hs IH]; intros t Ht He; cbn [elapsed fold_right] in He; [lia|].
  fold (elapsed steps) in He. assert (0 <= elapsed steps) by (clear -Hs; induction Hs; simpl; lia).
  cbn [readings_from wait_past]. rewrite u64_small by lia. destruct (bound <? t + d) eqn:E; bool_to_prop.
  - exists [d], steps. split_and!; [done | cbn; by rewrite Z.add_0_r | cbn; lia |].
    intros a' x Ea. destruct a' as [|y a']; [cbn; lia|]. destruct a'; discriminate.
  - destruct (IH (t + d)) as (a & b & -> & Ew & Hb & Hf); [lia | lia |].
    exists (d :: a), b. cbn [elapsed fold_right]. fold (elapsed a). replace (t + (d + elapsed a)) with (t + d + elapsed a) by lia.
    split_and!; [done | done | done |]. intros a' x Ea. destruct a' as [|y a']; injection Ea as <- Ea; cbn; [lia|].
    fold (elapsed a'). specialize (Hf a' x Ea). lia.
Qed.

(** ** Properties *)

(** C38. A sleep ends: however the ticks of the timer fall between the reads of
    the counter, once more than [ticks] of them have passed the loop leaves,
    and at that point more than [ticks] ticks, and no more than at the first
    read that sees this, have passed since the call.  [sleepMiliseconds] counts
    ticks as milliseconds, which is right at the 1000 Hz that [kernel_main]
    programs. *)
Theorem sleep_terminates t ticks steps : 0 <= t -> 0 <= ticks -> Forall (fun d => 0 <= d) steps ->
  ticks < elapsed steps -> t + elapsed steps < 2 ^ 64 ->
  exists a b, steps = a ++ b /\
    sleepMiliseconds ticks (t :: readings_from t steps) = Ok (readings_from (t + elapsed a) b) /\
    sleepTicks ticks (t :: readings_from t steps) = Ok (readings_from (t + elapsed a) b) /\
    ticks < elapsed a /\ forall a' d, a = a' ++ [d] -> elapsed a' <= ticks.
Proof.
  intros Ht Hk Hs He Hw. destruct (wait_past_ok t (t + ticks) steps) as (a & b & Es & Ew & Hb & Hf); [lia | done | lia |].
  exists a, b. unfold sleepMiliseconds, sleepTicks, sleep_for. rewrite u64_small by lia. split_and!; try done; [lia|].
  intros a' d Ea. specialize (Hf a' d Ea). lia.
Qed.

Lemma sleep_terminates_witness :
  exists a b, [0; 1; 1; 1; 1] = a ++ b /\
    sleepMiliseconds 2 (7 :: readings_from 7 [0; 1; 1; 1; 1]) = Ok (readings_from (7 + elapsed a) b) /\ 2 < elapsed a.
Proof.
  destruct (sleep_terminates 7 2 [0; 1; 1; 1; 1]) as (a & b & Es & E & _ & Hlt & _).
  - lia.
  - lia.
  - repeat constructor; lia.
  - vm_compute. reflexivity.
  - vm_compute. reflexivity.
  - exists a, b. split; [exact Es|]. split; [exact E | exact Hlt].
Defined.

(** The divisor fits the two bytes of the channel. *)
Lemma pit_divisor_fits f d : 0 < f -> pit_divisor f = Ok d -> 0 <= d <= 0xFFFF.
Proof.
  intros Hf. unfold pit_divisor. case_if; [lia|]. intros [= <-]. pose proof (Z.div_pos PIT_BASE_FREQUENCY f).
  unfold PIT_BASE_FREQUENCY in *. case_if; lia.
Qed.
