(* ===== verification/Multiboot.v ===== *)
(** The boot loader's information, [src/src/kernel/multiboot.cpp] and
    [multiboot.h].

    The structure is the list of its bytes from [mb_info_addr] on; reading
    past it is a [Fault].  The callback is a function on a state [S], which
    stands for what [user_data] and the callback's globals hold.  The loop over
    the tags has fuel for one step per byte; a tag of size zero makes it spin
    in place, which is [Halt]. *)

From Stdlib Require Import ZifyBool.
From S2P Require Import Prelude Bytes Format.

Definition TAG_TYPE_END : Z := 0.
Definition TAG_TYPE_MMAP : Z := 6.
Definition MEMORY_AVAILABLE : Z := 1.
Definition MEMORY_RESERVED : Z := 2.
Definition MEMORY_ACPI_RECLAIMABLE : Z := 3.
Definition MEMORY_NVS : Z := 4.
Definition MEMORY_BADRAM : Z := 5.

Definition memoryTypeToString (type : Z) : list Z :=
  if type =? MEMORY_AVAILABLE then chars "Available" else
  if type =? MEMORY_RESERVED then chars "Reserved" else
  if type =? MEMORY_ACPI_RECLAIMABLE then chars "ACPI Reclaimable" else
  if type =? MEMORY_NVS then chars "ACPI NVS" else
  if type =? MEMORY_BADRAM then chars "Bad RAM" else chars "Unknown".

Record MmapEntry := mkEntry { base_addr : Z; length_ : Z; type : Z; reserved : Z }.

Definition entry_widths : list nat := [8; 8; 4; 4]%nat.
Definition decode_entry (bs : list Z) : MmapEntry :=
  match unpack entry_widths bs with
  | [b; l; t; r] => mkEntry b l t r
  | _ => mkEntry 0 0 0 0
  end.

Section Parse.
Context {S : Type} (callback : MmapEntry -> S -> S).

Fixpoint parse_entries (n : nat) (entry_ptr entry_size : Z) (mem : list Z) (s : S) : outcome S :=
  match n with
  | O => mret s
  | Datatypes.S n' =>
      bs ← slice mem entry_ptr 24;
      parse_entries n' (entry_ptr + entry_size) entry_size mem (callback (decode_entry bs) s)
  end.

(** A memory map tag at [ptr], of size [size]. *)
Definition parse_mmap (ptr size : Z) (mem : list Z) (s : S) : outcome S :=
  entry_size ← get_le 4 mem (ptr + 8);
  if entry_size =? 0 then Fault else
  let entry_count := u32 (u64 (size - 16) / entry_size) in
  parse_entries (Z.to_nat entry_count) (ptr + 16) entry_size mem s.

Fixpoint parse_tags (fuel : nat) (ptr end_ : Z) (mem : list Z) (found_mmap : bool) (s : S) : outcome (bool * S) :=
  match fuel with
  | O => Halt
  | Datatypes.S fuel' =>
      if negb (ptr <? end_) then mret (found_mmap, s) else
      tag_type ← get_le 4 mem ptr;
      if tag_type =? TAG_TYPE_END then mret (found_mmap, s) else
      size ← get_le 4 mem (ptr + 4);
      '(found_mmap, s) ←
        (if tag_type =? TAG_TYPE_MMAP then s ← parse_mmap ptr size mem s; mret (true, s) else mret (found_mmap, s));
      parse_tags fuel' (ptr + (u32 (size + 7) .& u32 (.~ 7))) end_ mem found_mmap s
  end.

Definition parseMemoryMap (mem : list Z) (s : S) : outcome (bool * S) :=
  total_size ← get_le 4 mem 0;
  parse_tags (Datatypes.S (length mem)) 8 total_size mem false s.

End Parse.

(** ** The structure a boot loader writes *)

Definition encode_entry (entry_size : Z) (e : MmapEntry) : list Z :=
  pack entry_widths [base_addr e; length_ e; type e; reserved e] ++ replicate (Z.to_nat (entry_size - 24)) 0.

Inductive tag : Type :=
| OtherTag (type : Z) (payload : list Z)
| MmapTag (entry_size entry_version : Z) (entries : list MmapEntry).

Definition tag_size (t : tag) : Z :=
  match t with
  | OtherTag _ payload => 8 + Z.of_nat (length payload)
  | MmapTag es _ entries => 16 + es * Z.of_nat (length entries)
  end.

Definition tag_type (t : tag) : Z := match t with OtherTag ty _ => ty | MmapTag _ _ _ => TAG_TYPE_MMAP end.

Definition tag_body (t : tag) : list Z :=
  match t with
  | OtherTag _ payload => payload
  | MmapTag es v entries => le 4 es ++ le 4 v ++ concat (encode_entry es <$> entries)
  end.

Definition tag_pad (t : tag) : Z := (8 - tag_size t mod 8) mod 8.

(** Tags start at multiples of eight. *)
Definition tag_bytes (t : tag) : list Z :=
  le 4 (tag_type t) ++ le 4 (tag_size t) ++ tag_body t ++ replicate (Z.to_nat (tag_pad t)) 0.

Definition tags_bytes (tags : list tag) : list Z := concat (tag_bytes <$> tags) ++ le 4 TAG_TYPE_END ++ le 4 8.

Definition info_bytes (tags : list tag) : list Z :=
  le 4 (8 + Z.of_nat (length (tags_bytes tags))) ++ le 4 0 ++ tags_bytes tags.

Definition entry_ok (e : MmapEntry) : Prop := fields_ok entry_widths [base_addr e; length_ e; type e; reserved e].

Definition tag_ok (t : tag) : Prop :=
  tag_size t < 2 ^ 32 - 8 /\
  match t with
  | OtherTag ty _ => 0 <= ty < 2 ^ 32 /\ ty <> TAG_TYPE_END /\ ty <> TAG_TYPE_MMAP
  | MmapTag es _ entries => 24 <= es < 2 ^ 32 /\ Forall entry_ok entries
  end.

Definition tag_entries (t : tag) : list MmapEntry := match t with OtherTag _ _ => [] | MmapTag _ _ entries => entries end.
Definition is_mmap (t : tag) : bool := match t with OtherTag _ _ => false | MmapTag _ _ _ => true end.

(** ** Reading it back *)

Definition zlen (l : list Z) : Z := Z.of_nat (length l).

Lemma zlen_app a b : zlen (a ++ b) = zlen a + zlen b.
Proof. unfold zlen. rewrite length_app. lia. Qed.

Lemma zlen_le w v : 0 <= w -> zlen (le w v) = w.
Proof. intros. unfold zlen. rewrite length_le by done. lia. Qed.

Lemma get_le_app pre w v rest : 0 <= w -> 0 <= v < 2 ^ (8 * w) -> get_le w (pre ++ le w v ++ rest) (zlen pre) = Ok v.
Proof.
  intros Hw Hv. unfold get_le. pose proof (slice_app pre (le w v) rest) as E. rewrite length_le in E by done.
  rewrite Z2Nat.id in E by done. unfold zlen. run_call E. by rewrite le_value_le.
Qed.

Lemma zlen_entry es e : 24 <= es -> zlen (encode_entry es e) = es.
Proof. intros. unfold encode_entry, zlen. rewrite length_app, length_pack, length_replicate by done. simpl. lia. Qed.

Lemma decode_encode_entry e : entry_ok e ->
  decode_entry (pack entry_widths [base_addr e; length_ e; type e; reserved e]) = e.
Proof.
  intros He. unfold decode_entry. pose proof (unpack_pack entry_widths _ [] He) as E. rewrite app_nil_r in E.
  rewrite E. by destruct e.
Qed.

Lemma zlen_entries es entries : 24 <= es -> zlen (concat (encode_entry es <$> entries)) = es * Z.of_nat (length entries).
Proof.
  intros Hes. induction entries as [|e entries IH]; cbn [fmap list_fmap concat length]; [unfold zlen; simpl; lia|].
  rewrite zlen_app, zlen_entry, IH by done. lia.
Qed.

Lemma zlen_tag t : tag_ok t -> zlen (tag_bytes t) = tag_size t + tag_pad t.
Proof.
  intros [Hs Ht]. unfold tag_bytes. rewrite !zlen_app, !zlen_le by lia.
  assert (0 <= tag_pad t) by (apply Z.mod_pos_bound; lia). unfold zlen at 2. rewrite length_replicate.
  assert (zlen (tag_body t) + 8 = tag_size t); [|lia].
  destruct t as [ty payload|es v entries]; cbn [tag_body tag_size]; [unfold zlen; lia|].
  rewrite !zlen_app, !zlen_le, zlen_entries by lia. lia.
Qed.

Lemma high_bit x n k : 0 <= x < 2 ^ k -> 0 <= k <= n -> Z.testbit x n = false.
Proof. intros Hx Hk. rewrite <- (Z.mod_small x (2 ^ k) Hx). apply Z.mod_pow2_bits_high. lia. Qed.

(** The rounding of the code to the next tag. *)
Lemma next_tag t : tag_ok t -> u32 (tag_size t + 7) .& u32 (.~ 7) = tag_size t + tag_pad t.
Proof.
  intros [Hs Ht]. assert (0 <= tag_size t).
  { destruct t; cbn [tag_size]; [lia|]. destruct Ht. nia. }
  set (s := tag_size t) in *. unfold tag_pad. fold s. clearbody s. rewrite (u32_small (s + 7)) by lia.
  assert (E : (s + 7) .& u32 (.~ 7) = (s + 7) .& u64 (.~ (2 ^ 3 - 1))).
  { apply Z.bits_inj_iff'. intros n Hn. rewrite !Z.land_spec. destruct (decide (n < 32)).
    - unfold u32, u64. rewrite !Z.testbit_mod_pow2 by lia. change (2 ^ 3 - 1) with 7.
      rewrite (proj2 (Z.ltb_lt n 32)), (proj2 (Z.ltb_lt n 64)) by lia. done.
    - rewrite (high_bit (s + 7) n 32) by lia. cbn [andb]. reflexivity. }
  rewrite E, land_floor by lia. change (2 ^ 3) with 8. clear E Hs Ht.
  pose proof (Z.div_mod s 8) as Hd. pose proof (Z.mod_pos_bound s 8) as Hm.
  set (q := s / 8) in *. set (r := s mod 8) in *. clearbody q r. destruct (decide (r = 0)).
  - rewrite <- (Z.div_unique (s + 7) 8 q 7) by lia. rewrite <- (Z.mod_unique (8 - r) 8 1 0) by lia. lia.
  - rewrite <- (Z.div_unique (s + 7) 8 (q + 1) (r - 1)) by lia. rewrite (Z.mod_small (8 - r)) by lia. lia.
Qed.

Section ReadBack.
Context {S : Type} (callback : MmapEntry -> S -> S).

Lemma parse_entries_ok es entries pre rest s : 24 <= es -> Forall entry_ok entries ->
  parse_entries callback (length entries) (zlen pre) es (pre ++ concat (encode_entry es <$> entries) ++ rest) s =
  Ok (fold_left (fun s e => callback e s) entries s).
Proof.
  intros Hes Hok. revert pre s. induction Hok as [|e entries He Hok IH]; intros pre s; [done|].
  cbn [length parse_entries fold_left].
  set (bs := pack entry_widths [base_addr e; length_ e; type e; reserved e]).
  set (pad := replicate (Z.to_nat (es - 24)) 0).
  change (concat (encode_entry es <$> e :: entries)) with ((bs ++ pad) ++ concat (encode_entry es <$> entries)).
  assert (Hbs : zlen bs = 24) by done.
  pose proof (slice_app pre bs (pad ++ concat (encode_entry es <$> entries) ++ rest)) as Esl.
  fold (zlen pre) (zlen bs) in Esl. rewrite Hbs in Esl. rewrite <- !app_assoc. run_call Esl.
  unfold bs. rewrite decode_encode_entry by done. fold bs.
  assert (Hlen : zlen pre + es = zlen (pre ++ bs ++ pad)).
  { rewrite !zlen_app, Hbs. unfold pad, zlen. rewrite length_replicate. lia. }
  specialize (IH (pre ++ bs ++ pad) (callback e s)). rewrite <- Hlen, <- !app_assoc in IH. apply IH.
Qed.

Lemma parse_tag_ok t pre rest fuel end_ found s : tag_ok t -> zlen pre < end_ ->
  parse_tags callback (Datatypes.S fuel) (zlen pre) end_ (pre ++ tag_bytes t ++ rest) found s =
  parse_tags callback fuel (zlen (pre ++ tag_bytes t)) end_ ((pre ++ tag_bytes t) ++ rest)
    (found || is_mmap t) (fold_left (fun s e => callback e s) (tag_entries t) s).
Proof.
  intros Hok Hend. pose proof Hok as [Hsz Ht]. cbn [parse_tags]. rewrite (proj2 (Z.ltb_lt _ _) Hend). cbn [negb].
  assert (Hty : 0 <= tag_type t < 2 ^ 32 /\ tag_type t <> TAG_TYPE_END /\ 0 <= tag_size t).
  { destruct t as [ty p|es v en]; cbn [tag_type tag_size]; [lia|]. unfold TAG_TYPE_MMAP, TAG_TYPE_END. destruct Ht. nia. }
  assert (E1 : get_le 4 (pre ++ tag_bytes t ++ rest) (zlen pre) = Ok (tag_type t)).
  { unfold tag_bytes. rewrite <- !app_assoc. apply get_le_app; lia. }
  run_call E1. rewrite (proj2 (Z.eqb_neq _ _)) by apply Hty.
  assert (E2 : get_le 4 (pre ++ tag_bytes t ++ rest) (zlen pre + 4) = Ok (tag_size t)).
  { pose proof (get_le_app (pre ++ le 4 (tag_type t)) 4 (tag_size t)
      (tag_body t ++ replicate (Z.to_nat (tag_pad t)) 0 ++ rest) ltac:(lia) ltac:(lia)) as E.
    rewrite zlen_app, zlen_le in E by lia. unfold tag_bytes. rewrite <- !app_assoc in *. exact E. }
  run_call E2. rewrite next_tag by done. rewrite zlen_app, zlen_tag, app_assoc by done.
  destruct t as [ty payload|es v entries].
  - destruct Ht as (_ & _ & Hne). cbn [tag_type]. rewrite (proj2 (Z.eqb_neq ty _) Hne), orb_false_r. done.
  - destruct Ht as [Hes Hent]. cbn [tag_type]. change (TAG_TYPE_MMAP =? TAG_TYPE_MMAP) with true. cbv iota.
    unfold parse_mmap.
    assert (E3 : get_le 4 ((pre ++ tag_bytes (MmapTag es v entries)) ++ rest) (zlen pre + 8) = Ok es).
    { pose proof (get_le_app (pre ++ le 4 TAG_TYPE_MMAP ++ le 4 (tag_size (MmapTag es v entries))) 4 es
        (le 4 v ++ concat (encode_entry es <$> entries) ++
         replicate (Z.to_nat (tag_pad (MmapTag es v entries))) 0 ++ rest) ltac:(lia) ltac:(lia)) as E.
      rewrite !zlen_app, !zlen_le in E by lia. unfold tag_bytes, tag_body. rewrite <- !app_assoc in *. exact E. }
    run_call E3. rewrite (proj2 (Z.eqb_neq es 0)) by lia.
    assert (Esz : tag_size (MmapTag es v entries) - 16 = es * Z.of_nat (length entries)) by (cbn [tag_size]; lia).
    rewrite Esz. cbn [tag_size] in Hsz.
    assert (0 <= es * Z.of_nat (length entries)) by nia.
    rewrite u64_small, (Z.mul_comm es), Z.div_mul, u32_small, Nat2Z.id by nia.
    pose proof (parse_entries_ok es entries (pre ++ le 4 TAG_TYPE_MMAP ++ le 4 (tag_size (MmapTag es v entries)) ++ le 4 es ++ le 4 v)
      (replicate (Z.to_nat (tag_pad (MmapTag es v entries))) 0 ++ rest) s ltac:(lia) Hent) as E4.
    rewrite !zlen_app, !zlen_le in E4 by lia. change (4 + (4 + (4 + 4))) with 16 in E4. unfold tag_bytes, tag_body in *. rewrite <- !app_assoc in *.
    cbn [tag_type] in *. run_call E4. by rewrite orb_true_r.
Qed.

Lemma tags_bytes_cons t tags : tags_bytes (t :: tags) = tag_bytes t ++ tags_bytes tags.
Proof. unfold tags_bytes. cbn [fmap list_fmap concat]. by rewrite <- app_assoc. Qed.

Lemma tags_bytes_length tags : Forall tag_ok tags -> 8 + Z.of_nat (length tags) <= zlen (tags_bytes tags).
Proof.
  induction 1 as [|t tags Ht Hok IH]; [done|]. rewrite tags_bytes_cons, zlen_app, zlen_tag by done. cbn [length].
  assert (0 <= tag_pad t) by (apply Z.mod_pos_bound; lia). destruct Ht as [_ Ht].
  destruct t; cbn [tag_size] in *; [lia|]. destruct Ht. nia.
Qed.

Lemma parse_tags_ok tags pre fuel end_ found s : Forall tag_ok tags -> (length tags < fuel)%nat ->
  zlen (pre ++ tags_bytes tags) <= end_ ->
  parse_tags callback fuel (zlen pre) end_ (pre ++ tags_bytes tags) found s =
  Ok (found || existsb is_mmap tags, fold_left (fun s e => callback e s) (concat (tag_entries <$> tags)) s).
Proof.
  intros Hok. revert pre fuel found s. induction Hok as [|t tags Ht Hok IH]; intros pre fuel found s Hf He;
    (destruct fuel as [|fuel]; [lia|]); rewrite zlen_app in He.
  - cbn [parse_tags]. change (zlen (tags_bytes [])) with 8 in He.
    rewrite (proj2 (Z.ltb_lt (zlen pre) end_)) by lia. cbn [negb].
    assert (E : get_le 4 (pre ++ tags_bytes []) (zlen pre) = Ok TAG_TYPE_END) by (apply get_le_app; unfold TAG_TYPE_END; lia).
    run_call E. cbn [existsb]. by rewrite orb_false_r.
  - pose proof (tags_bytes_length (t :: tags) ltac:(by constructor)). cbn [length] in *.
    rewrite tags_bytes_cons, parse_tag_ok by (done || lia).
    rewrite IH; [|lia|].
    + cbn [existsb fmap list_fmap concat]. by rewrite orb_assoc, fold_left_app.
    + rewrite <- app_assoc, <- tags_bytes_cons, zlen_app. lia.
Qed.

Lemma parse_info tags s : Forall tag_ok tags -> 8 + zlen (tags_bytes tags) < 2 ^ 32 ->
  parseMemoryMap callback (info_bytes tags) s =
  Ok (existsb is_mmap tags, fold_left (fun s e => callback e s) (concat (tag_entries <$> tags)) s).
Proof.
  intros Hok Hsz. unfold parseMemoryMap. pose proof (tags_bytes_length tags Hok) as Hlen. unfold info_bytes.
  fold (zlen (tags_bytes tags)). set (total := 8 + zlen (tags_bytes tags)) in *.
  assert (E : get_le 4 (le 4 total ++ le 4 0 ++ tags_bytes tags) 0 = Ok total).
  { apply (get_le_app [] 4 total); [lia|]. unfold total. lia. }
  run_call E. rewrite app_assoc. set (pre := le 4 total ++ le 4 0).
  assert (Hpre : zlen pre = 8) by (unfold pre; rewrite zlen_app, !zlen_le; lia). rewrite <- Hpre.
  rewrite parse_tags_ok; [done | done | | rewrite zlen_app; unfold total; lia].
  unfold zlen in *. rewrite length_app. lia.
Qed.

(** ** Properties *)

(** [parseMemoryMap] reads back what a boot loader writes: on every
    well-formed information structure, with any other tags, padding and
    entry size, it terminates, calls the callback on exactly the entries of
    the memory maps in order, and reports whether there was a map. *)
Theorem parseMemoryMap_correct tags s : Forall tag_ok tags -> 8 + zlen (tags_bytes tags) < 2 ^ 32 ->
  parseMemoryMap callback (info_bytes tags) s =
  Ok (existsb is_mmap tags, fold_left (fun s e => callback e s) (concat (tag_entries <$> tags)) s).
Proof. apply parse_info. Qed.

End ReadBack.

Definition sample_tags : list tag :=
  [OtherTag 2 [71; 82; 85; 66; 0]; MmapTag 24 0 [mkEntry 0 0x9F000 1 0; mkEntry 0x100000 0x700000 1 0]].

Lemma sample_tags_ok : Forall tag_ok sample_tags.
Proof. repeat constructor; vm_compute; discriminate. Qed.

Lemma parseMemoryMap_correct_witness :
  parseMemoryMap (fun e l => l ++ [base_addr e]) (info_bytes sample_tags) [] = Ok (true, [0; 0x100000]).
Proof.
  apply (parseMemoryMap_correct (fun e l => l ++ [base_addr e]) sample_tags []).
  - exact sample_tags_ok.
  - vm_compute. reflexivity.
Defined.

(** A tag of size zero is never left: the parser spins on it. *)
Theorem parse_spins_on_empty_tag {S} (callback : MmapEntry -> S -> S) fuel mem s end_ found :
  get_le 4 mem 8 = Ok 2 -> get_le 4 mem 12 = Ok 0 -> 8 < end_ ->
  parse_tags callback fuel 8 end_ mem found s = Halt.
Proof.
  intros Ht Hs He. induction fuel as [|fuel IH]; [done|]. cbn [parse_tags]. rewrite (proj2 (Z.ltb_lt 8 end_) He).
  cbn [negb]. run_call Ht. change (8 + 4) with 12. run_call Hs. exact IH.
Qed.
