(* ===== verification/Boot.v ===== *)
(** The memory part of [kernel_main], [src/src/kernel/main.cpp]: it collects the
    usable regions of the boot loader's map, places the frame bitmap behind the
    kernel image and hands the rest to the frame allocator.

    [kernel_end] is the linker's symbol [kernel_physical_end]; the bytes at the
    bitmap's address are whatever the memory holds there. *)

From Stdlib Require Import ZifyBool.
From S2P Require Import Prelude Pmm Bytes Multiboot.

Definition MAX_MMAP_REGIONS : nat := 64.

Record StoredRegion := mkRegion { r_base : Z; r_length : Z }.

(** [g_highest_address] *)
Definition findHighestAddress (entry : MmapEntry) (highest : Z) : Z :=
  if type entry =? MEMORY_AVAILABLE then
    let region_end := u64 (base_addr entry + length_ entry) in
    if highest <? region_end then region_end else highest
  else highest.

(** [g_available_regions] with [g_available_region_count]. *)
Definition collectAvailableRegion (entry : MmapEntry) (regions : list StoredRegion) : list StoredRegion :=
  if (type entry =? MEMORY_AVAILABLE) && (length regions <? MAX_MMAP_REGIONS)%nat
  then regions ++ [mkRegion (base_addr entry) (length_ entry)] else regions.

Definition bitmap_address (kernel_end : Z) : Z := u64 (kernel_end + 0xFFF) .& u64 (.~ 0xFFF).

Definition free_regions (regions : list StoredRegion) (p : PhysicalMemoryManager) : outcome PhysicalMemoryManager :=
  foldM (fun r => markRegionFree (r_base r) (r_length r)) regions p.

(** Lines 124 to 154, without the progress messages. *)
Definition setup_memory (mem : list Z) (kernel_end : Z) (bitmap_storage : list Z) : outcome PhysicalMemoryManager :=
  '(_, highest) ← parseMemoryMap findHighestAddress mem 0;
  '(_, regions) ← parseMemoryMap collectAvailableRegion mem [];
  let bitmap_addr := bitmap_address kernel_end in
  p ← Pmm.init highest bitmap_storage;
  p ← free_regions regions p;
  let bitmap_size := bitmapSizeFor highest in
  markRegionUsed 0 (u64 (bitmap_addr + bitmap_size)) p.

(** ** What the map says *)

Definition available (e : MmapEntry) : bool := type e =? MEMORY_AVAILABLE.
Definition region_end (e : MmapEntry) : Z := base_addr e + length_ e.

(** The regions the kernel keeps: the first 64 that are available. *)
Definition usable (entries : list MmapEntry) : list MmapEntry := take 64 (List.filter available entries).

(** A map whose regions end below the top of the address space. *)
Definition map_ok (entries : list MmapEntry) : Prop :=
  Forall (fun e => 0 <= base_addr e /\ 0 <= length_ e /\ region_end e < 2 ^ 64) entries.

(** The end of the highest available region. *)
Definition top (entries : list MmapEntry) : Z := fold_left (fun h e => if available e then Z.max h (region_end e) else h) entries 0.

Lemma fold_highest entries h : map_ok entries ->
  fold_left (fun s e => findHighestAddress e s) entries h =
  fold_left (fun h e => if available e then Z.max h (region_end e) else h) entries h.
Proof.
  intros Hok. revert h. induction Hok as [|e entries He Hok IH]; intros h; [done|]. cbn [fold_left].
  rewrite IH. f_equal. unfold findHighestAddress, available, region_end in *. case_if; [|done].
  rewrite u64_small by lia. case_if; lia.
Qed.

Lemma top_from entries h : map_ok entries -> 0 <= h < 2 ^ 64 ->
  let t := fold_left (fun h e => if available e then Z.max h (region_end e) else h) entries h in
  h <= t < 2 ^ 64 /\ Forall (fun e => available e = true -> region_end e <= t) entries.
Proof.
  intros Hok. revert h. induction Hok as [|e entries He Hok IH]; intros h Hh; cbn [fold_left]; [split; [lia|done]|].
  destruct (IH (if available e then Z.max h (region_end e) else h)) as [Hb Hall].
  { unfold region_end in *. destruct (available e); lia. }
  split; [destruct (available e); lia|]. constructor; [|done]. intros Ea. rewrite Ea in *. lia.
Qed.

Lemma fold_collect entries rs : (length rs <= 64)%nat ->
  fold_left (fun s e => collectAvailableRegion e s) entries rs =
  rs ++ ((fun e => mkRegion (base_addr e) (length_ e)) <$> take (64 - length rs) (List.filter available entries)).
Proof.
  revert rs. induction entries as [|e entries IH]; intros rs Hl; cbn [fold_left List.filter].
  - by rewrite take_nil, app_nil_r.
  - unfold collectAvailableRegion at 2. fold (available e). destruct (available e); cbn [andb]; [|by apply IH].
    unfold MAX_MMAP_REGIONS. destruct (length rs <? 64)%nat eqn:E.
    + apply Nat.ltb_lt in E. rewrite IH by (rewrite length_app; simpl; lia). rewrite length_app. simpl length.
      replace (64 - length rs)%nat with (S (64 - (length rs + 1)))%nat by lia. simpl. by rewrite <- app_assoc.
    + apply Nat.ltb_ge in E. rewrite IH by lia. replace (64 - length rs)%nat with O by lia. by rewrite !take_0.
Qed.

(** The frames of a region, rounded down at both ends as the allocator does. *)
Definition region_frames (e : MmapEntry) (f : Z) : Prop :=
  base_addr e / FRAME_SIZE <= f < region_end e / FRAME_SIZE.

Lemma free_regions_ok es p : pmm_wf p -> map_ok es ->
  exists p', free_regions ((fun e => mkRegion (base_addr e) (length_ e)) <$> es) p = Ok p' /\ pmm_wf p' /\
    total_frames_ p' = total_frames_ p /\
    forall f, f ∈ free_frames p' <-> f ∈ free_frames p \/ f < total_frames_ p /\ Exists (fun e => region_frames e f) es.
Proof.
  intros Hwf Hok. revert p Hwf. induction Hok as [|e es He Hok IH]; intros p Hwf.
  - exists p. split_and!; try done. intros f. rewrite Exists_nil. tauto.
  - cbn [fmap list_fmap]. unfold free_regions. cbn [foldM r_base r_length].
    destruct (markRegionFree_spec (base_addr e) (length_ e) p Hwf ltac:(lia)) as (p1 & E1 & W1 & T1 & F1). run_call E1.
    destruct (IH p1 W1) as (p2 & E2 & W2 & T2 & F2). exists p2. split_and!; [exact E2 | done | congruence |].
    intros f. rewrite F2, F1, T1, elem_of_union, elem_of_frame_range, Exists_cons. unfold region_frames, region_end in *.
    rewrite u64_small by lia. intuition lia.
Qed.

(** ** Properties *)

(** C10. After the memory setup of the kernel the frame allocator is well
    formed and its free frames are exactly the frames of the available
    regions of the boot loader's map (the first 64) that lie behind the
    kernel image and the frame bitmap, so no frame that holds the image or
    the bitmap can be allocated.  The frames of a region run from the one its
    start lies in to the last one it covers. *)
Theorem setup_memory_correct tags kernel_end storage :
  Forall tag_ok tags -> 8 + zlen (tags_bytes tags) < 2 ^ 32 ->
  let entries := concat (tag_entries <$> tags) in
  map_ok entries -> 0 <= kernel_end < 2 ^ 48 -> bitmapSizeFor (top entries) <= Z.of_nat (length storage) ->
  exists p, setup_memory (info_bytes tags) kernel_end storage = Ok p /\ pmm_wf p /\
    let reserved_end := (kernel_end + 0xFFF) / 4096 * 4096 + bitmapSizeFor (top entries) in
    forall f, f ∈ free_frames p <->
      Exists (fun e => region_frames e f) (usable entries) /\ (reserved_end + 0xFFF) / 4096 <= f.
Proof.
  intros Htags Hsz entries Hmap Hke Hst. unfold setup_memory. rewrite !parse_info by done.
  cbn [mbind outcome_bind]. fold entries. rewrite fold_highest, fold_collect by (done || simpl; lia). fold (top entries).
  destruct (top_from entries 0 Hmap) as [Htop Hmax]; [lia|]. fold (top entries) in Htop, Hmax.
  destruct (init_spec (top entries) storage Htop Hst) as (p0 & E0 & W0 & F0 & T0 & _). run_call E0.
  cbn [app length]. rewrite Nat.sub_0_r. fold (usable entries).
  assert (Hus : map_ok (usable entries)).
  { unfold usable. apply list.Forall_take, Forall_forall. intros e He. apply filter_In in He as [He _].
    unfold map_ok in Hmap. rewrite Forall_forall in Hmap. by apply Hmap. }
  destruct (free_regions_ok (usable entries) p0 W0 Hus) as (p1 & E1 & W1 & T1 & F1). run_call E1.
  pose proof (bitmapSizeFor_covers (top entries) Htop) as [Hbn Hbc].
  assert (Ht52 : top entries / FRAME_SIZE < 2 ^ 52) by (apply Z.div_lt_upper_bound; unfold FRAME_SIZE; lia).
  assert (Ebm : bitmap_address kernel_end = (kernel_end + 0xFFF) / 4096 * 4096).
  { unfold bitmap_address. rewrite (u64_small (kernel_end + 0xFFF)) by lia. apply (land_floor _ 12); lia. }
  rewrite Ebm. set (rend := (kernel_end + 0xFFF) / 4096 * 4096 + bitmapSizeFor (top entries)).
  assert (Hrend : 0 <= rend < 2 ^ 62).
  { unfold rend. pose proof (Z.div_mod (kernel_end + 0xFFF) 4096). pose proof (Z.mod_pos_bound (kernel_end + 0xFFF) 4096).
    pose proof (Z.div_pos (kernel_end + 0xFFF) 4096). lia. }
  rewrite (u64_small rend) by lia.
  destruct (markRegionUsed_spec 0 rend p1 W1 ltac:(lia)) as (p2 & E2 & W2 & T2 & F2).
  exists p2. split_and!; [done | done |]. cbv zeta. intros f.
  rewrite F2, elem_of_difference, elem_of_frame_range, F1, F0, T1, T0. change (0 / FRAME_SIZE) with 0.
  rewrite (u64_small (0 + rend + FRAME_SIZE - 1)) by (unfold FRAME_SIZE; lia).
  replace (0 + rend + FRAME_SIZE - 1) with (rend + 0xFFF) by (unfold FRAME_SIZE; lia). change FRAME_SIZE with 4096.
  assert (Hf : Exists (fun e => region_frames e f) (usable entries) -> 0 <= f < top entries / 4096).
  { intros Hex. apply Exists_exists in Hex as (e & He & Hlo & Hhi). unfold usable in He.
    apply list_elem_of_In, elem_of_take in He as (i & Hi & _). apply list_elem_of_lookup_2, list_elem_of_In in Hi.
    apply filter_In in Hi as [Hi Ha]. unfold map_ok in Hmap. rewrite Forall_forall in Hmap, Hmax.
    specialize (Hmap e Hi). specialize (Hmax e Hi Ha). unfold FRAME_SIZE in *.
    pose proof (Z.div_pos (base_addr e) 4096). pose proof (Z.div_le_mono (region_end e) (top entries) 4096). lia. }
  split.
  - intros [[He|[Hlt Hex]] Hout]; [set_solver|]. specialize (Hf Hex). split; [done|]. lia.
  - intros [Hex Hlo]. specialize (Hf Hex). split; [right; split; [lia | done] | lia].
Qed.

Lemma setup_memory_correct_witness :
  exists p, setup_memory (info_bytes sample_tags) 0x180000 (replicate 256 0) = Ok p /\ pmm_wf p /\
    usedFrames p = 385.
Proof.
  destruct (setup_memory_correct sample_tags 0x180000 (replicate 256 0)) as (p & E & W & _).
  - exact sample_tags_ok.
  - vm_compute. reflexivity.
  - repeat constructor; vm_compute; (discriminate || reflexivity).
  - lia.
  - vm_compute. discriminate.
  - exists p. split; [exact E|]. split; [exact W|].
    assert (Hc : (p ← setup_memory (info_bytes sample_tags) 0x180000 (replicate 256 0); mret (usedFrames p)) = Ok 385)
      by (vm_compute; reflexivity).
    rewrite E in Hc. injection Hc as Hc. exact Hc.
Defined.
