(* ===== verification/Gdt.v ===== *)
(** Segment descriptors and the task state segment,
    [src/src/arch/x86_64/gdt.cpp] and [gdt.h].

    The tables are the bytes that the processor reads.  [seg_base],
    [seg_limit] and the flags below are the fields of a descriptor as the
    processor's manual lays them out. *)

From Stdlib Require Import ZifyBool.
From S2P Require Import Prelude Bytes.

Definition GDT_KERNEL_CODE : Z := 0x08.
Definition GDT_KERNEL_DATA : Z := 0x10.
Definition GDT_USER_CODE : Z := 0x18 .| 3.
Definition GDT_USER_DATA : Z := 0x20 .| 3.
Definition GDT_TSS : Z := 0x28.
Definition GDT_ENTRIES : Z := 5.

Record GdtEntry := mkGdtEntry {
  limit_low : Z; base_low : Z; base_mid : Z; access : Z; granularity : Z; base_high : Z
}.

Record TssDescriptor := mkTssDescriptor { td_low : GdtEntry; base_upper : Z; td_reserved : Z }.

Definition gdt_widths : list nat := [2; 2; 1; 1; 1; 1]%nat.
Definition tss_tail_widths : list nat := [4; 4]%nat.
Definition gdt_fields (e : GdtEntry) : list Z :=
  [limit_low e; base_low e; base_mid e; access e; granularity e; base_high e].
Definition encode_gdt (e : GdtEntry) : list Z := pack gdt_widths (gdt_fields e).
Definition encode_tss_descriptor (d : TssDescriptor) : list Z :=
  encode_gdt (td_low d) ++ pack tss_tail_widths [base_upper d; td_reserved d].

(** [struct TSS]: 104 bytes. *)
Record TSS := mkTSS { rsp0 : Z; rsp1 : Z; rsp2 : Z; ist : list Z; iomap_base : Z }.
Definition SIZEOF_TSS : Z := 4 + 8 * 3 + 8 + 8 * 7 + 8 + 2 + 2.

Definition gate (base limit access gran : Z) : GdtEntry :=
  mkGdtEntry (limit .& 0xFFFF) (base .& 0xFFFF) ((base .>> 16) .& 0xFF) access
    (((limit .>> 16) .& 0x0F) .| (gran .& 0xF0)) ((base .>> 24) .& 0xFF).

Definition set_gate (index base limit access gran : Z) (g_gdt : list GdtEntry) : outcome (list GdtEntry) :=
  store g_gdt index (gate base limit access gran).

Definition set_tss_descriptor (base limit : Z) : TssDescriptor :=
  mkTssDescriptor
    (mkGdtEntry (limit .& 0xFFFF) (base .& 0xFFFF) ((base .>> 16) .& 0xFF) 0x89 ((limit .>> 16) .& 0xFF)
       ((base .>> 24) .& 0xFF))
    ((base .>> 32) .& 0xFFFFFFFF) 0.

(** The state after [gdt_init]: the storage that the processor is pointed at,
    the limit given to [lgdt], and the task state segment. *)
Record Gdt := mkGdt { gdt_storage : list Z; gdt_limit : Z; g_tss : TSS }.

Definition gdt_set_kernel_stack (stack : Z) (g : Gdt) : Gdt :=
  mkGdt (gdt_storage g) (gdt_limit g)
    (mkTSS stack (rsp1 (g_tss g)) (rsp2 (g_tss g)) (ist (g_tss g)) (iomap_base (g_tss g))).

(** [tss_address] is the address of [g_tss]; [g_gdt] and [storage] are what the
    tables held before. *)
Definition gdt_init (tss_address : Z) (g_gdt : list GdtEntry) (storage : list Z) : outcome Gdt :=
  g_gdt ← set_gate 0 0 0 0 0 g_gdt;
  g_gdt ← set_gate 1 0 0xFFFF 0x9A 0xA0 g_gdt;
  g_gdt ← set_gate 2 0 0xFFFF 0x92 0x80 g_gdt;
  g_gdt ← set_gate 3 0 0xFFFF 0xFA 0xA0 g_gdt;
  g_gdt ← set_gate 4 0 0xFFFF 0xF2 0x80 g_gdt;
  storage ← for_range 0 GDT_ENTRIES (fun i st => e ← load g_gdt i; splice st (8 * i) (encode_gdt e)) storage;
  let tss := mkTSS 0 0 0 (replicate 7 0) SIZEOF_TSS in
  let desc := set_tss_descriptor tss_address (SIZEOF_TSS - 1) in
  storage ← splice storage (GDT_ENTRIES * 8) (encode_tss_descriptor desc);
  mret (mkGdt storage (u16 (GDT_ENTRIES * 8 + 16 - 1)) tss).

(** ** The processor's view *)

(** The eight bytes of the descriptor that a selector names. *)
Definition descriptor (table : list Z) (selector : Z) : outcome (list Z) :=
  bs ← slice table (8 * (selector / 8)) 8; mret (unpack gdt_widths bs).

Record Segment := mkSegment {
  seg_base : Z; seg_limit : Z; seg_type : Z; seg_system : bool; seg_dpl : Z; seg_present : bool; seg_long : bool
}.

Definition decode_segment (fields : list Z) : Segment :=
  let f i := nth i fields 0 in
  mkSegment (f 1%nat + 2 ^ 16 * f 2%nat + 2 ^ 24 * f 5%nat)
    (f 0%nat + 2 ^ 16 * (f 4%nat mod 16))
    (f 3%nat mod 16) (negb (Z.testbit (f 3%nat) 4)) ((f 3%nat / 32) mod 4) (Z.testbit (f 3%nat) 7) (Z.testbit (f 4%nat) 5).

Definition segment_of (table : list Z) (selector : Z) : outcome Segment :=
  fs ← descriptor table selector; mret (decode_segment fs).

(** The upper half of the base of a system descriptor. *)
Definition upper_base (table : list Z) (selector : Z) : outcome Z := get_le 4 table (8 * (selector / 8) + 8).

(** ** Properties *)

Lemma byte_field x n : 0 <= n -> ((x .>> n) .& 0xFF) = (x / 2 ^ n) mod 2 ^ 8.
Proof. intros. change 0xFF with (Z.ones 8). by rewrite Z.land_ones, Z.shiftr_div_pow2. Qed.

Lemma base_parts b : 0 <= b < 2 ^ 64 ->
  b = b mod 2 ^ 16 + 2 ^ 16 * ((b / 2 ^ 16) mod 2 ^ 8) + 2 ^ 24 * ((b / 2 ^ 24) mod 2 ^ 8) + 2 ^ 32 * ((b / 2 ^ 32) mod 2 ^ 32).
Proof.
  intros Hb. rewrite (Z.mod_small (b / 2 ^ 32)) by (split; [apply Z.div_pos; lia | apply Z.div_lt_upper_bound; lia]).
  change (2 ^ 24) with (2 ^ 16 * 2 ^ 8). change (2 ^ 32) with (2 ^ 16 * 2 ^ 8 * 2 ^ 8).
  rewrite <- !Z.div_div by lia. set (b1 := b / 2 ^ 16). pose proof (Z.div_mod b (2 ^ 16)). fold b1 in H.
  pose proof (Z.div_mod b1 (2 ^ 8)). set (b2 := b1 / 2 ^ 8) in *. pose proof (Z.div_mod b2 (2 ^ 8)). lia.
Qed.

(** The table the code builds, as bytes. *)
Definition gdt_bytes (tss_address : Z) : list Z :=
  encode_gdt (gate 0 0 0 0) ++ encode_gdt (gate 0 0xFFFF 0x9A 0xA0) ++ encode_gdt (gate 0 0xFFFF 0x92 0x80) ++
  encode_gdt (gate 0 0xFFFF 0xFA 0xA0) ++ encode_gdt (gate 0 0xFFFF 0xF2 0x80) ++
  encode_tss_descriptor (set_tss_descriptor tss_address (SIZEOF_TSS - 1)).

Lemma length_encode_gdt e : length (encode_gdt e) = 8%nat.
Proof. done. Qed.

Lemma fields_gate e : 0 <= limit_low e < 2 ^ 16 -> 0 <= base_low e < 2 ^ 16 -> 0 <= base_mid e < 2 ^ 8 ->
  0 <= access e < 2 ^ 8 -> 0 <= granularity e < 2 ^ 8 -> 0 <= base_high e < 2 ^ 8 -> fields_ok gdt_widths (gdt_fields e).
Proof. intros. unfold fields_ok, gdt_widths, gdt_fields. repeat first [apply List.Forall2_nil | apply List.Forall2_cons; [assumption|]]. Qed.

(** A selector reads the descriptor that was stored in its slot. *)
Lemma descriptor_app pre e rest i : Z.of_nat (length pre) = 8 * i -> forall sel, sel / 8 = i ->
  fields_ok gdt_widths (gdt_fields e) -> descriptor (pre ++ encode_gdt e ++ rest) sel = Ok (gdt_fields e).
Proof.
  intros Hp sel Hs Hf. unfold descriptor. rewrite Hs, <- Hp.
  pose proof (slice_app pre (encode_gdt e) rest) as E. rewrite length_encode_gdt in E. change (Z.of_nat 8) with 8 in E.
  run_call E. f_equal. pose proof (unpack_pack gdt_widths _ [] Hf) as Eu. rewrite app_nil_r in Eu. exact Eu.
Qed.

Lemma copy_gates gs storage : length gs = 5%nat -> length storage = 56%nat ->
  exists st, for_range 0 GDT_ENTRIES (fun i st => e ← load gs i; splice st (8 * i) (encode_gdt e)) storage = Ok st /\
    length st = 56%nat /\ take 40 st = concat (encode_gdt <$> gs).
Proof.
  intros Hg Hs.
  destruct (for_range_rule (fun i st => length st = 56%nat /\
      take (Z.to_nat (8 * i)) st = concat (encode_gdt <$> take (Z.to_nat i) gs))
    0 GDT_ENTRIES (fun i st => e ← load gs i; splice st (8 * i) (encode_gdt e)) storage) as (st & E & Hl & Ht);
    [done | done | | exists st; split_and!; try done; change (Z.to_nat (8 * GDT_ENTRIES)) with 40%nat in Ht;
       rewrite Ht, firstn_all2; [done | unfold GDT_ENTRIES; lia]].
  unfold GDT_ENTRIES. intros i st Hi [Hl Ht]. destruct (load_in_range gs i) as (e & E & Hget); [lia|]. run_call E.
  rewrite splice_ok by (rewrite ?length_encode_gdt; lia). eexists. split; [done|].
  replace (Z.to_nat (i + 1)) with (S (Z.to_nat i)) by lia.
  rewrite (take_S_r _ _ e Hget), fmap_app, concat_app, <- Ht. cbn [fmap list_fmap concat]. rewrite app_nil_r.
  split.
  - rewrite !length_app, length_take, length_drop, length_encode_gdt. lia.
  - rewrite app_assoc. rewrite take_app_length'; [done|]. rewrite length_app, length_take, length_encode_gdt. lia.
Qed.

Lemma gdt_init_ok a g storage : length g = 5%nat -> length storage = 56%nat ->
  gdt_init a g storage = Ok (mkGdt (gdt_bytes a) 55 (mkTSS 0 0 0 (replicate 7 0) SIZEOF_TSS)).
Proof.
  intros Hg Hs. unfold gdt_init, set_gate. rewrite !store_in_range; cbn [mbind outcome_bind];
    repeat (rewrite ?store_in_range; cbn [mbind outcome_bind]; rewrite ?length_insert); try lia.
  set (gs := <[Z.to_nat 4 := _]> _).
  assert (Egs : gs = [gate 0 0 0 0; gate 0 0xFFFF 0x9A 0xA0; gate 0 0xFFFF 0x92 0x80; gate 0 0xFFFF 0xFA 0xA0;
    gate 0 0xFFFF 0xF2 0x80]).
  { subst gs. destruct g as [|? [|? [|? [|? [|? [|]]]]]]; done. }
  destruct (copy_gates gs storage) as (st & E & Hl & Ht); [by rewrite Egs | done |]. run_call E.
  rewrite splice_ok by (unfold GDT_ENTRIES; simpl; lia). cbn [mbind outcome_bind mret outcome_ret]. do 2 f_equal.
  change (Z.to_nat (GDT_ENTRIES * 8)) with 40%nat. rewrite Ht, Egs.
  rewrite (drop_ge st) by (simpl; lia). rewrite app_nil_r. done.
Qed.

(** The entry of the task state segment. *)
Lemma tss_fields a : fields_ok gdt_widths (gdt_fields (td_low (set_tss_descriptor a (SIZEOF_TSS - 1)))).
Proof.
  apply fields_gate; cbn [td_low set_tss_descriptor limit_low base_low base_mid access granularity base_high];
    try (vm_compute; split; (discriminate || reflexivity)); rewrite ?byte_field by lia; try (apply Z.mod_pos_bound; lia).
  change 0xFFFF with (Z.ones 16). rewrite Z.land_ones by lia. apply Z.mod_pos_bound. lia.
Qed.

(** [gdt_init] builds the table that the rest of the kernel assumes, as
    the processor decodes it: at the kernel and user selectors present code
    and data segments of privilege 0 and 3, the code segments 64-bit, a null
    first entry, and at [GDT_TSS] an available 64-bit TSS whose base is the
    address of [g_tss], wherever it lies, and whose limit is its size. *)
Theorem gdt_init_correct a g storage : 0 <= a < 2 ^ 64 -> length g = 5%nat -> length storage = 56%nat ->
  exists gdt, gdt_init a g storage = Ok gdt /\
    Z.of_nat (length (gdt_storage gdt)) = gdt_limit gdt + 1 /\
    let seg := segment_of (gdt_storage gdt) in
    seg 0 = Ok (mkSegment 0 0 0 true 0 false false) /\
    seg GDT_KERNEL_CODE = Ok (mkSegment 0 0xFFFF 0xA false 0 true true) /\
    seg GDT_KERNEL_DATA = Ok (mkSegment 0 0xFFFF 0x2 false 0 true false) /\
    seg GDT_USER_CODE = Ok (mkSegment 0 0xFFFF 0xA false 3 true true) /\
    seg GDT_USER_DATA = Ok (mkSegment 0 0xFFFF 0x2 false 3 true false) /\
    exists low high, seg GDT_TSS = Ok (mkSegment low (SIZEOF_TSS - 1) 9 true 0 true false) /\
      upper_base (gdt_storage gdt) GDT_TSS = Ok high /\ low + 2 ^ 32 * high = a.
Proof.
  intros Ha Hg Hs. eexists. split; [by apply gdt_init_ok|]. cbn [gdt_storage gdt_limit]. split; [done|]. cbv zeta.
  unfold segment_of. set (d := set_tss_descriptor a (SIZEOF_TSS - 1)).
  assert (Hseg : forall pre e rest i sel, gdt_bytes a = pre ++ encode_gdt e ++ rest -> Z.of_nat (length pre) = 8 * i ->
    sel / 8 = i -> fields_ok gdt_widths (gdt_fields e) -> descriptor (gdt_bytes a) sel = Ok (gdt_fields e)).
  { intros pre e rest i sel -> Hp Hsel Hf. by apply (descriptor_app pre e rest i). }
  rewrite (Hseg [] (gate 0 0 0 0) _ 0 0 eq_refl eq_refl eq_refl) by (by apply fields_okb_ok).
  rewrite (Hseg (encode_gdt (gate 0 0 0 0)) (gate 0 0xFFFF 0x9A 0xA0) _ 1 GDT_KERNEL_CODE eq_refl eq_refl eq_refl)
    by (by apply fields_okb_ok).
  rewrite (Hseg (encode_gdt (gate 0 0 0 0) ++ encode_gdt (gate 0 0xFFFF 0x9A 0xA0)) (gate 0 0xFFFF 0x92 0x80) _ 2
    GDT_KERNEL_DATA eq_refl eq_refl eq_refl) by (by apply fields_okb_ok).
  rewrite (Hseg (encode_gdt (gate 0 0 0 0) ++ encode_gdt (gate 0 0xFFFF 0x9A 0xA0) ++ encode_gdt (gate 0 0xFFFF 0x92 0x80))
    (gate 0 0xFFFF 0xFA 0xA0) _ 3 GDT_USER_CODE eq_refl eq_refl eq_refl) by (by apply fields_okb_ok).
  rewrite (Hseg (encode_gdt (gate 0 0 0 0) ++ encode_gdt (gate 0 0xFFFF 0x9A 0xA0) ++ encode_gdt (gate 0 0xFFFF 0x92 0x80) ++
    encode_gdt (gate 0 0xFFFF 0xFA 0xA0)) (gate 0 0xFFFF 0xF2 0x80) _ 4 GDT_USER_DATA eq_refl eq_refl eq_refl)
    by (by apply fields_okb_ok).
  do 5 (split; [vm_compute; reflexivity|]).
  set (pre := encode_gdt (gate 0 0 0 0) ++ encode_gdt (gate 0 0xFFFF 0x9A 0xA0) ++ encode_gdt (gate 0 0xFFFF 0x92 0x80) ++
    encode_gdt (gate 0 0xFFFF 0xFA 0xA0) ++ encode_gdt (gate 0 0xFFFF 0xF2 0x80)).
  rewrite (Hseg pre (td_low d) (pack tss_tail_widths [base_upper d; td_reserved d]) 5 GDT_TSS eq_refl eq_refl eq_refl
    (tss_fields a)).
  eexists _, (base_upper d). split; [cbn [mbind outcome_bind mret outcome_ret]; f_equal; unfold decode_segment; simpl nth; f_equal; try reflexivity|].
  split.
  - pose proof (slice_app (pre ++ encode_gdt (td_low d)) (le 4 (base_upper d)) (le 4 0)) as E. unfold upper_base, get_le.
    rewrite length_app, length_le in E by lia. change (length pre + length (encode_gdt (td_low d)))%nat with 48%nat in E.
    change (Z.of_nat (Z.to_nat 4)) with 4 in E. change (8 * (GDT_TSS / 8) + 8) with (Z.of_nat 48).
    replace (gdt_bytes a) with ((pre ++ encode_gdt (td_low d)) ++ le 4 (base_upper d) ++ le 4 0)
      by (rewrite <- app_assoc; reflexivity).
    run_call E. rewrite le_value_le; [done | lia |]. unfold d. cbn [base_upper set_tss_descriptor].
    change 0xFFFFFFFF with (Z.ones 32). rewrite Z.land_ones by lia. apply Z.mod_pos_bound. lia.
  - unfold d. cbn [td_low base_upper set_tss_descriptor base_low base_mid base_high]. rewrite !byte_field by lia.
    change 0xFFFF with (Z.ones 16). change 0xFFFFFFFF with (Z.ones 32). rewrite !Z.land_ones, Z.shiftr_div_pow2 by lia.
    symmetry. by apply base_parts.
Qed.

Lemma gdt_init_correct_witness :
  exists gdt, gdt_init 0x123456789A (replicate 5 (gate 0 0 0 0)) (replicate 56 0) = Ok gdt /\
    segment_of (gdt_storage gdt) GDT_USER_CODE = Ok (mkSegment 0 0xFFFF 0xA false 3 true true).
Proof.
  destruct (gdt_init_correct 0x123456789A (replicate 5 (gate 0 0 0 0)) (replicate 56 0)) as (g & E & _ & _ & _ & _ & U & _).
  - lia.
  - reflexivity.
  - reflexivity.
  - exists g. split; [exact E | exact U].
Defined.
