(* ===== verification/Idt.v ===== *)
(** The interrupt descriptor table, [src/src/arch/x86_64/idt.cpp]: the gates
    and their installation.  The addresses of the assembly stubs of [isr.S] and
    [syscall.S] are given by the linker: [isr_stub], [irq_stub] and [isr128]. *)

From Stdlib Require Import ZifyBool.
From S2P Require Import Prelude Gdt.

Definition IDT_ENTRIES : Z := 256.
Definition INTERRUPT_GATE : Z := 0x8E.
Definition SYSCALL_GATE : Z := 0xEF.

Record IdtEntry := mkIdtEntry {
  offset_low : Z; selector : Z; ist : Z; type_attr : Z; offset_mid : Z; offset_high : Z; zero : Z
}.

#[export] Instance IdtEntry_eq_dec : EqDecision IdtEntry.
Proof. solve_decision. Defined.

Definition idt_gate (handler selector type_attr : Z) : IdtEntry :=
  mkIdtEntry (handler .& 0xFFFF) selector 0 type_attr ((handler .>> 16) .& 0xFFFF) ((handler .>> 32) .& 0xFFFFFFFF) 0.

Definition set_gate (vector handler selector type_attr : Z) (g_idt : list IdtEntry) : outcome (list IdtEntry) :=
  store g_idt vector (idt_gate handler selector type_attr).

(** [g_idt_ptr.limit] and the table. *)
Definition idt_init (isr_stub irq_stub : Z -> Z) (isr128 : Z) (g_idt : list IdtEntry) : outcome (Z * list IdtEntry) :=
  t ← for_range 0 32 (fun i => set_gate i (isr_stub i) GDT_KERNEL_CODE INTERRUPT_GATE) g_idt;
  t ← for_range 0 16 (fun i => set_gate (32 + i) (irq_stub i) GDT_KERNEL_CODE INTERRUPT_GATE) t;
  t ← set_gate 0x80 isr128 GDT_KERNEL_CODE SYSCALL_GATE t;
  mret (16 * IDT_ENTRIES - 1, t).

(** ** The processor's view of a gate *)

Definition gate_offset (e : IdtEntry) : Z := offset_low e + 2 ^ 16 * offset_mid e + 2 ^ 32 * offset_high e.
Definition gate_present (e : IdtEntry) : bool := Z.testbit (type_attr e) 7.
Definition gate_dpl (e : IdtEntry) : Z := (type_attr e / 32) mod 4.
(** An interrupt gate (14) disables interrupts on entry, a trap gate (15) does not. *)
Definition gate_type (e : IdtEntry) : Z := type_attr e mod 16.

(** The gate that every vector should have; [old] is the entry before. *)
Definition intended_gate (isr_stub irq_stub : Z -> Z) (isr128 : Z) (old : IdtEntry) (v : Z) : IdtEntry :=
  if v <? 32 then idt_gate (isr_stub v) GDT_KERNEL_CODE INTERRUPT_GATE
  else if v <? 48 then idt_gate (irq_stub (v - 32)) GDT_KERNEL_CODE INTERRUPT_GATE
  else if v =? 0x80 then idt_gate isr128 GDT_KERNEL_CODE SYSCALL_GATE
  else old.

Lemma gate_offset_ok h s t : 0 <= h < 2 ^ 64 -> gate_offset (idt_gate h s t) = h.
Proof.
  intros Hh. unfold gate_offset, idt_gate. cbn [offset_low offset_mid offset_high].
  change 0xFFFF with (Z.ones 16). change 0xFFFFFFFF with (Z.ones 32). rewrite !Z.land_ones, !Z.shiftr_div_pow2 by lia.
  rewrite (Z.mod_small (h / 2 ^ 32)) by (split; [apply Z.div_pos; lia | apply Z.div_lt_upper_bound; lia]).
  change (2 ^ 32) with (2 ^ 16 * 2 ^ 16). rewrite <- Z.div_div by lia.
  pose proof (Z.div_mod h (2 ^ 16)). pose proof (Z.div_mod (h / 2 ^ 16) (2 ^ 16)). lia.
Qed.

(** A loop that installs the gates of the vectors from [base]. *)
Lemma install_ok base n f (t : list IdtEntry) : 0 <= base -> 0 <= n -> base + n <= Z.of_nat (length t) ->
  exists t', for_range 0 n (fun i => set_gate (base + i) (f i) GDT_KERNEL_CODE INTERRUPT_GATE) t = Ok t' /\
    length t' = length t /\
    forall v, 0 <= v -> t' !! Z.to_nat v =
      if (base <=? v) && (v <? base + n) then Some (idt_gate (f (v - base)) GDT_KERNEL_CODE INTERRUPT_GATE)
      else t !! Z.to_nat v.
Proof.
  intros Hb Hn Hl.
  destruct (for_range_rule (fun i t' => length t' = length t /\ forall v, 0 <= v -> t' !! Z.to_nat v =
      if (base <=? v) && (v <? base + i) then Some (idt_gate (f (v - base)) GDT_KERNEL_CODE INTERRUPT_GATE)
      else t !! Z.to_nat v)
    0 n (fun i => set_gate (base + i) (f i) GDT_KERNEL_CODE INTERRUPT_GATE) t) as (t' & E & Hl' & Ht');
    [done | | | by exists t'].
  - split; [done|]. intros v Hv. destruct ((base <=? v) && (v <? base + 0)) eqn:Ev; [lia | done].
  - intros i t' Hi [El Hv]. unfold set_gate. rewrite store_in_range by lia. eexists. split; [done|].
    split; [by rewrite length_insert|]. intros v Hv0. destruct (decide (v = base + i)) as [->|Hne].
    + rewrite list_lookup_insert_eq by lia. assert ((base <=? base + i) && (base + i <? base + (i + 1)) = true) as -> by lia.
      do 3 f_equal. lia.
    + rewrite list_lookup_insert_ne, Hv by lia.
      assert ((base <=? v) && (v <? base + (i + 1)) = (base <=? v) && (v <? base + i)) as -> by lia. done.
Qed.

Lemma idt_init_ok isr_stub irq_stub isr128 (t : list IdtEntry) : length t = 256%nat ->
  exists t', idt_init isr_stub irq_stub isr128 t = Ok (4095, t') /\ length t' = 256%nat /\
    forall v old, 0 <= v -> t !! Z.to_nat v = Some old ->
      t' !! Z.to_nat v = Some (intended_gate isr_stub irq_stub isr128 old v).
Proof.
  intros Hl. unfold idt_init. destruct (install_ok 0 32 isr_stub t) as (t1 & E1 & L1 & H1); [lia | lia | lia |].
  change (fun i : Z => set_gate (0 + i) (isr_stub i) GDT_KERNEL_CODE INTERRUPT_GATE)
    with (fun i : Z => set_gate i (isr_stub i) GDT_KERNEL_CODE INTERRUPT_GATE) in E1. run_call E1.
  destruct (install_ok 32 16 irq_stub t1) as (t2 & E2 & L2 & H2); [lia | lia | lia |]. run_call E2.
  unfold set_gate. rewrite store_in_range by lia. cbn [mbind outcome_bind mret outcome_ret]. eexists. split; [done|].
  split; [rewrite length_insert; lia|]. intros v old Hv Hold. unfold intended_gate.
  destruct (decide (v = 0x80)) as [->|Hne]; [by rewrite list_lookup_insert_eq by lia|].
  rewrite list_lookup_insert_ne, H2, H1, Hold by lia. rewrite (proj2 (Z.eqb_neq v 0x80) Hne).
  rewrite Z.sub_0_r. repeat case_if; try lia; done.
Qed.

(** ** Properties *)

(** [idt_init] installs for each of the 32 exceptions and the 16 hardware
    interrupts a present interrupt gate of the kernel code segment, reachable
    only from privilege 0, whose offset is the address of its stub, at
    vector 0x80 a gate that user code may call, and changes no other
    vector. *)
Theorem idt_init_correct isr_stub irq_stub isr128 t :
  (forall v, 0 <= isr_stub v < 2 ^ 64) -> (forall i, 0 <= irq_stub i < 2 ^ 64) -> 0 <= isr128 < 2 ^ 64 ->
  length t = 256%nat ->
  exists t', idt_init isr_stub irq_stub isr128 t = Ok (4095, t') /\
    (forall v, 0 <= v < 32 -> exists e, t' !! Z.to_nat v = Some e /\ gate_offset e = isr_stub v /\
       selector e = GDT_KERNEL_CODE /\ gate_present e = true /\ gate_dpl e = 0 /\ gate_type e = 14) /\
    (forall i, 0 <= i < 16 -> exists e, t' !! Z.to_nat (32 + i) = Some e /\ gate_offset e = irq_stub i /\
       selector e = GDT_KERNEL_CODE /\ gate_present e = true /\ gate_dpl e = 0 /\ gate_type e = 14) /\
    (exists e, t' !! 0x80%nat = Some e /\ gate_offset e = isr128 /\
       selector e = GDT_KERNEL_CODE /\ gate_present e = true /\ gate_dpl e = 3 /\ gate_type e = 15) /\
    (forall v, 48 <= v -> v <> 0x80 -> t' !! Z.to_nat v = t !! Z.to_nat v).
Proof.
  intros Hisr Hirq H128 Hl. destruct (idt_init_ok isr_stub irq_stub isr128 t Hl) as (t' & E & L & Hv).
  exists t'. split; [done|].
  assert (Hget : forall v, 0 <= v < 256 -> exists old, t' !! Z.to_nat v = Some (intended_gate isr_stub irq_stub isr128 old v) /\
    t !! Z.to_nat v = Some old).
  { intros v Hr. destruct (lookup_lt_is_Some_2 t (Z.to_nat v)) as [old Hold]; [lia|]. exists old. split; [|done].
    apply Hv; [lia | done]. }
  split_and!.
  - intros v Hr. destruct (Hget v) as (old & Ev & _); [lia|]. eexists. split; [exact Ev|]. unfold intended_gate.
    rewrite (proj2 (Z.ltb_lt v 32)) by lia. by rewrite gate_offset_ok by apply Hisr.
  - intros i Hr. destruct (Hget (32 + i)) as (old & Ev & _); [lia|]. eexists. split; [exact Ev|]. unfold intended_gate.
    rewrite (proj2 (Z.ltb_ge (32 + i) 32)), (proj2 (Z.ltb_lt (32 + i) 48)) by lia.
    replace (32 + i - 32) with i by lia. by rewrite gate_offset_ok by apply Hirq.
  - destruct (Hget 0x80) as (old & Ev & _); [lia|]. eexists. split; [exact Ev|]. unfold intended_gate. simpl.
    by rewrite gate_offset_ok.
  - intros v Hr Hne. destruct (decide (v < 256)).
    + destruct (Hget v) as (old & -> & ->); [lia|]. unfold intended_gate.
      by rewrite (proj2 (Z.ltb_ge v 32)), (proj2 (Z.ltb_ge v 48)), (proj2 (Z.eqb_neq v _)) by lia.
    + rewrite !lookup_ge_None_2; [done | lia | lia].
Qed.

Lemma idt_init_correct_witness :
  exists t', idt_init (fun v => 0x100000 + 16 * Z.land v 0xFF) (fun i => 0x200000 + 16 * Z.land i 0xFF) 0x300000
    (replicate 256 (mkIdtEntry 0 0 0 0 0 0 0)) = Ok (4095, t').
Proof.
  destruct (idt_init_correct (fun v => 0x100000 + 16 * Z.land v 0xFF) (fun i => 0x200000 + 16 * Z.land i 0xFF) 0x300000
    (replicate 256 (mkIdtEntry 0 0 0 0 0 0 0))) as (t' & E & _).
  - intros v. change 0xFF with (Z.ones 8). rewrite Z.land_ones by lia. pose proof (Z.mod_pos_bound v (2 ^ 8)). lia.
  - intros v. change 0xFF with (Z.ones 8). rewrite Z.land_ones by lia. pose proof (Z.mod_pos_bound v (2 ^ 8)). lia.
  - lia.
  - reflexivity.
  - exists t'. exact E.
Defined.
