(* ===== verification/Interrupts.v ===== *)
(** Hardware interrupts: [irq_handler] of [src/src/arch/x86_64/idt.cpp] with the
    handlers that [kernel_main] registers, the scheduler, the keyboard and the
    interrupt controller behind it.

    The handlers are function pointers; the two the kernel registers are the
    constructors of [IrqHandler].  The keyboard's callback is [wakeStdinReader]
    of [src/src/kernel/syscall.cpp], number [WAKE_STDIN_READER].  [regs] is the
    address of the frame that the stub pushed. *)

From Stdlib Require Import ZifyBool.
From S2P Require Import Prelude Io Keyboard Scheduler SchedulerProofs Pic Timer.

Inductive IrqHandler : Type := TimerIRQ | KeyboardIRQ.

#[export] Instance IrqHandler_eq_dec : EqDecision IrqHandler.
Proof. solve_decision. Defined.

Definition WAKE_STDIN_READER : Z := 1.
Definition DATA_PORT : Z := 0x60.

Record Kernel (E P : Type) := mkKernel {
  sched : Sched E;
  timer : Timer;
  keyboard : Keyboard;
  g_pending_stdin_reader : Z;
  g_irq_handlers : list (option IrqHandler);
  ports : P;
}.
Arguments mkKernel {E P}.
Arguments sched {E P}.
Arguments timer {E P}.
Arguments keyboard {E P}.
Arguments g_pending_stdin_reader {E P}.
Arguments g_irq_handlers {E P}.
Arguments ports {E P}.

Section Interrupts.
Context {E P : Type} `{TaskServices E} `{PortIO P}.
Implicit Types k : Kernel E P.

Definition with_sched k (s : Sched E) : Kernel E P :=
  mkKernel s (timer k) (keyboard k) (g_pending_stdin_reader k) (g_irq_handlers k) (ports k).
Definition with_ports k (p : P) : Kernel E P :=
  mkKernel (sched k) (timer k) (keyboard k) (g_pending_stdin_reader k) (g_irq_handlers k) p.

Definition set_next_rsp (r : Z) (s : Sched E) : Sched E :=
  mkSched (tasks s) (frames s) (g_current s) (Scheduler.g_tail s) (g_next_id s) (g_started s) (g_pending_cleanup s) r
    (tss_rsp0 s) (cpu_cr3 s) (kbd_focus s) (env s).

Definition idt_register_irq_handler (irq : Z) (h : IrqHandler) k : outcome (Kernel E P) :=
  if irq <? 16 then
    hs ← store (g_irq_handlers k) irq (Some h);
    mret (mkKernel (sched k) (timer k) (keyboard k) (g_pending_stdin_reader k) hs (ports k))
  else mret k.

Definition wakeStdinReader k : outcome (Kernel E P) :=
  if g_pending_stdin_reader k =? 0 then mret k else
  s ← wake (g_pending_stdin_reader k) (sched k);
  mret (mkKernel s (timer k) (keyboard k) 0 (g_irq_handlers k) (ports k)).

Definition run_callback (cb : option Z) k : outcome (Kernel E P) :=
  match cb with
  | None => mret k
  | Some c => if c =? WAKE_STDIN_READER then wakeStdinReader k else Fault
  end.

Definition run_handler (h : IrqHandler) k : outcome (Kernel E P) :=
  match h with
  | TimerIRQ =>
      mret (mkKernel (sched k) (Timer.onIRQ (timer k)) (keyboard k) (g_pending_stdin_reader k) (g_irq_handlers k) (ports k))
  | KeyboardIRQ =>
      let (scancode, p) := inb DATA_PORT (ports k) in
      '(kb, cb) ← Keyboard.onIRQ scancode (keyboard k);
      run_callback cb (mkKernel (sched k) (timer k) kb (g_pending_stdin_reader k) (g_irq_handlers k) p)
  end.

Definition irq_handler (regs vector : Z) k : outcome (Kernel E P) :=
  let k := with_sched k (set_next_rsp regs (sched k)) in
  let irq := u8 vector in
  k ← (if irq <? 16 then
         h ← load (g_irq_handlers k) irq;
         match h with Some h => run_handler h k | None => mret k end
       else mret k);
  k ← (if irq =? 0 then s ← tick regs (sched k); mret (with_sched k s) else mret k);
  mret (with_ports k (sendEOI irq (ports k))).

(** The tail of [Timer::init] and the keyboard line of [kernel_main]. *)
Definition register_handlers k : outcome (Kernel E P) :=
  k ← idt_register_irq_handler 1 KeyboardIRQ k; idt_register_irq_handler 0 TimerIRQ k.

(** ** Lemmas *)

Lemma set_next_rsp_inv r s ord : sched_inv s ord -> sched_inv (set_next_rsp r s) ord.
Proof. intros [? ? ? ? ? ?]. by split. Qed.

Lemma register_handlers_ok k : length (g_irq_handlers k) = 16%nat ->
  exists k', register_handlers k = Ok k' /\ length (g_irq_handlers k') = 16%nat /\
    load (g_irq_handlers k') 0 = Ok (Some TimerIRQ) /\ load (g_irq_handlers k') 1 = Ok (Some KeyboardIRQ) /\
    sched k' = sched k /\ timer k' = timer k /\ keyboard k' = keyboard k /\ ports k' = ports k.
Proof.
  intros Hl. unfold register_handlers, idt_register_irq_handler. change (1 <? 16) with true. change (0 <? 16) with true.
  cbv iota. rewrite store_in_range by lia. cbn [mbind outcome_bind mret outcome_ret].
  rewrite store_in_range by (cbn [g_irq_handlers]; rewrite length_insert; lia).
  cbn [mbind outcome_bind mret outcome_ret]. eexists. split; [done|]. cbn. rewrite !length_insert. split_and!; try done.
  all: destruct (g_irq_handlers k) as [|a [|b l]]; done.
Qed.

(** What an interrupt of line [irq] does to the two chips. *)
Definition acknowledged `{!Pics P} (irq : Z) (p p' : P) : Prop :=
  master p' = chip_command PIC_EOI (master p) /\
  slave p' = if irq >=? 8 then chip_command PIC_EOI (slave p) else slave p.

Lemma sendEOI_acknowledged `{!Pics P} irq p : acknowledged irq p (sendEOI irq p).
Proof. apply sendEOI_ok. Qed.

Lemma key_interrupt_ok `{!Pics P} k regs scancode p c t :
  kbd_wf (keyboard k) -> used (keyboard k) < 255 -> g_extended (keyboard k) = false ->
  load (g_irq_handlers k) 1 = Ok (Some KeyboardIRQ) -> inb DATA_PORT (ports k) = (scancode, p) ->
  g_on_char_callback (keyboard k) = Some WAKE_STDIN_READER ->
  g_pending_stdin_reader k <> 0 -> tasks (sched k) !! g_pending_stdin_reader k = Some t -> state t = Blocked ->
  0 <= scancode < 128 -> scancode <> SCANCODE_LSHIFT_DOWN -> scancode <> SCANCODE_RSHIFT_DOWN ->
  load (if g_shift_pressed (keyboard k) then scancode_ascii_shift else scancode_ascii) scancode = Ok c -> c <> 0 ->
  exists k', irq_handler regs 1 k = Ok k' /\
    contents (keyboard k') = contents (keyboard k) ++ [c] /\ g_on_char_callback (keyboard k') = None /\
    kbd_wf (keyboard k') /\ g_focused_task_id (keyboard k') = g_focused_task_id (keyboard k) /\
    sched k' = with_tasks (set_next_rsp regs (sched k)) (<[g_pending_stdin_reader k := set_state Ready t]> (tasks (sched k))) /\
    g_pending_stdin_reader k' = 0 /\ acknowledged 1 p (ports k').
Proof.
  intros Hwf Hu Hext Hh Hin Hcb Hpend Ht Hst Hsc Hl Hr Hc Hnz.
  assert (Hk : exists kb, Keyboard.onIRQ scancode (keyboard k) = Ok (with_callback kb None, Some WAKE_STDIN_READER) /\
    contents kb = contents (keyboard k) ++ [c] /\ kbd_wf kb /\ g_focused_task_id kb = g_focused_task_id (keyboard k)).
  { unfold Keyboard.onIRQ, SCANCODE_LSHIFT_UP, SCANCODE_RSHIFT_UP.
    rewrite (proj2 (Z.eqb_neq scancode 0xE0)), Hext by lia.
    rewrite (proj2 (Z.eqb_neq scancode SCANCODE_LSHIFT_DOWN) Hl), (proj2 (Z.eqb_neq scancode SCANCODE_RSHIFT_DOWN) Hr).
    rewrite (proj2 (Z.eqb_neq scancode 0xAA)), (proj2 (Z.eqb_neq scancode 0xB6)) by lia. cbn [orb].
    assert (has scancode SCANCODE_RELEASE_BIT = false) as ->.
    { unfold SCANCODE_RELEASE_BIT. change 0x80 with (1 .<< 7). rewrite has_one_shl by lia.
      rewrite <- (Z.mod_small scancode (2 ^ 7)) by lia. apply Z.mod_pow2_bits_high. lia. }
    rewrite (proj2 (Z.leb_gt 128 scancode)) by lia. run_call Hc. rewrite (proj2 (Z.eqb_neq c 0) Hnz). cbn [negb].
    destruct (pushChar_ok c (keyboard k) Hwf) as (kb & Ep & Ewf & Econt & _ & _ & Efoc & Ecb). run_call Ep.
    rewrite Ecb, Hcb. exists kb. split; [done|]. rewrite Econt. split; [|done]. by rewrite (proj2 (Z.eqb_neq (used (keyboard k)) 255)) by lia. }
  destruct Hk as (kb & Ek & Econt & Ewf & Efoc). unfold irq_handler. change (u8 1) with 1. change (1 <? 16) with true.
  change (1 =? 0) with false. cbv zeta iota. cbn [g_irq_handlers with_sched]. run_call Hh. unfold run_handler.
  cbn [ports keyboard with_sched]. rewrite Hin, Ek. cbn [mbind outcome_bind].
  unfold run_callback. change (WAKE_STDIN_READER =? WAKE_STDIN_READER) with true. cbv iota. unfold wakeStdinReader.
  cbn [g_pending_stdin_reader sched with_sched]. rewrite (proj2 (Z.eqb_neq _ 0) Hpend).
  rewrite (wake_ok _ t) by done. cbn [mbind outcome_bind mret outcome_ret]. eexists. split; [done|].
  cbn [keyboard sched ports with_ports g_pending_stdin_reader]. rewrite Hst. split_and!; try done.
  apply sendEOI_acknowledged.
Qed.


(** ** Properties *)

(** C12. A timer interrupt, with the registered handler: it returns, counts one
    tick, saves the frame of the interrupted task and switches to the first
    runnable task after it in the ring (that task is runnable, those between
    are not, and the processor leaves with its stack, kernel stack and address
    space), and acknowledges the interrupt at the master chip only. *)
Theorem timer_interrupt_correct `{!Pics P} k ord regs : sched_inv (sched k) ord ->
  (exists a, a ∈ ord /\ passes (tasks (sched k)) runnable a = true) ->
  load (g_irq_handlers k) 0 = Ok (Some TimerIRQ) ->
  exists k' p a q, irq_handler regs 0 k = Ok k' /\
    g_ticks (timer k') = u64 (g_ticks (timer k) + 1) /\ keyboard k' = keyboard k /\
    ord = p ++ a :: q /\ passes (tasks (sched k)) runnable a = true /\
    Forall (fun b => passes (tasks (sched k)) runnable b = false) p /\
    g_current (sched k') = a /\ dispatched (sched k') a /\ sched_inv (sched k') (q ++ p ++ [a]) /\
    after_tick regs (sched k) (sched k') a /\
    acknowledged 0 (ports k) (ports k').
Proof.
  intros Hinv (x & Hx & Hxr) Hh. unfold irq_handler. change (u8 0) with 0. change (0 <? 16) with true.
  change (0 =? 0) with true. cbv zeta iota. cbn [g_irq_handlers with_sched]. run_call Hh. unfold run_handler.
  cbn [mbind outcome_bind mret outcome_ret sched with_sched timer].
  destruct (tick_ok (set_next_rsp regs (sched k)) ord regs (set_next_rsp_inv regs _ _ Hinv))
    as (s' & Et & [(p & a & q & Eo & Ha & Hp & Hc & Hd & Hi & Hat)|(Hno & _)]).
  - run_call Et. eexists _, p, a, q. split; [done|]. cbn [timer keyboard sched ports with_ports with_sched].
    split_and!; try done; apply sendEOI_acknowledged.
  - rewrite Forall_forall in Hno. apply list_elem_of_In, Hno in Hx. cbn in Hx. congruence.
Qed.

(** A key press wakes the reader: when a task is blocked in a read of the
    standard input with its callback registered, the interrupt of a key with
    a character stores the character behind those waiting, makes the reader
    ready, clears the registration, returns to the interrupted task and
    acknowledges the interrupt. *)
Theorem key_interrupt_wakes_reader `{!Pics P} k regs scancode p c t :
  kbd_wf (keyboard k) -> used (keyboard k) < 255 -> g_extended (keyboard k) = false ->
  load (g_irq_handlers k) 1 = Ok (Some KeyboardIRQ) -> inb DATA_PORT (ports k) = (scancode, p) ->
  g_on_char_callback (keyboard k) = Some WAKE_STDIN_READER ->
  g_pending_stdin_reader k <> 0 -> tasks (sched k) !! g_pending_stdin_reader k = Some t -> state t = Blocked ->
  0 <= scancode < 128 -> scancode <> SCANCODE_LSHIFT_DOWN -> scancode <> SCANCODE_RSHIFT_DOWN ->
  load (if g_shift_pressed (keyboard k) then scancode_ascii_shift else scancode_ascii) scancode = Ok c -> c <> 0 ->
  exists k', irq_handler regs 1 k = Ok k' /\
    contents (keyboard k') = contents (keyboard k) ++ [c] /\ g_on_char_callback (keyboard k') = None /\
    tasks (sched k') = <[g_pending_stdin_reader k := set_state Ready t]> (tasks (sched k)) /\
    g_pending_stdin_reader k' = 0 /\ g_next_task_rsp (sched k') = regs /\ g_current (sched k') = g_current (sched k) /\
    acknowledged 1 p (ports k').
Proof.
  intros Hwf Hu Hext Hh Hin Hcb Hpend Ht Hst Hsc Hl Hr Hc Hnz.
  destruct (key_interrupt_ok k regs scancode p c t) as (k' & E1 & Hcont & Hcb' & _ & _ & Hs & Hp & Ha); try done.
  exists k'. by rewrite Hs.
Qed.

End Interrupts.

(** ** Witnesses *)

(** Task 3 of the sample scheduler waits for a key, and the key A is pressed. *)
Definition sample_keyboard : Keyboard := mkKbd (replicate 256 0) 0 0 false false 0 (Some WAKE_STDIN_READER).

Definition sample_kernel : Kernel (gset Z) TwoChips :=
  mkKernel sample_sched (mkTimer 7 1000) sample_keyboard 300
    (<[0%nat := Some TimerIRQ]> (<[1%nat := Some KeyboardIRQ]> (replicate 16 None)))
    (mkTwo (mkChip 0 0x20 4 0xF8 [0]) (mkChip 0 0x28 2 0xFF []) 0x1E).

Lemma timer_interrupt_correct_witness :
  exists k', irq_handler 7 0 sample_kernel = Ok k' /\ g_ticks (timer k') = 8 /\ acknowledged 0 (ports sample_kernel) (ports k').
Proof.
  destruct (timer_interrupt_correct sample_kernel [200; 300; 100] 7) as (k' & p & a & q & Ek & Et & _ & _ & _ & _ & _ & _ & _ & _ & Ha).
  - apply sample_inv_of. left. reflexivity.
  - exists 200. split; [|reflexivity]. rewrite elem_of_cons. left. reflexivity.
  - reflexivity.
  - exists k'. split; [exact Ek|]. split; [exact Et | exact Ha].
Defined.

Lemma key_interrupt_wakes_reader_witness :
  exists k', irq_handler 7 1 sample_kernel = Ok k' /\ contents (keyboard k') = [97] /\ g_pending_stdin_reader k' = 0.
Proof.
  destruct (key_interrupt_wakes_reader sample_kernel 7 0x1E (ports sample_kernel) 97 (sample_task 3 Blocked 0 100))
    as (k' & Ek & Ec & _ & _ & Ep & _).
  - split; [reflexivity|]. split; split; (discriminate || reflexivity).
  - reflexivity.
  - reflexivity.
  - reflexivity.
  - reflexivity.
  - reflexivity.
  - discriminate.
  - reflexivity.
  - reflexivity.
  - lia.
  - discriminate.
  - discriminate.
  - reflexivity.
  - discriminate.
  - exists k'. split; [exact Ek|]. split; [exact Ec | exact Ep].
Defined.
