(* ===== verification/Pci.v ===== *)
(** PCI enumeration, [src/src/drivers/pci/pci.cpp] and [pci.h].

    The host bridge is outside the program: [PciBus] says that writing an
    address to port 0xCF8 and reading 0xCFC returns the register of the
    function's configuration space that the fields of the address select, and
    that such reads do not change the configuration space. *)

From Stdlib Require Import ZifyBool.
From S2P Require Import Prelude Io Format.

Definition MAX_PCI_DEVICES : Z := 64.
Definition BUSSES : Z := 256.
Definition SLOTS : Z := 32.
Definition FUNCS : Z := 8.

Record GeneralDeviceHeader := mkHeader {
  vendor_id : Z; device_id : Z; command_register : Z; status_register : Z;
  revision_id : Z; prog_if : Z; sub_class : Z; base_class : Z;
  cache_line_size : Z; latency_timer : Z; header_type : Z; bist : Z;
  BAR0 : Z; BAR1 : Z; BAR2 : Z; BAR3 : Z; BAR4 : Z; BAR5 : Z;
  cardbus_cis_pointer : Z; subsystem_vendor_id : Z; subsystem_device_id : Z; ex_rba : Z;
  capabilities_pointer : Z; reserved1 : Z; reserved2 : Z; reserved3 : Z;
  interrupt_line : Z; interrupt_pin : Z; min_grant : Z; max_latency : Z;
}.

Record PCIDevice := mkDevice { bus : Z; slot : Z; func : Z; header : GeneralDeviceHeader }.

(** [g_pci_devices], [g_pci_devices_index], and the ports. *)
Record Pci (P : Type) := mkPci { g_pci_devices : list PCIDevice; g_pci_devices_index : Z; pci_ports : P }.
Arguments mkPci {P}.
Arguments g_pci_devices {P}.
Arguments g_pci_devices_index {P}.
Arguments pci_ports {P}.

Definition getAddress (bus slot func offset : Z) : Z :=
  u32 (bus .<< 16) .| u32 (slot .<< 11) .| u32 (func .<< 8) .| (offset .& 0xFC) .| 0x80000000.

Section Pci.
Context {P : Type} `{PortIO P}.

Definition configReadDword (address : Z) (p : P) : Z * P := inl 0xCFC (outl 0xCF8 address p).

Definition configReadWord (address offset : Z) (p : P) : Z * P :=
  let (v, p) := inl 0xCFC (outl 0xCF8 address p) in (u16 ((v .>> ((offset .& 2) * 8)) .& 0xFFFF), p).

Definition configWriteDword (address value : Z) (p : P) : P := outl 0xCFC value (outl 0xCF8 address p).

Definition deviceExists (address : Z) (p : P) : bool * P :=
  let (v, p) := configReadDword address p in (negb (v .& 0xFFFF =? 0xFFFF), p).

Definition saveDevice (b s f : Z) (st : Pci P) : outcome (Pci P) :=
  if g_pci_devices_index st >=? MAX_PCI_DEVICES then mret st else
  old ← load (g_pci_devices st) (g_pci_devices_index st);
  let p := pci_ports st in
  let (r0, p) := configReadDword (getAddress b s f 0x0) p in
  let (r4, p) := configReadDword (getAddress b s f 0x4) p in
  let (r8, p) := configReadDword (getAddress b s f 0x8) p in
  let (rC, p) := configReadDword (getAddress b s f 0xC) p in
  let (b0, p) := configReadDword (getAddress b s f 0x10) p in
  let (b1, p) := configReadDword (getAddress b s f 0x14) p in
  let (b2, p) := configReadDword (getAddress b s f 0x18) p in
  let (b3, p) := configReadDword (getAddress b s f 0x1C) p in
  let (b4, p) := configReadDword (getAddress b s f 0x20) p in
  let (b5, p) := configReadDword (getAddress b s f 0x24) p in
  let (cis, p) := configReadDword (getAddress b s f 0x28) p in
  let (r2C, p) := configReadDword (getAddress b s f 0x2C) p in
  let (rba, p) := configReadDword (getAddress b s f 0x30) p in
  let (r34, p) := configReadDword (getAddress b s f 0x34) p in
  let (r3C, p) := configReadDword (getAddress b s f 0x3C) p in
  let h := mkHeader
    (r0 .& 0xFFFF) ((r0 .>> 16) .& 0xFFFF) (r4 .& 0xFFFF) ((r4 .>> 16) .& 0xFFFF)
    (r8 .& 0xFF) ((r8 .>> 8) .& 0xFF) ((r8 .>> 16) .& 0xFF) ((r8 .>> 24) .& 0xFF)
    (rC .& 0xFF) ((rC .>> 8) .& 0xFF) ((rC .>> 16) .& 0xFF) ((rC .>> 24) .& 0xFF)
    b0 b1 b2 b3 b4 b5 cis (r2C .& 0xFFFF) ((r2C .>> 16) .& 0xFFFF) rba
    (r34 .& 0xFF) (reserved1 (header old)) (reserved2 (header old)) (reserved3 (header old))
    (r3C .& 0xFF) ((r3C .>> 8) .& 0xFF) ((r3C .>> 16) .& 0xFF) ((r3C .>> 24) .& 0xFF) in
  ds ← store (g_pci_devices st) (g_pci_devices_index st) (mkDevice b s f h);
  mret (mkPci ds (u16 (g_pci_devices_index st + 1)) p).

Definition with_pci_ports (st : Pci P) (p : P) : Pci P := mkPci (g_pci_devices st) (g_pci_devices_index st) p.

Definition try_function (b s f : Z) (st : Pci P) : outcome (Pci P) :=
  let (e, p) := deviceExists (getAddress b s f 0) (pci_ports st) in
  let st := with_pci_ports st p in
  if (e : bool) then saveDevice b s f st else mret st.

Definition try_slot (b s : Z) (st : Pci P) : outcome (Pci P) :=
  let (e, p) := deviceExists (getAddress b s 0 0) (pci_ports st) in
  let st := with_pci_ports st p in
  if negb e then mret st else
  st ← saveDevice b s 0 st;
  let (v, p) := configReadDword (getAddress b s 0 0xC) (pci_ports st) in
  let st := with_pci_ports st p in
  let header_type := u8 ((v .>> 16) .& 0xFF) in
  if has header_type 0x80 then for_range 1 FUNCS (fun f => try_function b s f) st else mret st.

Definition enumerate (st : Pci P) : outcome (Pci P) :=
  let st := mkPci (g_pci_devices st) 0 (pci_ports st) in
  for_range 0 BUSSES (fun b => for_range 0 SLOTS (fun s => try_slot b s)) st.

Definition get_index (st : Pci P) : Z := g_pci_devices_index st.
Definition getDevice (index : Z) (st : Pci P) : outcome PCIDevice := load (g_pci_devices st) index.

End Pci.

Definition classCodeToString (base sub : Z) : list Z :=
  if base =? 0x00 then chars "Unclassified" else
  if base =? 0x01 then
    (if sub =? 0 then chars "SCSI Bus Controller" else if sub =? 1 then chars "IDE Controller" else
     if sub =? 2 then chars "Floppy Disk Controller" else if sub =? 3 then chars "IPI Bus Controller" else
     if sub =? 4 then chars "Raid Controller" else if sub =? 5 then chars "ATA Controller" else
     if sub =? 6 then chars "Serial ATA Controller" else if sub =? 7 then chars "Serial Attached SCSI Controller" else
     if sub =? 8 then chars "Non-volatile Memory Controller" else chars "Unknown") else
  if base =? 0x02 then (if sub =? 0 then chars "Ethernet Controller" else chars "Other Network Controller") else
  if base =? 0x03 then (if sub =? 0 then chars "VGA Compatible Controller" else chars "Other Display Controller") else
  if base =? 0x04 then chars "Multimedia Controller" else
  if base =? 0x05 then chars "Memory Controller" else
  if base =? 0x06 then chars "Bridge Device" else
  if base =? 0x07 then chars "Simple Communication Controller" else
  if base =? 0x08 then chars "Base System Peripheral" else
  if base =? 0x09 then chars "Input Device Controller" else
  if base =? 0x0C then chars "Serial Bus Controller" else chars "Unknown".

(** ** The configuration space *)

(** The register of four bytes at offset [reg] of a function. *)
Definition Config : Type := Z -> Z -> Z -> Z -> Z.

(** The decoding of an address by the host bridge, bit 31 enabling it. *)
Definition select (c : Config) (a : Z) : Z :=
  c ((a / 2 ^ 16) mod 2 ^ 8) ((a / 2 ^ 11) mod 2 ^ 5) ((a / 2 ^ 8) mod 2 ^ 3) (a mod 2 ^ 8 / 4 * 4).

Class PciBus (P : Type) `{PortIO P} := {
  config : P -> Config;
  latch : P -> Z;
  pci_latch a p : latch (outl 0xCF8 a p) = a /\ config (outl 0xCF8 a p) = config p;
  pci_data p : Z.testbit (latch p) 31 = true ->
    exists p', inl 0xCFC p = (select (config p) (latch p), p') /\ config p' = config p;
  pci_width p b s f r : 0 <= config p b s f r < 2 ^ 32;
}.

(** A field of [w] bytes at byte [off] of a function's configuration space. *)
Definition field (c : Config) (loc : Z * Z * Z) (off w : Z) : Z :=
  let '(b, s, f) := loc in (c b s f (off / 4 * 4) / 2 ^ (8 * (off mod 4))) mod 2 ^ (8 * w).

(** The record of a function agrees with its configuration space, at the
    offsets of the general header of the PCI specification. *)
Definition describes (c : Config) (loc : Z * Z * Z) (d : PCIDevice) : Prop :=
  let h := header d in let fld := field c loc in
  (bus d, slot d, func d) = loc /\
  [vendor_id h; device_id h; command_register h; status_register h] = [fld 0x0 2; fld 0x2 2; fld 0x4 2; fld 0x6 2] /\
  [revision_id h; prog_if h; sub_class h; base_class h] = [fld 0x8 1; fld 0x9 1; fld 0xA 1; fld 0xB 1] /\
  [cache_line_size h; latency_timer h; header_type h; bist h] = [fld 0xC 1; fld 0xD 1; fld 0xE 1; fld 0xF 1] /\
  [BAR0 h; BAR1 h; BAR2 h; BAR3 h; BAR4 h; BAR5 h] = [fld 0x10 4; fld 0x14 4; fld 0x18 4; fld 0x1C 4; fld 0x20 4; fld 0x24 4] /\
  [cardbus_cis_pointer h; subsystem_vendor_id h; subsystem_device_id h; ex_rba h; capabilities_pointer h] =
    [fld 0x28 4; fld 0x2C 2; fld 0x2E 2; fld 0x30 4; fld 0x34 1] /\
  [interrupt_line h; interrupt_pin h; min_grant h; max_latency h] = [fld 0x3C 1; fld 0x3D 1; fld 0x3E 1; fld 0x3F 1].

(** The functions present, in the order of the scan: function 0 of a slot, and
    the others when it says that the device has several. *)
Definition present (c : Config) (loc : Z * Z * Z) : bool := negb (field c loc 0 2 =? 0xFFFF).
Definition multifunction (c : Config) (b s : Z) : bool := Z.testbit (field c (b, s, 0) 0xE 1) 7.

Definition slot_functions (c : Config) (b s : Z) : list (Z * Z * Z) :=
  if present c (b, s, 0) then
    (b, s, 0) :: (if multifunction c b s then List.filter (present c) ((fun f => (b, s, f)) <$> seqZ 1 7) else [])
  else [].

Definition all_functions (c : Config) : list (Z * Z * Z) :=
  concat ((fun b => concat ((fun s => slot_functions c b s) <$> seqZ 0 32)) <$> seqZ 0 256).

(** ** Addresses *)

Lemma getAddress_value b s f o : 0 <= b < 2 ^ 8 -> 0 <= s < 2 ^ 5 -> 0 <= f < 2 ^ 3 -> 0 <= o < 2 ^ 8 ->
  getAddress b s f o = 2 ^ 31 + b * 2 ^ 16 + s * 2 ^ 11 + f * 2 ^ 8 + o / 4 * 4.
Proof.
  intros Hb Hs Hf Ho. unfold getAddress. rewrite !Z.shiftl_mul_pow2 by lia. rewrite !u32_small by lia.
  assert (Ho4 : o .& 0xFC = o / 4 * 4).
  { change 0xFC with (Z.ldiff (Z.ones 8) (Z.ones 2)). change 4 with (2 ^ 2). rewrite <- Z.shiftr_div_pow2, <- Z.shiftl_mul_pow2 by lia.
    rewrite <- Z.ldiff_ones_r by lia. rewrite <- (Z.mod_small o (2 ^ 8)) at 2 by lia. rewrite <- Z.land_ones by lia.
    apply Z.bits_inj_iff'. intros n Hn. rewrite !Z.land_spec, !Z.ldiff_spec, !Z.land_spec. by rewrite andb_assoc. }
  rewrite Ho4. assert (0 <= o / 4 * 4 < 2 ^ 8).
  { pose proof (Z.div_mod o 4). pose proof (Z.mod_pos_bound o 4). pose proof (Z.div_pos o 4). lia. }
  rewrite (lor_add_disjoint b) by lia.
  replace (b * 2 ^ 16 + s * 2 ^ 11) with ((b * 2 ^ 5 + s) * 2 ^ 11) by lia. rewrite (lor_add_disjoint (b * 2 ^ 5 + s)) by lia.
  replace ((b * 2 ^ 5 + s) * 2 ^ 11 + f * 2 ^ 8) with (((b * 2 ^ 5 + s) * 2 ^ 3 + f) * 2 ^ 8) by lia.
  rewrite (lor_add_disjoint ((b * 2 ^ 5 + s) * 2 ^ 3 + f)) by lia. rewrite Z.lor_comm.
  change 0x80000000 with (1 * 2 ^ 31). rewrite lor_add_disjoint by lia. lia.
Qed.

(** The bridge reads from an address the numbers it was made of. *)
Lemma select_getAddress c b s f o : 0 <= b < 2 ^ 8 -> 0 <= s < 2 ^ 5 -> 0 <= f < 2 ^ 3 -> 0 <= o < 2 ^ 8 ->
  Z.testbit (getAddress b s f o) 31 = true /\ select c (getAddress b s f o) = c b s f (o / 4 * 4).
Proof.
  intros Hb Hs Hf Ho. split.
  - unfold getAddress. by rewrite Z.lor_spec, orb_true_r.
  - rewrite getAddress_value by done. unfold select. assert (0 <= o / 4 * 4 < 2 ^ 8 /\ o / 4 * 4 mod 4 = 0) as [Hr Hm].
    { rewrite Z.mod_mul by lia. pose proof (Z.div_mod o 4). pose proof (Z.mod_pos_bound o 4). pose proof (Z.div_pos o 4). lia. }
    set (r := o / 4 * 4) in *. clearbody r.
    assert (E1 : (2 ^ 31 + b * 2 ^ 16 + s * 2 ^ 11 + f * 2 ^ 8 + r) / 2 ^ 16 = 2 ^ 15 + b).
    { symmetry. apply Z.div_unique with (s * 2 ^ 11 + f * 2 ^ 8 + r); lia. }
    assert (E2 : (2 ^ 31 + b * 2 ^ 16 + s * 2 ^ 11 + f * 2 ^ 8 + r) / 2 ^ 11 = 2 ^ 20 + b * 2 ^ 5 + s).
    { symmetry. apply Z.div_unique with (f * 2 ^ 8 + r); lia. }
    assert (E3 : (2 ^ 31 + b * 2 ^ 16 + s * 2 ^ 11 + f * 2 ^ 8 + r) / 2 ^ 8 = 2 ^ 23 + b * 2 ^ 8 + s * 2 ^ 3 + f).
    { symmetry. apply Z.div_unique with r; lia. }
    rewrite E1, E2, E3. f_equal.
    + symmetry. apply Z.mod_unique with (2 ^ 7); lia.
    + symmetry. apply Z.mod_unique with (2 ^ 15 + b); lia.
    + symmetry. apply Z.mod_unique with (2 ^ 20 + b * 2 ^ 5 + s); lia.
    + assert ((2 ^ 31 + b * 2 ^ 16 + s * 2 ^ 11 + f * 2 ^ 8 + r) mod 2 ^ 8 = r) as ->.
      { symmetry. apply Z.mod_unique with (2 ^ 23 + b * 2 ^ 8 + s * 2 ^ 3 + f); lia. }
      pose proof (Z.div_mod r 4). lia.
Qed.

(** Collecting loop: if every step appends its items, so does the loop. *)
Lemma foldM_collect {A St L} (body : A -> St -> outcome St) (f : A -> list L) (inv : list L -> St -> Prop) xs l st :
  (forall i l st, i ∈ xs -> inv l st -> exists st', body i st = Ok st' /\ inv (l ++ f i) st') -> inv l st ->
  exists st', foldM body xs st = Ok st' /\ inv (l ++ concat (f <$> xs)) st'.
Proof.
  revert l st. induction xs as [|i xs IH]; intros l st Hstep Hl; cbn [foldM fmap list_fmap concat].
  - exists st. by rewrite app_nil_r.
  - destruct (Hstep i l st) as (st1 & E1 & H1); [set_solver | done |]. run_call E1.
    destruct (IH (l ++ f i) st1) as (st2 & E2 & H2); [intros; apply Hstep; set_solver | done |].
    exists st2. split; [done|]. by rewrite app_assoc.
Qed.

Section Scan.
Context {P : Type} `{PciBus P} (c : Config).

Definition loc_ok (loc : Z * Z * Z) : Prop :=
  let '(b, s, f) := loc in 0 <= b < 2 ^ 8 /\ 0 <= s < 2 ^ 5 /\ 0 <= f < 2 ^ 3.

Lemma read_ok_pci b s f o (p : P) : config p = c -> loc_ok (b, s, f) -> 0 <= o < 2 ^ 8 ->
  exists p', configReadDword (getAddress b s f o) p = (c b s f (o / 4 * 4), p') /\ config p' = c.
Proof.
  intros Hc (Hb & Hs & Hf) Ho. unfold configReadDword. destruct (pci_latch (getAddress b s f o) p) as [El Ec].
  destruct (select_getAddress c b s f o Hb Hs Hf Ho) as [Hbit Hsel].
  destruct (pci_data (outl 0xCF8 (getAddress b s f o) p)) as (p' & E & Ec'); [by rewrite El|].
  exists p'. rewrite E, Ec, El, Hc, Hsel. split; [done|]. congruence.
Qed.

(** The state after the functions of [l] were saved. *)
Definition saved (l : list (Z * Z * Z)) (st : Pci P) : Prop :=
  config (pci_ports st) = c /\ length (g_pci_devices st) = 64%nat /\
  g_pci_devices_index st = Z.min 64 (Z.of_nat (length l)) /\
  forall i loc, (i < 64)%nat -> l !! i = Some loc -> exists d, g_pci_devices st !! i = Some d /\ describes c loc d.

Lemma saved_ports l st p : saved l st -> config p = c -> saved l (with_pci_ports st p).
Proof. by intros (_ & Hl & Hi & Hd) Hp. Qed.

Lemma low_field b s f o w : 0 <= w -> o mod 4 = 0 -> c b s f o .& Z.ones (8 * w) = field c (b, s, f) o w.
Proof.
  intros Hw Ho. unfold field. rewrite Z.land_ones by lia. pose proof (Z.div_mod o 4). rewrite Ho.
  replace (o / 4 * 4) with o by lia. by rewrite Z.mul_0_r, Z.div_1_r.
Qed.

Lemma high_field b s f o k w : 0 <= w -> o mod 4 = 0 -> 0 <= k < 4 ->
  (c b s f o .>> (8 * k)) .& Z.ones (8 * w) = field c (b, s, f) (o + k) w.
Proof.
  intros Hw Ho Hk. unfold field. rewrite Z.land_ones, Z.shiftr_div_pow2 by lia. pose proof (Z.div_mod o 4).
  assert ((o + k) / 4 = o / 4) as -> by (symmetry; apply Z.div_unique with k; lia).
  assert ((o + k) mod 4 = k) as -> by (symmetry; apply Z.mod_unique with (o / 4); lia).
  by replace (o / 4 * 4) with o by lia.
Qed.

Lemma whole_field (Hwid : forall b s f r, 0 <= c b s f r < 2 ^ 32) b s f o : o mod 4 = 0 -> c b s f o = field c (b, s, f) o 4.
Proof.
  intros Ho. unfold field. pose proof (Z.div_mod o 4). rewrite Ho. replace (o / 4 * 4) with o by lia.
  rewrite Z.mul_0_r, Z.div_1_r. symmetry. apply Z.mod_small. apply Hwid.
Qed.

(** The next configuration read of a program. *)
Local Ltac next_read Hc Hl :=
  match goal with
  | |- context [configReadDword (getAddress ?b ?s ?f ?o) ?p] =>
      let p' := fresh "p" in let E := fresh "E" in let Hc' := fresh "Hc" in
      destruct (read_ok_pci b s f o p Hc Hl ltac:(lia)) as (p' & E & Hc'); rewrite E; clear E;
      let v := eval vm_compute in (o / 4 * 4) in change (o / 4 * 4) with v
  end.

Local Ltac all_reads Hl :=
  repeat match goal with
  | Hc : config ?p = c |- context [configReadDword _ ?p] => next_read Hc Hl
  end.

Lemma saveDevice_ok b s f l st : (forall b s f r, 0 <= c b s f r < 2 ^ 32) -> loc_ok (b, s, f) -> saved l st ->
  exists st', saveDevice b s f st = Ok st' /\ saved (l ++ [(b, s, f)]) st'.
Proof.
  intros Hwid Hloc (Hc & Hlen & Hidx & Hd). unfold saveDevice, MAX_PCI_DEVICES. rewrite Hidx.
  destruct (Z.geb_spec (Z.min 64 (Z.of_nat (length l))) 64) as [Hfull|Hroom].
  - exists st. split; [done|]. unfold saved. rewrite length_app. simpl length. split_and!; [done | done | lia |].
    intros i loc Hi Hl. apply Hd; [done|]. rewrite lookup_app_l in Hl by lia. done.
  - destruct (load_in_range (g_pci_devices st) (Z.min 64 (Z.of_nat (length l)))) as (old & Eo & _); [lia|]. run_call Eo.
    all_reads Hloc. rewrite store_in_range by lia. cbn [mbind outcome_bind]. eexists. split; [done|].
    unfold saved. cbn [pci_ports g_pci_devices g_pci_devices_index]. rewrite length_insert, length_app. simpl length.
    split_and!; [done | done | rewrite u16_small; lia |].
    intros i loc Hi Hl. destruct (decide (i = length l)) as [->|Hne].
    + rewrite lookup_app_r, Nat.sub_diag in Hl by lia. injection Hl as <-.
      replace (Z.to_nat (Z.min 64 (Z.of_nat (length l)))) with (length l) by lia.
      rewrite list_lookup_insert_eq by lia. eexists. split; [done|].
      unfold describes. cbn -[field Z.land Z.shiftr].
      change 0xFFFF with (Z.ones (8 * 2)). change 0xFF with (Z.ones (8 * 1)).
      change 16 with (8 * 2). change 24 with (8 * 3). rewrite !(low_field b s f) by done.
      split_and!; try done; repeat f_equal;
        first [ by apply whole_field | by rewrite (high_field b s f _ 2) | by rewrite (high_field b s f _ 1)
              | by rewrite (high_field b s f _ 3) ].
    + rewrite list_lookup_insert_ne by lia. apply Hd; [done|]. apply lookup_app_Some in Hl as [Hl|[Hge Hl]]; [done|].
      apply lookup_lt_Some in Hl. simpl in Hl. lia.
Qed.

Lemma deviceExists_ok b s f (p : P) : config p = c -> loc_ok (b, s, f) ->
  exists p', deviceExists (getAddress b s f 0) p = (present c (b, s, f), p') /\ config p' = c.
Proof.
  intros Hc Hl. unfold deviceExists. destruct (read_ok_pci b s f 0 p Hc Hl) as (p' & E & Hc'); [lia|].
  exists p'. rewrite E. split; [|done]. unfold present. change 0xFFFF with (Z.ones (8 * 2)) at 1.
  by rewrite low_field.
Qed.

Context (Hwid : forall b s f r, 0 <= c b s f r < 2 ^ 32).

Lemma try_function_ok b s f l st : loc_ok (b, s, f) -> saved l st ->
  exists st', try_function b s f st = Ok st' /\ saved (l ++ List.filter (present c) [(b, s, f)]) st'.
Proof.
  intros Hl Hs. unfold try_function. destruct (deviceExists_ok b s f (pci_ports st)) as (p & E & Hc); [apply Hs | done |].
  rewrite E. cbn [List.filter]. pose proof (saved_ports l st p Hs Hc) as Hs'. destruct (present c (b, s, f)).
  - by apply saveDevice_ok.
  - exists (with_pci_ports st p). by rewrite app_nil_r.
Qed.

Lemma concat_filter_map b s fs : concat ((fun f => List.filter (present c) [(b, s, f)]) <$> fs) =
  List.filter (present c) ((fun f => (b, s, f)) <$> fs).
Proof.
  induction fs as [|f fs IH]; [done|]. rewrite !fmap_cons. cbn [concat]. rewrite IH. cbn [List.filter].
  by destruct (present c (b, s, f)).
Qed.

Lemma try_slot_ok b s l st : 0 <= b < 256 -> 0 <= s < 32 -> saved l st ->
  exists st', try_slot b s st = Ok st' /\ saved (l ++ slot_functions c b s) st'.
Proof.
  intros Hb Hs Hsv. assert (Hl : loc_ok (b, s, 0)) by (unfold loc_ok; lia). unfold try_slot, slot_functions.
  destruct (deviceExists_ok b s 0 (pci_ports st)) as (p & E & Hc); [apply Hsv | done |]. rewrite E.
  pose proof (saved_ports l st p Hsv Hc) as Hsv'. destruct (present c (b, s, 0)); cbn [negb].
  2:{ exists (with_pci_ports st p). by rewrite app_nil_r. }
  destruct (saveDevice_ok b s 0 l _ Hwid Hl Hsv') as (st1 & E1 & Hsv1). run_call E1.
  destruct (read_ok_pci b s 0 0xC (pci_ports st1)) as (p2 & E2 & Hc2); [apply Hsv1 | done | lia |]. rewrite E2.
  pose proof (saved_ports _ st1 p2 Hsv1 Hc2) as Hsv2. change (0xC / 4 * 4) with 0xC.
  assert (Hm : has (u8 ((c b s 0 0xC .>> 16) .& 0xFF)) 0x80 = multifunction c b s).
  { change 0x80 with (1 .<< 7). rewrite has_one_shl, u8_testbit by lia. unfold multifunction.
    change 0xFF with (Z.ones (8 * 1)). change 16 with (8 * 2). by rewrite (high_field b s 0 0xC 2 1) by done. }
  rewrite Hm. destruct (multifunction c b s); [|by exists (with_pci_ports st1 p2)].
  unfold for_range, FUNCS.
  destruct (foldM_collect (fun f => try_function b s f) (fun f => List.filter (present c) [(b, s, f)]) saved
    (seqZ 1 (8 - 1)) (l ++ [(b, s, 0)]) (with_pci_ports st1 p2)) as (st3 & E3 & Hsv3); [|done|].
  - intros f l' st' Hf Hs'. apply elem_of_seqZ in Hf. apply try_function_ok; [unfold loc_ok; lia | done].
  - exists st3. split; [exact E3|]. rewrite concat_filter_map in Hsv3. by rewrite <- app_assoc in Hsv3.
Qed.

Lemma enumerate_ok st : config (pci_ports st) = c -> length (g_pci_devices st) = 64%nat ->
  exists st', enumerate st = Ok st' /\ saved (all_functions c) st'.
Proof.
  intros Hc Hl. unfold enumerate, for_range, BUSSES, SLOTS. rewrite !Z.sub_0_r. unfold all_functions.
  apply (foldM_collect (fun b st => foldM (fun s => try_slot b s) (seqZ 0 32) st)
    (fun b => concat ((fun s => slot_functions c b s) <$> seqZ 0 32)) saved (seqZ 0 256) []).
  - intros b l st' Hb Hs. apply elem_of_seqZ in Hb.
    apply (foldM_collect (fun s => try_slot b s) (fun s => slot_functions c b s) saved (seqZ 0 32) l st'); [|done].
    intros s l' st2 Hs' Hsv. apply elem_of_seqZ in Hs'. apply try_slot_ok; [lia | lia | done].
  - split_and!; try done.
Qed.

End Scan.

(** ** Properties *)

(** C37. [enumerate] finds every function on the 256 buses: it returns with the
    table holding, in scan order, a record for each function whose vendor is
    not 0xFFFF (the functions above 0 only where function 0 says there are
    several), up to the 64 the table has room for; [get_index] is their number
    and every field of a record is the one at its offset in the function's
    configuration space. *)
Theorem enumerate_correct {P} `{PciBus P} (st : Pci P) : length (g_pci_devices st) = 64%nat ->
  let found := all_functions (config (pci_ports st)) in
  exists st', enumerate st = Ok st' /\ get_index st' = Z.min 64 (Z.of_nat (length found)) /\
    forall i loc, 0 <= i < get_index st' -> found !! Z.to_nat i = Some loc ->
      exists d, getDevice i st' = Ok d /\ describes (config (pci_ports st)) loc d.
Proof.
  intros Hl found. destruct (enumerate_ok (config (pci_ports st)) ltac:(apply pci_width) st eq_refl Hl)
    as (st' & E & _ & Hlen & Hidx & Hd).
  exists st'. split; [done|]. split; [done|]. unfold get_index. rewrite Hidx. intros i loc Hi Hloc.
  destruct (Hd (Z.to_nat i) loc) as (d & Ed & Hdesc); [lia | done |]. exists d. split; [|done].
  apply load_ok. split; [lia | done].
Qed.

(** ** A bus with one two-function device *)

Record SimBus := mkSim { sim_latch : Z }.

Definition sim_config : Config := fun b s f r =>
  if (b =? 0) && (s =? 3) && (0 <=? f) && (f <? 2) then
    (if r =? 0 then 0x29228086 + f else if r =? 0x8 then 0x01060102 else if r =? 0xC then 0x00800000 else 0)
  else 0xFFFFFFFF.

Definition sim_inl (port : Z) (p : SimBus) : Z * SimBus :=
  if port =? 0xCFC then (select sim_config (sim_latch p), p) else (0, p).
Definition sim_outl (port v : Z) (p : SimBus) : SimBus := if port =? 0xCF8 then mkSim v else p.

#[export] Instance sim_bus_ports : PortIO SimBus :=
  { inb := sim_inl; outb := sim_outl; inw := sim_inl; outw := sim_outl; inl := sim_inl; outl := sim_outl }.

#[export] Program Instance sim_bus : PciBus SimBus := { config _ := sim_config; latch := sim_latch }.
Next Obligation. done. Qed.
Next Obligation. intros p _. by exists p. Qed.
Next Obligation. intros p b s f r. unfold sim_config. repeat case_if; lia. Qed.

Definition no_device : PCIDevice :=
  mkDevice 0 0 0 (mkHeader 0 0 0 0 0 0 0 0 0 0 0 0 0 0 0 0 0 0 0 0 0 0 0 0 0 0 0 0 0 0).

Lemma enumerate_correct_witness :
  exists st', enumerate (mkPci (replicate 64 no_device) 0 (mkSim 0)) = Ok st' /\ get_index st' = 2.
Proof.
  destruct (enumerate_correct (mkPci (replicate 64 no_device) 0 (mkSim 0))) as (st' & E & Ei & _).
  - reflexivity.
  - exists st'. split; [exact E|]. rewrite Ei. vm_compute. reflexivity.
Defined.
