(* ===== verification/Rtc.v ===== *)
(** The CMOS clock, [src/src/drivers/cmos/cmos.cpp], [rtc.cpp] and their
    headers, and [src/src/drivers/power/power.cpp].

    The clock chip is outside the program; [Cmos] says that the index port
    selects the register that the data port reads. *)

From Stdlib Require Import ZifyBool.
From S2P Require Import Prelude Io.

Definition CMOS_PORT_INDEX : Z := 0x70.
Definition CMOS_PORT_DATA : Z := 0x71.
Definition REGISTER_SECONDS : Z := 0x00.
Definition REGISTER_MINUTES : Z := 0x02.
Definition REGISTER_HOURS : Z := 0x04.
Definition REGISTER_DAY_OF_WEEK : Z := 0x06.
Definition REGISTER_DAY_OF_MONTH : Z := 0x07.
Definition REGISTER_MONTH : Z := 0x08.
Definition REGISTER_YEAR : Z := 0x09.
Definition REGISTER_B : Z := 0x0B.
Definition REGISTER_CENTURY : Z := 0x32.

Section Rtc.
Context {P : Type} `{PortIO P}.

Definition readRegister (reg : Z) (p : P) : Z * P := inb CMOS_PORT_DATA (outb CMOS_PORT_INDEX (reg .| 0x80) p).

Definition writeRegister (reg value : Z) (p : P) : P := outb CMOS_PORT_INDEX value (outb CMOS_PORT_DATA (reg .| 0x80) p).

Definition bcdToInt (bcd : Z) : Z := (bcd .& 0x0F) + (bcd .>> 4) * 10.

Definition dataMode (p : P) : bool * P :=
  let (b, p) := readRegister REGISTER_B p in ((b .& 4) .>> 2 =? 1, p).

(** Every reader has this body, with its register. *)
Definition read_clock (reg : Z) (p : P) : Z * P :=
  let (v, p) := readRegister reg p in
  let (binary, p) := dataMode p in
  ((if (binary : bool) then v else bcdToInt v), p).

Definition readHours : P -> Z * P := read_clock REGISTER_HOURS.
Definition readMinutes : P -> Z * P := read_clock REGISTER_MINUTES.
Definition readSeconds : P -> Z * P := read_clock REGISTER_SECONDS.
Definition readDay : P -> Z * P := read_clock REGISTER_DAY_OF_MONTH.
Definition readMonth : P -> Z * P := read_clock REGISTER_MONTH.
Definition readYear : P -> Z * P := read_clock REGISTER_YEAR.
Definition readCentury : P -> Z * P := read_clock REGISTER_CENTURY.
Definition readDayInWeek : P -> Z * P := read_clock REGISTER_DAY_OF_WEEK.

(** [while (good & 0x02) good = inb(0x64);] *)
Fixpoint wait_controller (fuel : nat) (good : Z) (p : P) : outcome P :=
  match fuel with
  | O => Halt
  | S fuel' => if has good 0x02 then let (good, p) := inb 0x64 p in wait_controller fuel' good p else mret p
  end.

(** [reboot] pulses the reset line and then halts: the state is the one in
    which the processor stops; [fuel] bounds the wait. *)
Definition reboot (fuel : nat) (p : P) : outcome P := p ← wait_controller fuel 0x02 p; mret (outb 0x64 0xFE p).

(** Not supported in long mode: the body is empty. *)
Definition rebootResetVector (p : P) : P := p.

End Rtc.

(** ** The chip *)

Class Cmos (P : Type) `{PortIO P} := {
  cmos_reg : P -> Z -> Z;
  cmos_index : P -> Z;
  cmos_select r p : cmos_index (outb CMOS_PORT_INDEX r p) = r mod 2 ^ 7 /\ cmos_reg (outb CMOS_PORT_INDEX r p) = cmos_reg p;
  cmos_data p : exists p', inb CMOS_PORT_DATA p = (cmos_reg p (cmos_index p), p') /\ cmos_reg p' = cmos_reg p;
}.

(** Two decimal digits in four bits each. *)
Definition to_bcd (n : Z) : Z := n / 10 * 16 + n mod 10.

Lemma bcdToInt_to_bcd n : 0 <= n < 100 -> bcdToInt (to_bcd n) = n.
Proof.
  intros Hn. unfold bcdToInt, to_bcd. change 0x0F with (Z.ones 4). rewrite Z.land_ones, Z.shiftr_div_pow2 by lia.
  pose proof (Z.mod_pos_bound n 10). pose proof (Z.div_mod n 10).
  assert ((n / 10 * 16 + n mod 10) mod 2 ^ 4 = n mod 10) as -> by (symmetry; apply Z.mod_unique with (n / 10); lia).
  assert ((n / 10 * 16 + n mod 10) / 2 ^ 4 = n / 10) as -> by (symmetry; apply Z.div_unique with (n mod 10); lia). lia.
Qed.

Section Clock.
Context {P : Type} `{Cmos P}.

Lemma readRegister_ok r (p : P) : 0 <= r < 2 ^ 7 ->
  exists p', readRegister r p = (cmos_reg p r, p') /\ cmos_reg p' = cmos_reg p.
Proof.
  intros Hr. unfold readRegister. destruct (cmos_select (r .| 0x80) p) as [Ei Er].
  destruct (cmos_data (outb CMOS_PORT_INDEX (r .| 0x80) p)) as (p' & E & Er'). exists p'. rewrite E, Ei, Er.
  assert ((r .| 0x80) mod 2 ^ 7 = r) as ->; [|split; [done | congruence]].
  rewrite Z.lor_comm. change 0x80 with (1 * 2 ^ 7). rewrite lor_add_disjoint by lia.
  symmetry. apply Z.mod_unique with 1; lia.
Qed.

(** The value that a clock register shows for the number [n], in the chip's
    data mode. *)
Definition encodes (p : P) (reg n : Z) : Prop :=
  cmos_reg p reg = if Z.testbit (cmos_reg p REGISTER_B) 2 then n else to_bcd n.

Lemma dataMode_bit v : ((v .& 4) .>> 2 =? 1) = Z.testbit v 2.
Proof.
  change 4 with (1 .<< 2). rewrite Z.shiftr_land, Z.shiftr_shiftl_l by lia. change (1 .<< (2 - 2)) with (Z.ones 1).
  rewrite Z.land_ones, Z.shiftr_div_pow2 by lia. rewrite Z.testbit_eqb by lia. done.
Qed.

(** Every reader returns the number that its register shows, in either data
    mode of the chip, and leaves the clock alone. *)
Theorem read_clock_correct reg n (p : P) : 0 <= reg < 2 ^ 7 -> 0 <= n < 100 -> encodes p reg n ->
  exists p', read_clock reg p = (n, p') /\ cmos_reg p' = cmos_reg p.
Proof.
  intros Hr Hn He. unfold read_clock, dataMode. destruct (readRegister_ok reg p Hr) as (p1 & E1 & R1). rewrite E1.
  destruct (readRegister_ok REGISTER_B p1) as (p2 & E2 & R2); [done|]. rewrite E2, R1, dataMode_bit. exists p2.
  split; [|congruence]. f_equal. unfold encodes in He. rewrite He. destruct (Z.testbit _ 2); [done|].
  by apply bcdToInt_to_bcd.
Qed.

End Clock.

(** A chip with fixed registers. *)
Record SimCmos := mkCmos { sim_regs : Z -> Z; sim_index : Z }.
Definition sim_cmos_in (port : Z) (p : SimCmos) : Z * SimCmos := (sim_regs p (sim_index p), p).
Definition sim_cmos_out (port v : Z) (p : SimCmos) : SimCmos :=
  if port =? CMOS_PORT_INDEX then mkCmos (sim_regs p) (v mod 2 ^ 7) else p.
#[export] Instance sim_cmos_ports : PortIO SimCmos :=
  { inb := sim_cmos_in; outb := sim_cmos_out; inw := sim_cmos_in; outw := sim_cmos_out; inl := sim_cmos_in; outl := sim_cmos_out }.
#[export] Program Instance sim_cmos : Cmos SimCmos := { cmos_reg := sim_regs; cmos_index := sim_index }.
Next Obligation. done. Qed.
Next Obligation. intros p. by exists p. Qed.
