(* ===== verification/StatusBar.v ===== *)
(** The status row, [src/src/drivers/vga/statusbar.cpp] and [statusbar.h]: one
    round of the endless loops of the two tasks that show the date and the
    time; the sleep between rounds is in [Timer]. *)

From Stdlib Require Import ZifyBool.
From S2P Require Import Prelude Io Libc Format Terminal Rtc.

Definition STATUS_BAR_POSITION_END : Z := 79.
Definition STATUS_BAR_Y : Z := 24.
Definition LIGHT_BLUE : Z := 0x9.
Definition GREEN : Z := 0x2.
Definition WHITE : Z := 0xF.

Section StatusBar.
Context {P : Type} `{PortIO P}.
Implicit Types t : Terminal P.

(** A read of the clock inside the terminal's world. *)
Definition clock (read : P -> Z * P) t : Z * Terminal P := let (v, p) := read (ports t) in (v, set_ports t p).

Definition at_end (k : Z) : Z := STATUS_BAR_POSITION_END - k.

(** [if (shown < 10) { digit at END - k; '0' at END - (k + 1) } else number at END - (k + 1)] *)
Definition two_digits (small : bool) (shown k : Z) t : outcome (Terminal P) :=
  if small then
    t ← writeDecAt shown (at_end k) STATUS_BAR_Y t; putCharAt 48 (at_end (k + 1)) STATUS_BAR_Y t
  else writeDecAt shown (at_end (k + 1)) STATUS_BAR_Y t.

Definition date t : outcome (Terminal P) :=
  let (year, t) := clock readYear t in
  let (century, t) := clock readCentury t in
  let (month, t) := clock readMonth t in
  let (day, t) := clock readDay t in
  let t := setColorForeground LIGHT_BLUE t in
  t ← writeDecAt year (at_end 1) STATUS_BAR_Y t;
  t ← writeDecAt century (at_end 3) STATUS_BAR_Y t;
  t ← putCharAt 46 (at_end 4) STATUS_BAR_Y t;
  t ← two_digits (month <? 10) month 5 t;
  t ← putCharAt 46 (at_end 7) STATUS_BAR_Y t;
  t ← two_digits (day <? 10) day 8 t;
  mret (setColorForeground WHITE t).

Definition time t : outcome (Terminal P) :=
  let (hour, t) := clock readHours t in
  let (minutes, t) := clock readMinutes t in
  let (seconds, t) := clock readSeconds t in
  let t := setColorForeground GREEN t in
  t ← two_digits (seconds <? 10) seconds 11 t;
  t ← putCharAt 58 (at_end 13) STATUS_BAR_Y t;
  t ← two_digits (minutes <? 10) minutes 14 t;
  t ← putCharAt 58 (at_end 16) STATUS_BAR_Y t;
  t ← two_digits (hour <? 8) (hour + 2) 17 t;
  mret (setColorForeground WHITE t).

(** ** What the row shows *)

(** The cell in column [x] of the status row. *)
Definition status_cell t (x : Z) : option Z := buffer t !! Z.to_nat (1920 + x).

(** [cs] is shown from column [x] on, in the terminal's colour. *)
Definition status_text t (x : Z) (cs : list Z) : Prop :=
  forall i c, cs !! i = Some c -> status_cell t (x + Z.of_nat i) = Some (vgaEntry c (color t)).

(** A write to the status row: the cells outside are kept. *)
Definition status_write t t' (x n : Z) (cs : list Z) : Prop :=
  length (buffer t') = length (buffer t) /\ color t' = color t /\ ports t' = ports t /\ status_text t' x cs /\
  forall y, 0 <= y -> ~ (x <= y < x + n) -> status_cell t' y = status_cell t y.

Lemma putCharAt_status c x t : 0 <= x < 80 -> (2000 <= length (buffer t))%nat ->
  exists t', putCharAt c x STATUS_BAR_Y t = Ok t' /\ status_write t t' x 1 [c].
Proof.
  intros Hx Hl. unfold putCharAt, STATUS_BAR_Y, VGA_WIDTH. rewrite u64_small, store_in_range by lia.
  cbn [mbind outcome_bind mret outcome_ret]. eexists. split; [done|]. split_and!; try done; cbn.
  - by rewrite length_insert.
  - intros i c' Hi. destruct i as [|i]; [|by destruct i]. injection Hi as <-. unfold status_cell. cbn.
    replace (Z.to_nat (1920 + (x + Z.of_nat 0))) with (Z.to_nat (24 * 80 + x)) by lia. apply list_lookup_insert_eq. lia.
  - intros y Hy Hne. unfold status_cell. cbn. apply list_lookup_insert_ne. lia.
Qed.

(** A later write elsewhere keeps a text. *)
Lemma text_kept t t' x cs x2 n2 cs2 : status_text t x cs -> status_write t t' x2 n2 cs2 -> 0 <= x ->
  (x + Z.of_nat (length cs) <= x2 \/ x2 + n2 <= x) -> status_text t' x cs.
Proof.
  intros T1 (_ & C2 & _ & _ & K2) Hx Hd i c Hi. pose proof (lookup_lt_Some _ _ _ Hi).
  rewrite K2 by lia. rewrite C2. by apply T1.
Qed.

Lemma text_app t x a b : status_text t x a -> status_text t (x + Z.of_nat (length a)) b -> status_text t x (a ++ b).
Proof.
  intros Ha Hb i c Hi. apply lookup_app_Some in Hi as [Hi|[Hge Hi]]; [by apply Ha|].
  specialize (Hb _ _ Hi). by replace (x + Z.of_nat i) with (x + Z.of_nat (length a) + Z.of_nat (i - length a)) by lia.
Qed.

Lemma two_digit_chars n : 10 <= n < 100 -> dec_chars n = Ok [48 + n / 10; 48 + n mod 10].
Proof.
  intros Hn. assert (Hall : forallb (fun n => bool_decide (dec_chars n = Ok [48 + n / 10; 48 + n mod 10])) (seqZ 10 90) = true)
    by (vm_compute; reflexivity).
  rewrite forallb_forall in Hall. specialize (Hall n). rewrite <- list_elem_of_In, elem_of_seqZ in Hall.
  specialize (Hall ltac:(lia)). by apply bool_decide_eq_true in Hall.
Qed.

Lemma one_digit_chars n : 0 <= n < 10 -> dec_chars n = Ok [48 + n].
Proof.
  intros Hn. assert (Hall : forallb (fun n => bool_decide (dec_chars n = Ok [48 + n])) (seqZ 0 10) = true)
    by (vm_compute; reflexivity).
  rewrite forallb_forall in Hall. specialize (Hall n). rewrite <- list_elem_of_In, elem_of_seqZ in Hall.
  specialize (Hall ltac:(lia)). by apply bool_decide_eq_true in Hall.
Qed.

Lemma status_write_two t1 t2 t3 x a b : 0 <= x ->
  (status_write t1 t2 x 1 [a] /\ status_write t2 t3 (x + 1) 1 [b]) \/
  (status_write t1 t2 (x + 1) 1 [b] /\ status_write t2 t3 x 1 [a]) ->
  status_write t1 t3 x 2 [a; b].
Proof.
  intros Hx Hw. unfold status_write.
  assert (E : length (buffer t3) = length (buffer t1) /\ color t3 = color t1 /\ ports t3 = ports t1).
  { destruct Hw as [[(? & ? & ? & _) (? & ? & ? & _)]|[(? & ? & ? & _) (? & ? & ? & _)]]; split_and!; congruence. }
  destruct E as (El & Ec & Ep). split_and!; try done.
  - assert (status_text t3 x [a] /\ status_text t3 (x + 1) [b]) as [Ha Hb].
    { destruct Hw as [[W1 W2]|[W1 W2]].
      - split; [eapply text_kept; [apply W1 | exact W2 | done | simpl; lia] | apply W2].
      - split; [apply W2 | eapply text_kept; [apply W1 | exact W2 | lia | simpl; lia]]. }
    intros i c Hi. destruct i as [|[|i]]; [by apply (Ha 0%nat) | | by destruct i].
    replace (x + Z.of_nat 1) with (x + 1 + Z.of_nat 0) by lia. by apply (Hb 0%nat).
  - intros y Hy Hne. destruct Hw as [[(_ & _ & _ & _ & K1) (_ & _ & _ & _ & K2)]|[(_ & _ & _ & _ & K1) (_ & _ & _ & _ & K2)]];
      rewrite K2, K1 by lia; done.
Qed.

Lemma two_digits_ok small n k t : small = (n <? 10) -> 0 <= n < 100 -> 0 <= k < 79 -> (2000 <= length (buffer t))%nat ->
  exists t', two_digits small n k t = Ok t' /\ status_write t t' (at_end (k + 1)) 2 [48 + n / 10; 48 + n mod 10].
Proof.
  intros -> Hn Hk Hl. unfold two_digits, at_end, STATUS_BAR_POSITION_END, writeDecAt.
  destruct (n <? 10) eqn:E; bool_to_prop.
  - rewrite one_digit_chars by lia. cbn [mbind outcome_bind putCharsAt]. rewrite (u64_small (79 - k + 0)) by lia.
    destruct (putCharAt_status (48 + n) (79 - k + 0) t) as (t1 & E1 & W1); [lia | done |]. rewrite E1. cbn [mbind outcome_bind].
    destruct (putCharAt_status 48 (79 - (k + 1)) t1) as (t2 & E2 & W2); [lia | destruct W1; lia |].
    exists t2. split; [exact E2|]. rewrite Z.div_small, Z.mod_small by lia. apply (status_write_two t t1 t2); [lia|]. right.
    replace (79 - (k + 1) + 1) with (79 - k + 0) by lia. done.
  - rewrite two_digit_chars by lia. cbn [mbind outcome_bind putCharsAt]. rewrite !u64_small by (rewrite ?u64_small; lia).
    destruct (putCharAt_status (48 + n / 10) (79 - (k + 1) + 0) t) as (t1 & E1 & W1); [lia | done |].
    rewrite E1. cbn [mbind outcome_bind].
    destruct (putCharAt_status (48 + n mod 10) (79 - (k + 1) + (0 + 1)) t1) as (t2 & E2 & W2); [lia | destruct W1; lia |].
    rewrite E2. cbn [mbind outcome_bind mret outcome_ret]. exists t2. split; [done|].
    apply (status_write_two t t1 t2); [lia|]. left. replace (79 - (k + 1)) with (79 - (k + 1) + 0) at 1 by lia.
    replace (79 - (k + 1) + 1) with (79 - (k + 1) + (0 + 1)) by lia. done.
Qed.

Lemma length_kept t t' x n cs : status_write t t' x n cs -> (2000 <= length (buffer t))%nat -> (2000 <= length (buffer t'))%nat.
Proof. intros [-> _]. done. Qed.

Definition digits2 (n : Z) : list Z := [48 + n / 10; 48 + n mod 10].

Local Ltac keep T W := let T' := fresh "T" in
  pose proof (text_kept _ _ _ _ _ _ _ T W ltac:(lia) ltac:(simpl; lia)) as T'; clear T; rename T' into T.

(** A round of the clock task shows the time: for every time the chip can
    show, in binary or BCD mode, the status row reads HH:MM:SS in green at
    columns 61 to 68, with the hour two ahead of the chip's, and no cell
    outside these columns changes. *)
Theorem time_shows_clock `{!Cmos P} t h m s : (2000 <= length (buffer t))%nat ->
  0 <= h < 24 -> 0 <= m < 60 -> 0 <= s < 60 ->
  encodes (ports t) REGISTER_HOURS h -> encodes (ports t) REGISTER_MINUTES m -> encodes (ports t) REGISTER_SECONDS s ->
  exists t', time t = Ok t' /\ length (buffer t') = length (buffer t) /\
    (let cs := digits2 (h + 2) ++ [58] ++ digits2 m ++ [58] ++ digits2 s in
     forall i c, cs !! i = Some c ->
       status_cell t' (61 + Z.of_nat i) = Some (vgaEntry c (color (setColorForeground GREEN t)))) /\
    forall y, 0 <= y -> ~ (61 <= y < 69) -> status_cell t' y = status_cell t y.
Proof.
  intros Hl Hh Hm Hs Eh Em Es. unfold time, clock, readHours, readMinutes, readSeconds.
  destruct (read_clock_correct REGISTER_HOURS h (ports t)) as (p1 & R1 & K1); [done | lia | done |]. rewrite R1. cbn [ports set_ports].
  destruct (read_clock_correct REGISTER_MINUTES m p1) as (p2 & R2 & K2); [done | lia | unfold encodes in *; by rewrite K1 |].
  rewrite R2. cbn [ports set_ports].
  destruct (read_clock_correct REGISTER_SECONDS s p2) as (p3 & R3 & K3); [done | lia | unfold encodes in *; by rewrite K2, K1 |].
  rewrite R3. cbn [ports set_ports]. clear R1 R2 R3 K1 K2 K3 Eh Em Es. set (t0 := setColorForeground GREEN _).
  assert (C0 : color t0 = color (setColorForeground GREEN t)) by done.
  assert (L0 : (2000 <= length (buffer t0))%nat) by done.
  destruct (two_digits_ok (s <? 10) s 11 t0) as (t1 & E1 & W1); [done | lia | lia | done |]. run_call E1.
  pose proof (length_kept _ _ _ _ _ W1 L0) as L1.
  destruct (putCharAt_status 58 (at_end 13) t1) as (t2 & E2 & W2); [done | done |]. run_call E2.
  pose proof (length_kept _ _ _ _ _ W2 L1) as L2.
  destruct (two_digits_ok (m <? 10) m 14 t2) as (t3 & E3 & W3); [done | lia | lia | done |]. run_call E3.
  pose proof (length_kept _ _ _ _ _ W3 L2) as L3.
  destruct (putCharAt_status 58 (at_end 16) t3) as (t4 & E4 & W4); [done | done |]. run_call E4.
  pose proof (length_kept _ _ _ _ _ W4 L3) as L4.
  destruct (two_digits_ok (h <? 8) (h + 2) 17 t4) as (t5 & E5 & W5); [lia | lia | lia | done |]. run_call E5.
  unfold at_end, STATUS_BAR_POSITION_END in *.
  eexists. split; [done|]. cbn [buffer setColorForeground setColor set_color].
  pose proof W1 as (A1 & B1 & _ & T1 & K1). pose proof W2 as (A2 & B2 & _ & T2 & K2).
  pose proof W3 as (A3 & B3 & _ & T3 & K3). pose proof W4 as (A4 & B4 & _ & T4 & K4).
  pose proof W5 as (A5 & B5 & _ & T5 & K5).
  split_and!; [rewrite A5, A4, A3, A2, A1; done| |].
  - assert (Hcol : color t5 = color (setColorForeground GREEN t)) by congruence. rewrite <- Hcol.
    keep T4 W5. keep T3 W4. keep T3 W5. keep T2 W3. keep T2 W4. keep T2 W5. keep T1 W2. keep T1 W3. keep T1 W4. keep T1 W5.
    apply (text_app t5 61 (digits2 (h + 2))); [exact T5|]. apply (text_app t5 63 [58]); [exact T4|].
    apply (text_app t5 64 (digits2 m)); [exact T3|]. apply (text_app t5 66 [58]); [exact T2 | exact T1].
  - intros y Hy Hne. transitivity (status_cell t5 y); [done|]. rewrite K5, K4, K3, K2, K1 by lia. done.
Qed.

End StatusBar.

Definition sample_clock : SimCmos :=
  mkCmos (fun r => if r =? REGISTER_HOURS then 0x13 else if r =? REGISTER_MINUTES then 0x05 else
                   if r =? REGISTER_SECONDS then 0x59 else 2) 0.

Lemma time_shows_clock_witness :
  exists t', time (mkTerminal (replicate 2000 0) 0 0 0x0F sample_clock) = Ok t' /\
    status_cell t' 61 = Some (vgaEntry 49 (color (setColorForeground GREEN (mkTerminal (replicate 2000 0) 0 0 0x0F sample_clock)))).
Proof.
  destruct (time_shows_clock (mkTerminal (replicate 2000 0) 0 0 0x0F sample_clock) 13 5 59) as (t' & E & _ & Hc & _).
  - apply Nat.leb_le. vm_compute. reflexivity.
  - lia.
  - lia.
  - lia.
  - reflexivity.
  - reflexivity.
  - reflexivity.
  - exists t'. split; [exact E|]. apply (Hc 0%nat 49). reflexivity.
Defined.
