(* ===== verification/UserSpace.v ===== *)
(** What the program loader and the system calls need of the memory of the
    running task: mapping pages ([VMM::allocAndMapPage]), loads and stores at
    virtual addresses, and the kernel heap.  [us_page] and [us_byte] are the
    address space as the task sees it, [us_room] a number of pages that can
    still be mapped.  A store to a page that is not mapped is a page fault. *)

From Stdlib Require Import ZifyBool.
From S2P Require Import Prelude.

Definition page_of (a : Z) : Z := a / 4096.

Class UserSpace (M : Type) := {
  us_map : Z -> Z -> M -> outcome (bool * M);
  us_peek : Z -> M -> outcome Z;
  us_poke : Z -> Z -> M -> outcome M;
  us_kmalloc : Z -> M -> outcome (Z * M);
  us_kfree : Z -> M -> outcome M;
  us_ok : M -> Prop;
  us_page : M -> Z -> bool;
  us_byte : M -> Z -> Z;
  us_room : M -> nat;
  us_map_spec a fl m : us_ok m -> 0 <= a < 2 ^ 47 -> a mod 4096 = 0 ->
    exists ok m', us_map a fl m = Ok (ok, m') /\ us_ok m' /\ (us_room m <= S (us_room m'))%nat /\
      (us_room m <> O -> ok = true) /\
      (forall p, us_page m' p = us_page m p || (ok && (p =? page_of a))) /\
      (forall x, page_of x <> page_of a -> us_byte m' x = us_byte m x);
  us_peek_spec a m : us_ok m -> us_page m (page_of a) = true -> us_peek a m = Ok (us_byte m a);
  us_poke_spec a v m : us_ok m -> us_page m (page_of a) = true -> 0 <= v < 256 ->
    exists m', us_poke a v m = Ok m' /\ us_ok m' /\ us_room m' = us_room m /\
      (forall p, us_page m' p = us_page m p) /\
      (forall x, us_byte m' x = if x =? a then v else us_byte m x);
  us_kmalloc_spec n m : us_ok m -> exists p m', us_kmalloc n m = Ok (p, m') /\ us_ok m' /\
    (us_room m <= S (us_room m'))%nat /\ (us_room m <> O -> p <> 0) /\
    (forall p, us_page m' p = us_page m p) /\ (forall x, us_byte m' x = us_byte m x);
  us_kfree_spec p m : us_ok m -> exists m', us_kfree p m = Ok m' /\ us_ok m' /\ us_room m' = us_room m /\
    (forall p, us_page m' p = us_page m p) /\ (forall x, us_byte m' x = us_byte m x);
}.

Section UserSpace.
Context {M : Type} `{UserSpace M}.
Implicit Types m : M.

(** [memcpy] of the bytes [bs] to address [a]. *)
Fixpoint poke_all (a : Z) (bs : list Z) m : outcome M :=
  match bs with [] => mret m | b :: bs' => m ← us_poke a b m; poke_all (a + 1) bs' m end.

(** [memset] of [n] bytes at [a] to zero. *)
Definition poke_zero (a : Z) (n : nat) m : outcome M := poke_all a (replicate n 0) m.

(** A little-endian word of eight bytes. *)
Definition word_bytes (v : Z) : list Z := Z_to_little_endian 8 8 v.

(** The bytes of [a, a + n) lie on mapped pages. *)
Definition mapped_range m (a n : Z) : Prop := forall x, a <= x < a + n -> us_page m (page_of x) = true.

Definition same_pages m m' : Prop := forall p, us_page m' p = us_page m p.

Lemma poke_all_ok a bs m : us_ok m -> mapped_range m a (Z.of_nat (length bs)) -> Forall (fun b => 0 <= b < 256) bs ->
  exists m', poke_all a bs m = Ok m' /\ us_ok m' /\ us_room m' = us_room m /\ same_pages m m' /\
    forall x, us_byte m' x = if (a <=? x) && (x <? a + Z.of_nat (length bs)) then default 0 (bs !! Z.to_nat (x - a)) else us_byte m x.
Proof.
  intros Hok Hmap Hbs. revert a m Hok Hmap. induction Hbs as [|b bs Hb Hbs IH]; intros a m Hok Hmap; cbn [poke_all].
  - exists m. split_and!; try done. intros x. destruct ((a <=? x) && (x <? a + Z.of_nat (length (@nil Z)))) eqn:E; [simpl in E; lia | done].
  - destruct (us_poke_spec a b m Hok) as (m1 & E1 & Hok1 & R1 & P1 & B1); [apply Hmap; simpl; lia | done |]. run_call E1.
    destruct (IH (a + 1) m1 Hok1) as (m2 & E2 & Hok2 & R2 & P2 & B2).
    { intros x Hx. rewrite P1. apply Hmap. simpl length. lia. }
    exists m2. split_and!; try done; [congruence | intros p; by rewrite P2 |].
    intros x. rewrite B2, B1. simpl length. destruct (Z.eqb_spec x a) as [->|Hne].
    + assert ((a + 1 <=? a) && (a <? a + 1 + Z.of_nat (length bs)) = false) as -> by lia.
      assert ((a <=? a) && (a <? a + Z.of_nat (S (length bs))) = true) as -> by lia. by rewrite Z.sub_diag.
    + assert ((a + 1 <=? x) && (x <? a + 1 + Z.of_nat (length bs)) = (a <=? x) && (x <? a + Z.of_nat (S (length bs)))) as -> by lia.
      destruct ((a <=? x) && (x <? a + Z.of_nat (S (length bs)))) eqn:E; [|done].
      replace (Z.to_nat (x - a)) with (S (Z.to_nat (x - (a + 1)))) by lia. done.
Qed.

(** [for (addr = lo; addr < hi; addr += PAGE_SIZE) allocAndMapPage(addr, flags);] *)
Fixpoint map_pages (n : nat) (addr flags : Z) m : outcome M :=
  match n with
  | O => mret m
  | S n' => '(_, m) ← us_map addr flags m; map_pages n' (addr + 4096) flags m
  end.

Lemma page_of_step a k : a mod 4096 = 0 -> page_of (a + 4096 * k) = page_of a + k.
Proof. intros Ha. unfold page_of. rewrite (Z.mul_comm 4096), Z.div_add by lia. lia. Qed.

Lemma map_pages_ok n a fl m : us_ok m -> 0 <= a -> a + 4096 * Z.of_nat n <= 2 ^ 47 -> a mod 4096 = 0 -> (n <= us_room m)%nat ->
  exists m', map_pages n a fl m = Ok m' /\ us_ok m' /\ (us_room m <= n + us_room m')%nat /\
    (forall p, us_page m' p = us_page m p || ((page_of a <=? p) && (p <? page_of a + Z.of_nat n))) /\
    (forall x, ~ (page_of a <= page_of x < page_of a + Z.of_nat n) -> us_byte m' x = us_byte m x).
Proof.
  revert a m. induction n as [|n IH]; intros a m Hok H0 Hhi Hal Hroom; cbn [map_pages].
  - exists m. split_and!; try done. intros p. assert ((page_of a <=? p) && (p <? page_of a + Z.of_nat 0) = false) as -> by lia.
    by rewrite orb_false_r.
  - destruct (us_map_spec a fl m Hok) as (ok & m1 & E1 & Hok1 & R1 & Ht & P1 & B1); [lia | done |]. run_call E1.
    assert (ok = true) as -> by (apply Ht; lia).
    assert (Hal' : (a + 4096) mod 4096 = 0) by (rewrite <- (Z.mul_1_l 4096) at 1; by rewrite Z_mod_plus_full).
    destruct (IH (a + 4096) m1 Hok1) as (m2 & E2 & Hok2 & R2 & P2 & B2); [lia | lia | done | lia |].
    assert (Hpo : page_of (a + 4096) = page_of a + 1) by (apply (page_of_step a 1 Hal)).
    rewrite Hpo in *. exists m2. split_and!; try done; [lia | |].
    + intros p. rewrite P2, P1. destruct (us_page m p); [done|]. cbn [orb andb]. lia.
    + intros x Hx. rewrite B2, B1 by lia. done.
Qed.

End UserSpace.

(** ** A flat address space *)

(** The mapped pages, the bytes, and the pages left. *)
Record FlatSpace := mkFlat { flat_pages : gset Z; flat_bytes : gmap Z Z; flat_room : nat }.

Definition flat_byte (m : FlatSpace) (a : Z) : Z := default 0 (flat_bytes m !! a).

Definition flat_map (a fl : Z) (m : FlatSpace) : outcome (bool * FlatSpace) :=
  match flat_room m with
  | O => Ok (false, m)
  | S n => Ok (true, mkFlat ({[page_of a]} ∪ flat_pages m) (flat_bytes m) n)
  end.

Definition flat_has (m : FlatSpace) (p : Z) : bool := bool_decide (p ∈ flat_pages m).

Definition flat_poke (a v : Z) (m : FlatSpace) : outcome FlatSpace :=
  if flat_has m (page_of a) then Ok (mkFlat (flat_pages m) (<[a := v]> (flat_bytes m)) (flat_room m)) else Fault.

#[export] Program Instance flat_space : UserSpace FlatSpace := {|
  us_map := flat_map;
  us_peek a m := if flat_has m (page_of a) then Ok (flat_byte m a) else Fault;
  us_poke := flat_poke;
  us_kmalloc n m := match flat_room m with O => Ok (0, m) | S _ => Ok (0x1000, m) end;
  us_kfree p m := Ok m;
  us_ok _ := True;
  us_page := flat_has;
  us_byte := flat_byte;
  us_room := flat_room;
|}.
Next Obligation.
  intros a fl m _ Ha Hal. unfold flat_map. destruct (flat_room m) as [|n] eqn:En.
  - exists false, m. split_and!; try (done || lia || (intros p; by rewrite orb_false_r)).
  - eexists true, _. split; [done|]. split_and!; try (done || (cbn; lia)). intros p. unfold flat_has. cbn [flat_pages].
    rewrite bool_decide_decide. destruct (decide _) as [Hin|Hin]; rewrite elem_of_union, elem_of_singleton in Hin.
    + destruct Hin as [-> |Hin]; [rewrite Z.eqb_refl; by rewrite orb_true_r|]. by rewrite (bool_decide_eq_true_2 _ Hin).
    + rewrite bool_decide_eq_false_2 by tauto. rewrite (proj2 (Z.eqb_neq p _)); [done | tauto].
Qed.
Next Obligation. intros a m _ Hp. cbn in *. by rewrite Hp. Qed.
Next Obligation.
  intros a v m _ Hp Hv. unfold flat_poke. rewrite Hp. eexists. split; [done|]. split_and!; try done.
  intros x. unfold flat_byte. cbn. destruct (Z.eqb_spec x a) as [->|Hne].
  - by rewrite lookup_insert_eq.
  - by rewrite lookup_insert_ne.
Qed.
Next Obligation.
  intros n m _. destruct (flat_room m) eqn:E; [exists 0, m | exists 0x1000, m]; cbn; rewrite E; split_and!; try done; lia.
Qed.
Next Obligation. intros p m _. by exists m. Qed.
