(* ===== verification/Elf.v ===== *)
(** The program loader, [src/src/file_formats/elf/elf.cpp].

    It runs over three components: the file system ([Vfs]), the address space
    of the task with the kernel heap ([UserSpace]), and the terminal for its
    error messages.  The headers are decoded from the bytes that were read. *)

From Stdlib Require Import ZifyBool.
From S2P Require Import Prelude Io Libc Format Bytes Vfs VfsProofs Terminal UserSpace.

Definition ELFMAG0 : Z := 0x7F.
Definition ELFMAG1 : Z := 69.
Definition ELFMAG2 : Z := 76.
Definition ELFMAG3 : Z := 70.
Definition ELFCLASS64 : Z := 2.
Definition ELFDATA2LSB : Z := 1.
Definition ET_EXEC : Z := 2.
Definition EM_X86_64 : Z := 62.
Definition PT_LOAD : Z := 1.
Definition PF_W : Z := 2.
Definition USER_STACK_TOP : Z := 0x7FFFFFFFF000.
Definition USER_STACK_SIZE : Z := 4 * 4096.
Definition MAX_ARGS : nat := 16.
Definition PAGE_SIZE : Z := 4096.
Definition PAGE_WRITABLE : Z := 2.
Definition PAGE_USER : Z := 4.
Definition SIZEOF_Ehdr : Z := 64.
Definition SIZEOF_Phdr : Z := 56.

Record Elf64_Ehdr := mkEhdr {
  e_ident : list Z; e_type : Z; e_machine : Z; e_version : Z; e_entry : Z; e_phoff : Z; e_shoff : Z; e_flags : Z;
  e_ehsize : Z; e_phentsize : Z; e_phnum : Z; e_shentsize : Z; e_shnum : Z; e_shstrndx : Z
}.

Record Elf64_Phdr := mkPhdr {
  p_type : Z; p_flags : Z; p_offset : Z; p_vaddr : Z; p_paddr : Z; p_filesz : Z; p_memsz : Z; p_align : Z
}.

Definition ehdr_widths : list nat := [2; 2; 4; 8; 8; 8; 4; 2; 2; 2; 2; 2; 2]%nat.
Definition phdr_widths : list nat := [4; 4; 8; 8; 8; 8; 8; 8]%nat.

Definition decode_ehdr (bs : list Z) : Elf64_Ehdr :=
  match unpack ehdr_widths (drop 16 bs) with
  | [ty; ma; ve; en; ph; sh; fl; eh; pe; pn; se; sn; sx] =>
      mkEhdr (take 16 bs) ty ma ve en ph sh fl eh pe pn se sn sx
  | _ => mkEhdr [] 0 0 0 0 0 0 0 0 0 0 0 0 0
  end.

Definition decode_phdr (bs : list Z) : Elf64_Phdr :=
  match unpack phdr_widths bs with
  | [ty; fl; off; va; pa; fs; ms; al] => mkPhdr ty fl off va pa fs ms al
  | _ => mkPhdr 0 0 0 0 0 0 0 0
  end.

(** [phdrs[i]] *)
Definition phdr_at (table : list Z) (i : Z) : outcome Elf64_Phdr :=
  bs ← slice table (SIZEOF_Phdr * i) SIZEOF_Phdr; mret (decode_phdr bs).

Record World (W M P : Type) := mkWorld { vfs : Vfs W; space : M; term : Terminal P }.
Arguments mkWorld {W M P}.
Arguments vfs {W M P}.
Arguments space {W M P}.
Arguments term {W M P}.

Section Elf.
Context {W M P : Type} `{UserSpace M} `{PortIO P}.
Implicit Types w : World W M P.

Definition with_vfs w (v : Vfs W) : World W M P := mkWorld v (space w) (term w).
Definition with_space w (m : M) : World W M P := mkWorld (vfs w) m (term w).

(** [g_terminal.write(msg);] *)
Definition say (msg : list Z) w : outcome (World W M P) :=
  t ← Terminal.write msg (term w); mret (mkWorld (vfs w) (space w) t).

(** The bytes read go to the caller's buffer in order; every round that does
    not end the loop reads at least one. *)
Fixpoint readFully_loop (fuel : nat) (fd count : Z) (data : list Z) (v : Vfs W) : outcome (bool * list Z * Vfs W) :=
  match fuel with
  | O => Halt
  | S fuel' =>
      let total := Z.of_nat (length data) in
      if negb (total <? count) then mret (true, data, v) else
      '(n, bs, v) ← Vfs.read fd (count - total) v;
      if n <=? 0 then mret (false, data, v) else readFully_loop fuel' fd count (data ++ bs) v
  end.

Definition readFully (fd count : Z) (v : Vfs W) : outcome (bool * list Z * Vfs W) :=
  readFully_loop (S (Z.to_nat count)) fd count [] v.

(** [argv[i], i = argc - 1 .. 0]: the strings with their terminators below
    [sp], the last one on top; the addresses come out in order. *)
Fixpoint push_strings (args : list (list Z)) (sp : Z) (addrs : list Z) (m : M) : outcome (Z * list Z * M) :=
  match args with
  | [] => mret (sp, addrs, m)
  | a :: args' =>
      let sp := u64 (sp - (Z.of_nat (length a) + 1)) in
      m ← poke_all sp (a ++ [0]) m;
      push_strings args' sp (sp :: addrs) m
  end.

Definition setupArgs (stack_top : Z) (argv : list (list Z)) (m : M) : outcome (Z * Z * M) :=
  let argv := take MAX_ARGS argv in
  '(sp, str_addrs, m) ← push_strings (reverse argv) stack_top [] m;
  let sp := sp .& u64 (.~ 0x7) in
  let sp := u64 (sp - (Z.of_nat (length argv) + 1) * 8) in
  m ← poke_all sp (concat (word_bytes <$> (str_addrs ++ [0]))) m;
  mret (sp .& u64 (.~ 0xF), sp, m).

(** Close the descriptor and report failure. *)
Definition abandon_load (fd : Z) w : outcome (Z * Z * Z * World W M P) :=
  v ← Vfs.close fd (vfs w); mret (0, 0, 0, with_vfs w v).

Definition page_count (lo hi : Z) : nat := Z.to_nat ((hi - lo + PAGE_SIZE - 1) / PAGE_SIZE).

(** One round of the loop over the program headers; [false] is the early return. *)
Definition load_segment (fd : Z) (ph : Elf64_Phdr) w : outcome (bool * World W M P) :=
  if negb (p_type ph =? PT_LOAD) then mret (true, w) else
  let seg_start := p_vaddr ph .& u64 (.~ (PAGE_SIZE - 1)) in
  let seg_end := u64 (p_vaddr ph + p_memsz ph + PAGE_SIZE - 1) .& u64 (.~ (PAGE_SIZE - 1)) in
  let flags := if has (p_flags ph) PF_W then PAGE_USER .| PAGE_WRITABLE else PAGE_USER in
  m ← map_pages (page_count seg_start seg_end) seg_start flags (space w);
  m ← poke_zero seg_start (Z.to_nat (u64 (seg_end - seg_start))) m;
  let w := with_space w m in
  if p_filesz ph =? 0 then mret (true, w) else
  let (_, v) := Vfs.seek fd (s64 (p_offset ph)) SeekSet (vfs w) in
  '(ok, data, v) ← readFully fd (p_filesz ph) v;
  m ← poke_all (p_vaddr ph) data (space w);
  let w := mkWorld v m (term w) in
  if (ok : bool) then mret (true, w) else
  w ← say (chars "elf: failed to load segment data" ++ [10]) w; mret (false, w).

Fixpoint load_segments (fd : Z) (table : list Z) (n : nat) (i : Z) w : outcome (bool * World W M P) :=
  match n with
  | O => mret (true, w)
  | S n' =>
      ph ← phdr_at table i;
      '(ok, w) ← load_segment fd ph w;
      if (ok : bool) then load_segments fd table n' (i + 1) w else mret (false, w)
  end.

(** The checks of the header: the message of the first that fails. *)
Definition check_header (h : Elf64_Ehdr) : option (list Z) :=
  let id i := nth i (e_ident h) 0 in
  if negb (id 0%nat =? ELFMAG0) || negb (id 1%nat =? ELFMAG1) || negb (id 2%nat =? ELFMAG2) || negb (id 3%nat =? ELFMAG3)
  then Some (chars "elf: bad magic" ++ [10]) else
  if negb (id 4%nat =? ELFCLASS64) || negb (id 5%nat =? ELFDATA2LSB)
  then Some (chars "elf: unsupported class/endianness" ++ [10]) else
  if negb (e_machine h =? EM_X86_64) then Some (chars "elf: wrong architecture" ++ [10]) else
  if negb (e_type h =? ET_EXEC) then Some (chars "elf: not a static executable" ++ [10]) else
  if (e_phnum h =? 0) || negb (e_phentsize h =? SIZEOF_Phdr)
  then Some (chars "elf: no/invalid program headers" ++ [10]) else None.

(** The result is the entry point (0 on failure), the stack top and the
    address of [argv]. *)
Definition load (path : list Z) (argv : list (list Z)) w : outcome (Z * Z * Z * World W M P) :=
  '(fd, v) ← Vfs.open path (vfs w);
  let w := with_vfs w v in
  if fd =? INVALID_FD then
    w ← say (chars "elf: cannot open ") w; w ← say path w; w ← say [10] w; mret (0, 0, 0, w)
  else
  '(ok, bs, v) ← readFully fd SIZEOF_Ehdr (vfs w);
  let w := with_vfs w v in
  if negb ok then w ← say (chars "elf: failed to read header" ++ [10]) w; abandon_load fd w else
  let header := decode_ehdr bs in
  match check_header header with
  | Some msg => w ← say msg w; abandon_load fd w
  | None =>
      let (_, v) := Vfs.seek fd (s64 (e_phoff header)) SeekSet (vfs w) in
      let ph_table_size := e_phnum header * SIZEOF_Phdr in
      '(phdrs, m) ← us_kmalloc ph_table_size (space w);
      let w := mkWorld v m (term w) in
      if phdrs =? 0 then abandon_load fd w else
      '(ok, table, v) ← readFully fd ph_table_size (vfs w);
      let w := with_vfs w v in
      if negb ok then
        w ← say (chars "elf: failed to read program headers" ++ [10]) w;
        m ← us_kfree phdrs (space w); abandon_load fd (with_space w m)
      else
      '(ok, w) ← load_segments fd table (Z.to_nat (e_phnum header)) 0 w;
      m ← us_kfree phdrs (space w);
      if negb ok then abandon_load fd (with_space w m) else
      v ← Vfs.close fd (vfs w);
      let stack_bottom := USER_STACK_TOP - USER_STACK_SIZE in
      m ← map_pages (page_count stack_bottom USER_STACK_TOP) stack_bottom (PAGE_WRITABLE .| PAGE_USER) m;
      '(sp, argv_ptr, m) ← setupArgs USER_STACK_TOP argv m;
      mret (e_entry header, sp, argv_ptr, mkWorld v m (term w))
  end.

(** ** Reading the file *)

Section LoadFile.
Context (v0 : Vfs W) (ms : list (Mount W)) (wd : W) (mi : nat) (mt : Mount W) (h : FileHandle) (fd : Z) (content : list Z).
Context (Hmt : ms !! mi = Some mt) (Hslices : reads_slices (driver mt) (fs_instance mt) h wd content).
Context (Hsize : Z.of_nat (length content) < 2 ^ 60).

(** The file is open at offset [off], and nothing else differs from [v0]. *)
Definition file_at (off : Z) (v : Vfs W) : Prop :=
  vfs_wf v /\ world v = wd /\ g_mounts v = ms /\ 0 <= off < 2 ^ 62 /\
  forall fd', get_file fd' v = if fd' =? fd then Some (mkOpen true mi h off) else get_file fd' v0.

Lemma read_step off count v : file_at off v -> 0 <= count < 2 ^ 63 ->
  let data := take (Z.to_nat count) (drop (Z.to_nat off) content) in
  off + Z.of_nat (length data) < 2 ^ 62 ->
  exists v', Vfs.read fd count v = Ok (Z.of_nat (length data), data, v') /\ file_at (off + Z.of_nat (length data)) v'.
Proof.
  intros (Hwf & Hw & Hm & Hoff & Hg) Hc data Hb. pose proof (Hg fd) as Hf. rewrite Z.eqb_refl in Hf.
  destruct (VfsProofs.read_ok fd count v _ mt content Hwf Hf) as (v' & E & Hwf' & Hw' & Hm' & Hg'); cbn [f_mount f_handle f_offset] in *;
    [by rewrite Hm | by rewrite Hw | lia | done | lia |].
  exists v'. split; [exact E|]. split_and!; [done | congruence | congruence | lia | lia |].
  intros fd'. rewrite Hg', Hg. by destruct (fd' =? fd).
Qed.

Lemma readFully_ok off count v : file_at off v -> 0 <= count -> off + count <= Z.of_nat (length content) ->
  exists v', readFully fd count v = Ok (true, take (Z.to_nat count) (drop (Z.to_nat off) content), v') /\ file_at (off + count) v'.
Proof.
  intros Hv Hc Hb. pose proof Hv as (_ & _ & _ & Hoff & _). unfold readFully. cbn [readFully_loop length].
  change (Z.of_nat 0) with 0. destruct (Z.ltb_spec 0 count) as [Hpos|Hz]; cbn [negb].
  - rewrite Z.sub_0_r. destruct (read_step off count v Hv ltac:(lia)) as (v' & E & Hv').
    { rewrite length_take, length_drop. lia. }
    assert (Hlen : Z.of_nat (length (take (Z.to_nat count) (drop (Z.to_nat off) content))) = count).
    { rewrite length_take, length_drop. lia. }
    rewrite Hlen in *. run_call E. rewrite (proj2 (Z.leb_gt count 0)) by lia.
    destruct (Z.to_nat count) as [|k] eqn:Ek; [lia|]. cbn [readFully_loop app]. rewrite Hlen, Z.ltb_irrefl. cbn [negb].
    exists v'. done.
  - assert (count = 0) as -> by lia. exists v. split; [done|]. by rewrite Z.add_0_r.
Qed.

(** A read past the end of the file fails. *)
Lemma readFully_short off count v : file_at off v -> Z.of_nat (length content) < off + count -> 0 < count < 2 ^ 63 ->
  exists data v' off', readFully fd count v = Ok (false, data, v') /\ file_at off' v'.
Proof.
  intros Hv Hshort Hc. unfold readFully.
  assert (Hloop : forall fuel data v off, (Z.to_nat (count - Z.of_nat (length data)) < fuel)%nat -> file_at off v ->
    Z.of_nat (length content) < off + (count - Z.of_nat (length data)) -> Z.of_nat (length data) < count ->
    exists data' v' off', readFully_loop fuel fd count data v = Ok (false, data', v') /\ file_at off' v').
  { clear v Hv off Hshort. induction fuel as [|fuel IH]; intros data v off Hf Hv Hs Hlt; [lia|]. cbn [readFully_loop].
    rewrite (proj2 (Z.ltb_lt _ _) Hlt). cbn [negb]. pose proof Hv as (_ & _ & _ & Hoff & _).
    set (d := take (Z.to_nat (count - Z.of_nat (length data))) (drop (Z.to_nat off) content)).
    assert (Hd : Z.of_nat (length d) <= Z.max 0 (Z.of_nat (length content) - off)).
    { unfold d. rewrite length_take, length_drop. lia. }
    destruct (read_step off (count - Z.of_nat (length data)) v Hv) as (v' & E & Hv'); [lia | fold d; lia |]. fold d in E, Hv'.
    run_call E. destruct (Z.leb_spec (Z.of_nat (length d)) 0); [by exists data, v', (off + Z.of_nat (length d))|].
    apply (IH (data ++ d) v' (off + Z.of_nat (length d))); rewrite ?length_app; [lia | done | lia | lia]. }
  apply (Hloop _ [] v off); [simpl; lia | done | simpl; lia | simpl; lia].
Qed.

(** ** Segments *)

Context (Hbytes : bytes_ok content).

(** The pages of a segment. *)
Definition seg_lo (ph : Elf64_Phdr) : Z := page_of (p_vaddr ph).
Definition seg_hi (ph : Elf64_Phdr) : Z := page_of (p_vaddr ph + p_memsz ph + 4095).
Definition is_load (ph : Elf64_Phdr) : bool := p_type ph =? PT_LOAD.
Definition seg_pages (ph : Elf64_Phdr) : nat := if is_load ph then Z.to_nat (seg_hi ph - seg_lo ph) else O.
Definition in_seg (ph : Elf64_Phdr) (p : Z) : bool := is_load ph && (seg_lo ph <=? p) && (p <? seg_hi ph).

(** A header that the loader can follow: the segment lies below 2^46 and its
    bytes in the file. *)
Definition phdr_ok (ph : Elf64_Phdr) : Prop :=
  0 <= p_vaddr ph /\ 0 <= p_filesz ph <= p_memsz ph /\ p_vaddr ph + p_memsz ph <= 2 ^ 46 /\
  0 <= p_offset ph /\ p_offset ph + p_filesz ph <= Z.of_nat (length content).

(** The segment as the program should see it: its bytes from the file, then zeros. *)
Definition loaded (m : M) (ph : Elf64_Phdr) : Prop :=
  forall x, p_vaddr ph <= x < p_vaddr ph + p_memsz ph ->
    us_page m (page_of x) = true /\
    us_byte m x = if x <? p_vaddr ph + p_filesz ph then default 0 (content !! Z.to_nat (p_offset ph + (x - p_vaddr ph))) else 0.

Lemma page_of_le a b : a <= b -> page_of a <= page_of b.
Proof. intros. apply Z.div_le_mono; lia. Qed.

Lemma page_of_bounds x : page_of x * 4096 <= x < page_of x * 4096 + 4096.
Proof. unfold page_of. pose proof (Z.div_mod x 4096). pose proof (Z.mod_pos_bound x 4096). lia. Qed.

Lemma page_of_mul k : page_of (k * 4096) = k.
Proof. unfold page_of. apply Z.div_mul. lia. Qed.

Lemma seg_bounds ph : phdr_ok ph -> seg_lo ph * 4096 <= p_vaddr ph /\ p_vaddr ph + p_memsz ph <= seg_hi ph * 4096 /\
  0 <= seg_lo ph <= seg_hi ph /\ seg_hi ph <= 2 ^ 34 /\ forall x, seg_lo ph * 4096 <= x < seg_hi ph * 4096 -> seg_lo ph <= page_of x < seg_hi ph.
Proof.
  intros (Hv & Hf & Hm & _). unfold seg_lo, seg_hi. pose proof (page_of_bounds (p_vaddr ph)).
  pose proof (page_of_bounds (p_vaddr ph + p_memsz ph + 4095)).
  pose proof (page_of_le (p_vaddr ph) (p_vaddr ph + p_memsz ph + 4095)).
  split_and!; try lia. intros x Hx. pose proof (page_of_bounds x). lia.
Qed.

Lemma take_drop_bytes n o : Forall (fun b => 0 <= b < 256) (take n (drop o content)).
Proof. apply list.Forall_take, list.Forall_drop. exact Hbytes. Qed.

Lemma lookup_slice n o k : (k < n)%nat -> take n (drop o content) !! k = content !! (o + k)%nat.
Proof. intros Hk. by rewrite lookup_take_lt, lookup_drop. Qed.

Lemma load_segment_ok ph w off : phdr_ok ph -> us_ok (space w) -> file_at off (vfs w) -> (seg_pages ph <= us_room (space w))%nat ->
  exists w' off', load_segment fd ph w = Ok (true, w') /\ file_at off' (vfs w') /\ term w' = term w /\ us_ok (space w') /\
    (us_room (space w) <= seg_pages ph + us_room (space w'))%nat /\
    (forall p, us_page (space w') p = us_page (space w) p || in_seg ph p) /\
    (forall x, in_seg ph (page_of x) = false -> us_byte (space w') x = us_byte (space w) x) /\
    (is_load ph = true -> loaded (space w') ph).
Proof.
  intros Hph Hok Hfile Hroom. pose proof (seg_bounds ph Hph) as (Hlo & Hhi & Hle & Htop & Hin).
  unfold load_segment. fold (is_load ph). unfold seg_pages, in_seg in *. destruct (is_load ph); cbn [negb].
  2:{ exists w, off. split_and!; try (done || lia). }
  pose proof Hph as (Hv & Hfs & Hms & Ho & Hfo). cbn [andb] in *.
  assert (Es : p_vaddr ph .& u64 (.~ (PAGE_SIZE - 1)) = seg_lo ph * 4096) by (apply (land_floor _ 12); lia).
  assert (Ee : u64 (p_vaddr ph + p_memsz ph + PAGE_SIZE - 1) .& u64 (.~ (PAGE_SIZE - 1)) = seg_hi ph * 4096).
  { unfold PAGE_SIZE. rewrite (u64_small (p_vaddr ph + p_memsz ph + 4096 - 1)) by lia. unfold seg_hi.
    replace (p_vaddr ph + p_memsz ph + 4095) with (p_vaddr ph + p_memsz ph + 4096 - 1) by lia. apply (land_floor _ 12); lia. }
  rewrite Es, Ee. clear Es Ee.
  assert (Hpc : page_count (seg_lo ph * 4096) (seg_hi ph * 4096) = Z.to_nat (seg_hi ph - seg_lo ph)).
  { unfold page_count, PAGE_SIZE. f_equal. symmetry. apply Z.div_unique with 4095; lia. }
  rewrite Hpc, (u64_small (seg_hi ph * 4096 - seg_lo ph * 4096)) by lia. set (flags := if has _ _ then _ else _).
  destruct (map_pages_ok (Z.to_nat (seg_hi ph - seg_lo ph)) (seg_lo ph * 4096) flags (space w) Hok)
    as (m1 & E1 & Hok1 & R1 & P1 & B1); [lia | lia | apply Z.mod_mul; lia | done |]. run_call E1. rewrite page_of_mul in P1, B1.
  set (n := Z.to_nat (seg_hi ph * 4096 - seg_lo ph * 4096)).
  destruct (poke_all_ok (seg_lo ph * 4096) (replicate n 0) m1 Hok1) as (m2 & E2 & Hok2 & R2 & P2 & B2).
  { rewrite length_replicate. intros x Hx. rewrite P1. specialize (Hin x ltac:(lia)). apply orb_true_iff. right. lia. }
  { apply Forall_replicate. lia. }
  rewrite length_replicate in B2. unfold poke_zero. run_call E2. cbn [vfs with_space].
  assert (Hz : forall x, p_vaddr ph <= x < p_vaddr ph + p_memsz ph -> us_page m2 (page_of x) = true /\ us_byte m2 x = 0).
  { intros x Hx. specialize (Hin x ltac:(lia)). rewrite P2, P1, B2. split; [apply orb_true_iff; right; lia|].
    assert ((seg_lo ph * 4096 <=? x) && (x <? seg_lo ph * 4096 + Z.of_nat n) = true) as -> by lia.
    by rewrite lookup_replicate_2 by lia. }
  assert (Hout : forall x, (seg_lo ph <=? page_of x) && (page_of x <? seg_hi ph) = false -> us_byte m2 x = us_byte (space w) x).
  { intros x Hx. rewrite B2. pose proof (page_of_bounds x).
    assert ((seg_lo ph * 4096 <=? x) && (x <? seg_lo ph * 4096 + Z.of_nat n) = false) as ->.
    { destruct ((seg_lo ph * 4096 <=? x) && (x <? seg_lo ph * 4096 + Z.of_nat n)) eqn:E; [|done]. specialize (Hin x ltac:(lia)). lia. }
    apply B1. lia. }
  assert (Hpg : forall p, us_page m2 p = us_page (space w) p || ((seg_lo ph <=? p) && (p <? seg_hi ph))).
  { intros p. rewrite P2, P1. f_equal. lia. }
  destruct (Z.eqb_spec (p_filesz ph) 0) as [Hf0|Hf0].
  { exists (with_space w m2), off. split_and!; try done; cbn [space with_space vfs]; [lia|].
    intros _ x Hx. destruct (Hz x Hx) as [-> ->]. rewrite Hf0. by rewrite (proj2 (Z.ltb_ge x _)) by lia. }
  assert (Hs64 : s64 (p_offset ph) = p_offset ph).
  { unfold s64. apply sgn_small; lia. }
  rewrite Hs64. pose proof Hfile as (Hwf & Hw & Hm & Hoff & Hg). pose proof (Hg fd) as Hgf. rewrite Z.eqb_refl in Hgf.
  destruct (seek_set_ok fd (p_offset ph) (vfs w) _ Hwf Hgf) as (v1 & Esk & Hwf1 & Hw1 & Hm1 & Hg1); [lia|]. rewrite Esk.
  assert (Hfile1 : file_at (p_offset ph) v1).
  { split_and!; [done | congruence | congruence | lia | lia |]. intros fd'. rewrite Hg1. cbn [f_mount f_handle]. rewrite Hg. by destruct (fd' =? fd). }
  destruct (readFully_ok (p_offset ph) (p_filesz ph) v1 Hfile1) as (v2 & Erd & Hfile2); [lia | lia |]. run_call Erd.
  set (data := take (Z.to_nat (p_filesz ph)) (drop (Z.to_nat (p_offset ph)) content)).
  assert (Hdl : Z.of_nat (length data) = p_filesz ph) by (unfold data; rewrite length_take, length_drop; lia).
  destruct (poke_all_ok (p_vaddr ph) data m2 Hok2) as (m3 & E3 & Hok3 & R3 & P3 & B3).
  { rewrite Hdl. intros x Hx. apply Hz. lia. }
  { apply take_drop_bytes. }
  rewrite Hdl in B3. cbn [space with_space]. run_call E3. eexists _, _. split; [done|]. cbn [space vfs term].
  split_and!; try done; [lia | intros p; rewrite P3; apply Hpg | |].
  - intros x Hx. rewrite B3. pose proof (page_of_bounds x).
    assert ((p_vaddr ph <=? x) && (x <? p_vaddr ph + p_filesz ph) = false) as ->; [|by apply Hout].
    destruct ((p_vaddr ph <=? x) && (x <? p_vaddr ph + p_filesz ph)) eqn:E; [|done]. specialize (Hin x ltac:(lia)). lia.
  - intros _ x Hx. rewrite P3, B3. destruct (Hz x Hx) as [-> ->]. split; [done|].
    rewrite (proj2 (Z.leb_le (p_vaddr ph) x)) by lia. cbn [andb].
    destruct (x <? p_vaddr ph + p_filesz ph) eqn:E; [|done]. unfold data. rewrite lookup_slice by lia.
    do 2 f_equal. lia.
Qed.

(** Two segments have no page in common. *)
Definition apart (a b : Elf64_Phdr) : Prop := forall p, in_seg a p = true -> in_seg b p = false.

Definition in_segs (phs : list Elf64_Phdr) (p : Z) : bool := existsb (fun ph => in_seg ph p) phs.
Definition all_pages (phs : list Elf64_Phdr) : nat := sum_list (seg_pages <$> phs).

Lemma all_pages_cons ph phs : all_pages (ph :: phs) = (seg_pages ph + all_pages phs)%nat.
Proof. done. Qed.

Lemma apart_later ph phs p : Forall (apart ph) phs -> in_seg ph p = true -> in_segs phs p = false.
Proof.
  intros Ha Hp. induction Ha as [|b phs Hb Ha IH]; [done|]. cbn [in_segs existsb]. by rewrite (Hb p Hp).
Qed.

Lemma load_segments_ok table phs i w off :
  (forall k ph, phs !! k = Some ph -> phdr_at table (i + Z.of_nat k) = Ok ph) ->
  Forall phdr_ok phs -> ForallOrdPairs apart phs -> us_ok (space w) -> file_at off (vfs w) ->
  (all_pages phs <= us_room (space w))%nat ->
  exists w' off', load_segments fd table (length phs) i w = Ok (true, w') /\ file_at off' (vfs w') /\ term w' = term w /\
    us_ok (space w') /\ (us_room (space w) <= all_pages phs + us_room (space w'))%nat /\
    (forall p, us_page (space w') p = us_page (space w) p || in_segs phs p) /\
    (forall x, in_segs phs (page_of x) = false -> us_byte (space w') x = us_byte (space w) x) /\
    Forall (fun ph => is_load ph = true -> loaded (space w') ph) phs.
Proof.
  revert i w off. induction phs as [|ph phs IH]; intros i w off Htab Hphs Hap Hok Hfile Hroom; cbn [load_segments length].
  - exists w, off. split_and!; try (done || lia). intros p. by rewrite orb_false_r.
  - apply Forall_cons_iff in Hphs as [Hph Hphs]. inversion Hap as [|? ? Ha Hap']; subst. rewrite all_pages_cons in *.
    pose proof (Htab 0%nat ph eq_refl) as E0. rewrite Z.add_0_r in E0. run_call E0.
    destruct (load_segment_ok ph w off Hph Hok Hfile) as (w1 & off1 & E1 & F1 & T1 & O1 & R1 & P1 & B1 & L1);
      [lia|]. run_call E1.
    destruct (IH (i + 1) w1 off1) as (w2 & off2 & E2 & F2 & T2 & O2 & R2 & P2 & B2 & L2); try done.
    { intros k ph' Hk. replace (i + 1 + Z.of_nat k) with (i + Z.of_nat (S k)) by lia. by apply Htab. }
    { lia. }
    exists w2, off2. split; [done|]. split; [done|]. split; [congruence|]. split; [done|]. split; [lia|].
    split; [intros p; rewrite P2, P1; cbn [in_segs existsb]; by rewrite orb_assoc|]. split.
    { intros x Hx. cbn [in_segs existsb] in Hx. apply orb_false_iff in Hx as [Hx1 Hx2]. by rewrite B2, B1. }
    constructor; [|done]. intros Hload x Hx. destruct (L1 Hload x Hx) as [Hpg Hb].
    assert (Hin : in_seg ph (page_of x) = true).
    { pose proof (seg_bounds ph Hph) as (Hlo & Hhi & _ & _ & Hin). specialize (Hin x ltac:(lia)). unfold in_seg. rewrite Hload. lia. }
    rewrite P2, Hpg. split; [done|]. rewrite B2; [exact Hb|]. by apply (apart_later ph).
Qed.

End LoadFile.

(** ** The arguments *)

Definition bytes_at (m : M) (a : Z) (bs : list Z) : Prop := forall k c, bs !! k = Some c -> us_byte m (a + Z.of_nat k) = c.

Lemma bytes_at_app m a x y : bytes_at m a (x ++ y) <-> bytes_at m a x /\ bytes_at m (a + Z.of_nat (length x)) y.
Proof.
  split.
  - intros Hb. split; intros k c Hk.
    + apply Hb. by apply lookup_app_l_Some.
    + replace (a + Z.of_nat (length x) + Z.of_nat k) with (a + Z.of_nat (length x + k)) by lia. apply Hb.
      rewrite lookup_app_r by lia. by replace (length x + k - length x)%nat with k by lia.
  - intros [Hx Hy] k c Hk. apply lookup_app_Some in Hk as [Hk|[Hge Hk]]; [by apply Hx|].
    specialize (Hy _ _ Hk). by replace (a + Z.of_nat k) with (a + Z.of_nat (length x) + Z.of_nat (k - length x)) by lia.
Qed.

Lemma bytes_at_kept m m' a bs lo n : bytes_at m a bs -> (forall x, ~ (lo <= x < lo + n) -> us_byte m' x = us_byte m x) ->
  (a + Z.of_nat (length bs) <= lo \/ lo + n <= a) -> bytes_at m' a bs.
Proof. intros Hb Hk Hd k c Hc. pose proof (lookup_lt_Some _ _ _ Hc). rewrite Hk by lia. by apply Hb. Qed.

(** The strings with their terminators, and where they start from [a] on. *)
Definition blob (args : list (list Z)) : list Z := concat ((fun s => s ++ [0]) <$> args).
Fixpoint starts (args : list (list Z)) (a : Z) : list Z :=
  match args with [] => [] | s :: args' => a :: starts args' (a + Z.of_nat (length s) + 1) end.

Lemma blob_snoc l s : blob (l ++ [s]) = blob l ++ s ++ [0].
Proof. unfold blob. rewrite fmap_app, concat_app. cbn [fmap list_fmap concat]. by rewrite app_nil_r. Qed.

Lemma starts_snoc l s a : starts (l ++ [s]) a = starts l a ++ [a + Z.of_nat (length (blob l))].
Proof.
  revert a. induction l as [|x l IH]; intros a; cbn [app starts].
  - unfold blob. simpl. by rewrite Z.add_0_r.
  - rewrite IH. do 3 f_equal. unfold blob. rewrite fmap_cons. cbn [concat]. rewrite !length_app. simpl length. lia.
Qed.

Lemma length_starts l a : length (starts l a) = length l.
Proof. revert a. induction l as [|x l IH]; intros a; simpl; [done | by rewrite IH]. Qed.

(** Every string of the blob is where [starts] says. *)
Lemma starts_bytes m l a i s : bytes_at m a (blob l) -> l !! i = Some s ->
  exists p, starts l a !! i = Some p /\ bytes_at m p (s ++ [0]).
Proof.
  revert a i. induction l as [|x l IH]; intros a i Hb Hi; [done|]. unfold blob in Hb. rewrite fmap_cons in Hb.
  cbn [concat] in Hb. apply bytes_at_app in Hb as [Hx Hl]. destruct i as [|i]; cbn in Hi.
  - injection Hi as <-. by exists a.
  - destruct (IH (a + Z.of_nat (length x) + 1) i) as (p & Hp & Hs); [|done|by exists p].
    rewrite length_app in Hl. simpl in Hl. by replace (a + Z.of_nat (length x) + 1) with (a + Z.of_nat (length x + 1)) by lia.
Qed.

Definition string_ok (s : list Z) : Prop := Forall (fun b => 0 <= b < 256) s.

Lemma push_strings_ok l sp addrs m : us_ok m -> Forall string_ok l -> 0 <= sp - Z.of_nat (length (blob l)) -> sp < 2 ^ 64 ->
  mapped_range m (sp - Z.of_nat (length (blob l))) (Z.of_nat (length (blob l))) ->
  exists m', let sp' := sp - Z.of_nat (length (blob l)) in
    push_strings (reverse l) sp addrs m = Ok (sp', starts l sp' ++ addrs, m') /\ us_ok m' /\ us_room m' = us_room m /\
    same_pages m m' /\ bytes_at m' sp' (blob l) /\
    (forall x, ~ (sp' <= x < sp) -> us_byte m' x = us_byte m x).
Proof.
  revert sp addrs m. induction l as [|s l IH] using rev_ind; intros sp addrs m Hok Hl Hlo Hsp Hmap.
  - exists m. cbn. rewrite Z.sub_0_r. split_and!; try done.
  - apply Forall_app in Hl as [Hl [Hs _]%Forall_cons_iff]. rewrite blob_snoc in *. rewrite !length_app in *. simpl length in *.
    set (n := Z.of_nat (length (blob l))) in *.
    replace (Z.of_nat (length (blob l) + (length s + 1))) with (n + (Z.of_nat (length s) + 1)) in * by lia.
    rewrite reverse_snoc. cbn [push_strings]. rewrite u64_small by lia. set (spa := sp - (Z.of_nat (length s) + 1)).
    destruct (poke_all_ok spa (s ++ [0]) m Hok) as (m1 & E1 & O1 & R1 & P1 & B1).
    { rewrite length_app. simpl. intros x Hx. apply Hmap. unfold spa in *. lia. }
    { apply Forall_app. split; [exact Hs|]. by repeat constructor. }
    rewrite length_app in B1. simpl length in B1. run_call E1.
    destruct (IH spa (spa :: addrs) m1) as (m2 & E2 & O2 & R2 & P2 & B2 & K2); try done.
    { unfold spa. lia. }
    { unfold spa. lia. }
    { intros x Hx. rewrite P1. apply Hmap. unfold spa in *. lia. }
    fold n in E2, B2, K2. exists m2. cbv zeta. replace (sp - (n + (Z.of_nat (length s) + 1))) with (spa - n) by (unfold spa; lia).
    split; [rewrite E2, starts_snoc; fold n; rewrite <- app_assoc; do 3 f_equal; cbn [app]; do 2 f_equal; lia|].
    split_and!; [done | congruence | intros p; by rewrite P2 | |].
    + apply bytes_at_app. split; [done|]. fold n. replace (spa - n + n) with spa by lia. intros k c Hk.
      pose proof (lookup_lt_Some _ _ _ Hk) as Hlt. rewrite length_app in Hlt. simpl in Hlt.
      rewrite K2, B1 by lia. assert ((spa <=? spa + Z.of_nat k) && (spa + Z.of_nat k <? spa + Z.of_nat (length s + 1)) = true) as -> by lia.
      replace (Z.to_nat (spa + Z.of_nat k - spa)) with k by lia. by rewrite Hk.
    + intros x Hx. rewrite K2, B1 by (unfold spa in *; lia).
      by assert ((spa <=? x) && (x <? spa + Z.of_nat (length s + 1)) = false) as -> by (unfold spa in *; lia).
Qed.

(** [argv] at [ap] as a C program sees it: a pointer to each string, then null. *)
Definition argv_at (m : M) (ap : Z) (args : list (list Z)) : Prop :=
  (forall i s, args !! i = Some s -> exists p, 0 <= p < 2 ^ 64 /\
     bytes_at m (ap + 8 * Z.of_nat i) (word_bytes p) /\ bytes_at m p (s ++ [0])) /\
  bytes_at m (ap + 8 * Z.of_nat (length args)) (word_bytes 0).

Lemma length_word v : length (word_bytes v) = 8%nat.
Proof. exact (length_le 8 v ltac:(lia)). Qed.

Lemma length_words ws : length (concat (word_bytes <$> ws)) = (8 * length ws)%nat.
Proof. induction ws as [|v ws IH]; [done|]. rewrite fmap_cons. cbn [concat]. rewrite length_app, length_word, IH. simpl. lia. Qed.

Lemma words_ok ws : Forall (fun b => 0 <= b < 256) (concat (word_bytes <$> ws)).
Proof.
  induction ws as [|v ws IH]; [by constructor|]. rewrite fmap_cons. cbn [concat]. apply Forall_app. split; [|done].
  apply (le_bytes_ok 8). lia.
Qed.

Lemma words_at m a ws i v : bytes_at m a (concat (word_bytes <$> ws)) -> ws !! i = Some v ->
  bytes_at m (a + 8 * Z.of_nat i) (word_bytes v).
Proof.
  revert a i. induction ws as [|x ws IH]; intros a i Hb Hi; [done|]. rewrite fmap_cons in Hb. cbn [concat] in Hb.
  apply bytes_at_app in Hb as [Hx Hl]. rewrite length_word in Hl. destruct i as [|i]; cbn in Hi.
  - injection Hi as <-. by rewrite Z.add_0_r.
  - replace (a + 8 * Z.of_nat (S i)) with (a + Z.of_nat 8 + 8 * Z.of_nat i) by lia. by apply IH.
Qed.

Lemma starts_range l a i p : starts l a !! i = Some p -> a <= p <= a + Z.of_nat (length (blob l)).
Proof.
  revert a i. induction l as [|x l IH]; intros a i Hi; [done|]. unfold blob. rewrite fmap_cons. cbn [concat].
  rewrite !length_app. fold (blob l). simpl length. destruct i as [|i]; cbn in Hi; [injection Hi as <-; lia|].
  apply IH in Hi. lia.
Qed.

(** The room the arguments take below the top of the stack. *)
Definition args_size (args : list (list Z)) : Z := Z.of_nat (length (blob args)) + 8 * (Z.of_nat (length args) + 1) + 8.

Lemma setupArgs_ok top args m : us_ok m -> (length args <= 16)%nat -> Forall string_ok args ->
  args_size args + 16 <= top < 2 ^ 63 -> mapped_range m (top - args_size args) (args_size args) ->
  exists sp ap m', setupArgs top args m = Ok (sp, ap, m') /\ us_ok m' /\ same_pages m m' /\
    argv_at m' ap args /\ sp mod 16 = 0 /\ ap - 16 < sp <= ap /\ top - args_size args <= ap /\
    (forall x, ~ (top - args_size args <= x < top) -> us_byte m' x = us_byte m x).
Proof.
  intros Hok Hn Hs Htop Hmap. unfold setupArgs, args_size in *. unfold MAX_ARGS. rewrite take_ge by lia.
  set (n := Z.of_nat (length (blob args))) in *. set (argc := Z.of_nat (length args)) in *.
  destruct (push_strings_ok args top [] m Hok Hs) as (m1 & E1 & O1 & R1 & P1 & B1 & K1); [fold n; lia | lia | |].
  { intros x Hx. fold n in Hx. apply Hmap. lia. }
  fold n in E1, B1, K1. cbv zeta in E1. run_call E1. rewrite app_nil_r.
  assert (Efl : (top - n) .& u64 (.~ 7) = (top - n) / 8 * 8) by (apply (land_floor (top - n) 3); lia).
  rewrite Efl. pose proof (Z.div_mod (top - n) 8) as Hdm. pose proof (Z.mod_pos_bound (top - n) 8) as Hmb.
  set (sp1 := (top - n) / 8 * 8) in *. rewrite u64_small by lia. set (ap := sp1 - (argc + 1) * 8).
  destruct (poke_all_ok ap (concat (word_bytes <$> (starts args (top - n) ++ [0]))) m1 O1) as (m2 & E2 & O2 & R2 & P2 & B2).
  { rewrite length_words, length_app, length_starts. simpl length. intros x Hx. rewrite P1. apply Hmap. unfold ap in *. lia. }
  { apply words_ok. }
  rewrite length_words, length_app, length_starts in B2. simpl length in B2. run_call E2.
  assert (Hap : ap + Z.of_nat (8 * (length args + 1)) = sp1) by (unfold ap; lia). rewrite Hap in B2.
  assert (Hws : bytes_at m2 ap (concat (word_bytes <$> (starts args (top - n) ++ [0])))).
  { intros k c Hk. pose proof (lookup_lt_Some _ _ _ Hk) as Hlt. rewrite length_words, length_app, length_starts in Hlt. simpl in Hlt.
    rewrite B2. assert ((ap <=? ap + Z.of_nat k) && (ap + Z.of_nat k <? sp1) = true) as -> by lia.
    replace (Z.to_nat (ap + Z.of_nat k - ap)) with k by lia. by rewrite Hk. }
  assert (Hblob : bytes_at m2 (top - n) (blob args)).
  { apply (bytes_at_kept m1 m2 _ _ ap (sp1 - ap)); [done | | right; lia]. intros x Hx. rewrite B2.
    by assert ((ap <=? x) && (x <? sp1) = false) as -> by lia. }
  assert (Esp : ap .& u64 (.~ 15) = ap / 16 * 16) by (apply (land_floor ap 4); unfold ap; lia). rewrite Esp.
  pose proof (Z.div_mod ap 16). pose proof (Z.mod_pos_bound ap 16).
  eexists _, _, m2. split; [done|]. split_and!; try (done || lia).
  - intros p. by rewrite P2.
  - split.
    + intros i s Hi. destruct (starts_bytes m2 args (top - n) i s Hblob Hi) as (p & Hp & Hb). exists p.
      pose proof (starts_range _ _ _ _ Hp). split; [unfold n in *; lia|]. split; [|done].
      apply (words_at m2 ap _ i p Hws). by apply lookup_app_l_Some.
    + apply (words_at m2 ap _ (length args) 0 Hws). rewrite lookup_app_r by (rewrite length_starts; lia).
      by rewrite length_starts, Nat.sub_diag.
  - apply Z.mod_mul. lia.
  - intros x Hx. rewrite B2, K1 by lia. assert ((ap <=? x) && (x <? sp1) = false) as -> by (unfold ap in *; lia). done.
Qed.

End Elf.
