(* ===== verification/ElfProofs.v ===== *)
(** Correctness of the program loader of [Elf]. *)

From Stdlib Require Import ZifyBool.
From S2P Require Import Prelude Io Libc Format Bytes Vfs VfsProofs Terminal UserSpace Elf.

Section ElfProofs.
Context {W M P : Type} `{UserSpace M} `{PortIO P}.
Implicit Types w : World W M P.

(** An executable that fits the loader: its header passes the checks, the
    table of program headers and the bytes of the segments lie in the file,
    and no two segments share a page. *)
Record elf_file (content : list Z) (h : Elf64_Ehdr) (phs : list Elf64_Phdr) : Prop := {
  ef_length : 64 <= Z.of_nat (length content) < 2 ^ 60;
  ef_bytes : bytes_ok content;
  ef_header : h = decode_ehdr (take 64 content);
  ef_check : check_header h = None;
  ef_table : 0 <= e_phoff h /\ 0 <= e_phnum h /\ e_phoff h + e_phnum h * 56 <= Z.of_nat (length content);
  ef_phdrs : phs = (fun i => decode_phdr (take 56 (drop (Z.to_nat (e_phoff h + 56 * i)) content))) <$> seqZ 0 (e_phnum h);
  ef_segments : Forall (phdr_ok content) phs;
  ef_apart : ForallOrdPairs apart phs;
}.

(** A path that opens as descriptor [fd] on a file with the given bytes. *)
Record opens (v : Vfs W) (path : list Z) (fd : nat) (mi : nat) (mt : Mount W) (fh : FileHandle) (wd : W) (content : list Z) : Prop := {
  op_wf : vfs_wf v;
  op_path : exists sub, resolvePath path 128 v = Some (mi, sub) /\
    drv_open (driver mt) (fs_instance mt) sub (world v) = Ok (Some fh, wd);
  op_mount : g_mounts v !! mi = Some mt;
  op_slot : first_slot (fun f => negb (f_in_use f)) (g_open_files v) 0 = Some fd;
  op_reads : reads_slices (driver mt) (fs_instance mt) fh wd content;
}.

Lemma open_file_at v path fd mi mt fh wd content : opens v path fd mi mt fh wd content ->
  exists v', Vfs.open path v = Ok (Z.of_nat fd, v') /\ get_file (Z.of_nat fd) v = None /\ (fd < 32)%nat /\
    file_at v (g_mounts v) wd mi fh (Z.of_nat fd) 0 v'.
Proof.
  intros [Hwf (sub & Hr & Hd) Hm Hs Hsl].
  destruct (open_ok path v mi sub mt fh wd fd Hwf Hr Hm Hd Hs) as (v' & E & Hwf' & Hw & Hm' & _ & Hn & Hg).
  pose proof (first_slot_some _ _ _ _ Hs) as (f & _ & Hf & _ & _). rewrite Nat.sub_0_r in Hf.
  apply lookup_lt_Some in Hf. destruct Hwf as [Hl _]. unfold MAX_OPEN_FILES in Hl.
  exists v'. split_and!; try (done || lia).
Qed.

(** Closing the file again leaves the descriptors as they were. *)
Lemma close_file_at (v0 : Vfs W) (ms : list (Mount W)) wd wd' mi mt fh fd off v : file_at v0 ms wd mi fh fd off v -> ms !! mi = Some mt -> 0 <= fd < 32 ->
  get_file fd v0 = None -> drv_close (driver mt) (fs_instance mt) fh wd = Ok wd' ->
  exists v', Vfs.close fd v = Ok v' /\ world v' = wd' /\ g_mounts v' = ms /\ forall fd', get_file fd' v' = get_file fd' v0.
Proof.
  intros (Hwf & Hw & Hm & _ & Hg) Hmt Hfd Hnone Hc. pose proof (Hg fd) as Hf. rewrite Z.eqb_refl in Hf.
  unfold Vfs.close. rewrite Hf. cbn [f_mount f_handle f_offset]. unfold get_mount. rewrite Hm, Hmt. cbn [mbind outcome_bind].
  rewrite Hw. run_call Hc. eexists. split; [done|]. split_and!; [done | done |]. intros fd'.
  rewrite get_file_put_closed by done. rewrite get_file_world, Hg. by destruct (Z.eqb_spec fd' fd) as [->|].
Qed.

(** The table read from the file holds the program headers. *)
Lemma table_phdrs content h phs : elf_file content h phs -> length phs = Z.to_nat (e_phnum h) /\
  forall k ph, phs !! k = Some ph ->
    phdr_at (take (Z.to_nat (e_phnum h * 56)) (drop (Z.to_nat (e_phoff h)) content)) (0 + Z.of_nat k) = Ok ph.
Proof.
  intros [Hl Hb Hh Hc (H1 & H2 & H3) Hp _ _]. split; [rewrite Hp, length_fmap, length_seqZ; done|].
  intros k ph Hk. rewrite Hp in Hk. apply list_lookup_fmap_Some in Hk as (i & -> & Hi). apply lookup_seqZ in Hi as [-> Hi].
  unfold phdr_at, SIZEOF_Phdr. rewrite slice_ok; [|lia|lia|rewrite length_take, length_drop; lia].
  cbn [mbind outcome_bind mret outcome_ret]. do 2 f_equal. change (Z.to_nat 56) with 56%nat.
  rewrite skipn_firstn_comm, drop_drop, take_take. rewrite Nat.min_l by lia. do 2 f_equal. lia.
Qed.

Lemma elf_load_ok w path argv fd mi mt fh wd wd' content h phs :
  opens (vfs w) path fd mi mt fh wd content -> elf_file content h phs ->
  drv_close (driver mt) (fs_instance mt) fh wd = Ok wd' ->
  us_ok (space w) -> (all_pages phs + 5 <= us_room (space w))%nat ->
  (length argv <= 16)%nat -> Forall string_ok argv -> args_size argv + 16 <= USER_STACK_SIZE ->
  exists sp ap w', load path argv w = Ok (e_entry h, sp, ap, w') /\
    Forall (fun ph => is_load ph = true -> loaded content (space w') ph) phs /\
    argv_at (space w') ap argv /\ sp mod 16 = 0 /\ ap - 16 < sp <= ap /\
    USER_STACK_TOP - USER_STACK_SIZE <= sp /\ mapped_range (space w') (USER_STACK_TOP - USER_STACK_SIZE) USER_STACK_SIZE /\
    term w' = term w /\ world (vfs w') = wd' /\ forall fd', get_file fd' (vfs w') = get_file fd' (vfs w).
Proof.
  intros Hop Hef Hclose Hok Hroom Hargc Hargs Hfit. pose proof Hef as [Hlen Hbytes Hh Hcheck (Hpo & Hpn & Hpt) Hphs Hsegs Hap].
  destruct (open_file_at _ _ _ _ _ _ _ _ Hop) as (v1 & E1 & Hnone & Hfd & F1). pose proof Hop as [_ _ Hmt _ Hsl].
  unfold load. run_call E1. unfold INVALID_FD. rewrite (proj2 (Z.eqb_neq (Z.of_nat fd) (-1))) by lia. cbn [vfs with_vfs].
  destruct (readFully_ok (vfs w) (g_mounts (vfs w)) wd mi mt fh (Z.of_nat fd) content Hmt Hsl ltac:(lia) 0 SIZEOF_Ehdr v1 F1)
    as (v2 & E2 & F2); [done | unfold SIZEOF_Ehdr; lia |]. run_call E2. change (drop (Z.to_nat 0) content) with content.
  change (Z.to_nat SIZEOF_Ehdr) with 64%nat. rewrite <- Hh. cbn [negb]. rewrite Hcheck. cbn [vfs with_vfs].
  assert (Hs64 : s64 (e_phoff h) = e_phoff h) by (apply sgn_small; lia). rewrite Hs64.
  pose proof F2 as (Hwf2 & Hw2 & Hm2 & _ & Hg2). pose proof (Hg2 (Z.of_nat fd)) as Hgf. rewrite Z.eqb_refl in Hgf.
  destruct (seek_set_ok (Z.of_nat fd) (e_phoff h) v2 _ Hwf2 Hgf) as (v3 & Esk & Hwf3 & Hw3 & Hm3 & Hg3); [lia|]. rewrite Esk.
  assert (F3 : file_at (vfs w) (g_mounts (vfs w)) wd mi fh (Z.of_nat fd) (e_phoff h) v3).
  { split_and!; [done | congruence | congruence | lia | lia |]. intros fd'. rewrite Hg3. cbn [f_mount f_handle]. rewrite Hg2.
    by destruct (fd' =? Z.of_nat fd). }
  unfold SIZEOF_Phdr. cbn [space with_vfs].
  destruct (us_kmalloc_spec (e_phnum h * 56) (space w) Hok) as (p & m1 & Ek & O1 & R1 & Hp0 & P1 & B1). run_call Ek.
  rewrite (proj2 (Z.eqb_neq p 0)) by (apply Hp0; lia). cbn [vfs].
  destruct (readFully_ok (vfs w) (g_mounts (vfs w)) wd mi mt fh (Z.of_nat fd) content Hmt Hsl ltac:(lia) (e_phoff h) (e_phnum h * 56) v3 F3)
    as (v4 & E4 & F4); [lia | lia |]. run_call E4. cbn [negb].
  destruct (table_phdrs content h phs Hef) as [Hnum Htab]. rewrite <- Hnum.
  destruct (load_segments_ok (vfs w) (g_mounts (vfs w)) wd mi mt fh (Z.of_nat fd) content Hmt Hsl ltac:(lia) Hbytes _ phs 0
    (with_vfs (mkWorld v3 m1 (term w)) v4) _ Htab Hsegs Hap O1 F4) as (w5 & off5 & E5 & F5 & T5 & O5 & R5 & P5 & B5 & L5);
    [cbn [space with_vfs]; lia|]. cbn [space with_vfs term] in *. run_call E5.
  destruct (us_kfree_spec p (space w5) O5) as (m6 & E6 & O6 & R6 & P6 & B6). run_call E6. cbn [negb].
  destruct (close_file_at _ _ _ wd' _ mt _ _ _ _ F5 Hmt ltac:(lia) Hnone Hclose) as (v7 & E7 & Hw7 & Hm7 & Hg7). run_call E7.
  assert (Hst : page_count (USER_STACK_TOP - USER_STACK_SIZE) USER_STACK_TOP = 4%nat) by done. rewrite Hst.
  destruct (map_pages_ok 4 (USER_STACK_TOP - USER_STACK_SIZE) (PAGE_WRITABLE .| PAGE_USER) m6 O6)
    as (m8 & E8 & O8 & R8 & P8 & B8); [done | done | done | lia |]. run_call E8.
  change (page_of (USER_STACK_TOP - USER_STACK_SIZE)) with 0x7FFFFFFFB in P8, B8. change (Z.of_nat 4) with 4 in P8, B8.
  assert (Hstack : mapped_range m8 (USER_STACK_TOP - USER_STACK_SIZE) USER_STACK_SIZE).
  { intros x Hx. rewrite P8. pose proof (page_of_bounds content x). unfold USER_STACK_TOP, USER_STACK_SIZE in *. apply orb_true_iff. right. lia. }
  destruct (setupArgs_ok USER_STACK_TOP argv m8 O8 Hargc Hargs) as (sp & ap & m9 & E9 & O9 & P9 & A9 & Hsp & Hspap & Hap9 & B9).
  { unfold USER_STACK_TOP, USER_STACK_SIZE, args_size in *. lia. }
  { intros x Hx. apply Hstack. unfold USER_STACK_TOP, USER_STACK_SIZE, args_size in *. lia. }
  run_call E9. exists sp, ap. eexists. split; [done|]. cbn [space vfs term].
  split.
  { rewrite Forall_forall in Hsegs, L5 |- *. intros ph Hin Hload x Hx. destruct (L5 ph Hin Hload x Hx) as [Hpg Hb].
    pose proof (seg_bounds content ph (Hsegs ph Hin)) as (Hlo & Hhi & Hle & Htop & Hinp). specialize (Hinp x ltac:(lia)).
    pose proof (page_of_bounds content x). rewrite P9, P8, P6, Hpg. split; [done|].
    rewrite B9 by (unfold USER_STACK_TOP, USER_STACK_SIZE, args_size in *; lia). rewrite B8 by lia. by rewrite B6. }
  split_and!; try (done || lia). intros x Hx. rewrite P9. by apply Hstack.
Qed.

(** Loading a program: for an executable that fits the loader, with room
    for its pages, its stack and its arguments, [load] returns the entry
    point of the header; every loadable segment is mapped and shows its bytes
    of the file followed by zeros up to its memory size; [argv] points to a
    null-terminated array of the argument strings on a mapped stack whose
    pointer is 16-byte aligned below it; the file is closed, no other
    descriptor changes and nothing is printed. *)
Theorem load_correct w path argv fd mi mt fh wd wd' content h phs :
  opens (vfs w) path fd mi mt fh wd content -> elf_file content h phs ->
  drv_close (driver mt) (fs_instance mt) fh wd = Ok wd' ->
  us_ok (space w) -> (all_pages phs + 5 <= us_room (space w))%nat ->
  (length argv <= 16)%nat -> Forall string_ok argv -> args_size argv + 16 <= USER_STACK_SIZE ->
  exists sp ap w', load path argv w = Ok (e_entry h, sp, ap, w') /\
    Forall (fun ph => is_load ph = true -> loaded content (space w') ph) phs /\
    argv_at (space w') ap argv /\ sp mod 16 = 0 /\ ap - 16 < sp <= ap /\
    USER_STACK_TOP - USER_STACK_SIZE <= sp /\ mapped_range (space w') (USER_STACK_TOP - USER_STACK_SIZE) USER_STACK_SIZE /\
    term w' = term w /\ world (vfs w') = wd' /\ forall fd', get_file fd' (vfs w') = get_file fd' (vfs w).
Proof. apply elf_load_ok. Qed.





End ElfProofs.

(** ** Witnesses *)

(** An executable with one segment: four bytes of code at the end of the
    file, which take sixteen bytes from 0x400ffc on, across a page boundary. *)
Definition small_ehdr : list Z :=
  [0x7F; 69; 76; 70; 2; 1; 1; 0; 0; 0; 0; 0; 0; 0; 0; 0] ++ pack ehdr_widths [2; 62; 1; 0x400FFC; 64; 0; 0; 64; 56; 1; 0; 0; 0].
Definition small_phdr : Elf64_Phdr := mkPhdr 1 5 120 0x400FFC 0x400FFC 4 16 4096.
Definition small_elf : list Z := small_ehdr ++ pack phdr_widths [1; 5; 120; 0x400FFC; 0x400FFC; 4; 16; 4096] ++ [0x90; 0x90; 0xEB; 0xFC].

Definition file_driver (content : list Z) : FilesystemDriver unit :=
  mkDriver [116] (fun _ w => Ok (1, w)) (fun _ w => Ok w) (fun _ _ w => Ok (Some toy_handle, w)) (fun _ _ w => Ok w)
    (fun _ h off count w => let data := take (Z.to_nat count) (drop (Z.to_nat off) content) in Ok (Z.of_nat (length data), data, h, w))
    (fun _ h _ _ w => Ok (-1, h, w)) (fun _ _ w => Ok (false, w)) (fun _ _ _ w => Ok (None, w))
    (fun _ _ _ w => Ok (false, w)) (fun _ _ w => Ok (false, w)) (fun _ _ w => Ok (false, w)).
Definition file_mount (content : list Z) : Mount unit := mkMount true mnt [97] 0 (file_driver content) 1.
Definition file_vfs (content : list Z) : Vfs unit :=
  mkVfs [] (file_mount content :: replicate 7 (toy_mount false [])) (replicate 32 (mkOpen false 0 toy_handle 0)) tt.

Lemma file_vfs_opens content : opens (file_vfs content) toy_path 0 0 (file_mount content) toy_handle tt content.
Proof.
  split; [by split | by exists [102] | done | done |]. intros off count _ _. reflexivity.
Qed.

Lemma small_elf_ok : elf_file small_elf (decode_ehdr (take 64 small_elf)) [small_phdr].
Proof.
  split.
  - change (Z.of_nat (length small_elf)) with 124. lia.
  - unfold bytes_ok. apply Forall_forall. intros b Hb.
    assert (Hall : forallb (fun b => (0 <=? b) && (b <? 256)) small_elf = true) by (vm_compute; done).
    rewrite forallb_forall in Hall. specialize (Hall b Hb). unfold byte_ok. lia.
  - reflexivity.
  - vm_compute. reflexivity.
  - change (Z.of_nat (length small_elf)) with 124. change (e_phoff (decode_ehdr (take 64 small_elf))) with 64.
    change (e_phnum (decode_ehdr (take 64 small_elf))) with 1. lia.
  - vm_compute. reflexivity.
  - constructor; [|constructor]. unfold phdr_ok. change (Z.of_nat (length small_elf)) with 124. cbn. lia.
  - repeat constructor.
Qed.

Definition small_world (content : list Z) : World unit FlatSpace PortLog :=
  mkWorld (file_vfs content) (mkFlat ∅ ∅ 100) cleared_terminal.

Lemma load_correct_witness : exists sp ap w',
  load toy_path [[108; 115]; [45]] (small_world small_elf) = Ok (0x400FFC, sp, ap, w') /\
  loaded small_elf (space w') small_phdr /\ argv_at (space w') ap [[108; 115]; [45]] /\ sp mod 16 = 0.
Proof.
  destruct (load_correct (small_world small_elf) toy_path [[108; 115]; [45]] 0 0 (file_mount small_elf) toy_handle tt tt
    small_elf _ _ (file_vfs_opens small_elf) small_elf_ok) as (sp & ap & w' & E & Hl & Ha & Hsp & _).
  - reflexivity.
  - exact I.
  - apply Nat.leb_le. vm_compute. reflexivity.
  - simpl. lia.
  - repeat (constructor; [repeat (constructor; [lia|]); constructor|]). constructor.
  - unfold args_size, USER_STACK_SIZE. simpl. lia.
  - change (e_entry (decode_ehdr (take 64 small_elf))) with 0x400FFC in E. exists sp, ap, w'. split; [exact E|]. apply Forall_cons_iff in Hl as [Hl _]. split_and!; [by apply Hl | done | done].
Defined.

