(* ===== verification/Syscall.v ===== *)
(** The system calls, [src/src/kernel/syscall.cpp], with
    [src/src/arch/x86_64/usermode.cpp].

    A call runs in the task that made it, with the file system, the memory of
    the task and the terminal ([Elf.World]) and the scheduler, the keyboard and
    the pending reader ([Interrupts.Kernel]).  A call that blocks ends with
    [SysBlocks] and a continuation; [resume] runs it once the task is
    scheduled again, when [space] is that task's memory once more.  A user
    string is read byte by byte up to its terminator; [fuel] bounds its
    length.  [frame] is the address of the frame that [int 32] pushes when the
    call gives up the processor. *)

From Stdlib Require Import ZifyBool.
From S2P Require Import Prelude Io Libc Format Bytes Gdt Keyboard Scheduler SchedulerProofs Vfs VfsProofs Pic Timer.
From S2P Require Import Interrupts Terminal Printf UserSpace Elf.

Definition STDIN_FD : Z := 0.
Definition STDOUT_FD : Z := 1.
Definition STDERR_FD : Z := 2.
Definition FD_OFFSET : Z := 3.
Definition MAX_EXEC_ARGS : nat := 16.
Definition MAX_SPAWN_ARGS : nat := 16.
Definition BRK_REGION_START : Z := 0x50000000000.
Definition RED : Z := 0x4.
Definition WHITE : Z := 0xF.

Definition SYS_WRITE : Z := 0.
Definition SYS_EXIT : Z := 1.
Definition SYS_READ : Z := 2.
Definition SYS_OPEN : Z := 3.
Definition SYS_CLOSE : Z := 4.
Definition SYS_BRK : Z := 5.
Definition SYS_READDIR : Z := 6.
Definition SYS_EXEC : Z := 7.
Definition SYS_WAIT : Z := 8.
Definition SYS_SPAWN : Z := 9.

(** The fields of [Registers] that system calls use; the others stay as they are. *)
Record Registers := mkRegs { rax : Z; rdi : Z; rsi : Z; rdx : Z; rip : Z; rsp : Z }.

Definition set_rax (v : Z) (r : Registers) : Registers := mkRegs (u64 v) (rdi r) (rsi r) (rdx r) (rip r) (rsp r).

(** [argc] is the number of arguments. *)
Record SpawnParams := mkSpawn { sp_path : list Z; sp_argv : list (list Z) }.

(** Where a blocked call goes on. *)
Inductive Cont := ReadAgain (user_fd user_ptr length : Z) | WaitDone (target : Z).

Inductive SysResult :=
| SysReturns (v : Z)
| SysBlocks (c : Cont)
| SysExits (k : kill_result).

(** What becomes of the caller: back to user mode with these registers, or not yet. *)
Inductive Dispatched :=
| ToUser (r : Registers)
| Blocks (c : Cont)
| Exits (k : kill_result).

(** What a new task does: it enters user mode or has exited. *)
Inductive Started :=
| EnterUser (entry stack cs ss argc argv : Z)
| NotStarted (k : kill_result).

Record Sys (W M P E Q : Type) := mkSys {
  proc : World W M P;
  kern : Kernel E Q;
  g_input_row : Z;
  g_input_col : Z;
  g_spawn_params : SpawnParams;
}.
Arguments mkSys {W M P E Q}.
Arguments proc {W M P E Q}.
Arguments kern {W M P E Q}.
Arguments g_input_row {W M P E Q}.
Arguments g_input_col {W M P E Q}.
Arguments g_spawn_params {W M P E Q}.

Definition set_brk (start current : Z) (t : Task) : Task :=
  mkTask (Scheduler.rsp t) (id t) (state t) (stack_base t) (kernel_stack_top t) start current
    (exit_code t) (waiting_parent t) (plm4_phys t) (next t).

Section Syscall.
Context {W M P E Q : Type} `{UserSpace M} `{PortIO P} `{TaskServices E} `{PortIO Q}.
(** A bound on the length of user strings, and the address of [spawnedTaskEntry]. *)
Context (fuel : nat) (spawnedTaskEntry_addr : Z).
Implicit Types y : Sys W M P E Q.

Definition with_proc y (w : World W M P) : Sys W M P E Q := mkSys w (kern y) (g_input_row y) (g_input_col y) (g_spawn_params y).
Definition with_kern y (k : Kernel E Q) : Sys W M P E Q := mkSys (proc y) k (g_input_row y) (g_input_col y) (g_spawn_params y).
Definition on_sched y (s : Sched E) : Sys W M P E Q := with_kern y (with_sched (kern y) s).
Definition on_space y (m : M) : Sys W M P E Q := with_proc y (with_space (proc y) m).
Definition on_vfs y (v : Vfs W) : Sys W M P E Q := with_proc y (with_vfs (proc y) v).
Definition on_term y (t : Terminal P) : Sys W M P E Q := with_proc y (mkWorld (vfs (proc y)) (space (proc y)) t).

(** ** User memory *)

Fixpoint peek_all (a : Z) (n : nat) (m : M) : outcome (list Z) :=
  match n with
  | O => mret []
  | S n' => c ← us_peek a m; l ← peek_all (a + 1) n' m; mret (c :: l)
  end.

(** The string at [a]. *)
Fixpoint user_string (fuel : nat) (a : Z) (m : M) : outcome (list Z) :=
  match fuel with
  | O => Halt
  | S fuel' => c ← us_peek a m; if c =? 0 then mret [] else l ← user_string fuel' (a + 1) m; mret (c :: l)
  end.

(** [user_argv[i]] *)
Definition user_word (a : Z) (m : M) : outcome Z := bs ← peek_all a 8 m; mret (little_endian_to_Z 8 bs).

(** The loop of [copyUserArgv] and [sysSpawn]: [n] more arguments at most,
    each cut to 63 characters. *)
Fixpoint copy_argv (n : nat) (user_argv : Z) (m : M) : outcome (list (list Z)) :=
  match n with
  | O => mret []
  | S n' =>
      str_ptr ← user_word user_argv m;
      if str_ptr =? 0 then mret [] else
      str ← user_string fuel str_ptr m;
      l ← copy_argv n' (user_argv + 8) m;
      mret (take 63 str :: l)
  end.

(** [None] is the result [false]. *)
Definition copyUserArgv (argv_user_ptr : Z) (m : M) : outcome (option (list (list Z))) :=
  argv ← copy_argv MAX_EXEC_ARGS argv_user_ptr m;
  mret (if (length argv =? 0)%nat then None else Some argv).

(** ** The calls *)

Fixpoint write_console (n : nat) (a : Z) (m : M) (t : Terminal P) : outcome (Terminal P) :=
  match n with
  | O => mret t
  | S n' =>
      c ← us_peek a m;
      if c =? 0 then mret t else
      t ← putChar c t; write_console n' (a + 1) m t
  end.

Definition sysWrite (user_fd user_ptr length : Z) y : outcome (SysResult * Sys W M P E Q) :=
  let length := if 4096 <? length then 4096 else length in
  if (user_fd =? STDOUT_FD) || (user_fd =? STDERR_FD) then
    t ← write_console (Z.to_nat length) user_ptr (space (proc y)) (term (proc y));
    mret (SysReturns length, on_term y t)
  else if user_fd =? STDIN_FD then mret (SysReturns (-1), y) else
  let vfs_fd := s32 (user_fd - FD_OFFSET) in
  match get_file vfs_fd (vfs (proc y)) with
  | None => mret (SysReturns (-1), y)
  | Some _ =>
      buf ← peek_all user_ptr (Z.to_nat length) (space (proc y));
      '(n, v) ← Vfs.write vfs_fd buf (vfs (proc y));
      mret (SysReturns n, on_vfs y v)
  end.

(** The id of [Scheduler::currentTask()], for the keyboard's test of the focus. *)
Definition current_id y : option Z := id <$> tasks (sched (kern y)) !! g_current (sched (kern y)).

Definition on_keyboard y (kb : Keyboard) : Sys W M P E Q :=
  with_kern y (mkKernel (sched (kern y)) (timer (kern y)) kb (g_pending_stdin_reader (kern y)) (g_irq_handlers (kern y)) (Interrupts.ports (kern y))).

(** [while (i < length && Keyboard::hasChar()) buf[i++] = Keyboard::getChar();],
    [n] rounds at most. *)
Fixpoint read_stdin (n : nat) (buf i : Z) y : outcome (Z * Sys W M P E Q) :=
  match n with
  | O => mret (i, y)
  | S n' =>
      if negb (hasChar (current_id y) (keyboard (kern y))) then mret (i, y) else
      '(c, kb) ← getChar (current_id y) (keyboard (kern y));
      m ← us_poke (buf + i) c (space (proc y));
      read_stdin n' buf (i + 1) (on_space (on_keyboard y kb) m)
  end.

(** Body of the loop that waits for a character. *)
Definition wait_stdin (frame : Z) y : outcome (Sys W M P E Q) :=
  let k := kern y in
  let k := mkKernel (sched k) (timer k) (setOnCharCallback (Some WAKE_STDIN_READER) (keyboard k)) (currentTask (sched k))
    (g_irq_handlers k) (Interrupts.ports k) in
  s ← blockCurrent frame (sched k);
  mret (with_kern y (with_sched k s)).

Definition sysRead (frame user_fd user_ptr length : Z) y : outcome (SysResult * Sys W M P E Q) :=
  let length := if 4096 <? length then 4096 else length in
  if user_fd =? STDIN_FD then
    if negb (hasChar (current_id y) (keyboard (kern y))) then
      y ← wait_stdin frame y; mret (SysBlocks (ReadAgain user_fd user_ptr length), y)
    else '(i, y) ← read_stdin (Z.to_nat length) user_ptr 0 y; mret (SysReturns i, y)
  else if (user_fd =? STDOUT_FD) || (user_fd =? STDERR_FD) then mret (SysReturns (-1), y) else
  let vfs_fd := s32 (user_fd - FD_OFFSET) in
  '(n, data, v) ← Vfs.read vfs_fd length (vfs (proc y));
  m ← poke_all user_ptr data (space (proc y));
  mret (SysReturns n, with_proc y (mkWorld v m (term (proc y)))).

Definition sysOpen (user_path_ptr : Z) y : outcome (SysResult * Sys W M P E Q) :=
  path ← user_string fuel user_path_ptr (space (proc y));
  '(vfs_fd, v) ← Vfs.open path (vfs (proc y));
  mret (SysReturns (if vfs_fd =? INVALID_FD then -1 else vfs_fd + FD_OFFSET), on_vfs y v).

Definition sysClose (user_fd : Z) y : outcome (SysResult * Sys W M P E Q) :=
  if user_fd <? FD_OFFSET then mret (SysReturns (-1), y) else
  v ← Vfs.close (user_fd - FD_OFFSET) (vfs (proc y));
  mret (SysReturns 0, on_vfs y v).

(** The loop of [sysBrk]; [false] is the early return. *)
Fixpoint grow_brk (n : nat) (addr : Z) (m : M) : outcome (bool * M) :=
  match n with
  | O => mret (true, m)
  | S n' =>
      '(ok, m) ← us_map addr (PAGE_WRITABLE .| PAGE_USER) m;
      if (ok : bool) then grow_brk n' (addr + PAGE_SIZE) m else mret (false, m)
  end.

Definition page_end (a : Z) : Z := u64 (a + PAGE_SIZE - 1) .& u64 (.~ (PAGE_SIZE - 1)).

Definition sysBrk (requested_end : Z) y : outcome (SysResult * Sys W M P E Q) :=
  let s := sched (kern y) in
  let task := currentTask s in
  if task =? 0 then mret (SysReturns (-1), y) else
  t ← get_task task s;
  s ← (if brk_start t =? 0 then
         let st := u64 (BRK_REGION_START + id t * 0x10000000) in mod_task task (set_brk st st) s
       else mret s);
  t ← get_task task s;
  if requested_end =? 0 then mret (SysReturns (brk_current t), on_sched y s) else
  if requested_end <=? brk_current t then mret (SysReturns (brk_current t), on_sched y s) else
  let old_page_end := page_end (brk_current t) in
  let new_page_end := page_end requested_end in
  '(ok, m) ← grow_brk (page_count old_page_end new_page_end) old_page_end (space (proc y));
  let y := on_space y m in
  if negb ok then mret (SysReturns (brk_current t), on_sched y s) else
  s ← mod_task task (set_brk (brk_start t) requested_end) s;
  mret (SysReturns requested_end, on_sched y s).

(** [Scheduler::exitTask] from here: the keyboard's focus is the one of [keyboard]. *)
Definition exit_current (code : Z) y : outcome (kill_result * Sys W M P E Q) :=
  let s := sched (kern y) in
  let s := mkSched (tasks s) (frames s) (g_current s) (Scheduler.g_tail s) (g_next_id s) (g_started s) (g_pending_cleanup s)
    (g_next_task_rsp s) (tss_rsp0 s) (cpu_cr3 s) (getFocus (keyboard (kern y))) (env s) in
  '(r, s) ← exitTask code s;
  mret (r, on_sched (on_keyboard y (setFocus (kbd_focus s) (keyboard (kern y)))) s).

Definition sysExit (code : Z) y : outcome (SysResult * Sys W M P E Q) :=
  let y := mkSys (proc y) (kern y) (row (term (proc y))) (column (term (proc y))) (g_spawn_params y) in
  '(r, y) ← exit_current (s32 code) y;
  mret (SysExits r, y).

(** The 64 bytes of [entry.name]: the name, its terminator, and behind it
    what was on the stack. *)
Definition name_field (junk name : list Z) : list Z := take 64 (name ++ [0] ++ drop (S (length name)) junk).

Definition sysReaddir (junk : list Z) (path_ptr index out_entry_ptr : Z) y : outcome (SysResult * Sys W M P E Q) :=
  path ← user_string fuel path_ptr (space (proc y));
  '(e, v) ← Vfs.listDirectory path index (vfs (proc y));
  let y := on_vfs y v in
  match e with
  | None => mret (SysReturns 0, y)
  | Some entry =>
      m ← poke_all out_entry_ptr (name_field junk (de_name entry)) (space (proc y));
      m ← us_poke (out_entry_ptr + 64) (if de_is_directory entry then 1 else 0) m;
      mret (SysReturns 1, on_space y m)
  end.

Definition sysExec (r : Registers) (path_ptr argv_ptr : Z) y : outcome (Registers * Sys W M P E Q) :=
  args ← copyUserArgv argv_ptr (space (proc y));
  match args with
  | None => mret (set_rax (-1) r, y)
  | Some argv =>
      path ← user_string fuel path_ptr (space (proc y));
      '(entry, stack_top, argv_user_ptr, w) ← Elf.load path argv (proc y);
      let y := with_proc y w in
      if entry =? 0 then mret (set_rax (-1) r, y) else
      mret (mkRegs (rax r) (Z.of_nat (length argv)) argv_user_ptr (rdx r) entry stack_top, y)
  end.

Definition sysWait (frame task_id : Z) y : outcome (SysResult * Sys W M P E Q) :=
  target ← findTaskById task_id (sched (kern y));
  '(r, s) ← waitForTask task_id frame (sched (kern y));
  mret (match r with WaitReturns c => SysReturns c | WaitBlocks => SysBlocks (WaitDone target) end, on_sched y s).

Definition enter (entry_point user_stack argc argv_user_ptr : Z) : Started :=
  EnterUser entry_point user_stack GDT_USER_CODE GDT_USER_DATA argc argv_user_ptr.

Definition spawnedTaskEntry y : outcome (Started * Sys W M P E Q) :=
  let path := sp_path (g_spawn_params y) in
  let argv := sp_argv (g_spawn_params y) in
  '(entry, stack_top, argv_user_ptr, w) ← Elf.load path argv (proc y);
  let y := with_proc y w in
  if entry =? 0 then
    t ← printf (chars "%r[spawn] failed to load ELF %s" ++ [10] ++ chars "%r") [ArgInt RED; ArgStr (Some path); ArgInt WHITE]
      (term (proc y));
    '(r, y) ← exit_current (-1) (on_term y t);
    mret (NotStarted r, y)
  else mret (enter entry stack_top (Z.of_nat (length argv)) argv_user_ptr, y).

Definition sysSpawn (path_ptr argv_ptr : Z) y : outcome (SysResult * Sys W M P E Q) :=
  path ← user_string fuel path_ptr (space (proc y));
  if 128 <=? Z.of_nat (length path) then mret (SysReturns (-1), y) else
  argv ← copy_argv MAX_SPAWN_ARGS argv_ptr (space (proc y));
  '(task, s) ← createTask spawnedTaskEntry_addr 16384 (sched (kern y));
  let y := mkSys (proc y) (with_sched (kern y) s) (g_input_row y) (g_input_col y) (mkSpawn path argv) in
  if task =? 0 then mret (SysReturns (-1), y) else
  t ← get_task task s;
  mret (SysReturns (id t), y).

(** The result of a call goes to [rax]. *)
Definition finish (r : Registers) (c : outcome (SysResult * Sys W M P E Q)) : outcome (Dispatched * Sys W M P E Q) :=
  '(res, y) ← c;
  mret (match res with SysReturns v => ToUser (set_rax v r) | SysBlocks k => Blocks k | SysExits k => Exits k end, y).

Definition syscall_dispatch (frame : Z) (junk : list Z) (r : Registers) y : outcome (Dispatched * Sys W M P E Q) :=
  if rax r =? SYS_WRITE then finish r (sysWrite (s32 (rdi r)) (rsi r) (rdx r) y) else
  if rax r =? SYS_READ then finish r (sysRead frame (s32 (rdi r)) (rsi r) (rdx r) y) else
  if rax r =? SYS_OPEN then finish r (sysOpen (rdi r) y) else
  if rax r =? SYS_CLOSE then finish r (sysClose (s32 (rdi r)) y) else
  if rax r =? SYS_BRK then finish r (sysBrk (rdi r) y) else
  if rax r =? SYS_EXIT then finish r (sysExit (rdi r) y) else
  if rax r =? SYS_READDIR then finish r (sysReaddir junk (rdi r) (s32 (rsi r)) (rdx r) y) else
  if rax r =? SYS_EXEC then '(r, y) ← sysExec r (rdi r) (rsi r) y; mret (ToUser r, y) else
  if rax r =? SYS_SPAWN then finish r (sysSpawn (rdi r) (rsi r) y) else
  if rax r =? SYS_WAIT then finish r (sysWait frame (u32 (rdi r)) y) else
  t ← Terminal.write (chars "[syscall] unknown syscall number: ") (term (proc y));
  t ← Terminal.writeDec (rax r) t;
  t ← Terminal.write [10] t;
  mret (ToUser (set_rax (-1) r), on_term y t).

(** A blocked call goes on when its task runs again. *)
Definition resume (frame : Z) (r : Registers) (c : Cont) y : outcome (Dispatched * Sys W M P E Q) :=
  match c with
  | ReadAgain fd p n => finish r (sysRead frame fd p n y)
  | WaitDone target => code ← waitForTask_resume target (sched (kern y)); mret (ToUser (set_rax code r), y)
  end.

End Syscall.
