(* ===== verification/SyscallProofs.v ===== *)
(** Correctness of the system calls of [Syscall]. *)

From Stdlib Require Import ZifyBool.
From S2P Require Import Prelude Io Libc Format Bytes Gdt Keyboard Scheduler SchedulerProofs Vfs VfsProofs Pic Timer.
From S2P Require Import Interrupts Terminal Printf UserSpace Elf ElfProofs Syscall.

(** Pick the case of [syscall_dispatch] from the number of the call. *)
Ltac dispatch_on H :=
  unfold syscall_dispatch; rewrite H;
  match type of H with _ = ?c =>
    repeat match goal with |- context [c =? ?d] => let b := eval vm_compute in (c =? d) in change (c =? d) with b; cbv iota end
  end.

Section SyscallProofs.
Context {W M P E Q : Type} `{UserSpace M} `{PortIO P} `{TaskServices E} `{PortIO Q}.
Context (fuel : nat) (entry_addr : Z).
Implicit Types y : Sys W M P E Q.

(** ** User memory *)

(** The [n] bytes at [a]. *)
Definition user_bytes (m : M) (a : Z) (n : nat) : list Z := (fun i => us_byte m (a + Z.of_nat i)) <$> seq 0 n.

Lemma user_bytes_cons m a n : user_bytes m a (S n) = us_byte m a :: user_bytes m (a + 1) n.
Proof.
  unfold user_bytes. cbn [seq]. rewrite fmap_cons, Z.add_0_r. f_equal. rewrite <- fmap_S_seq, <- list_fmap_compose.
  apply list_fmap_ext. intros i x _. cbn. f_equal. lia.
Qed.

Lemma length_user_bytes m a n : length (user_bytes m a n) = n.
Proof. unfold user_bytes. by rewrite length_fmap, length_seq. Qed.

Lemma peek_all_ok n a m : us_ok m -> mapped_range m a (Z.of_nat n) -> peek_all a n m = Ok (user_bytes m a n).
Proof.
  revert a. induction n as [|n IH]; intros a Hok Hm; [done|]. cbn [peek_all].
  rewrite us_peek_spec by (done || (apply Hm; lia)). cbn [mbind outcome_bind]. rewrite IH; [|done|intros x Hx; apply Hm; lia].
  cbn [mbind outcome_bind]. by rewrite user_bytes_cons.
Qed.

(** A string of the task at [a]. *)
Record string_at (m : M) (a : Z) (s : list Z) : Prop := {
  sa_mapped : mapped_range m a (Z.of_nat (length s) + 1);
  sa_bytes : bytes_at m a (s ++ [0]);
  sa_text : Forall (fun c => c <> 0) s;
}.

Lemma user_string_ok n a s m : us_ok m -> string_at m a s -> (length s < n)%nat -> user_string n a m = Ok s.
Proof.
  intros Hok [Hm Hb Ht]. revert n a Hm Hb. induction Ht as [|c s Hc Ht IH]; intros n a Hm Hb Hl;
    (destruct n as [|n]; [simpl in Hl; lia|]); cbn [user_string]; simpl length in *.
  - rewrite us_peek_spec by (done || (apply Hm; lia)). cbn [mbind outcome_bind].
    specialize (Hb 0%nat 0 eq_refl). rewrite Z.add_0_r in Hb. by rewrite Hb.
  - rewrite us_peek_spec by (done || (apply Hm; lia)). cbn [mbind outcome_bind].
    pose proof (Hb 0%nat c eq_refl) as Hb0. rewrite Z.add_0_r in Hb0. rewrite Hb0, (proj2 (Z.eqb_neq c 0) Hc).
    rewrite (IH n (a + 1)); [done | | | lia].
    + intros x Hx. apply Hm. lia.
    + intros k d Hk. replace (a + 1 + Z.of_nat k) with (a + Z.of_nat (S k)) by lia. by apply Hb.
Qed.

(** ** The console *)

Lemma write_console_ok n a m (t : Terminal P) : us_ok m -> mapped_range m a (Z.of_nat n) ->
  write_console n a m t = foldM putChar (until_nul (user_bytes m a n)) t.
Proof.
  revert a t. induction n as [|n IH]; intros a t Hok Hm; [done|]. cbn [write_console].
  rewrite us_peek_spec by (done || (apply Hm; lia)). cbn [mbind outcome_bind]. rewrite user_bytes_cons. cbn [until_nul].
  destruct (us_byte m a =? 0); [done|]. cbn [foldM]. destruct (putChar (us_byte m a) t) as [t1| |]; [|done..].
  cbn [mbind outcome_bind]. apply IH; [done|]. intros x Hx. apply Hm. lia.
Qed.

(** ** The keyboard *)

Lemma hasChar_contents cur k : kbd_wf k -> callerIsFocused cur k = true ->
  hasChar cur k = negb (length (contents k) =? 0)%nat.
Proof.
  intros (Hl & Hh & Ht) Hf. unfold hasChar. rewrite Hf, andb_true_r. pose proof (length_contents k) as Hc.
  unfold used, BUFFER_SIZE in *. f_equal.
  destruct (Z.eqb_spec (g_head k) (Keyboard.g_tail k)) as [E1|E1]; destruct (Nat.eqb_spec (length (contents k)) 0) as [E2|E2]; try done.
  - rewrite E1, Z.sub_diag in Hc. change (0 mod 256) with 0 in Hc. lia.
  - exfalso. rewrite E2 in Hc. Z.to_euclidean_division_equations. lia.
Qed.

Lemma getChar_focus cur k c k' : getChar cur k = Ok (c, k') -> g_focused_task_id k' = g_focused_task_id k.
Proof.
  unfold getChar. destruct (_ || _); [by intros [= _ <-]|]. destruct (Prelude.load _ _); [|done..]. cbn. by intros [= _ <-].
Qed.

(** The parts of the state that a transfer to user memory keeps. *)
Definition same_system y y' : Prop :=
  sched (kern y') = sched (kern y) /\ timer (kern y') = timer (kern y) /\
  g_pending_stdin_reader (kern y') = g_pending_stdin_reader (kern y) /\
  vfs (proc y') = vfs (proc y) /\ term (proc y') = term (proc y) /\ g_spawn_params y' = g_spawn_params y.

(** The bytes [bs] were stored at [a], and nothing else changed. *)
Definition stored (m m' : M) (a : Z) (bs : list Z) : Prop :=
  us_ok m' /\ same_pages m m' /\
  forall x, us_byte m' x = if (a <=? x) && (x <? a + Z.of_nat (length bs)) then default 0 (bs !! Z.to_nat (x - a)) else us_byte m x.

Lemma stored_nil m a : us_ok m -> stored m m a [].
Proof.
  intros Hok. split_and!; [done | done |]. intros x. cbn [length]. by assert ((a <=? x) && (x <? a + Z.of_nat 0) = false) as -> by lia.
Qed.

Lemma stored_cons m m1 m2 a c bs : stored m m1 a [c] -> stored m1 m2 (a + 1) bs -> stored m m2 a (c :: bs).
Proof.
  intros (_ & P1 & B1) (O2 & P2 & B2). split_and!; [done | intros p; by rewrite P2 |]. intros x. rewrite B2, B1. simpl length.
  destruct (Z.eq_dec x a) as [->|Hne].
  - assert ((a + 1 <=? a) && (a <? a + 1 + Z.of_nat (length bs)) = false) as -> by lia.
    assert ((a <=? a) && (a <? a + Z.of_nat 1) = true) as -> by lia.
    assert ((a <=? a) && (a <? a + Z.of_nat (S (length bs))) = true) as -> by lia. by rewrite Z.sub_diag.
  - assert ((a <=? x) && (x <? a + Z.of_nat 1) = false) as -> by lia.
    assert ((a + 1 <=? x) && (x <? a + 1 + Z.of_nat (length bs)) = (a <=? x) && (x <? a + Z.of_nat (S (length bs)))) as -> by lia.
    destruct ((a <=? x) && (x <? a + Z.of_nat (S (length bs)))) eqn:E0; [|done].
    replace (Z.to_nat (x - a)) with (S (Z.to_nat (x - (a + 1)))) by lia. done.
Qed.

Lemma poke_all_stored a bs m : us_ok m -> mapped_range m a (Z.of_nat (length bs)) -> bytes_ok bs ->
  exists m', poke_all a bs m = Ok m' /\ stored m m' a bs.
Proof.
  intros Hok Hm Hb. destruct (poke_all_ok a bs m Hok Hm Hb) as (m' & E1 & O1 & _ & P1 & B1). by exists m'.
Qed.

Lemma read_stdin_ok n buf i y : us_ok (space (proc y)) -> mapped_range (space (proc y)) (buf + i) (Z.of_nat n) ->
  kbd_wf (keyboard (kern y)) -> callerIsFocused (current_id y) (keyboard (kern y)) = true ->
  bytes_ok (contents (keyboard (kern y))) ->
  let data := take n (contents (keyboard (kern y))) in
  exists y', read_stdin n buf i y = Ok (i + Z.of_nat (length data), y') /\ same_system y y' /\
    stored (space (proc y)) (space (proc y')) (buf + i) data /\
    kbd_wf (keyboard (kern y')) /\ contents (keyboard (kern y')) = drop n (contents (keyboard (kern y))).
Proof.
  revert i y. induction n as [|n IH]; intros i y Hok Hm Hwf Hf Hb data; cbn [read_stdin].
  { exists y. unfold data. rewrite take_0. simpl. rewrite Z.add_0_r. split_and!; try done. by apply stored_nil. }
  rewrite hasChar_contents by done. subst data.
  destruct (getChar_ok _ _ Hwf Hf) as (c & kb & Eg & Hwf' & Hc).
  destruct (contents (keyboard (kern y))) as [|c0 l] eqn:El; cbn [length Nat.eqb negb].
  { exists y. simpl. rewrite Z.add_0_r, El. split_and!; try done. by apply stored_nil. }
  destruct Hc as [-> Hl]. rewrite Eg. cbn [mbind outcome_bind]. apply Forall_cons_iff in Hb as [Hc0 Hb].
  destruct (us_poke_spec (buf + i) c0 (space (proc y)) Hok) as (m1 & E1 & O1 & _ & P1 & B1); [apply Hm; lia | done |].
  run_call E1. set (y1 := on_space (on_keyboard y kb) m1).
  destruct (IH (i + 1) y1) as (y' & E2 & Hs & Hst & Hwf2 & Hcont).
  - done.
  - intros x Hx. cbn. rewrite P1. apply Hm. lia.
  - done.
  - change (current_id y1) with (current_id y). cbn. unfold callerIsFocused in *. by rewrite (getChar_focus _ _ _ _ Eg).
  - cbn. by rewrite Hl.
  - cbn in E2, Hst, Hcont. rewrite Hl in E2, Hst, Hcont. rewrite Z.add_assoc in Hst.
    exists y'. split; [rewrite E2; do 2 f_equal; simpl length; lia|]. split; [done|]. split; [|done].
    apply (stored_cons _ m1); [|done]. split_and!; [done | done |]. intros x. rewrite B1. simpl.
    destruct (Z.eqb_spec x (buf + i)) as [->|Hne].
    + assert ((buf + i <=? buf + i) && (buf + i <? buf + i + Z.of_nat 1) = true) as -> by lia. by rewrite Z.sub_diag.
    + by assert ((buf + i <=? x) && (x <? buf + i + Z.of_nat 1) = false) as -> by lia.
Qed.

(** ** Argument vectors *)

(** The null-terminated array of strings [args] at [a]. *)
Record args_at (m : M) (a : Z) (args : list (list Z)) : Prop := {
  aa_mapped : mapped_range m a (8 * (Z.of_nat (length args) + 1));
  aa_strings : forall i s, args !! i = Some s -> exists p, 0 < p < 2 ^ 64 /\
    bytes_at m (a + 8 * Z.of_nat i) (word_bytes p) /\ string_at m p s;
  aa_end : bytes_at m (a + 8 * Z.of_nat (length args)) (word_bytes 0);
}.

Lemma user_bytes_at m a bs : bytes_at m a bs -> user_bytes m a (length bs) = bs.
Proof.
  revert a. induction bs as [|b bs IH]; intros a Hb; [done|]. cbn [length]. rewrite user_bytes_cons. f_equal.
  - specialize (Hb 0%nat b eq_refl). by rewrite Z.add_0_r in Hb.
  - apply IH. intros k c Hk. replace (a + 1 + Z.of_nat k) with (a + Z.of_nat (S k)) by lia. by apply Hb.
Qed.

Lemma user_word_ok a v m : us_ok m -> mapped_range m a 8 -> 0 <= v < 2 ^ 64 -> bytes_at m a (word_bytes v) ->
  user_word a m = Ok v.
Proof.
  intros Hok Hm Hv Hb. unfold user_word. rewrite peek_all_ok by done. cbn [mbind outcome_bind].
  apply user_bytes_at in Hb. rewrite length_word in Hb. rewrite Hb. cbn [mret outcome_ret]. f_equal.
  apply (le_value_le 8 v); [lia | done].
Qed.

Lemma args_at_tail m a x args : args_at m a (x :: args) -> args_at m (a + 8) args.
Proof.
  intros [Hm Hs He]. split.
  - intros z Hz. apply Hm. simpl length. lia.
  - intros i s Hi. destruct (Hs (S i) s Hi) as (p & Hp & Hb & Ht). exists p. split_and!; try (done || lia).
    by replace (a + 8 + 8 * Z.of_nat i) with (a + 8 * Z.of_nat (S i)) by lia.
  - simpl length in He. by replace (a + 8 + 8 * Z.of_nat (length args)) with (a + 8 * Z.of_nat (S (length args))) by lia.
Qed.

Lemma copy_argv_ok n a args m : us_ok m -> args_at m a args -> (length args <= n)%nat ->
  Forall (fun s => (length s < fuel)%nat) args -> copy_argv fuel n a m = Ok (take 63 <$> args).
Proof.
  intros Hok Ha Hn Hf. revert n a Ha Hn. induction Hf as [|s args Hs Hf IH]; intros n a Ha Hn; pose proof Ha as [Hm Hstr He].
  - destruct n as [|n]; [done|]. cbn [copy_argv]. simpl in He, Hm. rewrite Z.add_0_r in He.
    rewrite (user_word_ok a 0) by (done || (intros x Hx; apply Hm; lia)). done.
  - destruct n as [|n]; [simpl in Hn; lia|]. cbn [copy_argv]. destruct (Hstr 0%nat s eq_refl) as (p & Hp & Hb & Ht).
    rewrite Z.add_0_r in Hb. rewrite (user_word_ok a p) by (done || lia || (intros x Hx; apply Hm; simpl length; lia)).
    cbn [mbind outcome_bind]. rewrite (proj2 (Z.eqb_neq p 0)) by lia. rewrite (user_string_ok fuel p s) by done.
    cbn [mbind outcome_bind]. rewrite (IH n (a + 8)); [done | by apply args_at_tail in Ha | simpl in Hn; lia].
Qed.

(** ** The program break *)

Lemma page_end_eq a : 0 <= a < 2 ^ 47 -> page_end a = page_of (a + 4095) * 4096.
Proof.
  intros Ha. unfold page_end, PAGE_SIZE. replace (a + 4096 - 1) with (a + 4095) by lia. rewrite u64_small by lia.
  apply (land_floor (a + 4095) 12); lia.
Qed.

Lemma page_count_pages k n : 0 <= n -> page_count (k * 4096) ((k + n) * 4096) = Z.to_nat n.
Proof.
  intros Hn. unfold page_count, PAGE_SIZE. f_equal. replace ((k + n) * 4096 - k * 4096 + 4096 - 1) with (4095 + n * 4096) by lia.
  rewrite Z.div_add by lia. by change (4095 / 4096) with 0.
Qed.

(** The page numbers from [k] on, [n] of them. *)
Definition in_range (k : Z) (n : nat) (p : Z) : bool := (k <=? p) && (p <? k + Z.of_nat n).

Lemma grow_brk_ok n k m : us_ok m -> 0 <= k -> (k + Z.of_nat n) * 4096 <= 2 ^ 47 ->
  exists ok m', grow_brk n (k * 4096) m = Ok (ok, m') /\ us_ok m' /\ ((n <= us_room m)%nat -> ok = true) /\
    (forall p, us_page m p = true -> us_page m' p = true) /\
    (ok = true -> forall p, in_range k n p = true -> us_page m' p = true) /\
    (forall x, in_range k n (page_of x) = false -> us_page m' (page_of x) = us_page m (page_of x) /\ us_byte m' x = us_byte m x).
Proof.
  revert k m. induction n as [|n IH]; intros k m Hok Hk Hhi; cbn [grow_brk].
  { exists true, m. split_and!; try done. intros _ p Hp. unfold in_range in Hp. lia. }
  assert (Hpk : page_of (k * 4096) = k) by (unfold page_of; apply Z.div_mul; lia).
  destruct (us_map_spec (k * 4096) (PAGE_WRITABLE .| PAGE_USER) m Hok) as (ok & m1 & E1 & O1 & R1 & Ht & P1 & B1);
    [lia | apply Z.mod_mul; lia |]. rewrite Hpk in P1, B1. run_call E1. destruct ok.
  - replace (k * 4096 + PAGE_SIZE) with ((k + 1) * 4096) by (unfold PAGE_SIZE; lia).
    destruct (IH (k + 1) m1 O1) as (ok & m2 & E2 & O2 & R2 & P2 & A2 & K2); [lia | lia |].
    exists ok, m2. split; [done|]. split; [done|]. split; [intros Hr; apply R2; lia|].
    split; [intros p Hp; apply P2; rewrite P1, Hp; done|]. split.
    + intros Hok2 p Hp. destruct (Z.eq_dec p k) as [->|Hne].
      * apply P2. rewrite P1, Z.eqb_refl. by rewrite orb_true_r.
      * apply (A2 Hok2). unfold in_range in *. lia.
    + intros x Hx. destruct (K2 x) as [Kp Kb]; [unfold in_range in *; lia|].
      assert (page_of x <> k) by (unfold in_range in Hx; lia).
      rewrite Kp, Kb, P1, B1 by done. rewrite (proj2 (Z.eqb_neq _ _)) by done. by rewrite orb_false_r.
  - exists false, m1. split_and!; try done.
    + intros Hr. symmetry. by rewrite Ht by lia.
    + intros p Hp. by rewrite P1, Hp.
    + intros x Hx. rewrite P1, B1 by (unfold in_range in Hx; lia). by rewrite orb_false_r.
Qed.

(** Where a task's break region starts and ends, also before its first use. *)
Definition brk_base (t : Task) : Z := if brk_start t =? 0 then BRK_REGION_START + id t * 0x10000000 else brk_start t.
Definition brk_end (t : Task) : Z := if brk_start t =? 0 then brk_base t else brk_current t.

(** The memory of the break region, as the task relies on it. *)
Record brk_inv (m : M) (t : Task) : Prop := {
  bi_id : 0 <= id t < 2 ^ 17;
  bi_base : brk_base t mod 4096 = 0;
  bi_range : 0 <= brk_base t <= brk_end t;
  bi_top : brk_end t < 2 ^ 46;
  bi_mapped : forall x, brk_base t <= x < brk_end t -> us_page m (page_of x) = true;
}.

(** Every page up to the end of the page of the break is mapped. *)
Lemma brk_page_mapped m t x : brk_inv m t -> brk_base t <= x < page_end (brk_end t) -> us_page m (page_of x) = true.
Proof.
  intros [Hid Hb Hr Htop Hm] Hx. destruct (Z.lt_ge_cases x (brk_end t)) as [Hlt|Hge]; [by apply Hm; lia|].
  rewrite page_end_eq in Hx by lia. unfold page_of in *.
  assert (Hend : brk_base t < brk_end t) by (Z.to_euclidean_division_equations; lia).
  replace (x / 4096) with ((brk_end t - 1) / 4096); [apply Hm; lia|]. Z.to_euclidean_division_equations. lia.
Qed.

(** The task after [sysBrk] has set up its region. *)
Definition brk_ready (t : Task) : Task := if brk_start t =? 0 then set_brk (brk_base t) (brk_base t) t else t.

Lemma brk_ready_fields m t : brk_inv m t -> brk_start (brk_ready t) = brk_base t /\ brk_current (brk_ready t) = brk_end t /\
  (brk_base t <> 0 /\ id (brk_ready t) = id t).
Proof.
  intros [Hid Hb Hr Htop Hm]. unfold brk_ready, brk_end, brk_base, BRK_REGION_START in *.
  destruct (Z.eqb_spec (brk_start t) 0) as [E0|E0]; cbn; split_and!; try done; lia.
Qed.

Lemma brk_setup y t : let cur := g_current (sched (kern y)) in
  tasks (sched (kern y)) !! cur = Some t -> brk_inv (space (proc y)) t ->
  exists s1, (t ← get_task cur (sched (kern y));
      if brk_start t =? 0 then let st := u64 (BRK_REGION_START + id t * 0x10000000) in mod_task cur (set_brk st st) (sched (kern y))
      else mret (sched (kern y))) = Ok s1 /\ tasks s1 = <[cur := brk_ready t]> (tasks (sched (kern y))).
Proof.
  intros cur Ht [Hid _ _ _ _]. run_call (get_task_ok cur t _ Ht). unfold brk_ready, brk_base.
  destruct (Z.eqb_spec (brk_start t) 0) as [E0|E0].
  - rewrite u64_small by (unfold BRK_REGION_START; lia). cbv zeta. rewrite (mod_task_ok cur _ t) by exact Ht. by eexists.
  - eexists. split; [done|]. by rewrite insert_id.
Qed.

(** C26. [sysBrk] grows the heap of a task: asked for an end above the current
    break it returns the new break, which is the requested end when the pages
    fit and else the old break; all the memory from the start of the region to
    the returned break is mapped, so the invariant of the region is kept; no
    byte outside of the new pages and no other task changes. *)
Theorem brk_grows_heap frame junk r y t :
  let cur := g_current (sched (kern y)) in
  cur <> 0 -> tasks (sched (kern y)) !! cur = Some t -> us_ok (space (proc y)) -> brk_inv (space (proc y)) t ->
  rax r = SYS_BRK -> brk_end t < rdi r < 2 ^ 46 ->
  let n := Z.to_nat (page_of (rdi r + 4095) - page_of (brk_end t + 4095)) in
  exists v y' t', syscall_dispatch fuel entry_addr frame junk r y = Ok (ToUser (set_rax v r), y') /\
    (v = rdi r \/ v = brk_end t) /\ ((n <= us_room (space (proc y)))%nat -> v = rdi r) /\
    us_ok (space (proc y')) /\ tasks (sched (kern y')) = <[cur := t']> (tasks (sched (kern y))) /\
    brk_base t' = brk_base t /\ brk_end t' = v /\ brk_inv (space (proc y')) t' /\
    forall x, ~ (page_end (brk_end t) <= x < page_end (rdi r)) -> us_byte (space (proc y')) x = us_byte (space (proc y)) x.
Proof.
  intros cur Hcur Ht Hok Hinv Hrax Hreq n. pose proof Hinv as [Hid Hbase Hrange Htop Hmap].
  pose proof (fun x => brk_page_mapped _ _ x Hinv) as Hpages. destruct (brk_ready_fields _ _ Hinv) as (Fs & Fc & Fb & Fi).
  destruct (brk_setup y t Ht Hinv) as (s1 & E1 & T1). fold cur in E1, T1.
  assert (Ht1 : tasks s1 !! cur = Some (brk_ready t)) by (rewrite T1; apply lookup_insert_eq).
  dispatch_on Hrax. unfold sysBrk. change (currentTask (sched (kern y))) with cur. rewrite (proj2 (Z.eqb_neq cur 0) Hcur).
  destruct (get_task cur (sched (kern y))) as [t0| |] eqn:E0; [|done..]. cbn [mbind outcome_bind] in E1 |- *. rewrite E1.
  cbn [mbind outcome_bind]. run_call (get_task_ok cur _ s1 Ht1). rewrite Fc.
  rewrite (proj2 (Z.eqb_neq (rdi r) 0)) by lia. rewrite (proj2 (Z.leb_gt (rdi r) (brk_end t))) by lia.
  rewrite !page_end_eq in * by lia. set (k0 := page_of (brk_end t + 4095)) in *. set (k1 := page_of (rdi r + 4095)) in *.
  assert (Hk : k0 <= k1) by (apply (page_of_le [] _ _); lia).
  assert (Hk1 : k1 * 4096 <= rdi r + 4095) by (pose proof (page_of_bounds [] (rdi r + 4095)); fold k1 in H3; lia).
  assert (Hk0 : 0 <= k0) by (unfold k0, page_of; apply Z.div_pos; lia).
  assert (Hpc : page_count (k0 * 4096) (k1 * 4096) = n).
  { replace k1 with (k0 + (k1 - k0)) by lia. rewrite page_count_pages by lia. done. }
  rewrite Hpc.
  destruct (grow_brk_ok n k0 (space (proc y)) Hok Hk0) as (ok & m' & E2 & O2 & R2 & P2 & A2 & K2); [lia|]. run_call E2.
  assert (Hout : forall x, ~ (k0 * 4096 <= x < k1 * 4096) -> us_byte m' x = us_byte (space (proc y)) x).
  { intros x Hx. apply K2. unfold in_range. pose proof (page_of_bounds [] x). lia. }
  destruct ok; cbn [negb].
  - rewrite (mod_task_ok cur _ (brk_ready t) s1 Ht1). cbn [mbind outcome_bind mret outcome_ret finish]. rewrite Fs.
    eexists (rdi r), _, _. split; [done|]. cbn [proc on_sched with_kern on_space with_proc space with_space kern with_sched sched tasks with_tasks].
    split; [by left|]. split; [done|]. split; [done|]. split; [rewrite T1; apply insert_insert_eq|].
    assert (Hb' : brk_base (set_brk (brk_base t) (rdi r) (brk_ready t)) = brk_base t).
    { unfold brk_base at 1. cbn. by rewrite (proj2 (Z.eqb_neq _ 0) Fb). }
    assert (He' : brk_end (set_brk (brk_base t) (rdi r) (brk_ready t)) = rdi r).
    { unfold brk_end at 1. cbn. by rewrite (proj2 (Z.eqb_neq _ 0) Fb). }
    split; [exact Hb'|]. split; [exact He'|]. split; [|exact Hout]. split; rewrite ?Hb', ?He'; [cbn; by rewrite Fi | done | lia | lia |].
    intros x Hx. destruct (Z.lt_ge_cases x (k0 * 4096)) as [Hlt|Hge]; [apply P2, Hpages; lia|].
    apply A2; [done|]. unfold in_range. pose proof (page_of_bounds [] x). pose proof (page_of_le [] x (rdi r - 1)).
    assert (page_of (rdi r - 1) < k1) by (unfold k1, page_of; Z.to_euclidean_division_equations; lia). lia.
  - cbn [mbind outcome_bind mret outcome_ret finish]. eexists (brk_end t), _, _. split; [done|].
    cbn [proc on_sched with_kern on_space with_proc space with_space kern with_sched sched]. split; [by right|].
    split; [intros Hn; by specialize (R2 Hn)|]. split; [done|]. split; [exact T1|].
    assert (Hb' : brk_base (brk_ready t) = brk_base t) by (unfold brk_base at 1; by rewrite Fs, (proj2 (Z.eqb_neq _ 0) Fb)).
    assert (He' : brk_end (brk_ready t) = brk_end t) by (unfold brk_end at 1; by rewrite Fs, Fc, (proj2 (Z.eqb_neq _ 0) Fb)).
    split; [exact Hb'|]. split; [exact He'|]. split; [|exact Hout].
    split; rewrite ?Hb', ?He', ?Fi; try done. intros x Hx. apply P2, Hmap. lia.
Qed.

(** ** Files *)

(** The user's number for descriptor [fd] and back. *)
Lemma user_fd_back fd : 0 <= fd < 32 -> s32 (u64 (fd + FD_OFFSET)) = fd + FD_OFFSET /\ s32 (fd + FD_OFFSET - FD_OFFSET) = fd.
Proof.
  intros Hfd. unfold FD_OFFSET. rewrite u64_small by lia. unfold s32. rewrite !sgn_small by lia. lia.
Qed.

Lemma sysRead_file_ok frame fd buf n y v0 ms wd mi mt fh content off :
  ms !! mi = Some mt -> reads_slices (driver mt) (fs_instance mt) fh wd content -> Z.of_nat (length content) < 2 ^ 60 ->
  bytes_ok content -> file_at v0 ms wd mi fh fd off (vfs (proc y)) -> 0 <= fd < 32 -> 0 <= n <= 4096 -> off < 2 ^ 61 ->
  us_ok (space (proc y)) -> mapped_range (space (proc y)) buf n ->
  let data := take (Z.to_nat n) (drop (Z.to_nat off) content) in
  exists y', sysRead frame (fd + FD_OFFSET) buf n y = Ok (SysReturns (Z.of_nat (length data)), y') /\
    file_at v0 ms wd mi fh fd (off + Z.of_nat (length data)) (vfs (proc y')) /\
    stored (space (proc y)) (space (proc y')) buf data /\ kern y' = kern y /\ term (proc y') = term (proc y).
Proof.
  intros Hmt Hsl Hlen Hb Hf Hfd Hn Hoff Hok Hm data. unfold sysRead, STDIN_FD, STDOUT_FD, STDERR_FD.
  rewrite (proj2 (Z.ltb_ge 4096 n)) by lia. rewrite !(proj2 (Z.eqb_neq (fd + FD_OFFSET) _)) by (unfold FD_OFFSET; lia). cbn [orb].
  rewrite (proj2 (user_fd_back fd Hfd)).
  assert (Hdl : (length data <= Z.to_nat n)%nat) by (unfold data; rewrite length_take; lia).
  assert (Hbig : off + Z.of_nat (length data) < 2 ^ 62) by lia.
  destruct (read_step v0 ms wd mi mt fh fd content Hmt Hsl ltac:(lia) off n (vfs (proc y)) Hf ltac:(lia) Hbig) as (v1 & E1 & F1).
  fold data in E1, F1. run_call E1.
  destruct (poke_all_stored buf data (space (proc y)) Hok) as (m1 & E2 & S2).
  { intros x Hx. apply Hm. lia. }
  { unfold data. apply (take_drop_bytes content Hb). }
  run_call E2. eexists. split; [done|]. done.
Qed.

(** C16. Files through system calls: with the path in its memory, a task opens
    the file, reads it twice and closes it; the calls return the descriptor
    and the numbers of bytes; the two buffers hold consecutive pieces of the
    file from its start, cut at its end; no other byte of the task's memory
    changes between the calls, and the descriptors are as before. *)
Theorem syscalls_read_file frame junk y path_ptr path fd mi mt fh wd wd' content b1 n1 b2 n2 ro r1 r2 rc :
  opens (vfs (proc y)) path fd mi mt fh wd content -> drv_close (driver mt) (fs_instance mt) fh wd = Ok wd' ->
  bytes_ok content -> Z.of_nat (length content) < 2 ^ 60 ->
  us_ok (space (proc y)) -> string_at (space (proc y)) path_ptr path -> (length path < fuel)%nat ->
  0 <= n1 <= 4096 -> 0 <= n2 <= 4096 -> mapped_range (space (proc y)) b1 n1 -> mapped_range (space (proc y)) b2 n2 ->
  let user_fd := u64 (Z.of_nat fd + FD_OFFSET) in
  rax ro = SYS_OPEN -> rdi ro = path_ptr ->
  rax r1 = SYS_READ -> rdi r1 = user_fd -> rsi r1 = b1 -> rdx r1 = n1 ->
  rax r2 = SYS_READ -> rdi r2 = user_fd -> rsi r2 = b2 -> rdx r2 = n2 ->
  rax rc = SYS_CLOSE -> rdi rc = user_fd ->
  let d1 := take (Z.to_nat n1) content in let d2 := take (Z.to_nat n2) (drop (length d1) content) in
  let call := syscall_dispatch fuel entry_addr frame junk in
  exists y1 y2 y3 y4, call ro y = Ok (ToUser (set_rax (Z.of_nat fd + FD_OFFSET) ro), y1) /\ space (proc y1) = space (proc y) /\
    call r1 y1 = Ok (ToUser (set_rax (Z.of_nat (length d1)) r1), y2) /\ stored (space (proc y)) (space (proc y2)) b1 d1 /\
    call r2 y2 = Ok (ToUser (set_rax (Z.of_nat (length d2)) r2), y3) /\ stored (space (proc y2)) (space (proc y3)) b2 d2 /\
    call rc y3 = Ok (ToUser (set_rax 0 rc), y4) /\ space (proc y4) = space (proc y3) /\
    world (vfs (proc y4)) = wd' /\ forall fd', get_file fd' (vfs (proc y4)) = get_file fd' (vfs (proc y)).
Proof.
  intros Hop Hclose Hb Hlen Hok Hpath Hfuel Hn1 Hn2 Hm1 Hm2 user_fd Eo1 Eo2 E11 E12 E13 E14 E21 E22 E23 E24 Ec1 Ec2 d1 d2 call.
  destruct (open_file_at _ _ _ _ _ _ _ _ Hop) as (v1 & Eo & Hnone & Hfd & F1). pose proof Hop as [_ _ Hmt _ Hsl].
  destruct (user_fd_back (Z.of_nat fd)) as [Hu1 Hu2]; [lia|].
  exists (on_vfs y v1). unfold call at 1. dispatch_on Eo1. unfold sysOpen. rewrite Eo2, (user_string_ok fuel _ path) by done.
  cbn [mbind outcome_bind]. run_call Eo. unfold INVALID_FD. rewrite (proj2 (Z.eqb_neq (Z.of_nat fd) (-1))) by lia.
  cbn [finish mbind outcome_bind mret outcome_ret].
  destruct (sysRead_file_ok frame (Z.of_nat fd) b1 n1 (on_vfs y v1) _ _ wd mi mt fh content 0 Hmt Hsl Hlen Hb F1)
    as (y2 & R1 & F2 & S1 & K1 & T1); try (done || lia). change (drop (Z.to_nat 0) content) with content in R1, F2, S1. fold d1 in R1, F2, S1.
  pose proof S1 as (O1 & P1 & _).
  destruct (sysRead_file_ok frame (Z.of_nat fd) b2 n2 y2 _ _ wd mi mt fh content _ Hmt Hsl Hlen Hb F2)
    as (y3 & R2 & F3 & S2 & K2 & T2); try (done || lia).
  { assert (length d1 <= length content)%nat by (unfold d1; rewrite length_take; lia). lia. }
  { intros x Hx. rewrite P1. by apply Hm2. }
  rewrite Z.add_0_l, Nat2Z.id in R2, S2, F3. fold d2 in R2, S2, F3.
  destruct (close_file_at _ _ _ wd' _ mt _ _ _ _ F3 Hmt ltac:(lia) Hnone Hclose) as (v4 & Ec & Hw4 & _ & Hg4).
  exists y2, y3, (on_vfs y3 v4). split; [done|]. split; [done|]. unfold call.
  split; [dispatch_on E11; rewrite E12, E13, E14; unfold user_fd; rewrite Hu1, R1; done|]. split; [exact S1|].
  split; [dispatch_on E21; rewrite E22, E23, E24; unfold user_fd; rewrite Hu1, R2; done|]. split; [exact S2|].
  split; [|done]. dispatch_on Ec1. unfold sysClose. rewrite Ec2. unfold user_fd. rewrite Hu1.
  rewrite (proj2 (Z.ltb_ge (Z.of_nat fd + FD_OFFSET) FD_OFFSET)) by lia.
  replace (Z.of_nat fd + FD_OFFSET - FD_OFFSET) with (Z.of_nat fd) by lia. by run_call Ec.
Qed.

(** ** Programs *)

Lemma cut_short (args : list (list Z)) : Forall (fun s => (length s < 64)%nat) args -> take 63 <$> args = args.
Proof.
  induction 1 as [|s args Hs _ IH]; [done|]. rewrite fmap_cons, IH. by rewrite take_ge by lia.
Qed.

(** What the arguments of a program must satisfy to reach it unchanged. *)
Definition args_ok (args : list (list Z)) : Prop :=
  (0 < length args <= 16)%nat /\ Forall (fun s => (length s < 64)%nat) args /\
  Forall (fun s => (length s < fuel)%nat) args /\ Forall string_ok args /\ args_size args + 16 <= USER_STACK_SIZE.

(** C15. [SYS_EXEC] replaces the program of the caller: with a path and an
    argument vector in its memory, and an executable that fits the loader, the
    call returns to user mode at the entry point with the segments loaded, the
    number of arguments in [rdi], in [rsi] a vector of the same strings on the
    new stack, and the stack pointer aligned below it.  The file is closed
    again. *)
Theorem exec_runs_program frame junk r y path argv fd mi mt fh wd wd' content h phs :
  rax r = SYS_EXEC -> us_ok (space (proc y)) ->
  string_at (space (proc y)) (rdi r) path -> (length path < fuel)%nat ->
  args_at (space (proc y)) (rsi r) argv -> args_ok argv ->
  opens (vfs (proc y)) path fd mi mt fh wd content -> elf_file content h phs -> e_entry h <> 0 ->
  drv_close (driver mt) (fs_instance mt) fh wd = Ok wd' -> (all_pages phs + 5 <= us_room (space (proc y)))%nat ->
  exists r' y', syscall_dispatch fuel entry_addr frame junk r y = Ok (ToUser r', y') /\
    rip r' = e_entry h /\ rdi r' = Z.of_nat (length argv) /\ argv_at (space (proc y')) (rsi r') argv /\
    rsp r' mod 16 = 0 /\ rsi r' - 16 < rsp r' <= rsi r' /\
    Forall (fun ph => is_load ph = true -> loaded content (space (proc y')) ph) phs /\
    mapped_range (space (proc y')) (USER_STACK_TOP - USER_STACK_SIZE) USER_STACK_SIZE /\
    kern y' = kern y /\ forall fd', get_file fd' (vfs (proc y')) = get_file fd' (vfs (proc y)).
Proof.
  intros Hrax Hok Hpath Hpf Hargs (Hn & Hs64 & Hsf & Hso & Hsize) Hop Hef Hentry Hclose Hroom.
  dispatch_on Hrax. unfold sysExec, copyUserArgv, MAX_EXEC_ARGS. rewrite (copy_argv_ok 16 _ argv) by (done || lia).
  cbn [mbind outcome_bind mret outcome_ret]. rewrite cut_short by done. rewrite (proj2 (Nat.eqb_neq (length argv) 0)) by lia.
  rewrite (user_string_ok fuel _ path) by done. cbn [mbind outcome_bind].
  destruct (elf_load_ok (proc y) path argv fd mi mt fh wd wd' content h phs) as
    (sp & ap & w' & El & Hload & Hargv & Hsp & Hspap & Hlo & Hst & Ht & Hw & Hg); try (done || lia).
  run_call El. rewrite (proj2 (Z.eqb_neq _ 0) Hentry). cbn [mbind outcome_bind mret outcome_ret].
  eexists _, _. split; [done|]. done.
Qed.

(** [SYS_SPAWN] followed by the first run of the new task starts the
    program: the call adds a ready task that enters [spawnedTaskEntry] and
    returns its id; run with the parameters that the call left, with [w] as
    its memory and files, that function enters user mode at the entry point of
    the program with its arguments, on the user segments. *)
Theorem spawn_starts_program frame junk r y ord path argv w fd mi mt fh wd wd' content h phs :
  rax r = SYS_SPAWN -> us_ok (space (proc y)) ->
  string_at (space (proc y)) (rdi r) path -> (length path < fuel)%nat -> (length path < 128)%nat ->
  args_at (space (proc y)) (rsi r) argv -> args_ok argv ->
  ts_ok (env (sched (kern y))) -> task_ring (sched (kern y)) ord -> 0 < g_next_id (sched (kern y)) < 2 ^ 32 - 1 ->
  (forall a, is_Some (tasks (sched (kern y)) !! a) -> a ∈ ts_live (env (sched (kern y)))) ->
  opens (vfs w) path fd mi mt fh wd content -> elf_file content h phs -> e_entry h <> 0 ->
  drv_close (driver mt) (fs_instance mt) fh wd = Ok wd' ->
  us_ok (space w) -> (all_pages phs + 5 <= us_room (space w))%nat ->
  exists v y', syscall_dispatch fuel entry_addr frame junk r y = Ok (ToUser (set_rax v r), y') /\ proc y' = proc y /\
    (v = -1 \/
     (v = g_next_id (sched (kern y)) /\
      exists a t, tasks (sched (kern y)) !! a = None /\ tasks (sched (kern y')) !! a = Some t /\ state t = Ready /\ id t = v /\
        (f_rip <$> frames (sched (kern y')) !! Scheduler.rsp t) = Some entry_addr /\
        exists sp ap y'', spawnedTaskEntry (with_proc y' w) =
            Ok (EnterUser (e_entry h) sp GDT_USER_CODE GDT_USER_DATA (Z.of_nat (length argv)) ap, y'') /\
          argv_at (space (proc y'')) ap argv /\
          Forall (fun ph => is_load ph = true -> loaded content (space (proc y'')) ph) phs)).
Proof.
  intros Hrax Hok Hpath Hpf Hp128 Hargs (Hn & Hs64 & Hsf & Hso & Hsize) Hts Hring Hid Hlive Hop Hef Hentry Hclose Hwok Hroom.
  dispatch_on Hrax. unfold sysSpawn. rewrite (user_string_ok fuel _ path) by done. cbn [mbind outcome_bind].
  rewrite (proj2 (Z.leb_gt 128 (Z.of_nat (length path)))) by lia. unfold MAX_SPAWN_ARGS. rewrite (copy_argv_ok 16 _ argv) by (done || lia).
  cbn [mbind outcome_bind]. rewrite cut_short by done.
  destruct (createTask_ok entry_addr 16384 (sched (kern y)) ord Hts Hring Hid Hlive)
    as (a & s' & Ec & _ & [(-> & _)|(Ha & Hnone & _ & _ & t & Ht & Hst & Hti & Hfr)]); run_call Ec.
  - rewrite Z.eqb_refl. cbn [finish mbind outcome_bind mret outcome_ret]. eexists (-1), _. split; [done|]. split; [done | by left].
  - rewrite (proj2 (Z.eqb_neq a 0) Ha). run_call (get_task_ok a t s' Ht). cbn [finish mbind outcome_bind mret outcome_ret].
    eexists (id t), _. split; [done|]. split; [done|]. right. split; [done|]. exists a, t. split_and!; try done.
    { cbn. by rewrite Hfr. }
    unfold spawnedTaskEntry. cbn [with_proc g_spawn_params sp_path sp_argv proc].
    destruct (elf_load_ok w path argv fd mi mt fh wd wd' content h phs) as
      (sp & ap & w' & El & Hload & Hargv & _); try (done || lia).
    run_call El. rewrite (proj2 (Z.eqb_neq _ 0) Hentry). by eexists _, _, _.
Qed.

(** A second spawn before the first new task has run replaces its program:
    whatever was asked for before, [spawnedTaskEntry] finds the last request. *)
Theorem spawn_keeps_last_request r y y' path argv v :
  us_ok (space (proc y)) -> string_at (space (proc y)) (rdi r) path -> (length path < fuel)%nat -> (length path < 128)%nat ->
  args_at (space (proc y)) (rsi r) argv -> args_ok argv ->
  sysSpawn fuel entry_addr (rdi r) (rsi r) y = Ok (SysReturns v, y') -> g_spawn_params y' = mkSpawn path argv.
Proof.
  intros Hok Hpath Hpf Hp128 Hargs (Hn & Hs64 & Hsf & _). unfold sysSpawn.
  rewrite (user_string_ok fuel _ path) by done. cbn [mbind outcome_bind].
  rewrite (proj2 (Z.leb_gt 128 (Z.of_nat (length path)))) by lia. unfold MAX_SPAWN_ARGS. rewrite (copy_argv_ok 16 _ argv) by (done || lia).
  cbn [mbind outcome_bind]. rewrite cut_short by done. destruct (createTask _ _ _) as [[a s']| |]; [|done..]. cbn [mbind outcome_bind].
  destruct (a =? 0); [by intros [= _ <-]|]. destruct (get_task a s'); [|done..]. by intros [= _ <-].
Qed.

(** ** The standard input *)

(** Two tasks with no character to read: the reader gives up the processor. *)
Lemma wait_stdin_ok frame y ord : sched_inv (sched (kern y)) ord ->
  (exists a, a ∈ ord /\ a <> g_current (sched (kern y)) /\ passes (tasks (sched (kern y))) runnable a = true) ->
  exists y' o1 o2 t, wait_stdin frame y = Ok y' /\ proc y' = proc y /\
    g_pending_stdin_reader (kern y') = g_current (sched (kern y)) /\
    keyboard (kern y') = with_callback (keyboard (kern y)) (Some WAKE_STDIN_READER) /\
    g_irq_handlers (kern y') = g_irq_handlers (kern y) /\ Interrupts.ports (kern y') = Interrupts.ports (kern y) /\
    sched_inv (sched (kern y')) (o1 ++ g_current (sched (kern y)) :: o2) /\
    g_current (sched (kern y')) <> g_current (sched (kern y)) /\ length (o1 ++ g_current (sched (kern y)) :: o2) = length ord /\
    tasks (sched (kern y')) !! g_current (sched (kern y)) = Some t /\ state t = Blocked.
Proof.
  intros Hinv (a & Ha & Hne & Hrun). set (c := g_current (sched (kern y))) in *. unfold wait_stdin, blockCurrent. cbn [sched currentTask].
  pose proof (si_ring _ _ Hinv) as Hr. pose proof (ring_current _ _ _ Hr) as Hc. fold c in Hc.
  destruct (ring_in _ _ _ _ Hr Hc) as [tc Htc]. fold c. rewrite (mod_task_ok c _ tc) by exact Htc. cbn [mbind outcome_bind].
  set (s1 := with_tasks _ _).
  assert (Hinv1 : sched_inv s1 ord).
  { destruct Hinv as [H3 H4 H5 H6 H7 H8]. split; try done; cbn.
    - apply (ring_ext (tasks (sched (kern y)))); [|done]. by apply same_next_insert.
    - intros b t Hb Hst. destruct (decide (b = c)) as [->|Hbc]; [done|]. rewrite lookup_insert_ne in Hb by done. by apply (H6 b t). }
  assert (Hrun1 : forall b, b <> c -> passes (tasks s1) runnable b = passes (tasks (sched (kern y))) runnable b).
  { intros b Hb. unfold passes. cbn. by rewrite lookup_insert_ne. }
  assert (Hcno : passes (tasks s1) runnable c = false) by (unfold passes; cbn; by rewrite lookup_insert_eq).
  destruct (tick_ok s1 ord frame Hinv1) as (s2 & Et & [(p & x & q & Eo & Hx & Hp & Hcur & _ & Hinv2 & Ho)|(Hno & _)]).
  2: { rewrite Forall_forall in Hno. apply list_elem_of_In, Hno in Ha. rewrite Hrun1 in Ha by done. congruence. }
  unfold yield. run_call Et. assert (Hxc : x <> c) by (intros ->; congruence).
  assert (Hin : c ∈ q ++ p ++ [x]) by (rewrite Eo in Hc; set_solver). apply list_elem_of_split in Hin as (o1 & o2 & Eo2).
  destruct (after_tick_others _ _ _ _ c (set_state Blocked tc) Ho) as (t' & Ht' & Hst' & _); [cbn; apply lookup_insert_eq | congruence |].
  eexists _, o1, o2, t'. split; [done|].
  cbn [proc with_kern kern with_sched sched g_pending_stdin_reader keyboard g_irq_handlers Interrupts.ports setOnCharCallback].
  rewrite <- Eo2. split_and!; try done.
  - congruence.
  - rewrite Eo, !length_app. simpl. lia.
Qed.

Lemma ready_inv (s : Sched E) ord a t regs : sched_inv s ord -> tasks s !! a = Some t ->
  sched_inv (with_tasks (set_next_rsp regs s) (<[a := set_state Ready t]> (tasks s))) ord.
Proof.
  intros [H3 H4 H5 H6 H7 H8] Ht. split; try done; cbn.
  - apply (ring_ext (tasks s)); [|done]. by apply same_next_insert.
  - intros b tb Hb Hst. destruct (decide (b = a)) as [->|Hne].
    + rewrite lookup_insert_eq in Hb. by injection Hb as <-.
    + rewrite lookup_insert_ne in Hb by done. by apply (H6 b tb).
Qed.

Lemma focused_anyone cur k : g_focused_task_id k = 0 -> callerIsFocused cur k = true.
Proof. intros Hf. unfold callerIsFocused. by rewrite Hf. Qed.

(** C14. A read of the standard input ends once a key is pressed: with no
    character waiting and another task to run, the call blocks its task and
    the processor goes to another one; the interrupt of a key with a
    character makes the reader ready again, so that within one round of
    scheduler ticks it is the running task; there the call returns 1 with the
    character in the buffer. *)
Theorem read_returns_after_key `{!Pics Q} frame junk regs r y ord scancode q c :
  rax r = SYS_READ -> rdi r = 0 -> 0 < rdx r <= 4096 -> us_ok (space (proc y)) -> mapped_range (space (proc y)) (rsi r) (rdx r) ->
  sched_inv (sched (kern y)) ord ->
  (exists a, a ∈ ord /\ a <> g_current (sched (kern y)) /\ passes (tasks (sched (kern y))) runnable a = true) ->
  kbd_wf (keyboard (kern y)) -> contents (keyboard (kern y)) = [] -> g_focused_task_id (keyboard (kern y)) = 0 ->
  g_extended (keyboard (kern y)) = false ->
  Prelude.load (g_irq_handlers (kern y)) 1 = Ok (Some KeyboardIRQ) -> inb DATA_PORT (Interrupts.ports (kern y)) = (scancode, q) ->
  0 <= scancode < 128 -> scancode <> SCANCODE_LSHIFT_DOWN -> scancode <> SCANCODE_RSHIFT_DOWN ->
  Prelude.load (if g_shift_pressed (keyboard (kern y)) then scancode_ascii_shift else scancode_ascii) scancode = Ok c -> 0 < c < 256 ->
  exists k y1 k2, syscall_dispatch fuel entry_addr frame junk r y = Ok (Blocks k, y1) /\
    g_current (sched (kern y1)) <> g_current (sched (kern y)) /\ irq_handler regs 1 (kern y1) = Ok k2 /\
    forall rs, length rs = length ord -> exists rs1 rs2 s3 y4, rs = rs1 ++ rs2 /\
      ticks rs1 (sched k2) = Ok s3 /\ g_current s3 = g_current (sched (kern y)) /\
      resume frame r k (with_kern y1 (with_sched k2 s3)) = Ok (ToUser (set_rax 1 r), y4) /\
      stored (space (proc y)) (space (proc y4)) (rsi r) [c].
Proof.
  intros Hrax Hrdi Hrdx Hok Hm Hinv Hother Hwf Hcont Hfoc Hext Hirq Hin Hsc Hls Hrs Hc Hcr.
  destruct (wait_stdin_ok frame y ord Hinv Hother) as (y1 & o1 & o2 & t & Ew & Hproc & Hpend & Hkb & Hh & Hports & Hinv1 & Hne & Hlen & Ht & Hst).
  set (me := g_current (sched (kern y))) in *.
  assert (Hme : me <> 0).
  { intros E0. apply (ring_nonnull _ _ _ (si_ring _ _ Hinv)). rewrite <- E0. apply (ring_current _ _ _ (si_ring _ _ Hinv)). }
  destruct (key_interrupt_ok (kern y1) regs scancode q c t) as (k2 & Ei & Hc2 & _ & Hwf2 & Hf2 & Hs2 & _).
  all: rewrite ?Hkb, ?Hpend, ?Hh, ?Hports; try done; try lia.
  { pose proof (length_contents (keyboard (kern y))) as Hl. rewrite Hcont in Hl. simpl in Hl.
    change (used (with_callback (keyboard (kern y)) (Some WAKE_STDIN_READER))) with (used (keyboard (kern y))). lia. }
  rewrite Hkb in Hc2, Hf2. change (contents (with_callback (keyboard (kern y)) (Some WAKE_STDIN_READER))) with (contents (keyboard (kern y))) in Hc2.
  rewrite Hcont in Hc2. cbn [app] in Hc2. rewrite Hpend in Hs2.
  assert (Hf3 : g_focused_task_id (keyboard k2) = 0) by (rewrite Hf2; exact Hfoc).
  assert (Hinv2 : sched_inv (sched k2) (o1 ++ me :: o2)) by (rewrite Hs2; by apply ready_inv).
  assert (Hready : passes (tasks (sched k2)) is_ready me = true).
  { rewrite Hs2. unfold passes. cbn. by rewrite lookup_insert_eq. }
  exists (ReadAgain 0 (rsi r) (rdx r)), y1, k2. split.
  { dispatch_on Hrax. rewrite Hrdi. change (s32 0) with 0. unfold sysRead. rewrite (proj2 (Z.ltb_ge 4096 (rdx r))) by lia.
    change (0 =? STDIN_FD) with true. cbv iota. rewrite hasChar_contents, Hcont by (done || by apply focused_anyone).
    cbn [length Nat.eqb negb]. by run_call Ew. }
  split; [done|]. split; [done|]. intros rs Hrl.
  destruct (ready_within (S (length o1)) (sched k2) o1 me o2 rs) as (rs1 & rs2 & s3 & -> & _ & Etk & Hcur & _);
    [lia | done | done | rewrite length_app in Hlen; simpl in Hlen; lia |].
  set (y3 := with_kern y1 (with_sched k2 s3)).
  destruct (read_stdin_ok (Z.to_nat (rdx r)) (rsi r) 0 y3) as (y4 & Er & _ & Hstored & _).
  - cbn. by rewrite Hproc.
  - intros x Hx. cbn. rewrite Hproc. apply Hm. lia.
  - done.
  - by apply focused_anyone.
  - cbn. rewrite Hc2. constructor; [unfold byte_ok; lia | constructor].
  - assert (Etake : take (Z.to_nat (rdx r)) (contents (keyboard (kern y3))) = [c]).
    { cbn. rewrite Hc2. apply take_ge. simpl. lia. }
    rewrite Etake in Er, Hstored. cbn in Hstored. rewrite Hproc, Z.add_0_r in Hstored.
    exists rs1, rs2, s3, y4. split; [done|]. split; [done|]. split; [done|]. split; [|done].
    unfold resume, sysRead. rewrite (proj2 (Z.ltb_ge 4096 (rdx r))) by lia. change (0 =? STDIN_FD) with true. cbv iota.
    rewrite hasChar_contents by (done || by apply focused_anyone).
    fold y3. assert (Hk3 : contents (keyboard (kern y3)) = [c]) by exact Hc2. rewrite Hk3. cbn [length Nat.eqb negb]. rewrite Er. done.
Qed.

(** ** The console *)

(** A write to the standard output or error types the bytes of the buffer up
    to the first zero, at most 4096 of them, and returns the length asked for
    (cut to 4096). *)
Theorem write_reaches_console frame junk r y s :
  rax r = SYS_WRITE -> rdi r = 1 \/ rdi r = 2 -> 0 <= rdx r -> us_ok (space (proc y)) ->
  let n := Z.min (rdx r) 4096 in mapped_range (space (proc y)) (rsi r) n ->
  shows (term (proc y)) s -> (length s.2 < 80)%nat ->
  exists t', syscall_dispatch fuel entry_addr frame junk r y = Ok (ToUser (set_rax n r), on_term y t') /\
    shows t' (type_text (color (term (proc y))) s (until_nul (user_bytes (space (proc y)) (rsi r) (Z.to_nat n)))).
Proof.
  intros Hrax Hrdi Hrdx Hok n Hm Hs Hl. dispatch_on Hrax. unfold sysWrite. cbv zeta.
  assert ((if 4096 <? rdx r then 4096 else rdx r) = n) as -> by (unfold n; destruct (Z.ltb_spec 4096 (rdx r)); lia).
  assert ((s32 (rdi r) =? STDOUT_FD) || (s32 (rdi r) =? STDERR_FD) = true) as -> by (destruct Hrdi as [-> | ->]; reflexivity).
  rewrite write_console_ok by (done || (rewrite Z2Nat.id by (unfold n; lia); done)).
  destruct (foldM_putChar_ok (until_nul (user_bytes (space (proc y)) (rsi r) (Z.to_nat n))) (term (proc y)) s Hl Hs)
    as (t' & Et & Hsh & _). run_call Et. by exists t'.
Qed.

(** A number that is no system call is reported on the terminal, in decimal,
    and returns -1; nothing else changes. *)
Theorem unknown_call_reported frame junk r y s : 9 < rax r < 2 ^ 64 -> shows (term (proc y)) s -> (length s.2 < 80)%nat ->
  exists t' ds, syscall_dispatch fuel entry_addr frame junk r y = Ok (ToUser (set_rax (-1) r), on_term y t') /\
    dec_value_from 0 ds = rax r /\
    shows t' (type_text (color (term (proc y))) s (chars "[syscall] unknown syscall number: " ++ ds ++ [10])).
Proof.
  intros Hr Hs Hl. unfold syscall_dispatch, SYS_WRITE, SYS_READ, SYS_OPEN, SYS_CLOSE, SYS_BRK, SYS_EXIT, SYS_READDIR, SYS_EXEC, SYS_SPAWN, SYS_WAIT.
  rewrite !(proj2 (Z.eqb_neq (rax r) _)) by lia.
  destruct (dec_chars_ok (rax r)) as (ds & Ed & Hd & _ & Hv); [lia|].
  set (msg := chars "[syscall] unknown syscall number: ").
  assert (Hmsg : Forall (fun c => c <> 0) msg) by (repeat constructor; discriminate).
  destruct (foldM_putChar_ok (msg ++ ds ++ [10]) (term (proc y)) s Hl Hs) as (t' & Et & Hsh & _).
  exists t', ds. split; [|done]. rewrite foldM_app in Et. rewrite write_chars by done.
  destruct (foldM putChar msg (term (proc y))) as [t1| |]; [|done..]. cbn [mbind outcome_bind] in Et |- *.
  unfold writeDec. rewrite Ed. cbn [mbind outcome_bind]. rewrite foldM_app in Et.
  destruct (foldM putChar ds t1) as [t2| |]; [|done..]. cbn [mbind outcome_bind] in Et |- *.
  rewrite write_chars by (repeat constructor; discriminate). by run_call Et.
Qed.

End SyscallProofs.

(** ** Witnesses *)

(** A check of the bytes of a flat memory. *)
Fixpoint has_bytes (m : FlatSpace) (a : Z) (bs : list Z) : bool :=
  match bs with [] => true | b :: bs' => (flat_byte m a =? b) && has_bytes m (a + 1) bs' end.

Lemma has_bytes_ok (m : FlatSpace) a bs : has_bytes m a bs = true -> bytes_at m a bs.
Proof.
  revert a. induction bs as [|b bs IH]; intros a Hb k c Hk; [done|]. cbn in Hb. apply andb_true_iff in Hb as [Hb0 Hb].
  destruct k as [|k]; cbn in Hk.
  - injection Hk as <-. rewrite Z.add_0_r. by apply Z.eqb_eq.
  - replace (a + Z.of_nat (S k)) with (a + 1 + Z.of_nat k) by lia. by apply (IH (a + 1)).
Qed.

(** One page of a task at 0x600000: the path of a file, an argument vector
    with one string, and room for buffers. *)
Definition task_bytes : list (Z * list Z) :=
  [(0x600000, toy_path ++ [0]); (0x600100, word_bytes 0x600200 ++ word_bytes 0); (0x600200, [108; 115; 0])].
Definition place (l : list (Z * list Z)) : gmap Z Z :=
  foldr (fun x b => list_to_map (zip (seqZ x.1 (Z.of_nat (length x.2))) x.2) ∪ b) ∅ l.
Definition task_space : FlatSpace := mkFlat {[0x600]} (place task_bytes) 100.

Definition task_sys : Sys unit FlatSpace PortLog (gset Z) TwoChips :=
  mkSys (mkWorld (file_vfs small_elf) task_space cleared_terminal)
    (mkKernel sample_sched (mkTimer 7 1000) (mkKbd (replicate 256 0) 0 0 false false 0 None) 0
       (<[0%nat := Some TimerIRQ]> (<[1%nat := Some KeyboardIRQ]> (replicate 16 None)))
       (mkTwo (mkChip 0 0x20 4 0xF8 [0]) (mkChip 0 0x28 2 0xFF []) 0x1E)) 0 0 (mkSpawn [] []).

Lemma task_mapped a n : 0x600000 <= a -> a + n <= 0x601000 -> mapped_range task_space a n.
Proof.
  intros Ha Hn x Hx. assert (page_of x = 0x600) as -> by (unfold page_of; Z.to_euclidean_division_equations; lia). reflexivity.
Qed.

Lemma task_path : string_at task_space 0x600000 toy_path.
Proof.
  split; [apply task_mapped; [lia | vm_compute; discriminate] | apply has_bytes_ok; vm_compute; reflexivity |].
  repeat constructor; discriminate.
Qed.

Lemma task_args : args_at task_space 0x600100 [[108; 115]].
Proof.
  split; [apply task_mapped; simpl; lia | | apply has_bytes_ok; vm_compute; reflexivity].
  intros [|i] s Hi; [|done]. injection Hi as <-. exists 0x600200. split; [lia|].
  split; [apply has_bytes_ok; vm_compute; reflexivity|].
  split; [apply task_mapped; simpl; lia | apply has_bytes_ok; vm_compute; reflexivity | repeat constructor; discriminate].
Qed.

Lemma task_args_ok : args_ok 64 [[108; 115]].
Proof.
  split; [simpl; lia|]. split; [repeat constructor; simpl; lia|]. split; [repeat constructor; simpl; lia|]. split.
  - repeat (constructor; [repeat (constructor; [lia|]); constructor|]). constructor.
  - unfold args_size, USER_STACK_SIZE. simpl. lia.
Qed.

Lemma brk_grows_heap_witness : exists y', syscall_dispatch 64 0 0 [] (mkRegs SYS_BRK 0x50010002000 0 0 0 0) task_sys =
    Ok (ToUser (mkRegs 0x50010002000 0x50010002000 0 0 0 0), y') /\
  forall x, 0x50010000000 <= x < 0x50010002000 -> us_page (space (proc y')) (page_of x) = true.
Proof.
  destruct (brk_grows_heap 64 0 0 [] (mkRegs SYS_BRK 0x50010002000 0 0 0 0) task_sys (sample_task 1 Running 0 200))
    as (v & y' & t' & Ed & _ & Hv & _ & _ & Hb & He & [_ _ _ _ Hm] & _).
  - discriminate.
  - reflexivity.
  - exact I.
  - split; [cbn; lia | reflexivity | split; vm_compute; discriminate | reflexivity |].
    intros x Hx. change (brk_base (sample_task 1 Running 0 200)) with (brk_end (sample_task 1 Running 0 200)) in Hx. lia.
  - reflexivity.
  - split; reflexivity.
  - rewrite Hv in Ed by (apply Nat.leb_le; vm_compute; reflexivity). exists y'. split; [exact Ed|]. intros x Hx. apply Hm.
    rewrite Hb, He, Hv by (apply Nat.leb_le; vm_compute; reflexivity). unfold brk_base, BRK_REGION_START. cbn. lia.
Defined.

Lemma syscalls_read_file_witness : exists y1 y2 y3 y4,
  syscall_dispatch 64 0 0 [] (mkRegs SYS_OPEN 0x600000 0 0 0 0) task_sys = Ok (ToUser (mkRegs 3 0x600000 0 0 0 0), y1) /\
  syscall_dispatch 64 0 0 [] (mkRegs SYS_READ 3 0x600300 4 0 0) y1 = Ok (ToUser (mkRegs 4 3 0x600300 4 0 0), y2) /\
  syscall_dispatch 64 0 0 [] (mkRegs SYS_READ 3 0x600400 200 0 0) y2 = Ok (ToUser (mkRegs 120 3 0x600400 200 0 0), y3) /\
  syscall_dispatch 64 0 0 [] (mkRegs SYS_CLOSE 3 0 0 0 0) y3 = Ok (ToUser (mkRegs 0 3 0 0 0 0), y4).
Proof.
  destruct (syscalls_read_file 64 0 0 [] task_sys 0x600000 toy_path 0 0 (file_mount small_elf) toy_handle tt tt small_elf
    0x600300 4 0x600400 200 (mkRegs SYS_OPEN 0x600000 0 0 0 0) (mkRegs SYS_READ 3 0x600300 4 0 0)
    (mkRegs SYS_READ 3 0x600400 200 0 0) (mkRegs SYS_CLOSE 3 0 0 0 0)) as (y1 & y2 & y3 & y4 & Ho & _ & Hr1 & _ & Hr2 & _ & Hc & _);
    try reflexivity; try lia.
  - apply file_vfs_opens.
  - apply (ef_bytes _ _ _ small_elf_ok).
  - exact task_path.
  - apply Nat.ltb_lt. reflexivity.
  - apply task_mapped; lia.
  - apply task_mapped; lia.
  - exists y1, y2, y3, y4. split; [exact Ho|]. split; [exact Hr1|]. split; [exact Hr2 | exact Hc].
Defined.

Lemma exec_runs_program_witness : exists r' y',
  syscall_dispatch 64 0 0 [] (mkRegs SYS_EXEC 0x600000 0x600100 0 0x1234 0x5678) task_sys = Ok (ToUser r', y') /\
  rip r' = 0x400FFC /\ rdi r' = 1 /\ argv_at (space (proc y')) (rsi r') [[108; 115]].
Proof.
  destruct (exec_runs_program 64 0 0 [] (mkRegs SYS_EXEC 0x600000 0x600100 0 0x1234 0x5678) task_sys toy_path [[108; 115]] 0 0
    (file_mount small_elf) toy_handle tt tt small_elf (decode_ehdr (take 64 small_elf)) [small_phdr] eq_refl) as (r' & y' & Ed & Hrip & Hrdi & Hargv & _).
  - exact I.
  - exact task_path.
  - apply Nat.ltb_lt. reflexivity.
  - exact task_args.
  - exact task_args_ok.
  - apply file_vfs_opens.
  - exact small_elf_ok.
  - vm_compute. discriminate.
  - reflexivity.
  - apply Nat.leb_le. vm_compute. reflexivity.
  - exists r', y'. split; [exact Ed|]. split; [rewrite Hrip; vm_compute; reflexivity|]. split; [exact Hrdi | exact Hargv].
Defined.

Lemma read_returns_after_key_witness : exists k y1 k2,
  syscall_dispatch 64 0 500 [] (mkRegs SYS_READ 0 0x600300 16 0 0) task_sys = Ok (Blocks k, y1) /\
  irq_handler 7 1 (kern y1) = Ok k2 /\
  exists rs1 s3 y4, ticks rs1 (sched k2) = Ok s3 /\ g_current s3 = 100 /\
    resume 500 (mkRegs SYS_READ 0 0x600300 16 0 0) k (with_kern y1 (with_sched k2 s3)) = Ok (ToUser (mkRegs 1 0 0x600300 16 0 0), y4).
Proof.
  destruct (read_returns_after_key 64 0 500 [] 7 (mkRegs SYS_READ 0 0x600300 16 0 0) task_sys [200; 300; 100] 0x1E
    (Interrupts.ports (kern task_sys)) 97) as (k & y1 & k2 & Ed & _ & Ei & Hlive); try reflexivity; try (cbn; lia).
  - apply task_mapped; cbn; lia.
  - apply sample_inv_of. left. reflexivity.
  - exists 200. split; [rewrite elem_of_cons; left; reflexivity|]. split; [discriminate | reflexivity].
  - split; [reflexivity|]. split; split; (discriminate || reflexivity).
  - discriminate.
  - discriminate.
  - exists k, y1, k2. split; [exact Ed|]. split; [exact Ei|].
    destruct (Hlive [8; 9; 10] eq_refl) as (rs1 & rs2 & s3 & y4 & _ & Et & Hc & Er & _).
    exists rs1, s3, y4. split; [exact Et|]. split; [exact Hc | exact Er].
Defined.
