(* ===== verification/Tar.v ===== *)
(** Archives, [src/src/file_formats/tar/tar.cpp].

    The functions run over the file system, memory and terminal of
    [Elf.World]; [clock] are the readings of the timer that the sleeps see.
    A heap buffer is a list of bytes, [junk] what is in it before it is
    written; the null pointer is the memory at address 0, which is where the
    code skips the data of an entry to.  Of the header the fields that are used
    are decoded from their offsets. *)

From Stdlib Require Import ZifyBool.
From S2P Require Import Prelude Io Libc Format Bytes Vfs VfsProofs Timer Terminal Printf UserSpace Elf ElfProofs.

Definition SIZEOF_USTAR : Z := 512.
Definition RED : Z := 0x4.
Definition WHITE : Z := 0xF.

(** [octToDec]: stops at a zero or a blank, ignores other characters. *)
Fixpoint oct_loop (str : list Z) (n : Z) : Z :=
  match str with
  | [] => n
  | c :: str' =>
      if (c =? 0) || (c =? 32) then n else
      oct_loop str' (if (48 <=? c) && (c <=? 55) then u64 (u64 (n * 8) + (c - 48)) else n)
  end.
Definition octToDec (str : list Z) (size : Z) : Z := oct_loop (take (Z.to_nat size) str) 0.

Definition dataSizeWithPadding (size : Z) : Z := u64 (size + ((512 - size mod 512) mod 512)).

(** The fields of [USTAR_Hdr] that are used, in its 512 bytes. *)
Definition t_file_name (hdr : list Z) : list Z := until_nul hdr.
Definition t_file_size (hdr : list Z) : list Z := take 12 (drop 124 hdr).
Definition t_magic0 (hdr : list Z) : Z := default 0 (hdr !! 257%nat).

Definition data_size (hdr : list Z) : Z := octToDec (t_file_size hdr) 12.

(** [for (int i = num_bits - 1; i >= 0; i--) { buffer[i] = (num & 1) ? '1' : '0'; num >>= 1; }] *)
Definition int_to_bin_string (num : Z) (buffer : list Z) (num_bits : Z) : outcome (list Z) :=
  buffer ← store buffer num_bits 0;
  r ← foldM (fun i s => b ← store s.1 i (if s.2 .& 1 =? 0 then 48 else 49); mret (b, s.2 .>> 1)) (reverse (seqZ 0 num_bits)) (buffer, num);
  mret r.1.

(** A buffer: null or on the heap. *)
Inductive Buf := NullBuf | HeapBuf (ptr : Z) (bytes : list Z).

Record TarWorld (W M P : Type) := mkTar { tw : World W M P; clock : list Z }.
Arguments mkTar {W M P}.
Arguments tw {W M P}.
Arguments clock {W M P}.

Section Tar.
Context {W M P : Type} `{UserSpace M} `{PortIO P}.
Context (junk : nat -> list Z).
Implicit Types w : TarWorld W M P.

Definition with_tw w (x : World W M P) : TarWorld W M P := mkTar x (clock w).
Definition with_vfs' w (v : Vfs W) : TarWorld W M P := with_tw w (with_vfs (tw w) v).
Definition with_mem w (m : M) : TarWorld W M P := with_tw w (with_space (tw w) m).

Definition print (format : list Z) (args : list arg) w : outcome (TarWorld W M P) :=
  t ← printf format args (term (tw w)); mret (with_tw w (mkWorld (vfs (tw w)) (space (tw w)) t)).

Definition kmalloc (n : Z) w : outcome (Buf * TarWorld W M P) :=
  '(p, m) ← us_kmalloc n (space (tw w));
  mret (if p =? 0 then NullBuf else HeapBuf p (junk (Z.to_nat n)), with_mem w m).

Definition kfree (b : Buf) w : outcome (TarWorld W M P) :=
  m ← us_kfree (match b with NullBuf => 0 | HeapBuf p _ => p end) (space (tw w)); mret (with_mem w m).

(** [VFS::read(fd, b, count);] *)
Definition read_into (fd : Z) (b : Buf) (count : Z) w : outcome (Buf * TarWorld W M P) :=
  '(_, data, v) ← Vfs.read fd count (vfs (tw w));
  let w := with_vfs' w v in
  match b with
  | NullBuf => m ← poke_all 0 data (space (tw w)); mret (NullBuf, with_mem w m)
  | HeapBuf p old => bs ← splice old 0 data; mret (HeapBuf p bs, w)
  end.

(** The first [n] bytes of a buffer. *)
Definition buf_bytes (b : Buf) (n : nat) w : outcome (list Z) :=
  match b with
  | NullBuf => foldM (fun i l => c ← us_peek i (space (tw w)); mret (l ++ [c])) (seqZ 0 (Z.of_nat n)) []
  | HeapBuf _ bs => slice bs 0 (Z.of_nat n)
  end.

Definition sleep10 w : outcome (TarWorld W M P) :=
  c ← sleepMiliseconds 10 (clock w); mret (mkTar (tw w) c).

Definition close w (fd : Z) : outcome (TarWorld W M P) := v ← Vfs.close fd (vfs (tw w)); mret (with_vfs' w v).

Definition no_archive (path : list Z) w : outcome (TarWorld W M P) :=
  print (chars "%rCould not open archive file: %s%r" ++ [10]) [ArgInt RED; ArgStr (Some path); ArgInt WHITE] w.

(** The loop of [listFiles], [fuel] rounds at most. *)
Fixpoint list_loop (fuel : nat) (fd : Z) (header : Buf) w : outcome (Buf * TarWorld W M P) :=
  match fuel with
  | O => Halt
  | S fuel' =>
      '(header, w) ← read_into fd header 512 w;
      hdr ← buf_bytes header 512 w;
      if t_magic0 hdr =? 0 then mret (header, w) else
      w ← print (chars "   FILE: %s -- size: %u" ++ [10]) [ArgStr (Some (t_file_name hdr)); Arg64 (data_size hdr)] w;
      '(_, w) ← read_into fd NullBuf (dataSizeWithPadding (data_size hdr)) w;
      list_loop fuel' fd header w
  end.

Definition listFiles (fuel : nat) (path : list Z) w : outcome (TarWorld W M P) :=
  '(fd, v) ← Vfs.open path (vfs (tw w));
  let w := with_vfs' w v in
  if fd <? 0 then no_archive path w else
  '(header, w) ← kmalloc SIZEOF_USTAR w;
  '(header, w) ← list_loop fuel fd header w;
  w ← kfree header w;
  close w fd.

(** [parseHeader]: the result and what [out_hdr] holds.  The header that was
    read is overwritten with [*out_hdr], which stays as it was. *)
Definition parseHeader (fd : Z) (out_hdr : list Z) w : outcome (Z * list Z * TarWorld W M P) :=
  '(header_str, w) ← kmalloc SIZEOF_USTAR w;
  match header_str with
  | NullBuf =>
      w ← print (chars "%rERROR: Could not allocate header buffer%r" ++ [10]) [ArgInt RED; ArgInt WHITE] w;
      w ← kfree NullBuf w; mret (-1, out_hdr, w)
  | _ =>
      '(header_str, w) ← read_into fd header_str SIZEOF_USTAR w;
      hdr ← buf_bytes header_str (Z.to_nat SIZEOF_USTAR) w;
      w ← kfree header_str w;
      mret (if t_magic0 hdr =? 0 then 1 else 0, out_hdr, w)
  end.

(** The loop of [catFile] and [extractFile]: the header of the entry, or
    [None] when the archive ended. *)
Fixpoint find_entry (fuel : nat) (filename : list Z) (fd : Z) (header : Buf) (hdr : list Z) (offset : Z) w :
    outcome (option (list Z) * Buf * TarWorld W M P) :=
  match fuel with
  | O => Halt
  | S fuel' =>
      if bool_decide (filename = t_file_name hdr) then mret (Some hdr, header, w) else
      '(_, w) ← read_into fd NullBuf offset w;
      '(header, w) ← read_into fd header 512 w;
      hdr ← buf_bytes header 512 w;
      if t_magic0 hdr =? 0 then
        w ← print (chars "%rFile not in archive%r" ++ [10]) [ArgInt RED; ArgInt WHITE] w;
        w ← kfree header w;
        w ← close w fd;
        mret (None, header, w)
      else
      w ← sleep10 w;
      find_entry fuel' filename fd header hdr (dataSizeWithPadding (data_size hdr)) w
  end.

(** From [kmalloc] of the content to its terminator, the same in both functions;
    [None] when there was no memory. *)
Definition load_content (fd : Z) (header : Buf) (hdr : list Z) w : outcome (option (Z * list Z) * TarWorld W M P) :=
  let size := data_size hdr in
  '(content, w) ← kmalloc (u64 (size + 1)) w;
  match content with
  | NullBuf =>
      w ← print (chars "%rCould not allocate buffer for file%r" ++ [10]) [ArgInt RED; ArgInt WHITE] w;
      w ← kfree header w; w ← close w fd; mret (None, w)
  | HeapBuf p _ =>
      w ← sleep10 w;
      '(content, w) ← read_into fd content size w;
      match content with
      | NullBuf => Fault
      | HeapBuf p bs => bs ← store bs size 0; w ← sleep10 w; mret (Some (p, bs), w)
      end
  end.

Definition catFile (fuel : nat) (archive filename : list Z) w : outcome (TarWorld W M P) :=
  '(fd, v) ← Vfs.open archive (vfs (tw w));
  let w := with_vfs' w v in
  if fd <? 0 then no_archive archive w else
  '(header, w) ← kmalloc SIZEOF_USTAR w;
  '(found, header, w) ← find_entry fuel filename fd header (replicate 512 0) 0 w;
  match found with
  | None => mret w
  | Some hdr =>
      '(content, w) ← load_content fd header hdr w;
      match content with
      | None => mret w
      | Some (p, bs) =>
          w ← print (chars "%s" ++ [10]) [ArgStr (Some bs)] w;
          w ← kfree header w; w ← kfree (HeapBuf p bs) w; close w fd
      end
  end.

Definition extractFile (fuel : nat) (archive filename target_file : list Z) w : outcome (TarWorld W M P) :=
  '(fd, v) ← Vfs.open archive (vfs (tw w));
  let w := with_vfs' w v in
  if fd <? 0 then no_archive archive w else
  '(header, w) ← kmalloc SIZEOF_USTAR w;
  '(found, header, w) ← find_entry fuel filename fd header (replicate 512 0) 0 w;
  match found with
  | None => mret w
  | Some hdr =>
      '(content, w) ← load_content fd header hdr w;
      match content with
      | None => mret w
      | Some (p, bs) =>
          '(ok, v) ← Vfs.create target_file false (vfs (tw w));
          let w := with_vfs' w v in
          if negb ok then
            w ← print (chars "%rERROR: could not create output file%r" ++ [10]) [ArgInt RED; ArgInt WHITE] w;
            w ← close w fd; w ← kfree header w; kfree (HeapBuf p bs) w
          else
          '(out_fd, v) ← Vfs.open target_file (vfs (tw w));
          let size := data_size hdr in
          '(_, v) ← Vfs.write out_fd (take (Z.to_nat size) bs) v;
          let w := with_vfs' w v in
          w ← kfree header w; w ← kfree (HeapBuf p bs) w; w ← close w fd; close w out_fd
      end
  end.

(** ** Archives *)

(** An entry: its header and the bytes of the file. *)
Record Entry := mkEnt { e_hdr : list Z; e_data : list Z }.

Record entry_ok (e : Entry) : Prop := {
  eo_length : length (e_hdr e) = 512%nat;
  eo_size : data_size (e_hdr e) = Z.of_nat (length (e_data e));
  eo_magic : t_magic0 (e_hdr e) <> 0;
  eo_small : Z.of_nat (length (e_data e)) < 2 ^ 40;
}.

Definition padded (e : Entry) : list Z :=
  e_data e ++ replicate (Z.to_nat (dataSizeWithPadding (Z.of_nat (length (e_data e)))) - length (e_data e)) 0.

(** The entries one after the other and the two empty blocks at the end. *)
Definition archive_of (es : list Entry) : list Z := concat ((fun e => e_hdr e ++ padded e) <$> es) ++ replicate 1024 0.

Lemma archive_cons e es : archive_of (e :: es) = e_hdr e ++ padded e ++ archive_of es.
Proof. unfold archive_of. rewrite fmap_cons. cbn [concat]. by rewrite <- !app_assoc. Qed.

Lemma padding_range n : 0 <= n < 2 ^ 40 -> n <= dataSizeWithPadding n < n + 512.
Proof.
  intros Hn. unfold dataSizeWithPadding. pose proof (Z.mod_pos_bound (512 - n mod 512) 512). rewrite u64_small by lia. lia.
Qed.

Lemma length_padded e : entry_ok e -> Z.of_nat (length (padded e)) = dataSizeWithPadding (data_size (e_hdr e)).
Proof.
  intros [_ Hs _ Hsm]. unfold padded. rewrite length_app, length_replicate, Hs.
  pose proof (padding_range (Z.of_nat (length (e_data e)))). lia.
Qed.

(** The next [k] sleeps of ten milliseconds end. *)
Fixpoint naps (k : nat) (c : list Z) : Prop :=
  match k with O => True | S k' => exists c', sleepMiliseconds 10 c = Ok c' /\ naps k' c' end.

Lemma naps_split a b c : naps (a + b) c -> naps a c.
Proof. revert c. induction a as [|a IH]; intros c; [done|]. cbn. intros (c' & E1 & Hn). exists c'. split; [done|]. by apply IH. Qed.

Section Archive.
Context (v0 : Vfs W) (ms : list (Mount W)) (wd : W) (mi : nat) (mt : Mount W) (fh : FileHandle) (fd : Z) (content : list Z).
Context (Hmt : ms !! mi = Some mt) (Hslices : reads_slices (driver mt) (fs_instance mt) fh wd content).
Context (Hsize : Z.of_nat (length content) < 2 ^ 60) (Hbytes : bytes_ok content).
(** Room at address 0 for the data that is skipped. *)
Context (skip : Z).

(** The archive is open at a position where [rest] follows. *)
Definition at_rest (rest : list Z) w : Prop :=
  exists off, file_at v0 ms wd mi fh fd off (vfs (tw w)) /\ 0 <= off <= Z.of_nat (length content) /\ drop (Z.to_nat off) content = rest.

(** What the functions need of the memory. *)
Definition mem_ok w : Prop := us_ok (space (tw w)) /\ mapped_range (space (tw w)) 0 skip.

(** The terminal is as in [w] and the memory no worse. *)
Definition quiet w w' : Prop := term (tw w') = term (tw w) /\ us_room (space (tw w')) = us_room (space (tw w)).

(** Reading consumes what follows. *)
Lemma read_rest a rest w : at_rest (a ++ rest) w -> exists v', Vfs.read fd (Z.of_nat (length a)) (vfs (tw w)) = Ok (Z.of_nat (length a), a, v') /\
  at_rest rest (with_vfs' w v') /\ bytes_ok a.
Proof.
  intros (off & Hf & Ho & Hd).
  assert (Hl : length (drop (Z.to_nat off) content) = length (a ++ rest)) by by rewrite Hd.
  rewrite length_drop, length_app in Hl.
  assert (Hdata : take (Z.to_nat (Z.of_nat (length a))) (drop (Z.to_nat off) content) = a).
  { rewrite Nat2Z.id, Hd. by rewrite take_app_length. }
  destruct (read_step v0 ms wd mi mt fh fd content Hmt Hslices ltac:(lia) off (Z.of_nat (length a)) (vfs (tw w)) Hf)
    as (v' & E1 & F1); [lia | rewrite Hdata; lia |]. rewrite Hdata in E1, F1.
  exists v'. split; [done|]. split.
  - exists (off + Z.of_nat (length a)). split; [done|]. split; [lia|].
    replace (Z.to_nat (off + Z.of_nat (length a))) with (Z.to_nat off + length a)%nat by lia.
    rewrite <- drop_drop, Hd. by rewrite drop_app_length.
  - rewrite <- Hdata. apply list.Forall_take, list.Forall_drop. exact Hbytes.
Qed.

Lemma read_header hdr rest p old w : at_rest (hdr ++ rest) w -> length hdr = 512%nat -> length old = 512%nat ->
  exists w', read_into fd (HeapBuf p old) 512 w = Ok (HeapBuf p hdr, w') /\ at_rest rest w' /\
    space (tw w') = space (tw w) /\ term (tw w') = term (tw w) /\ clock w' = clock w.
Proof.
  intros Hr Hl Ho. destruct (read_rest hdr rest w Hr) as (v' & E1 & Hr' & _). rewrite Hl in E1. change (Z.of_nat 512) with 512 in E1.
  unfold read_into. run_call E1. rewrite splice_ok by lia. cbn [mbind outcome_bind].
  exists (with_vfs' w v'). split; [|done]. do 3 f_equal. cbn. rewrite drop_ge by lia. by rewrite app_nil_r.
Qed.

Lemma read_skip data rest w : at_rest (data ++ rest) w -> mem_ok w -> Z.of_nat (length data) <= skip ->
  exists w', read_into fd NullBuf (Z.of_nat (length data)) w = Ok (NullBuf, w') /\ at_rest rest w' /\ mem_ok w' /\
    quiet w w' /\ clock w' = clock w.
Proof.
  intros Hr [Hok Hm] Hl. destruct (read_rest data rest w Hr) as (v' & E1 & Hr' & Hb). unfold read_into. run_call E1. cbn [with_vfs' with_tw tw with_vfs space].
  destruct (poke_all_ok 0 data (space (tw w)) Hok) as (m' & E2 & O2 & R2 & P2 & _); [|done|].
  { intros x Hx. apply Hm. lia. }
  run_call E2. eexists. split; [done|]. split; [done|]. split; [split; [done|]|done]. intros x Hx. cbn. rewrite P2. by apply Hm.
Qed.

Definition fits (e : Entry) : Prop := entry_ok e /\ Z.of_nat (length (padded e)) <= skip.

(** One round of the search, up to the test of the next name. *)
Lemma find_round fuel filename p old hdr skipd e rest w : filename <> t_file_name hdr -> entry_ok e ->
  at_rest (skipd ++ e_hdr e ++ rest) w -> Z.of_nat (length skipd) <= skip -> length old = 512%nat -> mem_ok w ->
  (exists c', sleepMiliseconds 10 (clock w) = Ok c') ->
  exists w', find_entry (S fuel) filename fd (HeapBuf p old) hdr (Z.of_nat (length skipd)) w =
      find_entry fuel filename fd (HeapBuf p (e_hdr e)) (e_hdr e) (dataSizeWithPadding (data_size (e_hdr e))) w' /\
    at_rest rest w' /\ mem_ok w' /\ quiet w w' /\ sleepMiliseconds 10 (clock w) = Ok (clock w').
Proof.
  intros Hne [Hl Hs Hmag _] Hr Hsk Ho Hm (c' & Hc). cbn [find_entry]. rewrite bool_decide_eq_false_2 by done.
  destruct (read_skip skipd _ w Hr Hm Hsk) as (w1 & E1 & R1 & M1 & Q1 & C1). run_call E1.
  destruct (read_header (e_hdr e) rest p old w1 R1 Hl Ho) as (w2 & E2 & R2 & S2 & T2 & C2). run_call E2.
  unfold buf_bytes. rewrite slice_ok by lia. cbn [mbind outcome_bind]. change (Z.to_nat 0) with 0%nat. rewrite drop_0, take_ge by lia.
  rewrite (proj2 (Z.eqb_neq _ 0) Hmag). unfold sleep10. rewrite C2, C1, Hc. cbn [mbind outcome_bind mret outcome_ret].
  eexists. split; [done|]. split; [exact R2|]. cbn [tw clock]. unfold mem_ok, quiet in *. cbn [tw]. rewrite S2, T2. done.
Qed.

Lemma find_entry_ok es1 e es2 filename p k : forall fuel hdr skipd old w,
  Forall fits es1 -> entry_ok e -> Forall (fun x => filename <> t_file_name (e_hdr x)) es1 -> filename = t_file_name (e_hdr e) ->
  filename <> t_file_name hdr -> at_rest (skipd ++ archive_of (es1 ++ e :: es2)) w -> Z.of_nat (length skipd) <= skip ->
  length old = 512%nat -> mem_ok w -> naps (S (length es1) + k) (clock w) -> (length es1 + 2 <= fuel)%nat ->
  exists w', find_entry fuel filename fd (HeapBuf p old) hdr (Z.of_nat (length skipd)) w = Ok (Some (e_hdr e), HeapBuf p (e_hdr e), w') /\
    at_rest (padded e ++ archive_of es2) w' /\ mem_ok w' /\ quiet w w' /\ naps k (clock w').
Proof.
  induction es1 as [|x es1 IH]; intros fuel hdr skipd old w Hfit He Hne Heq Hh Hr Hsk Ho Hm Hn Hfu;
    (destruct fuel as [|fuel]; [simpl in Hfu; lia|]); cbn [app length Nat.add naps] in *; rewrite archive_cons in Hr;
    destruct Hn as (c' & Hc & Hn).
  - destruct (find_round fuel filename p old hdr skipd e _ w Hh He Hr Hsk Ho Hm) as (w1 & -> & R1 & M1 & Q1 & C1); [by exists c'|].
    assert (clock w1 = c') as Hcw by congruence. rewrite <- Hcw in Hn. destruct fuel as [|fuel]; [lia|]. cbn [find_entry]. rewrite bool_decide_eq_true_2 by done.
    by exists w1.
  - apply Forall_cons_iff in Hfit as [[Hx Hxs] Hfit]. apply Forall_cons_iff in Hne as [Hnx Hne].
    destruct (find_round fuel filename p old hdr skipd x _ w Hh Hx Hr Hsk Ho Hm) as (w1 & -> & R1 & M1 & Q1 & C1); [by exists c'|].
    assert (clock w1 = c') as Hcw by congruence. rewrite <- Hcw in Hn. rewrite <- (length_padded x Hx).
    destruct (IH fuel (e_hdr x) (padded x) (e_hdr x) w1) as (w2 & E2 & R2 & M2 & Q2 & N2); try done; [apply Hx | lia |].
    exists w2. split; [done|]. split; [done|]. split; [done|]. split; [|done]. destruct Q1, Q2. split; congruence.
Qed.

(** The content of the entry that was found, with a terminator. *)
Lemma load_content_ok header e rest w : (forall n, length (junk n) = n) -> entry_ok e -> at_rest (padded e ++ rest) w -> mem_ok w ->
  (1 <= us_room (space (tw w)))%nat -> naps 2 (clock w) ->
  exists p w', load_content fd header (e_hdr e) w = Ok (Some (p, e_data e ++ [0]), w') /\ p <> 0 /\ us_ok (space (tw w')) /\
    term (tw w') = term (tw w) /\ exists rest', at_rest rest' w'.
Proof.
  intros Hj [Hl Hs Hmag Hsm] Hr [Hok Hm] Hroom (c1 & Hc1 & c2 & Hc2 & _). unfold load_content. rewrite Hs.
  set (n := length (e_data e)) in *. unfold kmalloc. rewrite u64_small by lia.
  destruct (us_kmalloc_spec (Z.of_nat n + 1) (space (tw w)) Hok) as (p & m1 & E1 & O1 & _ & Hp & P1 & _).
  run_call E1. rewrite (proj2 (Z.eqb_neq p 0)) by (apply Hp; lia). cbn [mbind outcome_bind mret outcome_ret].
  unfold sleep10. cbn [clock with_mem with_tw]. run_call Hc1.
  assert (Hr1 : at_rest (e_data e ++ (replicate (Z.to_nat (dataSizeWithPadding (Z.of_nat n)) - n) 0 ++ rest))
    (mkTar (tw (with_mem w m1)) c1)) by (destruct Hr as (off & F & Ho & Hd); exists off; split; [exact F|]; split; [done|];
      rewrite Hd; unfold padded; fold n; by rewrite app_assoc).
  destruct (read_rest (e_data e) _ _ Hr1) as (v' & E2 & Hr2 & _). fold n in E2. unfold read_into. run_call E2.
  rewrite splice_ok; [|lia|rewrite Hj; lia]. cbn [mbind outcome_bind mret outcome_ret]. change (Z.to_nat 0) with 0%nat. rewrite take_0, Nat.add_0_l, app_nil_l.
  assert (Hdr : length (drop n (junk (Z.to_nat (Z.of_nat n + 1)))) = 1%nat) by (rewrite length_drop, Hj; lia). fold n.
  destruct (drop n (junk (Z.to_nat (Z.of_nat n + 1)))) as [|j [|j' l]] eqn:Ej; try (simpl in Hdr; lia).
  rewrite store_in_range by (rewrite length_app; simpl; fold n; lia). cbn [mbind outcome_bind]. rewrite Nat2Z.id.
  unfold n at 1. rewrite <- (Nat.add_0_r (length (e_data e))), insert_app_r. cbn [insert list_insert].
  cbn [clock with_vfs' with_tw]. run_call Hc2. eexists p, _. split; [done|]. split_and!; try done; [apply Hp; lia|].
  eexists. exact Hr2.
Qed.

End Archive.

Lemma until_nul_terminated s : until_nul (s ++ [0]) = until_nul s.
Proof. induction s as [|c s IH]; [done|]. cbn. destruct (c =? 0); [done | by rewrite IH]. Qed.

Lemma print_line_ok bs w s : shows (term (tw w)) s -> (length s.2 < 80)%nat ->
  exists t', print (chars "%s" ++ [10]) [ArgStr (Some bs)] w = Ok (with_tw w (mkWorld (vfs (tw w)) (space (tw w)) t')) /\
    shows t' (type_text (color (term (tw w))) s (until_nul bs ++ [10])).
Proof.
  intros Hs Hl. unfold print.
  assert (Hp : printf (chars "%s" ++ [10]) [ArgStr (Some bs)] (term (tw w)) = write (until_nul bs ++ [10]) (term (tw w))).
  { destruct (printf_piece (Str (Some bs)) I) as (ds & Hd & Hz & Hpp). cbn [renders] in Hd. change (default (chars "(null)") (Some bs)) with bs in Hd. subst ds.
    specialize (Hpp [10] [] (term (tw w))). cbn [format_of args_of app] in Hpp. cbn [app]. rewrite Hpp, write_app by done.
    destruct (write (until_nul bs) (term (tw w))) as [t1| |]; [|done..]. cbn [mbind outcome_bind]. cbn [printf Z.eqb].
    by destruct (write [10] t1). }
  rewrite Hp, write_chars by (apply Forall_app; split; [apply until_nul_nonzero | by repeat constructor]).
  destruct (foldM_putChar_ok (until_nul bs ++ [10]) (term (tw w)) s Hl Hs) as (t' & Et & Hsh & _). run_call Et. by exists t'.
Qed.

Lemma tar_kfree_ok b w : us_ok (space (tw w)) -> exists m', kfree b w = Ok (with_mem w m') /\ us_ok m'.
Proof.
  intros Hok. unfold kfree. destruct (us_kfree_spec (match b with NullBuf => 0 | HeapBuf p _ => p end) _ Hok) as (m' & E1 & O1 & _).
  run_call E1. by exists m'.
Qed.

(** [catFile] prints the file of that name in an archive: for an archive
    of well-formed entries, closed by empty blocks, the first entry with the
    name is found past the entries before it, its bytes are typed on the
    terminal up to the first zero and followed by a newline, and the archive
    is closed again.  The data of the entries before it is read to address 0,
    where [skip] bytes must be mapped. *)
Theorem cat_prints_entry w archive filename fuel fd mi mt fh wd wd' es1 e es2 s skip :
  let content := archive_of (es1 ++ e :: es2) in
  opens (vfs (tw w)) archive fd mi mt fh wd content -> drv_close (driver mt) (fs_instance mt) fh wd = Ok wd' ->
  bytes_ok content -> Z.of_nat (length content) < 2 ^ 60 -> (forall n, length (junk n) = n) ->
  Forall (fits skip) es1 -> entry_ok e -> Forall (fun x => filename <> t_file_name (e_hdr x)) es1 ->
  filename = t_file_name (e_hdr e) -> filename <> [] -> 0 <= skip -> us_ok (space (tw w)) -> mapped_range (space (tw w)) 0 skip ->
  (2 <= us_room (space (tw w)))%nat -> naps (length es1 + 3) (clock w) -> (length es1 + 2 <= fuel)%nat ->
  shows (term (tw w)) s -> (length s.2 < 80)%nat ->
  exists w', catFile fuel archive filename w = Ok w' /\
    shows (term (tw w')) (type_text (color (term (tw w))) s (until_nul (e_data e) ++ [10])) /\
    world (vfs (tw w')) = wd' /\ forall fd', get_file fd' (vfs (tw w')) = get_file fd' (vfs (tw w)).
Proof.
  intros content Hop Hclose Hb Hlen Hj Hfit He Hne Heq Hnil Hsk Hok Hm Hroom Hnap Hfuel Hsh Hl.
  destruct (open_file_at _ _ _ _ _ _ _ _ Hop) as (v1 & E1 & Hnone & Hfd & F1). pose proof Hop as [_ _ Hmt _ Hsl].
  unfold catFile. run_call E1. rewrite (proj2 (Z.ltb_ge (Z.of_nat fd) 0)) by lia. unfold kmalloc.
  cbn [with_vfs' with_tw tw with_vfs space].
  destruct (us_kmalloc_spec SIZEOF_USTAR (space (tw w)) Hok) as (p & m2 & E2 & O2 & R2 & Hp & P2 & _). run_call E2.
  rewrite (proj2 (Z.eqb_neq p 0)) by (apply Hp; lia). change (Z.to_nat SIZEOF_USTAR) with 512%nat.
  set (w2 := with_mem _ m2).
  assert (Hr2 : at_rest (vfs (tw w)) (g_mounts (vfs (tw w))) wd mi fh (Z.of_nat fd) content ([] ++ archive_of (es1 ++ e :: es2)) w2).
  { exists 0. split; [exact F1|]. split; [lia|]. done. }
  assert (Hm2 : mem_ok skip w2) by (split; [exact O2|]; intros x Hx; cbn; rewrite P2; by apply Hm).
  destruct (find_entry_ok (vfs (tw w)) (g_mounts (vfs (tw w))) wd mi mt fh (Z.of_nat fd) content Hmt Hsl Hlen Hb skip es1 e es2 filename p 2 fuel (replicate 512 0) [] (junk 512) w2)
    as (w3 & E3 & R3 & M3 & [T3 Rm3] & N3); try done.
  { replace (S (length es1) + 2)%nat with (length es1 + 3)%nat by lia. exact Hnap. }
  change (Z.of_nat (length [])) with 0 in E3. run_call E3. cbn [space tw w2 with_mem with_tw with_space] in Rm3.
  destruct (load_content_ok (vfs (tw w)) (g_mounts (vfs (tw w))) wd mi mt fh (Z.of_nat fd) content Hmt Hsl Hlen Hb skip (HeapBuf p (e_hdr e)) e _ w3 Hj He R3 M3)
    as (q & w4 & E4 & Hq & O4 & T4 & rest' & off4 & F4 & _); [cbn in Rm3; lia | done |]. run_call E4.
  destruct (print_line_ok (e_data e ++ [0]) w4 s) as (t5 & E5 & S5); [rewrite T4, T3; exact Hsh | done |]. run_call E5.
  rewrite until_nul_terminated, T4, T3 in S5.
  match goal with |- context [kfree (HeapBuf p (e_hdr e)) ?w5] => destruct (tar_kfree_ok (HeapBuf p (e_hdr e)) w5 O4) as (m6 & E6 & O6) end. run_call E6.
  match goal with |- context [kfree ?b ?w6] => destruct (tar_kfree_ok b w6 O6) as (m7 & E7 & O7) end. run_call E7.
  destruct (close_file_at _ _ _ wd' _ mt _ _ _ _ F4 Hmt ltac:(lia) Hnone Hclose) as (v8 & E8 & Hw8 & _ & Hg8).
  unfold close. cbn [with_mem with_tw tw vfs with_space]. run_call E8. eexists. split; [done|]. done.
Qed.

End Tar.

(** ** Writing headers *)

(** [n] in [k] octal digits, as [tar] writes sizes. *)
Fixpoint oct_digits (k : nat) (n : Z) : list Z :=
  match k with O => [] | S k' => oct_digits k' (n / 8) ++ [48 + n mod 8] end.

Lemma oct_digits_loop k n acc rest : 0 <= n < 8 ^ Z.of_nat k -> 0 <= acc -> (acc + 1) * 8 ^ Z.of_nat k < 2 ^ 64 ->
  oct_loop (oct_digits k n ++ rest) acc = oct_loop rest (acc * 8 ^ Z.of_nat k + n).
Proof.
  revert n rest. induction k as [|k IH]; intros n rest Hn Hacc Hb; cbn [oct_digits app].
  - change (8 ^ Z.of_nat 0) with 1 in *. f_equal. lia.
  - replace (Z.of_nat (S k)) with (Z.of_nat k + 1) in * by lia. rewrite Z.pow_add_r in * by lia. change (8 ^ 1) with 8 in *.
    pose proof (Z.pow_pos_nonneg 8 (Z.of_nat k)). rewrite <- app_assoc, IH; [|split; [apply Z.div_pos; lia | apply Z.div_lt_upper_bound; lia] | done | nia].
    cbn [app oct_loop]. pose proof (Z.mod_pos_bound n 8). pose proof (Z.div_mod n 8). pose proof (Z.div_pos n 8).
    assert (n / 8 < 8 ^ Z.of_nat k) by (apply Z.div_lt_upper_bound; lia).
    rewrite (proj2 (Z.eqb_neq _ 0)), (proj2 (Z.eqb_neq _ 32)) by lia. cbn [orb].
    rewrite (proj2 (Z.leb_le 48 _)), (proj2 (Z.leb_le _ 55)) by lia. cbn [andb].
    rewrite (u64_small (_ * 8)) by nia. rewrite u64_small by nia. f_equal. nia.
Qed.

Lemma length_oct_digits k n : length (oct_digits k n) = k.
Proof. revert n. induction k as [|k IH]; intros n; [done|]. cbn. rewrite length_app, IH. simpl. lia. Qed.

(** A header in the ustar format: the name, the size in eleven octal digits
    and the magic; the other fields are left empty. *)
Definition make_header (name : list Z) (n : Z) : list Z :=
  (name ++ replicate (124 - length name) 0) ++ oct_digits 11 n ++ replicate 122 0 ++ chars "ustar" ++ replicate 250 0.

(** What is written is read back: the header of a file with a name of less
    than 100 characters and less than 8 GiB has the name and the size. *)
Theorem make_header_reads_back name data : (length name < 100)%nat -> Forall (fun c => c <> 0) name ->
  Z.of_nat (length data) < 8 ^ 11 ->
  entry_ok (mkEnt (make_header name (Z.of_nat (length data))) data) /\ t_file_name (make_header name (Z.of_nat (length data))) = name.
Proof.
  intros Hn Hz Hd. set (n := Z.of_nat (length data)) in *.
  assert (Hpre : length (name ++ replicate (124 - length name) 0) = 124%nat) by (rewrite length_app, length_replicate; lia).
  assert (Hlen : length (make_header name n) = 512%nat).
  { unfold make_header. rewrite length_app, Hpre, !length_app, !length_replicate, length_oct_digits. done. }
  split.
  - split; cbn [e_hdr e_data]; [done | | | lia].
    + unfold data_size, t_file_size, octToDec, make_header. rewrite drop_app_length' by done.
      rewrite take_take. change (Nat.min (Z.to_nat 12) 12) with 12%nat.
      rewrite (take_app_ge (oct_digits 11 n)) by (rewrite length_oct_digits; lia). rewrite length_oct_digits.
      change (12 - 11)%nat with 1%nat. rewrite oct_digits_loop; [|unfold n; lia | lia | vm_compute; done].
      cbn [replicate app take oct_loop]. cbn. unfold n. lia.
    + unfold t_magic0, make_header. rewrite lookup_app_r by (rewrite Hpre; lia). rewrite Hpre.
      rewrite lookup_app_r by (rewrite length_oct_digits; lia). rewrite length_oct_digits. done.
  - unfold t_file_name, make_header. rewrite <- app_assoc.
    assert (Hu : forall l, until_nul (name ++ 0 :: l) = name).
    { clear -Hz. intros l. induction Hz as [|c name Hc Hz IH]; [done|]. cbn. rewrite (proj2 (Z.eqb_neq c 0) Hc). by rewrite IH. }
    destruct (124 - length name)%nat as [|k] eqn:Ek; [lia|]. cbn [replicate app]. apply Hu.
Qed.

(** ** Witness *)

Definition file_a : Entry := mkEnt (make_header [97] 3) [1; 2; 3].
Definition file_b : Entry := mkEnt (make_header [98] 2) [104; 105].
Definition small_archive : list Z := archive_of [file_a; file_b].

Lemma entry_a_ok : entry_ok file_a.
Proof. apply (make_header_reads_back [97] [1; 2; 3]); [simpl; lia | by repeat constructor | simpl; lia]. Qed.
Lemma entry_b_ok : entry_ok file_b.
Proof. apply (make_header_reads_back [98] [104; 105]); [simpl; lia | by repeat constructor | simpl; lia]. Qed.

(** The clock is read every millisecond, and page 0 is mapped. *)
Definition tar_world : TarWorld unit FlatSpace PortLog :=
  mkTar (mkWorld (file_vfs small_archive) (mkFlat {[0]} ∅ 10) cleared_terminal) (seqZ 0 80).

Lemma cat_prints_entry_witness : exists w', catFile (fun n => replicate n 0) 5 toy_path [98] tar_world = Ok w' /\
  shows (term (tw w')) (type_text 15 ([], []) [104; 105; 10]).
Proof.
  destruct (cat_prints_entry (fun n => replicate n 0) tar_world toy_path [98] 5 0 0 (file_mount small_archive) toy_handle tt tt [file_a] file_b []
    ([], []) 512) as (w' & Ec & Hs & _).
  - apply file_vfs_opens.
  - reflexivity.
  - apply bytes_okb_ok. vm_compute. reflexivity.
  - vm_compute. reflexivity.
  - intros n. apply length_replicate.
  - constructor; [|constructor]. split; [exact entry_a_ok | vm_compute; discriminate].
  - exact entry_b_ok.
  - constructor; [|constructor]. vm_compute. discriminate.
  - vm_compute. reflexivity.
  - discriminate.
  - lia.
  - exact I.
  - intros x Hx. assert (page_of x = 0) as -> by (unfold page_of; apply Z.div_small; lia). reflexivity.
  - apply Nat.leb_le. reflexivity.
  - exists (seqZ 12 68). split; [vm_compute; reflexivity|]. exists (seqZ 24 56). split; [vm_compute; reflexivity|].
    exists (seqZ 36 44). split; [vm_compute; reflexivity|]. exists (seqZ 48 32). split; [vm_compute; reflexivity | exact I].
  - simpl. lia.
  - apply cleared_terminal_shows.
  - simpl. lia.
  - exists w'. split; [exact Ec | exact Hs].
Defined.
