(* ===== verification/ShellLine.v ===== *)
(** The line editor of the shell, [src/src/shell/shell.cpp]: editing keys,
    history, the prompt and the tokenizer.

    [key] is one round of the loop of [run] that finds a character.  What a
    line does when it is entered is the argument [exec] of [key]. *)

From Stdlib Require Import ZifyBool.
From S2P Require Import Prelude Io Libc Format Keyboard Terminal.

Definition LINE_BUFFER_SIZE : Z := 256.
Definition MAX_ARGS : nat := 16.
Definition MAX_HISTORY : nat := 16.

Record Line := mkLine {
  g_line_buffer : list Z;
  g_line_length : Z;
  g_cursor : Z;
  g_prev_render_length : Z;
  g_history : list (list Z);
  g_history_lengths : list Z;
  g_history_count : Z;
  g_history_pos : Z;
  g_input_row : Z;
  g_input_col : Z;
}.

Definition with_text (L : Line) (b : list Z) (n c : Z) : Line :=
  mkLine b n c (g_prev_render_length L) (g_history L) (g_history_lengths L) (g_history_count L) (g_history_pos L)
    (g_input_row L) (g_input_col L).
Definition with_history (L : Line) (h : list (list Z)) (ls : list Z) (n pos : Z) : Line :=
  mkLine (g_line_buffer L) (g_line_length L) (g_cursor L) (g_prev_render_length L) h ls n pos (g_input_row L) (g_input_col L).
Definition with_pos (L : Line) (pos : Z) : Line :=
  with_history L (g_history L) (g_history_lengths L) (g_history_count L) pos.
Definition with_render (L : Line) (n : Z) : Line :=
  mkLine (g_line_buffer L) (g_line_length L) (g_cursor L) n (g_history L) (g_history_lengths L) (g_history_count L)
    (g_history_pos L) (g_input_row L) (g_input_col L).
Definition with_input (L : Line) (r c : Z) : Line :=
  mkLine (g_line_buffer L) (g_line_length L) (g_cursor L) 0 (g_history L) (g_history_lengths L) (g_history_count L)
    (g_history_pos L) r c.

Definition init (L : Line) : Line := with_history (with_text L (g_line_buffer L) 0 0) (g_history L) (g_history_lengths L) 0 0.

(** [for (i = 0; i < n; ++i) dst[i] = src[i];] *)
Definition copy_chars (n : Z) (src dst : list Z) : outcome (list Z) :=
  for_range 0 n (fun i dst => c ← load src i; store dst i c) dst.

Definition loadHistory (index : Z) (L : Line) : outcome Line :=
  len ← load (g_history_lengths L) index;
  h ← load (g_history L) index;
  b ← copy_chars len h (g_line_buffer L);
  mret (with_text L b len len).

(** [g_history[k]] becomes the first [n] characters of [src] over what it was. *)
Definition store_history (k : Z) (src : list Z) (n : Z) (h : list (list Z)) (ls : list Z) : outcome (list (list Z) * list Z) :=
  old ← load h k;
  new ← copy_chars n src old;
  h ← store h k new;
  ls ← store ls k n;
  mret (h, ls).

Definition pushHistory (line : list Z) (length : Z) (L : Line) : outcome Line :=
  if length =? 0 then mret L else
  if g_history_count L <? Z.of_nat MAX_HISTORY then
    '(h, ls) ← store_history (g_history_count L) line length (g_history L) (g_history_lengths L);
    let n := g_history_count L + 1 in mret (with_history L h ls n n)
  else
    '(h, ls) ← for_range 1 (Z.of_nat MAX_HISTORY) (fun k '(h, ls) =>
       n ← load ls k; src ← load h k; store_history (k - 1) src n h ls) (g_history L, g_history_lengths L);
    '(h, ls) ← store_history (Z.of_nat MAX_HISTORY - 1) line length h ls;
    mret (with_history L h ls (g_history_count L) (g_history_count L)).

(** [for (i = cursor - 1; i < length - 1; ++i) buffer[i] = buffer[i + 1];] *)
Definition close_gap (cursor length : Z) (b : list Z) : outcome (list Z) :=
  for_range (cursor - 1) (length - 1) (fun i b => c ← load b (i + 1); store b i c) b.

(** [for (i = length; i > cursor; --i) buffer[i] = buffer[i - 1];] *)
Definition open_gap (cursor length : Z) (b : list Z) : outcome (list Z) :=
  foldM (fun i b => c ← load b (i - 1); store b i c) (reverse (seqZ (cursor + 1) (length - cursor))) b.

(** ** Words *)

Definition is_blank (c : Z) : bool := c =? 32.
Definition is_word (c : Z) : bool := negb (c =? 0) && negb (c =? 32).

(** The loop of [tokenize]: the offsets of the words and the line with the
    blanks behind them replaced by terminators. *)
Fixpoint tokenize_loop (fuel : nat) (max_args : nat) (p : Z) (argv : list Z) (line : list Z) : outcome (list Z * list Z) :=
  match fuel with
  | O => Halt
  | S fuel' =>
      c ← load line p;
      if (c =? 0) || (max_args <=? length argv)%nat then mret (argv, line) else
      p ← skip_while (fuel_of line) is_blank p line;
      c ← load line p;
      if c =? 0 then mret (argv, line) else
      let argv := argv ++ [p] in
      p ← skip_while (fuel_of line) is_word p line;
      c ← load line p;
      if c =? 32 then line ← store line p 0; tokenize_loop fuel' max_args (p + 1) argv line
      else tokenize_loop fuel' max_args p argv line
  end.

Definition tokenize (line : list Z) (max_args : nat) : outcome (list Z * list Z) :=
  tokenize_loop (fuel_of line) max_args 0 [] line.

(** The string [argv[i]] points to. *)
Definition arg_at (line : list Z) (p : Z) : list Z := until_nul (drop (Z.to_nat p) line).

Section Keys.
Context {P : Type} `{PortIO P}.
(** What an entered line does to the rest of the system, [X]. *)
Context {X : Type} (exec : list (list Z) -> X -> Terminal P -> outcome (X * Terminal P)) (g_cwd : X -> list Z).
Implicit Types t : Terminal P.

Definition redraw (L : Line) t : outcome (Line * Terminal P) :=
  let t := setCursor (g_input_row L) (g_input_col L) t in
  t ← for_range 0 (g_line_length L) (fun i t => c ← load (g_line_buffer L) i; putChar c t) t;
  t ← for_range (g_line_length L) (g_prev_render_length L) (fun _ t => putChar 32 t) t;
  mret (with_render L (g_line_length L), setCursor (g_input_row L) (u16 (g_input_col L + g_cursor L)) t).

Definition printPrompt (L : Line) (x : X) t : outcome (Line * Terminal P) :=
  t ← write (chars "WengShiOS:") t;
  t ← write (g_cwd x) t;
  t ← write (chars "> ") t;
  mret (with_input L (row t) (column t), t).

(** [executeLine] tokenizes the line in place and runs the command. *)
Definition executeLine (L : Line) (x : X) t : outcome (Line * X * Terminal P) :=
  '(argv, b) ← tokenize (g_line_buffer L) MAX_ARGS;
  let L := with_text L b (g_line_length L) (g_cursor L) in
  if (length argv =? 0)%nat then mret (L, x, t) else
  '(x, t) ← exec (arg_at b <$> argv) x t;
  mret (L, x, t).

Definition enter (L : Line) (x : X) t : outcome (Line * X * Terminal P) :=
  let t := setCursor (g_input_row L) (u16 (g_input_col L + g_line_length L)) t in
  t ← putChar 10 t;
  b ← store (g_line_buffer L) (g_line_length L) 0;
  let L := with_text L b (g_line_length L) (g_cursor L) in
  L ← pushHistory (g_line_buffer L) (g_line_length L) L;
  '(L, x, t) ← executeLine L x t;
  let L := with_text L (g_line_buffer L) 0 0 in
  t ← write [10] t;
  '(L, t) ← printPrompt L x t;
  mret (L, x, t).

Definition show_cursor (L : Line) t : Terminal P := setCursor (g_input_row L) (u16 (g_input_col L + g_cursor L)) t.

(** The keys other than enter. *)
Definition edit (c : Z) (L : Line) t : outcome (Line * Terminal P) :=
  if c =? 8 then
    if 0 <? g_cursor L then
      b ← close_gap (g_cursor L) (g_line_length L) (g_line_buffer L);
      redraw (with_text L b (g_line_length L - 1) (g_cursor L - 1)) t
    else mret (L, t)
  else if c =? KEY_LEFT then
    if 0 <? g_cursor L then
      let L := with_text L (g_line_buffer L) (g_line_length L) (g_cursor L - 1) in mret (L, show_cursor L t)
    else mret (L, t)
  else if c =? KEY_RIGHT then
    if g_cursor L <? g_line_length L then
      let L := with_text L (g_line_buffer L) (g_line_length L) (g_cursor L + 1) in mret (L, show_cursor L t)
    else mret (L, t)
  else if c =? KEY_UP then
    if 0 <? g_history_pos L then
      let L := with_pos L (g_history_pos L - 1) in
      L ← loadHistory (g_history_pos L) L; redraw L t
    else mret (L, t)
  else if c =? KEY_DOWN then
    if g_history_pos L <? g_history_count L then
      let L := with_pos L (g_history_pos L + 1) in
      L ← (if g_history_pos L =? g_history_count L then mret (with_text L (g_line_buffer L) 0 0)
           else loadHistory (g_history_pos L) L);
      redraw L t
    else mret (L, t)
  else if g_line_length L <? LINE_BUFFER_SIZE - 1 then
    b ← open_gap (g_cursor L) (g_line_length L) (g_line_buffer L);
    b ← store b (g_cursor L) c;
    redraw (with_text L b (g_line_length L + 1) (g_cursor L + 1)) t
  else mret (L, t).

Definition key (c : Z) (L : Line) (x : X) t : outcome (Line * X * Terminal P) :=
  if c =? 10 then enter L x t else '(L, t) ← edit c L t; mret (L, x, t).

(** [run] up to its loop. *)
Definition run_start (L : Line) (x : X) t : outcome (Line * Terminal P) :=
  t ← write ([10] ++ chars "WengShiOS Shell - type 'help' for a list of commands" ++ [10]) t; printPrompt L x t.

(** The rounds of the loop that find a character. *)
Fixpoint keys (cs : list Z) (L : Line) (x : X) t : outcome (Line * X * Terminal P) :=
  match cs with [] => mret (L, x, t) | c :: cs' => '(L, x, t) ← key c L x t; keys cs' L x t end.

End Keys.

(** ** Arrays *)

Lemma copy_chars_ok n src dst : (n <= length src)%nat -> (n <= length dst)%nat ->
  copy_chars (Z.of_nat n) src dst = Ok (take n src ++ drop n dst).
Proof.
  intros Hs Hd. unfold copy_chars.
  destruct (for_range_rule (fun i d => d = take (Z.to_nat i) src ++ drop (Z.to_nat i) dst) 0 (Z.of_nat n)
    (fun i dst => c ← load src i; store dst i c) dst) as (d & E & Hd').
  - lia.
  - done.
  - intros i d Hi ->. destruct (lookup_lt_is_Some_2 src (Z.to_nat i)) as [c Hc]; [lia|].
    rewrite (proj2 (load_ok src i c)) by (split; [lia | done]). cbn [mbind outcome_bind].
    rewrite store_in_range by (rewrite length_app, length_take, length_drop; lia). eexists. split; [done|].
    replace (Z.to_nat (i + 1)) with (S (Z.to_nat i)) by lia. rewrite (take_S_r _ _ c) by done. rewrite <- app_assoc. cbn [app].
    replace (Z.to_nat i) with (length (take (Z.to_nat i) src) + 0)%nat at 1 by (rewrite length_take; lia). rewrite insert_app_r. f_equal.
    destruct (drop (Z.to_nat i) dst) as [|x r] eqn:Ed; [apply (f_equal length) in Ed; rewrite length_drop in Ed; simpl in Ed; lia|].
    cbn. f_equal. replace (S (Z.to_nat i)) with (Z.to_nat i + 1)%nat by lia. rewrite <- drop_drop, Ed. done.
  - rewrite E, Hd'. by rewrite Nat2Z.id.
Qed.

Lemma close_gap_ok l x r rest : let b := l ++ x :: r ++ rest in
  exists y, close_gap (Z.of_nat (S (length l))) (Z.of_nat (length (l ++ x :: r))) b = Ok (l ++ r ++ y :: rest).
Proof.
  intros b. unfold close_gap. rewrite length_app. simpl length.
  replace (Z.of_nat (S (length l)) - 1) with (Z.of_nat (length l)) by lia.
  replace (Z.of_nat (length l + S (length r)) - 1) with (Z.of_nat (length l + length r)) by lia.
  destruct (for_range_rule (fun i d => exists k y, i = Z.of_nat (length l + k) /\ (k <= length r)%nat /\ d = l ++ take k r ++ y :: drop k r ++ rest)
    (Z.of_nat (length l)) (Z.of_nat (length l + length r)) (fun i b => c ← load b (i + 1); store b i c) b) as (d & E & k & y & Hk & _ & ->).
  - lia.
  - exists 0%nat, x. split_and!; [lia | lia | done].
  - intros i d Hi (k & y & -> & Hk & ->). destruct (drop k r) as [|c r'] eqn:Er; [apply (f_equal length) in Er; rewrite length_drop in Er; simpl in Er; lia|].
    assert (Hlt : length (take k r) = k) by (rewrite length_take; lia).
    assert (Hload : load (l ++ take k r ++ y :: (c :: r') ++ rest) (Z.of_nat (length l + k) + 1) = Ok c).
    { apply load_ok. split; [lia|]. replace (Z.to_nat (Z.of_nat (length l + k) + 1)) with (length l + (k + 1))%nat by lia.
      rewrite lookup_app_r by lia. replace (length l + (k + 1) - length l)%nat with (k + 1)%nat by lia.
      rewrite lookup_app_r by lia. rewrite Hlt. by replace (k + 1 - k)%nat with 1%nat by lia. }
    run_call Hload. rewrite store_in_range by (rewrite !length_app, Hlt; simpl; lia). eexists. split; [done|].
    exists (S k), c. split; [lia|]. split; [lia|]. rewrite Nat2Z.id.
    rewrite insert_app_r. replace k with (length (take k r) + 0)%nat at 1 by lia. rewrite insert_app_r. cbn [insert list_insert].
    assert (Hc : r !! k = Some c) by (rewrite <- (Nat.add_0_r k), <- lookup_drop, Er; done).
    rewrite (take_S_r _ _ c Hc). rewrite <- !app_assoc. cbn [app]. do 3 f_equal.
    replace (S k) with (k + 1)%nat by lia. rewrite <- drop_drop, Er. done.
  - assert (k = length r) as -> by lia. rewrite firstn_all, drop_all in E. by exists y.
Qed.

Lemma open_gap_ok l r y rest :
  exists z, open_gap (Z.of_nat (length l)) (Z.of_nat (length (l ++ r))) (l ++ r ++ y :: rest) = Ok (l ++ z :: r ++ rest).
Proof.
  unfold open_gap. rewrite length_app. replace (Z.of_nat (length l + length r) - Z.of_nat (length l)) with (Z.of_nat (length r)) by lia.
  revert y rest. induction r as [|c r IH] using rev_ind; intros y rest.
  - exists y. done.
  - rewrite length_app. simpl length. replace (Z.of_nat (length r + 1)) with (Z.of_nat (length r) + 1) by lia.
    rewrite seqZ_app by lia. rewrite reverse_app.
    assert (Hseq : reverse (seqZ (Z.of_nat (length l) + 1 + Z.of_nat (length r)) 1) = [Z.of_nat (length l) + 1 + Z.of_nat (length r)]).
    { rewrite seqZ_cons by lia. rewrite seqZ_nil by lia. done. }
    rewrite Hseq. cbn [app foldM].
    assert (Hload : load (l ++ (r ++ [c]) ++ y :: rest) (Z.of_nat (length l) + 1 + Z.of_nat (length r) - 1) = Ok c).
    { apply load_ok. split; [lia|]. rewrite <- !app_assoc. rewrite lookup_app_r by lia. rewrite lookup_app_r by lia.
      by replace (Z.to_nat (Z.of_nat (length l) + 1 + Z.of_nat (length r) - 1) - length l - length r)%nat with 0%nat by lia. }
    run_call Hload. rewrite store_in_range by (rewrite !length_app; simpl; lia). cbn [mbind outcome_bind].
    replace (Z.to_nat (Z.of_nat (length l) + 1 + Z.of_nat (length r))) with (length l + (length (r ++ [c]) + 0))%nat by (rewrite length_app; simpl; lia).
    rewrite insert_app_r, insert_app_r. cbn [insert list_insert]. rewrite <- app_assoc. cbn [app].
    destruct (IH c (c :: rest)) as (z & Ez). exists z. rewrite Ez. by rewrite <- app_assoc.
Qed.

(** ** The history *)

Definition holds (h : list (list Z)) (ls : list Z) (k : nat) (s : list Z) : Prop :=
  ls !! k = Some (Z.of_nat (length s)) /\ exists row, h !! k = Some row /\ take (length s) row = s.

Definition arrays_ok (h : list (list Z)) (ls : list Z) : Prop :=
  length h = 16%nat /\ Forall (fun row => length row = 256%nat) h /\ length ls = 16%nat.

(** The arrays hold the lines [hs], the oldest first. *)
Record hist_rep (L : Line) (hs : list (list Z)) : Prop := {
  hr_arrays : arrays_ok (g_history L) (g_history_lengths L);
  hr_count : g_history_count L = Z.of_nat (length hs);
  hr_max : (length hs <= 16)%nat;
  hr_lines : forall k s, hs !! k = Some s -> (length s <= 255)%nat /\ holds (g_history L) (g_history_lengths L) k s;
}.

Lemma arrays_row h ls k : arrays_ok h ls -> (k < 16)%nat -> exists row, h !! k = Some row /\ length row = 256%nat.
Proof.
  intros (Hl & Hrows & _) Hk. destruct (lookup_lt_is_Some_2 h k) as [row Hr]; [lia|]. exists row. split; [done|].
  rewrite Forall_forall in Hrows. apply Hrows, list_elem_of_In, (list_elem_of_lookup_2 _ k). done.
Qed.

Lemma store_history_ok k s src h ls : arrays_ok h ls -> (k < 16)%nat -> (length s <= 255)%nat -> (length s <= length src)%nat ->
  take (length s) src = s ->
  exists h' ls', store_history (Z.of_nat k) src (Z.of_nat (length s)) h ls = Ok (h', ls') /\ arrays_ok h' ls' /\ holds h' ls' k s /\
    forall j s', j <> k -> holds h ls j s' -> holds h' ls' j s'.
Proof.
  intros Ha Hk Hs Hsrc Ht. destruct (arrays_row h ls k Ha Hk) as (row & Hr & Hrl). destruct Ha as (Hl & Hrows & Hll).
  unfold store_history. rewrite (proj2 (load_ok h (Z.of_nat k) row)) by (rewrite Nat2Z.id; split; [lia | done]). cbn [mbind outcome_bind].
  rewrite copy_chars_ok by lia. cbn [mbind outcome_bind]. rewrite Ht. rewrite store_in_range by lia. cbn [mbind outcome_bind].
  rewrite store_in_range by lia. cbn [mbind outcome_bind]. rewrite Nat2Z.id. eexists _, _. split; [done|].
  split; [|split].
  - split_and!; [by rewrite length_insert | | by rewrite length_insert]. apply Forall_insert; [done|]. rewrite length_app, length_drop. lia.
  - split; [apply list_lookup_insert_eq; lia|]. eexists. split; [apply list_lookup_insert_eq; lia|]. by rewrite take_app_length.
  - intros j s' Hne [H1 (row' & H2 & H3)]. split; [by rewrite list_lookup_insert_ne|]. exists row'. by rewrite list_lookup_insert_ne.
Qed.

(** The history after a line was entered. *)
Definition remember (hs : list (list Z)) (s : list Z) : list (list Z) :=
  if (length s =? 0)%nat then hs else if (length hs <? 16)%nat then hs ++ [s] else tail hs ++ [s].

(** Moving every line one place down. *)
Lemma shift_history_ok hs h ls : arrays_ok h ls -> length hs = 16%nat -> Forall (fun s => (length s <= 255)%nat) hs ->
  (forall k s, hs !! k = Some s -> holds h ls k s) ->
  exists h' ls', for_range 1 16 (fun k '(h, ls) => n ← load ls k; src ← load h k; store_history (k - 1) src n h ls) (h, ls) = Ok (h', ls') /\
    arrays_ok h' ls' /\ forall k s, hs !! S k = Some s -> holds h' ls' k s.
Proof.
  intros Ha Hl Hsm Hh.
  destruct (for_range_rule (fun i '(h', ls') => arrays_ok h' ls' /\
      (forall k s, hs !! S k = Some s -> (S k < Z.to_nat i)%nat -> holds h' ls' k s) /\
      (forall k s, hs !! k = Some s -> (Z.to_nat i <= k)%nat -> holds h' ls' k s)) 1 16
    (fun k '(h, ls) => n ← load ls k; src ← load h k; store_history (k - 1) src n h ls) (h, ls)) as ([h' ls'] & E & Ha' & Hlow & _).
  - lia.
  - split_and!; [done | intros k s _ Hk; change (Z.to_nat 1) with 1%nat in Hk; lia | intros k s Hk _; by apply Hh].
  - intros i [h1 ls1] Hi (Ha1 & Hlow & Hhigh). destruct (lookup_lt_is_Some_2 hs (Z.to_nat i)) as [s Hs]; [lia|].
    destruct (Hhigh _ s Hs ltac:(lia)) as (Hlen & row & Hrow & Ht).
    assert (Hssm : (length s <= 255)%nat) by (rewrite Forall_forall in Hsm; apply Hsm, list_elem_of_In, (list_elem_of_lookup_2 _ _ _ Hs)).
    rewrite (proj2 (load_ok ls1 i _)) by (split; [lia | done]). cbn [mbind outcome_bind].
    rewrite (proj2 (load_ok h1 i _)) by (split; [lia | done]). cbn [mbind outcome_bind].
    destruct (arrays_row h1 ls1 (Z.to_nat i) Ha1) as (row' & Hrow' & Hrl); [lia|]. assert (row' = row) as -> by congruence.
    replace (i - 1) with (Z.of_nat (Z.to_nat i - 1)) by lia.
    destruct (store_history_ok (Z.to_nat i - 1) s row h1 ls1 Ha1) as (h2 & ls2 & E2 & Ha2 & Hk2 & Ho2); [lia | done | lia | done |].
    exists (h2, ls2). split; [done|]. split; [done|]. split.
    + intros k s' Hk Hki. destruct (decide (k = Z.to_nat i - 1)%nat) as [->|Hne].
      * assert (s' = s) as -> by (replace (S (Z.to_nat i - 1)) with (Z.to_nat i) in Hk by lia; congruence). done.
      * apply Ho2; [done|]. apply Hlow; [done | lia].
    + intros k s' Hk Hki. apply Ho2; [lia|]. apply Hhigh; [done | lia].
  - exists h', ls'. split; [done|]. split; [done|]. intros k s Hk. apply Hlow; [done|]. apply lookup_lt_Some in Hk. lia.
Qed.

Lemma lines_small L hs : hist_rep L hs -> Forall (fun s => (length s <= 255)%nat) hs.
Proof.
  intros Hr. apply Forall_forall. intros s Hs. apply list_elem_of_In, list_elem_of_lookup in Hs as [k Hk]. by apply (hr_lines _ _ Hr k s).
Qed.

Lemma pushHistory_ok L hs s line : hist_rep L hs -> (length s <= 255)%nat -> (length s <= length line)%nat -> take (length s) line = s ->
  exists L', pushHistory line (Z.of_nat (length s)) L = Ok L' /\ hist_rep L' (remember hs s) /\
    (s <> [] -> g_history_pos L' = g_history_count L') /\ (s = [] -> L' = L) /\
    g_line_buffer L' = g_line_buffer L /\ g_line_length L' = g_line_length L /\ g_cursor L' = g_cursor L /\
    g_input_row L' = g_input_row L /\ g_input_col L' = g_input_col L /\ g_prev_render_length L' = g_prev_render_length L.
Proof.
  intros Hr Hs Hl Ht. pose proof (lines_small L hs Hr) as Hsm. pose proof Hr as [Ha Hc Hm Hlines]. unfold pushHistory, remember.
  destruct (Nat.eqb_spec (length s) 0) as [E0|E0].
  { rewrite E0. exists L. split; [done|]. split; [done|]. split_and!; try done. intros Hne. by destruct s. }
  rewrite (proj2 (Z.eqb_neq _ 0)) by lia. rewrite Hc. unfold MAX_HISTORY. change (Z.of_nat 16) with 16.
  destruct (Nat.ltb_spec (length hs) 16) as [Hlt|Hge].
  - rewrite (proj2 (Z.ltb_lt _ 16)) by lia.
    destruct (store_history_ok (length hs) s line _ _ Ha Hlt Hs Hl Ht) as (h' & ls' & E1 & Ha' & Hk & Ho). run_call E1.
    eexists. split; [done|]. split; [|split_and!; try done; by intros ->].
    split; [done | cbn; rewrite length_app; simpl; lia | rewrite length_app; simpl; lia |].
    intros k s' Hk'. cbn. apply lookup_app_Some in Hk' as [Hk'|[Hge Hk']].
    + destruct (Hlines k s' Hk') as [? Hh]. split; [done|]. apply Ho; [|done]. apply lookup_lt_Some in Hk'. lia.
    + destruct (k - length hs)%nat eqn:Ek; [|done]. injection Hk' as <-. split; [done|]. by replace k with (length hs) by lia.
  - rewrite (proj2 (Z.ltb_ge _ 16)) by lia. assert (H16 : length hs = 16%nat) by lia.
    destruct (shift_history_ok hs _ _ Ha H16 Hsm) as (h1 & ls1 & E1 & Ha1 & Hk1); [intros k s' Hk'; by apply Hlines|]. run_call E1.
    destruct (store_history_ok 15 s line _ _ Ha1 ltac:(lia) Hs Hl Ht) as (h2 & ls2 & E2 & Ha2 & Hk2 & Ho2).
    change (16 - 1) with (Z.of_nat 15). run_call E2.
    eexists. split; [done|]. split; [|split_and!; try done; by intros ->].
    destruct hs as [|s0 hs]; [done|]. cbn [tail]. simpl in H16.
    split; [done | cbn; rewrite length_app; simpl; lia | rewrite length_app; simpl; lia |].
    intros k s' Hk'. cbn. apply lookup_app_Some in Hk' as [Hk'|[Hge' Hk']].
    + destruct (Hlines (S k) s' Hk') as [? _]. split; [done|]. apply Ho2; [apply lookup_lt_Some in Hk'; lia|]. by apply Hk1.
    + destruct (k - length hs)%nat eqn:Ek; [|done]. injection Hk' as <-. split; [done|]. by replace k with 15%nat by lia.
Qed.

(** ** Words of a line *)

(** The words of a text, [w] being the letters read of the next one. *)
Fixpoint words_from (w l : list Z) : list (list Z) :=
  match l with
  | [] => match w with [] => [] | _ => [w] end
  | c :: l' => if c =? 32 then match w with [] => words_from [] l' | _ => w :: words_from [] l' end else words_from (w ++ [c]) l'
  end.
Definition words (l : list Z) : list (list Z) := words_from [] l.

Definition no_blank (w : list Z) : Prop := Forall (fun c => c <> 32) w.

Lemma words_from_word w v l : no_blank v -> words_from w (v ++ l) = words_from (w ++ v) l.
Proof.
  intros Hv. revert w. induction Hv as [|c v Hc Hv IH]; intros w; [by rewrite app_nil_r|]. cbn [app words_from].
  rewrite (proj2 (Z.eqb_neq c 32)) by done. by rewrite IH, <- app_assoc.
Qed.

Lemma words_blanks b l : Forall (fun c => c = 32) b -> words (b ++ l) = words l.
Proof. unfold words. induction 1 as [|c b -> Hb IH]; [done|]. cbn [app words_from]. exact IH. Qed.

Lemma words_cons w l : w <> [] -> no_blank w -> words (w ++ 32 :: l) = w :: words l.
Proof. intros Hne Hw. unfold words. rewrite words_from_word by done. cbn. by destruct w. Qed.

Lemma words_last w : w <> [] -> no_blank w -> words w = [w].
Proof. intros Hne Hw. rewrite <- (app_nil_r w) at 1. unfold words. rewrite words_from_word by done. cbn. by destruct w. Qed.

(** Splitting off the longest prefix that satisfies a test. *)
Lemma span_split (cond : Z -> bool) l : exists l1 l2, l = l1 ++ l2 /\ Forall (fun c => cond c = true) l1 /\
  (l2 = [] \/ exists c l3, l2 = c :: l3 /\ cond c = false).
Proof.
  induction l as [|c l (l1 & l2 & -> & H1 & H2)]; [exists [], []; split_and!; [done | constructor | by left]|].
  destruct (cond c) eqn:Ec; [exists (c :: l1), l2; split_and!; [done | by constructor | done]|].
  exists [], (c :: l1 ++ l2). split_and!; [done | constructor |]. right. by exists c, (l1 ++ l2).
Qed.

Lemma load_app {A} (pre : list A) c l : load (pre ++ c :: l) (Z.of_nat (length pre)) = Ok c.
Proof. apply load_ok. split; [lia|]. rewrite Nat2Z.id, lookup_app_r, Nat.sub_diag by lia. done. Qed.

Lemma skip_while_run cond pre l c rest fuel : Forall (fun c => cond c = true) l -> cond c = false -> (length l < fuel)%nat ->
  skip_while fuel cond (Z.of_nat (length pre)) (pre ++ l ++ c :: rest) = Ok (Z.of_nat (length (pre ++ l))).
Proof.
  intros Hl Hc. revert pre fuel. induction Hl as [|x l Hx Hl IH]; intros pre [|fuel] Hf; simpl length in Hf; try lia; cbn [skip_while].
  - cbn [app]. rewrite load_app. cbn [mbind outcome_bind]. rewrite Hc, app_nil_r. done.
  - cbn [app]. rewrite load_app. cbn [mbind outcome_bind]. rewrite Hx. specialize (IH (pre ++ [x]) fuel ltac:(lia)).
    rewrite !length_app, <- !app_assoc in IH. cbn [app length] in IH. rewrite length_app. simpl length.
    replace (Z.of_nat (length pre) + 1) with (Z.of_nat (length pre + 1)) by lia. rewrite IH. f_equal. lia.
Qed.

Lemma until_nul_app w l : Forall (fun c => c <> 0) w -> until_nul (w ++ 0 :: l) = w.
Proof. induction 1 as [|c w Hc Hw IH]; [done|]. cbn [app until_nul]. rewrite (proj2 (Z.eqb_neq c 0)) by done. by rewrite IH. Qed.

Lemma arg_at_app pre w l : Forall (fun c => c <> 0) w -> arg_at (pre ++ w ++ 0 :: l) (Z.of_nat (length pre)) = w.
Proof. intros Hw. unfold arg_at. rewrite Nat2Z.id, drop_app_length. by apply until_nul_app. Qed.

(** The loop on the rest of a line whose first [length pre] characters are done. *)
Lemma tokenize_loop_ok fuel max txt pre argv rest : Forall (fun c => c <> 0) txt -> (length txt < fuel)%nat ->
  exists offs txt', tokenize_loop fuel max (Z.of_nat (length pre)) argv (pre ++ txt ++ 0 :: rest) = Ok (argv ++ offs, pre ++ txt' ++ 0 :: rest) /\
    length txt' = length txt /\ arg_at (pre ++ txt' ++ 0 :: rest) <$> offs = take (max - length argv) (words txt).
Proof.
  revert txt pre argv. induction fuel as [|fuel IH]; intros txt pre argv Hz Hf; [lia|]. cbn [tokenize_loop].
  destruct (span_split is_blank txt) as (b & l & -> & Hb & Hl).
  assert (Hb' : Forall (fun c => c = 32) b) by (eapply Forall_impl; [|exact Hb]; intros a; unfold is_blank; lia).
  rewrite words_blanks by done. rewrite length_app in Hf.
  assert (Hstop : forall txt0, (words txt0 = [] \/ (max <= length argv)%nat) -> exists offs txt', mret (argv, pre ++ txt0 ++ 0 :: rest) =
      Ok (argv ++ offs, pre ++ txt' ++ 0 :: rest) /\ length txt' = length txt0 /\
      arg_at (pre ++ txt' ++ 0 :: rest) <$> offs = take (max - length argv) (words txt0)).
  { intros txt0 Ht. exists [], txt0. rewrite app_nil_r. split_and!; try done. destruct Ht as [->|Hm]; [by rewrite take_nil|].
    by replace (max - length argv)%nat with 0%nat by lia. }
  rewrite <- (words_blanks b l) by done.
  destruct (load (pre ++ (b ++ l) ++ 0 :: rest) (Z.of_nat (length pre))) as [c | |] eqn:Ec.
  2-3: exfalso; destruct (b ++ l); cbn [app] in Ec; by rewrite load_app in Ec.
  cbn [mbind outcome_bind]. destruct ((c =? 0) || (max <=? length argv)%nat) eqn:Estop.
  { apply Hstop. apply orb_true_iff in Estop as [E0|Hm]; [|right; lia]. left. destruct (b ++ l) as [|x r]; [done|].
    cbn [app] in Ec. rewrite load_app in Ec. injection Ec as ->. apply Forall_cons_iff in Hz as [Hx _]. lia. }
  apply orb_false_iff in Estop as [_ Hmax%Nat.leb_gt].
  apply Forall_app in Hz as [_ Hlz].
  rewrite <- (app_assoc b). destruct Hl as [->|(c1 & l' & -> & Hc1)].
  - cbn [app]. rewrite skip_while_run by (try done; unfold fuel_of; rewrite !length_app; lia). cbn [mbind outcome_bind].
    rewrite (app_assoc pre), load_app. cbn [mbind outcome_bind]. replace (0 =? 0) with true by done.
    rewrite <- (app_assoc pre), app_nil_r. specialize (Hstop b). apply Hstop. left. rewrite <- (app_nil_r b). by rewrite words_blanks.
  - destruct (span_split is_word (c1 :: l')) as (w & r & Ew & Hw & Hr). rewrite Ew in *.
    assert (Hw0 : w <> []).
    { intros ->. cbn [app] in Ew. subst r. destruct Hr as [?|(c2 & l2 & [= <- <-] & Hc2)]; [done|]. apply Forall_cons_iff in Hlz as [? _].
      unfold is_word, is_blank in *. lia. }
    assert (Hwb : no_blank w) by (eapply Forall_impl; [|exact Hw]; intros a; unfold is_word; lia).
    destruct w as [|c2 w]; [done|]. clear Hw0. assert (c2 = c1) as -> by (by injection Ew).
    rewrite length_app in Hf. simpl length in Hf. apply Forall_app in Hlz as [Hwz Hrz].
    cbn [app]. rewrite skip_while_run by (try done; unfold fuel_of; rewrite !length_app; simpl; lia). cbn [mbind outcome_bind].
    rewrite (app_assoc pre), load_app. cbn [mbind outcome_bind].
    assert (Hc10 : c1 <> 0) by (by apply Forall_cons_iff in Hwz as [? _]). rewrite (proj2 (Z.eqb_neq c1 0)) by done.
    replace (c1 :: (w ++ r) ++ 0 :: rest) with ((c1 :: w) ++ r ++ 0 :: rest) by (by rewrite <- app_assoc).
    destruct Hr as [->|(c3 & r' & -> & Hc3)].
    + cbn [app]. change (c1 :: w ++ 0 :: rest) with ((c1 :: w) ++ 0 :: rest).
      rewrite skip_while_run by (try done; unfold fuel_of; rewrite !length_app; simpl; lia). cbn [mbind outcome_bind].
      rewrite app_assoc, load_app. cbn [mbind outcome_bind]. cbn [Z.eqb].
      destruct (IH [] ((pre ++ b) ++ c1 :: w) (argv ++ [Z.of_nat (length (pre ++ b))])) as (offs & txt' & E1 & Hl1 & Ha1); [constructor | simpl; lia|].
      destruct txt'; [|done]. cbn [app] in E1. rewrite E1. exists (Z.of_nat (length (pre ++ b)) :: offs), (b ++ c1 :: w).
      rewrite <- !app_assoc in *. cbn [app] in *. split; [done|]. rewrite app_nil_r. split; [done|]. cbn [fmap list_fmap] in *.
      rewrite Ha1. cbn. rewrite take_nil. rewrite words_blanks, words_last by done.
      replace (max - length argv)%nat with (S (max - length argv - 1)) by lia. cbn [take]. rewrite take_nil. f_equal.
      rewrite (app_assoc pre b). change (c1 :: w ++ 0 :: rest) with ((c1 :: w) ++ 0 :: rest). by rewrite arg_at_app.
    + apply Forall_cons_iff in Hrz as [Hc30 Hrz]. assert (c3 = 32) as -> by (unfold is_word in Hc3; lia).
      cbn [app]. change (c1 :: w ++ 32 :: r' ++ 0 :: rest) with ((c1 :: w) ++ 32 :: r' ++ 0 :: rest).
      rewrite skip_while_run by (try done; unfold fuel_of; rewrite !length_app; simpl; lia). cbn [mbind outcome_bind].
      rewrite (app_assoc (pre ++ b)), load_app. cbn [mbind outcome_bind]. cbn [Z.eqb Pos.eqb].
      rewrite store_in_range by (rewrite !length_app; simpl; lia). cbn [mbind outcome_bind].
      rewrite Nat2Z.id, insert_app_r_alt, Nat.sub_diag by lia. cbn [insert list_insert].
      destruct (IH r' (((pre ++ b) ++ c1 :: w) ++ [0]) (argv ++ [Z.of_nat (length (pre ++ b))])) as (offs & txt' & E1 & Hl1 & Ha1); [done | simpl in Hf; lia|].
      replace (Z.of_nat (length ((pre ++ b) ++ c1 :: w)) + 1) with (Z.of_nat (length (((pre ++ b) ++ c1 :: w) ++ [0]))) by (rewrite (length_app _ [0]); simpl; lia).
      replace (((pre ++ b) ++ c1 :: w) ++ 0 :: r' ++ 0 :: rest) with ((((pre ++ b) ++ c1 :: w) ++ [0]) ++ r' ++ 0 :: rest) by (by rewrite <- app_assoc).
      rewrite E1. exists (Z.of_nat (length (pre ++ b)) :: offs), (b ++ (c1 :: w) ++ 0 :: txt').
      rewrite length_app in Ha1. simpl length in Ha1. rewrite words_blanks by done.
      change (words (c1 :: w ++ 32 :: r')) with (words ((c1 :: w) ++ 32 :: r')). rewrite words_cons by done.
      replace (max - length argv)%nat with (S (max - (length argv + 1))) by lia. cbn [take fmap list_fmap].
      assert (Eline : pre ++ (b ++ (c1 :: w) ++ 0 :: txt') ++ 0 :: rest = (((pre ++ b) ++ c1 :: w) ++ [0]) ++ txt' ++ 0 :: rest)
        by (rewrite <- !app_assoc; done).
      rewrite Eline. split; [by rewrite <- !app_assoc|]. split; [rewrite !length_app; simpl; rewrite !length_app; simpl; lia|].
      f_equal; [|exact Ha1]. rewrite <- Eline. rewrite <- !app_assoc. rewrite (app_assoc pre b). by apply arg_at_app.
Qed.

(** Tokenizing a line: the words of the text, separated by any number of
    blanks, as the first sixteen arguments, each a terminated string inside
    the line. *)
Lemma tokenize_splits_words txt rest : Forall (fun c => c <> 0) txt ->
  exists argv txt', tokenize (txt ++ 0 :: rest) MAX_ARGS = Ok (argv, txt' ++ 0 :: rest) /\ length txt' = length txt /\
    arg_at (txt' ++ 0 :: rest) <$> argv = take 16 (words txt).
Proof.
  intros Hz. destruct (tokenize_loop_ok (fuel_of (txt ++ 0 :: rest)) MAX_ARGS txt [] [] rest Hz) as (argv & txt' & E & Hl & Ha);
    [unfold fuel_of; rewrite length_app; lia|]. by exists argv, txt'.
Qed.

(** ** The editor *)

Section Editor.
Context {P : Type} `{PortIO P}.
Implicit Types t : Terminal P.

(** The cursor is on the screen, above the status row. *)
Definition screen_ok t : Prop := (1920 <= length (buffer t))%nat /\ 0 <= row t < 24 /\ 0 <= column t < 80.

Lemma newline_screen t : (1920 <= length (buffer t))%nat -> 0 <= row t < 24 -> exists t', newline t = Ok t' /\ screen_ok t'.
Proof.
  intros Hb Hr. unfold newline. cbn [row column set_cursor]. unfold VGA_HEIGHT. destruct (Z.eqb_spec (row t) (24 - 1)) as [E|E].
  - destruct (scroll_ok (set_cursor t (row t) 0)) as (b & Es & (_ & Hl & _) & _); [done|]. rewrite Es. eexists. split; [done|].
    split_and!; cbn in *; try lia.
  - eexists. split; [done|]. split_and!; cbn; try done; rewrite ?u16_small by lia; lia.
Qed.

Lemma putChar_screen c t : screen_ok t -> exists t', putChar c t = Ok t' /\ screen_ok t'.
Proof.
  intros (Hb & Hr & Hc). unfold putChar. destruct (is_newline c); [by apply newline_screen|]. unfold VGA_WIDTH.
  rewrite store_in_range by lia. cbn [mbind outcome_bind]. cbn [row column set_cursor set_buffer].
  rewrite u16_small by lia. destruct (Z.eqb_spec (column t + 1) 80) as [E|E].
  - match goal with |- context [newline ?t1] => destruct (newline_screen t1) as (t' & En & Hs) end; [cbn; by rewrite length_insert | done |].
    run_call En. eexists. split; [done|]. exact Hs.
  - cbn [mbind outcome_bind]. eexists. split; [done|]. split_and!; cbn; rewrite ?length_insert; lia.
Qed.

Lemma putChars_screen {A} (f : A -> outcome Z) (l : list A) t : screen_ok t -> Forall (fun i => exists c, f i = Ok c) l ->
  exists t', foldM (fun i t => c ← f i; putChar c t) l t = Ok t' /\ screen_ok t'.
Proof.
  intros Hs Hf. revert t Hs. induction Hf as [|i l [c Hc] Hf IH]; intros t Hs; [by exists t|]. cbn [foldM]. rewrite Hc. cbn [mbind outcome_bind].
  destruct (putChar_screen c t Hs) as (t1 & E1 & Hs1). run_call E1. by apply IH.
Qed.

Lemma redraw_ok (L : Line) t : (1920 <= length (buffer t))%nat -> 0 <= g_line_length L <= Z.of_nat (length (g_line_buffer L)) ->
  0 <= g_input_row L < 24 -> 0 <= g_input_col L < 80 ->
  exists t', redraw L t = Ok (with_render L (g_line_length L), t') /\ (1920 <= length (buffer t'))%nat.
Proof.
  intros Hb Hl Hr Hc. unfold redraw, for_range.
  destruct (putChars_screen (load (g_line_buffer L)) (seqZ 0 (g_line_length L - 0)) (setCursor (g_input_row L) (g_input_col L) t)) as (t1 & E1 & S1).
  { done. }
  { apply Forall_forall. intros i Hi%list_elem_of_In%elem_of_seqZ. destruct (lookup_lt_is_Some_2 (g_line_buffer L) (Z.to_nat i)) as [c Hc']; [lia|].
    exists c. apply load_ok. split; [lia | done]. }
  run_call E1.
  destruct (putChars_screen (fun _ : Z => Ok 32) (seqZ (g_line_length L) (g_prev_render_length L - g_line_length L)) t1 S1) as (t2 & E2 & S2).
  { apply Forall_forall. intros i _. by exists 32. }
  cbn [mbind outcome_bind] in E2. run_call E2. eexists. split; [done|]. apply S2.
Qed.

(** The abstract editor: the text left and right of the cursor, the lines
    entered before, and the place in them. *)
Record Ed := mkEd { lft : list Z; rgt : list Z; hist : list (list Z); hpos : nat }.

Definition ed_key (c : Z) (e : Ed) : Ed :=
  let n := length (lft e ++ rgt e) in
  if c =? 8 then mkEd (take (length (lft e) - 1) (lft e)) (rgt e) (hist e) (hpos e)
  else if c =? KEY_LEFT then
    match list.last (lft e) with
    | None => e
    | Some x => mkEd (take (length (lft e) - 1) (lft e)) (x :: rgt e) (hist e) (hpos e)
    end
  else if c =? KEY_RIGHT then
    match rgt e with [] => e | x :: r => mkEd (lft e ++ [x]) r (hist e) (hpos e) end
  else if c =? KEY_UP then
    match hpos e with O => e | S p => mkEd (default [] (hist e !! p)) [] (hist e) p end
  else if c =? KEY_DOWN then
    if (hpos e <? length (hist e))%nat then mkEd (default [] (hist e !! S (hpos e))) [] (hist e) (S (hpos e)) else e
  else if (n <? 255)%nat then mkEd (lft e ++ [c]) (rgt e) (hist e) (hpos e) else e.

Record line_rep (L : Line) (e : Ed) : Prop := {
  lr_text : exists rest, g_line_buffer L = lft e ++ rgt e ++ rest;
  lr_size : length (g_line_buffer L) = 256%nat;
  lr_length : g_line_length L = Z.of_nat (length (lft e ++ rgt e));
  lr_bound : (length (lft e ++ rgt e) <= 255)%nat;
  lr_cursor : g_cursor L = Z.of_nat (length (lft e));
  lr_history : hist_rep L (hist e);
  lr_pos : g_history_pos L = Z.of_nat (hpos e) /\ (hpos e <= length (hist e))%nat;
  lr_input : 0 <= g_input_row L < 24 /\ 0 <= g_input_col L < 80;
}.

Lemma hist_rep_ext L L' hs : hist_rep L hs -> g_history L' = g_history L -> g_history_lengths L' = g_history_lengths L ->
  g_history_count L' = g_history_count L -> hist_rep L' hs.
Proof. intros [? ? ? ?] E1 E2 E3. split; rewrite ?E1, ?E2, ?E3; done. Qed.

(** The buffer after a change of the text to [l ++ r], and its redrawing. *)
Lemma redraw_rep L e l r hp b rest n c t : line_rep L e -> b = l ++ r ++ rest -> length b = 256%nat ->
  n = Z.of_nat (length (l ++ r)) -> c = Z.of_nat (length l) -> (length (l ++ r) <= 255)%nat -> (hp <= length (hist e))%nat ->
  (1920 <= length (buffer t))%nat ->
  exists L' t', redraw (with_text (with_pos L (Z.of_nat hp)) b n c) t = Ok (L', t') /\ line_rep L' (mkEd l r (hist e) hp) /\
    (1920 <= length (buffer t'))%nat.
Proof.
  intros [_ _ _ _ _ Hh _ [Hir Hic]] -> Hb -> -> Hlr Hhp Ht.
  set (L1 := with_text _ _ _ _).
  assert (Hre : exists t', redraw L1 t = Ok (with_render L1 (g_line_length L1), t') /\ (1920 <= length (buffer t'))%nat).
  { apply redraw_ok; [done | cbn; rewrite Hb; lia | done | done]. }
  destruct Hre as (t' & E1 & Ht'). exists (with_render L1 (g_line_length L1)), t'. split; [done|]. split; [|done].
  split; cbn; try done; [by exists rest|]. by apply (hist_rep_ext L).
Qed.

Lemma with_pos_same L e : line_rep L e -> with_pos L (Z.of_nat (hpos e)) = L.
Proof. intros Hr. destruct (lr_pos _ _ Hr) as [Hp _]. rewrite <- Hp. by destruct L. Qed.

Lemma snoc_cases {A} (l : list A) : l = [] \/ exists l' x, l = l' ++ [x].
Proof. destruct l as [|x l] using rev_ind; [by left | right; by exists l, x]. Qed.

(** Moving the cursor inside the text. *)
Lemma move_rep L e l r : line_rep L e -> l ++ r = lft e ++ rgt e -> line_rep (with_text L (g_line_buffer L) (g_line_length L) (Z.of_nat (length l)))
  (mkEd l r (hist e) (hpos e)).
Proof.
  intros [(rest & Hb) Hs Hl Hbd Hc Hh Hp Hi] E. split; cbn; rewrite ?E; try done.
  - exists rest. by rewrite app_assoc, E, <- app_assoc.
  - by apply (hist_rep_ext L).
Qed.

Lemma loadHistory_ok L e k : line_rep L e -> (k < length (hist e))%nat ->
  exists b rest, let s := default [] (hist e !! k) in b = s ++ [] ++ rest /\ length b = 256%nat /\ (length s <= 255)%nat /\
    loadHistory (Z.of_nat k) (with_pos L (Z.of_nat k)) = Ok (with_text (with_pos L (Z.of_nat k)) b (Z.of_nat (length s)) (Z.of_nat (length s))).
Proof.
  intros [_ Hs _ _ _ Hh _ _] Hk. destruct (lookup_lt_is_Some_2 (hist e) k Hk) as [s Hks]. rewrite Hks. cbn [default]. unfold id.
  destruct (hr_lines _ _ Hh k s Hks) as (Hsl & Hlen & row & Hrow & Ht). pose proof (hr_max _ _ Hh).
  destruct (arrays_row _ _ k (hr_arrays _ _ Hh)) as (row' & Hrow' & Hrl); [lia|]. assert (row' = row) as -> by congruence.
  exists (s ++ drop (length s) (g_line_buffer L)), (drop (length s) (g_line_buffer L)). cbv zeta. split; [done|].
  split; [rewrite length_app, length_drop; lia|]. split; [done|]. unfold loadHistory.
  cbn [g_history_lengths g_history g_line_buffer with_pos with_history].
  rewrite (proj2 (load_ok (g_history_lengths L) (Z.of_nat k) _)) by (rewrite Nat2Z.id; split; [lia | exact Hlen]). cbn [mbind outcome_bind].
  rewrite (proj2 (load_ok (g_history L) (Z.of_nat k) _)) by (rewrite Nat2Z.id; split; [lia | exact Hrow]). cbn [mbind outcome_bind].
  rewrite copy_chars_ok by (cbn; lia). cbn [mbind outcome_bind]. by rewrite Ht.
Qed.

(** The line editor refines a text with a cursor and a history: every key
    other than enter returns, keeps the buffer within its 256 bytes, and
    changes text, cursor and place in the history as the key says: insertion
    at the cursor unless the line is full, deletion before it, moving it, and
    the lines of the history, the empty line behind the newest. *)
Lemma edit_refines_editor c L e t : line_rep L e -> (1920 <= length (buffer t))%nat ->
  exists L' t', edit c L t = Ok (L', t') /\ line_rep L' (ed_key c e) /\ (1920 <= length (buffer t'))%nat.
Proof.
  intros Hr Ht. pose proof Hr as [(rest & Hb) Hs Hl Hbd Hc Hh [Hp Hpl] Hi]. unfold edit, ed_key. cbv zeta.
  pose proof (with_pos_same L e Hr) as Hwp.
  assert (Hrest : (length (lft e) + (length (rgt e) + length rest) = 256)%nat) by (rewrite <- Hs, Hb, !length_app; done).
  rewrite length_app in *.
  destruct (c =? 8); [|destruct (c =? KEY_LEFT); [|destruct (c =? KEY_RIGHT); [|destruct (c =? KEY_UP); [|destruct (c =? KEY_DOWN)]]]].
  - destruct (snoc_cases (lft e)) as [El|(l & x & El)]; rewrite El in *.
    + rewrite Hc. cbn. exists L, t. split; [done|]. split; [|done]. by destruct e; cbn in *; subst.
    + rewrite length_app in *. simpl length in *. rewrite Hc. rewrite (proj2 (Z.ltb_lt 0 _)) by lia.
      destruct (close_gap_ok l x (rgt e) rest) as (y & Eg). cbv zeta in Eg. rewrite length_app in Eg. simpl length in Eg.
      assert (Eb : g_line_buffer L = l ++ x :: rgt e ++ rest) by (rewrite Hb, <- app_assoc; done). rewrite Eb, Hl.
      replace (Z.of_nat (length l + 1 + length (rgt e))) with (Z.of_nat (length l + S (length (rgt e)))) by lia.
      replace (Z.of_nat (length l + 1)) with (Z.of_nat (S (length l))) by lia. run_call Eg.
      replace (length l + 1 - 1)%nat with (length l) by lia. rewrite take_app_length.
      destruct (redraw_rep L e l (rgt e) (hpos e) (l ++ rgt e ++ y :: rest) (y :: rest) (Z.of_nat (length l + S (length (rgt e))) - 1)
        (Z.of_nat (S (length l)) - 1) t Hr) as (L' & t' & E1 & R1 & T1); try done; try (rewrite !length_app; simpl; lia); [lia|].
      rewrite Hwp in E1. by exists L', t'.
  - destruct (snoc_cases (lft e)) as [El|(l & x & El)]; rewrite El in *.
    + rewrite Hc. cbn. by exists L, t.
    + rewrite length_app in *. simpl length in *. rewrite Hc, (proj2 (Z.ltb_lt 0 _)) by lia. rewrite list.last_snoc.
      replace (length l + 1 - 1)%nat with (length l) by lia. rewrite take_app_length. eexists _, _. split; [done|]. split; [|exact Ht].
      replace (Z.of_nat (length l + 1) - 1) with (Z.of_nat (length l)) by lia. apply move_rep; [done|]. by rewrite El, <- app_assoc.
  - rewrite Hc, Hl. destruct (rgt e) as [|x r] eqn:Er; simpl length in *.
    + rewrite (proj2 (Z.ltb_ge _ _)) by lia. by exists L, t.
    + rewrite (proj2 (Z.ltb_lt _ _)) by lia. eexists _, _. split; [done|]. split; [|exact Ht].
      assert (Ecur : Z.of_nat (length (lft e)) + 1 = Z.of_nat (length (lft e ++ [x]))) by (rewrite length_app; simpl; lia).
      rewrite Ecur, <- Hl. apply move_rep; [done|]. by rewrite Er, <- app_assoc.
  - rewrite Hp. destruct (hpos e) as [|p] eqn:Ep; [by exists L, t|]. rewrite (proj2 (Z.ltb_lt 0 _)) by lia. cbv zeta.
    replace (Z.of_nat (S p) - 1) with (Z.of_nat p) by lia. cbn [g_history_pos with_pos with_history].
    destruct (loadHistory_ok L e p Hr ltac:(lia)) as (b & rest' & Hb' & Hbl & Hsl & El). run_call El.
    destruct (redraw_rep L e (default [] (hist e !! p)) [] p b rest' _ _ t Hr Hb' Hbl eq_refl eq_refl) as (L' & t' & E1 & R1 & T1);
      try done; [rewrite app_nil_r; lia | lia |]. rewrite app_nil_r in E1. by exists L', t'.
  - rewrite Hp, (hr_count _ _ Hh). destruct (Nat.ltb_spec (hpos e) (length (hist e))) as [Hlt|Hge].
    2: { rewrite (proj2 (Z.ltb_ge _ _)) by lia. by exists L, t. }
    rewrite (proj2 (Z.ltb_lt _ _)) by lia. cbv zeta. cbn [g_history_pos with_pos with_history g_history_count]. rewrite (hr_count _ _ Hh).
    replace (Z.of_nat (hpos e) + 1) with (Z.of_nat (S (hpos e))) by lia.
    destruct (Z.eqb_spec (Z.of_nat (S (hpos e))) (Z.of_nat (length (hist e)))) as [Ee|Ene].
    + cbn [mbind outcome_bind mret outcome_ret]. rewrite lookup_ge_None_2 by lia. cbn [default].
      destruct (redraw_rep L e [] [] (S (hpos e)) (g_line_buffer L) (g_line_buffer L) 0 0 t Hr) as (L' & t' & E1 & R1 & T1);
        try done; [simpl; lia|]. exists L', t'. by rewrite <- E1.
    + destruct (loadHistory_ok L e (S (hpos e)) Hr ltac:(lia)) as (b & rest' & Hb' & Hbl & Hsl & El). run_call El.
      destruct (redraw_rep L e (default [] (hist e !! S (hpos e))) [] (S (hpos e)) b rest' _ _ t Hr Hb' Hbl eq_refl eq_refl) as (L' & t' & E1 & R1 & T1);
        try done; [rewrite app_nil_r; lia|]. rewrite app_nil_r in E1. by exists L', t'.
  - rewrite Hl. unfold LINE_BUFFER_SIZE. destruct (Nat.ltb_spec (length (lft e) + length (rgt e)) 255) as [Hlt|Hge].
    2: { rewrite (proj2 (Z.ltb_ge _ _)) by lia. by exists L, t. }
    rewrite (proj2 (Z.ltb_lt _ _)) by lia. destruct rest as [|y rest]; [simpl in Hrest; lia|].
    destruct (open_gap_ok (lft e) (rgt e) y rest) as (z & Eg). rewrite length_app in Eg. rewrite Hb, Hc. run_call Eg.
    rewrite store_in_range by (rewrite !length_app; simpl; rewrite length_app; lia). cbn [mbind outcome_bind]. rewrite Nat2Z.id.
    assert (Ei : <[length (lft e) := c]> (lft e ++ z :: rgt e ++ rest) = lft e ++ c :: rgt e ++ rest)
      by (rewrite insert_app_r_alt, Nat.sub_diag by lia; done).
    rewrite Ei.
    destruct (redraw_rep L e (lft e ++ [c]) (rgt e) (hpos e) (lft e ++ c :: rgt e ++ rest) rest
      (Z.of_nat (length (lft e) + length (rgt e)) + 1) (Z.of_nat (length (lft e)) + 1) t Hr) as (L' & t' & E1 & R1 & T1);
      try done; try (rewrite !length_app; simpl; simpl in Hrest; rewrite ?length_app; lia); [by rewrite <- !app_assoc|].
    rewrite Hwp in E1. by exists L', t'.
Qed.

(** ** Sessions *)

Lemma write_screen str t : screen_ok t -> exists t', write str t = Ok t' /\ screen_ok t'.
Proof.
  revert t. induction str as [|c str IH]; intros t Hs; cbn [write]; [by exists t|]. destruct (c =? 0); [by exists t|].
  destruct (putChar_screen c t Hs) as (t1 & E1 & S1). run_call E1. by apply IH.
Qed.

Definition line (e : Ed) : list Z := lft e ++ rgt e.

(** Enter: the line joins the history and the editor starts afresh. *)
Definition ed_enter (e : Ed) : Ed :=
  let hs := remember (hist e) (line e) in mkEd [] [] hs (if (length (line e) =? 0)%nat then hpos e else length hs).

(** The commands that a sequence of keys enters, and the editor behind them. *)
Fixpoint session (cs : list Z) (e : Ed) : list (list (list Z)) * Ed :=
  match cs with
  | [] => ([], e)
  | c :: cs' =>
      if c =? 10 then
        let '(cmds, e') := session cs' (ed_enter e) in
        (match take 16 (words (line e)) with [] => cmds | argv => argv :: cmds end, e')
      else session cs' (ed_key c e)
  end.

(** Neither the line nor the history holds a terminator. *)
Definition clean (e : Ed) : Prop := Forall (fun c => c <> 0) (line e) /\ Forall (Forall (fun c => c <> 0)) (hist e).

Lemma clean_default (hs : list (list Z)) k : Forall (Forall (fun c => c <> 0)) hs -> Forall (fun c => c <> 0) (default [] (hs !! k)).
Proof. intros Hh. destruct (hs !! k) eqn:E; cbn; [|constructor]. exact (Forall_lookup_1 _ _ _ _ Hh E). Qed.

Lemma ed_key_clean c e : c <> 0 -> clean e -> clean (ed_key c e).
Proof.
  intros Hc [Hl Hh]. destruct e as [l r hs p]. unfold ed_key, clean, line in *. cbn [lft rgt hist hpos] in *. apply Forall_app in Hl as [Hl Hr].
  assert (Ht : Forall (fun c => c <> 0) (take (length l - 1) l)) by (by apply list.Forall_take).
  destruct (c =? 8); [|destruct (c =? KEY_LEFT); [|destruct (c =? KEY_RIGHT); [|destruct (c =? KEY_UP); [|destruct (c =? KEY_DOWN)]]]]; cbn [lft rgt hist].
  - by rewrite Forall_app.
  - destruct (list.last l) as [x|] eqn:El; cbn [lft rgt hist]; rewrite Forall_app; [|done]. split_and!; try done. constructor; [|done].
    apply last_Some in El as [l' ->]. by apply Forall_app in Hl as [_ [? _]%Forall_cons_iff].
  - destruct r as [|x r]; cbn [lft rgt hist]; rewrite !Forall_app; [done|]. apply Forall_cons_iff in Hr as [Hx Hr]. by repeat constructor.
  - destruct p as [|p]; cbn [lft rgt hist]; rewrite Forall_app; [done|]. split_and!; [by apply clean_default | constructor | done].
  - destruct (p <? length hs)%nat; cbn [lft rgt hist]; rewrite Forall_app; [|done]. split_and!; [by apply clean_default | constructor | done].
  - destruct (_ <? 255)%nat; cbn [lft rgt hist]; rewrite !Forall_app; [|done]. by repeat constructor.
Qed.

Lemma ed_enter_clean e : clean e -> clean (ed_enter e).
Proof.
  intros [Hl Hh]. split; [constructor|]. cbn [ed_enter hist]. unfold remember. destruct (length (line e) =? 0)%nat; [done|].
  destruct (length (hist e) <? 16)%nat; rewrite Forall_app; repeat constructor; try done. destruct (hist e); [done|].
  by apply Forall_cons_iff in Hh as [_ ?].
Qed.

Section Session.
Context {X : Type} (exec : list (list Z) -> X -> Terminal P -> outcome (X * Terminal P)) (g_cwd : X -> list Z) (I : X -> Prop).

(** Commands run one after the other, each on some screen. *)
Inductive runs : list (list (list Z)) -> X -> X -> Prop :=
  | runs_nil x : runs [] x x
  | runs_cons argv cmds x x1 x2 t t1 : exec argv x t = Ok (x1, t1) -> runs cmds x1 x2 -> runs (argv :: cmds) x x2.

(** The command returns, keeps the invariant [I] of the rest of the system and
    leaves the cursor on the screen. *)
Definition exec_ok (argv : list (list Z)) : Prop :=
  forall x t, I x -> screen_ok t -> exists x' t', exec argv x t = Ok (x', t') /\ I x' /\ screen_ok t'.

Lemma printPrompt_ok L x t : screen_ok t -> exists t', printPrompt g_cwd L x t = Ok (with_input L (row t') (column t'), t') /\ screen_ok t'.
Proof.
  intros Hs. unfold printPrompt. destruct (write_screen (chars "WengShiOS:") t Hs) as (t1 & E1 & S1). run_call E1.
  destruct (write_screen (g_cwd x) t1 S1) as (t2 & E2 & S2). run_call E2.
  destruct (write_screen (chars "> ") t2 S2) as (t3 & E3 & S3). run_call E3. by exists t3.
Qed.

(** The editor behind a prompt. *)
Lemma fresh_rep L e b r c : hist_rep L (remember (hist e) (line e)) -> length b = 256%nat ->
  g_history_pos L = Z.of_nat (hpos (ed_enter e)) -> (hpos (ed_enter e) <= length (remember (hist e) (line e)))%nat ->
  0 <= r < 24 -> 0 <= c < 80 -> line_rep (with_input (with_text L b 0 0) r c) (ed_enter e).
Proof. intros Hh Hb Hp Hp2 Hr Hc. split; cbn; try done; [by exists b | lia | by apply (hist_rep_ext L)]. Qed.

Lemma enter_ok L e x t : (words (line e) <> [] -> exec_ok (take 16 (words (line e)))) -> I x -> line_rep L e -> clean e ->
  (1920 <= length (buffer t))%nat ->
  exists L' x' t', enter exec g_cwd L x t = Ok (L', x', t') /\ line_rep L' (ed_enter e) /\ screen_ok t' /\ I x' /\
    match take 16 (words (line e)) with [] => x' = x | argv => exists t1 t2, exec argv x t1 = Ok (x', t2) end.
Proof.
  intros Hx HI [(rest & Hb) Hs Hl Hbd Hc Hh [Hp Hpl] [Hir Hic]] [Hcl _] Ht. fold (line e) in *. unfold enter. cbv zeta.
  assert (Hn : exists t1, putChar 10 (setCursor (g_input_row L) (u16 (g_input_col L + g_line_length L)) t) = Ok t1 /\ screen_ok t1)
    by (by apply newline_screen).
  destruct Hn as (t1 & E1 & S1). run_call E1.
  assert (Hrest : (length (line e) + length rest = 256)%nat) by (rewrite <- Hs, Hb; unfold line; rewrite !length_app; lia).
  destruct rest as [|y rest]; [simpl in Hrest; lia|]. rewrite store_in_range by lia. cbn [mbind outcome_bind].
  assert (Eb : <[Z.to_nat (g_line_length L) := 0]> (g_line_buffer L) = line e ++ 0 :: rest).
  { rewrite Hl, Nat2Z.id, Hb, app_assoc. fold (line e). by rewrite insert_app_r_alt, Nat.sub_diag by lia. }
  rewrite Eb. set (L1 := with_text L _ _ _).
  assert (Hh1 : hist_rep L1 (hist e)) by (by apply (hist_rep_ext L)).
  destruct (pushHistory_ok L1 (hist e) (line e) (line e ++ 0 :: rest) Hh1) as
    (L2 & E2 & Hh2 & Hpos & Hsame & Hb2 & Hl2 & Hc2 & Hr2 & Hcol2 & _); [done | rewrite length_app; lia | by rewrite take_app_length |].
  cbn [g_line_buffer g_line_length L1 with_text]. rewrite Hl. run_call E2. unfold executeLine. rewrite Hb2. cbn [g_line_buffer L1 with_text].
  destruct (tokenize_splits_words (line e) rest Hcl) as (argv & txt' & E3 & Hlt & Hargv). run_call E3.
  assert (Hb256 : length (txt' ++ 0 :: rest) = 256%nat) by (rewrite length_app, Hlt; simpl in *; lia).
  assert (Hpos2 : g_history_pos L2 = Z.of_nat (hpos (ed_enter e)) /\ (hpos (ed_enter e) <= length (remember (hist e) (line e)))%nat).
  { cbn [ed_enter hpos]. destruct (Nat.eqb_spec (length (line e)) 0) as [E0|E0].
    - apply nil_length_inv in E0. rewrite (Hsame E0), E0. by split.
    - rewrite Hpos by (by intros E0'; rewrite E0' in E0). by rewrite (hr_count _ _ Hh2). }
  assert (Hend : forall x' t2, screen_ok t2 -> exists L' t', (t ← write [10] t2;
      '(L, t) ← printPrompt g_cwd (with_text L2 (txt' ++ 0 :: rest) 0 0) x' t; mret (L, x', t)) = Ok (L', x', t') /\ line_rep L' (ed_enter e) /\ screen_ok t').
  { intros x' t2 S2. destruct (write_screen [10] t2 S2) as (t3 & E4 & S3). run_call E4.
    destruct (printPrompt_ok (with_text L2 (txt' ++ 0 :: rest) 0 0) x' t3 S3) as (t4 & E5 & S4). run_call E5. eexists _, _. split; [done|].
    split; [|done]. apply fresh_rep; try done; apply Hpos2 || apply S4. }
  destruct argv as [|p argv]; cbn [length Nat.eqb].
  - cbn [mbind outcome_bind mret outcome_ret fmap list_fmap] in *. rewrite <- Hargv.
    destruct (Hend x t1 S1) as (L' & t' & E4 & R4 & S4). exists L', x, t'. by rewrite <- E4.
  - rewrite Hargv. cbn [fmap list_fmap] in Hargv. assert (Hne : words (line e) <> []) by (by intros E0; rewrite E0 in Hargv).
    destruct (Hx Hne x t1 HI S1) as (x' & t2 & E4 & HI' & S2). run_call E4.
    destruct (Hend x' t2 S2) as (L' & t' & E5 & R5 & S5). exists L', x', t'. split; [by rewrite <- E5|]. split_and!; try done.
    destruct (take 16 (words (line e))); [done|]. by exists t1, t2.
Qed.

(** C20. The shell's loop refines a line editor: any sequence of keys on any
    screen returns with the buffers inside their bounds, the text, cursor and
    history those of the abstract editor, and the commands run being exactly,
    and in order, the words (sixteen at most) of the lines entered.  The
    commands may rely on an invariant that each of them keeps. *)
Theorem keys_refine_session cs L e x t : Forall exec_ok (session cs e).1 -> I x -> Forall (fun c => c <> 0) cs ->
  line_rep L e -> clean e -> (1920 <= length (buffer t))%nat ->
  exists L' x' t', keys exec g_cwd cs L x t = Ok (L', x', t') /\ line_rep L' (session cs e).2 /\ runs (session cs e).1 x x' /\ I x'.
Proof.
  intros Hx HI Hcs. revert L e x t Hx HI. induction Hcs as [|c cs Hc Hcs IH]; intros L e x t Hx HI Hr Hcl Ht.
  { exists L, x, t. split_and!; try done. constructor. }
  cbn [keys session] in *. unfold key. destruct (c =? 10).
  - destruct (session cs (ed_enter e)) as [cmds e'] eqn:Es. cbn [fst snd] in *.
    assert (Hx' : (words (line e) <> [] -> exec_ok (take 16 (words (line e)))) /\ Forall exec_ok cmds).
    { destruct (words (line e)) as [|w ws] eqn:Ew; [by split|]. cbn [take] in Hx. apply Forall_cons_iff in Hx as [? ?]. by split. }
    destruct Hx' as [Hx1 Hx2].
    destruct (enter_ok L e x t Hx1 HI Hr Hcl Ht) as (L1 & x1 & t1 & E1 & R1 & S1 & HI1 & Hrun). run_call E1.
    destruct (IH L1 (ed_enter e) x1 t1) as (L2 & x2 & t2 & E2 & R2 & Hr2 & HI2);
      [by rewrite Es | done | done | by apply ed_enter_clean | apply S1 |]. rewrite Es in *.
    exists L2, x2, t2. split_and!; [done | done | | done].
    destruct (take 16 (words (line e))); [by subst | destruct Hrun as (t3 & t4 & Hrun); by econstructor].
  - destruct (edit_refines_editor c L e t Hr Ht) as (L1 & t1 & E1 & R1 & T1). run_call E1.
    apply IH; [done | done | done | by apply ed_key_clean | done].
Qed.

End Session.
End Editor.

(** ** Example *)

Definition log_exec (argv : list (list Z)) (x : list (list (list Z))) (t : Terminal PortLog) : outcome (list (list (list Z)) * Terminal PortLog) :=
  Ok (x ++ [argv], t).
Definition boot_line : Line := mkLine (replicate 256 0) 0 0 0 (replicate 16 (replicate 256 0)) (replicate 16 0) 0 0 3 12.
Definition start_ed : Ed := mkEd [] [] [] 0.

Lemma boot_line_rep : line_rep boot_line start_ed.
Proof.
  split; cbn [boot_line start_ed g_line_length g_cursor g_history_pos g_input_row g_input_col lft rgt hist hpos]; try (split; lia); try done;
    [by exists (replicate 256 0) | simpl; lia|].
  split; [split_and!; [done | repeat constructor | done] | done | simpl; lia | done].
Qed.

(** A word erased, a line with the cursor moved back and a blank replaced,
    entered; then the same line recalled from the history and entered again. *)
Definition typed : list Z := chars "ls" ++ [8; 8] ++ chars "echo  h" ++ [KEY_LEFT; 8] ++ chars " " ++ [KEY_RIGHT] ++ chars "i" ++ [10; KEY_UP; 10].

Lemma keys_refine_session_witness : exists L' t',
  keys log_exec (fun _ => chars "/") typed boot_line [] cleared_terminal = Ok (L', [[chars "echo"; chars "hi"]; [chars "echo"; chars "hi"]], t').
Proof.
  destruct (keys_refine_session log_exec (fun _ => chars "/") (fun _ => True) typed boot_line start_ed [] cleared_terminal)
    as (L' & x' & t' & E & _ & Hr & _).
  - apply Forall_forall. intros argv _ x t _ Hs. by exists (x ++ [argv]), t.
  - done.
  - repeat constructor; vm_compute; discriminate.
  - exact boot_line_rep.
  - split; constructor.
  - vm_compute. lia.
  - exists L', t'. rewrite E. f_equal. f_equal. f_equal.
    change (session typed start_ed).1 with [[chars "echo"; chars "hi"]; [chars "echo"; chars "hi"]] in Hr.
    inversion Hr as [|? ? ? ? ? ? ? E1 Hr1]; subst. inversion Hr1 as [|? ? ? ? ? ? ? E2 Hr2]; subst. inversion Hr2; subst.
    injection E1 as <- _. injection E2 as <- _. reflexivity.
Defined.
