(* ===== verification/ShellCommands.v ===== *)
(** The file commands of the shell and the table of commands,
    [src/src/shell/shell.cpp].

    A command gets [argv], the list of its words; [argc] is its length and the
    slots behind it are not initialised, so reading one is a [Fault].  The
    commands of this file work on the working directory and the virtual file
    system ([Shell]) and on the terminal.  The others are the argument [other]
    of [run_command]. *)

From Stdlib Require Import ZifyBool.
From S2P Require Import Prelude Io Libc Format Keyboard Terminal Printf Vfs VfsProofs Elf ElfProofs ShellLine.

Record Shell (W : Type) := mkShell { g_cwd : list Z; g_vfs : Vfs W }.
Arguments mkShell {W}.
Arguments g_cwd {W}.
Arguments g_vfs {W}.

Definition ln (s : String.string) : list Z := chars s ++ [10].
Arguments ln s%_string_scope.

(** The names of the handlers. *)
Inductive Command :=
| cmdHelp | cmdClear | cmdEcho | cmdMeminfo | cmdPanic | cmdLsPCI | cmdReboot | cmdTime | cmdDate | cmdSerial
| cmdLsahci | cmdIdentify | cmdReadTest | cmdLsDisks | cmdMounts | cmdLs | cmdCd | cmdPwd | cmdMount | cmdUmount
| cmdCat | cmdUptime | cmdInitAHCI | cmdMemDump | cmdKill | cmdPs | cmdTouch | cmdMkdir | cmdWriteFile | cmdPciInfo
| cmdRm | cmdRmdir | cmdExecuteElf | cmdTar.

#[export] Instance Command_eq_dec : EqDecision Command.
Proof. solve_decision. Defined.

Definition g_commands : list (list Z * Command) := [
  (chars "help", cmdHelp); (chars "clear", cmdClear); (chars "echo", cmdEcho); (chars "meminfo", cmdMeminfo);
  (chars "panic", cmdPanic); (chars "lspci", cmdLsPCI); (chars "reboot", cmdReboot); (chars "time", cmdTime);
  (chars "date", cmdDate); (chars "serial", cmdSerial); (chars "lsahci", cmdLsahci); (chars "identify", cmdIdentify);
  (chars "readtest", cmdReadTest); (chars "lsdisks", cmdLsDisks); (chars "mounts", cmdMounts); (chars "ls", cmdLs);
  (chars "cd", cmdCd); (chars "pwd", cmdPwd); (chars "mount", cmdMount); (chars "umount", cmdUmount);
  (chars "cat", cmdCat); (chars "uptime", cmdUptime); (chars "initahci", cmdInitAHCI); (chars "memdump", cmdMemDump);
  (chars "kill", cmdKill); (chars "ps", cmdPs); (chars "touch", cmdTouch); (chars "mkdir", cmdMkdir);
  (chars "writefile", cmdWriteFile); (chars "pci_info", cmdPciInfo); (chars "rm", cmdRm); (chars "rmdir", cmdRmdir);
  (chars "execelf", cmdExecuteElf); (chars "tar", cmdTar)].

(** The loop of [executeLine] over the table. *)
Fixpoint find_command (table : list (list Z * Command)) (name : list Z) : option Command :=
  match table with
  | [] => None
  | (n, c) :: table' => if str_eqb name n then Some c else find_command table' name
  end.

(** [memcpy(buf, data, sizeof(data))] *)
Definition overlay (data buf : list Z) : outcome (list Z) :=
  if (length data <=? length buf)%nat then Ok (data ++ drop (length data) buf) else Fault.

Section Commands.
Context {W P : Type} `{PortIO P}.
(** The driver table of ext2, what the stack holds before it is written to, a
    bound on the rounds of the loops, and the commands of other files. *)
Context (ext2_driver : FilesystemDriver W) (junk : nat -> list Z) (fuel : nat).
Context (other : Command -> list (list Z) -> Shell W -> Terminal P -> outcome (Shell W * Terminal P)).
Implicit Types (x : Shell W) (t : Terminal P) (v : Vfs W) (argv : list (list Z)).

Definition with_vfs x v : Shell W := mkShell (g_cwd x) v.

(** [argc < n] *)
Definition fewer (argv : list (list Z)) (n : nat) : bool := (length argv <? n)%nat.

Definition run_help t : outcome (Terminal P) :=
  foldM Terminal.write [
    ln "Available commands:"; ln "  help        - show this message"; ln "  clear       - clear the screen";
    ln "  echo        - print arguments"; ln "  meminfo     - show memory stats"; ln "  panic       - trigger a test CPU exception";
    ln "  lspci       - list all PCI devices"; ln "  reboot      - reboot kernel";
    ln "  time        - display current time using RTC"; ln "  date        - display current date using RTC";
    ln "  serial      - print arguments to serial port"; ln "  lsahci      - list all identified AHCI ports";
    ln "  identify    - identify type of AHCI port"] t.

Definition run_clear argv t : outcome (Terminal P) :=
  if (length argv =? 2)%nat then
    a ← Prelude.load argv 1; if str_eqb a (chars "all") then clearAll t else clear t
  else clear t.

Definition run_echo argv t : outcome (Terminal P) :=
  t ← for_range 1 (Z.of_nat (length argv)) (fun i t =>
    a ← Prelude.load argv i;
    t ← Terminal.write a t;
    if i =? Z.of_nat (length argv) - 1 then mret t else Terminal.write (chars " ") t) t;
  Terminal.write [10] t.

(** [char target[128]; VFS::normalizePath(g_cwd, argv[i], target, sizeof(target));] *)
Definition target_of argv (i : Z) x : outcome (list Z) :=
  a ← Prelude.load argv i; normalizePath (g_cwd x) a 128.

Definition run_mount argv x t : outcome (Shell W * Terminal P) :=
  if fewer argv 3 then
    t ← Terminal.write (ln "Usage: mount <device> <mountpoint>") t;
    t ← Terminal.write (ln "  e.g. mount sata0 /home") t; mret (x, t)
  else
    dev ← Prelude.load argv 1;
    mp ← Prelude.load argv 2;
    '(ok, v) ← Vfs.mount mp dev ext2_driver (g_vfs x);
    let x := with_vfs x v in
    if negb ok then t ← Terminal.write (ln "Mount failed.") t; mret (x, t) else
    t ← printf (ln "Mounted %s at %s") [ArgStr (Some dev); ArgStr (Some mp)] t; mret (x, t).

Definition run_umount argv x t : outcome (Shell W * Terminal P) :=
  if fewer argv 2 then t ← Terminal.write (ln "Usage: umount <mountpoint>") t; mret (x, t) else
  mp ← Prelude.load argv 1;
  '(ok, v) ← Vfs.unmount mp (g_vfs x);
  let x := with_vfs x v in
  if negb ok then t ← Terminal.write (ln "Umount failed (not mounted?).") t; mret (x, t) else
  t ← Terminal.write (chars "Unmounted ") t; t ← Terminal.write mp t; t ← Terminal.write [10] t; mret (x, t).

(** [while (VFS::listDirectory(target, index, &entry)) ...] *)
Fixpoint ls_loop (n : nat) (target : list Z) (index : Z) (any : bool) v t : outcome (bool * Vfs W * Terminal P) :=
  match n with
  | O => Halt
  | S n' =>
      '(e, v) ← listDirectory target index v;
      match e with
      | None => mret (any, v, t)
      | Some entry =>
          t ← Terminal.write (de_name entry) t;
          t ← (if de_is_directory entry then Terminal.write (chars "/") t else mret t);
          t ← Terminal.write [10] t;
          ls_loop n' target (index + 1) true v t
      end
  end.

Definition run_ls argv x t : outcome (Shell W * Terminal P) :=
  arg ← (if fewer argv 2 then mret (chars ".") else Prelude.load argv 1);
  target ← normalizePath (g_cwd x) arg 128;
  '(d, v) ← isDirectory target (g_vfs x);
  if negb d then
    t ← Terminal.write (chars "Not a directory: ") t; t ← Terminal.write target t; t ← Terminal.write [10] t;
    mret (with_vfs x v, t)
  else
    '(any, v, t) ← ls_loop fuel target 0 false v t;
    t ← (if any : bool then mret t else Terminal.write (ln "(empty)") t);
    mret (with_vfs x v, t).

Definition run_cd argv x t : outcome (Shell W * Terminal P) :=
  arg ← (if fewer argv 2 then mret (chars "/") else Prelude.load argv 1);
  target ← normalizePath (g_cwd x) arg 128;
  '(d, v) ← isDirectory target (g_vfs x);
  if negb d then
    t ← Terminal.write (chars "No such directory: ") t; t ← Terminal.write target t; t ← Terminal.write [10] t;
    mret (with_vfs x v, t)
  else mret (mkShell (fixed 128 target) v, t).

Definition run_pwd x t : outcome (Terminal P) := t ← Terminal.write (g_cwd x) t; Terminal.write [10] t.

Definition run_lsdisks x t : outcome (Terminal P) :=
  let count := blockDeviceCount (g_vfs x) in
  if count =? 0 then Terminal.write (ln "No block devices registered.") t else
  for_range 0 count (fun i t =>
    match getBlockDevice i (g_vfs x) with
    | None => Fault
    | Some dev =>
        t ← Terminal.write (chars "/dev/disks/") t;
        t ← Terminal.write (dev_name dev) t;
        t ← Terminal.write (chars "  ") t;
        t ← writeDec (sector_count dev) t;
        t ← Terminal.write (chars " sectors (~") t;
        t ← writeDec (u64 (sector_count dev * sector_size dev) / (1024 * 1024)) t;
        Terminal.write (ln " MB)") t
    end) t.

Definition run_mounts x t : outcome (Terminal P) :=
  let count := mountCount (g_vfs x) in
  if count =? 0 then Terminal.write (ln "No filesystems mounted.") t else
  for_range 0 count (fun i t =>
    match getMount i (g_vfs x) with
    | None => Fault
    | Some (mp, dev, fs) =>
        t ← Terminal.write mp t;
        t ← Terminal.write (chars "  <- ") t;
        t ← Terminal.write dev t;
        t ← Terminal.write (chars " (") t;
        t ← Terminal.write fs t;
        Terminal.write (ln ")") t
    end) t.

(** The commands that pass a path on and report the answer. *)
Definition path_command (usage yes no : list Z) (op : list Z -> Vfs W -> outcome (bool * Vfs W)) argv x t : outcome (Shell W * Terminal P) :=
  if fewer argv 2 then t ← Terminal.write usage t; mret (x, t) else
  target ← target_of argv 1 x;
  '(ok, v) ← op target (g_vfs x);
  t ← Terminal.write (if ok : bool then yes else no) t;
  mret (with_vfs x v, t).

Definition run_touch := path_command (ln "Usage: touch <path>") (ln "Created.") (ln "Failed.") (fun p => Vfs.create p false).
Definition run_mkdir := path_command (ln "Usage: mkdir <path>") (ln "Created.") (ln "Failed.") (fun p => Vfs.create p true).
Definition run_rm := path_command (ln "Usage: rm <path>") (ln "Removed.") (ln "Failed.") Vfs.unlink.
Definition run_rmdir :=
  path_command (ln "Usage: rmdir <path>") (ln "Removed.") (ln "Failed (not empty or not found).") Vfs.rmdir.

(** The descriptor of [target], created when it cannot be opened; [inl] is the
    message of the step that failed. *)
Definition open_or_create (target : list Z) v : outcome (sum (list Z) Z * Vfs W) :=
  '(fd, v) ← Vfs.open target v;
  if negb (fd =? INVALID_FD) then mret (inr fd, v) else
  '(ok, v) ← Vfs.create target false v;
  if negb ok then mret (Datatypes.inl (ln "Create failed."), v) else
  '(fd, v) ← Vfs.open target v;
  if fd =? INVALID_FD then mret (Datatypes.inl (ln "Open failed."), v) else mret (inr fd, v).

Definition run_writefile argv x t : outcome (Shell W * Terminal P) :=
  if fewer argv 3 then t ← Terminal.write (ln "Usage: writefile <path> <text>") t; mret (x, t) else
  target ← target_of argv 1 x;
  '(r, v) ← open_or_create target (g_vfs x);
  match r with
  | Datatypes.inl msg => t ← Terminal.write msg t; mret (with_vfs x v, t)
  | inr fd =>
      text ← Prelude.load argv 2;
      '(n, v) ← Vfs.write fd text v;
      v ← Vfs.close fd v;
      t ← Terminal.write (chars "Wrote ") t; t ← writeDec (u64 n) t; t ← Terminal.write (ln " bytes.") t;
      mret (with_vfs x v, t)
  end.

(** [while ((n = VFS::read(fd, buf, sizeof(buf) - 1)) > 0) ...], the last [n]. *)
Fixpoint cat_loop (k : nat) (fd : Z) (buf : list Z) v t : outcome (Z * Vfs W * Terminal P) :=
  match k with
  | O => Halt
  | S k' =>
      '(n, data, v) ← Vfs.read fd 256 v;
      buf ← overlay data buf;
      if 0 <? n then
        buf ← store buf n 0;
        t ← Terminal.write buf t;
        cat_loop k' fd buf v t
      else mret (n, v, t)
  end.

Definition run_cat argv x t : outcome (Shell W * Terminal P) :=
  if fewer argv 2 then t ← Terminal.write (ln "Usage: cat <path>") t; mret (x, t) else
  target ← target_of argv 1 x;
  '(fd, v) ← Vfs.open target (g_vfs x);
  if fd =? INVALID_FD then
    t ← Terminal.write (chars "cat: cannot open ") t; t ← Terminal.write target t; t ← Terminal.write [10] t;
    mret (with_vfs x v, t)
  else
    '(n, v, t) ← cat_loop fuel fd (junk 257) v t;
    t ← (if n <? 0 then Terminal.write ([10] ++ ln "cat: read error") t else mret t);
    v ← Vfs.close fd v;
    t ← Terminal.write [10] t;
    mret (with_vfs x v, t).

Definition on_terminal x (m : outcome (Terminal P)) : outcome (Shell W * Terminal P) := t ← m; mret (x, t).

Definition run_command (c : Command) argv x t : outcome (Shell W * Terminal P) :=
  match c with
  | cmdHelp => on_terminal x (run_help t)
  | cmdClear => on_terminal x (run_clear argv t)
  | cmdEcho => on_terminal x (run_echo argv t)
  | cmdLsDisks => on_terminal x (run_lsdisks x t)
  | cmdMounts => on_terminal x (run_mounts x t)
  | cmdLs => run_ls argv x t
  | cmdCd => run_cd argv x t
  | cmdPwd => on_terminal x (run_pwd x t)
  | cmdMount => run_mount argv x t
  | cmdUmount => run_umount argv x t
  | cmdCat => run_cat argv x t
  | cmdTouch => run_touch argv x t
  | cmdMkdir => run_mkdir argv x t
  | cmdWriteFile => run_writefile argv x t
  | cmdRm => run_rm argv x t
  | cmdRmdir => run_rmdir argv x t
  | _ => other c argv x t
  end.

(** The rest of [executeLine]: the handler of the first word, or a message. *)
Definition exec (argv : list (list Z)) x t : outcome (Shell W * Terminal P) :=
  name ← Prelude.load argv 0;
  match find_command g_commands name with
  | Some c => run_command c argv x t
  | None => t ← Terminal.write (chars "Unknown command: ") t; t ← Terminal.write name t; t ← Terminal.write [10] t; mret (x, t)
  end.

End Commands.

(** ** Proofs *)

(** The table has no two commands of the same name, so every command is found
    under its name and under no other. *)
Theorem find_command_exact name c : find_command g_commands name = Some c <-> (name, c) ∈ g_commands.
Proof.
  assert (Hnd : NoDup g_commands.*1) by (apply (bool_decide_unpack (NoDup g_commands.*1)); vm_compute; exact I).
  revert Hnd. generalize g_commands as table. induction table as [|[n c0] table IH]; intros Hnd; cbn [find_command].
  - split; [done|]. intros Hc. by apply not_elem_of_nil in Hc.
  - apply list.NoDup_cons in Hnd as [Hn Hnd]. rewrite elem_of_cons. destruct (str_eqb name n) eqn:E.
    + apply str_eqb_true in E as ->. split; [intros [= ->]; by left|]. intros [[= ->]|Hc]; [done|]. exfalso. apply Hn.
      by apply (list_elem_of_fmap_2 fst) in Hc.
    + rewrite (IH Hnd). split; [by right|]. intros [[= -> ->]|Hc]; [|done]. exfalso.
      assert (str_eqb n n = true) by (by apply str_eqb_true). congruence.
Qed.

Section CommandProofs.
Context {W P : Type} `{PortIO P}.
Context (ext2_driver : FilesystemDriver W) (junk : nat -> list Z) (fuel : nat).
Context (other : Command -> list (list Z) -> Shell W -> Terminal P -> outcome (Shell W * Terminal P)).
Context (Hjunk : forall n, length (junk n) = n).
Implicit Types (x : Shell W) (t : Terminal P) (v : Vfs W).
Local Abbreviation exec := (exec ext2_driver junk fuel other).

(** *** Paths *)

Lemma resolve_dots_app a b : Forall component a -> resolve_dots (resolve_dots a ++ b) = resolve_dots (a ++ b).
Proof.
  intros Ha. unfold resolve_dots. rewrite !fold_left_app. f_equal. apply (resolve_dots_id (resolve_dots a)). by apply resolve_dots_clean.
Qed.

(** What [normalizePath] leaves in its buffer is absolute and terminated. *)
Lemma normalizePath_shape cwd input n out : normalizePath cwd input n = Ok out -> (exists r, out = SLASH :: r) /\ (length out <= n - 1)%nat.
Proof.
  assert (Hseg : forall seg o o', emit_segment n seg o = Ok o' -> exists r, o' = o ++ r).
  { induction seg as [|c seg IH]; intros o o'; cbn [emit_segment]; [intros [= <-]; exists []; by rewrite app_nil_r|].
    destruct (length o <? n - 2)%nat; [|intros [= <-]; exists []; by rewrite app_nil_r]. unfold emit at 1. destruct (length o <? n)%nat; [|done].
    cbn [mbind outcome_bind]. intros (r & ->)%IH. exists (c :: r). by rewrite <- app_assoc. }
  assert (Hsegs : forall segs o o', emit_segments n segs o = Ok o' -> exists r, o' = o ++ r).
  { induction segs as [|s [|s2 segs] IH]; intros o o'; [intros [= <-]; exists []; by rewrite app_nil_r | apply Hseg |].
    rewrite emit_segments_cons. destruct (emit_segment n s o) as [o1| |] eqn:E1; try done. cbn [mbind outcome_bind]. unfold emit at 1.
    destruct (length o1 <? n)%nat; [|done]. cbn [mbind outcome_bind]. intros (r & ->)%IH. apply Hseg in E1 as (r1 & ->).
    exists (r1 ++ SLASH :: r). by rewrite <- !app_assoc. }
  unfold normalizePath, emit. destruct (length (@nil Z) <? n)%nat; [|done]. cbn [mbind outcome_bind app].
  destruct (emit_segments n _ [SLASH]) as [o| |] eqn:E; try done. cbn [mbind outcome_bind].
  destruct (Nat.ltb_spec (length o) n); [|done]. intros [= <-]. apply Hsegs in E as (r & ->). split; [by exists r | lia].
Qed.

(** *** Printing *)

Lemma show_text t s cs : (length s.2 < 80)%nat -> shows t s -> Forall (fun c => c <> 0) cs ->
  exists t', Terminal.write cs t = Ok t' /\ shows t' (type_text (color t) s cs) /\ same_frame t t' /\
    (length (type_text (color t) s cs).2 < 80)%nat.
Proof. intros Hl Hs Hc. rewrite write_chars by done. by apply foldM_putChar_ok. Qed.

Lemma type_text_app c s a b : type_text c s (a ++ b) = type_text c (type_text c s a) b.
Proof. apply fold_left_app. Qed.

(** *** cat *)

Section Cat.
Context (v0 : Vfs W) (ms : list (Mount W)) (wd : W) (mi : nat) (mt : Mount W) (h : FileHandle) (fd : Z) (content : list Z).
Context (Hmt : ms !! mi = Some mt) (Hslices : reads_slices (driver mt) (fs_instance mt) h wd content).
Context (Hsize : Z.of_nat (length content) < 2 ^ 60) (Htext : c_string content).

(** The last round, at the end of the file. *)
Lemma cat_loop_end k buf v t : file_at v0 ms wd mi h fd (Z.of_nat (length content)) v ->
  exists v', cat_loop (S k) fd buf v t = Ok (0, v', t) /\ file_at v0 ms wd mi h fd (Z.of_nat (length content)) v'.
Proof.
  intros Hf. destruct (read_step v0 ms wd mi mt h fd content Hmt Hslices Hsize _ 256 v Hf) as (v1 & E1 & F1); [lia | rewrite Nat2Z.id, drop_all; simpl; lia|].
  rewrite Nat2Z.id, drop_all, take_nil in *. cbn [cat_loop]. run_call E1. cbn [length] in *. exists v1. rewrite Z.add_0_r in F1.
  split; [|done]. unfold overlay. cbn. by rewrite drop_0.
Qed.

(** A round in the middle of it. *)
Lemma cat_loop_round k off buf v t s : file_at v0 ms wd mi h fd (Z.of_nat off) v -> (off < length content)%nat ->
  length buf = 257%nat -> (length s.2 < 80)%nat -> shows t s ->
  let data := take 256 (drop off content) in
  exists v' t' buf', cat_loop (S k) fd buf v t = cat_loop k fd buf' v' t' /\ length buf' = 257%nat /\
    file_at v0 ms wd mi h fd (Z.of_nat (off + length data)) v' /\
    shows t' (type_text (color t) s data) /\ color t' = color t /\ (length (type_text (color t) s data).2 < 80)%nat.
Proof.
  intros Hf Hlt Hb Hl Hs data. assert (Hdl : length data = Nat.min 256 (length content - off)) by (unfold data; by rewrite length_take, length_drop).
  destruct (read_step v0 ms wd mi mt h fd content Hmt Hslices Hsize _ 256 v Hf) as (v1 & E1 & F1);
    [lia | change (Z.to_nat 256) with 256%nat; rewrite Nat2Z.id; fold data; lia|].
  change (Z.to_nat 256) with 256%nat in *. rewrite Nat2Z.id in *. fold data in E1, F1. cbn [cat_loop]. run_call E1.
  unfold overlay. rewrite (proj2 (Nat.leb_le _ _)) by lia. cbn [mbind outcome_bind].
  rewrite (proj2 (Z.ltb_lt 0 _)) by lia. rewrite store_in_range by (rewrite length_app, length_drop; lia). cbn [mbind outcome_bind].
  assert (Hrest : exists y r, drop (length data) buf = y :: r).
  { destruct (drop (length data) buf) as [|y r] eqn:E; [|by exists y, r]. apply (f_equal length) in E. rewrite length_drop in E. simpl in E. lia. }
  destruct Hrest as (y & r & Er). rewrite Er, Nat2Z.id, insert_app_r_alt, Nat.sub_diag by lia. cbn [insert list_insert].
  assert (Hd0 : Forall (fun c => c <> 0) data) by (by apply list.Forall_take, list.Forall_drop).
  destruct (show_text t s data Hl Hs Hd0) as (t1 & Et & S1 & (Ec & _) & L1).
  rewrite write_until_nul, until_nul_app by done. run_call Et. exists v1, t1, (data ++ 0 :: r). split; [done|]. split_and!; try done.
  - rewrite length_app. apply (f_equal length) in Er. rewrite length_drop in Er. simpl in *. lia.
  - by rewrite Nat2Z.inj_add.
Qed.

Lemma cat_loop_ok k : forall off buf v t s, file_at v0 ms wd mi h fd (Z.of_nat off) v -> (off <= length content)%nat ->
  (length content - off <= 256 * k)%nat -> length buf = 257%nat -> (length s.2 < 80)%nat -> shows t s ->
  exists v' t', cat_loop (S k) fd buf v t = Ok (0, v', t') /\ file_at v0 ms wd mi h fd (Z.of_nat (length content)) v' /\
    shows t' (type_text (color t) s (drop off content)) /\ color t' = color t /\
    (length (type_text (color t) s (drop off content)).2 < 80)%nat.
Proof.
  assert (Hend : forall k buf v t s, file_at v0 ms wd mi h fd (Z.of_nat (length content)) v -> (length s.2 < 80)%nat -> shows t s ->
    exists v' t', cat_loop (S k) fd buf v t = Ok (0, v', t') /\ file_at v0 ms wd mi h fd (Z.of_nat (length content)) v' /\
    shows t' (type_text (color t) s (drop (length content) content)) /\ color t' = color t /\
    (length (type_text (color t) s (drop (length content) content)).2 < 80)%nat).
  { intros k' buf v t s Hf Hl Hs. destruct (cat_loop_end k' buf v t Hf) as (v' & E & F). exists v', t. rewrite drop_all. by split_and!. }
  induction k as [|k IH]; intros off buf v t s Hf Hoff Hk Hb Hl Hs; (destruct (decide (off = length content)) as [->|Hne]; [by apply Hend|]).
  { lia. }
  destruct (cat_loop_round (S k) off buf v t s Hf) as (v1 & t1 & b1 & E1 & Hb1 & F1 & S1 & C1 & L1); [lia | done | done | done |].
  rewrite E1. assert (Hdl : length (take 256 (drop off content)) = Nat.min 256 (length content - off)) by (by rewrite length_take, length_drop).
  destruct (IH _ b1 v1 t1 _ F1 ltac:(lia) ltac:(lia) Hb1 L1 S1) as (v2 & t2 & E2 & F2 & S2 & C2 & L2).
  exists v2, t2. rewrite C1, <- type_text_app, <- drop_drop in S2, L2.
  assert (Esplit : take 256 (drop off content) ++ drop (length (take 256 (drop off content))) (drop off content) = drop off content).
  { rewrite Hdl. destruct (decide (256 <= length content - off)%nat).
    - rewrite Nat.min_l by lia. apply take_drop.
    - rewrite Nat.min_r by lia. rewrite (take_ge (drop off content)) by (rewrite length_drop; lia).
      rewrite (drop_ge (drop off content)) by (rewrite length_drop; lia). by rewrite app_nil_r. }
  rewrite Esplit in S2, L2. split_and!; try done. congruence.
Qed.
End Cat.

Lemma run_cat_ok name arg rest x t s target fd mi mt fh wd wd' content :
  normalizePath (g_cwd x) arg 128 = Ok target -> opens (g_vfs x) target fd mi mt fh wd content ->
  drv_close (driver mt) (fs_instance mt) fh wd = Ok wd' -> c_string content -> Z.of_nat (length content) < 2 ^ 60 ->
  (length content + 256 <= 256 * fuel)%nat -> shows t s -> (length s.2 < 80)%nat ->
  exists v' t', run_cat junk fuel (name :: arg :: rest) x t = Ok (mkShell (g_cwd x) v', t') /\
    shows t' (type_text (color t) s (content ++ [10])) /\ world v' = wd' /\ g_mounts v' = g_mounts (g_vfs x) /\
    forall fd', get_file fd' v' = get_file fd' (g_vfs x).
Proof.
  intros Hn Hop Hclose Htext Hsize Hfuel Hsh Hl. destruct (open_file_at _ _ _ _ _ _ _ _ Hop) as (v1 & E1 & Hnone & Hfd & F1).
  pose proof Hop as [_ _ Hmt _ Hsl]. unfold run_cat. cbn [fewer length Nat.ltb Nat.leb]. unfold target_of.
  assert (Ea : Prelude.load (name :: arg :: rest) 1 = Ok arg) by done. run_call Ea. run_call Hn. run_call E1.
  unfold INVALID_FD. rewrite (proj2 (Z.eqb_neq (Z.of_nat fd) (-1))) by lia.
  destruct fuel as [|k]; [lia|].
  destruct (cat_loop_ok _ _ _ _ mt _ _ content Hmt Hsl Hsize Htext k 0 (junk 257) v1 t s F1) as (v2 & t2 & E2 & F2 & S2 & C2 & L2);
    [lia | lia | apply Hjunk | done | done |]. run_call E2. cbn [Z.ltb Z.compare].
  cbn [mbind outcome_bind]. destruct (close_file_at _ _ _ wd' _ mt _ _ _ _ F2 Hmt ltac:(lia) Hnone Hclose) as (v3 & E3 & Hw3 & Hm3 & Hg3). run_call E3.
  rewrite drop_0 in *. destruct (show_text t2 _ [10] L2 S2) as (t3 & E4 & S3 & _ & _); [by repeat constructor|]. run_call E4.
  exists v3, t3. split; [done|]. rewrite type_text_app. rewrite C2 in S3. done.
Qed.

(** *** ls *)

Definition entry_line (e : DirEntry) : list Z := de_name e ++ (if de_is_directory e then chars "/" else []) ++ [10].

(** The directory [path] has the entries [es], in this order. *)
Definition lists v (path : list Z) (es : list DirEntry) : Prop :=
  (forall k e, es !! k = Some e -> listDirectory path (Z.of_nat k) v = Ok (Some e, v) /\ c_string (de_name e)) /\
  listDirectory path (Z.of_nat (length es)) v = Ok (None, v).

Lemma ls_loop_ok path es v : lists v path es -> forall n k any t s, (k <= length es)%nat -> (length es - k < n)%nat ->
  shows t s -> (length s.2 < 80)%nat ->
  exists t', ls_loop n path (Z.of_nat k) any v t = Ok (any || (k <? length es)%nat, v, t') /\
    shows t' (type_text (color t) s (concat (entry_line <$> drop k es))) /\ color t' = color t /\
    (length (type_text (color t) s (concat (entry_line <$> drop k es))).2 < 80)%nat.
Proof.
  intros [Hes Hend] n. induction n as [|n IH]; intros k any t s Hk Hn Hs Hl; [lia|]. cbn [ls_loop].
  destruct (decide (k = length es)) as [->|Hne].
  { run_call Hend. exists t. rewrite drop_all, Nat.ltb_irrefl, orb_false_r. by split_and!. }
  destruct (lookup_lt_is_Some_2 es k) as [e He]; [lia|]. destruct (Hes k e He) as [El Hname]. run_call El.
  assert (Hline : Forall (fun c => c <> 0) (entry_line e)).
  { unfold entry_line. rewrite !Forall_app. split_and!; [done | destruct (de_is_directory e); by repeat constructor | by repeat constructor]. }
  destruct (show_text t s (entry_line e) Hl Hs Hline) as (t1 & E1 & S1 & (C1 & _) & L1).
  assert (Hw : forall (k : Terminal P -> outcome (bool * Vfs W * Terminal P)), (t ← Terminal.write (de_name e) t;
      t ← (if de_is_directory e then Terminal.write (chars "/") t else mret t); t ← Terminal.write [10] t; k t) = k t1).
  { intros k'. unfold entry_line in E1. rewrite write_app in E1 by done. destruct (Terminal.write (de_name e) t); try done.
    cbn [mbind outcome_bind] in *. destruct (de_is_directory e).
    - rewrite write_app in E1 by (by repeat constructor). destruct (Terminal.write (chars "/") a); try done. cbn [mbind outcome_bind] in *. by rewrite E1.
    - cbn [mbind outcome_bind mret outcome_ret app] in *. by rewrite E1. }
  rewrite Hw. replace (Z.of_nat k + 1) with (Z.of_nat (S k)) by lia.
  destruct (IH (S k) true t1 _ ltac:(lia) ltac:(lia) S1 L1) as (t2 & E2 & S2 & C2 & L2). exists t2.
  rewrite C1, <- type_text_app in S2, L2. rewrite (drop_S es e k He). cbn [fmap list_fmap concat].
  split; [|split_and!; try done; congruence]. rewrite E2. rewrite (proj2 (Nat.ltb_lt k (length es))) by lia. by rewrite orb_true_r.
Qed.

(** *** cd *)

Lemma run_cd_ok name rest x t segs items : g_cwd x = render segs -> Forall VfsProofs.clean segs -> Forall component items -> items <> [] ->
  (length (segs ++ items) <= 32)%nat -> (length (render (segs ++ items)) <= 126)%nat ->
  isDirectory (render (resolve_dots (segs ++ items))) (g_vfs x) = Ok (true, g_vfs x) ->
  run_cd (name :: join items :: rest) x t = Ok (mkShell (render (resolve_dots (segs ++ items))) (g_vfs x), t).
Proof.
  intros Hcwd Hc Hi Hne Hl Hr Hd. assert (Hsegs : Forall component segs) by (eapply Forall_impl; [|exact Hc]; by intros ? []).
  unfold run_cd. cbn [fewer length Nat.ltb Nat.leb]. assert (Ea : Prelude.load (name :: join items :: rest) 1 = Ok (join items)) by done. run_call Ea.
  rewrite Hcwd, normalize_relative by (done || lia). cbn [mbind outcome_bind]. run_call Hd. cbn [negb].
  unfold fixed. rewrite take_ge; [done|]. pose proof (weight_resolve [] (segs ++ items)) as Hw. rewrite length_render in *.
  unfold resolve_dots. simpl in Hw. lia.
Qed.

(** A path relative to the working directory that [cd] left is the joined path. *)
Lemma normalize_after_cd segs p q : Forall VfsProofs.clean segs -> Forall component p -> Forall component q -> q <> [] ->
  (length (segs ++ p ++ q) <= 32)%nat -> (length (render (segs ++ p ++ q)) <= 126)%nat ->
  normalizePath (render (resolve_dots (segs ++ p))) (join q) 128 = Ok (render (resolve_dots (segs ++ p ++ q))).
Proof.
  intros Hc Hp Hq Hne Hl Hr. assert (Hsegs : Forall component segs) by (eapply Forall_impl; [|exact Hc]; by intros ? []).
  assert (Hsp : Forall component (segs ++ p)) by (by apply Forall_app).
  pose proof (weight_resolve [] (segs ++ p)) as Hw. pose proof (length_resolve [] (segs ++ p)) as Hlen. simpl in Hw, Hlen.
  rewrite normalize_relative; [| | done | done | | | lia].
  - by rewrite resolve_dots_app, <- app_assoc.
  - eapply Forall_impl; [|apply resolve_dots_clean; exact Hsp]. by intros ? [].
  - unfold resolve_dots. rewrite !length_app in *. lia.
  - unfold resolve_dots. rewrite length_render, !weight_app in *. lia.
Qed.

(** C21. Changing the directory and printing a file: after [cd p] the command
    [cat q] opens the file that [p/q] names from the old directory, with every
    [.] and [..] resolved, shows its whole contents on the terminal, closes it
    and leaves the other descriptors and the mounts as they were. *)
Theorem cd_then_cat segs p q x t s fd mi mt fh wd wd' content :
  g_cwd x = render segs -> Forall VfsProofs.clean segs -> Forall component p -> p <> [] -> Forall component q -> q <> [] ->
  (length (segs ++ p ++ q) <= 32)%nat -> (length (render (segs ++ p ++ q)) <= 126)%nat ->
  isDirectory (render (resolve_dots (segs ++ p))) (g_vfs x) = Ok (true, g_vfs x) ->
  opens (g_vfs x) (render (resolve_dots (segs ++ p ++ q))) fd mi mt fh wd content ->
  drv_close (driver mt) (fs_instance mt) fh wd = Ok wd' -> c_string content -> Z.of_nat (length content) < 2 ^ 60 ->
  (length content + 256 <= 256 * fuel)%nat -> shows t s -> (length s.2 < 80)%nat ->
  exists v' t', ('(x, t) ← exec [chars "cd"; join p] x t; exec [chars "cat"; join q] x t) =
      Ok (mkShell (render (resolve_dots (segs ++ p))) v', t') /\
    shows t' (type_text (color t) s (content ++ [10])) /\ world v' = wd' /\ g_mounts v' = g_mounts (g_vfs x) /\
    forall fd', get_file fd' v' = get_file fd' (g_vfs x).
Proof.
  intros Hcwd Hc Hp Hpn Hq Hqn Hl Hr Hd Hop Hclose Htext Hsize Hfuel Hs Hls.
  assert (E1 : exec [chars "cd"; join p] x t = Ok (mkShell (render (resolve_dots (segs ++ p))) (g_vfs x), t)).
  { change (exec [chars "cd"; join p] x t) with (run_cd [chars "cd"; join p] x t). apply run_cd_ok; try done.
    - rewrite !length_app in *. lia.
    - rewrite length_render, !weight_app in *. lia. }
  run_call E1. set (x1 := mkShell _ _). change (exec [chars "cat"; join q] x1 t) with (run_cat junk fuel [chars "cat"; join q] x1 t).
  eapply (run_cat_ok _ _ _ x1); try done. by apply normalize_after_cd.
Qed.

(** Listing a directory: [ls] shows the names of its entries, one per line
    and in order, with a slash behind those of directories, or [(empty)]; the
    file system is as before. *)
Theorem ls_shows_entries segs p x t s es : g_cwd x = render segs -> Forall component segs -> Forall component p -> p <> [] ->
  (length (segs ++ p) <= 32)%nat -> (length (render (segs ++ p)) <= 126)%nat ->
  let path := render (resolve_dots (segs ++ p)) in
  isDirectory path (g_vfs x) = Ok (true, g_vfs x) -> lists (g_vfs x) path es -> (length es < fuel)%nat ->
  shows t s -> (length s.2 < 80)%nat ->
  exists t', exec [chars "ls"; join p] x t = Ok (x, t') /\
    shows t' (type_text (color t) s (if es is [] then ln "(empty)" else concat (entry_line <$> es))).
Proof.
  intros Hcwd Hc Hp Hpn Hl Hr path Hd Hes Hf Hs Hls.
  change (exec [chars "ls"; join p] x t) with (run_ls fuel [chars "ls"; join p] x t). unfold run_ls. cbn [fewer length Nat.ltb Nat.leb].
  assert (Ea : Prelude.load [chars "ls"; join p] 1 = Ok (join p)) by done. run_call Ea.
  rewrite Hcwd, normalize_relative by (done || lia). cbn [mbind outcome_bind]. fold path. run_call Hd. cbn [negb].
  destruct (ls_loop_ok path es (g_vfs x) Hes fuel 0 false t s ltac:(lia) ltac:(lia) Hs Hls) as (t1 & E1 & S1 & C1 & L1).
  change (Z.of_nat 0) with 0 in E1. run_call E1. rewrite drop_0 in *. replace (with_vfs x (g_vfs x)) with x by (by destruct x). destruct es as [|e es]; cbn [length Nat.ltb Nat.leb orb].
  - destruct (show_text t1 _ (ln "(empty)") L1 S1) as (t2 & E2 & S2 & _ & _); [by repeat constructor|]. run_call E2. exists t2.
    by rewrite C1 in S2.
  - exists t1. by split.
Qed.

(** *** The working directory *)

Ltac open_calls :=
  repeat match goal with
  | E : _ ≫= _ = Ok _ |- _ => let a := fresh "a" in apply bind_ok in E as (a & ? & E)
  | E : context [match ?p with (_, _) => _ end] |- _ => is_var p; destruct p
  | E : context [if ?b then _ else _] |- _ => destruct b
  | E : context [match ?r with Datatypes.inl _ => _ | inr _ => _ end] |- _ => is_var r; destruct r
  | E : mret _ = Ok _ |- _ => injection E as <- <-
  end.

Lemma only_cd_moves c argv x t x' t' :
  (forall x t x' t', other c argv x t = Ok (x', t') -> g_cwd x' = g_cwd x) ->
  run_command ext2_driver junk fuel other c argv x t = Ok (x', t') ->
  g_cwd x' = g_cwd x \/ exists arg, normalizePath (g_cwd x) arg 128 = Ok (g_cwd x').
Proof.
  intros Hother E. destruct c; cbn [run_command] in E; unfold on_terminal in E; try (left; by eapply Hother);
    unfold run_mount, run_umount, run_ls, run_touch, run_mkdir, run_rm, run_rmdir, path_command, run_writefile, run_cat in E;
    try (left; open_calls; done).
  unfold run_cd in E. apply bind_ok in E as (arg & _ & E). apply bind_ok in E as (target & En & E). apply bind_ok in E as ([d v] & _ & E).
  destruct d; cbn [negb] in E; [|left; by open_calls]. injection E as <- <-. right. exists arg. cbn [g_cwd].
  apply normalizePath_shape in En as En'. unfold fixed. rewrite take_ge; [done | lia].
Qed.

(** Every command that returns leaves an absolute working directory of at most
    127 characters. *)
Theorem cwd_stays_absolute argv x t x' t' :
  (forall c x t x' t', other c argv x t = Ok (x', t') -> g_cwd x' = g_cwd x) ->
  (exists r, g_cwd x = SLASH :: r) /\ (length (g_cwd x) <= 127)%nat -> exec argv x t = Ok (x', t') ->
  (exists r, g_cwd x' = SLASH :: r) /\ (length (g_cwd x') <= 127)%nat.
Proof.
  intros Hother Hx E. unfold ShellCommands.exec in E. apply bind_ok in E as (name & _ & E).
  destruct (find_command g_commands name) as [c|]; [|by open_calls].
  apply only_cd_moves in E as [->|(arg & En)]; [done | | by apply Hother]. by apply normalizePath_shape in En.
Qed.

End CommandProofs.

(** ** Examples *)

Definition toy_other (_ : Command) (_ : list (list Z)) (x : Shell unit) (t : Terminal PortLog) : outcome (Shell unit * Terminal PortLog) := Ok (x, t).
Definition toy_shell : Shell unit := mkShell (chars "/") toy_vfs.
Definition toy_junk (n : nat) : list Z := replicate n 170.
Definition toy_exec := exec toy_driver toy_junk 8 toy_other.

Lemma toy_opens : opens toy_vfs toy_path 1 1 (toy_mount true mnt) toy_handle tt toy_content.
Proof. split; [done | by exists [102] | done | done | intros off count _ _; done]. Qed.

Lemma cd_then_cat_witness : exists v' t',
  ('(x, t) ← toy_exec [chars "cd"; chars "mnt"] toy_shell cleared_terminal; toy_exec [chars "cat"; chars "f"] x t) =
    Ok (mkShell (chars "/mnt") v', t') /\ shows t' (type_text (color cleared_terminal) ([], []) (toy_content ++ [10])).
Proof.
  destruct (cd_then_cat toy_driver toy_junk 8 toy_other ltac:(intros; apply length_replicate) [] [chars "mnt"] [chars "f"] toy_shell
    cleared_terminal ([], []) 1 1 (toy_mount true mnt) toy_handle tt tt toy_content) as (v' & t' & E & S & _);
    [reflexivity | constructor | by repeat constructor | done | by repeat constructor | done | simpl; lia | simpl; lia | reflexivity |
     exact toy_opens | reflexivity | by repeat constructor | simpl; lia | simpl; lia | exact cleared_terminal_shows | simpl; lia |].
  by exists v', t'.
Defined.

Definition root_entries : list DirEntry := [mkEntry (chars "dev") true; mkEntry (chars "m") true; mkEntry (chars "mnt") true].

Lemma root_lists : lists toy_vfs (chars "/") root_entries.
Proof.
  split; [|reflexivity]. intros k e Hk. do 3 (destruct k as [|k]; [injection Hk as <-; split; [reflexivity | by repeat constructor]|]). done.
Qed.

Lemma ls_shows_entries_witness : exists t', toy_exec [chars "ls"; chars "."] toy_shell cleared_terminal = Ok (toy_shell, t') /\
  shows t' (type_text (color cleared_terminal) ([], []) (ln "dev/" ++ ln "m/" ++ ln "mnt/")).
Proof.
  destruct (ls_shows_entries toy_driver toy_junk 8 toy_other [] [chars "."] toy_shell cleared_terminal ([], []) root_entries)
    as (t' & E & S); [reflexivity | constructor | by repeat constructor | done | simpl; lia | simpl; lia | reflexivity | exact root_lists |
      simpl; lia | exact cleared_terminal_shows | simpl; lia |].
  exists t'. split; [exact E | exact S].
Defined.

(** The editor, the tokenizer, the commands, the file system and the terminal
    together: the keys of two lines show a file. *)
Example typed_session_shows_file : exists L x t,
  keys toy_exec g_cwd (chars "cd mnt" ++ [10] ++ chars "cat  f" ++ [10]) boot_line toy_shell cleared_terminal = Ok (L, x, t) /\
  g_cwd x = chars "/mnt" /\ take 1 (drop (80 * 7) (buffer t)) = [vgaEntry 20 0x0F].
Proof. eexists _, _, _. split_and!; [vm_compute; reflexivity | vm_compute; reflexivity | vm_compute; reflexivity]. Qed.
