(* ===== verification/Ahci.v ===== *)
(** The AHCI disk driver, [src/src/drivers/ahci/ahci.cpp] and [ahci.h].

    The driver talks to the controller through memory-mapped registers and
    through structures in memory that the controller reads and writes itself.
    [AhciHost] is what it uses of the machine: frames and mappings (the
    physical and virtual memory managers), bytes at virtual addresses, the
    controller's registers by their offset from [g_hba], and the tick counter;
    [host_hlt] stands for the halts up to the next tick: another interrupt ends
    a halt with the counter unchanged, and the loop that halts does so again.
    A load of a register may
    change the machine, a structure in memory is accessed byte by byte.

    The messages on the serial port and the terminal are left out. *)

From Stdlib Require Import ZifyBool.
From S2P Require Import Prelude Io Format Bytes Pci Vfs.

Class AhciHost (E : Type) := {
  host_alloc : E -> outcome (Z * E);
  host_map : Z -> Z -> Z -> E -> outcome E;
  host_load8 : Z -> E -> outcome Z;
  host_store8 : Z -> Z -> E -> outcome E;
  reg_load : Z -> E -> Z * E;
  reg_store : Z -> Z -> E -> E;
  host_ticks : E -> Z;
  host_hlt : E -> E;
}.

Definition PCI_CLASS_MASS_STORAGE : Z := 0x01.
Definition PCI_SUBCLASS_SATA : Z := 0x06.
Definition ABAR_VIRT_ADDR : Z := 0xFFFFFFFFC1000000.
Definition PORT_BUFFER_VIRT_BASE : Z := 0xFFFFFFFFC2000000.
Definition SSTS_DET_MASK : Z := 0x0F.
Definition SSTS_DET_PRESENT : Z := 0x03.
Definition SSTS_IPM_SHIFT : Z := 0x08.
Definition SSTS_IPM_MASK : Z := 0x0F.
Definition SSTS_IPM_ACTIVE : Z := 0x01.
Definition SIG_ATA : Z := 0x00000101.
Definition SIG_ATAPI : Z := 0xEB140101.
Definition SIG_SEMB : Z := 0xC33C0101.
Definition SIG_PM : Z := 0x96690101.
Definition CMD_ST : Z := 1.
Definition CMD_SUD : Z := 2.
Definition CMD_POD : Z := 4.
Definition CMD_FRE : Z := 0x10.
Definition CMD_CR : Z := 0x8000.
Definition CMDTABLE_VIRT_BASE : Z := 0xFFFFFFFFC3000000.
Definition IDENTIFY_BUF_VIRT_BASE : Z := 0xFFFFFFFFC4000000.
Definition ATA_CMD_IDENTIFY : Z := 0xEC.
Definition FIS_TYPE_REG_H2D : Z := 0x27.
Definition TFD_STS_BSY : Z := 0x80.
Definition TFD_STS_DRQ : Z := 0x08.
Definition ATA_CMD_READ_DMA_EXT : Z := 0x25.
Definition ATA_CMD_WRITE_DMA_EXT : Z := 0x35.
Definition IO_BUF_VIRT_BASE : Z := 0xFFFFFFFFC5000000.
Definition MAX_SECTORS_PER_TRANSFER : Z := 8.
Definition GHC_HBA_RESET : Z := 1.
Definition GHC_AHCI_ENABLE : Z := 0x80000000.
Definition MAX_PORTS : Z := 32.
Definition DATA_FLAGS : Z := 0x2 .| 0x10.   (* PAGE_WRITABLE | PAGE_CACHE_DISABLE *)

(** Offsets in [HBAMemory] and, from [port], in [HBAPort]. *)
Definition CAP : Z := 0x00.
Definition GHC : Z := 0x04.
Definition PI : Z := 0x0C.
Definition port (p : Z) : Z := 0x100 + p * 0x80.
Definition PxCLB : Z := 0x00.
Definition PxCLBU : Z := 0x04.
Definition PxFB : Z := 0x08.
Definition PxFBU : Z := 0x0C.
Definition PxIS : Z := 0x10.
Definition PxCMD : Z := 0x18.
Definition PxTFD : Z := 0x20.
Definition PxSIG : Z := 0x24.
Definition PxSSTS : Z := 0x28.
Definition PxSCTL : Z := 0x2C.
Definition PxSERR : Z := 0x30.
Definition PxCI : Z := 0x38.

(** Sizes of [HBACommandTable], [FisRegH2D], and the place of the region
    descriptor in the table. *)
Definition SIZEOF_TABLE : Z := 144.
Definition SIZEOF_FIS : Z := 20.
Definition PRDT : Z := 128.

Inductive DeviceType := NoDevice | SATA | SATAPI | SEMB | PortMultiplier | Unknown.

#[export] Instance DeviceType_eq_dec : EqDecision DeviceType.
Proof. solve_decision. Defined.

Record Ahci := mkAhci {
  g_hba : Z;
  g_initialized : bool;
  g_cmdtable_phys : list Z;
  g_port_types : list DeviceType;
}.

Definition low32 (x : Z) : Z := x .& 0xFFFFFFFF.
Definition high32 (x : Z) : Z := (x .>> 32) .& 0xFFFFFFFF.

(** A bit field of a byte or word: [m] is its mask in place. *)
Definition set_field (m v old : Z) : Z := Z.ldiff old m .| (v .& m).

Section Ahci.
Context {E : Type} `{AhciHost E}.
Implicit Types e : E.

(** ** Memory *)

Fixpoint stores (a : Z) (bs : list Z) e : outcome E :=
  match bs with [] => mret e | b :: bs' => e ← host_store8 a b e; stores (a + 1) bs' e end.

Fixpoint loads (a : Z) (n : nat) e : outcome (list Z) :=
  match n with O => mret [] | S n' => b ← host_load8 a e; bs ← loads (a + 1) n' e; mret (b :: bs) end.

Definition store16 (a v : Z) e : outcome E := stores a (le 2 v) e.
Definition store32 (a v : Z) e : outcome E := stores a (le 4 v) e.

Definition modify8 (a m v : Z) e : outcome E := b ← host_load8 a e; host_store8 a (set_field m v b) e.
Definition modify32 (a m v : Z) e : outcome E := bs ← loads a 4 e; store32 a (set_field m v (le_value bs)) e.

(** [n] zero bytes, the loops over [uint64_t] and [uint32_t] elements. *)
Definition zeros (a : Z) (n : nat) e : outcome E := stores a (replicate n 0) e.

(** ** Registers *)

Definition reg_or (off bits : Z) e : E := let (v, e) := reg_load off e in reg_store off (v .| bits) e.

(** ** Waiting *)

Fixpoint delay_loop (fuel : nat) (start ticks : Z) e : outcome E :=
  match fuel with
  | O => Halt
  | S fuel' => if u64 (host_ticks e - start) <? ticks then delay_loop fuel' start ticks (host_hlt e) else mret e
  end.

(** Every [host_hlt] ends with a tick, so [ticks_to_wait] of them are enough. *)
Definition delay_ms (ms : Z) e : outcome E :=
  let ticks_to_wait := u32 (ms * 100) / 1000 in
  let ticks_to_wait := if ticks_to_wait =? 0 then 1 else ticks_to_wait in
  delay_loop (S (Z.to_nat ticks_to_wait)) (host_ticks e) ticks_to_wait e.

(** [for (i = 0; i < n; ++i) { ...; delay_ms(1); }] where [test] says whether
    to leave the loop, and with which result; [false] at the end. *)
Fixpoint poll (n : nat) (test : E -> option bool * E) e : outcome (bool * E) :=
  match n with
  | O => mret (false, e)
  | S n' =>
      let (r, e) := test e in
      match r with Some b => mret (b, e) | None => e ← delay_ms 1 e; poll n' test e end
  end.

(** [if (!(reg & bits)) break;] *)
Definition until_clear (off bits : Z) e : option bool * E :=
  let (v, e) := reg_load off e in (if v .& bits =? 0 then Some true else None, e).

(** [if ((port.ssts & SSTS_DET_MASK) == SSTS_DET_PRESENT) break;] *)
Definition until_present (p : Z) e : option bool * E :=
  let (v, e) := reg_load (port p + PxSSTS) e in (if v .& SSTS_DET_MASK =? SSTS_DET_PRESENT then Some true else None, e).

(** ** Commands *)

Definition list_virt (p : Z) : Z := PORT_BUFFER_VIRT_BASE + p * 4096.
Definition table_virt (p : Z) : Z := CMDTABLE_VIRT_BASE + p * 4096.

(** The wait for the drive, the cleared table, the command header and the
    region descriptor. *)
Definition begin_command (p buf_phys dbc w : Z) e : outcome E :=
  '(_, e) ← poll 1000 (until_clear (port p + PxTFD) (TFD_STS_BSY .| TFD_STS_DRQ)) e;
  e ← zeros (table_virt p) (Z.to_nat SIZEOF_TABLE) e;
  e ← modify8 (list_virt p) 0x1F (SIZEOF_FIS / 4) e;
  e ← modify8 (list_virt p) 0x40 (w .<< 6) e;
  e ← store16 (list_virt p + 2) 1 e;
  e ← store32 (list_virt p + 4) 0 e;
  e ← store32 (table_virt p + PRDT) (low32 buf_phys) e;
  e ← store32 (table_virt p + PRDT + 4) (high32 buf_phys) e;
  e ← modify32 (table_virt p + PRDT + 12) 0x3FFFFF dbc e;
  modify32 (table_virt p + PRDT + 12) 0x80000000 0x80000000 e.

Definition lba_byte (lba k : Z) : Z := u8 ((lba .>> (8 * k)) .& 0xFF).

(** The register FIS, as [issueCommand] fills it in. *)
Definition write_fis (p ata_command lba sector_count : Z) e : outcome E :=
  let fis := table_virt p in
  e ← host_store8 fis FIS_TYPE_REG_H2D e;
  e ← modify8 (fis + 1) 0x80 0x80 e;
  e ← host_store8 (fis + 2) ata_command e;
  e ← host_store8 (fis + 3) 0 e;
  e ← host_store8 (fis + 11) 0 e;
  e ← host_store8 (fis + 4) (lba_byte lba 0) e;
  e ← host_store8 (fis + 5) (lba_byte lba 1) e;
  e ← host_store8 (fis + 6) (lba_byte lba 2) e;
  e ← host_store8 (fis + 8) (lba_byte lba 3) e;
  e ← host_store8 (fis + 9) (lba_byte lba 4) e;
  e ← host_store8 (fis + 10) (lba_byte lba 5) e;
  e ← host_store8 (fis + 7) 0x40 e;
  e ← host_store8 (fis + 12) (u8 (sector_count .& 0xFF)) e;
  host_store8 (fis + 13) (u8 ((sector_count .>> 8) .& 0xFF)) e.

(** The FIS of IDENTIFY: the address and the count are zero. *)
Definition write_identify_fis (p : Z) e : outcome E :=
  let fis := table_virt p in
  e ← host_store8 fis FIS_TYPE_REG_H2D e;
  e ← modify8 (fis + 1) 0x80 0x80 e;
  e ← host_store8 (fis + 2) ATA_CMD_IDENTIFY e;
  foldM (fun k e => host_store8 (fis + k) 0 e) [7; 3; 11; 6; 5; 4; 10; 9; 8; 12; 13] e.

(** One look at the running command. *)
Definition command_done (p : Z) e : option bool * E :=
  let (ci, e) := reg_load (port p + PxCI) e in
  if ci .& 1 =? 0 then (Some true, e) else
  let (status, e) := reg_load (port p + PxIS) e in
  (if status .& 0x40000000 =? 0 then None else Some false, e).

(** Slot 0 is started, at most [n] looks are taken, and the error bit of the
    drive decides. *)
Definition finish_command (n p : Z) e : outcome (bool * E) :=
  let e := reg_or (port p + PxCI) 1 e in
  '(success, e) ← poll (Z.to_nat n) (command_done p) e;
  if negb success then mret (false, e) else
  let (tfd, e) := reg_load (port p + PxTFD) e in
  mret (tfd .& 1 =? 0, e).

Definition issueCommand (p ata_command lba sector_count buf_phys buf_bytes : Z) (is_write : bool) e : outcome (bool * E) :=
  e ← begin_command p buf_phys (u32 (buf_bytes - 1)) (if is_write then 1 else 0) e;
  e ← write_fis p ata_command lba sector_count e;
  finish_command 10000 p e.

(** ** Ports *)

Definition portDeviceType (a : Ahci) (p : Z) : outcome DeviceType :=
  if (p <? 0) || (MAX_PORTS <=? p) then mret NoDevice else load (g_port_types a) p.

Definition portHasDevice (a : Ahci) (p : Z) : outcome bool :=
  t ← portDeviceType a p; mret (negb (bool_decide (t = NoDevice))).

Definition isInitialized (a : Ahci) : bool := g_initialized a.

(** The guards of the three commands. *)
Definition usable (a : Ahci) (p : Z) : outcome bool :=
  if (p <? 0) || (MAX_PORTS <=? p) then mret false else
  if negb (g_initialized a) then mret false else portHasDevice a p.

(** [out_buffer_512_words] after a success. *)
Definition identify (a : Ahci) (p : Z) e : outcome (option (list Z) * E) :=
  ok ← usable a p;
  if negb ok then mret (None, e) else
  '(buf_phys, e) ← host_alloc e;
  if buf_phys =? UINT64_MAX then mret (None, e) else
  let buf_virt := IDENTIFY_BUF_VIRT_BASE + p * 4096 in
  e ← host_map buf_virt buf_phys DATA_FLAGS e;
  e ← begin_command p buf_phys 511 0 e;
  e ← write_identify_fis p e;
  '(ok, e) ← finish_command 1000 p e;
  if negb ok then mret (None, e) else
  bs ← loads buf_virt 512 e;
  mret (Some (unpack (replicate 256 2%nat) bs), e).

(** The bytes copied to [out_buffer], or [None] for [false]. *)
Definition readSectors (a : Ahci) (p lba sector_count : Z) e : outcome (option (list Z) * E) :=
  ok ← usable a p;
  if negb ok then mret (None, e) else
  if (sector_count =? 0) || (MAX_SECTORS_PER_TRANSFER <? sector_count) then mret (None, e) else
  let bytes := u32 (sector_count * 512) in
  '(buf_phys, e) ← host_alloc e;
  if buf_phys =? UINT64_MAX then mret (None, e) else
  let buf_virt := IO_BUF_VIRT_BASE + p * 4096 in
  e ← host_map buf_virt buf_phys DATA_FLAGS e;
  '(ok, e) ← issueCommand p ATA_CMD_READ_DMA_EXT lba (u16 sector_count) buf_phys bytes false e;
  if negb ok then mret (None, e) else
  data ← loads buf_virt (Z.to_nat bytes) e;
  mret (Some data, e).

Definition writeSectors (a : Ahci) (p lba sector_count : Z) (in_buffer : list Z) e : outcome (bool * E) :=
  ok ← usable a p;
  if negb ok then mret (false, e) else
  if (sector_count =? 0) || (MAX_SECTORS_PER_TRANSFER <? sector_count) then mret (false, e) else
  let bytes := u32 (sector_count * 512) in
  '(buf_phys, e) ← host_alloc e;
  if buf_phys =? UINT64_MAX then mret (false, e) else
  let buf_virt := IO_BUF_VIRT_BASE + p * 4096 in
  e ← host_map buf_virt buf_phys DATA_FLAGS e;
  data ← slice in_buffer 0 bytes;
  e ← stores buf_virt data e;
  issueCommand p ATA_CMD_WRITE_DMA_EXT lba (u16 sector_count) buf_phys bytes true e.

(** ** Initialisation *)

Definition set_table (a : Ahci) (p v : Z) : outcome Ahci :=
  ts ← store (g_cmdtable_phys a) p v; mret (mkAhci (g_hba a) (g_initialized a) ts (g_port_types a)).

Definition set_type (a : Ahci) (p : Z) (t : DeviceType) : outcome Ahci :=
  ts ← store (g_port_types a) p t; mret (mkAhci (g_hba a) (g_initialized a) (g_cmdtable_phys a) ts).

Definition setupPortBuffers (a : Ahci) (p : Z) e : outcome (Ahci * E) :=
  '(phys, e) ← host_alloc e;
  if phys =? UINT64_MAX then mret (a, e) else
  e ← host_map (list_virt p) phys DATA_FLAGS e;
  e ← zeros (list_virt p) (Z.to_nat 4096) e;
  let e := reg_store (port p + PxCLB) (low32 phys) e in
  let e := reg_store (port p + PxCLBU) (high32 phys) e in
  let fis := u64 (phys + 0x400) in
  let e := reg_store (port p + PxFB) (low32 fis) e in
  let e := reg_store (port p + PxFBU) (high32 fis) e in
  '(ct_phys, e) ← host_alloc e;
  if ct_phys =? UINT64_MAX then mret (a, e) else
  e ← host_map (table_virt p) ct_phys DATA_FLAGS e;
  e ← zeros (table_virt p) (Z.to_nat 4096) e;
  a ← set_table a p ct_phys;
  e ← store32 (list_virt p + 8) (low32 ct_phys) e;
  e ← store32 (list_virt p + 12) (high32 ct_phys) e;
  e ← store16 (list_virt p + 2) 1 e;
  mret (a, e).

Definition resetHBA e : outcome (bool * E) :=
  let e := reg_or GHC GHC_AHCI_ENABLE e in
  let e := reg_or GHC GHC_HBA_RESET e in
  '(cleared, e) ← poll 1000 (until_clear GHC GHC_HBA_RESET) e;
  mret (cleared, reg_or GHC GHC_AHCI_ENABLE e).

(** The interface reset through [PxSCTL]. *)
Definition reset_link (p : Z) e : outcome E :=
  let (sctl, e) := reg_load (port p + PxSCTL) e in
  let e := reg_store (port p + PxSCTL) (Z.ldiff sctl 0xF .| 0x1) e in
  e ← delay_ms 1 e;
  let (sctl, e) := reg_load (port p + PxSCTL) e in
  mret (reg_store (port p + PxSCTL) (Z.ldiff sctl 0xF) e).

Definition initPort (a : Ahci) (p : Z) e : outcome (bool * Ahci * E) :=
  let (present, e) := until_present p e in
  if bool_decide (present = Some true) then
    '(a, e) ← setupPortBuffers a p e;
    let e := reg_or (port p + PxCMD) CMD_FRE e in
    e ← delay_ms 10 e;
    mret (true, a, reg_or (port p + PxCMD) CMD_ST e)
  else
  let (cmd, e) := reg_load (port p + PxCMD) e in
  let e := reg_store (port p + PxCMD) (Z.ldiff cmd (CMD_ST .| CMD_FRE)) e in
  '(_, e) ← poll 500 (until_clear (port p + PxCMD) CMD_CR) e;
  let e := reg_or (port p + PxCMD) (CMD_SUD .| CMD_POD) e in
  e ← delay_ms 10 e;
  e ← reset_link p e;
  '(detected, e) ← poll 100 (until_present p) e;
  if negb detected then
    let (serr, e) := reg_load (port p + PxSERR) e in mret (false, a, reg_store (port p + PxSERR) serr e)
  else
  '(a, e) ← setupPortBuffers a p e;
  let e := reg_or (port p + PxCMD) CMD_FRE e in
  e ← reset_link p e;
  '(_, e) ← poll 100 (until_present p) e;
  e ← delay_ms 10 e;
  mret (true, a, reg_or (port p + PxCMD) CMD_ST e).

Definition classifyPort (p : Z) e : DeviceType * E :=
  let (ssts, e) := reg_load (port p + PxSSTS) e in
  let det := u8 (ssts .& SSTS_DET_MASK) in
  let ipm := u8 ((ssts .>> SSTS_IPM_SHIFT) .& SSTS_IPM_MASK) in
  if negb (det =? SSTS_DET_PRESENT) then (NoDevice, e) else
  if negb (ipm =? SSTS_IPM_ACTIVE) then (NoDevice, e) else
  let (sig, e) := reg_load (port p + PxSIG) e in
  (if sig =? SIG_ATA then SATA else if sig =? SIG_ATAPI then SATAPI else if sig =? SIG_SEMB then SEMB else
   if sig =? SIG_PM then PortMultiplier else Unknown, e).

Definition deviceTypeName (t : DeviceType) : list Z :=
  match t with
  | SATA => chars "SATA Drive"
  | SATAPI => chars "SATAPI (CD/DVD)"
  | SEMB => chars "Enclosure Management Bridge"
  | PortMultiplier => chars "Port Multiplier"
  | Unknown => chars "Unknown Device"
  | NoDevice => chars "None"
  end.

(** The first AHCI controller among the PCI devices from index [i] on. *)
Fixpoint find_controller (devices : list PCIDevice) : option PCIDevice :=
  match devices with
  | [] => None
  | d :: devices' =>
      if (base_class (header d) =? PCI_CLASS_MASS_STORAGE) && (sub_class (header d) =? PCI_SUBCLASS_SATA) then Some d
      else find_controller devices'
  end.

Definition disk_name (i : Z) : list Z := chars "sata" ++ [u8 (48 + i)].

Section Init.
Context {P W : Type} `{PortIO P}.

(** A SATA drive becomes a block device; its size comes from IDENTIFY. *)
Definition register_drive (a : Ahci) (i : Z) (v : Vfs W) e : outcome (Vfs W * E) :=
  '(id, e) ← identify a i e;
  sectors ← match id with
            | Some ws => lo ← load ws 60; hi ← load ws 61; mret (lo .| u32 (hi .<< 16))
            | None => mret 0
            end;
  mret ((registerBlockDevice (disk_name i) i sectors 512 v).2, e).

Definition init_one (i : Z) (s : Ahci * Vfs W * E) : outcome (Ahci * Vfs W * E) :=
  let '(a, v, e) := s in
  let (pi, e) := reg_load PI e in
  if pi .& (1 .<< i) =? 0 then a ← set_type a i NoDevice; mret (a, v, e) else
  '(ok, a, e) ← initPort a i e;
  if negb ok then a ← set_type a i NoDevice; mret (a, v, e) else
  let (type, e) := classifyPort i e in
  a ← set_type a i type;
  if bool_decide (type = SATA) then '(v, e) ← register_drive a i v e; mret (a, v, e) else mret (a, v, e).

(** The registers that the closing report reads. *)
Definition report_one (i : Z) e : outcome E :=
  let (pi, e) := reg_load PI e in
  if pi .& (1 .<< i) =? 0 then mret e else
  let (_, e) := reg_load (port i + PxSSTS) e in
  let (_, e) := reg_load (port i + PxSIG) e in mret e.

(** Bus mastering is switched on in the controller's command register. *)
Definition enable_dma (d : PCIDevice) (pci : Pci P) : Pci P :=
  let addr := getAddress (bus d) (slot d) (func d) 0x4 in
  let (cmd, p) := configReadDword addr (pci_ports pci) in
  mkPci (g_pci_devices pci) (g_pci_devices_index pci) (configWriteDword addr (cmd .| 4) p).

Definition init (pci : Pci P) (a : Ahci) (v : Vfs W) e : outcome (bool * Pci P * Ahci * Vfs W * E) :=
  match find_controller (take (Z.to_nat (g_pci_devices_index pci)) (g_pci_devices pci)) with
  | None => mret (false, pci, a, v, e)
  | Some d =>
      let pci := enable_dma d pci in
      let abar_phys := BAR5 (header d) .& 0xFFFFFFF0 in
      if abar_phys =? 0 then mret (false, pci, a, v, e) else
      e ← for_range 0 2 (fun page e =>
        host_map (ABAR_VIRT_ADDR + page * 4096) (u64 (abar_phys + page * 4096)) DATA_FLAGS e) e;
      let a := mkAhci ABAR_VIRT_ADDR true (g_cmdtable_phys a) (g_port_types a) in
      '(_, e) ← resetHBA e;
      let (_, e) := reg_load PI e in
      let (ghc, e) := reg_load GHC e in
      let e := if ghc .& GHC_AHCI_ENABLE =? 0 then reg_or GHC GHC_AHCI_ENABLE e else e in
      let (cap, e) := reg_load CAP e in
      let max_check := Z.min ((cap .& 0x1F) + 1) MAX_PORTS in
      '(a, v, e) ← for_range 0 max_check init_one (a, v, e);
      e ← for_range 0 max_check report_one e;
      mret (true, pci, a, v, e)
  end.

End Init.
End Ahci.
