(* ===== verification/AhciProofs.v ===== *)
(** Correctness of the disk driver of [Ahci] on a controller that behaves as
    the AHCI and ATA specifications document.

    [AhciDevice] is the machine as the driver sees it: the bytes of physical
    memory, the frames behind the driver's pages, the contents of the drive on
    each port, and the addresses of the command list and of the area for
    received FISes that the controller was given.  [slot0] is how the
    controller reads the command in slot 0 of a list.  The laws of the
    class are those of the memory managers, of the tick counter and of the
    controller: a started command takes some looks at [PxCI] to complete, and
    when the bit is clear the transfer has happened.

    The driver is shown to implement sector reads and writes of the drive. *)

From Stdlib Require Import ZifyBool.
From S2P Require Import Prelude Bytes Ext2 Ext2Proofs Ext2Image Ahci.

(** ** Commands in memory *)

Definition bytes_at (m : Z -> Z) (a : Z) (n : nat) : list Z := (fun k => m (a + Z.of_nat k)) <$> seq 0 n.
Definition word_at (m : Z -> Z) (a : Z) (w : nat) : Z := le_value (bytes_at m a w).

Record Cmd := mkCmd { c_op : Z; c_lba : Z; c_count : Z; c_buf : Z; c_len : Z; c_write : bool }.

(** The 48 bits of a block address in a register FIS. *)
Definition fis_lba (m : Z -> Z) (ct : Z) : Z :=
  le_value [m (ct + 4); m (ct + 5); m (ct + 6); m (ct + 8); m (ct + 9); m (ct + 10)].

Definition slot0 (m : Z -> Z) (clb : Z) : Cmd :=
  let ct := word_at m (clb + 8) 8 in
  mkCmd (m (ct + 2)) (fis_lba m ct) (word_at m (ct + 12) 2) (word_at m (ct + 128) 8)
    ((word_at m (ct + 140) 4) mod 2 ^ 22 + 1) (Z.testbit (m clb) 6).

(** A command FIS of five words in LBA mode and one region. *)
Definition slot0_valid (m : Z -> Z) (clb : Z) : Prop :=
  let ct := word_at m (clb + 8) 8 in
  m clb .& 0x1F = 5 /\ word_at m (clb + 2) 2 = 1 /\ m ct = 0x27 /\ Z.testbit (m (ct + 1)) 7 = true /\ m (ct + 7) = 0x40.

(** What the controller writes besides the data: the byte count in the header
    of slot 0 of the list at [clb], and the received FISes at [fb]. *)
Definition private_area (clb fb x : Z) : Prop := clb + 4 <= x < clb + 8 \/ fb <= x < fb + 0x100.

(** The area at [fb] is apart from the command in slot 0 of the list. *)
Definition fis_apart (m : Z -> Z) (clb fb : Z) : Prop := let ct := word_at m (clb + 8) 8 in
  forall x, fb <= x < fb + 0x100 -> ~ (clb <= x < clb + 32) /\ ~ (ct <= x < ct + 144).

(** A transfer that the drive [d] can carry out. *)
Definition transfer_ok (c : Cmd) (d : list Z) : Prop :=
  c_op c = (if c_write c then 0x35 else 0x25) /\ 0 < c_count c /\ c_len c = 512 * c_count c /\
  512 * (c_lba c + c_count c) <= Z.of_nat (length d).

(** The state of a port: a drive is there and its link is up, the command
    engine is started, received FISes are stored. *)
Record Link := mkLink { l_present : bool; l_st : bool; l_fre : bool }.

Definition running (l : Link) : bool := l_present l && l_st l && l_fre l.

(** The machine as the driver sees it. *)
Record View := mkView {
  phys : Z -> Z;
  frame_of : Z -> option Z;
  free : gset Z;
  drive : Z -> list Z;
  command_list : Z -> Z;
  fis_base : Z -> Z;
  link : Z -> Link;
  latency : Z -> nat;
}.

#[local] Abbreviation up v p := (running (link v p)).

(** What only the driver's own requests change. *)
Definition kept (v v' : View) : Prop :=
  (forall q, command_list v' q = command_list v q) /\ (forall q, fis_base v' q = fis_base v q) /\
  (forall q, link v' q = link v q).
Definition same_memory (v v' : View) : Prop := forall x, phys v' x = phys v x.
Definition same_frames (v v' : View) : Prop := (forall w, frame_of v' w = frame_of v w) /\ free v' = free v.
Definition same_drives (v v' : View) : Prop := forall q, drive v' q = drive v q.
Definition same_latency (v v' : View) : Prop := forall q, latency v' q = latency v q.

(** Looking at a register or waiting changes the latency at most. *)
Definition quiet (v v' : View) : Prop := kept v v' /\ same_memory v v' /\ same_frames v v' /\ same_drives v v'.

(** A port's command list becomes [clb] and its FIS area [fb]. *)
Definition repointed (p clb fb : Z) (v v' : View) : Prop :=
  command_list v' p = clb /\ fis_base v' p = fb /\
  (forall q, q <> p -> command_list v' q = command_list v q /\ fis_base v' q = fis_base v q) /\
  (forall q, link v' q = link v q) /\
  same_memory v v' /\ same_frames v v' /\ same_drives v v' /\ same_latency v v'.

(** The registers keep the alignment of the two addresses: the low ten bits of
    the list's and the low eight bits of the FIS area's are zero. *)
Class AhciDevice (E : Type) `{AhciHost E} := {
  view : E -> View;

  phys_byte e x : byte_ok (phys (view e) x);
  drive_bytes e p : bytes_ok (drive (view e) p);
  frame_aligned e w f : frame_of (view e) w = Some f -> f mod 4096 = 0 /\ 0 <= f < 2 ^ 48;
  mapped_not_free e w f : frame_of (view e) w = Some f -> f ∉ free (view e);
  free_aligned e f : f ∈ free (view e) -> f mod 4096 = 0 /\ 0 <= f < 2 ^ 48;

  load8_law e a f : frame_of (view e) (a / 4096) = Some f -> host_load8 a e = Ok (phys (view e) (f + a mod 4096));
  store8_law e a f b : frame_of (view e) (a / 4096) = Some f -> byte_ok b ->
    exists e', host_store8 a b e = Ok e' /\ kept (view e) (view e') /\ same_frames (view e) (view e') /\
      same_drives (view e) (view e') /\ same_latency (view e) (view e') /\
      forall x, phys (view e') x = if x =? f + a mod 4096 then b else phys (view e) x;
  alloc_law e : free (view e) <> ∅ -> exists f e', host_alloc e = Ok (f, e') /\ f ∈ free (view e) /\
    free (view e') = free (view e) ∖ {[f]} /\ (forall w, frame_of (view e') w = frame_of (view e) w) /\
    kept (view e) (view e') /\ same_memory (view e) (view e') /\ same_drives (view e) (view e') /\ same_latency (view e) (view e');
  alloc_none e : free (view e) = ∅ -> host_alloc e = Ok (UINT64_MAX, e);
  map_law e a f fl : a mod 4096 = 0 -> f mod 4096 = 0 -> 0 <= f < 2 ^ 48 -> f ∉ free (view e) -> (3 <= size (free (view e)))%nat ->
    exists e', host_map a f fl e = Ok e' /\
      (forall w, frame_of (view e') w = if w =? a / 4096 then Some f else frame_of (view e) w) /\
      free (view e') ⊆ free (view e) /\ (size (free (view e)) <= size (free (view e')) + 3)%nat /\
      (forall g x, (g = f \/ exists w, frame_of (view e) w = Some g) -> g <= x < g + 4096 -> phys (view e') x = phys (view e) x) /\
      kept (view e) (view e') /\ same_drives (view e) (view e') /\ same_latency (view e) (view e');
  hlt_law e : host_ticks e < host_ticks (host_hlt e) <= host_ticks e + 2 ^ 32 /\ quiet (view e) (view (host_hlt e)) /\
    same_latency (view e) (view (host_hlt e));

  ssts_law e p : l_present (link (view e) p) = true -> exists v e', reg_load (port p + PxSSTS) e = (v, e') /\
    quiet (view e) (view e') /\ same_latency (view e) (view e') /\ v .& 0xF = 3;
  cmd_load_law e p : l_present (link (view e) p) = true -> exists v e', reg_load (port p + PxCMD) e = (v, e') /\
    quiet (view e) (view e') /\ same_latency (view e) (view e') /\
    Z.testbit v 0 = l_st (link (view e) p) /\ Z.testbit v 4 = l_fre (link (view e) p);
  cmd_store_law e p v : let w := view e in l_present (link w p) = true ->
    exists w', w' = view (reg_store (port p + PxCMD) v e) /\ link w' p = mkLink true (Z.testbit v 0) (Z.testbit v 4) /\
      (forall q, q <> p -> link w' q = link w q) /\ (forall q, command_list w' q = command_list w q) /\
      (forall q, fis_base w' q = fis_base w q) /\ same_frames w w' /\ same_drives w w' /\ same_latency w w' /\
      forall x, ~ private_area (command_list w p) (fis_base w p) x -> phys w' x = phys w x;
  clb_law e p lo : let w := view e in l_present (link w p) = true -> l_st (link w p) = false -> 0 <= lo < 2 ^ 32 ->
    repointed p (command_list w p / 2 ^ 32 * 2 ^ 32 + lo / 2 ^ 10 * 2 ^ 10) (fis_base w p) w (view (reg_store (port p + PxCLB) lo e));
  clbu_law e p hi : let w := view e in l_present (link w p) = true -> l_st (link w p) = false -> 0 <= hi < 2 ^ 32 ->
    repointed p (hi * 2 ^ 32 + command_list w p mod 2 ^ 32) (fis_base w p) w (view (reg_store (port p + PxCLBU) hi e));
  fb_law e p lo : let w := view e in l_present (link w p) = true -> l_fre (link w p) = false -> 0 <= lo < 2 ^ 32 ->
    repointed p (command_list w p) (fis_base w p / 2 ^ 32 * 2 ^ 32 + lo / 2 ^ 8 * 2 ^ 8) w (view (reg_store (port p + PxFB) lo e));
  fbu_law e p hi : let w := view e in l_present (link w p) = true -> l_fre (link w p) = false -> 0 <= hi < 2 ^ 32 ->
    repointed p (command_list w p) (hi * 2 ^ 32 + fis_base w p mod 2 ^ 32) w (view (reg_store (port p + PxFBU) hi e));
  ci_law e p : up (view e) p = true -> exists v e', reg_load (port p + PxCI) e = (v, e') /\ quiet (view e) (view e') /\
    v = (if latency (view e) p is O then 0 else 1) /\ latency (view e') p = Nat.pred (latency (view e) p);
  is_law e p : up (view e) p = true -> exists v e', reg_load (port p + PxIS) e = (v, e') /\ quiet (view e) (view e') /\
    v .& 0x40000000 = 0 /\ latency (view e') p = latency (view e) p;
  tfd_law e p : up (view e) p = true -> latency (view e) p = O -> exists v e', reg_load (port p + PxTFD) e = (v, e') /\
    quiet (view e) (view e') /\ v .& 0x89 = 0 /\ latency (view e') p = O;
  start_law e p : let v := view e in let clb := command_list v p in let fb := fis_base v p in let c := slot0 (phys v) clb in
    up v p = true -> latency v p = O -> slot0_valid (phys v) clb -> transfer_ok c (drive v p) -> fis_apart (phys v) clb fb ->
    (forall x, private_area clb fb x -> ~ (c_buf c <= x < c_buf c + c_len c)) ->
    exists v', v' = view (reg_store (port p + PxCI) 1 e) /\ kept v v' /\ same_frames v v' /\ Z.of_nat (latency v' p) < 1000 /\
      (forall x, ~ private_area clb fb x -> phys v' x =
         if negb (c_write c) && (c_buf c <=? x) && (x <? c_buf c + c_len c)
         then nth (Z.to_nat (512 * c_lba c + (x - c_buf c))) (drive v p) 0 else phys v x) /\
      drive v' p = (if c_write c then (dev_write (c_lba c) (c_count c) (bytes_at (phys v) (c_buf c) (Z.to_nat (c_len c))) (drive v p)).2
                    else drive v p) /\
      (forall q, q <> p -> drive v' q = drive v q);
}.

Lemma kept_trans v1 v2 v3 : kept v1 v2 -> kept v2 v3 -> kept v1 v3.
Proof. intros (? & ? & ?) (? & ? & ?). split_and!; intros; etrans; eauto. Qed.
Lemma same_frames_trans v1 v2 v3 : same_frames v1 v2 -> same_frames v2 v3 -> same_frames v1 v3.
Proof. intros [? ?] [? ?]. split; intros; etrans; eauto. Qed.
Lemma same_drives_trans v1 v2 v3 : same_drives v1 v2 -> same_drives v2 v3 -> same_drives v1 v3.
Proof. intros ? ? ?. etrans; eauto. Qed.
Lemma same_latency_trans v1 v2 v3 : same_latency v1 v2 -> same_latency v2 v3 -> same_latency v1 v3.
Proof. intros ? ? ?. etrans; eauto. Qed.
Lemma quiet_refl v : quiet v v.
Proof. by repeat split. Qed.
Lemma quiet_trans v1 v2 v3 : quiet v1 v2 -> quiet v2 v3 -> quiet v1 v3.
Proof.
  intros (? & M1 & ? & ?) (? & M2 & ? & ?). split_and!; [by eapply kept_trans | intros x; by rewrite M2, M1 | by eapply same_frames_trans |
    by eapply same_drives_trans].
Qed.
Create HintDb ahci.
#[export] Hint Resolve kept_trans same_frames_trans same_drives_trans same_latency_trans quiet_trans : ahci.

Section AhciProofs.
Context {E : Type} `{AhciDevice E}.
Implicit Types e : E.
Local Abbreviation V := view.

(** A store to memory: nothing but bytes changes. *)
Definition stored e e' : Prop :=
  kept (V e) (V e') /\ same_frames (V e) (V e') /\ same_drives (V e) (V e') /\ same_latency (V e) (V e').

Lemma stored_refl e : stored e e.
Proof. by repeat split. Qed.
Lemma stored_trans e1 e2 e3 : stored e1 e2 -> stored e2 e3 -> stored e1 e3.
Proof. intros (? & ? & ? & ?) (? & ? & ? & ?). split_and!; eauto with ahci. Qed.

(** ** Accesses inside a page *)

(** The bytes from frame [f] on start with [l]. *)
Definition holds e (f : Z) (l : list Z) : Prop := forall k b, l !! k = Some b -> phys (V e) (f + Z.of_nat k) = b.

(** Page [a] of the driver is frame [f]. *)
Definition page_at e (a f : Z) : Prop := a mod 4096 = 0 /\ frame_of (V e) (a / 4096) = Some f.

Lemma page_offset a k : a mod 4096 = 0 -> 0 <= k < 4096 -> (a + k) / 4096 = a / 4096 /\ (a + k) mod 4096 = k.
Proof. intros Ha Hk. pose proof (Z.div_mod a 4096). Z.to_euclidean_division_equations. lia. Qed.

Lemma store_byte e a f k b l : page_at e a f -> holds e f l -> (k < length l)%nat -> (length l <= 4096)%nat -> byte_ok b ->
  exists e', host_store8 (a + Z.of_nat k) b e = Ok e' /\ stored e e' /\ holds e' f (<[k := b]> l) /\
    forall x, x <> f + Z.of_nat k -> phys (V e') x = phys (V e) x.
Proof.
  intros [Ha Hf] Hl Hk Hn Hb. destruct (page_offset a (Z.of_nat k) Ha ltac:(lia)) as [Ed Em].
  destruct (store8_law e (a + Z.of_nat k) f b) as (e' & E1 & K & F & D & La & Hp); [by rewrite Ed | done |]. rewrite Em in Hp.
  exists e'. split; [done|]. split; [by split_and!|]. split.
  - intros j c Hj. rewrite Hp. apply list_lookup_insert_Some in Hj as [(-> & -> & _)|[Hne Hj]].
    + by rewrite Z.eqb_refl.
    + rewrite (proj2 (Z.eqb_neq _ _)) by lia. by apply Hl.
  - intros x Hx. rewrite Hp. by rewrite (proj2 (Z.eqb_neq _ _)).
Qed.

Lemma stores_bytes bs : forall e a f k l, page_at e a f -> holds e f l -> (k + length bs <= length l)%nat -> (length l <= 4096)%nat ->
  bytes_ok bs ->
  exists e', stores (a + Z.of_nat k) bs e = Ok e' /\ stored e e' /\ holds e' f (list_inserts k bs l) /\
    forall x, ~ (f + Z.of_nat k <= x < f + Z.of_nat (k + length bs)) -> phys (V e') x = phys (V e) x.
Proof.
  induction bs as [|b bs IH]; intros e a f k l Hpg Hl Hk Hn Hbs; cbn [stores list_inserts].
  { by exists e. }
  apply Forall_cons_iff in Hbs as [Hb Hbs]. simpl length in *.
  destruct (store_byte e a f k b l Hpg Hl ltac:(lia) Hn Hb) as (e1 & E1 & S1 & L1 & X1). run_call E1.
  assert (Hpg1 : page_at e1 a f) by (destruct Hpg as [? Hf], S1 as (_ & [Fr _] & _); split; [done | by rewrite Fr]).
  replace (a + Z.of_nat k + 1) with (a + Z.of_nat (S k)) by lia.
  destruct (IH e1 a f (S k) _ Hpg1 L1) as (e2 & E2 & S2 & L2 & X2); [rewrite length_insert; lia | by rewrite length_insert | done |].
  exists e2. split; [done|]. split; [by eapply stored_trans|]. split; [by rewrite list_insert_inserts_lt by lia|].
  intros x Hx. rewrite X2, X1 by lia. done.
Qed.

Lemma load_byte e a f k l b : page_at e a f -> holds e f l -> l !! k = Some b -> (length l <= 4096)%nat ->
  host_load8 (a + Z.of_nat k) e = Ok b.
Proof.
  intros [Ha Hf] Hl Hk Hn. pose proof (lookup_lt_Some _ _ _ Hk). destruct (page_offset a (Z.of_nat k) Ha ltac:(lia)) as [Ed Em].
  rewrite (load8_law e _ f) by (by rewrite Ed). rewrite Em. f_equal. by apply Hl.
Qed.

Lemma loads_bytes n : forall e a f k l, page_at e a f -> holds e f l -> (k + n <= length l)%nat -> (length l <= 4096)%nat ->
  loads (a + Z.of_nat k) n e = Ok (take n (drop k l)).
Proof.
  induction n as [|n IH]; intros e a f k l Hpg Hl Hk Hn; cbn [loads]; [done|].
  destruct (lookup_lt_is_Some_2 l k) as [b Hb]; [lia|]. rewrite (load_byte e a f k l b) by done. cbn [mbind outcome_bind].
  replace (a + Z.of_nat k + 1) with (a + Z.of_nat (S k)) by lia. rewrite (IH e a f (S k) l) by (done || lia). cbn [mbind outcome_bind].
  by rewrite (drop_S l b k Hb).
Qed.

(** A store to the page keeps it where it is. *)
Lemma page_stored e e' a f : page_at e a f -> stored e e' -> page_at e' a f.
Proof. intros [? Hf] (_ & [Fr _] & _). split; [done | by rewrite Fr]. Qed.

Lemma holds_other e e' f l lo hi : holds e f l -> (forall x, ~ (lo <= x < hi) -> phys (V e') x = phys (V e) x) ->
  f + Z.of_nat (length l) <= lo \/ hi <= f -> holds e' f l.
Proof. intros Hl Hx Hd k b Hk. pose proof (lookup_lt_Some _ _ _ Hk). rewrite Hx by lia. by apply Hl. Qed.

Lemma modify8_ok e a f k l m v b : page_at e a f -> holds e f l -> l !! k = Some b -> (length l <= 4096)%nat -> byte_ok (set_field m v b) ->
  exists e', modify8 (a + Z.of_nat k) m v e = Ok e' /\ stored e e' /\ holds e' f (<[k := set_field m v b]> l) /\
    forall x, ~ (f + Z.of_nat k <= x < f + Z.of_nat k + 1) -> phys (V e') x = phys (V e) x.
Proof.
  intros Hpg Hl Hk Hn Hb. unfold modify8. rewrite (load_byte e a f k l b) by done. cbn [mbind outcome_bind].
  destruct (store_byte e a f k (set_field m v b) l Hpg Hl (lookup_lt_Some _ _ _ Hk) Hn Hb) as (e' & E1 & S1 & L1 & X1).
  exists e'. split_and!; try done; [apply S1..|]. intros x Hx. apply X1. lia.
Qed.

Lemma le4_ok v : exists b0 b1 b2 b3, le 4 v = [b0; b1; b2; b3] /\ bytes_ok [b0; b1; b2; b3].
Proof.
  pose proof (le_bytes_ok 4 v ltac:(lia)) as Hb. pose proof (length_le 4 v ltac:(lia)) as Hl.
  destruct (le 4 v) as [|b0 [|b1 [|b2 [|b3 [|? ?]]]]]; try discriminate. by exists b0, b1, b2, b3.
Qed.

Lemma modify32_ok e a f k l m v : page_at e a f -> holds e f l -> (k + 4 <= length l)%nat -> (length l <= 4096)%nat ->
  exists e', modify32 (a + Z.of_nat k) m v e = Ok e' /\ stored e e' /\
    holds e' f (list_inserts k (le 4 (set_field m v (le_value (take 4 (drop k l))))) l) /\
    forall x, ~ (f + Z.of_nat k <= x < f + Z.of_nat (k + 4)) -> phys (V e') x = phys (V e) x.
Proof.
  intros Hpg Hl Hk Hn. unfold modify32. rewrite (loads_bytes 4 e a f k l) by done. cbn [mbind outcome_bind]. unfold store32.
  pose proof (length_le 4 (set_field m v (le_value (take 4 (drop k l)))) ltac:(lia)) as Hle.
  destruct (stores_bytes (le 4 (set_field m v (le_value (take 4 (drop k l))))) e a f k l) as (e' & E1 & S1 & L1 & X1);
    [done | done | lia | done | by apply le_bytes_ok |]. rewrite Hle in X1. by exists e'.
Qed.

(** ** Waiting *)

Lemma delay_loop_ok fuel start ticks e : 0 <= host_ticks e - start < 2 ^ 40 -> 0 < ticks < 2 ^ 32 ->
  (Z.to_nat (ticks - (host_ticks e - start)) < fuel)%nat ->
  exists e', delay_loop fuel start ticks e = Ok e' /\ quiet (V e) (V e') /\ same_latency (V e) (V e').
Proof.
  revert e. induction fuel as [|fuel IH]; intros e Hs Ht Hf; [lia|]. cbn [delay_loop]. rewrite u64_small by lia.
  destruct (Z.ltb_spec (host_ticks e - start) ticks) as [Hlt|Hge]; [|exists e; split_and!; [done | apply quiet_refl | done]].
  destruct (hlt_law e) as (Ht1 & Q1 & L1). destruct (IH (host_hlt e)) as (e' & E' & Q' & L'); [lia | done | lia |].
  exists e'. split_and!; [done | by eapply quiet_trans | by eapply same_latency_trans].
Qed.

Lemma delay_ms_ok ms e : 0 <= ms < 2 ^ 20 -> exists e', delay_ms ms e = Ok e' /\ quiet (V e) (V e') /\ same_latency (V e) (V e').
Proof.
  intros Hms. unfold delay_ms. cbv zeta. rewrite u32_small by lia. set (n := if _ =? 0 then 1 else _).
  assert (0 < n < 2 ^ 32) by (subst n; destruct (Z.eqb_spec (ms * 100 / 1000) 0); Z.to_euclidean_division_equations; lia).
  apply delay_loop_ok; [lia | done | lia].
Qed.

(** Until the command completes. *)
Lemma poll_command n p e : up (V e) p = true -> (latency (V e) p < n)%nat ->
  exists e', poll n (command_done p) e = Ok (true, e') /\ quiet (V e) (V e') /\ latency (V e') p = O.
Proof.
  revert e. induction n as [|n IH]; intros e Hup Hn; [lia|]. cbn [poll]. unfold command_done at 1.
  destruct (ci_law e p Hup) as (v & e1 & E1 & Q1 & -> & L1). rewrite E1. destruct (latency (V e) p) as [|k] eqn:Ek.
  - cbn. exists e1. split_and!; [done | apply Q1.. | done].
  - assert (Hup1 : up (V e1) p = true) by (destruct Q1 as ((_ & _ & U) & _); by rewrite U).
    destruct (is_law e1 p Hup1) as (v & e2 & E2 & Q2 & Hv & L2). change (1 .& 1 =? 0) with false. cbv iota beta zeta. rewrite E2, Hv. change (0 =? 0) with true. cbv iota beta zeta.
    destruct (delay_ms_ok 1 e2 ltac:(lia)) as (e3 & E3 & Q3 & L3). run_call E3.
    assert (Hup3 : up (V e3) p = true) by (destruct Q2 as ((_ & _ & U2) & _), Q3 as ((_ & _ & U3) & _); by rewrite U3, U2).
    destruct (IH e3 Hup3) as (e4 & E4 & Q4 & L4); [rewrite L3, L2, L1; simpl; lia|].
    exists e4. split_and!; [done | by eapply quiet_trans; [|eapply quiet_trans; [|eapply quiet_trans]] .. | done].
Qed.

(** ** Building a command *)

(** Nothing but memory changes, and port [p] stays idle. *)
Definition prepared (p : Z) e e' : Prop :=
  kept (V e) (V e') /\ same_frames (V e) (V e') /\ same_drives (V e) (V e') /\ latency (V e') p = latency (V e) p.

Lemma prepared_trans p e1 e2 e3 : prepared p e1 e2 -> prepared p e2 e3 -> prepared p e1 e3.
Proof. intros (? & ? & ? & ?) (? & ? & ? & ?). split_and!; [eauto with ahci.. | congruence]. Qed.
Lemma prepared_stored p e e' : stored e e' -> prepared p e e'.
Proof. intros (? & ? & ? & L). by split_and!. Qed.

Lemma wait_idle p e : up (V e) p = true -> latency (V e) p = O ->
  exists e', poll 1000 (until_clear (port p + PxTFD) (TFD_STS_BSY .| TFD_STS_DRQ)) e = Ok (true, e') /\ prepared p e e' /\ same_memory (V e) (V e').
Proof.
  intros Hup Hl. destruct (tfd_law e p Hup Hl) as (v & e1 & E1 & (K & M & F & D) & Hv & L1).
  assert (Hb : v .& (TFD_STS_BSY .| TFD_STS_DRQ) = 0).
  { unfold TFD_STS_BSY, TFD_STS_DRQ. change (0x80 .| 0x08) with (0x89 .& 0x88). by rewrite Z.land_assoc, Hv. }
  exists e1. cbn [poll]. unfold until_clear at 1. rewrite E1, Hb. change (0 =? 0) with true. cbv iota beta zeta.
  split; [done|]. split; [|done]. split_and!; [done.. | congruence].
Qed.

(** The header after the driver's changes, and the table. *)
Definition header_bytes (w : Z) (h : list Z) : list Z :=
  list_inserts 4 (le 4 0) (list_inserts 2 (le 2 1) (<[0%nat := set_field 0x40 (w .<< 6) (set_field 0x1F 5 (nth 0 h 0))]> h)).

Definition region_bytes (buf dbc : Z) : list Z :=
  replicate 128 0 ++ le 4 (low32 buf) ++ le 4 (high32 buf) ++ replicate 4 0 ++ le 4 (dbc .| 0x80000000).

Lemma field_byte m v b : 0 <= m < 256 -> byte_ok b -> byte_ok (set_field m v b).
Proof.
  intros Hm Hb. assert (Eu : set_field m v b = u8 (set_field m v b)); [|rewrite Eu; apply u8_range].
  unfold byte_ok in Hb. rewrite <- (u8_small m), <- (u8_small b) by lia. apply Z.bits_inj'. intros n Hn. unfold set_field.
  rewrite u8_testbit, !Z.lor_spec, !Z.ldiff_spec, !Z.land_spec, !u8_testbit by done.
  destruct (n <? 8); [done|]. by rewrite !andb_false_r.
Qed.

Lemma holds_bytes e f n : holds e f (bytes_at (phys (V e)) f n).
Proof.
  intros k b Hk. unfold bytes_at in Hk. apply list_lookup_fmap_Some in Hk as (j & -> & Hj). apply lookup_seq in Hj as [-> _]. done.
Qed.

Lemma length_bytes_at m a n : length (bytes_at m a n) = n.
Proof. unfold bytes_at. by rewrite length_fmap, length_seq. Qed.

(** *** A command under construction: the pages of port [p], the first bytes
    of its command list and of its table, and what has not changed since [e0]. *)
Section Build.
Context (p clb ct : Z) (Hapart : clb + 4096 <= ct \/ ct + 4096 <= clb).

Record building e0 e (lh lt : list Z) : Prop := {
  b_prep : prepared p e0 e;
  b_list : page_at e (list_virt p) clb;
  b_table : page_at e (table_virt p) ct;
  b_header : holds e clb lh;
  b_bytes : holds e ct lt;
  b_lh : length lh = 32%nat;
  b_lt : length lt = 144%nat;
  b_rest x : ~ (clb <= x < clb + 32) -> ~ (ct <= x < ct + 144) -> phys (V e) x = phys (V e0) x;
}.

Lemma build_step_table e0 e e' lh lt lt' lo hi : building e0 e lh lt -> stored e e' -> holds e' ct lt' -> length lt' = length lt ->
  (forall x, ~ (lo <= x < hi) -> phys (V e') x = phys (V e) x) -> ct <= lo -> hi <= ct + 144 -> building e0 e' lh lt'.
Proof.
  intros [Pr Pl Pt Hh Ht Hlh Hlt Hr] S L Ll X H1 H2. split; try (by apply (page_stored e)); try done.
  - eapply prepared_trans; [exact Pr | by apply prepared_stored].
  - eapply (holds_other e); [done | exact X |]. lia.
  - congruence.
  - intros x Hx1 Hx2. rewrite X by lia. by apply Hr.
Qed.

Lemma build_step_header e0 e e' lh lh' lt lo hi : building e0 e lh lt -> stored e e' -> holds e' clb lh' -> length lh' = length lh ->
  (forall x, ~ (lo <= x < hi) -> phys (V e') x = phys (V e) x) -> clb <= lo -> hi <= clb + 32 -> building e0 e' lh' lt.
Proof.
  intros [Pr Pl Pt Hh Ht Hlh Hlt Hr] S L Ll X H1 H2. split; try (by apply (page_stored e)); try done.
  - eapply prepared_trans; [exact Pr | by apply prepared_stored].
  - eapply (holds_other e); [done | exact X |]. lia.
  - congruence.
  - intros x Hx1 Hx2. rewrite X by lia. by apply Hr.
Qed.

Lemma table_stores e0 e lh lt a k bs : building e0 e lh lt -> a = table_virt p + Z.of_nat k -> (k + length bs <= 144)%nat -> bytes_ok bs ->
  exists e', stores a bs e = Ok e' /\ building e0 e' lh (list_inserts k bs lt).
Proof.
  intros B -> Hk Hb. destruct (stores_bytes bs e (table_virt p) ct k lt) as (e' & E1 & S1 & L1 & X1);
    [apply B | apply B | rewrite (b_lt _ _ _ _ B); lia | rewrite (b_lt _ _ _ _ B); lia | done |].
  exists e'. split; [done|]. eapply (build_step_table e0 e); [done | done | done | by rewrite length_inserts | exact X1 | lia | lia].
Qed.

Lemma header_stores e0 e lh lt a k bs : building e0 e lh lt -> a = list_virt p + Z.of_nat k -> (k + length bs <= 32)%nat -> bytes_ok bs ->
  exists e', stores a bs e = Ok e' /\ building e0 e' (list_inserts k bs lh) lt.
Proof.
  intros B -> Hk Hb. destruct (stores_bytes bs e (list_virt p) clb k lh) as (e' & E1 & S1 & L1 & X1);
    [apply B | apply B | rewrite (b_lh _ _ _ _ B); lia | rewrite (b_lh _ _ _ _ B); lia | done |].
  exists e'. split; [done|]. eapply (build_step_header e0 e); [done | done | done | by rewrite length_inserts | exact X1 | lia | lia].
Qed.

Lemma table_store8 e0 e lh lt a k b : building e0 e lh lt -> a = table_virt p + Z.of_nat k -> (k < 144)%nat -> byte_ok b ->
  exists e', host_store8 a b e = Ok e' /\ building e0 e' lh (<[k := b]> lt).
Proof.
  intros B -> Hk Hb. destruct (store_byte e (table_virt p) ct k b lt) as (e' & E1 & S1 & L1 & X1);
    [apply B | apply B | rewrite (b_lt _ _ _ _ B); lia | rewrite (b_lt _ _ _ _ B); lia | done |].
  exists e'. split; [done|]. apply (build_step_table e0 e e' lh lt _ (ct + Z.of_nat k) (ct + Z.of_nat k + 1));
    [done | done | done | by rewrite length_insert | intros x Hx; apply X1; lia | lia | lia].
Qed.

Lemma table_modify8 e0 e lh lt a k m v : building e0 e lh lt -> a = table_virt p + Z.of_nat k -> (k < 144)%nat -> 0 <= m < 256 ->
  exists e', modify8 a m v e = Ok e' /\ building e0 e' lh (<[k := set_field m v (nth k lt 0)]> lt).
Proof.
  intros B -> Hk Hm. destruct (lookup_lt_is_Some_2 lt k) as [b Hb]; [rewrite (b_lt _ _ _ _ B); lia|].
  assert (byte_ok b) by (rewrite <- (b_bytes _ _ _ _ B k b Hb); apply phys_byte).
  rewrite (nth_lookup_Some _ _ _ _ Hb).
  destruct (modify8_ok e (table_virt p) ct k lt m v b) as (e' & E1 & S1 & L1 & X1);
    [apply B | apply B | done | rewrite (b_lt _ _ _ _ B); lia | by apply field_byte |].
  exists e'. split; [done|]. eapply (build_step_table e0 e); [done | done | done | by rewrite length_insert | exact X1 | lia | lia].
Qed.

Lemma header_modify8 e0 e lh lt a k m v : building e0 e lh lt -> a = list_virt p + Z.of_nat k -> (k < 32)%nat -> 0 <= m < 256 ->
  exists e', modify8 a m v e = Ok e' /\ building e0 e' (<[k := set_field m v (nth k lh 0)]> lh) lt.
Proof.
  intros B -> Hk Hm. destruct (lookup_lt_is_Some_2 lh k) as [b Hb]; [rewrite (b_lh _ _ _ _ B); lia|].
  assert (byte_ok b) by (rewrite <- (b_header _ _ _ _ B k b Hb); apply phys_byte).
  rewrite (nth_lookup_Some _ _ _ _ Hb).
  destruct (modify8_ok e (list_virt p) clb k lh m v b) as (e' & E1 & S1 & L1 & X1);
    [apply B | apply B | done | rewrite (b_lh _ _ _ _ B); lia | by apply field_byte |].
  exists e'. split; [done|]. eapply (build_step_header e0 e); [done | done | done | by rewrite length_insert | exact X1 | lia | lia].
Qed.

Lemma table_modify32 e0 e lh lt a k m v : building e0 e lh lt -> a = table_virt p + Z.of_nat k -> (k + 4 <= 144)%nat ->
  exists e', modify32 a m v e = Ok e' /\ building e0 e' lh (list_inserts k (le 4 (set_field m v (le_value (take 4 (drop k lt))))) lt).
Proof.
  intros B -> Hk. destruct (modify32_ok e (table_virt p) ct k lt m v) as (e' & E1 & S1 & L1 & X1);
    [apply B | apply B | rewrite (b_lt _ _ _ _ B); lia | rewrite (b_lt _ _ _ _ B); lia |].
  exists e'. split; [done|]. eapply (build_step_table e0 e); [done | done | done | by rewrite length_inserts | exact X1 | lia | lia].
Qed.

(** Where the construction starts. *)
Lemma building_start e0 e : prepared p e0 e -> same_memory (V e0) (V e) -> page_at e0 (list_virt p) clb -> page_at e0 (table_virt p) ct ->
  building e0 e (bytes_at (phys (V e0)) clb 32) (bytes_at (phys (V e0)) ct 144).
Proof.
  intros Pr M [Al Fl] [At Ft]. destruct (id Pr) as (_ & [Fr _] & _).
  split; [done | split; [done | by rewrite Fr] | split; [done | by rewrite Fr] | | | apply length_bytes_at | apply length_bytes_at |
    intros x _ _; apply M]; intros k b Hk; rewrite M; exact (holds_bytes e0 _ _ k b Hk).
Qed.

Lemma list_inserts_all {A} (bs l : list A) : length bs = length l -> list_inserts 0 bs l = bs.
Proof. intros Hl. rewrite <- (app_nil_r bs) at 1. by apply list_inserts_0_l. Qed.

(** The table with the region descriptor's words [lo], [hi] and [d]. *)
Definition tbl (lo hi d : list Z) : list Z := replicate 128 0 ++ lo ++ hi ++ replicate 4 0 ++ d.

Ltac four l := let b0 := fresh in let b1 := fresh in let b2 := fresh in let b3 := fresh in
  destruct l as [|b0 [|b1 [|b2 [|b3 [|? ?]]]]]; try discriminate.

Lemma table_high lo hi : length lo = 4%nat -> length hi = 4%nat ->
  list_inserts 132 hi (list_inserts 128 lo (replicate 144 0)) = tbl lo hi [0; 0; 0; 0].
Proof. intros Hl Hh. four lo. four hi. reflexivity. Qed.
Lemma tbl_region lo hi d : length lo = 4%nat -> length hi = 4%nat -> length d = 4%nat -> take 4 (drop 140 (tbl lo hi d)) = d.
Proof. intros Hl Hh Hd. four lo. four hi. four d. reflexivity. Qed.
Lemma tbl_insert lo hi d d' : length lo = 4%nat -> length hi = 4%nat -> length d = 4%nat -> length d' = 4%nat ->
  list_inserts 140 d' (tbl lo hi d) = tbl lo hi d'.
Proof. intros Hl Hh Hd Hd'. four lo. four hi. four d. four d'. reflexivity. Qed.

Lemma set_dbc dbc : 0 <= dbc < 2 ^ 22 -> set_field 0x3FFFFF dbc (le_value [0; 0; 0; 0]) = dbc.
Proof. intros Hd. change (dbc .& Z.ones 22 = dbc). rewrite Z.land_ones by lia. by apply Z.mod_small. Qed.

Lemma set_dbi dbc : 0 <= dbc < 2 ^ 22 -> set_field 0x80000000 0x80000000 dbc = dbc .| 0x80000000.
Proof.
  intros Hd. unfold set_field. change (0x80000000 .& 0x80000000) with 0x80000000. f_equal. apply Z.bits_inj'. intros n Hn.
  rewrite Z.ldiff_spec. change 0x80000000 with (1 .<< 31). rewrite testbit_one_shl by lia. destruct (Z.eqb_spec 31 n) as [<-|]; [|by rewrite andb_true_r].
  assert (Z.testbit dbc 31 = false) as ->; [|done]. apply Z.testbit_false; [lia|]. by rewrite Z.div_small by lia.
Qed.

Lemma begin_command_ok e buf dbc w : page_at e (list_virt p) clb -> page_at e (table_virt p) ct ->
  up (V e) p = true -> latency (V e) p = O -> 0 <= dbc < 2 ^ 22 ->
  exists e', begin_command p buf dbc w e = Ok e' /\
    building e e' (header_bytes w (bytes_at (phys (V e)) clb 32)) (region_bytes buf dbc).
Proof.
  intros Hpl Hpt Hup Hl Hdbc. unfold begin_command.
  destruct (wait_idle p e Hup Hl) as (e1 & E1 & P1 & M1). run_call E1.
  pose proof (building_start e e1 P1 M1 Hpl Hpt) as B1.
  set (h := bytes_at (phys (V e)) clb 32) in *. unfold zeros, SIZEOF_TABLE.
  destruct (table_stores e e1 _ _ (table_virt p) 0 (replicate 144 0) B1) as (e2 & E2 & B2); [lia | done | by repeat constructor |]. 
  change (Z.to_nat 144) with 144%nat. run_call E2. rewrite list_inserts_all in B2 by (by rewrite length_replicate, length_bytes_at).
  destruct (header_modify8 e e2 _ _ (list_virt p) 0 0x1F (SIZEOF_FIS / 4) B2) as (e3 & E3 & B3); [lia | lia | lia |]. run_call E3.
  destruct (header_modify8 e e3 _ _ (list_virt p) 0 0x40 (w .<< 6) B3) as (e4 & E4 & B4); [lia | lia | lia |]. run_call E4.
  destruct (header_stores e e4 _ _ (list_virt p + 2) 2 (le 2 1) B4) as (e5 & E5 & B5); [lia | rewrite length_le; lia | by apply le_bytes_ok |].
  unfold store16, store32, PRDT. run_call E5.
  destruct (header_stores e e5 _ _ (list_virt p + 4) 4 (le 4 0) B5) as (e6 & E6 & B6); [lia | rewrite length_le; lia | by apply le_bytes_ok |].
  run_call E6.
  destruct (table_stores e e6 _ _ (table_virt p + 128) 128 (le 4 (low32 buf)) B6) as (e7 & E7 & B7); [lia | rewrite length_le; lia | by apply le_bytes_ok |].
  run_call E7.
  destruct (table_stores e e7 _ _ (table_virt p + 128 + 4) 132 (le 4 (high32 buf)) B7) as (e8 & E8 & B8); [lia | rewrite length_le; lia | by apply le_bytes_ok |].
  run_call E8.
  destruct (table_modify32 e e8 _ _ (table_virt p + 128 + 12) 140 0x3FFFFF dbc B8) as (e9 & E9 & B9); [lia | lia |]. run_call E9.
  destruct (table_modify32 e e9 _ _ (table_virt p + 128 + 12) 140 0x80000000 0x80000000 B9) as (e10 & E10 & B10); [lia | lia |].
  exists e10. split; [done|].
  assert (Eh : header_bytes w h = list_inserts 4 (le 4 0) (list_inserts 2 (le 2 1) (<[0%nat := set_field 0x40 (w .<< 6)
      (nth 0 (<[0%nat := set_field 0x1F (SIZEOF_FIS / 4) (nth 0 h 0)]> h) 0)]> (<[0%nat := set_field 0x1F (SIZEOF_FIS / 4) (nth 0 h 0)]> h)))).
  { unfold header_bytes. rewrite list_insert_insert_eq. by destruct h. }
  rewrite Eh. rewrite table_high, tbl_region, tbl_insert, !tbl_region, tbl_insert in B10 by (done || (apply length_le; lia)).
  rewrite (set_dbc dbc Hdbc), (le_value_le 4 dbc ltac:(lia)), (set_dbi dbc Hdbc) in B10 by lia. exact B10.
Qed.

(** The register FIS, in front of the region descriptor. *)
Definition fis_bytes (op lba count : Z) : list Z :=
  [FIS_TYPE_REG_H2D; 0x80; op; 0; lba_byte lba 0; lba_byte lba 1; lba_byte lba 2; 0x40; lba_byte lba 3; lba_byte lba 4; lba_byte lba 5; 0;
   u8 (count .& 0xFF); u8 ((count .>> 8) .& 0xFF)].

Definition table_bytes (op lba count buf dbc : Z) : list Z :=
  fis_bytes op lba count ++ replicate 114 0 ++ le 4 (low32 buf) ++ le 4 (high32 buf) ++ replicate 4 0 ++ le 4 (dbc .| 0x80000000).

Lemma lba_byte_ok lba k : byte_ok (lba_byte lba k).
Proof. apply u8_range. Qed.

Lemma write_fis_ok e0 e lh op lba count buf dbc : building e0 e lh (region_bytes buf dbc) -> byte_ok op ->
  exists e', write_fis p op lba count e = Ok e' /\ building e0 e' lh (table_bytes op lba count buf dbc).
Proof.
  intros B Hop. unfold write_fis. cbv zeta.
  destruct (table_store8 _ _ _ _ (table_virt p) 0 FIS_TYPE_REG_H2D B) as (e1 & E1 & B1); [lia | lia | done |]. run_call E1.
  destruct (table_modify8 _ _ _ _ (table_virt p + 1) 1 0x80 0x80 B1) as (e2 & E2 & B2); [lia | lia | lia |]. run_call E2.
  destruct (table_store8 _ _ _ _ (table_virt p + 2) 2 op B2) as (e3 & E3 & B3); [lia | lia | done |]. run_call E3.
  destruct (table_store8 _ _ _ _ (table_virt p + 3) 3 0 B3) as (e4 & E4 & B4); [lia | lia | done |]. run_call E4.
  destruct (table_store8 _ _ _ _ (table_virt p + 11) 11 0 B4) as (e5 & E5 & B5); [lia | lia | done |]. run_call E5.
  destruct (table_store8 _ _ _ _ (table_virt p + 4) 4 (lba_byte lba 0) B5) as (e6 & E6 & B6); [lia | lia | apply lba_byte_ok |]. run_call E6.
  destruct (table_store8 _ _ _ _ (table_virt p + 5) 5 (lba_byte lba 1) B6) as (e7 & E7 & B7); [lia | lia | apply lba_byte_ok |]. run_call E7.
  destruct (table_store8 _ _ _ _ (table_virt p + 6) 6 (lba_byte lba 2) B7) as (e8 & E8 & B8); [lia | lia | apply lba_byte_ok |]. run_call E8.
  destruct (table_store8 _ _ _ _ (table_virt p + 8) 8 (lba_byte lba 3) B8) as (e9 & E9 & B9); [lia | lia | apply lba_byte_ok |]. run_call E9.
  destruct (table_store8 _ _ _ _ (table_virt p + 9) 9 (lba_byte lba 4) B9) as (e10 & E10 & B10); [lia | lia | apply lba_byte_ok |]. run_call E10.
  destruct (table_store8 _ _ _ _ (table_virt p + 10) 10 (lba_byte lba 5) B10) as (e11 & E11 & B11); [lia | lia | apply lba_byte_ok |]. run_call E11.
  destruct (table_store8 _ _ _ _ (table_virt p + 7) 7 0x40 B11) as (e12 & E12 & B12); [lia | lia | done |]. run_call E12.
  destruct (table_store8 _ _ _ _ (table_virt p + 12) 12 (u8 (count .& 0xFF)) B12) as (e13 & E13 & B13); [lia | lia | apply u8_range |]. run_call E13.
  destruct (table_store8 _ _ _ _ (table_virt p + 13) 13 (u8 ((count .>> 8) .& 0xFF)) B13) as (e14 & E14 & B14); [lia | lia | apply u8_range |].
  exists e14. split; [done | exact B14].
Qed.
End Build.

(** ** Reading a command back *)

Lemma bytes_at_holds e f l k n a : holds e f l -> a = f + Z.of_nat k -> (k + n <= length l)%nat -> bytes_at (phys (V e)) a n = take n (drop k l).
Proof.
  intros Hl -> Hk. apply list_eq. intros i. destruct (decide (i < n)%nat).
  - rewrite lookup_take_lt, lookup_drop by lia. destruct (lookup_lt_is_Some_2 l (k + i)) as [b Hb]; [lia|]. rewrite Hb.
    unfold bytes_at. rewrite list_lookup_fmap, lookup_seq_lt by lia. cbn. f_equal. rewrite <- (Hl _ _ Hb). f_equal. lia.
  - rewrite !lookup_ge_None_2; [done | rewrite length_take, length_drop; lia | rewrite length_bytes_at; lia].
Qed.

Lemma le_lookup w v i : 0 <= w -> (Z.of_nat i < w) -> le w v !! i = Some (u8 ((v .>> (8 * Z.of_nat i)) .& 0xFF)).
Proof.
  intros Hw Hi. apply Z_to_little_endian_lookup_Some; [done | done |]. split; [lia|]. rewrite (Z.mul_comm 8).
  change 0xFF with (Z.ones 8). rewrite Z.land_ones by lia. unfold u8. by rewrite Z.mod_mod.
Qed.

Lemma le_lba lba : 0 <= lba < 2 ^ 48 -> le_value [lba_byte lba 0; lba_byte lba 1; lba_byte lba 2; lba_byte lba 3; lba_byte lba 4; lba_byte lba 5] = lba.
Proof.
  intros Hl. rewrite <- (le_value_le 6 lba) at 7 by lia. f_equal. apply list_eq. intros i. do 6 (destruct i as [|i]; [by rewrite le_lookup|]).
  by rewrite !lookup_ge_None_2 by (rewrite ?length_le; simpl; lia).
Qed.

Lemma le_count n : 0 <= n < 2 ^ 16 -> le_value [u8 (n .& 0xFF); u8 ((n .>> 8) .& 0xFF)] = n.
Proof.
  intros Hl. rewrite <- (le_value_le 2 n) at 3 by lia. f_equal. apply list_eq. intros i. destruct i as [|i].
  { rewrite le_lookup by lia. by rewrite Z.shiftr_0_r. }
  destruct i as [|i]; [by rewrite le_lookup|]. by rewrite !lookup_ge_None_2 by (rewrite ?length_le; simpl; lia).
Qed.

Lemma le_halves v : 0 <= v < 2 ^ 64 -> le_value (le 4 (low32 v) ++ le 4 (high32 v)) = v.
Proof.
  intros Hl. rewrite <- (le_value_le 8 v) at 3 by lia. f_equal. apply list_eq. intros i. destruct (decide (i < 4)%nat) as [H4|H4].
  - rewrite lookup_app_l by (rewrite length_le; lia). rewrite !le_lookup by lia. f_equal. apply Z.bits_inj'. intros n Hn.
    rewrite !u8_testbit, !Z.land_spec, !Z.shiftr_spec by lia. unfold low32. rewrite Z.land_spec. change 0xFFFFFFFF with (Z.ones 32).
    destruct (Z.ltb_spec n 8); [|done]. by rewrite (Z.ones_spec_low 32), andb_true_r by lia.
  - destruct (decide (i < 8)%nat) as [H8|H8].
    + rewrite lookup_app_r by (rewrite length_le; lia). rewrite length_le by lia. rewrite !le_lookup by lia. f_equal. apply Z.bits_inj'.
      intros n Hn. rewrite !u8_testbit, !Z.land_spec, !Z.shiftr_spec by lia. unfold high32. rewrite Z.land_spec, Z.shiftr_spec by lia.
      change 0xFFFFFFFF with (Z.ones 32). destruct (Z.ltb_spec n 8); [|done]. rewrite (Z.ones_spec_low 32), andb_true_r by lia.
      do 3 f_equal. lia.
    + by rewrite !lookup_ge_None_2 by (rewrite ?length_app, ?length_le; simpl; lia).
Qed.

(** The first byte of the header. *)
Lemma header_flags b w : byte_ok b -> w = 0 \/ w = 1 -> let f := set_field 0x40 (w .<< 6) (set_field 0x1F 5 b) in
  f .& 0x1F = 5 /\ Z.testbit f 6 = (w =? 1).
Proof.
  intros Hb Hw f. assert (Hall : Forall (fun b => forall w, w = 0 \/ w = 1 -> let f := set_field 0x40 (w .<< 6) (set_field 0x1F 5 b) in
    f .& 0x1F = 5 /\ Z.testbit f 6 = (w =? 1)) (seqZ 0 256)).
  { repeat (constructor; [intros ? [->| ->]; split; reflexivity|]). constructor. }
  rewrite Forall_forall in Hall. apply Hall; [|done]. apply list_elem_of_In, elem_of_seqZ. unfold byte_ok in Hb. lia.
Qed.

Lemma region_length dbc : 0 <= dbc < 2 ^ 22 -> le_value (le 4 (dbc .| 0x80000000)) mod 2 ^ 22 = dbc.
Proof.
  intros Hd. rewrite Z.lor_comm. change 0x80000000 with (1 * 2 ^ 31). rewrite lor_add_disjoint by lia. rewrite le_value_le by lia.
  replace (1 * 2 ^ 31 + dbc) with (dbc + 512 * 2 ^ 22) by lia. rewrite Z_mod_plus_full. by apply Z.mod_small.
Qed.

Lemma table_fields op lba count buf dbc : let l := table_bytes op lba count buf dbc in
  take 8 (drop 128 l) = le 4 (low32 buf) ++ le 4 (high32 buf) /\ take 4 (drop 140 l) = le 4 (dbc .| 0x80000000).
Proof.
  cbv zeta. unfold table_bytes. destruct (le4_ok (low32 buf)) as (? & ? & ? & ? & -> & _). destruct (le4_ok (high32 buf)) as (? & ? & ? & ? & -> & _).
  by destruct (le4_ok (dbc .| 0x80000000)) as (? & ? & ? & ? & -> & _).
Qed.

(** The controller reads the command that the driver wrote. *)
Lemma slot0_ok p clb ct e0 e op lba count buf dbc w : 
  building p clb ct e0 e (header_bytes w (bytes_at (phys (V e0)) clb 32)) (table_bytes op lba count buf dbc) ->
  word_at (phys (V e0)) (clb + 8) 8 = ct -> 0 <= lba < 2 ^ 48 -> 0 <= count < 2 ^ 16 -> 0 <= buf < 2 ^ 64 -> 0 <= dbc < 2 ^ 22 -> w = 0 \/ w = 1 ->
  slot0 (phys (V e)) clb = mkCmd op lba count buf (dbc + 1) (w =? 1) /\ slot0_valid (phys (V e)) clb /\
  word_at (phys (V e)) (clb + 8) 8 = ct.
Proof.
  intros [_ _ _ Hh Ht Hlh Hlt _] Hct Hlba Hcount Hbuf Hdbc Hw.
  assert (Ect : word_at (phys (V e)) (clb + 8) 8 = ct).
  { unfold word_at. rewrite (bytes_at_holds e clb _ 8 8 (clb + 8) Hh) by lia. rewrite <- Hct. unfold word_at. f_equal.
    rewrite (bytes_at_holds e0 clb (bytes_at (phys (V e0)) clb 32) 8 8 (clb + 8)) by (apply holds_bytes || rewrite ?length_bytes_at; lia).
    reflexivity. }
  assert (Hb0 : byte_ok (nth 0 (bytes_at (phys (V e0)) clb 32) 0)) by (apply (phys_byte e0)).
  destruct (header_flags _ w Hb0 Hw) as [Hf5 Hf6].
  pose proof (Hh 0%nat _ eq_refl) as H0b. cbn [Z.of_nat] in H0b. rewrite Z.add_0_r in H0b.
  set (m := phys (V e)) in *. 
  assert (Hbyte : forall k b, table_bytes op lba count buf dbc !! k = Some b -> m (ct + Z.of_nat k) = b) by exact Ht.
  split; [|split; [|done]].
  - unfold slot0. rewrite Ect. f_equal.
    + exact (Hbyte 2%nat _ eq_refl).
    + unfold fis_lba. rewrite (Hbyte 4%nat _ eq_refl : m (ct + 4) = _), (Hbyte 5%nat _ eq_refl : m (ct + 5) = _), (Hbyte 6%nat _ eq_refl : m (ct + 6) = _),
        (Hbyte 8%nat _ eq_refl : m (ct + 8) = _), (Hbyte 9%nat _ eq_refl : m (ct + 9) = _), (Hbyte 10%nat _ eq_refl : m (ct + 10) = _). by apply le_lba.
    + unfold word_at, m. rewrite (bytes_at_holds e ct _ 12 2 (ct + 12) Ht) by lia. by apply le_count.
    + unfold word_at, m. rewrite (bytes_at_holds e ct _ 128 8 (ct + 128) Ht), (proj1 (table_fields _ _ _ _ _)) by lia. by apply le_halves.
    + unfold word_at, m. rewrite (bytes_at_holds e ct _ 140 4 (ct + 140) Ht), (proj2 (table_fields _ _ _ _ _)) by lia. by rewrite region_length.
    + rewrite H0b. exact Hf6.
  - unfold slot0_valid. rewrite Ect. split_and!.
    + rewrite H0b. exact Hf5.
    + unfold word_at, m. rewrite (bytes_at_holds e clb _ 2 2 (clb + 2) Hh) by lia. reflexivity.
    + pose proof (Hbyte 0%nat _ eq_refl) as Hx. cbn [Z.of_nat] in Hx. by rewrite Z.add_0_r in Hx.
    + by rewrite (Hbyte 1%nat _ eq_refl : m (ct + 1) = _).
    + exact (Hbyte 7%nat _ eq_refl).
Qed.
(** ** Running a command *)

Definition apart (f g : Z) : Prop := f + 4096 <= g \/ g + 4096 <= f.

(** A port that [setupPortBuffers] has prepared: [clb] is the frame of its
    command list, with the area for received FISes 1 KiB behind the list, and
    [ct] that of its command table. *)
Record ready e (p clb ct : Z) : Prop := {
  r_list : page_at e (list_virt p) clb;
  r_table : page_at e (table_virt p) ct;
  r_apart : apart clb ct;
  r_clb : command_list (V e) p = clb;
  r_fis : fis_base (V e) p = clb + 0x400;
  r_up : up (V e) p = true;
  r_idle : latency (V e) p = O;
  r_ct : word_at (phys (V e)) (clb + 8) 8 = ct;
}.

Lemma bytes_at_ext m m' a n : (forall x, a <= x < a + Z.of_nat n -> m' x = m x) -> bytes_at m' a n = bytes_at m a n.
Proof. intros Hm. unfold bytes_at. apply list_fmap_ext. intros i k Hk. apply lookup_seq in Hk as [-> ?]. apply Hm. lia. Qed.

(** What is on the drive behind a read. *)
Lemma bytes_at_drive m a d lba count : 0 <= lba -> 0 <= count -> 512 * (lba + count) <= Z.of_nat (length d) ->
  (forall x, a <= x < a + 512 * count -> m x = nth (Z.to_nat (512 * lba + (x - a))) d 0) ->
  dev_read lba count d = Some (bytes_at m a (Z.to_nat (512 * count))).
Proof.
  intros Hl Hc Hd Hm. cbn. rewrite slice_ok by lia. f_equal. apply list_eq. intros i. destruct (decide (i < Z.to_nat (512 * count))%nat).
  - rewrite lookup_take_lt, lookup_drop by lia. unfold bytes_at. rewrite list_lookup_fmap, lookup_seq_lt by lia. cbn.
    rewrite Hm by lia. destruct (lookup_lt_is_Some_2 d (Z.to_nat (512 * lba) + i)) as [b Hb]; [lia|]. rewrite Hb. f_equal.
    symmetry. apply nth_lookup_Some. rewrite <- Hb. f_equal. lia.
  - rewrite !lookup_ge_None_2; [done | rewrite length_bytes_at; lia | rewrite length_take, length_drop; lia].
Qed.

Lemma finish_command_ok n p e clb ct : let c := slot0 (phys (V e)) clb in
  command_list (V e) p = clb -> fis_base (V e) p = clb + 0x400 -> apart clb ct ->
  up (V e) p = true -> latency (V e) p = O -> slot0_valid (phys (V e)) clb ->
  word_at (phys (V e)) (clb + 8) 8 = ct -> transfer_ok c (drive (V e) p) -> 1000 <= n ->
  c_len c <= 4096 -> apart clb (c_buf c) ->
  exists e', finish_command n p e = Ok (true, e') /\ kept (V e) (V e') /\ same_frames (V e) (V e') /\ latency (V e') p = O /\
    word_at (phys (V e')) (clb + 8) 8 = ct /\
    (c_write c = false -> forall x, c_buf c <= x < c_buf c + c_len c -> phys (V e') x = nth (Z.to_nat (512 * c_lba c + (x - c_buf c))) (drive (V e) p) 0) /\
    drive (V e') p = (if c_write c then (dev_write (c_lba c) (c_count c) (bytes_at (phys (V e)) (c_buf c) (Z.to_nat (c_len c))) (drive (V e) p)).2
                      else drive (V e) p) /\
    (forall q, q <> p -> drive (V e') q = drive (V e) q).
Proof.
  intros c Hclb Hfb Hact Hup Hidle Hval Hct Htr Hn Hlen Hap. unfold finish_command, reg_or.
  destruct (ci_law e p Hup) as (v & e1 & E1 & Q1 & -> & L1). rewrite E1, Hidle. change (0 .| 1) with 1. cbv zeta.
  pose proof Q1 as ((C1 & B1 & U1) & M1 & F1 & D1).
  assert (Em : forall a w, word_at (phys (V e1)) a w = word_at (phys (V e)) a w) by (intros a w; unfold word_at; f_equal; apply bytes_at_ext; intros; apply M1).
  assert (Ec : slot0 (phys (V e1)) clb = c) by (subst c; unfold slot0, fis_lba; by rewrite !Em, !M1).
  destruct (start_law e1 p) as (v2 & -> & K2 & F2 & L2 & X2 & D2 & O2).
  { by rewrite U1. } { by rewrite L1, Hidle. } { rewrite C1, Hclb. unfold slot0_valid in *. by rewrite !Em, !M1. }
  { rewrite C1, Hclb, Ec, D1. done. }
  { rewrite C1, B1, Hclb, Hfb. unfold fis_apart. rewrite Em, Hct. unfold apart in Hact. intros x Hx. lia. }
  { rewrite C1, B1, Hclb, Hfb, Ec. unfold private_area, apart in *. intros x Hx. lia. }
  rewrite C1, B1, Hclb, Hfb, Ec, D1 in *. set (e2 := reg_store (port p + PxCI) 1 e1) in *.
  assert (Hup2 : up (V e2) p = true) by (destruct K2 as (_ & _ & U2); by rewrite U2, U1).
  destruct (poll_command (Z.to_nat n) p e2 Hup2 ltac:(lia)) as (e3 & E3 & Q3 & L3). run_call E3. cbn [negb].
  assert (Hup3 : up (V e3) p = true) by (destruct Q3 as ((_ & _ & U3) & _); by rewrite U3).
  destruct (tfd_law e3 p Hup3 L3) as (v & e4 & E4 & Q4 & Hv & L4). rewrite E4.
  assert (v .& 1 = 0) as -> by (change 1 with (0x89 .& 1); by rewrite Z.land_assoc, Hv).
  destruct Q3 as (K3 & M3 & F3 & D3), Q4 as (K4 & M4 & F4 & D4). destruct Q1 as (K1 & _).
  exists e4. split; [done|]. split; [eauto with ahci|]. split; [eauto 6 with ahci|]. split; [done|].
  assert (Em4 : forall x, phys (V e4) x = phys (V e2) x) by (intros x; by rewrite M4, M3).
  split_and!.
  - rewrite <- Hct. unfold word_at. f_equal. apply bytes_at_ext. intros x Hx. rewrite Em4, X2 by (unfold private_area; lia).
    rewrite M1. assert (negb (c_write c) && (c_buf c <=? x) && (x <? c_buf c + c_len c) = false) as -> by (unfold apart in Hap; lia). done.
  - intros Hw x Hx. rewrite Em4, X2 by (unfold private_area, apart in *; lia). rewrite Hw.
    assert (negb false && (c_buf c <=? x) && (x <? c_buf c + c_len c) = true) as -> by lia. done.
  - rewrite D4, D3, D2. destruct (c_write c); [|done]. do 2 f_equal. apply bytes_at_ext. intros; apply M1.
  - intros q Hq. rewrite D4, D3, O2 by done. apply D1.
Qed.

Lemma issueCommand_ok p e clb ct op lba count buf (w : bool) : ready e p clb ct -> op = (if w then 0x35 else 0x25) ->
  0 <= lba -> lba < 2 ^ 48 -> 1 <= count <= 8 -> 512 * (lba + count) <= Z.of_nat (length (drive (V e) p)) -> 0 <= buf < 2 ^ 48 ->
  apart clb buf -> apart ct buf ->
  exists e', issueCommand p op lba count buf (512 * count) w e = Ok (true, e') /\ ready e' p clb ct /\ kept (V e) (V e') /\
    same_frames (V e) (V e') /\
    (w = false -> forall x, buf <= x < buf + 512 * count -> phys (V e') x = nth (Z.to_nat (512 * lba + (x - buf))) (drive (V e) p) 0) /\
    drive (V e') p = (if w then (dev_write lba count (bytes_at (phys (V e)) buf (Z.to_nat (512 * count))) (drive (V e) p)).2 else drive (V e) p) /\
    (forall q, q <> p -> drive (V e') q = drive (V e) q).
Proof.
  intros [Rl Rt Ra Rc Rf Ru Ri Rct] Hop Hlba Hlba2 Hcount Hroom Hbuf Hap1 Hap2. unfold issueCommand. rewrite u32_small by lia.
  set (wz := if w then 1 else 0). assert (Hw : wz = 0 \/ wz = 1) by (subst wz; destruct w; lia).
  destruct (begin_command_ok p clb ct Ra e buf (512 * count - 1) wz Rl Rt Ru Ri ltac:(lia)) as (e1 & E1 & B1). run_call E1.
  destruct (write_fis_ok p clb ct Ra e e1 _ op lba count buf (512 * count - 1) B1) as (e2 & E2 & B2); [subst op; by destruct w|]. run_call E2.
  destruct (slot0_ok p clb ct e e2 op lba count buf (512 * count - 1) wz B2 Rct) as (Es & Hval & Hct2); try done; try lia.
  pose proof B2 as [(K & F & D & L) Pl Pt _ _ _ _ X]. pose proof K as (Kc & Kf & Ku).
  destruct (finish_command_ok 10000 p e2 clb ct) as (e3 & E3 & K3 & F3 & L3 & W3 & R3 & D3 & O3);
    [by rewrite Kc | by rewrite Kf | done | by rewrite Ku | congruence | done | done | rewrite Es, D; unfold transfer_ok; cbn | lia | rewrite Es; cbn; lia | by rewrite Es |].
  { subst op wz. by destruct w; split_and!; try done; try lia. }
  rewrite Es in *. cbn [c_write c_buf c_len c_lba c_count] in *. replace (512 * count - 1 + 1) with (512 * count) in * by lia.
  replace (wz =? 1) with w in * by (subst wz; by destruct w). rewrite D in D3, R3.
  exists e3. split; [done|]. split.
  { pose proof K3 as (Kc3 & Kf3 & Ku3). destruct F3 as [Fr3 _]. split; try done; [split; [apply Pl | rewrite Fr3; apply Pl] | split; [apply Pt | rewrite Fr3; apply Pt] |
      by rewrite Kc3, Kc | by rewrite Kf3, Kf | by rewrite Ku3, Ku]. }
  split; [eauto with ahci|]. split; [eauto with ahci|]. split; [done|]. split; [|intros q Hq; by rewrite O3, D].
  rewrite D3. destruct w; [|done]. do 2 f_equal. apply bytes_at_ext. intros x Hx. apply X; unfold apart in *; lia.
Qed.
(** ** Sectors *)

Lemma aligned_apart f g : f mod 4096 = 0 -> g mod 4096 = 0 -> f <> g -> apart f g.
Proof. intros Hf Hg Hne. unfold apart. Z.to_euclidean_division_equations. lia. Qed.

Lemma ready_frame e e' p clb ct : ready e p clb ct -> kept (V e) (V e') ->
  (forall w, w = list_virt p / 4096 \/ w = table_virt p / 4096 -> frame_of (V e') w = frame_of (V e) w) ->
  latency (V e') p = latency (V e) p -> (forall x, clb <= x < clb + 4096 -> phys (V e') x = phys (V e) x) -> ready e' p clb ct.
Proof.
  intros [[Al Fl] [At Ft] Ra Rc Rf Ru Ri Rct] (Kc & Kf & Ku) Fr L X. split; try done.
  - split; [done|]. rewrite Fr by auto. done.
  - split; [done|]. rewrite Fr by auto. done.
  - by rewrite Kc.
  - by rewrite Kf.
  - by rewrite Ku.
  - congruence.
  - rewrite <- Rct. unfold word_at. f_equal. apply bytes_at_ext. intros x Hx. apply X. lia.
Qed.

(** ** Bringing a port up *)

(** A fresh frame, mapped at a page of the driver's. *)
Lemma fresh_page e a : (4 <= size (free (V e)))%nat -> a mod 4096 = 0 ->
  exists f e1 e2, host_alloc e = Ok (f, e1) /\ f <> UINT64_MAX /\ host_map a f DATA_FLAGS e1 = Ok e2 /\
    f mod 4096 = 0 /\ 0 <= f < 2 ^ 48 /\ page_at e2 a f /\ (forall w g, frame_of (V e) w = Some g -> apart g f) /\
    (forall w, w <> a / 4096 -> frame_of (V e2) w = frame_of (V e) w) /\
    (forall w g x, frame_of (V e) w = Some g -> g <= x < g + 4096 -> phys (V e2) x = phys (V e) x) /\
    kept (V e) (V e2) /\ same_drives (V e) (V e2) /\ same_latency (V e) (V e2) /\ (size (free (V e)) <= size (free (V e2)) + 4)%nat /\
    f ∈ free (V e) /\ free (V e2) ⊆ free (V e).
Proof.
  intros Hfree Ha.
  destruct (alloc_law e) as (f & e1 & E1 & Hf & Hfr1 & Fr1 & K1 & M1 & D1 & L1); [intros E0; by rewrite E0, size_empty in Hfree; lia|].
  destruct (free_aligned e f Hf) as [Hfa Hfb].
  assert (Hsz : size (free (V e1)) = (size (free (V e)) - 1)%nat) by (rewrite Hfr1, size_difference by (by apply singleton_subseteq_l); by rewrite size_singleton).
  destruct (map_law e1 a f DATA_FLAGS) as (e2 & E2 & Fr2 & Hsub & Hsz2 & X2 & K2 & D2 & L2); [done | done | done | rewrite Hfr1, elem_of_difference, elem_of_singleton; tauto | lia |].
  exists f, e1, e2. split; [done|]. split; [unfold UINT64_MAX; lia|]. split; [done|]. split; [done|]. split; [done|].
  split; [split; [done|]; by rewrite Fr2, Z.eqb_refl|]. split.
  { intros w g Hg. destruct (frame_aligned e w g Hg). apply aligned_apart; [done | done |]. intros ->. by apply (mapped_not_free e w f Hg). }
  split; [intros w Hw; rewrite Fr2, Fr1; by rewrite (proj2 (Z.eqb_neq _ _))|]. split.
  { intros w g x Hg Hx. rewrite (X2 g x); [apply M1 | right; exists w; by rewrite Fr1 | done]. }
  split_and!; [eauto with ahci .. | lia | done | set_solver].
Qed.

(** [zeros] over a whole page. *)
Lemma zeros_page e a f : page_at e a f -> exists e', zeros a (Z.to_nat 4096) e = Ok e' /\ stored e e' /\ holds e' f (replicate 16 0) /\
  forall x, ~ (f <= x < f + 4096) -> phys (V e') x = phys (V e) x.
Proof.
  intros Hpg. assert (Hn : Z.to_nat 4096 = 4096%nat) by reflexivity. set (n := Z.to_nat 4096) in *. clearbody n. destruct (stores_bytes (replicate n 0) e a f 0 (bytes_at (phys (V e)) f 4096) Hpg (holds_bytes e f 4096)) as (e' & E1 & S1 & L1 & X1).
  { rewrite length_replicate, length_bytes_at. lia. }
  { rewrite length_bytes_at. lia. }
  { apply Forall_replicate. by unfold byte_ok. }
  rewrite Z.add_0_r in E1. exists e'. split; [done|]. split; [done|]. split.
  - rewrite list_inserts_all in L1 by (by rewrite length_replicate, length_bytes_at). intros k b Hk. apply L1.
    apply lookup_replicate in Hk as [-> Hk]. apply lookup_replicate. lia.
  - intros x Hx. apply X1. rewrite length_replicate. lia.
Qed.

(** Two words written to an address register pair, of which the low [k] bits
    of the first are lost. *)
Lemma address_halves a old k : 0 <= a < 2 ^ 64 -> 0 <= k < 32 -> a mod 2 ^ k = 0 ->
  0 <= low32 a < 2 ^ 32 /\ 0 <= high32 a < 2 ^ 32 /\
  high32 a * 2 ^ 32 + (old / 2 ^ 32 * 2 ^ 32 + low32 a / 2 ^ k * 2 ^ k) mod 2 ^ 32 = a.
Proof.
  intros Ha Hk Hm.
  assert (Hlow : low32 a = a mod 2 ^ 32) by (unfold low32; change 0xFFFFFFFF with (Z.ones 32); by rewrite Z.land_ones by lia).
  assert (Hhigh : high32 a = a / 2 ^ 32).
  { unfold high32. rewrite Z.shiftr_div_pow2 by lia. change 0xFFFFFFFF with (Z.ones 32). rewrite Z.land_ones by lia. apply Z.mod_small.
    Z.to_euclidean_division_equations. lia. }
  assert (Hml : (a mod 2 ^ 32) mod 2 ^ k = 0).
  { rewrite <- Hm. replace (2 ^ 32) with (2 ^ k * 2 ^ (32 - k)) by (rewrite <- Z.pow_add_r by lia; f_equal; lia).
    rewrite Z.rem_mul_r by (apply Z.pow_nonzero + apply Z.pow_pos_nonneg; lia).
    rewrite (Z.mul_comm (2 ^ k)), Z_mod_plus_full. apply Z.mod_mod. apply Z.pow_nonzero; lia. }
  assert (Hk0 : 2 ^ k <> 0) by (apply Z.pow_nonzero; lia).
  assert (Ed : low32 a / 2 ^ k * 2 ^ k = low32 a) by (rewrite Hlow; pose proof (Z.div_mod (a mod 2 ^ 32) (2 ^ k) Hk0); lia).
  rewrite Ed, Hlow, Hhigh. split; [by apply Z.mod_pos_bound|]. split; [Z.to_euclidean_division_equations; lia|].
  rewrite (Z.add_comm (_ * _) (a mod _)), Z_mod_plus_full, Z.mod_mod by lia. pose proof (Z.div_mod a (2 ^ 32)). lia.
Qed.

Lemma repointed_trans p c1 b1 c2 b2 v1 v2 v3 : repointed p c1 b1 v1 v2 -> repointed p c2 b2 v2 v3 -> repointed p c2 b2 v1 v3.
Proof.
  intros (_ & _ & O1 & L1 & M1 & F1 & D1 & T1) (C & B & O2 & L2 & M2 & F2 & D2 & T2).
  split_and!; [done | done | | intros q; by rewrite L2, L1 | intros x; by rewrite M2, M1 | eauto with ahci ..].
  intros q Hq. destruct (O1 q Hq) as [<- <-]. by apply O2.
Qed.

(** The places of the list and of the FIS area in the port's registers. *)
Lemma port_registers e p f : l_present (link (V e) p) = true -> l_st (link (V e) p) = false -> l_fre (link (V e) p) = false ->
  0 <= f < 2 ^ 48 -> f mod 4096 = 0 ->
  let e4 := reg_store (port p + PxFBU) (high32 (u64 (f + 0x400))) (reg_store (port p + PxFB) (low32 (u64 (f + 0x400)))
    (reg_store (port p + PxCLBU) (high32 f) (reg_store (port p + PxCLB) (low32 f) e))) in
  repointed p f (f + 0x400) (V e) (V e4).
Proof.
  intros Hp Hst Hfre Hf Ha e4. subst e4. rewrite u64_small by lia.
  destruct (address_halves f (command_list (V e) p) 10) as (Hl & Hh & Ef); [lia | lia | Z.to_euclidean_division_equations; lia |].
  destruct (address_halves (f + 0x400) (fis_base (V e) p) 8) as (Hl' & Hh' & Eb); [lia | lia | Z.to_euclidean_division_equations; lia |].
  pose proof (clb_law e p (low32 f) Hp Hst Hl) as R1. set (e1 := reg_store (port p + PxCLB) (low32 f) e) in *.
  pose proof R1 as (C1 & B1 & _ & L1 & _).
  assert (R2 := clbu_law e1 p (high32 f)). cbv zeta in R2. rewrite L1, C1, B1, Ef in R2. specialize (R2 Hp Hst Hh).
  set (e2 := reg_store (port p + PxCLBU) (high32 f) e1) in *. pose proof R2 as (C2 & B2 & _ & L2 & _).
  assert (R3 := fb_law e2 p (low32 (f + 0x400))). cbv zeta in R3. rewrite L2, L1, C2, B2 in R3. specialize (R3 Hp Hfre Hl').
  set (e3 := reg_store (port p + PxFB) _ e2) in *. pose proof R3 as (C3 & B3 & _ & L3 & _).
  assert (R4 := fbu_law e3 p (high32 (f + 0x400))). cbv zeta in R4. rewrite L3, L2, L1, C3, B3, Eb in R4. specialize (R4 Hp Hfre Hh').
  by eapply repointed_trans; [|eapply repointed_trans; [|eapply repointed_trans]].
Qed.

(** The entry of slot 0 in a cleared list. *)
Lemma list_entry e p clb ct : page_at e (list_virt p) clb -> holds e clb (replicate 16 0) -> 0 <= ct < 2 ^ 48 ->
  exists e1 e2 e3, store32 (list_virt p + 8) (low32 ct) e = Ok e1 /\ store32 (list_virt p + 12) (high32 ct) e1 = Ok e2 /\
    store16 (list_virt p + 2) 1 e2 = Ok e3 /\ stored e e3 /\ word_at (phys (V e3)) (clb + 8) 8 = ct /\
    forall x, ~ (clb <= x < clb + 4096) -> phys (V e3) x = phys (V e) x.
Proof.
  intros Pg Hl Hct. unfold store32, store16. destruct (le4_ok (low32 ct)) as (a0 & a1 & a2 & a3 & Ea & Ha).
  destruct (le4_ok (high32 ct)) as (b0 & b1 & b2 & b3 & Eb & Hb).
  pose proof (le_halves ct ltac:(lia)) as Ev. rewrite Ea, Eb in *.
  destruct (stores_bytes [a0; a1; a2; a3] e _ clb 8 _ Pg Hl) as (e1 & E1 & S1 & L1 & X1); [simpl; lia | simpl; lia | done |].
  destruct (stores_bytes [b0; b1; b2; b3] e1 _ clb 12 _ (page_stored _ _ _ _ Pg S1) L1) as (e2 & E2 & S2 & L2 & X2); [simpl; lia | simpl; lia | done |].
  assert (Pg2 := page_stored _ _ _ _ (page_stored _ _ _ _ Pg S1) S2).
  destruct (stores_bytes (le 2 1) e2 _ clb 2 _ Pg2 L2) as (e3 & E3 & S3 & L3 & X3); [rewrite length_le; simpl; lia | simpl; lia | by apply le_bytes_ok; lia |].
  exists e1, e2, e3. split_and!; try done; [by eapply stored_trans; [|eapply stored_trans] .. | |].
  - unfold word_at. rewrite (bytes_at_holds e3 clb _ 8 8 _ L3) by (simpl; lia). exact Ev.
  - intros x Hx. rewrite X3, X2, X1; [done | simpl; lia | simpl; lia |]. rewrite length_le by lia. simpl. lia.
Qed.

Lemma port_pages p : 0 <= p < 32 -> list_virt p mod 4096 = 0 /\ table_virt p mod 4096 = 0 /\ list_virt p / 4096 <> table_virt p / 4096.
Proof. intros Hp. unfold list_virt, table_virt, PORT_BUFFER_VIRT_BASE, CMDTABLE_VIRT_BASE. Z.to_euclidean_division_equations. lia. Qed.

(** A port whose list and table are in place, but which is not started. *)
Record laid_out e (p clb ct : Z) : Prop := {
  lo_list : page_at e (list_virt p) clb;
  lo_table : page_at e (table_virt p) ct;
  lo_apart : apart clb ct;
  lo_clb : command_list (V e) p = clb;
  lo_fis : fis_base (V e) p = clb + 0x400;
  lo_ct : word_at (phys (V e)) (clb + 8) 8 = ct;
}.

Lemma setupPortBuffers_ok a p e : 0 <= p < 32 -> length (g_cmdtable_phys a) = 32%nat -> (8 <= size (free (V e)))%nat ->
  l_present (link (V e) p) = true -> l_st (link (V e) p) = false -> l_fre (link (V e) p) = false ->
  exists a' e' clb ct, setupPortBuffers a p e = Ok (a', e') /\ laid_out e' p clb ct /\ g_port_types a' = g_port_types a /\
    g_initialized a' = g_initialized a /\ g_cmdtable_phys a' = <[Z.to_nat p := ct]> (g_cmdtable_phys a) /\
    (forall q, link (V e') q = link (V e) q) /\ same_drives (V e) (V e') /\ same_latency (V e) (V e') /\
    clb ∈ free (V e) /\ ct ∈ free (V e).
Proof.
  intros Hp Ha Hfree Hpr Hst Hfre. destruct (port_pages p Hp) as (Hl & Ht & Hne). unfold setupPortBuffers.
  destruct (fresh_page e (list_virt p)) as (f & e1 & e2 & E1 & Hf & E2 & Hfa & Hfb & Pg & _ & _ & _ & (K2 & B2 & U2) & D2 & T2 & Sz2 & Hin & Hsub); [lia | done |].
  run_call E1. rewrite (proj2 (Z.eqb_neq f UINT64_MAX)) by done. run_call E2.
  destruct (zeros_page e2 _ f Pg) as (e3 & E3 & S3 & Z3 & _). run_call E3. pose proof S3 as ((K3 & B3 & U3) & [F3 Fe3] & D3 & T3).
  destruct (port_registers e3 p f) as (C4 & B4 & _ & U4 & M4 & [F4 Fe4] & D4 & T4); [by rewrite U3, U2 .. | done | done |].
  set (e4 := reg_store (port p + PxFBU) _ _) in *. clearbody e4.
  assert (Pg4 : page_at e4 (list_virt p) f) by (destruct Pg as [? Fp]; split; [done | by rewrite F4, F3]).
  destruct (fresh_page e4 (table_virt p)) as (ct & e5 & e6 & E5 & Hct & E6 & _ & Hctb & Pt & Ap & Fr6 & X6 & (K6 & B6 & U6) & D6 & T6 & _ & Hin6 & _);
    [rewrite Fe4, Fe3; lia | done |].
  run_call E5. rewrite (proj2 (Z.eqb_neq ct UINT64_MAX)) by done. run_call E6.
  destruct (zeros_page e6 _ ct Pt) as (e7 & E7 & S7 & _ & X7). run_call E7. pose proof S7 as ((K7 & B7 & U7) & [F7 _] & D7 & T7).
  assert (Apf : apart f ct) by apply (Ap _ _ (proj2 Pg4)).
  assert (Pg7 : page_at e7 (list_virt p) f) by (split; [done|]; rewrite F7, Fr6 by done; apply Pg4).
  assert (Z7 : holds e7 f (replicate 16 0)).
  { intros k b Hk. pose proof (lookup_lt_Some _ _ _ Hk) as Hlt. rewrite length_replicate in Hlt. unfold apart in Apf.
    rewrite X7 by lia. rewrite (X6 _ f) by (apply Pg4 || lia). rewrite M4. by apply Z3. }
  unfold set_table. rewrite store_in_range by lia. cbn [mbind outcome_bind].
  destruct (list_entry e7 p f ct Pg7 Z7 Hctb) as (e8 & e9 & e10 & E8 & E9 & E10 & S10 & W & _). run_call E8. run_call E9. run_call E10.
  pose proof S10 as ((K10 & B10 & U10) & _ & D10 & T10).
  eexists _, e10, f, ct. split; [done|]. split.
  { split; [by eapply page_stored | eapply page_stored; [by eapply page_stored | done] | done | by rewrite K10, K7, K6, C4 | by rewrite B10, B7, B6, B4 | done]. }
  cbn [g_port_types g_initialized g_cmdtable_phys]. split_and!; try done.
  - intros q. by rewrite U10, U7, U6, U4, U3, U2.
  - intros q. by rewrite D10, D7, D6, D4, D3, D2.
  - intros q. by rewrite T10, T7, T6, T4, T3, T2.
  - apply Hsub. by rewrite <- Fe3, <- Fe4.
Qed.

Lemma laid_out_kept e e' p clb ct : laid_out e p clb ct -> (forall q, command_list (V e') q = command_list (V e) q) ->
  (forall q, fis_base (V e') q = fis_base (V e) q) ->
  same_frames (V e) (V e') -> (forall x, ~ private_area clb (clb + 0x400) x -> phys (V e') x = phys (V e) x) -> laid_out e' p clb ct.
Proof.
  intros [[? L1] [? L2] ? L4 L6 L5] Kc Kf [Fr _] X.
  split; [split; [done | by rewrite Fr] | split; [done | by rewrite Fr] | done | by rewrite Kc | by rewrite Kf |].
  rewrite <- L5. unfold word_at. f_equal. apply bytes_at_ext. intros x Hx. apply X. unfold private_area. lia.
Qed.

(** [port.cmd |= bits] on a port with a drive. *)
Lemma cmd_or e p bits clb ct : l_present (link (V e) p) = true -> laid_out e p clb ct ->
  let e' := reg_or (port p + PxCMD) bits e in
  laid_out e' p clb ct /\ same_drives (V e) (V e') /\ same_latency (V e) (V e') /\
  link (V e') p = mkLink true (l_st (link (V e) p) || Z.testbit bits 0) (l_fre (link (V e) p) || Z.testbit bits 4).
Proof.
  intros Hp Lo. unfold reg_or. destruct (cmd_load_law e p Hp) as (v & e1 & E1 & ((K1 & B1 & U1) & M1 & F1 & D1) & T1 & Hst & Hfre). rewrite E1. cbv zeta.
  destruct (cmd_store_law e1 p (v .| bits)) as (w & Ew & L2 & _ & K2 & B2 & F2 & D2 & T2 & X2); [by rewrite U1|]. subst w.
  assert (Lo1 : laid_out e1 p clb ct) by (apply (laid_out_kept e); [done | done | done | done | intros; apply M1]).
  split_and!; [|eauto with ahci | eauto with ahci | by rewrite L2, !Z.lor_spec, Hst, Hfre].
  apply (laid_out_kept e1); [done | done | done | done |]. intros x Hx. apply X2. by rewrite (lo_clb _ _ _ _ Lo1), (lo_fis _ _ _ _ Lo1).
Qed.

(** C23. A port with a drive that is idle and stopped, as a reset leaves it,
    comes up: [initPort] returns [true] with the port ready for commands: its
    command list and command table are in two different fresh frames, mapped at
    the driver's pages, the controller's registers hold the address of the list
    and, for the received FISes, the one 1 KiB behind it, the entry of slot 0
    points at the table, and the command engine and the FIS area are switched
    on.  The drive is untouched. *)
Theorem initPort_ready a p e : 0 <= p < 32 -> length (g_cmdtable_phys a) = 32%nat -> (8 <= size (free (V e)))%nat ->
  link (V e) p = mkLink true false false -> latency (V e) p = O ->
  exists a' e' clb ct, initPort a p e = Ok (true, a', e') /\ ready e' p clb ct /\
    command_list (V e') p = clb /\ fis_base (V e') p = clb + 0x400 /\ word_at (phys (V e')) (clb + 8) 8 = ct /\
    clb ∈ free (V e) /\ ct ∈ free (V e) /\ apart clb ct /\
    frame_of (V e') (list_virt p / 4096) = Some clb /\ frame_of (V e') (table_virt p / 4096) = Some ct /\
    link (V e') p = mkLink true true true /\ g_cmdtable_phys a' = <[Z.to_nat p := ct]> (g_cmdtable_phys a) /\
    g_port_types a' = g_port_types a /\ g_initialized a' = g_initialized a /\ same_drives (V e) (V e').
Proof.
  intros Hp Ha Hfree Hl Hi. unfold initPort, until_present.
  destruct (ssts_law e p) as (v & e1 & E1 & ((K1 & B1 & U1) & M1 & [F1 Fe1] & D1) & T1 & Hv); [by rewrite Hl|]. rewrite E1.
  unfold SSTS_DET_MASK, SSTS_DET_PRESENT. rewrite Hv. change (3 =? 0x03) with true. cbv iota beta zeta. rewrite bool_decide_true by done.
  destruct (setupPortBuffers_ok a p e1) as (a' & e2 & clb & ct & E2 & Lo & Ht & Hi' & Hct & L2 & D2 & T2 & In1 & In2);
    [done | done | by rewrite Fe1 | by rewrite U1, Hl .. |]. run_call E2.
  destruct (cmd_or e2 p CMD_FRE clb ct) as (Lo3 & D3 & T3 & L3); [by rewrite L2, U1, Hl | done |]. set (e3 := reg_or _ CMD_FRE e2) in *.
  destruct (delay_ms_ok 10 e3 ltac:(lia)) as (e4 & E4 & ((K4 & B4 & U4) & M4 & F4 & D4) & T4). run_call E4.
  assert (Lo4 : laid_out e4 p clb ct) by (apply (laid_out_kept e3); [done | done | done | done | intros; apply M4]).
  destruct (cmd_or e4 p CMD_ST clb ct) as (Lo5 & D5 & T5 & L5); [by rewrite U4, L3 | done |].
  set (e5 := reg_or _ CMD_ST e4) in *. assert (Hlink : link (V e5) p = mkLink true true true) by by rewrite L5, U4, L3, L2, U1, Hl.
  assert (R : ready e5 p clb ct).
  { destruct Lo5 as [Pl Pt Pa Pc Pf Pw]. split; try done; [by rewrite Hlink | by rewrite T5, T4, T3, T2, T1]. }
  exists a', e5, clb, ct. pose proof R as [[_ Pl] [_ Pt] Pa Pc Pf _ _ Pw]. rewrite Fe1 in In1, In2. split_and!; try done.
  intros q. by rewrite D5, D4, D3, D2, D1.
Qed.

(** The buffer of a request. *)
Lemma buffer_ok e p clb ct a : ready e p clb ct -> (4 <= size (free (V e)))%nat -> a mod 4096 = 0 ->
  a / 4096 <> list_virt p / 4096 -> a / 4096 <> table_virt p / 4096 ->
  exists f e1 e2, host_alloc e = Ok (f, e1) /\ f <> UINT64_MAX /\ host_map a f DATA_FLAGS e1 = Ok e2 /\ ready e2 p clb ct /\
    page_at e2 a f /\ 0 <= f < 2 ^ 48 /\ apart clb f /\ apart ct f /\ same_drives (V e) (V e2) /\
    (size (free (V e)) <= size (free (V e2)) + 4)%nat.
Proof.
  intros R Hfree Ha Hne1 Hne2. pose proof R as [[Al Fl] [At Ft] _ _ _ _ _ _].
  destruct (fresh_page e a Hfree Ha) as (f & e1 & e2 & E1 & Hf & E2 & _ & Hfb & Pg & Ap & Fr & X & K & D & L & Sz & _).
  exists f, e1, e2. do 3 (split; [done|]). split; [|by split_and!; try lia; [apply Pg .. | apply (Ap _ _ Fl) | apply (Ap _ _ Ft) |]].
  apply (ready_frame e); [done | done | | apply L | intros x Hx; by apply (X _ _ x Fl)].
  intros w [-> | ->]; by apply Fr.
Qed.

(** The driver accepts commands for the port. *)
Definition serves (a : Ahci) (p : Z) : Prop :=
  0 <= p < 32 /\ g_initialized a = true /\ exists t, g_port_types a !! Z.to_nat p = Some t /\ t <> NoDevice.

Lemma usable_ok a p : serves a p -> usable a p = Ok true.
Proof.
  intros (Hp & Hi & t & Ht & Hne). unfold usable, portHasDevice, portDeviceType, MAX_PORTS.
  assert ((p <? 0) || (32 <=? p) = false) as -> by lia. rewrite Hi. cbn [negb].
  rewrite (proj2 (load_ok _ p t)) by (split; [lia | done]). cbn. by rewrite bool_decide_false.
Qed.

Lemma io_page p : 0 <= p < 32 -> let a := IO_BUF_VIRT_BASE + p * 4096 in
  a mod 4096 = 0 /\ a / 4096 <> list_virt p / 4096 /\ a / 4096 <> table_virt p / 4096.
Proof. intros Hp a. subst a. unfold list_virt, table_virt, IO_BUF_VIRT_BASE, PORT_BUFFER_VIRT_BASE, CMDTABLE_VIRT_BASE. Z.to_euclidean_division_equations. lia. Qed.

Lemma readSectors_ok a p lba count e clb ct : serves a p -> ready e p clb ct -> (4 <= size (free (V e)))%nat ->
  0 <= lba < 2 ^ 48 -> 1 <= count <= 8 -> 512 * (lba + count) <= Z.of_nat (length (drive (V e) p)) ->
  exists e', readSectors a p lba count e = Ok (dev_read lba count (drive (V e) p), e') /\ ready e' p clb ct /\
    same_drives (V e) (V e') /\ (size (free (V e)) <= size (free (V e')) + 4)%nat.
Proof.
  intros Hs R Hfree Hlba Hcount Hroom. unfold readSectors. run_call (usable_ok a p Hs). cbn [negb].
  unfold MAX_SECTORS_PER_TRANSFER. assert ((count =? 0) || (8 <? count) = false) as -> by lia.
  destruct (io_page p) as (Ha & Hn1 & Hn2); [apply Hs|]. rewrite u32_small, u16_small by lia. rewrite (Z.mul_comm count 512).
  destruct (buffer_ok e p clb ct _ R Hfree Ha Hn1 Hn2) as (f & e1 & e2 & E1 & Hf & E2 & R2 & Pg & Hfb & Ap1 & Ap2 & D2 & Sz).
  run_call E1. rewrite (proj2 (Z.eqb_neq f UINT64_MAX)) by done. run_call E2.
  destruct (issueCommand_ok p e2 clb ct ATA_CMD_READ_DMA_EXT lba count f false R2) as (e3 & E3 & R3 & _ & F3 & Rd & D3 & O3);
    try done; try lia; [by rewrite D2|]. run_call E3. cbn [negb].
  assert (Pg3 : page_at e3 (IO_BUF_VIRT_BASE + p * 4096) f) by (destruct Pg as [? Fp], F3 as [Fr _]; split; [done | by rewrite Fr]).
  pose proof (loads_bytes (Z.to_nat (512 * count)) e3 _ f 0 (bytes_at (phys (V e3)) f 4096) Pg3 (holds_bytes e3 f 4096)) as El.
  rewrite length_bytes_at in El. specialize (El ltac:(lia) ltac:(lia)). rewrite Z.add_0_r in El. run_call El.
  exists e3. rewrite (bytes_at_drive (phys (V e3)) f (drive (V e) p) lba count) by (try lia; intros x Hx; rewrite <- (D2 p); by apply Rd).
  split; [do 3 f_equal|]; [|split; [done|]; split].
  - rewrite drop_0. rewrite (bytes_at_holds e3 f _ 0 (Z.to_nat (512 * count)) f (holds_bytes e3 f 4096)) by (rewrite ?length_bytes_at; lia). by rewrite drop_0.
  - intros q. destruct (decide (q = p)) as [->|Hq]; [by rewrite D3|]. by rewrite O3.
  - destruct F3 as [_ ->]. lia.
Qed.

Lemma writeSectors_ok a p lba count data e clb ct : serves a p -> ready e p clb ct -> (4 <= size (free (V e)))%nat ->
  0 <= lba < 2 ^ 48 -> 1 <= count <= 8 -> 512 * (lba + count) <= Z.of_nat (length (drive (V e) p)) ->
  Z.of_nat (length data) = 512 * count -> bytes_ok data ->
  exists e', writeSectors a p lba count data e = Ok (true, e') /\ ready e' p clb ct /\
    drive (V e') p = (dev_write lba count data (drive (V e) p)).2 /\ (forall q, q <> p -> drive (V e') q = drive (V e) q) /\
    (size (free (V e)) <= size (free (V e')) + 4)%nat.
Proof.
  intros Hs R Hfree Hlba Hcount Hroom Hlen Hb. unfold writeSectors. run_call (usable_ok a p Hs). cbn [negb].
  unfold MAX_SECTORS_PER_TRANSFER. assert ((count =? 0) || (8 <? count) = false) as -> by lia.
  destruct (io_page p) as (Ha & Hn1 & Hn2); [apply Hs|]. rewrite u32_small, u16_small by lia. rewrite (Z.mul_comm count 512).
  destruct (buffer_ok e p clb ct _ R Hfree Ha Hn1 Hn2) as (f & e1 & e2 & E1 & Hf & E2 & R2 & Pg & Hfb & Ap1 & Ap2 & D2 & Sz).
  run_call E1. rewrite (proj2 (Z.eqb_neq f UINT64_MAX)) by done. run_call E2. rewrite slice_ok by lia. cbn [mbind outcome_bind].
  change (Z.to_nat 0) with 0%nat. rewrite drop_0, take_ge by lia.
  destruct (stores_bytes data e2 _ f 0 (bytes_at (phys (V e2)) f 4096) Pg (holds_bytes e2 f 4096)) as (e3 & E3 & S3 & H3 & X3);
    [rewrite length_bytes_at; lia | by rewrite length_bytes_at | done |]. rewrite Z.add_0_r in E3. run_call E3. pose proof S3 as (K3 & [Fr3 Fe3] & D3 & L3).
  assert (R3 : ready e3 p clb ct).
  { apply (ready_frame e2); [done | done | intros; apply Fr3 | apply L3 |]. intros x Hx. apply X3. unfold apart in *. lia. }
  destruct (issueCommand_ok p e3 clb ct ATA_CMD_WRITE_DMA_EXT lba count f true R3) as (e4 & E4 & R4 & _ & [_ F4] & _ & D4 & O4);
    try done; try lia; [by rewrite D3, D2|].
  exists e4. split; [done|]. split; [done|]. rewrite D4, D3, D2. split_and!.
  - do 2 f_equal. rewrite (bytes_at_holds e3 f _ 0 (Z.to_nat (512 * count)) f H3) by (rewrite ?length_inserts, ?length_bytes_at; lia).
    rewrite drop_0. rewrite <- (take_drop (length data) (bytes_at (phys (V e2)) f 4096)).
    rewrite list_inserts_0_r by (rewrite length_take, length_bytes_at; lia). rewrite take_app_le, take_ge by lia. done.
  - intros q Hq. by rewrite O4, D3, D2.
  - rewrite F4, Fe3. lia.
Qed.

(** *** Sequences of requests *)

Inductive request := ReadSectors (lba count : Z) | WriteSectors (lba count : Z) (data : list Z).
Inductive answer := Data (d : option (list Z)) | Written (ok : bool).

(** The requests served by the driver, and by the drive's contents alone. *)
Definition serve (a : Ahci) (p : Z) (r : request) e : outcome (answer * E) :=
  match r with
  | ReadSectors lba count => '(d, e) ← readSectors a p lba count e; mret (Data d, e)
  | WriteSectors lba count data => '(ok, e) ← writeSectors a p lba count data e; mret (Written ok, e)
  end.

Fixpoint serve_all (a : Ahci) (p : Z) (rs : list request) e : outcome (list answer * E) :=
  match rs with
  | [] => mret ([], e)
  | r :: rs' => '(x, e) ← serve a p r e; '(xs, e) ← serve_all a p rs' e; mret (x :: xs, e)
  end.

Definition disk_serve (r : request) (d : list Z) : answer * list Z :=
  match r with
  | ReadSectors lba count => (Data (dev_read lba count d), d)
  | WriteSectors lba count data => let (ok, d') := dev_write lba count data d in (Written ok, d')
  end.

Fixpoint disk_serve_all (rs : list request) (d : list Z) : list answer * list Z :=
  match rs with
  | [] => ([], d)
  | r :: rs' => let (x, d) := disk_serve r d in let (xs, d) := disk_serve_all rs' d in (x :: xs, d)
  end.

(** A request of one to eight sectors inside a drive of [n] sectors. *)
Definition request_ok (n : Z) (r : request) : Prop :=
  match r with
  | ReadSectors lba count => 0 <= lba < 2 ^ 48 /\ 1 <= count <= 8 /\ lba + count <= n
  | WriteSectors lba count data => 0 <= lba < 2 ^ 48 /\ 1 <= count <= 8 /\ lba + count <= n /\ Z.of_nat (length data) = 512 * count /\ bytes_ok data
  end.

Lemma serve_ok a p r e clb ct n : serves a p -> ready e p clb ct -> (4 <= size (free (V e)))%nat ->
  request_ok n r -> 512 * n = Z.of_nat (length (drive (V e) p)) ->
  exists e', serve a p r e = Ok ((disk_serve r (drive (V e) p)).1, e') /\ ready e' p clb ct /\
    drive (V e') p = (disk_serve r (drive (V e) p)).2 /\ (forall q, q <> p -> drive (V e') q = drive (V e) q) /\
    512 * n = Z.of_nat (length (drive (V e') p)) /\ (size (free (V e)) <= size (free (V e')) + 4)%nat.
Proof.
  intros Hs R Hf Hr Hn. destruct r as [lba count|lba count data]; cbn [serve disk_serve request_ok] in *.
  - destruct Hr as (Hl & Hc & Hin). destruct (readSectors_ok a p lba count e clb ct) as (e' & E1 & R1 & D1 & S1); try done; [lia|].
    run_call E1. exists e'. split; [done|]. split; [done|]. split; [apply D1|]. split; [intros; apply D1|]. split; [by rewrite D1 | done].
  - destruct Hr as (Hl & Hc & Hin & Hlen & Hb).
    destruct (writeSectors_ok a p lba count data e clb ct) as (e' & E1 & R1 & D1 & O1 & S1); try done; [lia|]. run_call E1.
    destruct (dev_write_ok 512 n (drive (V e) p) lba count data) as (d' & Ew & Hwf & _); try done; try lia.
    { split_and!; [done | lia | apply drive_bytes]. }
    rewrite Ew in *. exists e'. split_and!; try done. rewrite D1. destruct Hwf as (_ & Hl' & _). done.
Qed.

(** C22. The disk driver implements the drive: any sequence of sector reads and
    writes (one to eight sectors each, inside the drive, as long as four frames
    per request are free) returns, and gives the answers and leaves the
    contents that the same requests give on the bytes of the drive itself;
    other drives are untouched. *)
Theorem ahci_refines_disk a p rs e clb ct n : serves a p -> ready e p clb ct -> (4 * length rs <= size (free (V e)))%nat ->
  Forall (request_ok n) rs -> 512 * n = Z.of_nat (length (drive (V e) p)) ->
  exists e', serve_all a p rs e = Ok ((disk_serve_all rs (drive (V e) p)).1, e') /\ ready e' p clb ct /\
    drive (V e') p = (disk_serve_all rs (drive (V e) p)).2 /\ forall q, q <> p -> drive (V e') q = drive (V e) q.
Proof.
  intros Hs R Hf Hrs. revert e R Hf. induction Hrs as [|r rs Hr Hrs IH]; intros e R Hf Hn; [by exists e|].
  cbn [serve_all disk_serve_all length] in *. destruct (serve_ok a p r e clb ct n Hs R ltac:(lia) Hr Hn) as (e1 & E1 & R1 & D1 & O1 & N1 & S1).
  run_call E1. destruct (IH e1 R1 ltac:(lia) N1) as (e2 & E2 & R2 & D2 & O2). run_call E2. rewrite D1 in *.
  destruct (disk_serve r (drive (V e) p)) as [x d1]. cbn [fst snd] in *. destruct (disk_serve_all rs d1) as [xs d2].
  exists e2. split_and!; try done. intros q Hq. by rewrite O2, O1.
Qed.

(** *** Errors *)

(** A request for a port without a device, of no sectors or more than eight,
    or without a free frame fails and changes nothing. *)
Theorem sectors_rejected a p lba count data e : length (g_port_types a) = 32%nat ->
  ~ serves a p \/ count = 0 \/ 8 < count \/ free (V e) = ∅ ->
  readSectors a p lba count e = Ok (None, e) /\ writeSectors a p lba count data e = Ok (false, e).
Proof.
  intros Hl Hbad. unfold readSectors, writeSectors.
  assert (Hu : exists b, usable a p = Ok b /\ (b = true -> serves a p)).
  { unfold usable, portHasDevice, portDeviceType, MAX_PORTS. destruct ((p <? 0) || (32 <=? p)) eqn:Ep; [by exists false|].
    destruct (g_initialized a) eqn:Ei; [|by exists false]. cbn [negb]. destruct (load_in_range (g_port_types a) p) as (t & Et & Ht); [lia|].
    rewrite Et. cbn. eexists. split; [done|]. intros Hb. split; [lia|]. split; [done|]. exists t. split; [done|].
    apply negb_true_iff, bool_decide_eq_false in Hb. done. }
  destruct Hu as ([] & -> & Hs); [|done]. cbn [mbind outcome_bind negb]. specialize (Hs eq_refl). unfold MAX_SECTORS_PER_TRANSFER.
  destruct ((count =? 0) || (8 <? count)) eqn:Ec; [done|]. destruct Hbad as [?|[?|[?|Hf]]]; [done | lia | lia |].
  rewrite (alloc_none e Hf). done.
Qed.
End AhciProofs.
