(* ===== verification/AhciSim.v ===== *)
(** A simulated machine with one drive on port 0, on which the theorems about
    the disk driver are evaluated.

    A frame is handed out from a pool of 64, a page is mapped without page
    tables, and a command is carried out when it is started, with its bit in
    [PxCI] staying set for three more looks; the FIS that reports its end comes
    to the place that [PxFB] and [PxFBU] name. *)

From Stdlib Require Import ZifyBool.
From S2P Require Import Prelude Bytes Io Pci Vfs Ext2 Ext2Proofs Ext2Image Ahci AhciProofs.

Record Core := mkCore {
  c_mem : Z -> Z;
  c_pages : Z -> option Z;
  c_next : nat;
  c_disk : list Z;
  c_latency : nat;
  c_ticks : Z;
  c_list : Z;
  c_fis : Z;
  c_cmd : Z;
}.

Definition pool : nat := 64.
Definition free_from (n : nat) : gset Z := list_to_set ((fun k => 4096 * Z.of_nat k) <$> seq n (pool - n)).
Definition frame_ok (n : nat) (f : Z) : Prop := f mod 4096 = 0 /\ 0 <= f < 2 ^ 48 /\ f ∉ free_from n.

#[export] Instance frame_ok_dec n f : Decision (frame_ok n f).
Proof. unfold frame_ok. apply _. Defined.

Definition core_ok (c : Core) : Prop :=
  (forall x, byte_ok (c_mem c x)) /\ bytes_ok (c_disk c) /\ forall w f, c_pages c w = Some f -> frame_ok (c_next c) f.

Definition Sim : Type := sig core_ok.
Definition core (s : Sim) : Core := proj1_sig s.

Lemma elem_of_free n f : f ∈ free_from n <-> exists k, (n <= k < pool)%nat /\ f = 4096 * Z.of_nat k.
Proof.
  unfold free_from. rewrite elem_of_list_to_set, list_elem_of_fmap. split.
  - intros (k & -> & Hk). apply elem_of_seq in Hk. exists k. split; [lia | done].
  - intros (k & Hk & ->). exists k. split; [done|]. apply elem_of_seq. lia.
Qed.

Lemma free_next n : (n < pool)%nat -> free_from (S n) = free_from n ∖ {[4096 * Z.of_nat n]}.
Proof.
  intros Hn. apply leibniz_equiv. intros f. rewrite elem_of_difference, elem_of_singleton, !elem_of_free. split.
  - intros (k & Hk & ->). split; [exists k; split; [lia | done] | lia].
  - intros ((k & Hk & ->) & Hne). exists k. split; [|done]. assert (k <> n) by (intros ->; done). lia.
Qed.

Lemma frame_ok_next n f : frame_ok n f -> frame_ok (S n) f.
Proof.
  intros (H1 & H2 & H3). split_and!; try done; try lia. intros Hin. apply H3. apply elem_of_free in Hin as (k & Hk & ->).
  apply elem_of_free. exists k. split; [lia | done].
Qed.

(** ** Changes of the machine *)

Definition with_mem (m : Z -> Z) (c : Core) : Core := mkCore m (c_pages c) (c_next c) (c_disk c) (c_latency c) (c_ticks c) (c_list c) (c_fis c) (c_cmd c).
Definition with_latency (n : nat) (c : Core) : Core := mkCore (c_mem c) (c_pages c) (c_next c) (c_disk c) n (c_ticks c) (c_list c) (c_fis c) (c_cmd c).
Definition with_list (a : Z) (c : Core) : Core := mkCore (c_mem c) (c_pages c) (c_next c) (c_disk c) (c_latency c) (c_ticks c) a (c_fis c) (c_cmd c).
Definition with_fis (a : Z) (c : Core) : Core := mkCore (c_mem c) (c_pages c) (c_next c) (c_disk c) (c_latency c) (c_ticks c) (c_list c) a (c_cmd c).
Definition with_cmd (v : Z) (c : Core) : Core := mkCore (c_mem c) (c_pages c) (c_next c) (c_disk c) (c_latency c) (c_ticks c) (c_list c) (c_fis c) v.
Definition tick (c : Core) : Core := mkCore (c_mem c) (c_pages c) (c_next c) (c_disk c) (c_latency c) (c_ticks c + 1) (c_list c) (c_fis c) (c_cmd c).
Definition take_frame (c : Core) : Core := mkCore (c_mem c) (c_pages c) (S (c_next c)) (c_disk c) (c_latency c) (c_ticks c) (c_list c) (c_fis c) (c_cmd c).
Definition map_page (w f : Z) (c : Core) : Core :=
  mkCore (c_mem c) (fun w' => if w' =? w then Some f else c_pages c w') (c_next c) (c_disk c) (c_latency c) (c_ticks c) (c_list c) (c_fis c) (c_cmd c).
Definition set_byte (x b : Z) (c : Core) : Core := with_mem (fun y => if y =? x then u8 b else c_mem c y) c.

(** The words 60 and 61 of the answer to IDENTIFY hold the sector count. *)
Definition identity (n k : Z) : Z := if (120 <=? k) && (k <? 124) then u8 (n .>> (8 * (k - 120))) else 0.

(** [data] comes to memory at [c_buf]. *)
Definition dma_in (a len : Z) (data : Z -> Z) (c : Core) : Core :=
  with_mem (fun y => if (a <=? y) && (y <? a + len) then data (y - a) else c_mem c y) c.

(** The transfer of the command, and the register FIS behind it. *)
Definition transfer (c : Core) : Core :=
  let k := slot0 (c_mem c) (c_list c) in
  let c := with_latency 3 c in
  if c_op k =? 0xEC then dma_in (c_buf k) (c_len k) (identity (Z.of_nat (length (c_disk c)) / 512)) c else
  if c_write k then
    mkCore (c_mem c) (c_pages c) (c_next c)
      (dev_write (c_lba k) (c_count k) (bytes_at (c_mem c) (c_buf k) (Z.to_nat (c_len k))) (c_disk c)).2
      (c_latency c) (c_ticks c) (c_list c) (c_fis c) (c_cmd c)
  else dma_in (c_buf k) (c_len k) (fun i => nth (Z.to_nat (512 * c_lba k + i)) (c_disk c) 0) c.

Definition post_fis (c : Core) : Core := set_byte (c_fis c + 0x40) 0x34 c.
Definition run_slot (c : Core) : Core := post_fis (transfer c).

Lemma u8_byte b : byte_ok (u8 b).
Proof. apply u8_range. Qed.

Lemma dma_in_ok a len data c : core_ok c -> (forall k, byte_ok (data k)) -> core_ok (dma_in a len data c).
Proof. intros (H1 & H2 & H3) Hd. split_and!; [|done|done]. intros x. cbn. by destruct (_ && _). Qed.

Lemma set_byte_ok x b c : core_ok c -> core_ok (set_byte x b c).
Proof. intros (H1 & H2 & H3). split_and!; [|done|done]. intros y. cbn. destruct (_ =? _); [apply u8_byte | apply H1]. Qed.

Lemma take_frame_ok c : core_ok c -> core_ok (take_frame c).
Proof. intros (H1 & H2 & H3). split_and!; [done|done|]. intros w f Hf. apply frame_ok_next. by apply (H3 w). Qed.

Lemma map_page_ok w f c : frame_ok (c_next c) f -> core_ok c -> core_ok (map_page w f c).
Proof.
  intros Hf (H1 & H2 & H3). split_and!; [done|done|]. intros w' f'. cbn. destruct (_ =? _); [intros [= <-]; done | apply H3].
Qed.

Lemma nth_disk_byte l k : bytes_ok l -> byte_ok (nth k l 0).
Proof.
  intros Hl. destruct (nth_in_or_default k l 0) as [Hin| ->]; [|by unfold byte_ok]. by apply (proj1 (Forall_forall _ _) Hl).
Qed.

Lemma transfer_core_ok c : core_ok c -> core_ok (transfer c).
Proof.
  intros (H1 & H2 & H3). unfold transfer. cbv zeta. destruct (_ =? 0xEC).
  { apply dma_in_ok; [done|]. intros k. unfold identity. destruct (_ && _); [apply u8_byte | by unfold byte_ok]. }
  destruct (c_write _).
  - split_and!; [done | | done]. cbn. destruct (splice _ _ _) as [d'| |] eqn:Es; [|done..]. cbn.
    eapply splice_bytes_ok; [exact H2 | | exact Es]. unfold bytes_at. apply Forall_forall. intros b Hb.
    apply list_elem_of_In, list_elem_of_fmap in Hb as (k & -> & _). apply H1.
  - apply dma_in_ok; [done|]. intros k. by apply nth_disk_byte.
Qed.

Lemma run_slot_ok c : core_ok c -> core_ok (run_slot c).
Proof. intros Hc. by apply set_byte_ok, transfer_core_ok. Qed.

(** ** The machine *)

Definition lift (f : Core -> Core) (Hf : forall c, core_ok c -> core_ok (f c)) (s : Sim) : Sim :=
  exist _ (f (core s)) (Hf _ (proj2_sig s)).

Definition idle_ok n c (H : core_ok c) : core_ok (with_latency n c) := H.
Definition list_ok a c (H : core_ok c) : core_ok (with_list a c) := H.
Definition fis_ok a c (H : core_ok c) : core_ok (with_fis a c) := H.
Definition cmd_ok v c (H : core_ok c) : core_ok (with_cmd v c) := H.
Definition tick_ok c (H : core_ok c) : core_ok (tick c) := H.

(** The registers of a controller with one drive. *)
Definition sim_load (off : Z) (s : Sim) : Z * Sim :=
  if off =? port 0 + PxCI then
    (match c_latency (core s) with O => 0 | _ => 1 end, lift (with_latency (Nat.pred (c_latency (core s)))) (idle_ok _) s)
  else if off =? port 0 + PxTFD then (0x50, s)
  else if off =? port 0 + PxSSTS then (0x113, s)
  else if off =? port 0 + PxSIG then (SIG_ATA, s)
  else if off =? port 0 + PxCMD then (c_cmd (core s), s)
  else if off =? PI then (1, s)
  else if off =? GHC then (GHC_AHCI_ENABLE, s)
  else (0, s).

Definition sim_store (off v : Z) (s : Sim) : Sim :=
  if off =? port 0 + PxCI then (if v =? 1 then lift run_slot run_slot_ok s else s)
  else if off =? port 0 + PxCLB then lift (with_list (c_list (core s) / 2 ^ 32 * 2 ^ 32 + v / 2 ^ 10 * 2 ^ 10)) (list_ok _) s
  else if off =? port 0 + PxCLBU then lift (with_list (v * 2 ^ 32 + c_list (core s) mod 2 ^ 32)) (list_ok _) s
  else if off =? port 0 + PxFB then lift (with_fis (c_fis (core s) / 2 ^ 32 * 2 ^ 32 + v / 2 ^ 8 * 2 ^ 8)) (fis_ok _) s
  else if off =? port 0 + PxFBU then lift (with_fis (v * 2 ^ 32 + c_fis (core s) mod 2 ^ 32)) (fis_ok _) s
  else if off =? port 0 + PxCMD then lift (with_cmd v) (cmd_ok v) s
  else s.

Definition sim_map (a f fl : Z) (s : Sim) : outcome Sim :=
  match decide (frame_ok (c_next (core s)) f) with
  | left Hf => Ok (exist _ (map_page (a / 4096) f (core s)) (map_page_ok _ _ _ Hf (proj2_sig s)))
  | right _ => Halt
  end.

#[export] Instance sim_host : AhciHost Sim := {
  host_alloc s := if decide (c_next (core s) < pool)%nat
    then Ok (4096 * Z.of_nat (c_next (core s)), lift take_frame take_frame_ok s) else Ok (UINT64_MAX, s);
  host_map := sim_map;
  host_load8 a s := match c_pages (core s) (a / 4096) with Some f => Ok (c_mem (core s) (f + a mod 4096)) | None => Fault end;
  host_store8 a b s := match c_pages (core s) (a / 4096) with
    | Some f => Ok (lift (set_byte (f + a mod 4096) b) (set_byte_ok _ b) s) | None => Fault end;
  reg_load := sim_load;
  reg_store := sim_store;
  host_ticks s := c_ticks (core s);
  host_hlt s := lift tick tick_ok s;
}.

Definition sim_view (s : Sim) : View :=
  let c := core s in
  mkView (c_mem c) (c_pages c) (free_from (c_next c)) (fun q => if q =? 0 then c_disk c else [])
    (fun q => if q =? 0 then c_list c else 0) (fun q => if q =? 0 then c_fis c else 0)
    (fun q => if q =? 0 then mkLink true (Z.testbit (c_cmd c) 0) (Z.testbit (c_cmd c) 4) else mkLink false false false)
    (fun q => if q =? 0 then c_latency c else O).

Lemma sim_port p s : l_present (link (sim_view s) p) = true -> p = 0.
Proof. cbn. destruct (Z.eqb_spec p 0) as [->|]; done. Qed.

Lemma sim_running p s : running (link (sim_view s) p) = true -> p = 0.
Proof. intros Hr. apply (sim_port p s). unfold running in Hr. apply andb_true_iff in Hr as [Hr _]. by apply andb_true_iff in Hr as [Hr _]. Qed.

Lemma sim_map_ok s a f fl : f mod 4096 = 0 -> 0 <= f < 2 ^ 48 -> f ∉ free_from (c_next (core s)) ->
  exists s', sim_map a f fl s = Ok s' /\ core s' = map_page (a / 4096) f (core s).
Proof.
  intros H1 H2 H3. unfold sim_map. destruct (decide _) as [Hf|Hf]; [by eexists|]. by destruct Hf.
Qed.

(** Carrying out a transfer. *)
Lemma run_slot_transfer c : let k := slot0 (c_mem c) (c_list c) in transfer_ok k (c_disk c) ->
  (forall x, ~ private_area (c_list c) (c_fis c) x -> c_mem (run_slot c) x = if negb (c_write k) && (c_buf k <=? x) && (x <? c_buf k + c_len k)
     then nth (Z.to_nat (512 * c_lba k + (x - c_buf k))) (c_disk c) 0 else c_mem c x) /\
  c_disk (run_slot c) = (if c_write k
     then (dev_write (c_lba k) (c_count k) (bytes_at (c_mem c) (c_buf k) (Z.to_nat (c_len k))) (c_disk c)).2 else c_disk c).
Proof.
  intros k (Hop & _). assert (Ef : c_fis (transfer c) = c_fis c).
  { unfold transfer. cbv zeta. destruct (_ =? 0xEC); [done|]. by destruct (c_write _). }
  unfold run_slot, post_fis. rewrite Ef. unfold transfer. cbv zeta. fold k.
  assert ((c_op k =? 0xEC) = false) as -> by (rewrite Hop; by destruct (c_write k)). split.
  2: { destruct (c_write k); reflexivity. }
  intros x Hx. unfold private_area in Hx. clearbody k. cbn [c_mem set_byte with_mem]. rewrite (proj2 (Z.eqb_neq x (c_fis c + 0x40))) by lia. by destruct (c_write k).
Qed.

Lemma run_slot_rest c : c_pages (run_slot c) = c_pages c /\ c_next (run_slot c) = c_next c /\ c_list (run_slot c) = c_list c /\
  c_fis (run_slot c) = c_fis c /\ c_cmd (run_slot c) = c_cmd c /\ c_latency (run_slot c) = 3%nat.
Proof. unfold run_slot, transfer. cbv zeta. destruct (_ =? 0xEC); [done|]. by destruct (c_write _). Qed.

#[export, refine] Instance sim_device : AhciDevice Sim := { view := sim_view }.
Proof.
  - intros s x. apply (proj2_sig s).
  - intros s p. cbn. destruct (p =? 0); [apply (proj2_sig s) | apply List.Forall_nil].
  - intros s w f Hf. destruct (proj2_sig s) as (_ & _ & Hp). destruct (Hp w f Hf) as (? & ? & _). done.
  - intros s w f Hf. destruct (proj2_sig s) as (_ & _ & Hp). by destruct (Hp w f Hf) as (_ & _ & ?).
  - intros s f Hf. apply elem_of_free in Hf as (k & Hk & ->). unfold pool in Hk.
    rewrite Z.mul_comm, Z.mod_mul by lia. split; [done | lia].
  - intros s a f Hf. cbn in *. by rewrite Hf.
  - intros s a f b Hf Hb. cbn in *. rewrite Hf. eexists. split; [done|]. split_and!; try by repeat split.
    intros x. cbn. destruct (_ =? _); [by apply u8_small | done].
  - intros s Hne. cbn. destruct (decide _) as [Hn|Hn].
    + eexists _, _. split; [done|]. split; [apply elem_of_free; exists (c_next (core s)); split; [lia | done]|].
      split; [by apply free_next|]. by repeat split.
    + destruct Hne. cbn. unfold free_from. replace (pool - _)%nat with O by lia. done.
  - intros s He. cbn. destruct (decide _) as [Hn|Hn]; [|done].
    assert (Hin : 4096 * Z.of_nat (c_next (core s)) ∈ free (sim_view s)) by (apply elem_of_free; exists (c_next (core s)); split; [lia | done]).
    rewrite He in Hin. by apply not_elem_of_empty in Hin.
  - intros s a f fl _ H1 H2 H3 _. destruct (sim_map_ok s a f fl H1 H2 H3) as (s' & E1 & E2). exists s'. split; [done|].
    unfold sim_view. cbn. rewrite E2. split; [done|]. split; [done|]. split; [cbn; lia|]. by repeat split.
  - intros s. cbn. split; [lia|]. by repeat split.
  - intros s p Hp. rewrite (sim_port _ _ Hp). eexists _, _. split; [reflexivity|]. by repeat split.
  - intros s p Hp. rewrite (sim_port _ _ Hp). eexists _, _. split; [reflexivity|]. by repeat split.
  - intros s p v w Hp. subst w. rewrite (sim_port _ _ Hp). eexists. split; [reflexivity|]. split; [reflexivity|].
    split; [intros q Hq; cbn; by rewrite (proj2 (Z.eqb_neq q 0))|]. by repeat split.
  - intros s p lo w Hp _ _. subst w. rewrite (sim_port _ _ Hp). split; [reflexivity|]. split; [reflexivity|].
    split; [intros q Hq; cbn; by rewrite (proj2 (Z.eqb_neq q 0))|]. by repeat split.
  - intros s p lo w Hp _ _. subst w. rewrite (sim_port _ _ Hp). split; [reflexivity|]. split; [reflexivity|].
    split; [intros q Hq; cbn; by rewrite (proj2 (Z.eqb_neq q 0))|]. by repeat split.
  - intros s p lo w Hp _ _. subst w. rewrite (sim_port _ _ Hp). split; [reflexivity|]. split; [reflexivity|].
    split; [intros q Hq; cbn; by rewrite (proj2 (Z.eqb_neq q 0))|]. by repeat split.
  - intros s p lo w Hp _ _. subst w. rewrite (sim_port _ _ Hp). split; [reflexivity|]. split; [reflexivity|].
    split; [intros q Hq; cbn; by rewrite (proj2 (Z.eqb_neq q 0))|]. by repeat split.
  - intros s p Hp. rewrite (sim_running _ _ Hp). eexists _, _. split; [reflexivity|]. split; [by repeat split|]. split; [|done].
    cbn. by destruct (c_latency (core s)).
  - intros s p Hp. rewrite (sim_running _ _ Hp). eexists _, _. split; [reflexivity|]. by repeat split.
  - intros s p Hp Hl. rewrite (sim_running _ _ Hp) in *. eexists _, _. split; [reflexivity|]. by repeat split.
  - intros s p v clb fb c Hp Hl _ Ht _ _. pose proof (sim_running _ _ Hp) as ->. exists (sim_view (lift run_slot run_slot_ok s)). split; [reflexivity|].
    destruct (run_slot_transfer (core s) Ht) as [Hm Hd]. destruct (run_slot_rest (core s)) as (R1 & R2 & R3 & R6 & R4 & R5).
    subst v c clb fb. unfold kept, same_frames, sim_view. change (core (lift run_slot run_slot_ok s)) with (run_slot (core s)).
    cbn [phys frame_of free drive command_list fis_base link latency]. rewrite R1, R2, R3, R6, R4, R5. change (0 =? 0) with true. cbv iota beta.
    split; [done|]. split; [done|]. split; [lia|]. split; [exact Hm|]. split; [apply Hd|].
    intros q Hq. by rewrite !(proj2 (Z.eqb_neq q 0)).
Defined.

(** ** A run *)

(** A drive of 16 sectors, sector [k] filled with the byte [k]. *)
Definition toy_disk : list Z := flat_map (fun k => replicate 512 (Z.of_nat k)) (seq 0 16).

Definition toy_core : Core := mkCore (fun _ => 0xAA) (fun _ => None) 1 toy_disk 0 0 0 0 0.

Lemma toy_core_ok : core_ok toy_core.
Proof.
  split_and!; [by intros x | | done]. unfold bytes_ok. apply (Forall_forall _ toy_disk). intros b Hb.
  apply in_flat_map in Hb as (k & Hk%in_seq & Hb%list_elem_of_In). apply elem_of_replicate in Hb as [-> _]. unfold byte_ok. lia.
Qed.

Definition toy_machine : Sim := exist _ toy_core toy_core_ok.
Definition toy_driver : Ahci := mkAhci ABAR_VIRT_ADDR true (replicate 32 0) (<[0%nat := SATA]> (replicate 32 NoDevice)).

(** Port 0 is brought up on the toy machine, and requests are served. *)
Definition toy_session (rs : list request) : outcome (list answer) :=
  '(_, a, e) ← initPort toy_driver 0 toy_machine;
  '(xs, _) ← serve_all a 0 rs e;
  mret xs.

(** A run from the port's initialisation on: a sector is read, two sectors are
    written, and they are read back with the one before them. *)
Example toy_session_run :
  toy_session [ReadSectors 3 1; WriteSectors 3 2 (replicate 1024 7); ReadSectors 2 3] =
  Ok [Data (Some (replicate 512 3)); Written true; Data (Some (replicate 512 2 ++ replicate 1024 7))].
Proof. vm_compute. reflexivity. Qed.

(** The machine with port 0 up: the list in frame 1, the table in frame 2. *)
Definition ready_core : Core :=
  mkCore (fun x => if x =? 4096 + 9 then 0x20 else 0)
    (fun w => if w =? list_virt 0 / 4096 then Some 4096 else if w =? table_virt 0 / 4096 then Some 8192 else None)
    3 toy_disk 0 0 4096 5120 0x11.

Lemma ready_core_ok : core_ok ready_core.
Proof.
  split_and!; [intros x; cbn; by destruct (_ =? _) | apply toy_core_ok |].
  intros w f. cbn. destruct (_ =? _); [|destruct (_ =? _); [|done]]; intros [= <-]; split_and!; try done; intros Hin%elem_of_free;
    destruct Hin as (k & Hk & Heq); cbn in Hk; lia.
Qed.

Definition ready_machine : Sim := exist _ ready_core ready_core_ok.

Lemma ready_machine_ready : ready ready_machine 0 4096 8192.
Proof. split; [by split | by split | unfold apart; lia | done | done | done | done | by vm_compute]. Qed.

Lemma ready_machine_free : size (free (view ready_machine)) = 61%nat.
Proof. by vm_compute. Qed.

Lemma toy_driver_serves : serves toy_driver 0.
Proof. split; [lia|]. split; [done|]. by exists SATA. Qed.

Definition toy_requests : list request := [ReadSectors 3 1; WriteSectors 3 2 (replicate 1024 7); ReadSectors 2 3].

Lemma ahci_refines_disk_witness :
  exists e', serve_all toy_driver 0 toy_requests ready_machine =
    Ok ([Data (Some (replicate 512 3)); Written true; Data (Some (replicate 512 2 ++ replicate 1024 7))], e') /\
    drive (view e') 0 = (disk_serve_all toy_requests toy_disk).2.
Proof.
  destruct (ahci_refines_disk toy_driver 0 toy_requests ready_machine 4096 8192 16) as (e' & E1 & _ & D & _).
  - exact toy_driver_serves.
  - exact ready_machine_ready.
  - rewrite ready_machine_free. cbn. lia.
  - unfold toy_requests. repeat (apply List.Forall_cons; [|]); [cbn; lia | | cbn; lia | apply List.Forall_nil].
    cbn [request_ok]. split_and!; [lia .. | reflexivity | apply Forall_replicate; unfold byte_ok; lia].
  - by vm_compute.
  - exists e'. split; [|exact D]. rewrite E1. reflexivity.
Defined.

Lemma initPort_ready_witness : exists a' e' clb ct, initPort toy_driver 0 toy_machine = Ok (true, a', e') /\ ready e' 0 clb ct /\
  fis_base (view e') 0 = clb + 0x400.
Proof.
  destruct (initPort_ready toy_driver 0 toy_machine) as (a' & e' & clb & ct & E1 & R & _ & F & _).
  - lia.
  - reflexivity.
  - vm_compute. lia.
  - reflexivity.
  - reflexivity.
  - exists a', e', clb, ct. split; [exact E1|]. split; [exact R | exact F].
Defined.
