(* ===== verification/Panic.v ===== *)
(** Exceptions: [src/src/kernel/panic.cpp] and [isr_handler] of
    [src/src/arch/x86_64/idt.cpp].

    [kernel_panic] does not return; its model gives the terminal, with the
    ports behind it, at the point where the processor stops with interrupts
    disabled.  [cr2] is the register that holds the address of a page fault. *)

From Stdlib Require Import ZifyBool.
From S2P Require Import Prelude Libc Io Format Terminal Printf Screen Serial Scheduler.

Record Registers := mkRegisters {
  rax : Z; rbx : Z; rcx : Z; rdx : Z; rsi : Z; rdi : Z; rbp : Z;
  r8 : Z; r9 : Z; r10 : Z; r11 : Z; r12 : Z; r13 : Z; r14 : Z; r15 : Z;
  vector : Z; err_code : Z;
  rip : Z; cs : Z; rflags : Z; regs_rsp : Z; ss : Z;
}.

Definition RED : Z := 0x4.
Definition YELLOW : Z := 0xE.
Definition WHITE : Z := 0xF.

Definition exception_messages : list (list Z) := [
  chars "Division By Zero"; chars "Debug"; chars "Non Maskable Interrupt"; chars "Breakpoint";
  chars "Into Detected Overflow"; chars "Out of Bounds"; chars "Invalid Opcode"; chars "No Coprocessor";
  chars "Double Fault"; chars "Coprocessor Segment Overrun"; chars "Bad TSS"; chars "Segment Not Present";
  chars "Stack Fault"; chars "General Protection Fault"; chars "Page Fault"; chars "Unknown Interrupt";
  chars "Coprocessor Fault"; chars "Alignment Check"; chars "Machine Check"; chars "SIMD Floating-Point Exception";
  chars "Virtualization Exception"; chars "Control Protection Exception";
  chars "Reserved"; chars "Reserved"; chars "Reserved"; chars "Reserved"; chars "Reserved";
  chars "Reserved"; chars "Reserved"; chars "Hypervisor Injection"; chars "VMM Communication"; chars "Security Exception"].

Definition exception_name (v : Z) : outcome (list Z) :=
  if v <? 32 then load exception_messages v else mret (chars "Unknown").

Definition nl (s : String.string) : list Z := chars s ++ [10].
Arguments nl s%_string_scope.

(** [(regs->err_code & bit) ? yes : no] as an argument of [printf]. *)
Definition flag (e bit : Z) (yes no : String.string) : arg := ArgStr (Some (chars (if e .& bit =? 0 then no else yes))).
Arguments flag e bit (yes no)%_string_scope.

Section Panic.
Context {P E : Type} `{PortIO P} `{TaskServices E} (spins : nat).
Implicit Types t : Terminal P.

(** [Serial::write] next to the terminal. *)
Definition to_serial (str : list Z) t : outcome (Terminal P) := p ← Serial.write spins str (ports t); mret (set_ports t p).

Definition kernel_panic (regs : Registers) (cr2 : Z) t : outcome (Terminal P) :=
  name ← exception_name (vector regs);
  t ← printf (chars "%r" ++ [10] ++ nl "*** KERNEL PANIC ***" ++ [10]) [ArgInt RED] t;
  t ← printf (nl "Exception: %s") [ArgStr (Some name)] t;
  t ← (if vector regs =? 14 then
         t ← printf (nl "Faulting address (CR2): %x") [Arg64 cr2] t;
         printf (nl "Reason: %s, %s, %s")
           [flag (err_code regs) 1 "protection violation" "page not present"; flag (err_code regs) 2 "write" "read";
            flag (err_code regs) 4 "user mode" "kernel mode"] t
       else mret t);
  t ← printf (nl "Vector:   %x") [Arg64 (vector regs)] t;
  t ← printf (nl "Error:    %x") [Arg64 (err_code regs)] t;
  t ← printf (nl "RIP:      %x") [Arg64 (rip regs)] t;
  t ← printf (nl "CS:       %x") [Arg64 (cs regs)] t;
  t ← printf (nl "RFLAGS:   %x") [Arg64 (rflags regs)] t;
  t ← printf (nl "RSP:      %x") [Arg64 (regs_rsp regs)] t;
  t ← printf (nl "RAX:      %x") [Arg64 (rax regs)] t;
  t ← printf (nl "RBX:      %x") [Arg64 (rbx regs)] t;
  t ← printf (nl "RCX:      %x") [Arg64 (rcx regs)] t;
  t ← printf (nl "RDX:      %x") [Arg64 (rdx regs)] t;
  t ← printf (chars "%r") [ArgInt WHITE] t;
  t ← to_serial (chars "KERNEL PANIC: ") t;
  t ← to_serial name t;
  to_serial [10] t.

(** The task that crashed is ended: [exitTask] waits for the next tick. *)
Definition kernel_panic_user (regs : Registers) (cr2 : Z) t (s : Sched E) : outcome (kill_result * Terminal P * Sched E) :=
  name ← exception_name (vector regs);
  t ← printf (chars "%r" ++ [10] ++ nl "*** Program crashed: %s ***") [ArgInt YELLOW; ArgStr (Some name)] t;
  t ← (if vector regs =? 14 then
         t ← printf (nl "Faulting address: %x") [Arg64 cr2] t;
         printf (nl "%s, %s")
           [flag (err_code regs) 1 "Protection violation" "Page not present"; flag (err_code regs) 2 "write" "read"] t
       else mret t);
  t ← printf (nl "RIP: %x") [Arg64 (rip regs)] t;
  t ← printf (chars "%r") [ArgInt WHITE] t;
  t ← to_serial (chars "[user exception] ") t;
  t ← to_serial name t;
  t ← to_serial (nl " — killing task") t;
  '(r, s) ← exitTask (-1) s;
  mret (r, t, s).

(** Every exception ends in a panic. *)
Definition isr_handler (regs : Registers) (cr2 : Z) t : outcome (Terminal P) := kernel_panic regs cr2 t.

End Panic.

(** ** Proofs *)

Section PanicProofs.
Context {P : Type} `{U : Uart P} (spins : nat) (Hspins : (max_busy < spins)%nat).
(** The cursor registers of the VGA adapter are not the serial port. *)
Context (cursor_not_uart : forall port v (p : P), port = 0x3D4 \/ port = 0x3D5 ->
  line (outb port v p) = line p /\ sent (outb port v p) = sent p).
Implicit Types t : Terminal P.

Lemma cursor_writes_uart p p' : cursor_writes p p' -> line p' = line p /\ sent p' = sent p.
Proof. induction 1 as [p|port v p p' Hp _ [IH1 IH2]]; [done|]. destruct (cursor_not_uart port v p Hp). split; congruence. Qed.

(** The screen and the serial line between two messages. *)
Definition reporting (out : list Z) t : Prop := term_ok t /\ line (ports t) = true /\ sent (ports t) = out.

Lemma print_reports format args out t : reporting out t -> well_typed format args = true ->
  exists t', printf format args t = Ok t' /\ reporting out t'.
Proof.
  intros (Hok & Hl & Hs) Hwt. pose proof (printf_typed format args t Hok) as Hp. rewrite Hwt in Hp.
  destruct Hp as (t' & E & Hok' & Hc). destruct (cursor_writes_uart _ _ Hc). exists t'. split; [done|]. split_and!; [done | congruence | congruence].
Qed.

Lemma serial_reports str out t : reporting out t -> Forall (fun c => c <> 0) str ->
  exists t', to_serial spins str t = Ok t' /\ reporting (out ++ wire str) t' /\ color t' = color t.
Proof.
  intros (Hok & Hl & Hs) Hz. unfold to_serial. destruct (write_wire spins Hspins str (ports t) Hl Hz) as (p & E & Es & El & _).
  run_call E. eexists. split; [done|]. split; [|done]. split_and!; [by destruct Hok | done | cbn; by rewrite Es, Hs].
Qed.

Lemma exception_name_ok v : 0 <= v -> exists name, exception_name v = Ok name /\ Forall (fun c => c <> 0) name.
Proof.
  intros Hv. unfold exception_name. destruct (Z.ltb_spec v 32) as [Hlt|Hge].
  - destruct (load_in_range exception_messages v) as (name & E & Hn); [change (length exception_messages) with 32%nat; lia|].
    exists name. split; [done|].
    assert (Hall : Forall (Forall (fun c => c <> 0)) exception_messages) by (apply (bool_decide_unpack _); vm_compute; exact I).
    by apply (proj1 (Forall_lookup _ _) Hall (Z.to_nat v) name).
  - eexists. split; [done|]. apply (bool_decide_unpack _). vm_compute. exact I.
Qed.


(** Printing in the middle of a panic. *)
Lemma print_then format args out t (f : Terminal P -> outcome (Terminal P)) (Q : Terminal P -> Prop) :
  reporting out t -> well_typed format args = true -> (forall t', reporting out t' -> exists t'', f t' = Ok t'' /\ Q t'') ->
  exists t'', mbind f (printf format args t) = Ok t'' /\ Q t''.
Proof. intros Hr Hw Hf. destruct (print_reports format args out t Hr Hw) as (t' & E & R'). run_call E. by apply Hf. Qed.

(** Every exception is reported: whatever the vector and the registers, the
    handler gets to the point where the processor stops, the name of the
    exception has gone out on the serial line, the screen is well formed and
    text is white again. *)
Theorem isr_handler_reports regs cr2 t out : 0 <= vector regs -> reporting out t ->
  exists name t', exception_name (vector regs) = Ok name /\ isr_handler spins regs cr2 t = Ok t' /\ term_ok t' /\
    sent (ports t') = out ++ wire (chars "KERNEL PANIC: " ++ name ++ [10]) /\ color t' .& 0x0F = WHITE.
Proof.
  intros Hv Hr. destruct (exception_name_ok (vector regs) Hv) as (name & En & Hz). exists name.
  enough (Hmain : exists t', isr_handler spins regs cr2 t = Ok t' /\ term_ok t' /\
    sent (ports t') = out ++ wire (chars "KERNEL PANIC: " ++ name ++ [10]) /\ color t' .& 0x0F = WHITE) by (destruct Hmain as (t' & ?); by exists t').
  unfold isr_handler, kernel_panic. run_call En.
  apply (print_then _ _ out); [done | done |]. intros t1 R1. apply (print_then _ _ out); [done | done |]. intros t2 R2.
  assert (Hpf : exists t3, (if vector regs =? 14 then
         t ← printf (nl "Faulting address (CR2): %x") [Arg64 cr2] t2;
         printf (nl "Reason: %s, %s, %s")
           [flag (err_code regs) 1 "protection violation" "page not present"; flag (err_code regs) 2 "write" "read";
            flag (err_code regs) 4 "user mode" "kernel mode"] t else mret t2) = Ok t3 /\ reporting out t3).
  { destruct (vector regs =? 14); [|by exists t2]. apply (print_then _ _ out); [done | done |]. intros t' R'. by apply print_reports. }
  destruct Hpf as (t3 & E3 & R3). run_call E3. clear dependent t2. clear dependent t1.
  do 10 (apply (print_then _ _ out); [done | done |]; clear dependent t3; intros t3 R3).
  change (printf (chars "%r") [ArgInt WHITE] t3) with (Ok (setColorForeground (u8 WHITE) t3)). cbn [mbind outcome_bind].
  assert (R4 : reporting out (setColorForeground (u8 WHITE) t3)) by (destruct R3 as (? & ? & ?); split_and!; [by apply setColor_stays | done | done]).
  destruct (serial_reports (chars "KERNEL PANIC: ") _ _ R4) as (t5 & E5 & R5 & C5); [apply (bool_decide_unpack _); vm_compute; exact I|]. run_call E5.
  destruct (serial_reports name _ _ R5 Hz) as (t6 & E6 & R6 & C6). run_call E6.
  destruct (serial_reports [10] _ _ R6) as (t7 & E7 & R7 & C7); [by repeat constructor|]. rewrite E7.
  exists t7. split; [done|]. destruct R7 as (Hok & _ & Hs). split; [done|]. split.
  - rewrite Hs. unfold wire. by rewrite !fmap_app, !concat_app, !app_assoc.
  - rewrite C7, C6, C5. cbn [color setColorForeground setColor set_color]. change WHITE with (Z.ones 4). change 0x0F with (Z.ones 4).
    apply Z.bits_inj'. intros n Hn. rewrite Z.land_spec, u8_testbit, Z.lor_spec by done. change (u8 (Z.ones 4)) with (Z.ones 4).
    rewrite Z.testbit_ones_nonneg by lia. destruct (Z.ltb_spec n 4); [|by rewrite andb_false_r].
    rewrite (proj2 (Z.ltb_lt n 8)) by lia. done.
Qed.
End PanicProofs.

(** *** An exception on a machine with a serial line *)

Lemma uart_ignores_cursor port v (p : SimUart) : port = 0x3D4 \/ port = 0x3D5 ->
  line (outb port v p) = line p /\ sent (outb port v p) = sent p.
Proof. by intros [-> | ->]. Qed.

Definition sample_regs : Registers := mkRegisters 1 2 3 4 5 6 7 8 9 10 11 12 13 14 15 16 2 0x400000 8 0x202 0x7000 16.

Definition panic_terminal : Terminal SimUart := mkTerminal (replicate 2000 (vgaEntry space WHITE)) 20 0 WHITE (mkUart true 3 [] 0).

Lemma isr_handler_reports_witness : exists t', isr_handler 10 sample_regs 0 panic_terminal = Ok t' /\
  sent (ports t') = chars "KERNEL PANIC: Coprocessor Fault" ++ [13; 10].
Proof.
  destruct (isr_handler_reports 10 ltac:(apply Nat.ltb_lt; reflexivity) uart_ignores_cursor sample_regs 0 panic_terminal [])
    as (name & t' & En & E & _ & Es & _).
  - cbn. lia.
  - split_and!; [|reflexivity | reflexivity]. split; cbn [panic_terminal buffer row column color]; try lia.
    + apply length_replicate.
    + apply Forall_replicate, vgaEntry_ok.
    + split; reflexivity || discriminate.
  - exists t'. split; [exact E|]. injection En as <-. rewrite Es. reflexivity.
Defined.
