(* ===== verification/ShellInfo.v ===== *)
(** The other commands of the shell, [src/src/shell/shell.cpp]: memory, tasks,
    devices, disks, the clock, archives and programs.

    [Machine] holds the components a command can reach.  A command returns,
    or the processor does something else ([ending]): it takes a trap, it stops
    for a reset, or the task of the shell is switched away from.  As in
    [ShellCommands], a word that was not typed is uninitialised and reading it
    is a [Fault]; the number loops overflow an [int] with a [Fault]. *)

From Stdlib Require Import ZifyBool.
From S2P Require Import Prelude Syscall Io Libc Bytes Format Serial Terminal Printf Screen Pmm Heap Scheduler SchedulerProofs Timer Rtc Pci Vfs UserSpace Elf Tar Ahci ShellLine ShellCommands.

Definition BLUE : Z := 0x1.
Definition GREEN : Z := 0x2.
Definition RED : Z := 0x4.
Definition BROWN : Z := 0x6.
Definition LIGHT_BLUE : Z := 0x9.
Definition LIGHT_GREEN : Z := 0xA.
Definition WHITE : Z := 0xF.
Definition MAX_ELF_ARGS : nat := 16.

(** [id = id * 10 + (c - '0')] on a [uint32_t] and on a [uint64_t]. *)
Definition parse_unsigned (wrap : Z -> Z) (s : list Z) : Z := fold_left (fun n c => wrap (n * 10 + (sgn 8 c - 48))) s 0.

Definition int_ok (n : Z) : bool := (- 2 ^ 31 <=? n) && (n <? 2 ^ 31).

(** [port = port * 10 + (c - '0')] on an [int]. *)
Definition parse_int (s : list Z) : outcome Z :=
  foldM (fun c n => if int_ok (n * 10) && int_ok (n * 10 + (sgn 8 c - 48)) then mret (n * 10 + (sgn 8 c - 48)) else Fault) s 0.

Inductive ending := Returns | Breakpoint | Stopped | Switched | Waiting (target : Z).

Record Machine (W M P E H D : Type) := mkMachine {
  shell : Shell W;
  screen : Terminal P;
  memory : M;
  clock : list Z;
  sched : Sched E;
  g_pmm : PhysicalMemoryManager;
  heap : HeapState H;
  devices : list PCIDevice;
  device_count : Z;
  ahci : Ahci;
  host : D;
  g_elf_path : list Z;
  g_elf_argv : list (list Z);
}.
Arguments mkMachine {W M P E H D}.
Arguments shell {W M P E H D}.
Arguments screen {W M P E H D}.
Arguments memory {W M P E H D}.
Arguments clock {W M P E H D}.
Arguments sched {W M P E H D}.
Arguments g_pmm {W M P E H D}.
Arguments heap {W M P E H D}.
Arguments devices {W M P E H D}.
Arguments device_count {W M P E H D}.
Arguments ahci {W M P E H D}.
Arguments host {W M P E H D}.
Arguments g_elf_path {W M P E H D}.
Arguments g_elf_argv {W M P E H D}.

Section Info.
Context {W M P E H D : Type} `{UserSpace M} `{PortIO P} `{TaskServices E} `{PageMapper H} `{AhciHost D}.
(** What uninitialised memory holds, and bounds on the rounds of loops that
    wait for a device or follow a file. *)
Context (junk : nat -> list Z) (spins fuel : nat) (userTaskEntry_addr : Z).
Implicit Types (t : Terminal P) (argv : list (list Z)) (s : Sched E) (m : Machine W M P E H D).

(** ** Tasks *)

Definition taskAlive (i : Z) s : outcome bool :=
  if currentTask s =? 0 then mret false else
  a ← ring_search (ring_fuel s) (fun x => id x =? i) (currentTask s) (currentTask s) s;
  if a =? 0 then mret false else
  x ← get_task a s; mret (negb (bool_decide (state x = Terminated))).

Definition run_kill argv s t : outcome (ending * Sched E * Terminal P) :=
  if fewer argv 2 then t ← Terminal.write (ln "Usage: kill <task_id>") t; mret (Returns, s, t) else
  a ← Prelude.load argv 1;
  '(r, s) ← killTask (parse_unsigned u32 a) (-1) s;
  match r with
  | Returned true => t ← Terminal.write (ln "Task killed.") t; mret (Returns, s, t)
  | Returned false => t ← Terminal.write (ln "Kill failed (invalid ID, already dead, or last task).") t; mret (Returns, s, t)
  | WaitsForTick => mret (Switched, s, t)
  end.

Definition state_name (st : TaskState) : list Z :=
  match st with
  | Ready => ln "Ready"
  | Running => ln "Running"
  | Blocked => ln "Blocked"
  | Terminated => ln "Terminated"
  end.

Definition ps_line (x : Task) t : outcome (Terminal P) :=
  t ← Terminal.write (chars "  [") t; t ← writeDec (id x) t; t ← Terminal.write (chars "] ") t;
  Terminal.write (state_name (state x)) t.

(** [do { ... t = t->next; } while (t != start);] *)
Fixpoint ps_loop (n : nat) (a start : Z) s t : outcome (Terminal P) :=
  match n with
  | O => Halt
  | S n' =>
      x ← get_task a s;
      t ← ps_line x t;
      if next x =? start then mret t else ps_loop n' (next x) start s t
  end.

Definition run_ps s t : outcome (Terminal P) :=
  if currentTask s =? 0 then Terminal.write (ln "No tasks.") t
  else ps_loop (ring_fuel s) (currentTask s) (currentTask s) s t.

(** ** Devices *)

Definition pci_of (ds : list PCIDevice) (n : Z) t : Pci P := mkPci ds n (ports t).

(** [bus], [slot] and [func] are bytes and [i] is an [int]. *)
Definition run_lspci (ds : list PCIDevice) (n : Z) t : outcome (Terminal P) :=
  for_range 0 n (fun i t =>
    d ← getDevice (u16 i) (pci_of ds n t);
    printf (chars "%rPCI device %d: %r%x::%x::%x - %r%s%r" ++ [10])
      [ArgInt BROWN; ArgInt i; ArgInt LIGHT_BLUE; ArgInt (bus d); ArgInt (slot d); ArgInt (func d); ArgInt LIGHT_GREEN;
       ArgStr (Some (classCodeToString (base_class (header d)) (sub_class (header d)))); ArgInt WHITE] t) t.

(** A label in white and a value in green. *)
Definition info_field (label : list Z) (value : Z) t : outcome (Terminal P) :=
  t ← Terminal.write label t;
  t ← writeHex value (setColor 2 0 t);
  mret (setColor 15 0 t).

Definition run_pci_info argv (ds : list PCIDevice) (n : Z) t : outcome (Terminal P) :=
  a ← Prelude.load argv 1;
  let id := atoi a in
  d ← getDevice (u16 id) (pci_of ds n t);
  let h := header d in
  t ← Terminal.write (chars "PCI device ") t;
  t ← writeDec (u64 id) t;
  let t := setColor 15 0 t in
  t ← info_field (chars ": " ++ [10] ++ chars "  Vendor ID: ") (vendor_id h) t;
  t ← info_field (chars "  Device ID: ") (device_id h) t;
  t ← info_field ([10] ++ chars "  Command: ") (command_register h) t;
  t ← info_field (chars "  Status: ") (status_register h) t;
  t ← info_field ([10] ++ chars "  Class: ") (base_class h) t;
  t ← info_field (chars "  Subclass: ") (sub_class h) t;
  t ← info_field (chars "  Func: ") (prog_if h) t;
  t ← info_field (chars "  Revision: ") (revision_id h) t;
  t ← info_field ([10] ++ chars "  BIST: ") (bist h) t;
  t ← info_field (chars "  Header: ") (header_type h) t;
  t ← info_field (chars "  Latency timer: ") (latency_timer h) t;
  t ← info_field (chars "  Cache line: ") (cache_line_size h) t;
  t ← info_field ([10] ++ chars "  BAR0: ") (BAR0 h) t;
  t ← info_field (chars "  BAR1: ") (BAR1 h) t;
  t ← info_field (chars "  BAR2: ") (BAR2 h) t;
  t ← info_field ([10] ++ chars "  BAR3: ") (BAR3 h) t;
  t ← info_field (chars "  BAR4: ") (BAR4 h) t;
  t ← info_field (chars "  BAR5: ") (BAR5 h) t;
  t ← info_field ([10] ++ chars "  CIS Pointer: ") (cardbus_cis_pointer h) t;
  t ← info_field (chars "  SubVen ID: ") (subsystem_vendor_id h) t;
  t ← info_field (chars "  SubDev ID: ") (subsystem_device_id h) t;
  t ← info_field (chars "  ERBA: ") (ex_rba h) t;
  t ← info_field ([10] ++ chars "  Capabilities: ") (capabilities_pointer h) t;
  t ← Terminal.write (chars "  INT Line: ") t;
  t ← writeHex (interrupt_line h) (setColor 2 0 t);
  t ← Terminal.write (chars "  INT PIN: ") t;
  t ← writeHex (interrupt_pin h) (setColor 2 0 (setColor 15 0 t));
  Terminal.write [10] (setColor 15 0 t).

(** ** Disks *)

Definition run_lsahci (a : Ahci) t : outcome (Terminal P) :=
  if negb (isInitialized a) then Terminal.write (ln "AHCI not initialized.") t else
  for_range 0 Ahci.MAX_PORTS (fun i t =>
    d ← portHasDevice a i;
    if (d : bool) then
      t ← Terminal.write (chars "Port ") t; t ← writeDec i t; Terminal.write (ln ": device present") t
    else mret t) t.

Definition run_readtest argv (a : Ahci) (e : D) t : outcome (D * Terminal P) :=
  if fewer argv 3 then t ← Terminal.write (ln "Usage: readtest <port> <lba>") t; mret (e, t) else
  w1 ← Prelude.load argv 1; port ← parse_int w1;
  w2 ← Prelude.load argv 2;
  let lba := parse_unsigned u64 w2 in
  '(data, e) ← readSectors a port lba 1 e;
  match data with
  | None => t ← Terminal.write (ln "Read failed.") t; mret (e, t)
  | Some buffer =>
      t ← Terminal.write (chars "First 32 bytes of sector ") t;
      t ← writeDec lba t;
      t ← Terminal.write (ln ":") t;
      t ← for_range 0 32 (fun i t => b ← Prelude.load buffer i; t ← writeHex b t; Terminal.write (chars " ") t) t;
      t ← Terminal.write [10] t; mret (e, t)
  end.

(** The bytes of the words of a model name, high byte first. *)
Definition model_name (buf : list Z) : outcome (list Z) :=
  foldM (fun i acc => w ← Prelude.load buf (27 + i); mret (acc ++ [(w .>> 8) .& 0xFF; w .& 0xFF])) (seqZ 0 20) [].

Definition run_identify argv (a : Ahci) (e : D) t : outcome (D * Terminal P) :=
  if fewer argv 2 then t ← Terminal.write (ln "Usage: identify <port>") t; mret (e, t) else
  w1 ← Prelude.load argv 1; port ← parse_int w1;
  '(buf, e) ← identify a port e;
  match buf with
  | None => t ← Terminal.write (ln "IDENTIFY failed.") t; mret (e, t)
  | Some buf =>
      model ← model_name buf;
      t ← Terminal.write (chars "Model: ") t;
      t ← Terminal.write (model ++ [0]) t;
      t ← Terminal.write [10] t;
      lo ← Prelude.load buf 60; hi ← Prelude.load buf 61;
      let sectors := lo .| u32 (hi .<< 16) in
      t ← Terminal.write (chars "Sectors (28-bit): ") t;
      t ← writeDec sectors t;
      t ← Terminal.write (chars " (~") t;
      t ← writeDec (u64 (sectors * 512) / (1024 * 1024)) t;
      t ← Terminal.write (ln " MB)") t; mret (e, t)
  end.

(** ** Memory *)

Definition run_meminfo (pmm : PhysicalMemoryManager) (h : HeapState H) t : outcome (Terminal P) :=
  t ← Terminal.write (ln "Physical memory:") t;
  t ← Terminal.write (chars "  Total frames: ") t; t ← writeDec (totalFrames pmm) t; t ← Terminal.write [10] t;
  t ← Terminal.write (chars "  Used frames:  ") t; t ← writeDec (usedFrames pmm) t; t ← Terminal.write [10] t;
  t ← Terminal.write (chars "  Free frames:  ") t; t ← writeDec (freeFrames pmm) t; t ← Terminal.write [10] t;
  t ← Terminal.write (chars "  Free memory:  ") t; t ← writeDec (u64 (freeFrames pmm * FRAME_SIZE) / 1024) t;
  t ← Terminal.write (ln " KB") t;
  t ← Terminal.write (ln "Heap:") t;
  n ← totalAllocated h;
  t ← Terminal.write (chars "  Allocated: ") t; t ← writeDec n t; t ← Terminal.write (ln " bytes") t;
  n ← totalFree h;
  t ← Terminal.write (chars "  Free:      ") t; t ← writeDec n t; Terminal.write (ln " bytes") t.

(** The cells of a line of [memdump]: bytes behind the end are blank. *)
Definition dump_cells (show : Z -> list Z) (blank : list Z) (addr bytes i : Z) (mem : M) t : outcome (Terminal P) :=
  for_range 0 14 (fun j t =>
    if u64 (i + j) <? bytes then v ← us_peek (u64 (u64 (addr + i) + j)) mem; Terminal.write (show v) t
    else Terminal.write blank t) t.

Definition hex_pair (v : Z) : list Z :=
  [default 0 (hex_digits !! Z.to_nat ((v .>> 4) .& 0xF)); default 0 (hex_digits !! Z.to_nat (v .& 0xF)); 32].

Definition printable (v : Z) : list Z := [if (32 <=? v) && (v <=? 126) then v else 46].

Definition dump_line (addr bytes i : Z) (mem : M) t : outcome (Terminal P) :=
  t ← writeHex (u64 (addr + i)) (setColorForeground BLUE t);
  t ← Terminal.write (chars ": ") (setColorForeground WHITE t);
  t ← dump_cells hex_pair (chars "   ") addr bytes i mem (setColorForeground GREEN t);
  t ← Terminal.write (chars " |") (setColorForeground WHITE t);
  t ← dump_cells printable (chars " ") addr bytes i mem (setColorForeground RED t);
  Terminal.write (ln "|") (setColorForeground WHITE t).

(** [for (i = 0; i < bytes; i += 14)], one line and a pause each. *)
Fixpoint dump_loop (n : nat) (addr bytes i : Z) (mem : M) (c : list Z) t : outcome (list Z * Terminal P) :=
  if negb (i <? bytes) then mret (c, t) else
  match n with
  | O => Halt
  | S n' =>
      t ← dump_line addr bytes i mem t;
      c ← sleepMiliseconds 50 c;
      dump_loop n' addr bytes (u64 (i + 14)) mem c t
  end.

(** [addr] is uninitialised when the word is not a number. *)
Definition run_memdump argv (mem : M) (c : list Z) t : outcome (list Z * Terminal P) :=
  if fewer argv 3 then t ← Terminal.write (ln "Usage: memdump <address> <bytes>") t; mret (c, t) else
  w1 ← Prelude.load argv 1;
  w2 ← Prelude.load argv 2;
  match hex_to_u64 w1 with
  | None => Fault
  | Some addr => dump_loop fuel addr (u64 (atoll w2)) 0 mem c t
  end.

(** ** The clock *)

(** A reading of the clock next to the terminal. *)
Definition on_clock (r : P -> Z * P) t : Z * Terminal P := let (v, p) := r (ports t) in (v, set_ports t p).

(** [if (n < 10) { write("0"); writeDec(n); } else writeDec(n);] *)
Definition two_digits (n : Z) t : outcome (Terminal P) :=
  if n <? 10 then t ← Terminal.write (chars "0") t; writeDec n t else writeDec n t.

Definition run_time argv t : outcome (Terminal P) :=
  if (2 <? length argv)%nat then
    t ← Terminal.write (ln "time - print current time in CEST or UTC") t; Terminal.write (ln "Usage: time (utc)") t
  else
  a ← Prelude.load argv 1;
  let utc := str_eqb (chars "utc") a in
  let (h, t) := on_clock readHours t in
  let hours := if utc then h else h + 2 in
  let (minutes, t) := on_clock readMinutes t in
  let (seconds, t) := on_clock readSeconds t in
  t ← two_digits hours t; t ← Terminal.write (chars ":") t;
  t ← two_digits minutes t; t ← Terminal.write (chars ":") t;
  t ← two_digits seconds t; Terminal.write [10] t.

Definition day_name (d : Z) : list Z :=
  if d =? 1 then chars " Sunday" else if d =? 2 then chars " Monday" else if d =? 3 then chars " Tuesday" else
  if d =? 4 then chars " Wednesday" else if d =? 5 then chars " Thursday" else if d =? 6 then chars " Friday" else
  if d =? 7 then chars " Saturday" else chars "Error while reading day from RTC".

Definition run_date t : outcome (Terminal P) :=
  let (day, t) := on_clock readDay t in
  let (month, t) := on_clock readMonth t in
  let (year, t) := on_clock readYear t in
  let (century, t) := on_clock readCentury t in
  t ← two_digits day t; t ← Terminal.write (chars ".") t;
  t ← two_digits month t; t ← Terminal.write (chars ".") t;
  t ← writeDec century t; t ← writeDec year t;
  let (d, t) := on_clock (readRegister REGISTER_DAY_OF_WEEK) t in
  t ← Terminal.write (day_name d) t; Terminal.write [10] t.

Definition run_uptime (c : list Z) t : outcome (list Z * Terminal P) :=
  match c with
  | [] => Halt
  | ticks :: c =>
      t ← Terminal.write (chars "Ticks: ") t; t ← writeDec ticks t;
      t ← Terminal.write (chars " (~") t; t ← writeDec (ticks / 1000) t;
      t ← Terminal.write (ln " seconds)") t; mret (c, t)
  end.

(** ** Ports *)

Definition run_serial argv t : outcome (Terminal P) :=
  if fewer argv 2 then Terminal.write (ln "Usage: serial <message>") t else
  p ← for_range 1 (Z.of_nat (length argv)) (fun i p =>
    a ← Prelude.load argv i;
    p ← Serial.write spins a p;
    if i =? Z.of_nat (length argv) - 1 then mret p else Serial.write spins (chars " ") p) (ports t);
  p ← Serial.write spins [10] p;
  Terminal.write (ln "Sent to serial.") (set_ports t p).

Definition run_reboot argv t : outcome (ending * Terminal P) :=
  if (2 <? length argv)%nat then t ← Terminal.write (ln "Usage: reboot (hard)") t; mret (Returns, t) else
  a ← Prelude.load argv 1;
  if str_eqb (chars "hard") a then mret (Returns, set_ports t (rebootResetVector (ports t))) else
  p ← reboot fuel (ports t); mret (Stopped, set_ports t p).

Definition run_panic t : outcome (ending * Terminal P) :=
  t ← Terminal.write (ln "Triggering an exception...") t; mret (Breakpoint, t).

(** ** The machine *)

Definition set_screen m (t : Terminal P) : Machine W M P E H D :=
  mkMachine (shell m) t (memory m) (clock m) (sched m) (g_pmm m) (heap m) (devices m) (device_count m) (ahci m) (host m) (g_elf_path m) (g_elf_argv m).
Definition set_shell m (x : Shell W) (t : Terminal P) : Machine W M P E H D :=
  mkMachine x t (memory m) (clock m) (sched m) (g_pmm m) (heap m) (devices m) (device_count m) (ahci m) (host m) (g_elf_path m) (g_elf_argv m).
Definition set_sched m (s : Sched E) (t : Terminal P) : Machine W M P E H D :=
  mkMachine (shell m) t (memory m) (clock m) s (g_pmm m) (heap m) (devices m) (device_count m) (ahci m) (host m) (g_elf_path m) (g_elf_argv m).
Definition set_clock m (c : list Z) (t : Terminal P) : Machine W M P E H D :=
  mkMachine (shell m) t (memory m) c (sched m) (g_pmm m) (heap m) (devices m) (device_count m) (ahci m) (host m) (g_elf_path m) (g_elf_argv m).
Definition set_disk m (a : Ahci) (e : D) (t : Terminal P) : Machine W M P E H D :=
  mkMachine (shell m) t (memory m) (clock m) (sched m) (g_pmm m) (heap m) (devices m) (device_count m) a e (g_elf_path m) (g_elf_argv m).
Definition set_program m (path : list Z) (args : list (list Z)) : Machine W M P E H D :=
  mkMachine (shell m) (screen m) (memory m) (clock m) (sched m) (g_pmm m) (heap m) (devices m) (device_count m) (ahci m) (host m) path args.

(** The files, the memory and the terminal, as programs and archives use them. *)
Definition world_of m : World W M P := mkWorld (g_vfs (shell m)) (memory m) (screen m).
Definition set_world m (w : World W M P) (c : list Z) : Machine W M P E H D :=
  mkMachine (mkShell (g_cwd (shell m)) (vfs w)) (term w) (space w) c (sched m) (g_pmm m) (heap m) (devices m) (device_count m) (ahci m) (host m) (g_elf_path m) (g_elf_argv m).

Definition on_archive m (op : TarWorld W M P -> outcome (TarWorld W M P)) : outcome (Machine W M P E H D) :=
  w ← op (mkTar (world_of m) (clock m)); mret (set_world m (tw w) (Tar.clock w)).

Definition run_tar argv m : outcome (Machine W M P E H D) :=
  a ← Prelude.load argv 1;
  if str_eqb (chars "ls") a then
    path ← target_of argv 2 (shell m);
    on_archive m (listFiles junk fuel path)
  else if str_eqb (chars "cat") a then
    path ← target_of argv 2 (shell m);
    file ← Prelude.load argv 3;
    on_archive m (catFile junk fuel path file)
  else if str_eqb (chars "extract") a then
    path ← target_of argv 2 (shell m);
    path_out ← target_of argv 4 (shell m);
    file ← Prelude.load argv 3;
    on_archive m (extractFile junk fuel path file path_out)
  else mret m.

(** *** Programs *)

(** [Keyboard::setFocus] *)
Definition set_focus (i : Z) s : Sched E :=
  mkSched (tasks s) (frames s) (g_current s) (Scheduler.g_tail s) (g_next_id s) (g_started s) (g_pending_cleanup s)
    (g_next_task_rsp s) (tss_rsp0 s) (cpu_cr3 s) i (env s).

(** The task that a program runs in. *)
Definition userTaskEntry m : outcome (Started * Machine W M P E H D) :=
  '(entry, stack_top, argv_user_ptr, w) ← Elf.load (g_elf_path m) (g_elf_argv m) (world_of m);
  let m := set_world m w (clock m) in
  if entry =? 0 then
    t ← printf (chars "%rFailed to load ELF executable%r" ++ [10]) [ArgInt RED; ArgInt WHITE] (screen m);
    '(r, s) ← exitTask 0 (set_focus 0 (sched m));
    mret (NotStarted r, set_sched m s t)
  else mret (Syscall.enter entry stack_top (Z.of_nat (length (g_elf_argv m))) argv_user_ptr, m).

(** The words of the command line, 63 characters of each at most. *)
Definition elf_args (path : list Z) argv : list (list Z) := fixed 64 path :: take (MAX_ELF_ARGS - 1) (fixed 64 <$> drop 2 argv).

(** The rest of [execelf], after [waitForTask]: [exit_code] is an [int32_t]. *)
Definition execelf_done (i code : Z) m : outcome (ending * Machine W M P E H D) :=
  t ← printf (ln "[shell] exited with code %d") [ArgInt code] (screen m);
  alive ← taskAlive i (sched m);
  mret (if alive : bool then Switched else Returns, set_screen m t).

Definition run_execelf (regs : Z) argv m : outcome (ending * Machine W M P E H D) :=
  if fewer argv 2 then t ← printf (ln "Usage: execelf <path> [args...]") [] (screen m); mret (Returns, set_screen m t) else
  path ← target_of argv 1 (shell m);
  let m := set_program m path (elf_args path argv) in
  '(task, s) ← createTask userTaskEntry_addr 16384 (sched m);
  x ← get_task task s;
  let s := set_focus (id x) s in
  '(r, s) ← waitForTask (id x) regs s;
  let m := set_sched m s (screen m) in
  match r with
  | WaitReturns code => execelf_done (id x) code m
  | WaitBlocks => mret (Waiting (id x), m)
  end.

(** *** The table of commands *)

Context (ext2_driver : FilesystemDriver W).

Definition shown m (r : outcome (Terminal P)) : outcome (ending * Machine W M P E H D) := t ← r; mret (Returns, set_screen m t).

(** [regs] is the stack pointer that a switch saves. *)
Definition run_any (regs : Z) (c : Command) argv m : outcome (ending * Machine W M P E H D) :=
  let t := screen m in
  match c with
  | cmdMeminfo => shown m (run_meminfo (g_pmm m) (heap m) t)
  | cmdPanic => '(r, t) ← run_panic t; mret (r, set_screen m t)
  | cmdLsPCI => shown m (run_lspci (devices m) (device_count m) t)
  | cmdReboot => '(r, t) ← run_reboot argv t; mret (r, set_screen m t)
  | cmdTime => shown m (run_time argv t)
  | cmdDate => shown m (run_date t)
  | cmdSerial => shown m (run_serial argv t)
  | cmdLsahci => shown m (run_lsahci (ahci m) t)
  | cmdIdentify => '(e, t) ← run_identify argv (ahci m) (host m) t; mret (Returns, set_disk m (ahci m) e t)
  | cmdReadTest => '(e, t) ← run_readtest argv (ahci m) (host m) t; mret (Returns, set_disk m (ahci m) e t)
  | cmdUptime => '(c, t) ← run_uptime (clock m) t; mret (Returns, set_clock m c t)
  | cmdInitAHCI =>
      '(_, pci, a, v, e) ← Ahci.init (pci_of (devices m) (device_count m) t) (ahci m) (g_vfs (shell m)) (host m);
      let m := set_shell m (mkShell (g_cwd (shell m)) v) (set_ports t (pci_ports pci)) in
      mret (Returns, set_disk m a e (screen m))
  | cmdMemDump => '(c, t) ← run_memdump argv (memory m) (clock m) t; mret (Returns, set_clock m c t)
  | cmdKill => '(r, s, t) ← run_kill argv (sched m) t; mret (r, set_sched m s t)
  | cmdPs => shown m (run_ps (sched m) t)
  | cmdPciInfo => shown m (run_pci_info argv (devices m) (device_count m) t)
  | cmdExecuteElf => run_execelf regs argv m
  | cmdTar => m ← run_tar argv m; mret (Returns, m)
  | _ =>
      '(x, t) ← run_command ext2_driver junk fuel (fun _ _ _ _ => Fault) c argv (shell m) t;
      mret (Returns, set_shell m x t)
  end.

(** [executeLine] after [tokenize]. *)
Definition execute (regs : Z) argv m : outcome (ending * Machine W M P E H D) :=
  match argv with
  | [] => mret (Returns, m)
  | name :: _ =>
      match find_command g_commands name with
      | Some c => run_any regs c argv m
      | None =>
          t ← Terminal.write (chars "Unknown command: ") (screen m); t ← Terminal.write name t; t ← Terminal.write [10] t;
          mret (Returns, set_screen m t)
      end
  end.

End Info.
