(* ===== verification/ShellInfoProofs.v ===== *)
(** Correctness of the commands of [ShellInfo]: the list of tasks, the number
    arguments, [kill], and reading a sector of a disk through the driver. *)

From Stdlib Require Import ZifyBool.
From S2P Require Import Prelude Syscall Io Libc Bytes Format Serial Terminal Printf Screen Scheduler SchedulerProofs Ext2 Ext2Proofs Ext2Image Ahci AhciProofs AhciSim ShellLine ShellCommands ShellInfo.

(** ** Numbers *)

Lemma dec_value_bound ds acc : Forall is_dec ds -> 0 <= acc -> acc <= dec_value_from acc ds.
Proof.
  intros Hd. revert acc. induction Hd as [|c ds Hc Hd IH]; intros acc Ha; cbn [dec_value_from]; [lia|]. unfold is_dec in Hc.
  etrans; [|apply IH]; lia.
Qed.

Lemma sgn8_dec c : is_dec c -> sgn 8 c = c.
Proof. intros Hc. unfold is_dec, sgn in *. rewrite Z.mod_small by lia. case_if; lia. Qed.

(** The digits of a number are read back as the number. *)
Lemma parse_unsigned_ok wrap bound ds n : (forall x, 0 <= x < bound -> wrap x = x) -> decimal n ds -> n < bound ->
  parse_unsigned wrap ds = n.
Proof.
  intros Hw (Hd & _ & <-) Hn. unfold parse_unsigned. enough (Hgen : forall acc, 0 <= acc -> dec_value_from acc ds < bound ->
    fold_left (fun n c => wrap (n * 10 + (sgn 8 c - 48))) ds acc = dec_value_from acc ds) by (apply Hgen; [lia | done]). clear Hn.
  induction Hd as [|c ds Hc Hd IH]; intros acc Ha Hn; cbn [fold_left dec_value_from] in *; [done|].
  rewrite (sgn8_dec c Hc). unfold is_dec in Hc. pose proof (dec_value_bound ds (acc * 10 + (c - 48)) Hd ltac:(lia)).
  rewrite Hw by lia. apply IH; lia.
Qed.

Lemma parse_int_ok ds n : decimal n ds -> n < 2 ^ 31 -> parse_int ds = Ok n.
Proof.
  intros (Hd & _ & <-) Hn. unfold parse_int. set (f := fun c n => _). enough (Hgen : forall acc, 0 <= acc -> dec_value_from acc ds < 2 ^ 31 ->
    foldM f ds acc = Ok (dec_value_from acc ds)) by (apply Hgen; [lia | done]). clear Hn. subst f.
  induction Hd as [|c ds Hc Hd IH]; intros acc Ha Hn; cbn [foldM dec_value_from] in *; [done|].
  rewrite (sgn8_dec c Hc). unfold is_dec in Hc. pose proof (dec_value_bound ds (acc * 10 + (c - 48)) Hd ltac:(lia)).
  assert (int_ok (acc * 10) && int_ok (acc * 10 + (c - 48)) = true) as -> by (unfold int_ok; lia). apply IH; lia.
Qed.

(** ** Tasks *)

Section Tasks.
Context {P E : Type} `{PortIO P} `{TaskServices E}.
Implicit Types (t : Terminal P) (s : Sched E).

(** The line of a task. *)
Definition task_line (x : Task) (line : list Z) : Prop :=
  exists ds, decimal (id x) ds /\ line = chars "  [" ++ ds ++ chars "] " ++ state_name (state x).

Lemma nonzero_app (a b : list Z) : Forall (fun c => c <> 0) a -> Forall (fun c => c <> 0) b -> Forall (fun c => c <> 0) (a ++ b).
Proof. intros. apply Forall_app. by split. Qed.

Lemma ps_line_ok x : 0 <= id x < 2 ^ 64 -> exists line, task_line x line /\ Forall (fun c => c <> 0) line /\
  forall t, ps_line x t = Terminal.write line t.
Proof.
  intros Hx. destruct (writeDec_write (P := P) (id x) Hx) as (ds & Hd & Hz & Hw).
  exists (chars "  [" ++ ds ++ chars "] " ++ state_name (state x)). split; [by exists ds|].
  assert (Z1 : Forall (fun c => c <> 0) (chars "  [")) by (apply (bool_decide_unpack _); vm_compute; exact I).
  assert (Z2 : Forall (fun c => c <> 0) (chars "] ")) by (apply (bool_decide_unpack _); vm_compute; exact I).
  assert (Z3 : Forall (fun c => c <> 0) (state_name (state x))) by (apply (bool_decide_unpack _); destruct (state x); vm_compute; exact I).
  split; [by repeat apply nonzero_app|]. intros t. unfold ps_line. rewrite write_app by done.
  destruct (Terminal.write (chars "  [") t) as [t1| |]; [|done..]. cbn [mbind outcome_bind]. rewrite Hw, write_app by done.
  destruct (Terminal.write ds t1) as [t2| |]; [|done..]. cbn [mbind outcome_bind]. by rewrite write_app.
Qed.

(** The tasks at the addresses of a list. *)
Definition tasks_at s (l : list Z) (xs : list Task) : Prop := Forall2 (fun a x => tasks s !! a = Some x) l xs.

Lemma ring_split (ts : gmap Z Task) c ord : ring ts c ord -> exists o, ord = o ++ [c].
Proof. intros [_ Hl _ _]. destruct ord as [|b o _] using rev_ind; [done|]. rewrite last_snoc in Hl. injection Hl as ->. by exists o. Qed.

(** The loop from a task in the middle of the ring. *)
Lemma ps_loop_ok s c : c <> 0 -> (forall a x, tasks s !! a = Some x -> 0 <= id x < 2 ^ 64) ->
  forall o a n, follows (tasks s) a (o ++ [c]) -> ~ (c ∈ o) -> (length o < n)%nat ->
  exists xs lines, tasks_at s (a :: o) xs /\ Forall2 task_line xs lines /\ Forall (fun c => c <> 0) (concat lines) /\
    forall t, ps_loop n a c s t = Terminal.write (concat lines) t.
Proof.
  intros Hc0 Hid o. induction o as [|b o IH]; intros a n Hf Hni Hn; (destruct n as [|n]; [cbn in Hn; lia|]); cbn [app follows] in Hf;
    destruct Hf as [(x & Hx & Hnx) Hf]; destruct (ps_line_ok x (Hid a x Hx)) as (line & Hl & Hz & Hp).
  - exists [x], [line]. split; [by repeat constructor|]. split; [by repeat constructor|]. cbn [concat]. rewrite app_nil_r. split; [done|].
    intros t. cbn [ps_loop]. rewrite (get_task_ok a x s Hx). cbn [mbind outcome_bind]. rewrite Hp, Hnx, Z.eqb_refl.
    by destruct (Terminal.write line t).
  - apply not_elem_of_cons in Hni as [Hne Hni]. cbn [length] in Hn. destruct (IH b n Hf Hni ltac:(lia)) as (xs & lines & Ht & Hls & Hzs & Hps).
    exists (x :: xs), (line :: lines). split; [by constructor|]. split; [by constructor|]. cbn [concat]. split; [by apply nonzero_app|].
    intros t. cbn [ps_loop]. rewrite (get_task_ok a x s Hx). cbn [mbind outcome_bind]. rewrite Hp, write_app by done.
    destruct (Terminal.write line t) as [t1| |]; [|done..]. cbn [mbind outcome_bind].
    rewrite Hnx, (proj2 (Z.eqb_neq b c)) by done. apply Hps.
Qed.

(** [ps] prints one line per task in the order of the ring. *)
Lemma ps_ok s ord t : sched_inv s ord -> (forall a x, tasks s !! a = Some x -> 0 <= id x < 2 ^ 32) ->
  exists o xs lines, ord = o ++ [g_current s] /\ tasks_at s (g_current s :: o) xs /\ Forall2 task_line xs lines /\
    run_ps s t = Terminal.write (concat lines) t.
Proof.
  intros Hinv Hid. pose proof (si_ring s ord Hinv) as Hr. destruct (ring_split _ _ _ Hr) as (o & ->).
  pose proof Hr as [Hf _ Hnd Hnn]. assert (Hc0 : g_current s <> 0) by (intros E0; apply Hnn; rewrite <- E0; apply elem_of_app; right; by left).
  apply list.NoDup_app in Hnd as (_ & Hni & _). pose proof (ring_size _ _ _ Hr) as Hsz. rewrite length_app in Hsz. cbn in Hsz.
  destruct (ps_loop_ok s (g_current s) Hc0) with (o := o) (a := g_current s) (n := ring_fuel s) as (xs & lines & Ht & Hl & _ & Hp);
    [intros a x Hx; specialize (Hid a x Hx); lia | done | intros Hin; apply (Hni _ Hin); by left | unfold ring_fuel; lia |].
  exists o, xs, lines. split_and!; try done. unfold run_ps, currentTask. by rewrite (proj2 (Z.eqb_neq _ _) Hc0), Hp.
Qed.

(** Ending a task changes no number. *)
Lemma killed_id (ts : gmap Z Task) a code x b y : ts !! a = Some x -> killed ts a code x !! b = Some y ->
  exists y0, ts !! b = Some y0 /\ id y = id y0.
Proof.
  intros Hx. assert (Hins : forall (m : gmap Z Task) k z, (forall c u, m !! c = Some u -> exists u0, ts !! c = Some u0 /\ id u = id u0) ->
    (exists z0, ts !! k = Some z0 /\ id z = id z0) -> forall c u, <[k := z]> m !! c = Some u -> exists u0, ts !! c = Some u0 /\ id u = id u0).
  { intros m k z Hm Hz c u [[<- <-]|[_ Hu]]%lookup_insert_Some; [done | by apply Hm]. }
  assert (H1 : forall c u, <[a := set_state Terminated (set_exit_code code x)]> ts !! c = Some u -> exists u0, ts !! c = Some u0 /\ id u = id u0).
  { apply Hins; [intros c u Hu; by exists u | by exists x]. }
  unfold killed. destruct (waiting_parent x =? 0); [apply H1|].
  destruct (<[a := _]> ts !! waiting_parent x) as [tw|] eqn:Etw; [|intros Hy; by exists y].
  destruct (H1 _ _ Etw) as (z0 & Hz0 & Ez0).
  apply Hins; [|by exists x]. apply Hins; [done | by exists z0].
Qed.

(** C24. [kill] with the number of another task ends that task with code -1 and
    says so, and a following [ps] returns and prints one line per task of the
    ring, from the current task on and none twice, with the killed task
    listed as terminated. *)
Theorem kill_then_ps s ord a x w ds t : sched_inv s ord -> ids_unique s ord -> tasks s !! 0 = None ->
  (forall b y, tasks s !! b = Some y -> 0 <= id y < 2 ^ 32) -> a ∈ ord -> tasks s !! a = Some x -> a <> g_current s ->
  state x <> Terminated -> waiting_parent x = 0 \/ waiting_parent x ∈ ord -> decimal (id x) ds -> term_ok t ->
  exists s' t' o xs lines x', run_kill [w; ds] s t = Ok (Returns, s', t') /\ Terminal.write (ln "Task killed.") t = Ok t' /\
    ord = o ++ [g_current s'] /\ tasks_at s' (g_current s' :: o) xs /\ Forall2 task_line xs lines /\
    run_ps s' t' = Terminal.write (concat lines) t' /\ x' ∈ xs /\ id x' = id x /\ state x' = Terminated /\ exit_code x' = -1.
Proof.
  intros Hinv Hu H00 Hid Ha Hx Hne Hst Hw Hds Hok. pose proof (si_ring s ord Hinv) as Hr.
  destruct (killTask_ok (id x) (-1) s ord a x) as (s' & Ek & T & C & L & S & N & Pd & K & _); try done.
  rewrite (proj2 (Z.eqb_neq a (g_current s)) Hne) in Ek.
  assert (Hw' : waiting_parent x = 0 \/ is_Some (tasks s !! waiting_parent x)).
  { destruct Hw as [?|Hw]; [by left|]. right. destruct (ring_in _ _ _ _ Hr Hw) as [tw Htw]. by exists tw. }
  assert (Hinv' : sched_inv s' ord) by (by apply (killed_inv s s' ord a x (-1))).
  destruct (killed_self _ a (-1) x Hx Hw') as (x' & Hx' & Hst' & Hcode & Hnx'). rewrite <- T in Hx'.
  assert (Hid' : forall b y, tasks s' !! b = Some y -> 0 <= id y < 2 ^ 32 /\ (b = a -> id y = id x)).
  { intros b y Hy. rewrite T in Hy. destruct (killed_id _ a (-1) x b y Hx Hy) as (y0 & Hy0 & ->). split; [by apply (Hid b)|]. intros ->. congruence. }
  destruct (write_stays (ln "Task killed.") t Hok) as (t' & Ew & _ & _).
  destruct (ps_ok s' ord t' Hinv') as (o & xs & lines & Ho & Hxs & Hl & Hps); [intros b y Hy; by apply (Hid' b y)|].
  exists s', t', o, xs, lines, x'. split.
  { unfold run_kill, fewer. cbn [length Nat.ltb Nat.leb]. change (Prelude.load [w; ds] 1) with (Ok ds). cbn [mbind outcome_bind].
    rewrite (parse_unsigned_ok u32 (2 ^ 32) ds (id x)); [| intros; by apply u32_small | done | by apply (Hid a x)].
    run_call Ek. by run_call Ew. }
  split_and!; try done; [|by apply (Hid' a x' Hx')].
  assert (Hin : a ∈ g_current s' :: o).
  { rewrite Ho, elem_of_app, list_elem_of_singleton in Ha. apply elem_of_cons. tauto. }
  apply list_elem_of_lookup in Hin as [k Hk]. destruct (Forall2_lookup_l _ _ _ _ _ Hxs Hk) as (y & Hy & Hya).
  apply list_elem_of_lookup. exists k. by rewrite Hx' in Hya; injection Hya as ->.
Qed.

End Tasks.

(** ** Sectors *)

Section Sectors.
Context {P D : Type} `{PortIO P} `{AhciDevice D}.
Implicit Types (t : Terminal P) (e : D).

(** A loop whose rounds write a text each. *)
Lemma foldM_writes {A} (R : A -> list Z -> Prop) (body : A -> Terminal P -> outcome (Terminal P)) (l : list A) :
  Forall (fun i => exists txt, R i txt /\ Forall (fun c => c <> 0) txt /\ forall t, body i t = Terminal.write txt t) l ->
  exists texts, Forall2 R l texts /\ Forall (fun c => c <> 0) (concat texts) /\ forall t, foldM body l t = Terminal.write (concat texts) t.
Proof.
  induction 1 as [|i l (txt & Hr & Hz & Hb) Hl (texts & Hrs & Hzs & Hbs)]; [by exists []|].
  exists (txt :: texts). split; [by constructor|]. cbn [concat]. split; [by apply nonzero_app|]. intros t. cbn [foldM].
  rewrite Hb, write_app by done. destruct (Terminal.write txt t); [apply Hbs | done..].
Qed.

(** The text of a byte of the sector. *)
Definition shows_byte (sector : list Z) (i : Z) (txt : list Z) : Prop :=
  exists b ds, sector !! Z.to_nat i = Some b /\ hex_to_u64 ds = Some b /\ txt = ds ++ [32].

(** [readtest] with the numbers of a port and a sector prints the first 32
    bytes of that sector of the drive, each in hexadecimal, and leaves the
    drives as they are. *)
Theorem readtest_shows_sector a p e clb ct lba w ds1 ds2 t : serves a p -> ready e p clb ct -> (4 <= size (free (view e)))%nat ->
  decimal p ds1 -> decimal lba ds2 -> 0 <= lba < 2 ^ 48 -> 512 * (lba + 1) <= Z.of_nat (length (drive (view e) p)) -> term_ok t ->
  exists e' t' sector ds texts, dev_read lba 1 (drive (view e) p) = Some sector /\ decimal lba ds /\
    Forall2 (shows_byte sector) (seqZ 0 32) texts /\
    Terminal.write (chars "First 32 bytes of sector " ++ ds ++ ln ":" ++ concat texts ++ [10]) t = Ok t' /\
    run_readtest [w; ds1; ds2] a e t = Ok (e', t') /\ ready e' p clb ct /\ same_drives (view e) (view e').
Proof.
  intros Hs R Hf Hd1 Hd2 Hl Hroom Hok. destruct (readSectors_ok a p lba 1 e clb ct Hs R Hf Hl ltac:(lia) Hroom) as (e' & E1 & R1 & D1 & _).
  pose proof (drive_bytes e p) as Hb. cbn [dev_read ram_disk] in E1 |- *. rewrite slice_ok in E1 |- * by lia.
  set (sector := take _ (drop _ (drive (view e) p))) in *.
  assert (Hsb : bytes_ok sector) by (by apply list.Forall_take, Forall_drop).
  assert (Hsl : length sector = 512%nat) by (subst sector; rewrite length_take, length_drop; lia).
  destruct (writeDec_write (P := P) lba ltac:(lia)) as (ds & Hds & Hdz & Hw).
  destruct (foldM_writes (shows_byte sector) (fun i t => b ← Prelude.load sector i; t ← Terminal.writeHex b t; Terminal.write (chars " ") t) (seqZ 0 32))
    as (texts & Ht & Htz & Hbody).
  { apply Forall_forall. intros i Hi. apply list_elem_of_In, elem_of_seqZ in Hi.
    destruct (load_in_range sector i) as (b & Eb & Hbi); [lia|]. pose proof (proj1 (Forall_lookup _ _) Hsb _ _ Hbi) as Hbb. unfold byte_ok in Hbb.
    destruct (writeHex_write (P := P) b ltac:(lia)) as (hx & Hx & Hxz & Hxw). exists (hx ++ [32]). split; [by exists b, hx|].
    split; [apply nonzero_app; [done | by repeat constructor]|]. intros t0. rewrite Eb. cbn [mbind outcome_bind]. by rewrite Hxw, write_app. }
  assert (Z1 : Forall (fun c => c <> 0) (chars "First 32 bytes of sector ")) by (apply (bool_decide_unpack _); vm_compute; exact I).
  assert (Z2 : Forall (fun c => c <> 0) (ln ":")) by (apply (bool_decide_unpack _); vm_compute; exact I).
  destruct (write_stays (chars "First 32 bytes of sector " ++ ds ++ ln ":" ++ concat texts ++ [10]) t Hok) as (t' & Ew & _ & _).
  exists e', t', sector, ds, texts. split_and!; try done.
  unfold run_readtest, fewer. cbn [length Nat.ltb Nat.leb]. change (Prelude.load [w; ds1; ds2] 1) with (Ok ds1).
  change (Prelude.load [w; ds1; ds2] 2) with (Ok ds2). cbn [mbind outcome_bind].
  destruct Hs as (Hp & _). rewrite (parse_int_ok ds1 p Hd1) by lia. cbn [mbind outcome_bind].
  rewrite (parse_unsigned_ok u64 (2 ^ 64) ds2 lba); [| intros; by apply u64_small | done | lia]. run_call E1.
  revert Ew. rewrite write_app by done. destruct (Terminal.write (chars "First 32 bytes of sector ") t) as [t1| |]; [|done..].
  cbn [mbind outcome_bind]. rewrite Hw, write_app by done. destruct (Terminal.write ds t1) as [t2| |]; [|done..].
  cbn [mbind outcome_bind]. rewrite write_app by done. destruct (Terminal.write (ln ":") t2) as [t3| |]; [|done..].
  cbn [mbind outcome_bind]. rewrite write_app by done. unfold for_range. change (32 - 0) with 32. rewrite Hbody.
  destruct (Terminal.write (concat texts) t3) as [t4| |]; [|done..]. cbn [mbind outcome_bind]. intros Ew. by run_call Ew.
Qed.

End Sectors.

(** ** Runs *)

Lemma digit_decimal n : 0 <= n <= 9 -> decimal n [48 + n].
Proof. intros Hn. split; [repeat constructor; lia|]. split; [done|]. cbn. lia. Qed.

Lemma sample_ids b y : tasks sample_sched !! b = Some y -> 0 <= id y < 2 ^ 32.
Proof.
  intros Hy. destruct (sample_lookup sample_sched b y ltac:(by left) Hy) as [-> |[-> | ->]]; vm_compute in Hy; injection Hy as <-; cbn; lia.
Qed.

Lemma kill_then_ps_witness : exists s' t' lines, run_kill [chars "kill"; chars "2"] sample_sched cleared_terminal = Ok (Returns, s', t') /\
  run_ps s' t' = Terminal.write (concat lines) t' /\ length lines = 3%nat.
Proof.
  destruct (kill_then_ps sample_sched [200; 300; 100] 200 (sample_task 2 Ready 300 300) (chars "kill") (chars "2") cleared_terminal)
    as (s' & t' & o & xs & lines & x' & E1 & _ & Ho & Hxs & Hl & E2 & _).
  - apply sample_inv_of. by left.
  - intros a b ta tb Ha Hb Hta Htb Hid.
    destruct (sample_lookup sample_sched a ta ltac:(by left) Hta) as [-> |[-> | ->]];
      destruct (sample_lookup sample_sched b tb ltac:(by left) Htb) as [-> |[-> | ->]]; try done;
      vm_compute in Hta, Htb; injection Hta as <-; injection Htb as <-; discriminate.
  - reflexivity.
  - exact sample_ids.
  - apply list_elem_of_here.
  - reflexivity.
  - discriminate.
  - discriminate.
  - right. right. left.
  - exact (digit_decimal 2 ltac:(lia)).
  - exact cleared_terminal_ok.
  - exists s', t', lines. split; [exact E1|]. split; [exact E2|]. rewrite <- (Forall2_length Hl), <- (Forall2_length Hxs).
    apply (f_equal length) in Ho. rewrite length_app in Ho. cbn in *. lia.
Defined.

Lemma readtest_shows_sector_witness :
  exists e' t' texts, run_readtest [chars "readtest"; chars "0"; chars "3"] toy_driver ready_machine cleared_terminal = Ok (e', t') /\
    Forall2 (shows_byte (replicate 512 3)) (seqZ 0 32) texts.
Proof.
  destruct (readtest_shows_sector toy_driver 0 ready_machine 4096 8192 3 (chars "readtest") (chars "0") (chars "3") cleared_terminal)
    as (e' & t' & sector & ds & texts & Es & _ & Ht & _ & E1 & _).
  - exact toy_driver_serves.
  - exact ready_machine_ready.
  - rewrite ready_machine_free. lia.
  - exact (digit_decimal 0 ltac:(lia)).
  - exact (digit_decimal 3 ltac:(lia)).
  - lia.
  - vm_compute. discriminate.
  - exact cleared_terminal_ok.
  - exists e', t', texts. split; [exact E1|]. injection Es as Es. rewrite <- Es in Ht. exact Ht.
Defined.
