(* ===== verification/KernelMain.v ===== *)
(** [kernel_main] of [src/src/kernel/main.cpp]: the order in which the kernel
    brings up its parts, and the tasks it starts.

    The components keep the models they have elsewhere; [Boot] is the state of
    the kernel while it comes up.  The ports of the machine are in [core]; a
    call that prints runs on the screen with these ports.  [Image] is what the
    linker, the assembly stubs and the boot loader provide.  No interrupt
    arrives while the kernel comes up.  The scheduler reaches the heap through
    [TaskServices]: [env_of] is the heap as its interface shows it. *)

From Stdlib Require Import ZifyBool.
From S2P Require Import Prelude ShellInfo Io Libc Format Serial Terminal Printf Pmm Vmm Heap HeapProofs Keyboard Scheduler SchedulerProofs Multiboot Boot Gdt Idt Pci ShellLine Pic Timer Interrupts.

Record Image := mkImage {
  tss_address : Z;
  gdt_before : list GdtEntry;
  gdt_storage_before : list Z;
  isr_stub : Z -> Z;
  irq_stub : Z -> Z;
  isr128 : Z;
  idt_before : list IdtEntry;
  multiboot_info : list Z;
  kernel_physical_end : Z;
  bitmap_memory : list Z;
  boot_memory : Z -> Z;
  boot_cr3 : Z;
  Shell_run : Z;
  StatusBar_time : Z;
  StatusBar_date : Z;
}.

Record Boot (E P : Type) := mkBoot {
  core : Kernel E P;
  screen : Terminal P;
  gdt : option Gdt;
  idt : option (Z * list IdtEntry);
  interrupt_flag : bool;
  g_pmm : option PhysicalMemoryManager;
  g_heap : option (HeapState (Vmm.Machine PhysicalMemoryManager));
  pci_devices : list PCIDevice;
  pci_count : Z;
  line : Line;
}.
Arguments mkBoot {E P}.
Arguments core {E P}.
Arguments screen {E P}.
Arguments gdt {E P}.
Arguments idt {E P}.
Arguments interrupt_flag {E P}.
Arguments g_pmm {E P}.
Arguments g_heap {E P}.
Arguments pci_devices {E P}.
Arguments pci_count {E P}.
Arguments line {E P}.

Section KernelMain.
Context {E P : Type} `{TaskServices E} `{PortIO P}.
Context (spins : nat) (img : Image) (constructors : list (Boot E P -> outcome (Boot E P))).
Context (env_of : HeapState (Vmm.Machine PhysicalMemoryManager) -> E).
Implicit Types (b : Boot E P) (s : Sched E).

Definition with_core b (k : Kernel E P) : Boot E P :=
  mkBoot k (screen b) (gdt b) (idt b) (interrupt_flag b) (g_pmm b) (g_heap b) (pci_devices b) (pci_count b) (line b).

Definition with_gdt b (g : Gdt) : Boot E P :=
  mkBoot (core b) (screen b) (Some g) (idt b) (interrupt_flag b) (g_pmm b) (g_heap b) (pci_devices b) (pci_count b) (line b).
Definition with_idt b (i : Z * list IdtEntry) : Boot E P :=
  mkBoot (core b) (screen b) (gdt b) (Some i) (interrupt_flag b) (g_pmm b) (g_heap b) (pci_devices b) (pci_count b) (line b).
Definition with_flag b (v : bool) : Boot E P :=
  mkBoot (core b) (screen b) (gdt b) (idt b) v (g_pmm b) (g_heap b) (pci_devices b) (pci_count b) (line b).
Definition with_memory b (p : PhysicalMemoryManager) (h : option (HeapState (Vmm.Machine PhysicalMemoryManager))) : Boot E P :=
  mkBoot (core b) (screen b) (gdt b) (idt b) (interrupt_flag b) (Some p) h (pci_devices b) (pci_count b) (line b).
Definition with_devices b (ds : list PCIDevice) (n : Z) : Boot E P :=
  mkBoot (core b) (screen b) (gdt b) (idt b) (interrupt_flag b) (g_pmm b) (g_heap b) ds n (line b).
Definition with_line b (l : Line) : Boot E P :=
  mkBoot (core b) (screen b) (gdt b) (idt b) (interrupt_flag b) (g_pmm b) (g_heap b) (pci_devices b) (pci_count b) l.

(** A call that reaches the ports, and one that reaches the screen. *)
Definition on_ports (f : P -> outcome P) b : outcome (Boot E P) :=
  p ← f (Interrupts.ports (core b)); mret (with_core b (with_ports (core b) p)).

Definition on_screen (f : Terminal P -> outcome (Terminal P)) b : outcome (Boot E P) :=
  t ← f (set_ports (screen b) (Interrupts.ports (core b)));
  mret (mkBoot (with_ports (core b) (Terminal.ports t)) t (gdt b) (idt b) (interrupt_flag b) (g_pmm b) (g_heap b)
    (pci_devices b) (pci_count b) (line b)).

Definition log (msg : list Z) : Boot E P -> outcome (Boot E P) := on_ports (Serial.write spins msg).
Definition logln (msg : list Z) : Boot E P -> outcome (Boot E P) := log (msg ++ [10]).

(** [Serial::write(name); Serial::writeHex(value); Serial::write("\n");] *)
Definition log_hex (name : list Z) (value : Z) b : outcome (Boot E P) :=
  b ← log name b; b ← on_ports (Serial.writeHex spins value) b; logln [] b.

(** [printf("%r...%r\n", VGA::GREEN, VGA::WHITE)] *)
Definition announce (msg : list Z) : Boot E P -> outcome (Boot E P) :=
  on_screen (printf (chars "%r" ++ msg ++ chars "%r" ++ [10]) [ArgInt GREEN; ArgInt WHITE]).

(** The constructors run from the last to the first. *)
Definition call_global_constructors (b : Boot E P) : outcome (Boot E P) := foldM (fun c b => c b) (rev constructors) b.

Definition TITLE : list Z :=
  chars "%r===================================WengShi OS===================================%r" ++ [10].

(** Up to [VGA screen initialized]. *)
Definition init_console b : outcome (Boot E P) :=
  b ← on_ports (fun p => mret (Serial.init p)) b;
  b ← logln (chars "CP1: serial init") b;
  b ← logln (chars "=====WengShi OS=====") b;
  b ← call_global_constructors b;
  b ← logln (chars "CP2: ctors done") b;
  b ← on_screen (printf TITLE [ArgInt BLUE; ArgInt WHITE]) b;
  b ← on_screen (fun t => mret (enableHardwareCursor t)) b;
  b ← logln (chars "CP3: vga cursor") b;
  logln (chars "VGA screen initialized") b.

(** Descriptor tables, interrupt controller, keyboard and timer, up to [sti]. *)
Definition init_interrupts b : outcome (Boot E P) :=
  g ← gdt_init (tss_address img) (gdt_before img) (gdt_storage_before img);
  let b := with_gdt b g in
  b ← logln (chars "CP4: gdt done") b;
  b ← announce (chars "GDT initialized.") b;
  i ← idt_init (isr_stub img) (irq_stub img) (isr128 img) (idt_before img);
  let b := with_idt b i in
  b ← logln (chars "CP5: idt done") b;
  b ← announce (chars "IDT initialized.") b;
  b ← on_ports (fun p => mret (remap 0x20 0x28 p)) b;
  b ← logln (chars "CP6: pic done") b;
  b ← announce (chars "PIC initialized.") b;
  let k := core b in
  let k := mkKernel (sched k) (timer k) (Keyboard.init (keyboard k)) (g_pending_stdin_reader k) (g_irq_handlers k) (Interrupts.ports k) in
  k ← idt_register_irq_handler 1 KeyboardIRQ k;
  b ← on_ports (fun p => mret (clearMask 1 p)) (with_core b k);
  b ← logln (chars "CP7: keyboard done") b;
  b ← announce (chars "Keyboard initialized.") b;
  '(tm, p) ← Timer.init 1000 (Interrupts.ports (core b));
  let k := core b in
  k ← idt_register_irq_handler 0 TimerIRQ (mkKernel (sched k) tm (keyboard k) (g_pending_stdin_reader k) (g_irq_handlers k) p);
  b ← on_ports (fun p => mret (clearMask 0 p)) (with_core b k);
  b ← logln (chars "CP8: timer done") b;
  b ← announce (chars "PIT initialized.") b;
  let b := with_flag b true in
  b ← logln (chars "CP9: interrupts enabled") b;
  announce (chars "Interrupts initialized.") b.

(** Frames, heap and devices. *)
Definition init_memory b : outcome (Boot E P) :=
  '(_, highest) ← parseMemoryMap findHighestAddress (multiboot_info img) 0;
  b ← log_hex (chars "CP10: highest_address = ") highest b;
  '(_, regions) ← parseMemoryMap collectAvailableRegion (multiboot_info img) [];
  b ← log (chars "CP10b: collected ") b;
  b ← on_ports (Serial.writeDec spins (Z.of_nat (length regions))) b;
  b ← logln (chars " available regions") b;
  let bitmap_addr := bitmap_address (kernel_physical_end img) in
  b ← log_hex (chars "CP11: bitmap_addr = ") bitmap_addr b;
  p ← Pmm.init highest (bitmap_memory img);
  b ← logln (chars "CP12: pmm init done") b;
  p ← free_regions regions p;
  b ← logln (chars "CP13: free regions done") b;
  let bitmap_size := bitmapSizeFor highest in
  b ← log_hex (chars "CP14: bitmap_size = ") bitmap_size b;
  p ← markRegionUsed 0 (u64 (bitmap_addr + bitmap_size)) p;
  let b := with_memory b p None in
  b ← logln (chars "CP15: mark used done") b;
  b ← logln (chars "CP16: vmm init done") b;
  b ← announce (chars "VMM initialized.") b;
  h ← Heap.init (Vmm.mkMachine (boot_memory img) (boot_cr3 img) p);
  let b := with_memory b (Vmm.frames (vm h)) (Some h) in
  b ← logln (chars "CP17: heap init done") b;
  announce (chars "Heap initialized.") b.

(** The line that counts the devices passes an [int] where 64 bits are read. *)
Definition init_devices b : outcome (Boot E P) :=
  d ← enumerate (mkPci (pci_devices b) (pci_count b) (Interrupts.ports (core b)));
  let b := with_devices (with_core b (with_ports (core b) (pci_ports d))) (g_pci_devices d) (g_pci_devices_index d) in
  on_screen (printf (chars "%rPCI initialized, found %d devices.%r" ++ [10]) [ArgInt GREEN; ArgInt (pci_count b); ArgInt WHITE]) b.

Definition STACK_SIZE : Z := 16384.

(** One task for each entry; the kernel does not look at the results. *)
Fixpoint create_tasks (entries : list Z) (s : Sched E) : outcome (list Z * Sched E) :=
  match entries with
  | [] => mret ([], s)
  | entry :: entries' =>
      '(r, s) ← createTask entry STACK_SIZE s;
      '(rs, s) ← create_tasks entries' s;
      mret (r :: rs, s)
  end.

(** The calls of [createTask] and [Scheduler::start]. *)
Definition launch (entries : list Z) (s : Sched E) : outcome (Z * Sched E) := '(_, s) ← create_tasks entries s; start s.

Definition with_env (s : Sched E) (e : E) : Sched E :=
  mkSched (tasks s) (Scheduler.frames s) (g_current s) (Scheduler.g_tail s) (g_next_id s) (g_started s) (g_pending_cleanup s)
    (g_next_task_rsp s) (tss_rsp0 s) (cpu_cr3 s) (kbd_focus s) e.

Definition start_tasks b : outcome (Boot E P) :=
  let b := with_line b (ShellLine.init (line b)) in
  b ← on_screen (printf ([10] ++ chars "%r") [ArgInt WHITE]) b;
  h ← (match g_heap b with Some h => mret h | None => Fault end);
  let b := with_core b (with_sched (core b) (Scheduler.init (with_env (sched (core b)) (env_of h)))) in
  b ← on_screen (fun t => mret (setColor 0xF 0x0 t)) b;
  '(_, s) ← launch [Shell_run img; StatusBar_time img; StatusBar_date img] (sched (core b));
  mret (with_core b (with_sched (core b) s)).

Definition kernel_main b : outcome (Boot E P) :=
  b ← init_console b; b ← init_interrupts b; b ← init_memory b; b ← init_devices b; start_tasks b.

(** ** Memory *)

(** A call that prints leaves the heap alone. *)
Lemma on_ports_heap f b (b' : Boot E P) : on_ports f b = Ok b' -> g_heap b' = g_heap b.
Proof. unfold on_ports. destruct (f _); [|done..]. by intros [= <-]. Qed.

Lemma on_screen_heap f b (b' : Boot E P) : on_screen f b = Ok b' -> g_heap b' = g_heap b.
Proof. unfold on_screen. destruct (f _); [|done..]. by intros [= <-]. Qed.

(** Between the messages, [init_memory] is [setup_memory] of [Boot], whose
    frames the heap then draws on. *)
Lemma init_memory_setup b (b' : Boot E P) : init_memory b = Ok b' ->
  exists p h, setup_memory (multiboot_info img) (kernel_physical_end img) (bitmap_memory img) = Ok p /\
    Heap.init (Vmm.mkMachine (boot_memory img) (boot_cr3 img) p) = Ok h /\ g_heap b' = Some h.
Proof.
  unfold init_memory. cbv zeta. intros Hb. apply bind_ok in Hb as ([? highest] & Eh & Hb). apply bind_ok in Hb as (b1 & _ & Hb).
  apply bind_ok in Hb as ([? regions] & Er & Hb). do 4 apply bind_ok in Hb as (? & _ & Hb).
  apply bind_ok in Hb as (p0 & E0 & Hb). apply bind_ok in Hb as (? & _ & Hb). apply bind_ok in Hb as (p1 & E1 & Hb).
  do 2 apply bind_ok in Hb as (? & _ & Hb). apply bind_ok in Hb as (p2 & E2 & Hb). do 3 apply bind_ok in Hb as (? & _ & Hb).
  apply bind_ok in Hb as (h & Eheap & Hb). apply bind_ok in Hb as (bl & Elog & Hb). exists p2, h.
  apply on_screen_heap in Hb. apply on_ports_heap in Elog. split_and!; [|done | by rewrite Hb, Elog].
  unfold setup_memory. run_call Eh. run_call Er. run_call E0. by run_call E1.
Qed.

(** ** The first tasks *)

(** What a task shows besides its place in the ring. *)
Definition face (t : Task) : Z * TaskState * Z := (id t, state t, rsp t).

Definition tracked (s : Sched E) : Prop := forall a, is_Some (tasks s !! a) -> a ∈ ts_live (env s).

Lemma link_task_frame p t s (s' : Sched E) : link_task p t s = Ok s' ->
  env s' = env s /\ g_current s' = g_current s /\ g_started s' = g_started s /\ g_pending_cleanup s' = g_pending_cleanup s /\
  forall a, a <> p -> face <$> tasks s' !! a = face <$> tasks s !! a.
Proof.
  unfold link_task. destruct (Scheduler.g_tail s =? 0).
  - intros [= <-]. cbn. split_and!; try done. intros a Ha. by rewrite lookup_insert_ne.
  - unfold get_task. destruct (tasks s !! Scheduler.g_tail s) as [tl|] eqn:Et; [|done]. intros [= <-]. cbn.
    split_and!; try done. intros a Ha. destruct (decide (a = Scheduler.g_tail s)) as [->|Hne].
    + by rewrite lookup_insert_eq, Et.
    + by rewrite !lookup_insert_ne.
Qed.

Lemma kmalloc_grows n e p e' : ts_ok e -> ts_kmalloc n e = Ok (p, e') ->
  ts_ok e' /\ ts_live e ⊆ ts_live e' /\ (p <> 0 -> p ∈ ts_live e').
Proof.
  intros Hok Ek. destruct (ts_kmalloc_spec n e Hok) as (p' & e1 & E1 & Hok1 & Hl). rewrite Ek in E1. injection E1 as <- <-.
  split; [done|]. destruct Hl as [[-> ->]|(_ & _ & ->)]; [split; [done | congruence] | split; [set_solver | set_solver]].
Qed.

(** What [createTask] leaves alone. *)
Lemma createTask_frame entry sz s p (s' : Sched E) : ts_ok (env s) -> tracked s -> createTask entry sz s = Ok (p, s') ->
  tracked s' /\ g_current s' = g_current s /\ g_started s' = g_started s /\ g_pending_cleanup s' = g_pending_cleanup s /\
  (p = 0 -> g_next_id s' = g_next_id s /\ tasks s' = tasks s) /\ forall a, a <> p -> face <$> tasks s' !! a = face <$> tasks s !! a.
Proof.
  intros Hok Hlive. unfold createTask.
  destruct (ts_kmalloc SIZEOF_Task (env s)) as [[q e1]| |] eqn:E1; cbn [mbind outcome_bind]; [|done..].
  destruct (kmalloc_grows _ _ _ _ Hok E1) as (Hok1 & Hl1 & Hq).
  destruct (ts_kmalloc sz e1) as [[st e2]| |] eqn:E2; cbn [mbind outcome_bind]; [|done..].
  destruct (kmalloc_grows _ _ _ _ Hok1 E2) as (Hok2 & Hl2 & _).
  destruct (ts_kmalloc sz e2) as [[ks e3]| |] eqn:E3; cbn [mbind outcome_bind]; [|done..].
  destruct (kmalloc_grows _ _ _ _ Hok2 E3) as (Hok3 & Hl3 & _).
  destruct ((q =? 0) || (st =? 0) || (ks =? 0)) eqn:Enull.
  { intros [= <- <-]. split_and!; try done. intros a Ha. cbn in *. apply Hlive in Ha. set_solver. }
  destruct (ts_create_space e3) as [[pm e4]| |] eqn:E4; cbn [mbind outcome_bind]; [|done..].
  destruct (ts_create_space_spec e3 Hok3) as (pm' & e4' & E4' & _ & Hl4). rewrite E4 in E4'. injection E4' as <- <-.
  destruct (pm =? 0) eqn:Epm.
  { intros [= <- <-]. split_and!; try done. intros a Ha. cbn in *. apply Hlive in Ha. rewrite Hl4. set_solver. }
  set (fa := align16 _). set (t := mkTask fa _ _ _ _ _ _ _ _ _ _). set (s1 := mkSched _ _ _ _ _ _ _ _ _ _ _ _).
  destruct (link_task q t s1) as [s2| |] eqn:El; cbn [mbind outcome_bind]; [|done..]. intros [= <- <-].
  assert (Hq0 : q <> 0) by lia. destruct (link_task_frame q t s1 s2 El) as (Ee & Ec & Es & Ep & Hf). cbn in Ee, Ec, Es, Ep, Hf.
  split_and!; try done. intros a Ha. rewrite Ee, Hl4. destruct (decide (a = q)) as [->|Hne]; [set_solver|].
  specialize (Hf a Hne). destruct Ha as [ta Hta]. rewrite Hta in Hf. destruct (tasks s !! a) eqn:Hsa; [|done].
  assert (a ∈ ts_live (env s)) by (apply Hlive; by rewrite Hsa). set_solver.
Qed.

(** The tasks [ord] were created, in this order, and none runs yet. *)
Record starting (s : Sched E) (ord : list Z) : Prop := {
  sg_ok : ts_ok (env s);
  sg_tracked : tracked s;
  sg_ring : task_ring s ord;
  sg_next : g_next_id s = 1 + Z.of_nat (length ord);
  sg_pending : g_pending_cleanup s = [];
  sg_tasks : forall i a, ord !! i = Some a -> exists t, tasks s !! a = Some t /\ id t = 1 + Z.of_nat i /\ state t = Ready;
  sg_all : forall a, is_Some (tasks s !! a) -> a ∈ ord;
}.

Lemma face_eq (x y : option Task) t : face <$> x = face <$> y -> y = Some t ->
  exists t', x = Some t' /\ id t' = id t /\ state t' = state t /\ rsp t' = rsp t.
Proof. intros Hf ->. destruct x as [t'|]; [|done]. cbn in Hf. injection Hf as ? ? ?. by exists t'. Qed.

Lemma createTask_starting entry s ord : starting s ord -> Z.of_nat (length ord) < 2 ^ 32 - 2 ->
  exists r s', createTask entry STACK_SIZE s = Ok (r, s') /\ starting s' (ord ++ filter (fun p => p <> 0) [r]).
Proof.
  intros [S1 S2 S3 S4 S5 S6 S7] Hlen.
  destruct (createTask_ok entry STACK_SIZE s ord S1 S3 ltac:(lia) S2) as (r & s' & E1 & Hok & Hcase).
  destruct (createTask_frame entry STACK_SIZE s r s' S1 S2 E1) as (Htr & _ & _ & Epend & Hzero & Hface).
  exists r, s'. split; [done|]. destruct Hcase as [(-> & Et & Etail)|(Hr & Hnone & Hring & Hid & t & Ht & Hst & Hidt & _)].
  - destruct (Hzero eq_refl) as [En _]. rewrite filter_cons_False by auto. rewrite filter_nil, app_nil_r.
    constructor; rewrite ?Et, ?En, ?Epend; try done. unfold task_ring in *. by rewrite Et, Etail.
  - rewrite filter_cons_True by done. rewrite filter_nil. constructor; try done.
    + rewrite length_app. cbn. lia.
    + by rewrite Epend.
    + intros i a Hi. apply lookup_app_Some in Hi as [Hi|[Hi1 Hi2]].
      * destruct (S6 i a Hi) as (t0 & Ht0 & Hid0 & Hs0). assert (Har : a <> r) by (intros ->; congruence).
        destruct (face_eq _ _ t0 (Hface a Har) Ht0) as (t' & Ht' & Ei & Es & _). exists t'. by rewrite Ei, Es.
      * apply list_lookup_singleton_Some in Hi2 as [Hi0 <-]. exists t. split_and!; [done | rewrite Hidt, S4; lia | done].
    + intros a [t' Ht']. apply elem_of_app. destruct (decide (a = r)) as [->|Har]; [right; by left | left]. apply S7.
      destruct (face_eq _ _ t' (eq_sym (Hface a Har)) Ht') as (t0 & Ht0 & _). by exists t0.
Qed.

Lemma create_tasks_ok entries : forall s ord, starting s ord -> Z.of_nat (length ord + length entries) < 2 ^ 32 - 2 ->
  exists rs s', create_tasks entries s = Ok (rs, s') /\ length rs = length entries /\
    starting s' (ord ++ filter (fun p => p <> 0) rs).
Proof.
  induction entries as [|entry entries IH]; intros s ord Hs Hlen; cbn [create_tasks length] in *.
  - exists [], s. rewrite filter_nil, app_nil_r. done.
  - destruct (createTask_starting entry s ord Hs) as (r & s1 & E1 & Hs1); [lia|]. run_call E1.
    assert (Hfl : (length (filter (fun p => p <> 0%Z) [r]) <= 1)%nat) by (rewrite length_filter; done).
    destruct (IH s1 _ Hs1) as (rs & s2 & E2 & Hl & Hs2); [rewrite length_app; lia|]. run_call E2.
    exists (r :: rs), s2. split; [done|]. split; [cbn; lia|]. rewrite <- app_assoc in Hs2. change (r :: rs) with ([r] ++ rs). by rewrite list.filter_app.
Qed.

(** The processor enters the task at [a] with the stack pointer [sp]. *)
Definition entered (s : Sched E) (a sp : Z) : Prop := exists t, tasks s !! a = Some t /\ state t = Running /\
  sp = rsp t /\ tss_rsp0 s = kernel_stack_top t /\ cpu_cr3 s = plm4_phys t.

Lemma start_ok s first rest : starting s (first :: rest) ->
  exists sp s', start s = Ok (sp, s') /\ sched_inv s' (rest ++ [first]) /\ g_current s' = first /\ entered s' first sp /\
    forall i a, (first :: rest) !! i = Some a -> exists t, tasks s' !! a = Some t /\ id t = 1 + Z.of_nat i /\
      state t = if (i =? 0)%nat then Running else Ready.
Proof.
  intros [S1 S2 S3 S4 S5 S6 S7]. destruct S3 as [[_ ?]|Hr]; [done|].
  destruct (S6 0%nat first eq_refl) as (t & Ht & Hid & Hst).
  pose proof (ring_follows _ _ _ Hr) as [(tl & Htl & En) _].
  unfold start. run_call (get_task_ok _ _ _ Htl). rewrite En. run_call (mod_task_ok first (set_state Running) t s Ht).
  rewrite (get_task_ok first (set_state Running t)) by (simpl; apply lookup_insert_eq).
  cbn [mbind outcome_bind mret outcome_ret]. eexists _, _. split; [reflexivity|].
  assert (Hf0 : forall i a, rest !! i = Some a -> a <> first).
  { intros i a Hi ->. pose proof (ring_nodup _ _ _ Hr) as Hn. apply list.NoDup_cons in Hn as [Hn _].
    apply Hn. by eapply list_elem_of_lookup_2. }
  split; [|split; [done|split; [eexists; split; [cbn; apply lookup_insert_eq | done]|]]].
  - constructor; cbn; try done.
    + apply (ring_rotate _ (Scheduler.g_tail s) []). apply (ring_ext (tasks s)); [|done]. by apply same_next_insert.
    + pose proof (ring_current _ _ _ Hr). set_solver.
    + intros a ta Ha HR. destruct (decide (a = first)) as [->|Hne]; [done|]. exfalso.
      rewrite lookup_insert_ne in Ha by done. assert (Hin : a ∈ first :: rest) by (apply S7; by rewrite Ha).
      apply list_elem_of_lookup_1 in Hin as [i Hi]. destruct (S6 i a Hi) as (t' & Ht' & _ & Hs'). congruence.
    + by rewrite S5.
  - intros i a Hi. cbn. destruct i as [|i].
    + injection Hi as <-. exists (set_state Running t). by rewrite lookup_insert_eq.
    + destruct (S6 (S i) a Hi) as (t' & Ht' & Hid' & Hs'). exists t'. rewrite lookup_insert_ne; [done|].
      intros <-. by apply (Hf0 i first Hi).
Qed.

Lemma start_nothing s : starting s [] -> start s = Fault.
Proof.
  intros [_ _ S3 _ _ _ S7]. assert (Hn : forall a, tasks s !! a = None).
  { intros a. destruct (tasks s !! a) eqn:Ha; [|done]. assert (a ∈ []) as []%not_elem_of_nil by (apply S7; by rewrite Ha). }
  unfold start, get_task. by rewrite Hn.
Qed.

Lemma init_starting s : ts_ok (env s) -> tasks s = ∅ -> starting (Scheduler.init s) [].
Proof.
  intros Hok Ht. constructor; cbn; try done; rewrite ?Ht; try done.
  - intros a [t Ha]. cbn in Ha. by rewrite Ht in Ha.
  - by left.
  - intros a [t Ha]. done.
Qed.

(** C11. The scheduler starts in its invariant: [Scheduler::init], the calls of
    [createTask] and [Scheduler::start] return with the tasks that could be
    created in the ring, in the order of their entries and numbered from 1,
    the first one running and the others ready; the processor enters the
    first one with its stack, its kernel stack and its address space.  A task that cannot be created
    is left out without a word, and when none could [start] follows a null
    pointer. *)
Theorem launch_establishes entries s : ts_ok (env s) -> tasks s = ∅ -> Z.of_nat (length entries) < 2 ^ 32 - 2 ->
  exists rs s1, create_tasks entries (Scheduler.init s) = Ok (rs, s1) /\ length rs = length entries /\
    match filter (fun p => p <> 0) rs with
    | [] => launch entries (Scheduler.init s) = Fault
    | first :: rest =>
        exists sp s', launch entries (Scheduler.init s) = Ok (sp, s') /\ sched_inv s' (rest ++ [first]) /\ g_current s' = first /\
          entered s' first sp /\
          forall i a, (first :: rest) !! i = Some a -> exists t, tasks s' !! a = Some t /\ id t = 1 + Z.of_nat i /\
            state t = if (i =? 0)%nat then Running else Ready
    end.
Proof.
  intros Hok Ht Hlen. destruct (create_tasks_ok entries _ [] (init_starting s Hok Ht)) as (rs & s1 & E1 & Hl & Hs); [simpl; lia|].
  cbn [app] in Hs. exists rs, s1. split; [done|]. split; [done|]. unfold launch. rewrite E1. cbn [mbind outcome_bind].
  destruct (filter (fun p => p <> 0) rs) as [|first rest]; [by apply start_nothing | by apply start_ok].
Qed.
End KernelMain.

(** The three tasks of the kernel, on a heap that does not run out. *)
Lemma launch_establishes_witness : exists rs s' first rest,
  create_tasks [1000; 2000; 3000] (Scheduler.init (mkSched ∅ ∅ 0 0 0 false [] 0 0 0 0 ∅)) = Ok (rs, s') /\
  filter (fun p => p <> 0) rs = first :: rest /\ length rest = 2%nat /\
  exists sp s'', launch [1000; 2000; 3000] (Scheduler.init (mkSched ∅ ∅ 0 0 0 false [] 0 0 0 0 (∅ : gset Z))) = Ok (sp, s'') /\
    sched_inv s'' (rest ++ [first]) /\ g_current s'' = first.
Proof.
  destruct (launch_establishes [1000; 2000; 3000] (mkSched ∅ ∅ 0 0 0 false [] 0 0 0 0 (∅ : gset Z))) as (rs & s1 & Ec & Hl & Hm);
    [exact I | reflexivity | simpl; lia |].
  destruct (filter (fun p => p <> 0) rs) as [|first rest] eqn:Ef.
  - exfalso. vm_compute in Ec. injection Ec as <- _. vm_compute in Ef. discriminate Ef.
  - destruct Hm as (sp & s' & El & Hinv & Hcur & _). exists rs, s1, first, rest. split; [exact Ec|]. split; [exact Ef|].
    split; [|exists sp, s'; split; [exact El | split; [exact Hinv | exact Hcur]]].
    vm_compute in Ec. injection Ec as <- _. vm_compute in Ef. injection Ef as _ <-. reflexivity.
Defined.
